(* ===== verification/_CoqProject ===== *)
-Q . S2P
Prelude.v
GoText.v
Apierr.v
Effects.v
Logic.v
Authz.v
Middleware.v
Model.v
Validation.v
Digest.v
Ptime.v
Sealed.v
Pagination.v
AuthRepo.v
AuthService.v
AuthHandler.v
AuthTables.v
AuthCodes.v
AuthTokens.v
EmailOutbox.v
EmailProps.v
AuthUniform.v
ImageAccess.v
ImageAccessProps.v
ImageAccessLiveness.v
Notifications.v
NotificationProps.v
Concrete.v
Examples.v
Money.v
PostValidation.v
PostRepo.v
CommentRepo.v
UserRepo.v
Json.v
Moderation.v
UserService.v
SingleReview.v
PostService.v
CommentService.v
Floors.v
PostTables.v
PostProps.v
PostOps.v
Counters.v
CommentLedger.v
CommentOps.v
UserOps.v
ReviewOps.v
PostEdits.v
PostReviews.v
PostGate.v
PostLedger.v
CommentGate.v
CommentReads.v
Bystanders.v
Names.v
PostExamples.v
CommentExamples.v
DictionaryRepo.v
DictionaryService.v
DictionaryWrites.v
DictionaryProps.v
DictionarySystem.v
DictionaryApproval.v
DictionaryExamples.v
ImageRetry.v
ImageRetryProps.v
Upload.v
UploadProps.v
UploadExamples.v
Administration.v
AdminUsersProps.v
PostReads.v
AdminReads.v
Endpoints.v
ApiProps.v
ReadProps.v
AdminTagsProps.v
ApiExamples.v
