(* ===== verification/Prelude.v ===== *)
(** * Danshi backend: a verification development

    Danshi is the HTTP backend of a campus food forum: accounts and sessions, posts and
    their moderation, notifications, images behind an object store and a CDN.  This
    library models the Go code under [src/internal/] as Rocq definitions that evaluate,
    and proves what makes the modelled parts correct.

    ** How the program is put together

    A request runs through a pipeline of middleware that opens a database transaction
    around the handler ([UnitOfWork]); the handler calls a service, the service calls
    repositories, each repository method is one or two SQL statements.  Work for the
    outside world is written to outbox tables in the same transaction; background
    workers claim it under leases and call the providers between their transactions.

    ** How it is modelled

    - [Effects] (infra/db/uow.go, before_commit.go, after_commit.go): a computation is a
      function from a state to Go's [(result, error)] and a state.  Inside a transaction
      the state is [Tx]: the tables, whether a statement failed, the counters of what was
      consumed (clock readings, random draws, identities), the two hook queues.  [Env] is
      the world: clock, randomness and the failures of statements, [BEGIN] and [COMMIT],
      all arbitrary.  [RunInTx] commits or rolls back.  Between two transactions of a
      worker other processes act on the tables ([Interference]).
    - [Logic]: inversion of runs, and the judgements [Keeps] (a relation between the
      tables before and after every run) and [Inv] with the tactics [solve_keeps],
      [run_inv], [keeps_run] that most proofs are made of.
    - [Model] (model/*.go, migrations/*.sql): rows as records, tables as finite maps by
      primary key, enumerations as the strings the code uses; [DB] has the modelled
      tables.  Constraints and triggers that decide what a statement does are part of the
      statement; the others may fail any statement ([Env]).
    - [Apierr] (apierr/*.go, pkg/envelope): every error value the modelled code makes or
      tests, with its [Unwrap] chain.  [GoText]: byte strings, UTF-8, strconv.  [Digest]
      and [Sealed]: SHA-256, HMAC, AES-GCM and base64 written out.  [Json]: json.Valid.

    ** The parts

    - The pipeline: [Middleware] (middleware/*.go, httpx), [Authz] (authz/authz.go).
      Atomicity of a request, who reaches a handler, the in-flight limit as a step
      relation, the separation of roles.
    - Accounts: [Validation], [Digest] (pkg/usernamepolicy, service/auth_validation.go,
      pkg/jwtx, pkg/passwordx), [AuthRepo] (repository/auth.go), [AuthService]
      (service/auth.go), [AuthHandler] (handler/auth.go, router/auth.go).  [AuthTables]:
      the schema's constraints hold in every reachable state.  [AuthCodes]: each challenge
      refines an abstract machine; single use, counting, rate limits.  [AuthTokens]: who is
      authenticated, revocation, password reset, token types.  [AuthUniform]: the answer
      to a reset request does not tell whether an account exists.
    - Mail: [EmailOutbox], [EmailProps] (repository and service email_delivery.go).  Leases
      exclude, fence and expire; no stale mail; a bounded number of attempts.
    - Image access: [ImageAccess], [ImageAccessProps], [ImageAccessLiveness]
      (repository/image_access.go, service/image_access_*.go).  Constraints, the newest
      intent wins, every delivery is closed within a bounded number of turns.
    - Pages: [Pagination] (pkg/pagination) and [Notifications], [NotificationProps]
      (notification.go in repository, service, handler, router).  Cursor round trip, the
      walk over a changing list.
    - Posts: [Money] (pkg/money), [PostValidation] (service/post_validation.go),
      [PostRepo] (repository/post.go, post_relations.go with the triggers), [Moderation]
      (repository/moderation.go, service/moderation_callback.go), [PostService]
      (service/post_write.go, the writes of post.go, the posts of admin_content.go and
      admin_moderation.go).  [PostTables]: the part of the tables the publication depends
      on ([view]), the invariant [posts_ok] and the relation [gate].  [PostProps],
      [PostEdits], [PostReviews]: each operation keeps the one and satisfies the other.
      [PostOps]: the operations as sequences of writing statements (class [PostWrites]).
    - Comments: [CommentRepo] (repository/comment.go, comment_relations.go with the
      counter triggers), [CommentService] (service/comment*.go, history_moderation.go, the
      comments of admin_content.go).  [Floors] is the arithmetic of replies shown under
      roots, [Counters] the recount of migration 00009 and the relation [ledger],
      [CommentLedger] and [CommentOps] the statements and operations against them,
      [CommentGate] what a comment shows and what a review does to it, [CommentReads] what
      a reader of the lists sees.
    - People: [UserRepo] (repository/user_domain.go with the triggers on names and
      avatars), [UserService] (service/user.go, username_review.go), [UserOps].
      [Bystanders]: relations that the auth service and all units of work keep, whatever
      they are about (class [Bystander]).  [Names] is one: a name is never passed on and
      changes rarely, over any interleaving.
    - Dictionaries: [DictionaryRepo] (repository/dictionary.go; the class [Dictionary] says
      what the schema makes of each of the four tables), [DictionaryService]
      (service/dictionary.go, dictionary_crud.go).  [DictionaryWrites]: every operation is a
      sequence of the steps [dict_write]; [DictionaryProps]: the steps keep the constraints
      and move suggestions once; [DictionarySystem]: so does everything, interleaved;
      [DictionaryApproval]: what an approval does, to the dictionaries and to the post.
    - Single reviews: [SingleReview] (ManualReview of service/moderation_callback.go and
      its statements in repository/moderation.go), [ReviewOps].
    - Uploads: [Upload] (repository/upload.go, service/upload.go and its expiration worker)
      and [ImageRetry] (the queue and worker of image_moderation_retry*.go, the moderator's
      port).  [UploadProps], [ImageRetryProps]: what a grant accepts, what completing one
      does, which objects an expiration may delete, the turns and attempts of the worker.
    - Administration: [Administration] (repository/admin_write.go, admin_tags.go,
      service/admin_users.go, admin_tags.go).  [AdminUsersProps]: bans lock out, roles and
      their ledger agree; [AdminTagsProps]: merging and renaming, and what they do to the
      reviews of the posts.
    - Reading: [PostReads] (the queries of repository/post.go and post_relations.go, the
      views of service/post*.go and image_view.go, the lists of posts of service/user.go)
      and [AdminReads] (repository/admin_read.go, service/admin_read.go).  [ReadProps]: what
      the feed shows, its pages, opening a post, the queue of the reviewers.
    - The whole API: [Endpoints] (handler/*.go, router/*.go) has a Module per domain with
      its bodies, handlers and table of routes, and [Router], where any request goes to any
      domain ([Register]) any number of times ([api_step]).  [ApiProps]: who may change roles
      and bans, and that reading changes nothing, over every request.
    - Together: [PostGate] collects the operations of the four services ([run_op]) and
      proves the publication gate and the invariant of the posts over every sequence of
      units of work; [PostLedger] that versions and verdicts are only appended to, that the
      counters are those of a full recount, and that a provider's task is applied once.
    - [Concrete] instantiates every parameter; [Examples], [PostExamples],
      [CommentExamples], [DictionaryExamples], [UploadExamples] and [ApiExamples] run the
      model and apply the theorems.

    How a whole-service theorem is proved: a class ([PostWrites], [CommentWrites],
    [UserWrites], [ReviewWrites]) says that every writing statement of a service keeps a
    relation between tables; from it the operations keep the relation, once and for all.
    [view], [ledger], [spares], [names] are such relations, each with its instances.  For
    the endpoints [Handles] lifts such a relation from the services through handlers,
    guards and the pipeline.

    ** Bounds and fuel

    Go integers are wrapped where they can leave their width ([wrap64], [wrap32]); the
    loops of the back-off computations have fuel 64, more than the doublings of a positive
    64-bit duration; [FormatInt] has fuel 20, the digits of 64 bits; the JSON scanner has
    fuel [2 * length + 1], since each call consumes a byte or enters a nested value.
    Lemmas state that the fuel suffices where a theorem depends on it.

    ** Parameters

    The JWT library, bcrypt, NFKC and the Unicode tables, PostgreSQL's [lower],
    [normalize], [ILIKE] and the floating-point score of the trending order ([PgLike],
    [PgTrending]), mail parsing, URL parsing ([URLLib]), the decoding of JSON fields
    ([JSONLib], [JSONFields]), the decimal library, the moderation, mail, storage and CDN
    providers are not in the repository.  They are parameters ([JWT], [Bcrypt], [Unicode],
    [Pg], [Mail], [Decimal] and records of functions); what a theorem needs of them is a
    class of laws ([JWTLaws], [DecimalOk], ...) or a hypothesis, met in [Concrete],
    [PostExamples] and [ApiExamples].

    ** Not modelled

    Isolation below whole transactions (row locks serialise the modelled writers);
    truncation of instants to microseconds; logs, traces and metrics; timers that only
    decide when a worker runs; encoding of responses.  Goroutines of a worker's batch own
    different rows and are taken in order, with interference between their transactions.
    Not modelled at all: search (a full-text query), the callback endpoint around
    [ApplyImageCallback], runtime configuration, alerting, the probe that watches an image
    provider; the legacy importer, document generators, provider adapters, commands and
    start-up (input and output, or tools). *)

From stdpp Require Export base decidable option list strings gmap.
From Stdlib Require Export ZArith Lia Ascii Sorted.
From Stdlib Require String.

(** ** Go's fixed-width integers

    [int], [int64] and [time.Duration] are 64-bit two's complement on every
    platform the service is built for; arithmetic wraps silently. *)
Definition int64_min : Z := - 2 ^ 63.
Definition int64_max : Z := 2 ^ 63 - 1.

Definition in_int64 (z : Z) : bool := (int64_min <=? z)%Z && (z <=? int64_max)%Z.

Definition wrap64 (z : Z) : Z := ((z + 2 ^ 63) `mod` 2 ^ 64 - 2 ^ 63)%Z.

Definition wrapu64 (z : Z) : Z := (z `mod` 2 ^ 64)%Z.

Definition wrap32 (z : Z) : Z := ((z + 2 ^ 31) `mod` 2 ^ 32 - 2 ^ 31)%Z.

(** [time.Time.Sub] saturates instead of wrapping. *)
Definition sat64 (z : Z) : Z := Z.max int64_min (Z.min int64_max z).

(** Instants are nanoseconds since the Unix epoch, in UTC; durations are
    nanoseconds. *)
Abbreviation time := Z (only parsing).
Abbreviation duration := Z (only parsing).

Definition Microsecond : duration := 1000.
Definition Millisecond : duration := 1000 * Microsecond.
Definition Second : duration := 1000 * Millisecond.
Definition Minute : duration := 60 * Second.
Definition Hour : duration := 60 * Minute.

(** The zero [time.Time]: year 1. *)
Definition zero_time : time := (-62135596800 * Second)%Z.

Definition time_Sub (t u : time) : duration := sat64 (t - u).
Definition time_After (t u : time) : bool := (u <? t)%Z.
Definition time_Add (t : time) (d : duration) : time := (t + d)%Z.

(** ** Record update

    A record type declares its eta expansion once; [r <| proj := v |>] is then
    the record with one field replaced. *)
Class Eta (R : Type) := eta : R -> R.

Class Setter {R F : Type} (proj : R -> F) := set_field : F -> R -> R.
Arguments set_field {R F} proj {_} _ _.

Ltac term_head t :=
  lazymatch t with
  | ?f _ => term_head f
  | _ => t
  end.

Ltac build_setter proj :=
  lazymatch type of proj with
  | ?R -> ?F =>
      let e := lazymatch constr:(@eta R _) with
               | @eta _ ?d => let h := term_head d in eval cbv beta delta [h] in d
               end in
      let s := constr:(fun (v : F) (x : R) =>
        ltac:(let b := eval cbv beta in (e x) in
              lazymatch b with
              | context C [proj x] => let b' := context C [v] in exact b'
              end)) in
      exact s
  end.

#[export] Hint Extern 1 (Setter ?proj) => build_setter proj : typeclass_instances.

Declare Scope record_scope.
Delimit Scope record_scope with rec.
Notation "r <| proj := v |>" := (set_field proj v r)
  (at level 1, left associativity, format "r  <| proj  :=  v |>") : record_scope.
Open Scope record_scope.

(** ** Membership in closed lists is decided by evaluation *)
Ltac in_list := apply list_elem_of_In; vm_compute; tauto.
Ltac not_in_list :=
  let Hin := fresh "Hin" in
  intros Hin; apply list_elem_of_In in Hin; vm_compute in Hin;
  repeat (destruct Hin as [Hin|Hin]; [discriminate Hin|]); destruct Hin.
