(* ===== verification/GoText.v ===== *)
(** * Go strings

    A Go [string] is a sequence of bytes: Rocq's [string], whose [ascii]
    characters are the bytes.  This file models the parts of [unicode/utf8],
    [strings] and [strconv] the service uses; the Unicode tables themselves
    (letters, numbers, case mapping) and NFKC normalisation are data of the
    toolchain and of golang.org/x/text, and stay parameters ([Unicode]). *)

From S2P Require Import Prelude.
Open Scope Z_scope.

Definition byte_of (a : ascii) : Z := Z.of_N (N_of_ascii a).
Definition of_byte (b : Z) : ascii := ascii_of_N (Z.to_N b).

Fixpoint bytes_of (s : string) : list Z :=
  match s with
  | EmptyString => []
  | String a s' => byte_of a :: bytes_of s'
  end.

Fixpoint string_of (l : list Z) : string :=
  match l with
  | [] => EmptyString
  | b :: l' => String (of_byte b) (string_of l')
  end.

(** [len(s)]. *)
Definition len (s : string) : Z := Z.of_nat (String.length s).

Fixpoint all_bytes (p : Z -> bool) (s : string) : bool :=
  match s with
  | EmptyString => true
  | String a s' => p (byte_of a) && all_bytes p s'
  end.

(** ** unicode/utf8 *)
Definition RuneError : Z := 65533.

Definition in_range (lo hi b : Z) : bool := (lo <=? b) && (b <=? hi).

Definition is_cont (b : Z) : bool := in_range 128 191 b.

(** Decodes the rune at the head of a byte sequence: the rune and the number of
    bytes it takes; an ill-formed sequence is [RuneError] of width 1. *)
Definition decode_rune (l : list Z) : Z * nat :=
  match l with
  | [] => (RuneError, 0%nat)
  | b0 :: l1 =>
      if b0 <? 128 then (b0, 1%nat)
      else
        let lo := if b0 =? 224 then 160 else if b0 =? 240 then 144 else 128 in
        let hi := if b0 =? 237 then 159 else if b0 =? 244 then 143 else 191 in
        match l1 with
        | [] => (RuneError, 1%nat)
        | b1 :: l2 =>
            if negb (in_range lo hi b1) then (RuneError, 1%nat)
            else if in_range 194 223 b0 then ((b0 - 192) * 64 + (b1 - 128), 2%nat)
            else
              match l2 with
              | [] => (RuneError, 1%nat)
              | b2 :: l3 =>
                  if negb (is_cont b2) then (RuneError, 1%nat)
                  else if in_range 224 239 b0 then
                    ((b0 - 224) * 4096 + (b1 - 128) * 64 + (b2 - 128), 3%nat)
                  else
                    match l3 with
                    | [] => (RuneError, 1%nat)
                    | b3 :: _ =>
                        if negb (is_cont b3) then (RuneError, 1%nat)
                        else if in_range 240 244 b0 then
                          ((b0 - 240) * 262144 + (b1 - 128) * 4096 +
                           (b2 - 128) * 64 + (b3 - 128), 4%nat)
                        else (RuneError, 1%nat)
                    end
              end
        end
  end.

(** The runes of a byte sequence, each with the bytes it was decoded from.
    [skip] counts the bytes of the current rune still to be passed over. *)
Fixpoint runes_from (skip : nat) (l : list Z) : list (Z * list Z) :=
  match l with
  | [] => []
  | _ :: l' =>
      match skip with
      | S k => runes_from k l'
      | O => let '(r, w) := decode_rune l in
             (r, firstn w l) :: runes_from (pred w) l'
      end
  end.

Definition rune_chunks (s : string) : list (Z * list Z) := runes_from 0 (bytes_of s).

(** [[]rune(s)] and [utf8.RuneCountInString]. *)
Definition runes (s : string) : list Z := map fst (rune_chunks s).
Definition RuneCountInString (s : string) : Z := Z.of_nat (length (runes s)).

(** UTF-8 encoding of a rune; surrogates and out-of-range values encode as
    [RuneError]. *)
Definition encode_rune (r : Z) : list Z :=
  let r := if (r <? 0) || (1114111 <? r) || in_range 55296 57343 r
           then RuneError else r in
  if r <? 128 then [r]
  else if r <? 2048 then [192 + r / 64; 128 + r mod 64]
  else if r <? 65536 then [224 + r / 4096; 128 + (r / 64) mod 64; 128 + r mod 64]
  else [240 + r / 262144; 128 + (r / 4096) mod 64;
        128 + (r / 64) mod 64; 128 + r mod 64].

(** [string(runes)]. *)
Definition string_of_runes (rs : list Z) : string :=
  string_of (flat_map encode_rune rs).

(** ** unicode: the tables *)
Class Unicode := {
  table_IsLetter : Z -> bool;
  table_IsNumber : Z -> bool;
  table_ToLower : Z -> Z;
  NFKC_String : string -> string;
}.

Definition ascii_upper (r : Z) : bool := in_range 65 90 r.
Definition ascii_lower (r : Z) : bool := in_range 97 122 r.
Definition is_digit (r : Z) : bool := in_range 48 57 r.

Definition IsSpace (r : Z) : bool :=
  in_range 9 13 r || (r =? 32) || (r =? 133) || (r =? 160) || (r =? 5760) ||
  in_range 8192 8202 r || (r =? 8232) || (r =? 8233) || (r =? 8239) ||
  (r =? 8287) || (r =? 12288).

Section tables.
Context `{Unicode}.

Definition IsLetter (r : Z) : bool :=
  if r <? 128 then ascii_upper r || ascii_lower r else table_IsLetter r.
Definition IsNumber (r : Z) : bool :=
  if r <? 128 then is_digit r else table_IsNumber r.
Definition rune_ToLower (r : Z) : Z :=
  if r <? 128 then (if ascii_upper r then r + 32 else r) else table_ToLower r.

(** [strings.ToLower]: runes are mapped one by one, ill-formed bytes become
    [RuneError]. *)
Definition ToLower (s : string) : string :=
  string_of_runes (map rune_ToLower (runes s)).
End tables.

(** ** strings *)
Fixpoint drop_spaces (l : list (Z * list Z)) : list (Z * list Z) :=
  match l with
  | [] => []
  | (r, c) :: l' => if IsSpace r then drop_spaces l' else l
  end.

(** [strings.TrimSpace]. *)
Definition TrimSpace (s : string) : string :=
  string_of (concat (map snd
    (rev (drop_spaces (rev (drop_spaces (rune_chunks s))))))).

(** A text that begins with a visible ASCII character does not trim to nothing. *)
Lemma drop_spaces_last l x : IsSpace (fst x) = false ->
  exists l', drop_spaces (l ++ [x]) = l' ++ [x].
Proof.
  destruct x as [r c]. cbn. intros Hx. induction l as [|[r' c'] l IH]; cbn.
  - rewrite Hx. by exists [].
  - destruct (IsSpace r'); [done|]. by exists ((r', c') :: l).
Qed.

Lemma TrimSpace_visible a s :
  0 <= byte_of a < 128 -> IsSpace (byte_of a) = false -> TrimSpace (String a s) <> ""%string.
Proof.
  intros Hr Hs. unfold TrimSpace, rune_chunks. cbn [bytes_of runes_from].
  replace (decode_rune (byte_of a :: bytes_of s)) with (byte_of a, 1%nat)
    by (unfold decode_rune; by rewrite (proj2 (Z.ltb_lt _ _)) by lia).
  cbn [drop_spaces pred firstn]. rewrite firstn_O, Hs. cbn [rev].
  destruct (drop_spaces_last (rev (runes_from 0 (bytes_of s))) (byte_of a, [byte_of a]) Hs)
    as [l' ->].
  by rewrite rev_app_distr.
Qed.

(** [strings.Cut(s, sep)] for a one-byte separator: before, after, found. *)
Fixpoint Cut (s : string) (sep : ascii) : string * string * bool :=
  match s with
  | EmptyString => (EmptyString, EmptyString, false)
  | String a s' =>
      if bool_decide (a = sep) then (EmptyString, s', true)
      else let '(before, after, found) := Cut s' sep in
           (String a before, after, found)
  end.

(** [strings.Count(s, sep)] for a one-byte separator. *)
Fixpoint Count (s : string) (sep : ascii) : Z :=
  match s with
  | EmptyString => 0
  | String a s' => (if bool_decide (a = sep) then 1 else 0) + Count s' sep
  end.

Definition Contains (s : string) (sep : ascii) : bool := 0 <? Count s sep.

Fixpoint HasPrefix (s p : string) : bool :=
  match p, s with
  | EmptyString, _ => true
  | String b p', String a s' => bool_decide (a = b) && HasPrefix s' p'
  | String _ _, EmptyString => false
  end.

(** [strings.Contains(s, sub)]. *)
Fixpoint ContainsString (s sub : string) : bool :=
  HasPrefix s sub || match s with String _ s' => ContainsString s' sub | EmptyString => false end.

(** [strings.FieldsFunc(s, r == ' ')] joined with one space: what
    [strings.Join(strings.FieldsFunc(...), " ")] computes.  The separator is a
    one-byte rune, so splitting bytes is splitting runes. *)
Fixpoint split_spaces (cur : string) (s : string) : list string :=
  let flush rest := match cur with EmptyString => rest | _ => cur :: rest end in
  match s with
  | EmptyString => flush []
  | String a s' =>
      if bool_decide (a = " "%char) then flush (split_spaces EmptyString s')
      else split_spaces (cur +:+ String a EmptyString) s'
  end.

Fixpoint join_spaces (l : list string) : string :=
  match l with
  | [] => EmptyString
  | [s] => s
  | s :: l' => s +:+ " " +:+ join_spaces l'
  end.

(** ASCII case-insensitive equality: [strings.EqualFold] against a literal made
    of letters that have no other Unicode case variants. *)
Definition lower_byte (a : ascii) : Z :=
  let b := byte_of a in if ascii_upper b then b + 32 else b.

Definition EqualFoldASCII (s t : string) : bool :=
  bool_decide (map lower_byte (String.list_ascii_of_string s)
             = map lower_byte (String.list_ascii_of_string t)).

(** ** strconv *)
Fixpoint parse_digits (acc : Z) (s : string) : option Z :=
  match s with
  | EmptyString => Some acc
  | String a s' =>
      if is_digit (byte_of a) then parse_digits (10 * acc + (byte_of a - 48)) s'
      else None
  end.

(** [strconv.ParseUint(s, 10, 64)]: decimal digits only, range-checked. *)
Definition ParseUint (s : string) : option Z :=
  match s with
  | EmptyString => None
  | _ => v ← parse_digits 0 s; if v <? 2 ^ 64 then Some v else None
  end.

(** [strconv.Atoi] and [strconv.ParseInt(s, 10, 64)]: an optional sign, then
    decimal digits, range-checked. *)
Definition ParseInt (s : string) : option Z :=
  let '(neg, body) :=
    match s with
    | String a s' =>
        if bool_decide (a = "-"%char) then (true, s')
        else if bool_decide (a = "+"%char) then (false, s')
        else (false, s)
    | EmptyString => (false, s)
    end in
  match body with
  | EmptyString => None
  | _ =>
      v ← parse_digits 0 body;
      if neg then (if v <=? 2 ^ 63 then Some (- v) else None)
      else (if v <? 2 ^ 63 then Some v else None)
  end.

Definition Atoi (s : string) : option Z := ParseInt s.

(** [strconv.FormatInt(v, 10)] and [strconv.Itoa]. *)
Definition digit_char (d : Z) : ascii := of_byte (48 + d).

Fixpoint format_digits (fuel : nat) (v : Z) (acc : string) : string :=
  match fuel with
  | O => acc
  | S fuel' =>
      let acc := String (digit_char (v mod 10)) acc in
      if v <? 10 then acc else format_digits fuel' (v / 10) acc
  end.

(** Twenty digits cover every 64-bit magnitude. *)
Definition FormatInt (v : Z) : string :=
  if v <? 0 then String "-"%char (format_digits 20 (- v) EmptyString)
  else format_digits 20 v EmptyString.

(** ["%06d"] on a value below one million, as six digits. *)
Definition fmt_06d (v : Z) : string :=
  string_of (map (fun k => 48 + (v / k) mod 10) [100000; 10000; 1000; 100; 10; 1]).

Example decode_han : runes "旦食" = [26086; 39135].
Proof. reflexivity. Qed.
Example encode_han : string_of_runes [26086; 39135] = "旦食"%string.
Proof. reflexivity. Qed.
Example trim_example :
  TrimSpace (String.append (string_of_runes [32; 12288; 9]) "ab c ")%string = "ab c"%string.
Proof. reflexivity. Qed.
Example atoi_example : Atoi "-042" = Some (-42) /\ Atoi "9223372036854775808" = None.
Proof. split; reflexivity. Qed.

(** ** UTF-8 lemmas *)
Definition is_byte (b : Z) : Prop := 0 <= b < 256.

Lemma byte_of_range a : is_byte (byte_of a).
Proof.
  unfold is_byte, byte_of. pose proof (N_ascii_bounded a). lia.
Qed.

Lemma byte_of_of_byte b : is_byte b -> byte_of (of_byte b) = b.
Proof.
  unfold is_byte, byte_of, of_byte. intros Hb.
  rewrite N_ascii_embedding by lia. lia.
Qed.

Lemma of_byte_of a : of_byte (byte_of a) = a.
Proof. unfold byte_of, of_byte. rewrite N2Z.id. apply ascii_N_embedding. Qed.

Lemma bytes_of_range s : Forall is_byte (bytes_of s).
Proof. induction s; cbn; constructor; [apply byte_of_range | done]. Qed.

Lemma bytes_of_string_of l : Forall is_byte l -> bytes_of (string_of l) = l.
Proof.
  induction 1 as [|b l Hb _ IH]; cbn; [done|]. by rewrite byte_of_of_byte, IH.
Qed.

Lemma string_of_bytes_of s : string_of (bytes_of s) = s.
Proof. induction s; cbn; [done|]. by rewrite of_byte_of, IHs. Qed.

Lemma length_string_of l : String.length (string_of l) = length l.
Proof. induction l; cbn; congruence. Qed.

Lemma length_bytes_of s : length (bytes_of s) = String.length s.
Proof. induction s; cbn; congruence. Qed.

Definition is_rune (r : Z) : Prop :=
  0 <= r <= 1114111 /\ ~ (55296 <= r <= 57343).

(** What [string([]rune{r})] writes when [r] is not a rune. *)
Definition sanitize (r : Z) : Z :=
  if (r <? 0) || (1114111 <? r) || in_range 55296 57343 r then RuneError else r.

Lemma sanitize_rune r : is_rune (sanitize r).
Proof.
  unfold sanitize, is_rune, in_range, RuneError.
  destruct (Z.ltb_spec r 0), (Z.ltb_spec 1114111 r),
    (Z.leb_spec 55296 r), (Z.leb_spec r 57343); cbn; lia.
Qed.

Lemma encode_sanitize r : encode_rune r = encode_rune (sanitize r).
Proof.
  unfold encode_rune at 1. fold (sanitize r). unfold encode_rune.
  pose proof (sanitize_rune r) as [? ?].
  assert ((if (sanitize r <? 0) || (1114111 <? sanitize r) ||
              in_range 55296 57343 (sanitize r) then RuneError else sanitize r)
          = sanitize r) as ->; [|done].
  unfold in_range. destruct (Z.ltb_spec (sanitize r) 0), (Z.ltb_spec 1114111 (sanitize r)),
    (Z.leb_spec 55296 (sanitize r)), (Z.leb_spec (sanitize r) 57343); cbn; lia.
Qed.

(** The four shapes of an encoded rune. *)
Lemma encode_rune_shape r : is_rune r ->
  (r < 128 /\ encode_rune r = [r]) \/
  (128 <= r < 2048 /\ encode_rune r = [192 + r / 64; 128 + r mod 64]) \/
  (2048 <= r < 65536 /\
     encode_rune r = [224 + r / 4096; 128 + (r / 64) mod 64; 128 + r mod 64]) \/
  (65536 <= r /\
     encode_rune r = [240 + r / 262144; 128 + (r / 4096) mod 64;
                      128 + (r / 64) mod 64; 128 + r mod 64]).
Proof.
  intros [Hr Hs]. unfold encode_rune, in_range.
  destruct (Z.ltb_spec r 0), (Z.ltb_spec 1114111 r), (Z.leb_spec 55296 r),
    (Z.leb_spec r 57343); try lia; cbn -[Z.div Z.modulo Z.add];
    (destruct (Z.ltb_spec r 128); [left; split; [lia|done]|right]);
    (destruct (Z.ltb_spec r 2048); [left; split; [lia|done]|right]);
    (destruct (Z.ltb_spec r 65536); [left|right]); split; done || lia.
Qed.

Ltac decide_ranges :=
  unfold is_cont, in_range; cbv zeta;
  repeat match goal with
  | |- context [?a =? ?b] => destruct (Z.eqb_spec a b); try lia
  end;
  repeat match goal with
  | |- context [?a <? ?b] => destruct (Z.ltb_spec a b); try lia
  | |- context [?a <=? ?b] => destruct (Z.leb_spec a b); try lia
  end; cbn [negb andb orb].

Ltac div_mod_facts r :=
  pose proof (Z.div_mod r 64 ltac:(lia)); pose proof (Z.mod_pos_bound r 64 ltac:(lia));
  pose proof (Z.div_mod (r / 64) 64 ltac:(lia));
  pose proof (Z.mod_pos_bound (r / 64) 64 ltac:(lia));
  pose proof (Z.div_mod (r / 4096) 64 ltac:(lia));
  pose proof (Z.mod_pos_bound (r / 4096) 64 ltac:(lia));
  assert (r / 4096 = r / 64 / 64) by (rewrite Z.div_div by lia; f_equal; lia);
  assert (r / 262144 = r / 4096 / 64) by (rewrite Z.div_div by lia; f_equal; lia).

Lemma decode_encode_rune r rest : is_rune r ->
  decode_rune (encode_rune r ++ rest) = (r, length (encode_rune r)).
Proof.
  intros Hr. destruct (encode_rune_shape r Hr) as
    [[? ->]|[[? ->]|[[? ->]|[? ->]]]]; destruct Hr as [Hr Hs];
    cbn [app length]; unfold decode_rune.
  - decide_ranges; done.
  - div_mod_facts r. decide_ranges; first [by f_equal; lia | exfalso; lia].
  - div_mod_facts r. decide_ranges; first [by f_equal; lia | exfalso; lia].
  - div_mod_facts r. decide_ranges; first [by f_equal; lia | exfalso; lia].
Qed.

Lemma encode_rune_bytes r : Forall is_byte (encode_rune r).
Proof.
  rewrite encode_sanitize. pose proof (sanitize_rune r) as Hr.
  destruct (encode_rune_shape _ Hr) as [[? ->]|[[? ->]|[[? ->]|[? ->]]]];
    destruct Hr as [Hr Hs]; try div_mod_facts (sanitize r);
    repeat constructor; unfold is_byte; lia.
Qed.

Lemma encode_rune_nonempty r : encode_rune r <> [].
Proof. unfold encode_rune. by repeat case_match. Qed.

Lemma runes_from_skip l1 l2 : runes_from (length l1) (l1 ++ l2) = runes_from 0 l2.
Proof. induction l1; cbn; [done|]. destruct l1; cbn in *; done. Qed.

Lemma runes_from_encode r rest : is_rune r ->
  runes_from 0 (encode_rune r ++ rest) = (r, encode_rune r) :: runes_from 0 rest.
Proof.
  intros Hr. pose proof (decode_encode_rune r rest Hr) as Hd.
  pose proof (encode_rune_nonempty r). destruct (encode_rune r) as [|b l] eqn:He; [done|].
  cbn [app runes_from]. cbn [app] in Hd. rewrite Hd. f_equal.
  - cbn. by rewrite firstn_app, Nat.sub_diag, firstn_all, app_nil_r.
  - apply runes_from_skip.
Qed.

(** Encoding runes and decoding them again gives the runes back. *)
Lemma runes_of_runes rs : runes (string_of_runes rs) = map sanitize rs.
Proof.
  unfold runes, rune_chunks, string_of_runes.
  rewrite bytes_of_string_of.
  - induction rs as [|r rs IH]; cbn [flat_map map]; [done|].
    rewrite encode_sanitize, runes_from_encode by apply sanitize_rune. cbn. by rewrite IH.
  - apply Forall_flat_map. apply Forall_true. apply encode_rune_bytes.
Qed.

Lemma RuneCount_string_of_runes rs :
  RuneCountInString (string_of_runes rs) = Z.of_nat (length rs).
Proof. unfold RuneCountInString. by rewrite runes_of_runes, length_map. Qed.

(** An ASCII string is its own list of runes. *)
Lemma runes_from_ascii l : Forall (fun b => 0 <= b < 128) l ->
  map fst (runes_from 0 l) = l.
Proof.
  induction 1 as [|b l Hb _ IH]; cbn; [done|].
  destruct (Z.ltb_spec b 128); [|lia]. cbn. by rewrite IH.
Qed.

Lemma runes_ascii l : Forall (fun b => 0 <= b < 128) l -> runes (string_of l) = l.
Proof.
  intros Hl. unfold runes, rune_chunks. rewrite bytes_of_string_of.
  - by apply runes_from_ascii.
  - eapply Forall_impl; [done|]. unfold is_byte. lia.
Qed.

(** ** Round trips of strconv *)
Lemma digit_char_byte d : 0 <= d < 10 -> byte_of (digit_char d) = 48 + d.
Proof. intros Hd. unfold digit_char. apply byte_of_of_byte. unfold is_byte. lia. Qed.

Lemma parse_format fuel v rest :
  0 <= v < 10 ^ Z.of_nat fuel -> (0 < fuel)%nat ->
  parse_digits 0 (format_digits fuel v rest) = parse_digits v rest.
Proof.
  revert v rest. induction fuel as [|fuel IH]; [lia|]. intros v rest Hv _.
  rewrite Nat2Z.inj_succ, Z.pow_succ_r in Hv by lia.
  pose proof (Z.mod_pos_bound v 10 ltac:(lia)) as Hm.
  assert (forall acc, parse_digits acc (String (digit_char (v mod 10)) rest) =
            parse_digits (10 * acc + v mod 10) rest) as Hd.
  { intros acc. cbn [parse_digits]. rewrite digit_char_byte by done.
    unfold is_digit, in_range. replace (_ && _) with true by lia. f_equal. lia. }
  cbn [format_digits]. destruct (Z.ltb_spec v 10) as [Hlt|Hge].
  - rewrite Hd. rewrite Z.mod_small by lia. f_equal.
  - destruct fuel as [|fuel']; [cbn in Hv; lia|].
    rewrite IH; [|split; [apply Z.div_pos | apply Z.div_lt_upper_bound]; lia|lia].
    rewrite Hd. f_equal. pose proof (Z.div_mod v 10). lia.
Qed.

Lemma format_digits_head fuel v rest :
  0 <= v -> (0 < fuel)%nat ->
  exists a s, format_digits fuel v rest = String a s /\ is_digit (byte_of a) = true.
Proof.
  revert v rest. induction fuel as [|fuel IH]; [lia|]. intros v rest Hv _. cbn [format_digits].
  pose proof (Z.mod_pos_bound v 10 ltac:(lia)) as Hm.
  assert (is_digit (byte_of (digit_char (v mod 10))) = true) as Hd.
  { rewrite digit_char_byte by done. unfold is_digit, in_range. lia. }
  destruct (Z.ltb_spec v 10); [by do 2 eexists|].
  destruct fuel as [|fuel']; [by do 2 eexists|].
  apply IH; [apply Z.div_pos|]; lia.
Qed.

(** [strconv.ParseInt] reads back what [strconv.FormatInt] prints. *)
Lemma ParseInt_FormatInt v : in_int64 v = true -> ParseInt (FormatInt v) = Some v.
Proof.
  unfold in_int64, int64_min, int64_max. intros Hv. unfold FormatInt.
  assert (forall n, 0 <= n <= 2 ^ 63 -> parse_digits 0 (format_digits 20 n EmptyString) = Some n)
    as Hp by (intros n Hn; rewrite parse_format; [done | change (10 ^ Z.of_nat 20) with 100000000000000000000 |]; lia).
  destruct (Z.ltb_spec v 0).
  - cbn [ParseInt]. destruct (format_digits_head 20 (- v) "" ltac:(lia) ltac:(lia))
      as (a & s & He & _). unfold ParseInt.
    rewrite bool_decide_eq_true_2 by done. rewrite He, <- He, Hp by lia.
    cbn. replace (_ <=? _) with true by lia. f_equal. lia.
  - destruct (format_digits_head 20 v "" ltac:(lia) ltac:(lia)) as (a & s & He & Hd).
    unfold ParseInt. rewrite He. unfold is_digit, in_range in Hd.
    rewrite !bool_decide_eq_false_2 by (intros ->; vm_compute in Hd; discriminate).
    rewrite <- He, Hp by lia. cbn. by replace (_ <? _) with true by lia.
Qed.
