(* ===== verification/Apierr.v ===== *)
(** * Business errors and the response envelope

    [internal/apierr] (the error carrier, its constructors, [As]) and
    [internal/pkg/envelope].  Go's dynamic [error] values are the type [goerr]:
    one constructor per concrete error type of the modelled code, with the
    [Unwrap] chain as sub-terms, so that [errors.As] and [errors.Is] are
    functions on it. *)

From S2P Require Import Prelude.
From S2P Require Import GoText.
Open Scope Z_scope.

(** ** codes.go: the stable machine-readable codes *)
Abbreviation FieldCode := string (only parsing).
Abbreviation BizCode := string (only parsing).

Definition FieldRequired : FieldCode := "required".
Definition FieldTooLong : FieldCode := "too_long".
Definition FieldTooShort : FieldCode := "too_short".
Definition FieldOutOfRange : FieldCode := "out_of_range".
Definition FieldInvalidFormat : FieldCode := "invalid_format".
Definition FieldInvalidEnum : FieldCode := "invalid_enum".
Definition FieldInvalidDomain : FieldCode := "invalid_domain".
Definition FieldConflict : FieldCode := "conflict".

Definition BizInternal : BizCode := "internal_error".
Definition BizNotFound : BizCode := "not_found".
Definition BizMethodNotAllowed : BizCode := "method_not_allowed".
Definition BizValidation : BizCode := "validation_failed".
Definition BizRateLimited : BizCode := "rate_limited".
Definition BizUnauthorized : BizCode := "unauthorized".
Definition BizServiceUnavailable : BizCode := "service_unavailable".
Definition BizEmailTaken : BizCode := "email_taken".
Definition BizUsernameTaken : BizCode := "username_taken".
Definition BizVerifyCodeInvalid : BizCode := "verify_code_invalid".
Definition BizVerifyCodeTooMany : BizCode := "verify_code_too_many".
Definition BizVerifyCodeBusy : BizCode := "verify_code_busy".
Definition BizAccountBanned : BizCode := "account_banned".
Definition BizSessionNotFound : BizCode := "session_not_found".
Definition BizPermissionDenied : BizCode := "permission_denied".
Definition BizContentUnderAudit : BizCode := "content_under_audit".
Definition BizContentRejected : BizCode := "content_rejected".
Definition BizNotificationNotFound : BizCode := "notification_not_found".
Definition BizConflict : BizCode := "conflict".
Definition BizNotOwner : BizCode := "not_owner".
Definition BizCommentNotFound : BizCode := "comment_not_found".
Definition BizCommentDeleted : BizCode := "comment_deleted".
Definition BizCannotFollowSelf : BizCode := "cannot_follow_self".
Definition BizUsernameChangeLimited : BizCode := "username_change_limited".
Definition BizPostNotFound : BizCode := "post_not_found".
Definition BizPostNotPublished : BizCode := "post_not_published".
Definition BizPostDeleted : BizCode := "post_deleted".
Definition BizContentNotRestorable : BizCode := "content_not_restorable".
Definition BizModerationNotPending : BizCode := "moderation_not_pending".
Definition BizDictItemNotFound : BizCode := "dict_item_not_found".
Definition BizDictItemInUse : BizCode := "dict_item_in_use".
Definition BizSuggestionNotFound : BizCode := "suggestion_not_found".
Definition BizSuggestionClosed : BizCode := "suggestion_closed".
Definition BizSuggestionParentPending : BizCode := "suggestion_parent_pending".
Definition BizAlreadyExists : BizCode := "already_exists".
Definition BizWindowNotInCanteen : BizCode := "window_not_in_canteen".
Definition BizTagLimitExceeded : BizCode := "tag_limit_exceeded".
Definition BizTagNotFound : BizCode := "tag_not_found".
Definition BizTagNameConflict : BizCode := "tag_name_conflict".
Definition BizTagMergeTargetInvalid : BizCode := "tag_merge_target_invalid".
Definition BizImageNotFound : BizCode := "image_not_found".
Definition BizImageNotOwned : BizCode := "image_not_owned".
Definition BizImagePurposeWrong : BizCode := "image_purpose_wrong".
Definition BizImageNotApproved : BizCode := "image_not_approved".
Definition BizUploadNotFound : BizCode := "upload_not_found".
Definition BizUploadClosed : BizCode := "upload_closed".
Definition BizUploadIncomplete : BizCode := "upload_incomplete".
Definition BizUploadSizeMismatch : BizCode := "upload_size_mismatch".
Definition BizModerationCallbackInvalid : BizCode := "moderation_callback_invalid".

Record FieldError := mkFieldError {
  fe_Field : string;
  fe_Code : FieldCode;
  fe_Message : string;
}.

(** ** Error values *)
Inductive goerr : Type :=
| EApi (e : Error)
| ENew (text : string)
| EPg (sqlstate constraint : string)
| EWrap (prefix : string) (inner : goerr)
| ERateLimit (RetryAfterSeconds : Z) (inner : goerr)
| EPersisted (inner : goerr)
| EPurge (kind : string)
| EJoin (errs : list goerr)
with Error : Type :=
| mkError (Status : Z) (Code : BizCode) (Message : string)
    (Fields : list FieldError) (ErrorID : string) (cause : option goerr).

Definition Status (e : Error) : Z := let '(mkError s _ _ _ _ _) := e in s.
Definition Code (e : Error) : BizCode := let '(mkError _ c _ _ _ _) := e in c.
Definition Message (e : Error) : string := let '(mkError _ _ m _ _ _) := e in m.
Definition Fields (e : Error) : list FieldError :=
  let '(mkError _ _ _ f _ _) := e in f.
Definition ErrorID (e : Error) : string := let '(mkError _ _ _ _ i _) := e in i.
Definition Cause (e : Error) : option goerr :=
  let '(mkError _ _ _ _ _ c) := e in c.

Definition WithCause (e : Error) (err : goerr) : Error :=
  mkError (Status e) (Code e) (Message e) (Fields e) (ErrorID e) (Some err).

Definition WithCode (e : Error) (code : BizCode) : Error :=
  mkError (Status e) code (Message e) (Fields e) (ErrorID e) (Cause e).

(** [errors.Is(err, target)] for a sentinel created by [errors.New]: identity of
    the sentinel, named by its text, anywhere in the chain. *)
Fixpoint err_is (target : string) (e : goerr) : bool :=
  match e with
  | ENew t => bool_decide (t = target)
  | EApi (mkError _ _ _ _ _ (Some c)) => err_is target c
  | EWrap _ i | ERateLimit _ i | EPersisted i => err_is target i
  | EJoin l => existsb (err_is target) l
  | _ => false
  end.

(** [errors.As(err, &apiErr)]: the first [*apierr.Error] of the chain. *)
Fixpoint as_api (e : goerr) : option Error :=
  match e with
  | EApi a => Some a
  | EWrap _ i | ERateLimit _ i | EPersisted i => as_api i
  | EJoin l =>
      (fix first (l : list goerr) : option Error :=
         match l with
         | [] => None
         | x :: l' => match as_api x with Some a => Some a | None => first l' end
         end) l
  | _ => None
  end.

(** [errors.As(err, &rateLimit)] and [ShouldCommitError]'s [errors.As]. *)
Fixpoint as_rate_limit (e : goerr) : option Z :=
  match e with
  | ERateLimit n _ => Some n
  | EApi (mkError _ _ _ _ _ (Some c)) => as_rate_limit c
  | EWrap _ i | EPersisted i => as_rate_limit i
  | EJoin l =>
      (fix first (l : list goerr) : option Z :=
         match l with
         | [] => None
         | x :: l' => match as_rate_limit x with Some a => Some a | None => first l' end
         end) l
  | _ => None
  end.

Fixpoint ShouldCommitError (e : goerr) : bool :=
  match e with
  | EPersisted _ => true
  | EApi (mkError _ _ _ _ _ (Some c)) => ShouldCommitError c
  | EWrap _ i | ERateLimit _ i => ShouldCommitError i
  | EJoin l => existsb ShouldCommitError l
  | _ => false
  end.

(** [errors.As(err, &pgErr)] with the unique-violation and check-violation
    SQLSTATEs. *)
Fixpoint as_pg (e : goerr) : option (string * string) :=
  match e with
  | EPg s c => Some (s, c)
  | EApi (mkError _ _ _ _ _ (Some c)) => as_pg c
  | EWrap _ i | ERateLimit _ i | EPersisted i => as_pg i
  | EJoin l =>
      (fix first (l : list goerr) : option (string * string) :=
         match l with
         | [] => None
         | x :: l' => match as_pg x with Some a => Some a | None => first l' end
         end) l
  | _ => None
  end.

(** [errors.As(err, &imageCachePurgeError)]. *)
Fixpoint as_purge (e : goerr) : option string :=
  match e with
  | EPurge kind => Some kind
  | EApi (mkError _ _ _ _ _ (Some c)) => as_purge c
  | EWrap _ i | ERateLimit _ i | EPersisted i => as_purge i
  | EJoin l =>
      (fix first (l : list goerr) : option string :=
         match l with
         | [] => None
         | x :: l' => match as_purge x with Some a => Some a | None => first l' end
         end) l
  | _ => None
  end.

(** ** Constructors *)
Definition newf (status : Z) (code : BizCode) (message : string) : Error :=
  mkError status code message [] "" None.

Definition Unauthorized : Error :=
  newf 401 BizUnauthorized "未登录或登录已失效".

Definition or_default (v default : string) : string :=
  if bool_decide (v = ""%string) then default else v.

Definition BadRequest (code : BizCode) (message : string) : Error :=
  newf 400 (or_default code BizValidation) message.

Definition Forbidden (code : BizCode) (message : string) : Error :=
  newf 403 (or_default code BizPermissionDenied)
    (or_default message "没有权限执行该操作").

Definition NotFound (code : BizCode) (what : string) : Error :=
  newf 404 (or_default code BizNotFound) (what +:+ "不存在").

Definition Conflict (code : BizCode) (message : string) : Error :=
  newf 409 (or_default code BizConflict) message.

Definition TooManyRequests (code : BizCode) (message : string) : Error :=
  newf 429 (or_default code BizRateLimited) message.

Definition ServiceUnavailable (message : string) : Error :=
  newf 503 BizServiceUnavailable
    (or_default message "服务暂时不可用，请稍后再试").

Definition Invalid (fields : list FieldError) : Error :=
  mkError 422 BizValidation
    (match fields with f :: _ => fe_Message f | [] => "请求参数不合法" end)
    fields "" None.

Definition InvalidField (field : string) (code : FieldCode) (message : string) : Error :=
  Invalid [mkFieldError field code message].

(** Lower-case hexadecimal, [hex.EncodeToString]. *)
Definition hex_digit (d : Z) : Z := if d <? 10 then 48 + d else 87 + d.

Definition hex_encode (s : string) : string :=
  string_of (flat_map (fun b => [hex_digit (b / 16); hex_digit (b mod 16)]) (bytes_of s)).

(** [newErrorID]: [None] is a failed read of the system's random source. *)
Definition newErrorID (random : option string) : string :=
  match random with
  | None => "unknown"
  | Some b => hex_encode b
  end.

Definition Internal (random : option string) (cause : goerr) : Error :=
  mkError 500 BizInternal "服务器内部错误" [] (newErrorID random) (Some cause).

Definition defaultBizCode (status : Z) : BizCode :=
  if status =? 401 then BizUnauthorized
  else if status =? 403 then BizPermissionDenied
  else if status =? 404 then BizNotFound
  else if status =? 409 then BizConflict
  else if status =? 422 then BizValidation
  else if status =? 503 then BizServiceUnavailable
  else if 500 <=? status then BizInternal
  else BizValidation.

Definition As (random : option string) (err : goerr) : Error :=
  match as_api err with
  | Some e =>
      if bool_decide (Code e = ""%string)
      then WithCode e (defaultBizCode (Status e))
      else e
  | None => Internal random err
  end.

(** ** envelope.go *)
Inductive EnvelopeData (T : Type) :=
| DataOK (data : T)
| DataErrors (errors : list FieldError)
| DataErrorID (error_id : string)
| DataNull.
Arguments DataOK {T} _.
Arguments DataErrors {T} _.
Arguments DataErrorID {T} _.
Arguments DataNull {T}.

Record Envelope (T : Type) := mkEnvelope {
  env_Code : Z;
  env_Message : string;
  env_Data : EnvelopeData T;
  env_ErrorCode : BizCode;
}.
Arguments mkEnvelope {T} _ _ _ _.
Arguments env_Code {T} _.
Arguments env_Message {T} _.
Arguments env_Data {T} _.
Arguments env_ErrorCode {T} _.

Definition OK {T} (message : string) (data : T) : Envelope T :=
  mkEnvelope 200 (or_default message "success") (DataOK data) "".

Definition Created {T} (message : string) (data : T) : Envelope T :=
  mkEnvelope 201 message (DataOK data) "".

Definition FromError {T} (e : Error) : Z * Envelope T :=
  (Status e,
   mkEnvelope (Status e) (Message e)
     (match Fields e with
      | _ :: _ => DataErrors (Fields e)
      | [] => if bool_decide (ErrorID e = ""%string) then DataNull
              else DataErrorID (ErrorID e)
      end)
     (Code e)).
