(* ===== verification/Effects.v ===== *)
(** * Effects

    The state-and-error monad of the development, the environment the process
    runs in (clock, randomness, database faults), and transactions: the
    before-commit and after-commit queues of [internal/infra/db] and
    [RunInTx].

    A computation is [M S A]: from a state to a result ([inl] is Go's non-nil
    [error]) and a state.  Two instances matter: inside a transaction the state
    is [Tx], between transactions it is [World]. *)

From S2P Require Import Prelude.
From S2P Require Import GoText.
From S2P Require Import Apierr.
Open Scope Z_scope.

(** ** The monad *)
Definition M (S A : Type) : Type := S -> (goerr + A) * S.

Definition mret {S A} (a : A) : M S A := fun s => (inr a, s).
Definition throw {S A} (e : goerr) : M S A := fun s => (inl e, s).
Definition mbind {S A B} (m : M S A) (k : A -> M S B) : M S B :=
  fun s => match m s with
           | (inl e, s') => (inl e, s')
           | (inr a, s') => k a s'
           end.
(** The result as a value: what [x, err := f()] gives before [err] is looked at. *)
Definition attempt {S A} (m : M S A) : M S (goerr + A) :=
  fun s => let '(r, s') := m s in (inr r, s').

(** [if err != nil { return f(err) }]. *)
Definition on_error {S A} (m : M S A) (f : goerr -> M S A) : M S A :=
  fun s => match m s with
           | (inl e, s') => f e s'
           | (inr a, s') => (inr a, s')
           end.

(** A pure computation that may fail. *)
Definition lift {S A} (r : goerr + A) : M S A := fun s => (r, s).

Declare Scope effect_scope.
Delimit Scope effect_scope with eff.
Notation "'let*' x := m 'in' k" := (mbind m (fun x => k))
  (at level 10, x name, m at level 200, k at level 200,
   format "'[v' 'let*'  x  :=  m  'in' '/' k ']'") : effect_scope.
Notation "m ;;; k" := (mbind m (fun _ => k))
  (at level 100, right associativity, format "'[v' m  ;;; '/' k ']'") : effect_scope.
Open Scope effect_scope.

Section monad_laws.
Context {S : Type}.

Lemma mbind_ret {A B} (a : A) (k : A -> M S B) s : mbind (mret a) k s = k a s.
Proof. reflexivity. Qed.

Lemma mbind_assoc {A B C} (m : M S A) (k : A -> M S B) (h : B -> M S C) s :
  mbind (mbind m k) h s = mbind m (fun a => mbind (k a) h) s.
Proof. unfold mbind. destruct (m s) as [[e|a] s']; done. Qed.

Lemma mbind_inr {A B} (m : M S A) (k : A -> M S B) s b s' :
  mbind m k s = (inr b, s') ->
  exists a s1, m s = (inr a, s1) /\ k a s1 = (inr b, s').
Proof. unfold mbind. destruct (m s) as [[e|a] s1]; naive_solver. Qed.

Lemma mbind_inl {A B} (m : M S A) (k : A -> M S B) s e s' :
  mbind m k s = (inl e, s') ->
  m s = (inl e, s') \/ exists a s1, m s = (inr a, s1) /\ k a s1 = (inl e, s').
Proof. unfold mbind. destruct (m s) as [[e0|a] s1]; naive_solver. Qed.
End monad_laws.

(** ** The environment

    Every theorem quantifies over it: the readings of the clock, the system's
    random source, and which statements, [BEGIN]s and [COMMIT]s the database
    refuses. *)
Class Env := {
  env_now : nat -> time;                       (* k-th [time.Now().UTC()] *)
  env_rand : nat -> nat -> option string;      (* k-th [rand.Read] of n bytes *)
  env_rand_int : nat -> Z -> option Z;         (* k-th [rand.Int(max)] *)
  env_stmt : nat -> option goerr;              (* failure of the k-th statement *)
  env_begin : nat -> option goerr;
  env_commit : nat -> option goerr;
}.

(** What the standard library documents of [crypto/rand]. *)
Class EnvOk `{Env} := {
  rand_length : forall k n b, env_rand k n = Some b -> String.length b = n;
  rand_int_range : forall k m v, env_rand_int k m = Some v -> 0 <= v < m;
}.

(** How often each source was used so far; [c_seq] is the last value drawn from
    the identity sequences, which rollbacks do not restore. *)
Record Ctr := mkCtr {
  c_now : nat;
  c_rand : nat;
  c_stmt : nat;
  c_tx : nat;
  c_seq : Z;
}.
#[global] Instance eta_Ctr : Eta Ctr :=
  fun x => mkCtr (c_now x) (c_rand x) (c_stmt x) (c_tx x) (c_seq x).

(** ** Transactions *)
Section transactions.
Context `{Env} {DB B A X : Type}.

(** A transaction: its view of the database, whether a statement failed (then
    PostgreSQL refuses every further statement), and its two queues. [B] and
    [A] are the before-commit and after-commit operations, as data. *)
Record Tx := mkTx {
  tx_db : DB;
  tx_aborted : bool;
  tx_ctr : Ctr;
  tx_before : list B;
  tx_after : list A;
  tx_has_after : bool;
}.
#[global] Instance eta_Tx : Eta Tx :=
  fun x => mkTx (tx_db x) (tx_aborted x) (tx_ctr x) (tx_before x) (tx_after x)
             (tx_has_after x).

Definition set_ctr (f : Ctr -> Ctr) (tx : Tx) : Tx :=
  tx <| tx_ctr := f (tx_ctr tx) |>.

(** [time.Now().UTC()]. *)
Definition Now : M Tx time := fun tx =>
  (inr (env_now (c_now (tx_ctr tx))),
   set_ctr (fun c => c <| c_now := S (c_now c) |>) tx).

(** [rand.Read] of [n] bytes, [rand.Int]. *)
Definition RandRead (n : nat) : M Tx (option string) := fun tx =>
  (inr (env_rand (c_rand (tx_ctr tx)) n),
   set_ctr (fun c => c <| c_rand := S (c_rand c) |>) tx).

Definition RandInt (m : Z) : M Tx (option Z) := fun tx =>
  (inr (env_rand_int (c_rand (tx_ctr tx)) m),
   set_ctr (fun c => c <| c_rand := S (c_rand c) |>) tx).

(** [nextval] of an identity sequence. *)
Definition NextID : M Tx Z := fun tx =>
  (inr (c_seq (tx_ctr tx) + 1),
   set_ctr (fun c => c <| c_seq := c_seq c + 1 |>) tx).

(** One SQL statement.  [f] is its effect on the tables; [inl] is a constraint
    violation.  A failed statement changes nothing and poisons the
    transaction. *)
Definition stmt {R} (f : DB -> goerr + R * DB) : M Tx R := fun tx =>
  let k := c_stmt (tx_ctr tx) in
  let tx := set_ctr (fun c => c <| c_stmt := S k |>) tx in
  if tx_aborted tx then (inl (EPg "25P02" ""), tx)
  else match env_stmt k with
       | Some e => (inl e, tx <| tx_aborted := true |>)
       | None =>
           match f (tx_db tx) with
           | inl e => (inl e, tx <| tx_aborted := true |>)
           | inr (r, db) => (inr r, tx <| tx_db := db |>)
           end
       end.

(** A [SELECT], and an [UPDATE]/[DELETE] that no constraint can refuse. *)
Definition query {R} (f : DB -> R) : M Tx R := stmt (fun db => inr (f db, db)).
Definition exec (f : DB -> DB) : M Tx unit := stmt (fun db => inr (tt, f db)).

(** [db.BeforeCommit] and [db.AfterCommit]; every transaction of the modelled
    code has a before-commit queue. *)
Definition BeforeCommit (op : B) : M Tx unit := fun tx =>
  (inr tt, tx <| tx_before := tx_before tx ++ [op] |>).

Definition AfterCommit (op : A) : M Tx bool := fun tx =>
  if tx_has_after tx
  then (inr true, tx <| tx_after := tx_after tx ++ [op] |>)
  else (inr false, tx).

(** [BeforeCommitQueue.Run]: in order, stopping at the first failure. *)
Fixpoint run_before (interp : B -> M Tx unit) (ops : list B) : M Tx unit :=
  match ops with
  | [] => mret tt
  | op :: ops' => interp op ;;; run_before interp ops'
  end.

Definition BeforeCommitQueue_Run (interp : B -> M Tx unit) : M Tx unit := fun tx =>
  run_before interp (tx_before tx) (tx <| tx_before := [] |>).

(** ** The process between transactions *)
Record World := mkWorld {
  w_db : DB;
  w_ctr : Ctr;
  w_ext : X;
}.
#[global] Instance eta_World : Eta World :=
  fun x => mkWorld (w_db x) (w_ctr x) (w_ext x).

(** [BEGIN]: the transaction sees the committed tables. *)
Definition begin_tx (has_after : bool) (w : World) : Tx :=
  mkTx (w_db w) false ((w_ctr w) <| c_tx := S (c_tx (w_ctr w)) |>) [] [] has_after.

(** Rolled back: the tables are those at [BEGIN]; clock, randomness and
    sequences have moved on. *)
Definition rolled_back (w : World) (tx : Tx) : World := w <| w_ctr := tx_ctr tx |>.

(** [COMMIT]: refused when a statement failed (PostgreSQL rolls back instead,
    the driver reports it) or when the database refuses it. *)
Definition commit_error (k : nat) (tx : Tx) : option goerr :=
  if tx_aborted tx then Some (ENew "commit unexpectedly resulted in rollback")
  else env_commit k.

Definition committed (w : World) (tx : Tx) : World :=
  w <| w_db := tx_db tx |> <| w_ctr := tx_ctr tx |>.

(** [DB.RunInTx]. *)
Definition RunInTx {R} (interp : B -> M Tx unit) (fn : M Tx R) : M World R :=
  fun w =>
    let k := c_tx (w_ctr w) in
    match env_begin k with
    | Some e => (inl e, w <| w_ctr := (w_ctr w) <| c_tx := S k |> |>)
    | None =>
        match fn (begin_tx false w) with
        | (inl e, tx) => (inl e, rolled_back w tx)
        | (inr r, tx) =>
            match BeforeCommitQueue_Run interp tx with
            | (inl e, tx') => (inl e, rolled_back w tx')
            | (inr _, tx') =>
                match commit_error k tx' with
                | Some e => (inl e, rolled_back w tx')
                | None => (inr r, committed w tx')
                end
            end
        end
    end.

(** [AfterCommitQueue.Run]: every callback in order; a panicking callback (its
    value is returned) does not stop the others. *)
Fixpoint run_after (interp : A -> World -> World * option string)
    (ops : list A) (w : World) : World * list string :=
  match ops with
  | [] => (w, [])
  | op :: ops' =>
      let '(w1, p) := interp op w in
      let '(w2, ps) := run_after interp ops' w1 in
      (w2, match p with Some v => v :: ps | None => ps end)
  end.
End transactions.

Arguments Tx : clear implicits.
Arguments World : clear implicits.

(** ** Background workers

    A worker runs between transactions: it reads the clock and the random source,
    calls its provider, and opens one transaction after the other.  Other processes
    (requests, other workers) may change the tables before each of them:
    [others k] is what they did before the [k]-th. *)
Class Interference (DB : Type) := others : nat -> DB -> DB.

Section workers.
Context `{Env} {DB B A X : Type} `{!Interference DB}.
Abbreviation WorldT := (World DB X).

Definition NowW : M WorldT time := fun w =>
  (inr (env_now (c_now (w_ctr w))),
   w <| w_ctr := (w_ctr w) <| c_now := S (c_now (w_ctr w)) |> |>).

Definition RandReadW (n : nat) : M WorldT (option string) := fun w =>
  (inr (env_rand (c_rand (w_ctr w)) n),
   w <| w_ctr := (w_ctr w) <| c_rand := S (c_rand (w_ctr w)) |> |>).

(** What the others did until the next transaction begins. *)
Definition interfere (w : WorldT) : WorldT :=
  w <| w_db := others (c_tx (w_ctr w)) (w_db w) |>.

Definition InTx {R} (interp : B -> M (Tx DB B A) unit) (fn : M (Tx DB B A) R)
    : M WorldT R := fun w => RunInTx interp fn (interfere w).
End workers.

(** [apierr.Internal(err)] draws the error id from the random source. *)
Definition internal `{Env} {DB B A R} (err : goerr) : M (Tx DB B A) R :=
  let* r := RandRead 8 in throw (EApi (Internal r err)).

Definition api_error {S R} (e : Error) : M S R := throw (EApi e).

(** ** What a failure-free environment guarantees *)
Class Faultless `{Env} := {
  faultless_stmt : forall k, env_stmt k = None;
  faultless_begin : forall k, env_begin k = None;
  faultless_commit : forall k, env_commit k = None;
}.

(** Neither statements nor the random source fail. *)
Class Reliable `{Env} := {
  reliable_faultless :: Faultless;
  reliable_rand : forall k n, is_Some (env_rand k n);
  reliable_int : forall k m, 0 < m -> is_Some (env_rand_int k m);
}.

(** ** Lemmas on transactions *)
Section lemmas.
Context `{Env} {DB B A X : Type}.
Abbreviation TxT := (Tx DB B A).
Abbreviation WorldT := (World DB X).

(** A transaction either leaves the tables as they were, or commits what its
    body and its before-commit operations produced; it reports success
    exactly in the second case. *)
Lemma RunInTx_cases {R} interp (fn : M TxT R) (w : WorldT) r w' :
  RunInTx interp fn w = (r, w') ->
  (exists e, r = inl e /\ w_db w' = w_db w /\ w_ext w' = w_ext w) \/
  (exists v tx tx1, r = inr v /\
     fn (begin_tx false w) = (inr v, tx) /\
     BeforeCommitQueue_Run interp tx = (inr tt, tx1) /\
     tx_aborted tx1 = false /\
     w_db w' = tx_db tx1 /\ w_ext w' = w_ext w).
Proof.
  unfold RunInTx, commit_error. intros E.
  repeat case_match; simplify_eq; try (left; eexists; by repeat split).
  right. match goal with u : unit |- _ => destruct u end.
  do 3 eexists. repeat split; eauto.
Qed.

(** A successful statement runs its effect on the transaction's tables. *)
Lemma stmt_inr {R} (f : DB -> goerr + R * DB) (tx : TxT) r tx' :
  stmt f tx = (inr r, tx') ->
  tx_aborted tx = false /\ f (tx_db tx) = inr (r, tx_db tx') /\
  tx_aborted tx' = false /\ tx_before tx' = tx_before tx /\
  tx_after tx' = tx_after tx /\ tx_has_after tx' = tx_has_after tx.
Proof. unfold stmt. intros E. repeat case_match; simplify_eq; cbn in *; eauto 10. Qed.

(** A failed statement leaves the tables and poisons the transaction. *)
Lemma stmt_inl {R} (f : DB -> goerr + R * DB) (tx : TxT) e tx' :
  stmt f tx = (inl e, tx') -> tx_db tx' = tx_db tx /\ tx_aborted tx' = true.
Proof. unfold stmt. intros E. repeat case_match; simplify_eq; cbn in *; eauto. Qed.
End lemmas.
