(* ===== verification/Logic.v ===== *)
(** * Reasoning about transactions

    The program logic of the development, over the monad of [Effects]:

    - inversion: what a successful (or failed) run of each combinator ran
      ([run_inv], [run_inv_err]);
    - [Keeps D m]: every run of [m], successful or not, relates the tables before
      and after by the preorder [D].  An invariant [I] of the tables is the
      preorder [preserves I]; "does not write the users" is another one.
      [solve_keeps] walks the code of [m] and leaves the statements;
    - symbolic execution in a fault-free environment ([run_ok]). *)

From S2P Require Import Prelude.
From S2P Require Import GoText.
From S2P Require Import Apierr.
From S2P Require Import Effects.
Open Scope Z_scope.

(** ** Inversion *)
Section inversion.
Context {S : Type}.

Lemma on_error_inr {A} (m : M S A) f s a s' :
  on_error m f s = (inr a, s') ->
  m s = (inr a, s') \/ exists e s1, m s = (inl e, s1) /\ f e s1 = (inr a, s').
Proof. unfold on_error. destruct (m s) as [[e|b] s1]; naive_solver. Qed.

Lemma on_error_inl {A} (m : M S A) f s e s' :
  on_error m f s = (inl e, s') ->
  exists e0 s1, m s = (inl e0, s1) /\ f e0 s1 = (inl e, s').
Proof. unfold on_error. destruct (m s) as [[e0|b] s1]; naive_solver. Qed.

Lemma attempt_inr {A} (m : M S A) s r s' :
  attempt m s = (inr r, s') -> m s = (r, s').
Proof. unfold attempt. destruct (m s). naive_solver. Qed.

Lemma attempt_inl {A} (m : M S A) s e s' : attempt m s <> (inl e, s').
Proof. unfold attempt. by destruct (m s). Qed.

Lemma mret_inr {A} (a b : A) (s s' : S) : mret a s = (inr b, s') -> a = b /\ s = s'.
Proof. unfold mret. naive_solver. Qed.

Lemma lift_inr {A} (r : goerr + A) (b : A) (s s' : S) :
  lift r s = (inr b, s') -> r = inr b /\ s = s'.
Proof. unfold lift. naive_solver. Qed.
End inversion.

Section never.
Context `{Env} {DB B A : Type}.

Lemma internal_inr {R} e (tx : Tx DB B A) (r : R) tx' :
  internal e tx <> (inr r, tx').
Proof. by cbn. Qed.

Lemma internal_inl {R} e (tx : Tx DB B A) e' tx' :
  internal (R := R) e tx = (inl e', tx') ->
  exists r, e' = EApi (Internal r e) /\ tx_db tx' = tx_db tx.
Proof. cbn. intros [= <- <-]. eauto. Qed.

Lemma Now_inr (tx : Tx DB B A) t tx' :
  Now tx = (inr t, tx') ->
  t = env_now (c_now (tx_ctr tx)) /\ tx_db tx' = tx_db tx /\
  tx_aborted tx' = tx_aborted tx /\ tx_before tx' = tx_before tx.
Proof. unfold Now. by intros [= <- <-]. Qed.

Lemma RandRead_inr n (tx : Tx DB B A) t tx' :
  RandRead n tx = (inr t, tx') ->
  t = env_rand (c_rand (tx_ctr tx)) n /\ tx_db tx' = tx_db tx /\
  tx_aborted tx' = tx_aborted tx /\ tx_before tx' = tx_before tx.
Proof. unfold RandRead. by intros [= <- <-]. Qed.

Lemma RandInt_inr n (tx : Tx DB B A) t tx' :
  RandInt n tx = (inr t, tx') ->
  t = env_rand_int (c_rand (tx_ctr tx)) n /\ tx_db tx' = tx_db tx /\
  tx_aborted tx' = tx_aborted tx /\ tx_before tx' = tx_before tx.
Proof. unfold RandInt. by intros [= <- <-]. Qed.

Lemma NextID_inr (tx : Tx DB B A) t tx' :
  NextID tx = (inr t, tx') ->
  t = c_seq (tx_ctr tx) + 1 /\ tx_db tx' = tx_db tx /\
  tx_aborted tx' = tx_aborted tx /\ tx_before tx' = tx_before tx.
Proof. unfold NextID. by intros [= <- <-]. Qed.

Lemma query_inr {R} (f : DB -> R) (tx : Tx DB B A) r tx' :
  query f tx = (inr r, tx') ->
  r = f (tx_db tx) /\ tx_db tx' = tx_db tx /\
  tx_aborted tx' = false /\ tx_before tx' = tx_before tx.
Proof. intros E. apply stmt_inr in E. naive_solver. Qed.

Lemma exec_inr (f : DB -> DB) (tx : Tx DB B A) r tx' :
  exec f tx = (inr r, tx') ->
  tx_db tx' = f (tx_db tx) /\ tx_aborted tx' = false /\ tx_before tx' = tx_before tx.
Proof. intros E. apply stmt_inr in E. naive_solver. Qed.

Lemma stmt_inr_short {R} (f : DB -> goerr + R * DB) (tx : Tx DB B A) r tx' :
  stmt f tx = (inr r, tx') ->
  f (tx_db tx) = inr (r, tx_db tx') /\ tx_aborted tx' = false /\
  tx_before tx' = tx_before tx.
Proof. intros E. apply stmt_inr in E. naive_solver. Qed.

Lemma BeforeCommit_inr (op : B) (tx : Tx DB B A) r tx' :
  BeforeCommit op tx = (inr r, tx') ->
  tx_db tx' = tx_db tx /\ tx_aborted tx' = tx_aborted tx /\
  tx_before tx' = tx_before tx ++ [op].
Proof. unfold BeforeCommit. by intros [= <- <-]. Qed.

Lemma AfterCommit_inr (op : A) (tx : Tx DB B A) r tx' :
  AfterCommit op tx = (inr r, tx') ->
  tx_db tx' = tx_db tx /\ tx_aborted tx' = tx_aborted tx /\
  tx_before tx' = tx_before tx.
Proof. unfold AfterCommit. case_match; by intros [= <- <-]. Qed.
End never.

(** Decomposes a successful run in the context into the runs of its parts; the
    branches that cannot succeed disappear. *)
Ltac run_inv_step :=
  match goal with
  | H : mbind _ _ _ = (inr _, _) |- _ =>
      let a := fresh "a" in let s := fresh "s" in let E := fresh "E" in
      apply mbind_inr in H as (a & s & E & H)
  | H : on_error _ _ _ = (inr _, _) |- _ =>
      let e := fresh "e" in let s := fresh "s" in let E := fresh "E" in
      apply on_error_inr in H as [H | (e & s & E & H)]
  | H : attempt _ _ = (inr _, _) |- _ => apply attempt_inr in H
  | H : attempt _ _ = (inl _, _) |- _ => by apply attempt_inl in H
  | H : mret _ _ = (inr _, _) |- _ => apply mret_inr in H as [? ?]; simplify_eq
  | H : mret _ _ = (inl _, _) |- _ => discriminate H
  | H : lift _ _ = (inr _, _) |- _ => apply lift_inr in H as [? ?]; simplify_eq
  | H : throw _ _ = (inr _, _) |- _ => discriminate H
  | H : api_error _ _ = (inr _, _) |- _ => discriminate H
  | H : internal _ _ = (inr _, _) |- _ => by apply internal_inr in H
  | H : Now _ = (inr _, _) |- _ => apply Now_inr in H as (? & ? & ? & ?)
  | H : RandRead _ _ = (inr _, _) |- _ => apply RandRead_inr in H as (? & ? & ? & ?)
  | H : RandInt _ _ = (inr _, _) |- _ => apply RandInt_inr in H as (? & ? & ? & ?)
  | H : NextID _ = (inr _, _) |- _ => apply NextID_inr in H as (? & ? & ? & ?)
  | H : query _ _ = (inr _, _) |- _ => apply query_inr in H as (? & ? & ? & ?)
  | H : exec _ _ = (inr _, _) |- _ => apply exec_inr in H as (? & ? & ?)
  | H : BeforeCommit _ _ = (inr _, _) |- _ => apply BeforeCommit_inr in H as (? & ? & ?)
  | H : AfterCommit _ _ = (inr _, _) |- _ => apply AfterCommit_inr in H as (? & ? & ?)
  | H : (match ?x with _ => _ end) _ = (inr _, _) |- _ => destruct x eqn:?
  | H : (if ?x then _ else _) _ = (inr _, _) |- _ => destruct x eqn:?
  end; cbn beta iota in *.
Ltac run_inv := repeat run_inv_step.

(** ** Relating the tables before and after *)
Section keeps.
Context `{Env} {DB B A : Type}.
Abbreviation TxT := (Tx DB B A).

Definition Keeps {R} (D : relation DB) (m : M TxT R) : Prop :=
  forall tx r tx', m tx = (r, tx') -> D (tx_db tx) (tx_db tx').

(** The preorder of an invariant, and of a projection that must not change. *)
Definition preserves (I : DB -> Prop) : relation DB := fun db db' => I db -> I db'.
Definition unchanged {F} (proj : DB -> F) : relation DB := fun db db' => proj db' = proj db.

#[global] Instance preserves_preorder I : PreOrder (preserves I).
Proof. split; unfold preserves; repeat intro; auto. Qed.
#[global] Instance unchanged_preorder {F} (proj : DB -> F) : PreOrder (unchanged proj).
Proof. split; unfold unchanged; repeat intro; congruence. Qed.

Context (D : relation DB) `{!PreOrder D}.

Lemma keeps_bind {R Q} (m : M TxT R) (k : R -> M TxT Q) :
  Keeps D m -> (forall a, Keeps D (k a)) -> Keeps D (mbind m k).
Proof.
  intros Hm Hk tx r tx'. unfold mbind.
  destruct (m tx) as [[e|a] tx1] eqn:E; [intros [= <- <-]; by eapply Hm|].
  intros E2. etrans; [by eapply Hm | by eapply Hk].
Qed.

Lemma keeps_on_error {R} (m : M TxT R) f :
  Keeps D m -> (forall e, Keeps D (f e)) -> Keeps D (on_error m f).
Proof.
  intros Hm Hf tx r tx'. unfold on_error.
  destruct (m tx) as [[e|a] tx1] eqn:E; [|intros [= <- <-]; by eapply Hm].
  intros E2. etrans; [by eapply Hm | by eapply Hf].
Qed.

Lemma keeps_attempt {R} (m : M TxT R) : Keeps D m -> Keeps D (attempt m).
Proof.
  intros Hm tx r tx'. unfold attempt. destruct (m tx) as [r1 tx1] eqn:E.
  intros [= <- <-]. by eapply Hm.
Qed.

(** Computations that leave the tables alone. *)
Lemma keeps_same {R} (m : M TxT R) :
  (forall tx r tx', m tx = (r, tx') -> tx_db tx' = tx_db tx) -> Keeps D m.
Proof. intros Hm tx r tx' E. apply Hm in E as ->. done. Qed.

Lemma keeps_mret {R} (a : R) : Keeps D (mret a).
Proof. apply keeps_same. unfold mret. naive_solver. Qed.
Lemma keeps_throw {R} e : Keeps D (throw (A := R) e).
Proof. apply keeps_same. unfold throw. naive_solver. Qed.
Lemma keeps_api_error {R} e : Keeps D (api_error (R := R) e).
Proof. apply keeps_throw. Qed.
Lemma keeps_lift {R} (r : goerr + R) : Keeps D (lift r).
Proof. apply keeps_same. unfold lift. naive_solver. Qed.
Lemma keeps_Now : Keeps D Now.
Proof. apply keeps_same. unfold Now. naive_solver. Qed.
Lemma keeps_RandRead n : Keeps D (RandRead n).
Proof. apply keeps_same. unfold RandRead. naive_solver. Qed.
Lemma keeps_RandInt n : Keeps D (RandInt n).
Proof. apply keeps_same. unfold RandInt. naive_solver. Qed.
Lemma keeps_NextID : Keeps D NextID.
Proof. apply keeps_same. unfold NextID. naive_solver. Qed.
Lemma keeps_internal {R} e : Keeps D (internal (R := R) e).
Proof. apply keeps_same. intros tx r tx'. cbn. by intros [= <- <-]. Qed.
Lemma keeps_BeforeCommit op : Keeps D (BeforeCommit op).
Proof. apply keeps_same. unfold BeforeCommit. naive_solver. Qed.
Lemma keeps_AfterCommit op : Keeps D (AfterCommit op).
Proof. apply keeps_same. unfold AfterCommit. intros ???; case_match; naive_solver. Qed.

Lemma keeps_stmt {R} (f : DB -> goerr + R * DB) :
  (forall db r db', f db = inr (r, db') -> D db db') -> Keeps D (stmt f).
Proof.
  intros Hf tx [e|r] tx' E.
  - by apply stmt_inl in E as [-> _].
  - apply stmt_inr in E as (_ & E & _). by eapply Hf.
Qed.

Lemma keeps_query {R} (f : DB -> R) : Keeps D (query f).
Proof. apply keeps_stmt. naive_solver. Qed.

Lemma keeps_exec (f : DB -> DB) : (forall db, D db (f db)) -> Keeps D (exec f).
Proof. intros Hf. apply keeps_stmt. naive_solver. Qed.

(** What the body and the before-commit operations keep, a committed (or rolled
    back) transaction keeps. *)
Lemma keeps_run_before interp ops :
  (forall op, Keeps D (interp op)) -> Keeps D (run_before interp ops).
Proof.
  intros Hi. induction ops; cbn; [apply keeps_mret|].
  apply keeps_bind; [done | by intros _].
Qed.

Lemma keeps_RunInTx {X R} interp (fn : M TxT R) (w : World DB X) r w' :
  (forall op, Keeps D (interp op)) -> Keeps D fn ->
  RunInTx interp fn w = (r, w') -> D (w_db w) (w_db w').
Proof.
  intros Hi Hf E. apply RunInTx_cases in E
    as [(e & _ & -> & _) | (v & tx & tx1 & _ & E1 & E2 & _ & -> & _)]; [done|].
  apply Hf in E1. cbn in E1. etrans; [exact E1|].
  by apply keeps_run_before in E2.
Qed.
End keeps.

Create HintDb keeps.
#[export] Hint Resolve keeps_mret keeps_throw keeps_api_error keeps_lift keeps_Now
  keeps_RandRead keeps_RandInt keeps_NextID keeps_internal keeps_BeforeCommit
  keeps_AfterCommit keeps_query : keeps.

(** Walks the code; what is left are the statements without a hint. *)
Ltac solve_keeps :=
  repeat first
    [ progress intros
    | solve [eauto with keeps typeclass_instances]
    | apply (keeps_bind _)
    | apply (keeps_on_error _)
    | apply (keeps_attempt _)
    | match goal with |- Keeps _ (match ?x with _ => _ end) => destruct x end
    | match goal with |- Keeps _ (let '_ := ?x in _) => destruct x end ].

(** ** Invariants of the tables

    [Inv I m phi]: run from tables that satisfy [I], [m] leaves tables that
    satisfy [I], and what it returns satisfies [phi]. *)
Section invariants.
Context `{Env} {DB B A : Type}.
Abbreviation TxT := (Tx DB B A).
Implicit Types (I : DB -> Prop).

Definition Inv {R} I (m : M TxT R) (phi : R -> Prop) : Prop :=
  forall tx r tx', m tx = (r, tx') -> I (tx_db tx) ->
    I (tx_db tx') /\ forall a, r = inr a -> phi a.

Definition any {R} (_ : R) : Prop := True.

Context I.

Lemma inv_conseq {R} (m : M TxT R) (phi psi : R -> Prop) :
  Inv I m phi -> (forall a, phi a -> psi a) -> Inv I m psi.
Proof. intros Hm Hi tx r tx' E Ht. destruct (Hm _ _ _ E Ht). split; eauto. Qed.

Lemma inv_any {R} (m : M TxT R) phi : Inv I m phi -> Inv I m any.
Proof. intros Hm. by eapply inv_conseq. Qed.

Lemma inv_bind {R Q} (m : M TxT R) (k : R -> M TxT Q) phi psi :
  Inv I m phi -> (forall a, phi a -> Inv I (k a) psi) -> Inv I (mbind m k) psi.
Proof.
  intros Hm Hk tx r tx' E Ht. unfold mbind in E.
  destruct (m tx) as [[e|a] tx1] eqn:E1; destruct (Hm _ _ _ E1 Ht) as [Ht1 Ha].
  - by simplify_eq.
  - eapply Hk; eauto.
Qed.

Lemma inv_on_error {R} (m : M TxT R) f phi :
  Inv I m phi -> (forall e, Inv I (f e) phi) -> Inv I (on_error m f) phi.
Proof.
  intros Hm Hf tx r tx' E Ht. unfold on_error in E.
  destruct (m tx) as [[e|a] tx1] eqn:E1; destruct (Hm _ _ _ E1 Ht) as [Ht1 Ha].
  - eapply Hf; eauto.
  - by simplify_eq.
Qed.

Lemma inv_attempt {R} (m : M TxT R) phi :
  Inv I m phi -> Inv I (attempt m) (fun r => forall a, r = inr a -> phi a).
Proof.
  intros Hm tx r tx' E Ht. unfold attempt in E. destruct (m tx) as [r1 tx1] eqn:E1.
  destruct (Hm _ _ _ E1 Ht) as [Ht1 Ha]. simplify_eq. split; [done|].
  intros ? [= <-]. done.
Qed.

(** A computation that leaves the tables alone. *)
Lemma inv_same {R} (m : M TxT R) (phi : R -> Prop) :
  (forall tx r tx', m tx = (r, tx') ->
     tx_db tx' = tx_db tx /\ forall a, r = inr a -> phi a) -> Inv I m phi.
Proof. intros Hm tx r tx' E Ht. destruct (Hm _ _ _ E) as [-> ?]. done. Qed.

Lemma inv_mret {R} (a : R) (phi : R -> Prop) : phi a -> Inv I (mret a) phi.
Proof. intros Ha. apply inv_same. unfold mret. naive_solver. Qed.
Lemma inv_throw {R} e (phi : R -> Prop) : Inv I (throw e) phi.
Proof. apply inv_same. unfold throw. naive_solver. Qed.
Lemma inv_api_error {R} e (phi : R -> Prop) : Inv I (api_error e) phi.
Proof. apply inv_throw. Qed.
Lemma inv_internal {R} e (phi : R -> Prop) : Inv I (internal e) phi.
Proof. apply inv_same. intros tx r tx'. cbn. by intros [= <- <-]. Qed.
Lemma inv_lift {R} (r : goerr + R) : Inv I (lift r) (fun a => r = inr a).
Proof. apply inv_same. unfold lift. naive_solver. Qed.
Lemma inv_Now : Inv I Now any.
Proof. apply inv_same. unfold Now. naive_solver. Qed.
Lemma inv_NextID : Inv I NextID any.
Proof. apply inv_same. unfold NextID. naive_solver. Qed.
Lemma inv_RandRead n : Inv I (RandRead n) any.
Proof. apply inv_same. unfold RandRead. naive_solver. Qed.
Lemma inv_RandInt `{!EnvOk} n :
  Inv I (RandInt n) (fun r => forall v, r = Some v -> 0 <= v < n).
Proof.
  apply inv_same. unfold RandInt. intros tx r tx' [= <- <-]. split; [done|].
  intros a [= <-] v Hv. by apply rand_int_range in Hv.
Qed.
Lemma inv_BeforeCommit op : Inv I (BeforeCommit op) any.
Proof. apply inv_same. unfold BeforeCommit. naive_solver. Qed.
Lemma inv_AfterCommit op : Inv I (AfterCommit op) any.
Proof. apply inv_same. unfold AfterCommit. intros ???; case_match; naive_solver. Qed.

Lemma inv_stmt {R} (f : DB -> goerr + R * DB) (phi : R -> Prop) :
  (forall db r db', I db -> f db = inr (r, db') -> I db' /\ phi r) -> Inv I (stmt f) phi.
Proof.
  intros Hf tx [e|r] tx' E Ht.
  - apply stmt_inl in E as [-> _]. done.
  - apply stmt_inr in E as (_ & E & _). destruct (Hf _ _ _ Ht E). naive_solver.
Qed.

Lemma inv_query {R} (f : DB -> R) (phi : R -> Prop) :
  (forall db, I db -> phi (f db)) -> Inv I (query f) phi.
Proof. intros Hf. apply inv_stmt. naive_solver. Qed.

Lemma inv_exec (f : DB -> DB) : (forall db, I db -> I (f db)) -> Inv I (exec f) any.
Proof. intros Hf. apply inv_stmt. naive_solver. Qed.

Lemma inv_run_before interp ops :
  (forall op, Inv I (interp op) any) -> Inv I (run_before interp ops) any.
Proof.
  intros Hi. induction ops; cbn; [by apply inv_mret|]. eapply inv_bind; eauto.
Qed.

Lemma inv_RunInTx {X R} interp (fn : M TxT R) phi (w : World DB X) r w' :
  (forall op, Inv I (interp op) any) -> Inv I fn phi ->
  RunInTx interp fn w = (r, w') -> I (w_db w) ->
  I (w_db w') /\ forall a, r = inr a -> phi a.
Proof.
  intros Hi Hf E Hw. apply RunInTx_cases in E
    as [(e & -> & -> & _) | (v & tx & tx1 & -> & E1 & E2 & _ & -> & _)]; [done|].
  destruct (Hf _ _ _ E1 Hw) as [Ht Hv].
  apply inv_run_before in E2; [|done]. split; [by apply E2 | naive_solver].
Qed.
End invariants.

Create HintDb inv.
#[export] Hint Resolve inv_throw inv_api_error inv_internal inv_lift inv_Now inv_NextID
  inv_RandRead inv_RandInt inv_BeforeCommit inv_AfterCommit : inv.

(** [inv_call] proves [Inv I m ?phi] for a call with a specification in [inv],
    possibly under [attempt] or under an error handler that only throws.
    [solve_inv] walks the code: a call keeps what its specification says of its
    result, everything else is known to return [any].  What it leaves are
    statements and facts about returned values. *)
Ltac inv_call :=
  solve [ eauto with inv typeclass_instances
        | eapply inv_on_error; [eauto with inv typeclass_instances
                               | intros; eauto with inv typeclass_instances]
        | eapply inv_attempt; eauto with inv typeclass_instances ].

Ltac solve_inv :=
  intros; cbn beta;
  lazymatch goal with
  | |- Inv _ (mbind _ _) _ =>
      first [ eapply inv_bind; [inv_call | solve_inv]
            | apply (inv_bind _ _ _ any); [solve_inv | solve_inv] ]
  | |- Inv _ (match ?x with _ => _ end) _ => destruct x eqn:?; solve_inv
  | |- Inv _ (mret _) _ => apply inv_mret; try done
  | |- Inv _ _ any =>
      first [ inv_call
            | eapply inv_any; inv_call
            | apply inv_on_error; [solve_inv | solve_inv]
            | eapply inv_any; apply inv_attempt; apply (inv_any _ _ any); solve_inv
            | idtac ]
  | |- Inv _ _ _ => first [inv_call | idtac]
  | |- _ => idtac
  end.

(** ** Triples

    [Triple P m Q E]: from tables that satisfy [P], a successful run of [m]
    returns an [a] and leaves tables with [Q a], a failed one leaves tables with
    [E].  [Neutral m]: [m] does not write. *)
Section triples.
Context `{Env} {DB B A : Type}.
Abbreviation TxT := (Tx DB B A).

Definition Triple {R} (P : DB -> Prop) (m : M TxT R) (Q : R -> DB -> Prop)
    (E : DB -> Prop) : Prop :=
  forall tx r tx', m tx = (r, tx') -> P (tx_db tx) ->
    match r with inl _ => E (tx_db tx') | inr a => Q a (tx_db tx') end.

Definition Neutral {R} (m : M TxT R) : Prop :=
  forall tx r tx', m tx = (r, tx') -> tx_db tx' = tx_db tx.

Lemma triple_conseq {R} P P' (m : M TxT R) Q Q' E E' :
  Triple P m Q E -> (forall db, P' db -> P db) ->
  (forall a db, Q a db -> Q' a db) -> (forall db, E db -> E' db) -> Triple P' m Q' E'.
Proof.
  intros Hm HP HQ HE tx r tx' Er Hp. specialize (Hm _ _ _ Er (HP _ Hp)).
  destruct r; auto.
Qed.

Lemma triple_bind {R T} P (m : M TxT R) Q (k : R -> M TxT T) Q' E :
  Triple P m Q E -> (forall a, Triple (Q a) (k a) Q' E) -> Triple P (mbind m k) Q' E.
Proof.
  intros Hm Hk tx r tx' Er Hp. unfold mbind in Er.
  destruct (m tx) as [[e|a] tx1] eqn:E1; specialize (Hm _ _ _ E1 Hp).
  - by simplify_eq.
  - by eapply Hk.
Qed.

Lemma triple_on_error {R} P (m : M TxT R) f Q E0 E :
  Triple P m Q E0 -> (forall e, Triple E0 (f e) Q E) -> Triple P (on_error m f) Q E.
Proof.
  intros Hm Hf tx r tx' Er Hp. unfold on_error in Er.
  destruct (m tx) as [[e|a] tx1] eqn:E1; specialize (Hm _ _ _ E1 Hp).
  - by eapply Hf.
  - by simplify_eq.
Qed.

Lemma triple_attempt {R} P (m : M TxT R) (Q : R -> DB -> Prop) E E' :
  Triple P m Q E ->
  Triple P (attempt m) (fun r => match r with inl _ => E | inr a => Q a end) E'.
Proof.
  intros Hm tx r tx' Er Hp. unfold attempt in Er. destruct (m tx) as [r1 tx1] eqn:E1.
  specialize (Hm _ _ _ E1 Hp). simplify_eq. by destruct r1.
Qed.

Lemma triple_neutral {R} P (m : M TxT R) : Neutral m -> Triple P m (fun _ => P) P.
Proof. intros Hm tx r tx' Er Hp. rewrite (Hm _ _ _ Er). by destruct r. Qed.

Lemma triple_mret {R} P (a : R) (Q : R -> DB -> Prop) E :
  (forall db, P db -> Q a db) -> Triple P (mret a) Q E.
Proof. intros HQ tx r tx' [= <- <-]. apply HQ. Qed.

Lemma triple_throw {R} P e (Q : R -> DB -> Prop) (E : DB -> Prop) :
  (forall db, P db -> E db) -> Triple P (throw e) Q E.
Proof. intros HE tx r tx' [= <- <-]. apply HE. Qed.

Lemma triple_exec P (f : DB -> DB) Q (E : DB -> Prop) :
  (forall db, P db -> Q tt (f db)) -> (forall db, P db -> E db) -> Triple P (exec f) Q E.
Proof.
  intros HQ HE tx [e|[]] tx' Er Hp.
  - apply stmt_inl in Er as [-> _]. auto.
  - apply stmt_inr in Er as (_ & [= Er] & _). rewrite <- Er. auto.
Qed.

Lemma neutral_bind {R T} (m : M TxT R) (k : R -> M TxT T) :
  Neutral m -> (forall a, Neutral (k a)) -> Neutral (mbind m k).
Proof.
  intros Hm Hk tx r tx' Er. unfold mbind in Er.
  destruct (m tx) as [[e|a] tx1] eqn:E1; apply Hm in E1 as <-; [by simplify_eq|].
  by eapply Hk.
Qed.
Lemma neutral_on_error {R} (m : M TxT R) f :
  Neutral m -> (forall e, Neutral (f e)) -> Neutral (on_error m f).
Proof.
  intros Hm Hf tx r tx' Er. unfold on_error in Er.
  destruct (m tx) as [[e|a] tx1] eqn:E1; apply Hm in E1 as <-; [|by simplify_eq].
  by eapply Hf.
Qed.
Lemma neutral_attempt {R} (m : M TxT R) : Neutral m -> Neutral (attempt m).
Proof.
  intros Hm tx r tx' Er. unfold attempt in Er. destruct (m tx) as [r1 tx1] eqn:E1.
  apply Hm in E1 as <-. by simplify_eq.
Qed.
Lemma neutral_mret {R} (a : R) : Neutral (mret a).
Proof. by intros tx r tx' [= <- <-]. Qed.
Lemma neutral_throw {R} e : Neutral (throw (A := R) e).
Proof. by intros tx r tx' [= <- <-]. Qed.
Lemma neutral_api_error {R} e : Neutral (api_error (R := R) e).
Proof. apply neutral_throw. Qed.
Lemma neutral_lift {R} (r : goerr + R) : Neutral (lift r).
Proof. by intros tx r' tx' [= <- <-]. Qed.
Lemma neutral_internal {R} e : Neutral (internal (R := R) e).
Proof. intros tx r tx'. cbn. by intros [= <- <-]. Qed.
Lemma neutral_Now : Neutral Now.
Proof. by intros tx r tx' [= <- <-]. Qed.
Lemma neutral_NextID : Neutral NextID.
Proof. by intros tx r tx' [= <- <-]. Qed.
Lemma neutral_RandRead n : Neutral (RandRead n).
Proof. by intros tx r tx' [= <- <-]. Qed.
Lemma neutral_RandInt n : Neutral (RandInt n).
Proof. by intros tx r tx' [= <- <-]. Qed.
Lemma neutral_query {R} (f : DB -> R) : Neutral (query f).
Proof.
  intros tx [e|r] tx' Er; [by apply stmt_inl in Er as [-> _]|].
  apply stmt_inr in Er as (_ & [= _ <-] & _). done.
Qed.
Lemma neutral_BeforeCommit op : Neutral (BeforeCommit op).
Proof. by intros tx r tx' [= <- <-]. Qed.
Lemma neutral_AfterCommit op : Neutral (AfterCommit op).
Proof. intros tx r tx'. unfold AfterCommit. case_match; by intros [= <- <-]. Qed.
End triples.

Create HintDb neutral.
#[export] Hint Resolve neutral_mret neutral_throw neutral_api_error neutral_lift
  neutral_internal neutral_Now neutral_NextID neutral_RandRead neutral_RandInt
  neutral_query neutral_BeforeCommit neutral_AfterCommit neutral_attempt : neutral.

Ltac solve_neutral :=
  intros; cbn beta;
  lazymatch goal with
  | |- Neutral (mbind _ _) => apply neutral_bind; solve_neutral
  | |- Neutral (on_error _ _) => apply neutral_on_error; solve_neutral
  | |- Neutral (attempt _) => apply neutral_attempt; solve_neutral
  | |- Neutral (match ?x with _ => _ end) => destruct x; solve_neutral
  | |- _ => solve [eauto with neutral]
  end.

Lemma neutral_inr `{Env} {DB B A R} (m : M (Tx DB B A) R) tx r tx' :
  m tx = (r, tx') -> Neutral m -> tx_db tx' = tx_db tx.
Proof. intros E Hm. by eapply Hm. Qed.

(** A run of code that only reads. *)
Ltac reads E := apply neutral_inr in E; [|solve_neutral].

(** ** Relations under a precondition

    [KeepsIf P D m] is [Keeps D m] for the runs from tables with [P]; reading adds to
    what is known of them. *)
Section preconditions.
Context `{Env} {DB B A : Type}.
Abbreviation TxT := (Tx DB B A).
Implicit Types (D : relation DB) (P : DB -> Prop).

Definition KeepsIf {R} P D (m : M TxT R) : Prop :=
  forall tx r tx', P (tx_db tx) -> m tx = (r, tx') -> D (tx_db tx) (tx_db tx').

Lemma keeps_if {R} D (m : M TxT R) : KeepsIf (fun _ => True) D m -> Keeps D m.
Proof. intros Hm tx r tx' E. by eapply Hm. Qed.

Lemma keeps_if_read {R Q} P D `{!PreOrder D} (m : M TxT R) (F : R -> DB -> Prop) (k : R -> M TxT Q) :
  Neutral m -> (forall tx a tx', P (tx_db tx) -> m tx = (inr a, tx') -> F a (tx_db tx)) ->
  (forall a, KeepsIf (fun db => P db /\ F a db) D (k a)) -> KeepsIf P D (mbind m k).
Proof.
  intros Hn HF Hk tx r tx' Hp E. unfold mbind in E.
  destruct (m tx) as [[e|a] tx1] eqn:E1; pose proof (Hn _ _ _ E1) as Hdb.
  - injection E as _ <-. by rewrite Hdb.
  - rewrite <- Hdb. eapply (Hk a); [|exact E]. rewrite Hdb. split; [done | by eapply HF].
Qed.

Lemma keeps_if_bind {R Q} P D `{!PreOrder D} (m : M TxT R) (k : R -> M TxT Q) :
  KeepsIf P D m -> (forall a, Keeps D (k a)) -> KeepsIf P D (mbind m k).
Proof.
  intros Hm Hk tx r tx' Hp E. unfold mbind in E.
  destruct (m tx) as [[e|a] tx1] eqn:E1; pose proof (Hm _ _ _ Hp E1) as H1.
  - by injection E as _ <-.
  - etrans; [exact H1 | by eapply Hk].
Qed.

Lemma keeps_if_on_error {R} P D `{!PreOrder D} (m : M TxT R) f :
  KeepsIf P D m -> (forall e, Keeps D (f e)) -> KeepsIf P D (on_error m f).
Proof.
  intros Hm Hf tx r tx' Hp E. unfold on_error in E.
  destruct (m tx) as [[e|a] tx1] eqn:E1; pose proof (Hm _ _ _ Hp E1) as H1.
  - etrans; [exact H1 | by eapply Hf].
  - by injection E as _ <-.
Qed.

Lemma keeps_if_pure {R} P (Q : Prop) D (m : M TxT R) :
  (Q -> Keeps D m) -> KeepsIf (fun db => P db /\ Q) D m.
Proof. intros Hm tx r tx' [_ Hq] E. by eapply Hm. Qed.

Lemma keeps_if_stmt {R} P D `{!PreOrder D} (f : DB -> goerr + R * DB) :
  (forall db r db', P db -> f db = inr (r, db') -> D db db') -> KeepsIf P D (stmt f).
Proof.
  intros Hf tx [e|r] tx' Hp E.
  - by apply stmt_inl in E as [-> _].
  - apply stmt_inr in E as (_ & E & _). by eapply Hf.
Qed.
End preconditions.

(** ** Workers

    [InvW I m phi] is [Inv] for a computation between transactions, when the other
    processes keep [I] as well. *)
Section workers.
Context `{Env} {DB B A X : Type} `{!Interference DB}.
Abbreviation WorldT := (World DB X).
Context (I : DB -> Prop).

Definition InvW {R} (m : M WorldT R) (phi : R -> Prop) : Prop :=
  forall w r w', m w = (r, w') -> I (w_db w) ->
    I (w_db w') /\ forall a, r = inr a -> phi a.

Lemma invw_bind {R Q} (m : M WorldT R) (k : R -> M WorldT Q) phi psi :
  InvW m phi -> (forall a, phi a -> InvW (k a) psi) -> InvW (mbind m k) psi.
Proof.
  intros Hm Hk w r w' E Hw. unfold mbind in E.
  destruct (m w) as [[e|a] w1] eqn:E1; destruct (Hm _ _ _ E1 Hw) as [Hw1 Ha].
  - by simplify_eq.
  - eapply Hk; eauto.
Qed.

Lemma invw_attempt {R} (m : M WorldT R) phi :
  InvW m phi -> InvW (attempt m) (fun r => forall a, r = inr a -> phi a).
Proof.
  intros Hm w r w' E Hw. unfold attempt in E. destruct (m w) as [r1 w1] eqn:E1.
  destruct (Hm _ _ _ E1 Hw). simplify_eq. split; [done|]. naive_solver.
Qed.

Lemma invw_same {R} (m : M WorldT R) :
  (forall w r w', m w = (r, w') -> w_db w' = w_db w) -> InvW m any.
Proof. intros Hm w r w' E Hw. by rewrite (Hm _ _ _ E). Qed.

Lemma invw_mret {R} (a : R) (phi : R -> Prop) : phi a -> InvW (mret a) phi.
Proof. intros Ha w r w' [= <- <-] Hw. naive_solver. Qed.
Lemma invw_throw {R} e (phi : R -> Prop) : InvW (throw e) phi.
Proof. intros w r w' [= <- <-] Hw. done. Qed.
Lemma invw_NowW : InvW NowW any.
Proof. apply invw_same. by intros w r w' [= <- <-]. Qed.
Lemma invw_RandReadW n : InvW (RandReadW n) any.
Proof. apply invw_same. by intros w r w' [= <- <-]. Qed.

Context (Hothers : forall k db, I db -> I (others k db)).

Lemma invw_InTx {R} interp (fn : M (Tx DB B A) R) phi :
  (forall op, Inv I (interp op) any) -> Inv I fn phi -> InvW (InTx interp fn) phi.
Proof.
  intros Hi Hf w r w' E Hw. unfold InTx in E.
  eapply inv_RunInTx in E; [done|done|done|]. by apply Hothers.
Qed.
End workers.

(** A transaction of a worker, in a fault-free environment. *)
Lemma InTx_cases `{Env} {DB B A X R} `{!Interference DB} interp (fn : M (Tx DB B A) R)
    (w : World DB X) r w' :
  InTx interp fn w = (r, w') ->
  let w0 := interfere w in
  (exists e, r = inl e /\ w_db w' = w_db w0 /\ w_ext w' = w_ext w) \/
  (exists v tx tx1, r = inr v /\ fn (begin_tx false w0) = (inr v, tx) /\
     BeforeCommitQueue_Run interp tx = (inr tt, tx1) /\
     w_db w' = tx_db tx1 /\ w_ext w' = w_ext w).
Proof.
  unfold InTx. intros E. apply RunInTx_cases in E
    as [(e & ? & ? & ?) | (v & tx & tx1 & ? & ? & ? & _ & ? & ?)]; [left|right]; eauto 10.
Qed.

(** ** Triples of workers

    As [Triple], over the committed tables; a transaction sees them after the
    others' writes, so its precondition must survive those. *)
Section worker_triples.
Context `{Env} {DB B A X : Type} `{!Interference DB}.
Abbreviation WorldT := (World DB X).

Definition TripleW {R} (P : DB -> Prop) (m : M WorldT R) (Q : R -> DB -> Prop)
    (E : DB -> Prop) : Prop :=
  forall w r w', m w = (r, w') -> P (w_db w) ->
    match r with inl _ => E (w_db w') | inr a => Q a (w_db w') end.

Lemma tripleW_bind {R T} P (m : M WorldT R) Q (k : R -> M WorldT T) Q' E :
  TripleW P m Q E -> (forall a, TripleW (Q a) (k a) Q' E) -> TripleW P (mbind m k) Q' E.
Proof.
  intros Hm Hk w r w' Er Hp. unfold mbind in Er.
  destruct (m w) as [[e|a] w1] eqn:E1; specialize (Hm _ _ _ E1 Hp).
  - by simplify_eq.
  - by eapply Hk.
Qed.

Lemma tripleW_attempt {R} P (m : M WorldT R) (Q : R -> DB -> Prop) E E' :
  TripleW P m Q E ->
  TripleW P (attempt m) (fun r => match r with inl _ => E | inr a => Q a end) E'.
Proof.
  intros Hm w r w' Er Hp. unfold attempt in Er. destruct (m w) as [r1 w1] eqn:E1.
  specialize (Hm _ _ _ E1 Hp). simplify_eq. by destruct r1.
Qed.

(** What holds either way holds of the attempt. *)
Lemma tripleW_attempt_any {R} P (m : M WorldT R) (Q E : DB -> Prop) :
  TripleW P m (fun _ => Q) Q -> TripleW P (attempt m) (fun _ => Q) E.
Proof.
  intros Hm w r w' Er Hp. unfold attempt in Er. destruct (m w) as [r1 w1] eqn:E1.
  specialize (Hm _ _ _ E1 Hp). simplify_eq. by destruct r1.
Qed.

Lemma tripleW_same {R} P (m : M WorldT R) (E : DB -> Prop) :
  (forall w r w', m w = (r, w') -> w_db w' = w_db w) -> (forall db, P db -> E db) ->
  TripleW P m (fun _ => P) E.
Proof.
  intros Hm HE w r w' Er Hp. rewrite (Hm _ _ _ Er). destruct r; auto.
Qed.

Lemma tripleW_mret {R} P (a : R) (Q : R -> DB -> Prop) E :
  (forall db, P db -> Q a db) -> TripleW P (mret a) Q E.
Proof. intros HQ w r w' [= <- <-]. apply HQ. Qed.

Lemma tripleW_conseq {R} P P' (m : M WorldT R) Q Q' (E E' : DB -> Prop) :
  TripleW P m Q E -> (forall db, P' db -> P db) ->
  (forall a db, Q a db -> Q' a db) -> (forall db, E db -> E' db) -> TripleW P' m Q' E'.
Proof.
  intros Hm HP HQ HE w r w' Er Hp. specialize (Hm _ _ _ Er (HP _ Hp)). destruct r; auto.
Qed.

(** A transaction that defers nothing. *)
Lemma tripleW_InTx {R} interp (fn : M (Tx DB B A) R) (P : DB -> Prop) Q (E : DB -> Prop) :
  (forall k db, P db -> P (others k db)) -> (forall db, P db -> E db) ->
  (forall tx r tx', fn tx = (inr r, tx') -> tx_before tx = [] -> P (tx_db tx) ->
     tx_before tx' = [] /\ Q r (tx_db tx')) ->
  TripleW (R := R) P (InTx interp fn) Q E.
Proof.
  intros Ho HE Hf w r w' Er Hp. apply InTx_cases in Er
    as [(e & -> & -> & _) | (v & tx & tx1 & -> & Hrun & Hb & -> & _)].
  - by apply HE, Ho.
  - destruct (Hf _ _ _ Hrun eq_refl (Ho _ _ Hp)) as [Hn Hq].
    unfold BeforeCommitQueue_Run in Hb. rewrite Hn in Hb. injection Hb as <-. exact Hq.
Qed.
End worker_triples.

(** ** Symbolic execution *)
Lemma mbind_run {S A B} (m : M S A) (k : A -> M S B) s a s' :
  m s = (inr a, s') -> mbind m k s = k a s'.
Proof. unfold mbind. by intros ->. Qed.

Lemma mbind_stop {S A B} (m : M S A) (k : A -> M S B) s e s' :
  m s = (inl e, s') -> mbind m k s = (inl e, s').
Proof. unfold mbind. by intros ->. Qed.

Lemma on_error_run {S A} (m : M S A) f s a s' :
  m s = (inr a, s') -> on_error m f s = (inr a, s').
Proof. unfold on_error. by intros ->. Qed.

(** A transaction after one reading of the clock. *)
Definition tick {DB B A} (tx : Tx DB B A) : Tx DB B A :=
  set_ctr (fun c => c <| c_now := S (c_now c) |>) tx.

Lemma mbind_Now `{Env} {DB B A R} (k : time -> M (Tx DB B A) R) tx :
  mbind Now k tx = k (env_now (c_now (tx_ctr tx))) (tick tx).
Proof. reflexivity. Qed.

(** ** Fault-free execution *)
Section faultless.
Context `{Faultless} {DB B A : Type}.

Definition stmt_ctr (c : Ctr) : Ctr := c <| c_stmt := S (c_stmt c) |>.

Lemma stmt_ok {R} (f : DB -> goerr + R * DB) (tx : Tx DB B A) r db :
  tx_aborted tx = false -> f (tx_db tx) = inr (r, db) ->
  stmt f tx = (inr r, set_ctr stmt_ctr tx <| tx_db := db |>).
Proof.
  intros Ha Hf. unfold stmt. cbn. by rewrite Ha, faultless_stmt, Hf.
Qed.

Lemma query_ok {R} (f : DB -> R) (tx : Tx DB B A) :
  tx_aborted tx = false ->
  query f tx = (inr (f (tx_db tx)), set_ctr stmt_ctr tx <| tx_db := tx_db tx |>).
Proof. intros Ha. unfold query. by erewrite stmt_ok. Qed.

Lemma exec_ok (f : DB -> DB) (tx : Tx DB B A) :
  tx_aborted tx = false ->
  exec f tx = (inr tt, set_ctr stmt_ctr tx <| tx_db := f (tx_db tx) |>).
Proof. intros Ha. unfold exec. by erewrite stmt_ok. Qed.
End faultless.
