(* ===== verification/Authz.v ===== *)
(** * Roles and capabilities: [internal/authz]

    Roles and capabilities are open string types in the code (roles are read
    from the database); the enumerated constants are the only ones the table
    knows. *)

From S2P Require Import Prelude.

Abbreviation UserRole := string (only parsing).
Abbreviation Capability := string (only parsing).

Definition UserRoleUser : UserRole := "user".
Definition UserRoleDictReviewer : UserRole := "dict_reviewer".
Definition UserRoleModerator : UserRole := "moderator".
Definition UserRoleSuperAdmin : UserRole := "super_admin".

Definition CapUseApp : Capability := "use_app".
Definition CapReviewDictionarySuggestion : Capability := "review_dictionary_suggestion".
Definition CapManageDictionary : Capability := "manage_dictionary".
Definition CapReviewContent : Capability := "review_content".
Definition CapManageContent : Capability := "manage_content".
Definition CapViewUserEvidence : Capability := "view_user_evidence".
Definition CapBanUser : Capability := "ban_user".
Definition CapListUsers : Capability := "list_users".
Definition CapManageUserRoles : Capability := "manage_user_roles".
Definition CapListAdmins : Capability := "list_admins".

(** A missing key of the Go map yields the nil slice. *)
Definition roleCapabilities (role : UserRole) : list Capability :=
  if bool_decide (role = UserRoleUser) then [CapUseApp]
  else if bool_decide (role = UserRoleDictReviewer) then
    [CapUseApp; CapReviewDictionarySuggestion; CapManageDictionary]
  else if bool_decide (role = UserRoleModerator) then
    [CapUseApp; CapReviewContent; CapManageContent; CapViewUserEvidence; CapBanUser]
  else if bool_decide (role = UserRoleSuperAdmin) then
    [CapUseApp; CapReviewDictionarySuggestion; CapManageDictionary;
     CapReviewContent; CapManageContent; CapViewUserEvidence; CapBanUser;
     CapListUsers; CapManageUserRoles; CapListAdmins]
  else [].

Definition roleHasCapability (role : UserRole) (capability : Capability) : bool :=
  existsb (fun candidate => bool_decide (candidate = capability)) (roleCapabilities role).

Definition HasCapability (roles : list UserRole) (capability : Capability) : bool :=
  match roles with
  | [] => roleHasCapability UserRoleUser capability
  | _ => existsb (fun role => roleHasCapability role capability) roles
  end.

Definition IsManagedRole (role : UserRole) : bool :=
  bool_decide (role = UserRoleDictReviewer) || bool_decide (role = UserRoleModerator) ||
  bool_decide (role = UserRoleSuperAdmin).

Lemma roleHasCapability_spec role cap :
  roleHasCapability role cap = true <-> cap ∈ roleCapabilities role.
Proof.
  unfold roleHasCapability. rewrite existsb_exists. split.
  - intros [c [Hin Heq]]. apply bool_decide_eq_true in Heq as ->.
    by apply list_elem_of_In.
  - intros Hin. exists cap. split; [by apply list_elem_of_In | by apply bool_decide_eq_true].
Qed.

(** The effective roles of an identity: an identity without bindings is an
    ordinary user. *)
Definition effective_roles (roles : list UserRole) : list UserRole :=
  match roles with [] => [UserRoleUser] | _ => roles end.

Lemma HasCapability_spec roles cap :
  HasCapability roles cap = true <->
  exists role, role ∈ effective_roles roles /\ cap ∈ roleCapabilities role.
Proof.
  assert (HasCapability roles cap
    = existsb (fun role => roleHasCapability role cap) (effective_roles roles)) as ->.
  { destruct roles; cbn; [by rewrite orb_false_r | done]. }
  rewrite existsb_exists. split.
  - intros [r [Hin Hr]]. exists r. rewrite list_elem_of_In.
    split; [done | by apply roleHasCapability_spec].
  - intros [r [Hin Hr]]. exists r. rewrite <- list_elem_of_In.
    split; [done | by apply roleHasCapability_spec].
Qed.

Lemma privileged_super_admin role cap :
  cap ∈ [CapListUsers; CapManageUserRoles; CapListAdmins] ->
  cap ∈ roleCapabilities role <-> role = UserRoleSuperAdmin.
Proof.
  intros Hcap. split.
  - intros Hin. unfold roleCapabilities in Hin. repeat case_bool_decide; [.. | set_solver].
    all: subst; set_unfold in Hcap; set_unfold in Hin.
    4: done.
    all: exfalso; destruct_or!; subst; discriminate.
  - intros ->. set_unfold in Hcap. destruct_or!; subst; in_list.
Qed.

Lemma managed_use_app role :
  IsManagedRole role = true -> CapUseApp ∈ roleCapabilities role.
Proof.
  unfold IsManagedRole. rewrite !orb_true_iff, !bool_decide_eq_true.
  intros [[-> | ->] | ->]; in_list.
Qed.

Lemma super_admin_all r cap :
  cap ∈ roleCapabilities r -> cap ∈ roleCapabilities UserRoleSuperAdmin.
Proof.
  intros Hin. unfold roleCapabilities in Hin. repeat case_bool_decide; [.. | set_solver].
  all: set_unfold in Hin; destruct_or!; subst; in_list.
Qed.

Lemma ordinary_capability cap : cap ∈ roleCapabilities UserRoleUser -> cap = CapUseApp.
Proof. intros Hin. by apply list_elem_of_singleton in Hin. Qed.

(** separation of privilege and monotonicity of bindings.  The capabilities
    of user and administrator management are held exactly through the
    super-administrator binding; every managed role keeps [use_app], so binding a
    managed role to an identity never takes a capability away from it, and a
    super administrator has every capability that any role has. *)
Theorem capability_separation (roles : list UserRole) (cap : Capability) :
  (cap ∈ [CapListUsers; CapManageUserRoles; CapListAdmins] ->
     (HasCapability roles cap = true <-> UserRoleSuperAdmin ∈ roles)) /\
  (forall role, IsManagedRole role = true ->
     HasCapability roles cap = true -> HasCapability (role :: roles) cap = true) /\
  (UserRoleSuperAdmin ∈ roles -> forall r, cap ∈ roleCapabilities r ->
     HasCapability roles cap = true).
Proof.
  repeat split.
  - rewrite HasCapability_spec. intros [r [Hr Hc]].
    apply privileged_super_admin in Hc as ->; [|done].
    destruct roles; [by apply list_elem_of_singleton in Hr | done].
  - intros Hin. apply HasCapability_spec. exists UserRoleSuperAdmin. split.
    + destruct roles; [set_solver | done].
    + by apply privileged_super_admin.
  - intros role Hm. rewrite !HasCapability_spec. intros [r [Hr Hc]]. cbn.
    destruct roles as [|r0 rs].
    + apply list_elem_of_singleton in Hr as ->. apply ordinary_capability in Hc as ->.
      exists role. split; [set_solver | by apply managed_use_app].
    + exists r. split; [cbn in *; set_solver | done].
  - intros Hin r Hc. apply HasCapability_spec. exists UserRoleSuperAdmin. split.
    + destruct roles; [set_solver | done].
    + by eapply super_admin_all.
Qed.
