(* ===== verification/Middleware.v ===== *)
(** * The request pipeline: [internal/middleware], [internal/httpx]

    One request runs through [ErrorHandler] > [LimitInFlightPaths] >
    [UnitOfWork] > [RequireAuth] > [RequireCapability] > handler.  The state of a
    request is [ReqCtx] (what the code keeps in Hertz's [RequestContext]) next to
    the transaction.  Logging and tracing are not modelled.

    Writing a JSON body appends to the response, which is what the pipeline has to
    assume of the framework ("避免错误中间件把 500 JSON 追加在 2xx JSON 后"): the
    body is the list of the documents written. *)

From S2P Require Import Prelude.
From S2P Require Import GoText.
From S2P Require Import Apierr.
From S2P Require Import Authz.
From S2P Require Import Effects.
Open Scope Z_scope.

Section pipeline.
Context `{Env} {DB B A X P T : Type}.
Context (interp_before : B -> M (Tx DB B A) unit).
Context (interp_after : A -> World DB X -> World DB X * option string).

Abbreviation TxT := (Tx DB B A).
Abbreviation WorldT := (World DB X).

Record ReqCtx := mkReqCtx {
  rc_error : option goerr;         (* errCtxKey *)
  rc_commit_error : bool;          (* commitErrorCtxKey *)
  rc_principal : option P;         (* principalCtxKey *)
  rc_aborted : bool;
  rc_status : Z;
  rc_headers : list (string * string);
  rc_body : list (Envelope T);
}.
#[global] Instance eta_ReqCtx : Eta ReqCtx :=
  fun x => mkReqCtx (rc_error x) (rc_commit_error x) (rc_principal x) (rc_aborted x)
             (rc_status x) (rc_headers x) (rc_body x).

Definition fresh_request : ReqCtx := mkReqCtx None false None false 200 [] [].

(** *** httpx *)
(** [Fail(ctx, c, err)]; a nil error only aborts the chain. *)
Definition Fail (err : option goerr) (c : ReqCtx) : ReqCtx :=
  c <| rc_error := err |> <| rc_aborted := true |>.

Definition ReportedError (c : ReqCtx) : option goerr := rc_error c.
Definition HasError (c : ReqCtx) : bool :=
  match ReportedError c with Some _ => true | None => false end.
Definition CommitError (c : ReqCtx) : ReqCtx := c <| rc_commit_error := true |>.
Definition CommitErrorRequested (c : ReqCtx) : bool := rc_commit_error c.

Definition JSON (status : Z) (doc : Envelope T) (c : ReqCtx) : ReqCtx :=
  c <| rc_status := status |> <| rc_body := rc_body c ++ [doc] |>.
Definition ResetBody (c : ReqCtx) : ReqCtx := c <| rc_body := [] |>.

(** A handler of the chain: it returns, or panics with a value, leaving request
    and transaction as they are at that point. *)
Inductive outcome :=
| Returned (c : ReqCtx) (tx : TxT)
| Panicked (value : string) (c : ReqCtx) (tx : TxT).

Definition Handler := ReqCtx -> TxT -> outcome.

(** *** UnitOfWork *)
Definition shouldCommitError (c : ReqCtx) : bool :=
  if negb (CommitErrorRequested c) then false
  else if 500 <=? rc_status c then false
  else
    let status := match ReportedError c with
                  | Some err => Status (As None err)
                  | None => rc_status c
                  end in
    (400 <=? status) && (status <? 500).

Definition request_failed (c : ReqCtx) : bool :=
  (HasError c || (400 <=? rc_status c)) && negb (shouldCommitError c).

(** The request context after the transaction, the process state, and the value
    of a panic that is re-raised for [Recovery]. *)
Definition UnitOfWork (next : Handler) (c : ReqCtx) (w : WorldT)
    : option string * ReqCtx * WorldT :=
  let k := c_tx (w_ctr w) in
  match env_begin k with
  | Some e => (None, Fail (Some e) c, w <| w_ctr := (w_ctr w) <| c_tx := S k |> |>)
  | None =>
      match next c (begin_tx true w) with
      | Panicked v c' tx => (Some v, c', rolled_back w tx)
      | Returned c' tx =>
          if request_failed c' then (None, c', rolled_back w tx)
          else
            match BeforeCommitQueue_Run interp_before tx with
            | (inl e, tx') => (None, Fail (Some e) (ResetBody c'), rolled_back w tx')
            | (inr _, tx') =>
                match commit_error k tx' with
                | Some e => (None, Fail (Some e) (ResetBody c'), rolled_back w tx')
                | None =>
                    let '(w', _) := run_after interp_after (tx_after tx') (committed w tx') in
                    (None, c', w')
                end
            end
      end
  end.

(** *** ErrorHandler and Recovery
    [random] is the read of the random source an internal error id takes. *)
Definition ErrorHandler (random : option string) (c : ReqCtx) : ReqCtx :=
  match ReportedError c with
  | None => c
  | Some err =>
      let '(status, body) := FromError (As random err) in JSON status body c
  end.

Definition Recovery (random : option string) (panic : string) (c : ReqCtx) : ReqCtx :=
  let '(status, body) := FromError (Internal random (EWrap "panic: " (ENew panic))) in
  (JSON status body c) <| rc_aborted := true |>.

(** [Recovery], [ErrorHandler] and [UnitOfWork] composed as [router.Register]
    mounts them; a panic passes by [ErrorHandler]. *)
Definition serve (random : option string) (next : Handler) (c : ReqCtx) (w : WorldT)
    : ReqCtx * WorldT :=
  match UnitOfWork next c w with
  | (Some v, c', w') => (Recovery random v c', w')
  | (None, c', w') => (ErrorHandler random c', w')
  end.

(** *** RequireAuth and RequireCapability *)
Definition errMissingAuthorization : goerr := ENew "authorization header missing".
Definition errMalformedAuthorization : goerr := ENew "authorization header malformed".
Definition errMalformedPrincipal : goerr := ENew "authorization header malformed".

Definition bearerToken (header : string) : goerr + string :=
  let header := TrimSpace header in
  if bool_decide (header = ""%string) then inl errMissingAuthorization
  else
    let '(scheme, token, found) := Cut header " " in
    if negb found || negb (EqualFoldASCII scheme "bearer") then inl errMalformedAuthorization
    else if bool_decide (TrimSpace token = ""%string) then inl errMalformedAuthorization
    else inr (TrimSpace token).

Definition CurrentPrincipal (c : ReqCtx) : goerr + P :=
  match rc_principal c with
  | None => inl (EApi (WithCause Unauthorized errMalformedPrincipal))
  | Some p => inr p
  end.

Definition RequireAuth (authenticate : string -> M TxT P) (header : string)
    (next : Handler) : Handler := fun c tx =>
  match bearerToken header with
  | inl err => Returned (Fail (Some (EApi (WithCause Unauthorized err))) c) tx
  | inr token =>
      match authenticate token tx with
      | (inl err, tx') => Returned (Fail (Some err) c) tx'
      | (inr principal, tx') => next (c <| rc_principal := Some principal |>) tx'
      end
  end.

Definition RequireCapability (roles_of : P -> list UserRole) (capability : Capability)
    (next : Handler) : Handler := fun c tx =>
  match CurrentPrincipal c with
  | inl err => Returned (Fail (Some err) c) tx
  | inr principal =>
      if HasCapability (roles_of principal) capability then next c tx
      else Returned (Fail (Some (EApi
             (Forbidden BizPermissionDenied "没有执行该操作的权限"))) c) tx
  end.
End pipeline.

Arguments ReqCtx : clear implicits.
Arguments Handler : clear implicits.
Arguments outcome : clear implicits.

(** ** The commit decision *)
Section uow.
Context `{Env} {DB B A X P T : Type}.
Context (ib : B -> M (Tx DB B A) unit).
Context (ia : A -> World DB X -> World DB X * option string).
Implicit Types (c : ReqCtx P T) (w : World DB X).

(** What a request has to be for its writes to be kept, said without the code's
    own test: it reported no error and answered below 400, or it asked for its
    error to be committed and that error is a 4xx (a 500 written beside it
    forbids it). *)
Definition reported_status c : Z :=
  match rc_error c with Some e => Status (As None e) | None => rc_status c end.
Definition to_commit c : Prop :=
  (rc_error c = None /\ rc_status c < 400) \/
  (rc_commit_error c = true /\ rc_status c < 500 /\ 400 <= reported_status c < 500).

Lemma request_failed_to_commit c : request_failed c = false <-> to_commit c.
Proof.
  unfold request_failed, shouldCommitError, to_commit, reported_status, HasError,
    CommitErrorRequested, ReportedError.
  destruct (rc_error c), (rc_commit_error c); cbn; repeat case_match;
    rewrite ?negb_false_iff, ?andb_false_iff, ?negb_false_iff, ?andb_true_iff, ?Z.leb_le,
      ?Z.leb_gt, ?Z.ltb_lt in *; naive_solver lia.
Qed.

(** The whole of the decision: BEGIN succeeded, the handler returned (it did not
    panic) with a request to commit, the before-commit operations succeeded, no
    statement aborted the transaction, and COMMIT succeeded. *)
Record commits (next : Handler DB B A P T) c w c1 (tx tx1 : Tx DB B A) : Prop := {
  cm_begin : env_begin (c_tx (w_ctr w)) = None;
  cm_returned : next c (begin_tx true w) = Returned c1 tx;
  cm_asked : to_commit c1;
  cm_before : BeforeCommitQueue_Run ib tx = (inr tt, tx1);
  cm_aborted : tx_aborted tx1 = false;
  cm_commit : env_commit (c_tx (w_ctr w)) = None;
}.

(** Either the transaction was committed, or it was not and the tables, and
    everything after-commit operations can touch, are those before the request. *)
Lemma UnitOfWork_cases (next : Handler DB B A P T) c w p c' w' :
  UnitOfWork ib ia next c w = (p, c', w') ->
  (w_db w' = w_db w /\ w_ext w' = w_ext w /\
     (forall c1 tx tx1, ~ commits next c w c1 tx tx1)) \/
  (exists tx tx1,
     p = None /\ commits next c w c' tx tx1 /\
     w' = fst (run_after ia (tx_after tx1) (committed w tx1))).
Proof.
  unfold UnitOfWork, commit_error. intros E.
  destruct (env_begin _) eqn:Hbg; [simplify_eq; left; split_and!; [done..|];
    intros ??? []; congruence|].
  destruct (next c _) as [c1 tx|v c1 tx] eqn:Hn; [|simplify_eq; left; split_and!; [done..|];
    intros ??? []; congruence].
  destruct (request_failed c1) eqn:Hf.
  { simplify_eq. left. split_and!; [done..|]. intros ??? [? Hr Hc%request_failed_to_commit].
    rewrite Hn in Hr. simplify_eq. congruence. }
  apply request_failed_to_commit in Hf.
  destruct (BeforeCommitQueue_Run ib tx) as [[e|[]] tx1] eqn:Hb;
    [simplify_eq; left; split_and!; [done..|]; intros ??? [? Hr ? Hb']; rewrite Hn in Hr;
       simplify_eq; rewrite Hb in Hb'; congruence|].
  destruct (tx_aborted tx1) eqn:Ha; [simplify_eq; left; split_and!; [done..|];
    intros ??? [? Hr ? Hb']; rewrite Hn in Hr; simplify_eq; rewrite Hb in Hb'; congruence|].
  destruct (env_commit _) eqn:Hcm; [simplify_eq; left; split_and!; [done..|];
    intros ??? []; congruence|].
  destruct (run_after _ _ _) as [w1 ps] eqn:Hr. simplify_eq. right.
  exists tx, tx1. split; [done|]. split; [by split|]. by rewrite Hr.
Qed.

Lemma Status_As r err : Status (As r err) = Status (As None err).
Proof. unfold As. by repeat case_match. Qed.

Lemma ErrorHandler_status r c :
  rc_status (ErrorHandler r c) =
    match rc_error c with Some e => Status (As None e) | None => rc_status c end /\
  rc_commit_error (ErrorHandler r c) = rc_commit_error c.
Proof.
  unfold ErrorHandler, ReportedError, FromError. destruct (rc_error c); cbn; [|done].
  by rewrite Status_As.
Qed.

(** C1: a request is atomic, and the outcome decides.  Exactly when BEGIN
    succeeds, the handler returns having reported no error and answered below
    400, or having asked for a 4xx to be committed, the before-commit operations
    succeed, no statement aborted the transaction and COMMIT succeeds, the tables
    become the transaction's and the after-commit callbacks run, in registration
    order, after it, and the response is that of the handler: below 500, and a
    4xx only when its commit was asked for.  In every other case (an error, a
    panic, a failed hook, BEGIN or COMMIT) the tables and everything the
    callbacks can touch are exactly as before the request. *)
Theorem request_atomic (random : option string) (next : Handler DB B A P T) c w c' w' :
  serve ib ia random next c w = (c', w') ->
  (exists c1 tx tx1,
     commits next c w c1 tx tx1 /\
     w' = fst (run_after ia (tx_after tx1) (committed w tx1)) /\
     c' = ErrorHandler random c1 /\
     rc_status c' < 500 /\
     (400 <= rc_status c' -> rc_commit_error c' = true)) \/
  ((forall c1 tx tx1, ~ commits next c w c1 tx tx1) /\
   w_db w' = w_db w /\ w_ext w' = w_ext w).
Proof.
  unfold serve. intros E.
  destruct (UnitOfWork _ _ _ _ _) as [[p c1] w1] eqn:U.
  apply UnitOfWork_cases in U as [(Hd & Hx & Hno) | (tx & tx1 & -> & Hc & Hw)].
  { right. destruct p; by simplify_eq. }
  left. simplify_eq. exists c1, tx, tx1. split_and!; [done..| |].
  all: pose proof (cm_asked _ _ _ _ _ _ Hc) as Ha; unfold to_commit, reported_status in Ha.
  all: destruct (ErrorHandler_status random c1) as [-> ?].
  all: destruct (rc_error c1), Ha as [[??] | (? & ? & ?)]; try intros; done || lia || congruence.
Qed.

(** the guard of the protected routes.  Behind [RequireAuth] and
    [RequireCapability] a handler runs only for a well-formed bearer header
    whose token authenticated to a principal that holds the capability, and it
    then sees that principal; in every other case the request is aborted with an
    error and the handler never touches the transaction. *)
Theorem guarded_handler (authenticate : string -> M (Tx DB B A) P)
    (roles_of : P -> list UserRole) (capability : Capability)
    (header : string) (next : Handler DB B A P T) c tx :
  let out := RequireAuth authenticate header
               (RequireCapability roles_of capability next) c tx in
  (exists token principal tx',
     bearerToken header = inr token /\
     authenticate token tx = (inr principal, tx') /\
     HasCapability (roles_of principal) capability = true /\
     out = next (c <| rc_principal := Some principal |>) tx') \/
  (exists err c' tx', out = Returned c' tx' /\
     rc_error c' = Some err /\ rc_aborted c' = true /\
     (tx' = tx \/ exists token r, authenticate token tx = (r, tx'))).
Proof.
  cbn. unfold RequireAuth. destruct (bearerToken header) as [e|token] eqn:Ht.
  { right. do 3 eexists. split_and!; [done..|by left]. }
  destruct (authenticate token tx) as [[e|p] tx'] eqn:Ha.
  { right. do 3 eexists. split_and!; [done..|right; by eauto]. }
  unfold RequireCapability. cbn.
  destruct (HasCapability (roles_of p) capability) eqn:Hc.
  - left. by exists token, p, tx'.
  - right. do 3 eexists. split_and!; [done..|right; by eauto].
Qed.
End uow.

(** ** LimitInFlightPaths as a transition system

    [permits] is the buffered channel (how many tokens it holds); a request to a
    protected method and path either takes a token and runs, or is rejected at
    once; the token goes back when its handler returns or panics (the deferred
    receive). *)
Module InFlight.
Record Config := mkConfig {
  method : string;
  allowedPaths : list string;
  maxInFlight : nat;
  retryAfter : string;
}.

Inductive admission := PassedBy | Accepted | Rejected.

Definition protected (cfg : Config) (m path : string) : bool :=
  bool_decide (m = method cfg) && bool_decide (path ∈ allowedPaths cfg).

(** The [select] with [default]: [permits <- struct{}{}] succeeds iff the
    channel is not full. *)
Definition try_acquire (cfg : Config) (permits : nat) : option nat :=
  if (permits <? maxInFlight cfg)%nat then Some (S permits) else None.

(** Requests inside the protected handler, and those that were not concerned. *)
Record State := mkState {
  permits : nat;
  inside : list Z;
  outside : list Z;
}.

Definition initial : State := mkState 0 [] [].

Definition arrive (cfg : Config) (m path : string) (id : Z) (s : State)
    : admission * State :=
  if protected cfg m path then
    match try_acquire cfg (permits s) with
    | Some n => (Accepted, mkState n (id :: inside s) (outside s))
    | None => (Rejected, s)
    end
  else (PassedBy, mkState (permits s) (inside s) (id :: outside s)).

Inductive step (cfg : Config) : State -> State -> Prop :=
| step_arrive m path id s a s' :
    arrive cfg m path id s = (a, s') -> step cfg s s'
| step_leave_inside n id l1 l2 o :     (* return or panic: <-permits *)
    step cfg (mkState (S n) (l1 ++ id :: l2) o) (mkState n (l1 ++ l2) o)
| step_leave_outside n i id l1 l2 :
    step cfg (mkState n i (l1 ++ id :: l2)) (mkState n i (l1 ++ l2)).

Definition inv (cfg : Config) (s : State) : Prop :=
  permits s = length (inside s) /\ (permits s <= maxInFlight cfg)%nat.

Lemma arrive_inv cfg m path id s a s' :
  arrive cfg m path id s = (a, s') -> inv cfg s -> inv cfg s'.
Proof.
  unfold arrive, try_acquire, inv. intros E [Hl Hm].
  destruct (protected _ _ _); [|by simplify_eq].
  destruct (Nat.ltb_spec (permits s) (maxInFlight cfg)); simplify_eq; cbn; [lia|done].
Qed.

Lemma step_inv cfg s s' : step cfg s s' -> inv cfg s -> inv cfg s'.
Proof.
  destruct 1 as [m path id s a s' E | n id l1 l2 o | n i id l1 l2].
  - by eapply arrive_inv.
  - unfold inv. cbn. rewrite !length_app. cbn. lia.
  - done.
Qed.

(** C35: the in-flight limit.  In every reachable state of the limiter the
    number of requests inside the protected handler is the number of tokens
    taken and never exceeds the limit; a protected request is rejected exactly
    when the limit is reached, and a request for another method or path never
    is. *)
Theorem in_flight_limit (cfg : Config) (s : State) (m path : string) (id : Z) :
  rtc (step cfg) initial s ->
  permits s = length (inside s) /\
  (length (inside s) <= maxInFlight cfg)%nat /\
  (fst (arrive cfg m path id s) = Rejected <->
     protected cfg m path = true /\ length (inside s) = maxInFlight cfg).
Proof.
  intros Hr.
  assert (inv cfg s) as [Hp Hm].
  { refine (rtc_ind_r (inv cfg) initial _ _ s Hr); [split; cbn; lia |].
    intros ?? _. apply step_inv. }
  split_and!; [done | lia |]. unfold arrive, try_acquire.
  destruct (protected cfg m path); [|naive_solver].
  destruct (Nat.ltb_spec (permits s) (maxInFlight cfg)); cbn;
    split; try done; intros; destruct_and?; split_and?; first [done | lia].
Qed.

Example two_of_two :
  let cfg := mkConfig "POST" ["/a"] 2 "2" in
  exists s, rtc (step cfg) initial s /\ length (inside s) = 2%nat /\
    fst (arrive cfg "POST" "/a" 9 s) = Rejected.
Proof.
  eexists (mkState 2 [2%Z; 1%Z] []). split; [|done].
  eapply rtc_l; [by eapply (step_arrive _ "POST" "/a" 1)|].
  eapply rtc_l; [by eapply (step_arrive _ "POST" "/a" 2)|]. apply rtc_refl.
Qed.

Lemma in_flight_limit_witness :
  rtc (step (mkConfig "POST" ["/a"] 1 "2")) initial (mkState 1 [7%Z] []) /\
  (length (inside (mkState 1 [7%Z] [])) <= 1)%nat.
Proof.
  assert (rtc (step (mkConfig "POST" ["/a"] 1 "2")) initial (mkState 1 [7%Z] [])) as Hr.
  { eapply rtc_l; [by eapply (step_arrive _ "POST" "/a" 7)|]. apply rtc_refl. }
  split; [exact Hr|].
  exact (proj1 (proj2 (in_flight_limit (mkConfig "POST" ["/a"] 1 "2")
           (mkState 1 [7%Z] []) "POST" "/a" 8 Hr))).
Defined.
End InFlight.
