(* ===== verification/Model.v ===== *)
(** * Rows and tables: [internal/model] and the schema

    One record per GORM model, with the code's field names; string-typed
    enumerations keep their string values.  [DB] holds the tables the modelled
    components read or write, keyed by primary key.  Instants are stored as they
    are (the driver's truncation to microseconds is not modelled). *)

From S2P Require Import Prelude.
From S2P Require Import GoText.
From S2P Require Import Apierr.
From S2P Require Import Effects.
Open Scope Z_scope.

(** internal/model/user.go [User]. *)
Module User.
Record t := mk {
  ID : Z;
  Email : string;
  PasswordHash : string;
  Username : string;
  Gender : option string;
  Bio : option string;
  AvatarImageAssetID : option Z;
  Roles : option (list string);
  BanIsPermanent : bool;
  BannedUntil : option time;
  BanReason : option string;
  BannedBy : option Z;
  DeletedAt : option time;
  CreatedAt : time;
  UpdatedAt : time;
}.
#[global] Instance eta_t : Eta t := fun x =>
  mk (ID x) (Email x) (PasswordHash x) (Username x) (Gender x) (Bio x)
  (AvatarImageAssetID x) (Roles x) (BanIsPermanent x) (BannedUntil x) (BanReason x)
  (BannedBy x) (DeletedAt x) (CreatedAt x) (UpdatedAt x).
End User.

(** internal/model/user.go [UserRoleBinding], [UserBanRecord], [UserRoleRecord]. *)
Module UserRoleBinding.
Record t := mk { UserID : Z; Role : string; GrantedBy : option Z; GrantedAt : time }.
End UserRoleBinding.

Module UserBanRecord.
Record t := mk {
  ID : Z;
  UserID : Z;
  Action : string;
  BanIsPermanent : bool;
  BannedUntil : option time;
  Reason : option string;
  ActorID : option Z;
  CreatedAt : time;
}.
#[global] Instance eta_t : Eta t := fun x =>
  mk (ID x) (UserID x) (Action x) (BanIsPermanent x) (BannedUntil x) (Reason x) (ActorID x)
    (CreatedAt x).
End UserBanRecord.

Module UserRoleRecord.
Record t := mk {
  ID : Z;
  UserID : Z;
  Role : string;
  Action : string;
  ActorID : option Z;
  CreatedAt : time;
}.
#[global] Instance eta_t : Eta t := fun x =>
  mk (ID x) (UserID x) (Role x) (Action x) (ActorID x) (CreatedAt x).
End UserRoleRecord.

(** internal/model/user.go [UsernameClaim]. *)
Module UsernameClaim.
Record t := mk {
  ID : Z;
  UserID : Z;
  Username : string;
  CreatedAt : time;
}.
#[global] Instance eta_t : Eta t := fun x =>
  mk (ID x) (UserID x) (Username x) (CreatedAt x).
End UsernameClaim.

(** internal/model/user.go [EmailVerificationCode]. *)
Module EmailVerificationCode.
Record t := mk {
  ID : Z;
  Email : string;
  Purpose : string;
  CodeDigest : string;
  ExpiresAt : time;
  LastSentAt : option time;
  SendWindowStartedAt : time;
  SendCount : Z;
  FailedAttempts : Z;
  ConsumedAt : option time;
  CreatedAt : time;
  UpdatedAt : time;
}.
#[global] Instance eta_t : Eta t := fun x =>
  mk (ID x) (Email x) (Purpose x) (CodeDigest x) (ExpiresAt x) (LastSentAt x)
  (SendWindowStartedAt x) (SendCount x) (FailedAttempts x) (ConsumedAt x) (CreatedAt
  x) (UpdatedAt x).
End EmailVerificationCode.

(** internal/model/user.go [UserSession]. *)
Module UserSession.
Record t := mk {
  ID : Z;
  UserID : Z;
  RefreshTokenDigest : string;
  DeviceLabel : option string;
  UserAgent : option string;
  IP : option string;
  CreatedAt : time;
  LastSeenAt : time;
  ExpiresAt : time;
  RevokedAt : option time;
}.
#[global] Instance eta_t : Eta t := fun x =>
  mk (ID x) (UserID x) (RefreshTokenDigest x) (DeviceLabel x) (UserAgent x) (IP x)
  (CreatedAt x) (LastSeenAt x) (ExpiresAt x) (RevokedAt x).
End UserSession.

(** internal/model/email_delivery.go [VerificationEmailDelivery]. *)
Module VerificationEmailDelivery.
Record t := mk {
  ID : Z;
  ChallengeID : Z;
  Email : string;
  Purpose : string;
  CodeDigest : string;
  Code : option string;
  State : string;
  Attempts : Z;
  NextAttemptAt : option time;
  LeaseToken : option string;
  LeaseUntil : option time;
  LastErrorCode : option string;
  SentAt : option time;
  CanceledAt : option time;
  DeadLetteredAt : option time;
  CreatedAt : time;
  UpdatedAt : time;
}.
#[global] Instance eta_t : Eta t := fun x =>
  mk (ID x) (ChallengeID x) (Email x) (Purpose x) (CodeDigest x) (Code x) (State x)
  (Attempts x) (NextAttemptAt x) (LeaseToken x) (LeaseUntil x) (LastErrorCode x)
  (SentAt x) (CanceledAt x) (DeadLetteredAt x) (CreatedAt x) (UpdatedAt x).
End VerificationEmailDelivery.

(** internal/model/image.go [ImageAsset]. *)
Module ImageAsset.
Record t := mk {
  ID : Z;
  UploaderID : option Z;
  Purpose : string;
  ObjectKey : string;
  PublicURL : string;
  ContentType : string;
  Size : option Z;
  Status : string;
  Moderation : string;
  CreatedAt : time;
  UpdatedAt : time;
}.
#[global] Instance eta_t : Eta t := fun x =>
  mk (ID x) (UploaderID x) (Purpose x) (ObjectKey x) (PublicURL x) (ContentType x)
  (Size x) (Status x) (Moderation x) (CreatedAt x) (UpdatedAt x).
End ImageAsset.

(** internal/model/image_access.go [ImageAccessIntent]. *)
Module ImageAccessIntent.
Record t := mk {
  ID : Z;
  ImageAssetID : Z;
  SourceModerationRecordID : Z;
  DesiredPublic : bool;
  CreatedAt : time;
}.
#[global] Instance eta_t : Eta t := fun x =>
  mk (ID x) (ImageAssetID x) (SourceModerationRecordID x) (DesiredPublic x) (CreatedAt
  x).
End ImageAccessIntent.

(** internal/model/image_access.go [ImageAccessDelivery].  [NextAttemptAt] is the nullable column: the struct's plain [time.Time] is only read for claimed rows, where it is not NULL. *)
Module ImageAccessDelivery.
Record t := mk {
  ImageAssetID : Z;
  DesiredIntentID : Z;
  DesiredPublic : bool;
  PurgeRequired : bool;
  Generation : Z;
  State : string;
  ACLAttempts : Z;
  SubmitAttempts : Z;
  PollAttempts : Z;
  UnknownChecks : Z;
  ProviderJobID : option string;
  SubmissionStartedAt : option time;
  NextAttemptAt : option time;
  LeaseToken : option string;
  LeaseUntil : option time;
  LastErrorCode : option string;
  CompletedAt : option time;
  DeadLetteredAt : option time;
  CreatedAt : time;
  UpdatedAt : time;
}.
#[global] Instance eta_t : Eta t := fun x =>
  mk (ImageAssetID x) (DesiredIntentID x) (DesiredPublic x) (PurgeRequired x)
  (Generation x) (State x) (ACLAttempts x) (SubmitAttempts x) (PollAttempts x)
  (UnknownChecks x) (ProviderJobID x) (SubmissionStartedAt x) (NextAttemptAt x)
  (LeaseToken x) (LeaseUntil x) (LastErrorCode x) (CompletedAt x) (DeadLetteredAt x)
  (CreatedAt x) (UpdatedAt x).
End ImageAccessDelivery.

(** internal/model/image_moderation_retry.go [ImageModerationRetry]. *)
Module ImageModerationRetry.
Record t := mk {
  ImageAssetID : Z;
  State : string;
  Attempts : Z;
  NextAttemptAt : option time;
  LeaseToken : option string;
  LeaseUntil : option time;
  LastErrorCode : string;
  DeadLetteredAt : option time;
  CreatedAt : time;
  UpdatedAt : time;
}.
#[global] Instance eta_t : Eta t := fun x =>
  mk (ImageAssetID x) (State x) (Attempts x) (NextAttemptAt x) (LeaseToken x)
  (LeaseUntil x) (LastErrorCode x) (DeadLetteredAt x) (CreatedAt x) (UpdatedAt x).
End ImageModerationRetry.

(** internal/model/notification.go [Notification]. *)
Module Notification.
Record t := mk {
  ID : Z;
  RecipientID : Z;
  SenderID : Z;
  Type_ : string;
  RelatedPostID : option Z;
  RelatedCommentID : option Z;
  Content : option string;
  IsRead : bool;
  CreatedAt : time;
  UpdatedAt : time;
}.
#[global] Instance eta_t : Eta t := fun x =>
  mk (ID x) (RecipientID x) (SenderID x) (Type_ x) (RelatedPostID x)
  (RelatedCommentID x) (Content x) (IsRead x) (CreatedAt x) (UpdatedAt x).
End Notification.

(** internal/model/comment.go [Comment], without the query-only columns. *)
Module Comment.
Record t := mk {
  ID : Z;
  PostID : Z;
  AuthorID : Z;
  ParentID : option Z;
  RootID : option Z;
  ReplyToUserID : Z;
  Content : string;
  CurrentRevision : Z;
  Moderation : string;
  LikeCount : Z;
  ReplyCount : Z;
  DeletedAt : option time;
  DeletedReason : option string;
  DeletedBy : option Z;
  CreatedAt : time;
  UpdatedAt : time;
}.
#[global] Instance eta_t : Eta t := fun x =>
  mk (ID x) (PostID x) (AuthorID x) (ParentID x) (RootID x) (ReplyToUserID x)
  (Content x) (CurrentRevision x) (Moderation x) (LikeCount x) (ReplyCount x)
  (DeletedAt x) (DeletedReason x) (DeletedBy x) (CreatedAt x) (UpdatedAt x).
End Comment.

(** internal/model/comment.go [CommentMention]. *)
Module CommentMention.
Record t := mk { CommentID : Z; UserID : Z }.
End CommentMention.

(** internal/model/comment.go [CommentLike]. *)
Module CommentLike.
Record t := mk { UserID : Z; CommentID : Z; CreatedAt : time }.
End CommentLike.

(** internal/model/comment.go [CommentHistory]. *)
Module CommentHistory.
Record t := mk {
  ID : Z;
  CommentID : Z;
  Revision : Z;
  EditedBy : Z;
  EditedAt : time;
  Content : string;
}.
#[global] Instance eta_t : Eta t := fun x =>
  mk (ID x) (CommentID x) (Revision x) (EditedBy x) (EditedAt x) (Content x).
End CommentHistory.

(** internal/model/user.go [Follow]. *)
Module Follow.
Record t := mk { FollowerID : Z; FollowingID : Z; CreatedAt : time }.
End Follow.

(** internal/model/user.go [UsernameChangeRecord]. *)
Module UsernameChangeRecord.
Record t := mk {
  ID : Z;
  UserID : Z;
  OldUsername : string;
  NewUsername : string;
  ChangedAt : time;
}.
End UsernameChangeRecord.

(** internal/model/moderation.go [ModerationRecord].  [Score] is in hundredths (numeric(5,2)), [RawResponse] the JSON text. *)
Module ModerationRecord.
Record t := mk {
  ID : Z;
  PostID : option Z;
  CommentID : option Z;
  ImageAssetID : option Z;
  TagID : option Z;
  UserID : option Z;
  Field : option string;
  UsernameCandidate : option string;
  UsernameRevision : option Z;
  ContentRevision : option Z;
  Scene : string;
  Provider : string;
  ProviderJobID : option string;
  Verdict : string;
  Labels : list string;
  Score : option Z;
  RawResponse : string;
  ReviewerID : option Z;
  ReviewedAt : option time;
  SupersedesID : option Z;
  CreatedAt : time;
}.
#[global] Instance eta_t : Eta t := fun x =>
  mk (ID x) (PostID x) (CommentID x) (ImageAssetID x) (TagID x) (UserID x) (Field x)
  (UsernameCandidate x) (UsernameRevision x) (ContentRevision x) (Scene x) (Provider
  x) (ProviderJobID x) (Verdict x) (Labels x) (Score x) (RawResponse x) (ReviewerID x)
  (ReviewedAt x) (SupersedesID x) (CreatedAt x).
End ModerationRecord.

(** internal/model/post.go [Post]; [Price] in hundredths (numeric(10,2)). *)
Module Post.
Record t := mk {
  ID : Z;
  AuthorID : Z;
  PostType : string;
  ShareType : option string;
  Status : string;
  Category : string;
  Title : string;
  Content : string;
  CurrentRevision : Z;
  CanteenID : option Z;
  CanteenWindowID : option Z;
  CuisineID : option Z;
  Price : option Z;
  BudgetMin : option Z;
  BudgetMax : option Z;
  LikeCount : Z;
  FavoriteCount : Z;
  CommentCount : Z;
  ViewCount : Z;
  DeletedAt : option time;
  DeletedReason : option string;
  DeletedBy : option Z;
  CreatedAt : time;
  UpdatedAt : time;
}.
#[global] Instance eta_t : Eta t := fun x =>
  mk (ID x) (AuthorID x) (PostType x) (ShareType x) (Status x) (Category x) (Title x)
  (Content x) (CurrentRevision x) (CanteenID x) (CanteenWindowID x) (CuisineID x)
  (Price x) (BudgetMin x) (BudgetMax x) (LikeCount x) (FavoriteCount x) (CommentCount
  x) (ViewCount x) (DeletedAt x) (DeletedReason x) (DeletedBy x) (CreatedAt x)
  (UpdatedAt x).
End Post.

(** internal/model/post.go [PostTag]. *)
Module PostTag.
Record t := mk { PostID : Z; TagID : Z }.
End PostTag.

(** internal/model/post.go [PostFlavor]. *)
Module PostFlavor.
Record t := mk { PostID : Z; FlavorID : Z; Stance : string; PostType : string }.
End PostFlavor.

(** internal/model/post.go [PostImage]. *)
Module PostImage.
Record t := mk { PostID : Z; Position : Z; ImageAssetID : Z; CreatedAt : time }.
End PostImage.

(** internal/model/post.go [Favorite]. *)
Module Favorite.
Record t := mk { UserID : Z; PostID : Z; CreatedAt : time }.
End Favorite.

(** internal/model/post.go [PostLike]. *)
Module PostLike.
Record t := mk { UserID : Z; PostID : Z; CreatedAt : time }.
End PostLike.

(** internal/service/post_write.go [snapshotFlavor], [postSnapshot]: the document of
    [post_histories.snapshot]. *)
Module SnapshotFlavor.
Record t := mk { Name : string; Stance : string }.
End SnapshotFlavor.

Module PostSnapshot.
Record t := mk {
  PostType : string;
  ShareType : option string;
  Title : string;
  Content : string;
  Category : string;
  CanteenID : option Z;
  CanteenWindowID : option Z;
  CuisineID : option Z;
  Price : option string;
  BudgetMin : option Z;
  BudgetMax : option Z;
  Tags : list string;
  Flavors : list SnapshotFlavor.t;
  Images : list string;
}.
End PostSnapshot.

(** internal/model/post.go [PostHistory]; [Snapshot] is the decoded JSON document. *)
Module PostHistory.
Record t := mk {
  ID : Z;
  PostID : Z;
  Revision : Z;
  EditedBy : Z;
  EditedAt : time;
  Snapshot : PostSnapshot.t;
  EditReason : option string;
}.
#[global] Instance eta_t : Eta t := fun x =>
  mk (ID x) (PostID x) (Revision x) (EditedBy x) (EditedAt x) (Snapshot x) (EditReason
  x).
End PostHistory.

(** internal/model/dictionary.go [Canteen]. *)
Module Canteen.
Record t := mk {
  ID : Z;
  Code : string;
  Name : string;
  Campus : string;
  SortOrder : Z;
  IsActive : bool;
  CreatedAt : time;
  UpdatedAt : time;
}.
#[global] Instance eta_t : Eta t := fun x =>
  mk (ID x) (Code x) (Name x) (Campus x) (SortOrder x) (IsActive x) (CreatedAt x)
  (UpdatedAt x).
End Canteen.

(** internal/model/dictionary.go [CanteenWindow]. *)
Module CanteenWindow.
Record t := mk {
  ID : Z;
  CanteenID : Z;
  Name : string;
  Floor : option string;
  SortOrder : Z;
  IsActive : bool;
  CreatedAt : time;
  UpdatedAt : time;
}.
#[global] Instance eta_t : Eta t := fun x =>
  mk (ID x) (CanteenID x) (Name x) (Floor x) (SortOrder x) (IsActive x) (CreatedAt x)
  (UpdatedAt x).
End CanteenWindow.

(** internal/model/dictionary.go [Cuisine]. *)
Module Cuisine.
Record t := mk {
  ID : Z;
  Name : string;
  SortOrder : Z;
  IsActive : bool;
  CreatedAt : time;
  UpdatedAt : time;
}.
#[global] Instance eta_t : Eta t := fun x =>
  mk (ID x) (Name x) (SortOrder x) (IsActive x) (CreatedAt x) (UpdatedAt x).
End Cuisine.

(** internal/model/dictionary.go [Flavor]. *)
Module Flavor.
Record t := mk {
  ID : Z;
  Name : string;
  SortOrder : Z;
  IsActive : bool;
  CreatedAt : time;
  UpdatedAt : time;
}.
#[global] Instance eta_t : Eta t := fun x =>
  mk (ID x) (Name x) (SortOrder x) (IsActive x) (CreatedAt x) (UpdatedAt x).
End Flavor.

(** internal/model/dictionary.go [Tag]. *)
Module Tag.
Record t := mk {
  ID : Z;
  Name : string;
  CreatedAt : time;
  UpdatedAt : time;
  Moderation : string;
  DeletedAt : option time;
}.
#[global] Instance eta_t : Eta t := fun x =>
  mk (ID x) (Name x) (CreatedAt x) (UpdatedAt x) (Moderation x) (DeletedAt x).
End Tag.

(** internal/model/dictionary.go [DictionarySuggestion], without the generated column
    [ParentSuggestionKind]. *)
Module DictionarySuggestion.
Record t := mk {
  ID : Z;
  Kind : string;
  ProposedName : string;
  ProposerID : Z;
  PostID : option Z;
  FlavorStance : option string;
  ParentCanteenID : option Z;
  ParentSuggestionID : option Z;
  Status : string;
  ReviewerID : option Z;
  ReviewedAt : option time;
  ReviewNote : option string;
  ResultingFlavorID : option Z;
  ResultingCuisineID : option Z;
  ResultingCanteenID : option Z;
  ResultingWindowID : option Z;
  CreatedAt : time;
  UpdatedAt : time;
}.
#[global] Instance eta_t : Eta t := fun x =>
  mk (ID x) (Kind x) (ProposedName x) (ProposerID x) (PostID x) (FlavorStance x)
  (ParentCanteenID x) (ParentSuggestionID x) (Status x) (ReviewerID x) (ReviewedAt x)
  (ReviewNote x) (ResultingFlavorID x) (ResultingCuisineID x) (ResultingCanteenID x)
  (ResultingWindowID x) (CreatedAt x) (UpdatedAt x).
End DictionarySuggestion.

(** ** Enumerations (enums.go and the outbox states) *)
Definition ImagePurposePost : string := "post".
Definition ImagePurposeAvatar : string := "avatar".

Definition ImageStatusPending : string := "pending".
Definition ImageStatusReady : string := "ready".
Definition ImageStatusRetired : string := "retired".

Definition PostTypeShare : string := "share".
Definition PostTypeSeeking : string := "seeking".
Definition ShareTypeRecommend : string := "recommend".
Definition ShareTypeWarning : string := "warning".

Definition PostStatusDraft : string := "draft".
Definition PostStatusPending : string := "pending".
Definition PostStatusApproved : string := "approved".
Definition PostStatusRejected : string := "rejected".

Definition PostCategoryFood : string := "food".
Definition PostCategoryRecipe : string := "recipe".

Definition DeleteReasonAuthor : string := "author".
Definition DeleteReasonAdmin : string := "admin".
Definition DeleteReasonModeration : string := "moderation".

Definition FlavorStanceHas : string := "has".
Definition FlavorStancePrefer : string := "prefer".
Definition FlavorStanceAvoid : string := "avoid".

Definition NotificationTypeLikePost : string := "like_post".
Definition NotificationTypeLikeComment : string := "like_comment".
Definition NotificationTypeComment : string := "comment".
Definition NotificationTypeReply : string := "reply".
Definition NotificationTypeMention : string := "mention".
Definition NotificationTypeFollow : string := "follow".

Definition ModerationStatusPending : string := "pending".
Definition ModerationStatusPass : string := "pass".
Definition ModerationStatusReview : string := "review".
Definition ModerationStatusBlock : string := "block".

Definition ModerationVerdictPass : string := "pass".
Definition ModerationVerdictReview : string := "review".
Definition ModerationVerdictBlock : string := "block".

Definition UserRoleActionGrant : string := "grant".
Definition UserRoleActionRevoke : string := "revoke".
Definition UserBanActionBan : string := "ban".
Definition UserBanActionUnban : string := "unban".

Definition GenderMale : string := "male".
Definition GenderFemale : string := "female".
Definition GenderOther : string := "other".

Definition VerificationPurposeRegistration : string := "registration".
Definition VerificationPurposePasswordReset : string := "password_reset".

Definition ModerationSceneText : string := "text".
Definition ModerationSceneImage : string := "image".
Definition ModerationFieldName : string := "name".
Definition ModerationFieldBio : string := "bio".
Definition ModerationProviderManual : string := "manual".

Definition SuggestionKindFlavor : string := "flavor".
Definition SuggestionKindCuisine : string := "cuisine".
Definition SuggestionKindCanteen : string := "canteen".
Definition SuggestionKindCanteenWindow : string := "canteen_window".
Definition SuggestionStatusPending : string := "pending".
Definition SuggestionStatusApproved : string := "approved".
Definition SuggestionStatusRejected : string := "rejected".

Definition VerificationEmailDeliveryPending : string := "pending".
Definition VerificationEmailDeliverySending : string := "sending".
Definition VerificationEmailDeliverySent : string := "sent".
Definition VerificationEmailDeliveryCanceled : string := "canceled".
Definition VerificationEmailDeliveryDeadLetter : string := "dead_letter".

Definition ImageAccessPendingACL : string := "pending_acl".
Definition ImageAccessPendingSubmit : string := "pending_submit".
Definition ImageAccessSubmitting : string := "submitting".
Definition ImageAccessSubmitted : string := "submitted".
Definition ImageAccessSucceeded : string := "succeeded".
Definition ImageAccessDeadLetter : string := "dead_letter".

Definition ImageModerationRetryPending : string := "pending".
Definition ImageModerationRetryDeadLetter : string := "dead_letter".

(** ** The database *)
Record DB := mkDB {
  users : gmap Z User.t;
  user_roles : gmap (Z * string) UserRoleBinding.t;
  user_name_claims : gmap Z UsernameClaim.t;
  email_verification_codes : gmap Z EmailVerificationCode.t;
  verification_email_deliveries : gmap Z VerificationEmailDelivery.t;
  user_sessions : gmap Z UserSession.t;
  image_assets : gmap Z ImageAsset.t;
  image_access_intents : gmap Z ImageAccessIntent.t;
  image_access_deliveries : gmap Z ImageAccessDelivery.t;
  image_moderation_retries : gmap Z ImageModerationRetry.t;
  moderation_records : gmap Z ModerationRecord.t;
  notifications : gmap Z Notification.t;
  comments : gmap Z Comment.t;
  posts : gmap Z Post.t;
  post_tags : gmap (Z * Z) PostTag.t;
  post_flavors : gmap (Z * Z) PostFlavor.t;
  post_images : gmap (Z * Z) PostImage.t;
  favorites : gmap (Z * Z) Favorite.t;
  post_likes : gmap (Z * Z) PostLike.t;
  post_histories : gmap Z PostHistory.t;
  canteens : gmap Z Canteen.t;
  canteen_windows : gmap Z CanteenWindow.t;
  cuisines : gmap Z Cuisine.t;
  flavors : gmap Z Flavor.t;
  tags : gmap Z Tag.t;
  comment_mentions : gmap (Z * Z) CommentMention.t;
  comment_likes : gmap (Z * Z) CommentLike.t;
  comment_histories : gmap Z CommentHistory.t;
  follows : gmap (Z * Z) Follow.t;
  user_name_change_records : gmap Z UsernameChangeRecord.t;
  dictionary_suggestions : gmap Z DictionarySuggestion.t;
  user_ban_records : gmap Z UserBanRecord.t;
  user_role_records : gmap Z UserRoleRecord.t;
}.
#[global] Instance eta_DB : Eta DB := fun x =>
  mkDB (users x) (user_roles x) (user_name_claims x) (email_verification_codes x)
    (verification_email_deliveries x) (user_sessions x) (image_assets x)
    (image_access_intents x) (image_access_deliveries x) (image_moderation_retries x)
    (moderation_records x) (notifications x) (comments x) (posts x) (post_tags x)
    (post_flavors x) (post_images x) (favorites x) (post_likes x) (post_histories x)
    (canteens x) (canteen_windows x) (cuisines x) (flavors x) (tags x) (comment_mentions x)
    (comment_likes x) (comment_histories x) (follows x) (user_name_change_records x)
    (dictionary_suggestions x) (user_ban_records x) (user_role_records x).

Definition empty_db : DB := mkDB ∅ ∅ ∅ ∅ ∅ ∅ ∅ ∅ ∅ ∅ ∅ ∅ ∅ ∅ ∅ ∅ ∅ ∅ ∅ ∅ ∅ ∅ ∅ ∅ ∅ ∅ ∅ ∅ ∅ ∅ ∅ ∅ ∅.

(** ** Queries over a table *)
(** The rows of a table in primary-key order, which is how GORM's [First] reads
    them. *)
Fixpoint insert_sorted {A} (le : A -> A -> bool) (x : A) (l : list A) : list A :=
  match l with
  | [] => [x]
  | y :: l' => if le x y then x :: l else y :: insert_sorted le x l'
  end.
Fixpoint sort_by {A} (le : A -> A -> bool) (l : list A) : list A :=
  match l with
  | [] => []
  | x :: l' => insert_sorted le x (sort_by le l')
  end.

Definition rows {A} (t : gmap Z A) : list (Z * A) :=
  sort_by (fun a b => fst a <=? fst b) (map_to_list t).

Definition select {A} (p : A -> bool) (t : gmap Z A) : list A :=
  filter (fun r => p r = true) (map snd (rows t)).

(** [First]: the matching row with the least primary key. *)
Definition first {A} (p : A -> bool) (t : gmap Z A) : option A := hd_error (select p t).

(** [UPDATE ... WHERE p]: how many rows it changed, and the table after it. *)
Definition update_where {A} (p : A -> bool) (f : A -> A) (t : gmap Z A) : Z * gmap Z A :=
  (Z.of_nat (length (select p t)), (fun r => if p r then f r else r) <$> t).

(** [INSERT] of a row under its primary key. *)
Definition insert_row {A} (pkey : string) (id : Z) (r : A) (t : gmap Z A)
    : goerr + gmap Z A :=
  match t !! id with
  | Some _ => inl (EPg "23505" pkey)
  | None => inr (<[id := r]> t)
  end.

Definition exists_row {A} (p : A -> bool) (t : gmap Z A) : bool :=
  match first p t with Some _ => true | None => false end.

(** ** Lemmas *)
Lemma elem_of_insert_sorted {A} le (x y : A) l :
  y ∈ insert_sorted le x l <-> y = x \/ y ∈ l.
Proof. induction l; cbn; [set_solver|]. case_match; set_solver. Qed.

Lemma elem_of_sort_by {A} le (y : A) l : y ∈ sort_by le l <-> y ∈ l.
Proof.
  induction l; cbn; [done|]. rewrite elem_of_insert_sorted, IHl. set_solver.
Qed.

Lemma sorted_suffix {A} (R : A -> A -> Prop) s l :
  StronglySorted R (s ++ l) -> StronglySorted R l.
Proof. induction s; [done|]. cbn. intros [? _]%StronglySorted_inv. by apply IHs. Qed.

(** [ORDER BY] a total preorder: the result is sorted, and selecting rows before
    or after sorting is the same. *)
Section sorting.
Context {A : Type} (le : A -> A -> bool).
Context (le_total : forall x y, le x y = true \/ le y x = true).
Context (le_trans : forall x y z, le x y = true -> le y z = true -> le x z = true).

Lemma sorted_insert x l :
  StronglySorted (fun a b => le a b = true) l ->
  StronglySorted (fun a b => le a b = true) (insert_sorted le x l).
Proof.
  induction 1 as [|y l Hl IH Hy]; cbn; [by repeat constructor|]. case_match eqn:Hxy.
  - repeat (constructor; try done). eapply Forall_impl; [done|]. eauto.
  - constructor; [done|]. apply Forall_forall. intros z Hz.
    apply elem_of_insert_sorted in Hz as [->|Hz].
    + destruct (le_total x y); congruence.
    + by eapply Forall_forall in Hy.
Qed.

Lemma sort_by_sorted l : StronglySorted (fun a b => le a b = true) (sort_by le l).
Proof. induction l; cbn; [constructor | by apply sorted_insert]. Qed.

Lemma filter_insert_sorted (P : A -> Prop) `{!forall x, Decision (P x)} x l :
  StronglySorted (fun a b => le a b = true) l ->
  filter P (insert_sorted le x l) =
  if decide (P x) then insert_sorted le x (filter P l) else filter P l.
Proof.
  assert (forall l, Forall (fun z => le x z = true) l -> insert_sorted le x l = x :: l) as Hhd.
  { intros l0 [|z l' Hz _]; cbn; [done | by rewrite Hz]. }
  induction 1 as [|y l Hl IH Hy]; cbn [insert_sorted].
  - rewrite !filter_cons, filter_nil. by case_decide.
  - destruct (le x y) eqn:Hxy.
    + rewrite (filter_cons P x). case_decide; [|done]. rewrite Hhd; [done|].
      apply Forall_forall. intros z Hz%list_elem_of_filter. destruct Hz as [_ Hz].
      apply elem_of_cons in Hz as [->|Hz]; [done|].
      eapply Forall_forall in Hy; eauto.
    + rewrite !filter_cons, IH. repeat case_decide; try done. cbn. by rewrite Hxy.
Qed.

Lemma filter_sort_by (P : A -> Prop) `{!forall x, Decision (P x)} l :
  filter P (sort_by le l) = sort_by le (filter P l).
Proof.
  induction l as [|x l IH]; [done|]. cbn [sort_by].
  rewrite filter_insert_sorted by apply sort_by_sorted. rewrite IH, filter_cons.
  by case_decide.
Qed.
End sorting.

Lemma elem_of_rows {A} (t : gmap Z A) k r : (k, r) ∈ rows t <-> t !! k = Some r.
Proof. unfold rows. by rewrite elem_of_sort_by, elem_of_map_to_list. Qed.

Lemma elem_of_select {A} (p : A -> bool) (t : gmap Z A) r :
  r ∈ select p t <-> p r = true /\ exists k, t !! k = Some r.
Proof.
  unfold select. rewrite list_elem_of_filter.
  split; intros [Hp Hr]; (split; [done|]).
  - apply list_elem_of_fmap in Hr as [[k r'] [-> Hr]]. exists k. by apply elem_of_rows.
  - destruct Hr as [k Hk]. apply elem_of_rows in Hk.
    apply list_elem_of_fmap. by exists (k, r).
Qed.

Lemma first_Some {A} (p : A -> bool) (t : gmap Z A) r :
  first p t = Some r -> p r = true /\ exists k, t !! k = Some r.
Proof.
  unfold first. intros Hf. apply elem_of_select.
  destruct (select p t); simplify_eq/=. set_solver.
Qed.

Lemma first_None {A} (p : A -> bool) (t : gmap Z A) :
  first p t = None <-> forall k r, t !! k = Some r -> p r = false.
Proof.
  unfold first. split.
  - intros Hf k r Hk. destruct (p r) eqn:Hp; [|done].
    assert (r ∈ select p t) as Hr by (apply elem_of_select; eauto).
    destruct (select p t); [set_solver | done].
  - intros Hn. destruct (select p t) as [|r l] eqn:Hs; [done|].
    assert (r ∈ select p t) as Hr by (rewrite Hs; set_solver).
    apply elem_of_select in Hr as [Hp [k Hk]]. apply Hn in Hk. congruence.
Qed.

Lemma exists_row_true {A} (p : A -> bool) (t : gmap Z A) :
  exists_row p t = true <-> exists k r, t !! k = Some r /\ p r = true.
Proof.
  unfold exists_row. destruct (first p t) eqn:Hf.
  - apply first_Some in Hf as [? [k ?]]. naive_solver.
  - rewrite first_None in Hf. split; [done|]. intros (k & r & Hk & Hp).
    apply Hf in Hk. congruence.
Qed.

Lemma exists_row_false {A} (p : A -> bool) (t : gmap Z A) :
  exists_row p t = false <-> forall k r, t !! k = Some r -> p r = false.
Proof.
  unfold exists_row. rewrite <- first_None. by destruct (first p t).
Qed.

(** With at most one matching row, [first] is that row. *)
Lemma first_unique {A} (p : A -> bool) (t : gmap Z A) k r :
  t !! k = Some r -> p r = true ->
  (forall k' r', t !! k' = Some r' -> p r' = true -> k' = k) ->
  first p t = Some r.
Proof.
  intros Hk Hp Hu. destruct (first p t) as [r'|] eqn:Hf.
  - apply first_Some in Hf as [Hp' [k' Hk']]. assert (k' = k) by eauto. congruence.
  - rewrite first_None in Hf. apply Hf in Hk. congruence.
Qed.

Lemma update_where_lookup {A} (p : A -> bool) f (t : gmap Z A) k :
  snd (update_where p f t) !! k = (fun r => if p r then f r else r) <$> (t !! k).
Proof. cbn. apply lookup_fmap. Qed.

Lemma update_where_zero {A} (p : A -> bool) f (t : gmap Z A) :
  fst (update_where p f t) = 0 <-> forall k r, t !! k = Some r -> p r = false.
Proof.
  rewrite <- first_None. unfold first, update_where. cbn.
  destruct (select p t); cbn; split; try done; lia.
Qed.

Lemma insert_row_inr {A} pkey id (r : A) t t' :
  insert_row pkey id r t = inr t' -> t !! id = None /\ t' = <[id := r]> t.
Proof. unfold insert_row. case_match; naive_solver. Qed.

(** ** Keys and unique indexes *)
(** A table whose rows are stored under their own primary key. *)
Definition keyed {A} (id : A -> Z) (t : gmap Z A) : Prop :=
  forall k r, t !! k = Some r -> id r = k.

(** A unique index over [f], restricted to the rows [p] selects. *)
Definition unique_on {A F} (p : A -> bool) (f : A -> F) (t : gmap Z A) : Prop :=
  forall k k' r r', t !! k = Some r -> t !! k' = Some r' ->
    p r = true -> p r' = true -> f r = f r' -> k = k'.

Definition all_rows {A} : A -> bool := fun _ => true.

(** ** Tables under insertion and update *)
Section table_lemmas.
Context {A : Type} (id : A -> Z).
Implicit Types (t : gmap Z A).

Lemma keyed_insert t k r : keyed id t -> id r = k -> keyed id (<[k := r]> t).
Proof. intros Ht Hr k' r' [[-> ->] | [? ?]]%lookup_insert_Some; [done | by apply Ht]. Qed.

Lemma keyed_fmap t f : (forall r, id (f r) = id r) -> keyed id t -> keyed id (f <$> t).
Proof.
  intros Hf Ht k r (r0 & <- & Hk)%lookup_fmap_Some. rewrite Hf. by apply Ht.
Qed.

Lemma unique_insert {F} (f : A -> F) t k r :
  unique_on all_rows f t ->
  (forall k' r', t !! k' = Some r' -> f r' = f r -> k' = k) ->
  unique_on all_rows f (<[k := r]> t).
Proof.
  intros Ht Hn k1 k2 r1 r2 H1 H2 _ _ Hf.
  apply lookup_insert_Some in H1 as [[<- <-] | [N1 H1]],
    H2 as [[<- <-] | [N2 H2]]; eauto.
  symmetry. by eapply Hn.
Qed.

Lemma unique_fmap {F} (f : A -> F) (g : A -> A) t :
  (forall r, f (g r) = f r) -> unique_on all_rows f t -> unique_on all_rows f (g <$> t).
Proof.
  intros Hg Ht k1 k2 r1 r2 (s1 & <- & H1)%lookup_fmap_Some
    (s2 & <- & H2)%lookup_fmap_Some _ _ E. rewrite !Hg in E. by eapply Ht.
Qed.

Lemma rows_insert (P : A -> Prop) t k r :
  (forall k r, t !! k = Some r -> P r) -> P r ->
  forall k' r', <[k := r]> t !! k' = Some r' -> P r'.
Proof. intros Ht Hr k' r' [[-> ->] | [? ?]]%lookup_insert_Some; eauto. Qed.

Lemma rows_fmap (P : A -> Prop) t f :
  (forall r, P r -> P (f r)) -> (forall k r, t !! k = Some r -> P r) ->
  forall k r, (f <$> t) !! k = Some r -> P r.
Proof. intros Hf Ht k r (r0 & <- & Hk)%lookup_fmap_Some. eauto. Qed.
End table_lemmas.

(** ** Selecting and updating in a keyed table *)
Lemma none_update {A} (p : A -> bool) f (t : gmap Z A) :
  (forall k r, t !! k = Some r -> p r = false) -> snd (update_where p f t) = t.
Proof.
  intros Hn. apply map_eq. intros k. cbn. rewrite lookup_fmap.
  destruct (t !! k) as [r|] eqn:Hr; [|done]. cbn. by rewrite (Hn _ _ Hr).
Qed.

Lemma select_nil {A} (p : A -> bool) (t : gmap Z A) :
  (forall k r, t !! k = Some r -> p r = false) -> select p t = [].
Proof.
  intros Hn. destruct (select p t) as [|r l] eqn:Hs; [done|].
  assert (r ∈ select p t) as Hr by (rewrite Hs; by left).
  apply elem_of_select in Hr as [Hp [k Hk]]. apply Hn in Hk. congruence.
Qed.

Lemma NoDup_insert_sorted {A} le (x : A) l :
  x ∉ l -> NoDup l -> NoDup (insert_sorted le x l).
Proof.
  induction l as [|y l IH]; intros Hx Hl; cbn; [by constructor|].
  apply NoDup_cons in Hl as [Hy Hl]. apply not_elem_of_cons in Hx as [Hxy Hx].
  case_match.
  - constructor; [by apply not_elem_of_cons|by constructor].
  - constructor; [rewrite elem_of_insert_sorted; naive_solver | by apply IH].
Qed.

Lemma NoDup_sort_by {A} le (l : list A) : NoDup l -> NoDup (sort_by le l).
Proof.
  induction 1; cbn; [constructor|]. apply NoDup_insert_sorted; [by rewrite elem_of_sort_by|done].
Qed.

Lemma NoDup_ids {A} (id : A -> Z) (t : gmap Z A) p : keyed id t -> NoDup (map id (select p t)).
Proof.
  intros Hk. unfold select.
  assert (Forall (fun kv => id (snd kv) = fst kv) (rows t)) as Hf.
  { apply Forall_forall. intros [k r] Hr. apply elem_of_rows in Hr. by apply Hk. }
  assert (NoDup (map fst (rows t))) as Hn.
  { assert (NoDup (rows t)) as Hd by apply NoDup_sort_by, NoDup_map_to_list.
    apply NoDup_fmap_2_strong; [|done]. intros [k r] [k' r'] Hr Hr' Heq. cbn in Heq. subst.
    apply elem_of_rows in Hr, Hr'. congruence. }
  revert Hf Hn. induction (rows t) as [|[k r] l IH]; intros Hf Hn; [constructor|].
  apply Forall_cons in Hf as [Hr Hf]. apply NoDup_cons in Hn as [Hk' Hn]. cbn in Hr.
  change (map snd ((k, r) :: l)) with (r :: map snd l).
  rewrite filter_cons. case_decide; [|by apply IH]. cbn. apply NoDup_cons. split; [|by apply IH].
  intros Hin. apply Hk'. apply list_elem_of_fmap in Hin as (r' & Hid & Hin).
  apply list_elem_of_filter in Hin as [_ Hin]. apply list_elem_of_fmap in Hin as ([k2 r2] & -> & Hin).
  apply list_elem_of_fmap. exists (k2, r2). split; [|done]. cbn in *.
  rewrite Forall_forall in Hf. specialize (Hf _ Hin). cbn in Hf. congruence.
Qed.

Lemma sort_by_perm {A} le (l : list A) : sort_by le l ≡ₚ l.
Proof.
  assert (forall x l, insert_sorted le x l ≡ₚ x :: l) as Hins.
  { intros x k. induction k as [|y k IH]; cbn; [done|]. case_match; [done|].
    rewrite IH. apply Permutation_swap. }
  induction l as [|x l IH]; cbn; [done|]. by rewrite Hins, IH.
Qed.

Lemma NoDup_firstn {A} n (l : list A) : NoDup l -> NoDup (firstn n l).
Proof. intros Hl. eapply sublist_NoDup; [done|apply sublist_take]. Qed.

(** The ids of the first rows of a sorted selection. *)
Lemma NoDup_page_ids {A} (id : A -> Z) (t : gmap Z A) p le n :
  keyed id t -> NoDup (map id (firstn n (sort_by le (select p t)))).
Proof.
  intros Hk. rewrite <- firstn_map. apply NoDup_firstn.
  change (map id) with (fmap (M := list) id). rewrite sort_by_perm. by apply NoDup_ids.
Qed.

(** A condition that fixes the key selects at most one row. *)
Lemma select_one {A} (id : A -> Z) (t : gmap Z A) p k r :
  keyed id t -> (forall r', p r' = true -> id r' = k) ->
  t !! k = Some r -> p r = true -> length (select p t) = 1%nat.
Proof.
  intros Hk Hp Hr Hpr. pose proof (NoDup_ids id t p Hk) as Hn.
  assert (r ∈ select p t) as Hin by (apply elem_of_select; eauto).
  assert (forall r', r' ∈ select p t -> id r' = k) as Hall.
  { intros r' Hr'. apply elem_of_select in Hr' as [Hr' _]. by apply Hp. }
  destruct (select p t) as [|a [|b l]]; [by apply elem_of_nil in Hin|done|].
  exfalso. cbn in Hn. apply NoDup_cons in Hn as [Hx _]. apply Hx.
  rewrite (Hall a), <- (Hall b) by set_solver. by left.
Qed.

Lemma update_one {A} (id : A -> Z) (t : gmap Z A) p f k r :
  keyed id t -> (forall r', p r' = true -> id r' = k) ->
  t !! k = Some r -> p r = true -> snd (update_where p f t) = <[k := f r]> t.
Proof.
  intros Hk Hp Hr Hpr. apply map_eq. intros k'. cbn. rewrite lookup_fmap.
  destruct (decide (k' = k)) as [->|Hne].
  - by rewrite Hr, lookup_insert_eq; cbn; rewrite Hpr.
  - rewrite lookup_insert_ne by done. destruct (t !! k') as [r'|] eqn:Hr'; [|done]. cbn.
    destruct (p r') eqn:Hpr'; [|done]. apply Hp in Hpr'. rewrite (Hk _ _ Hr') in Hpr'. done.
Qed.

(** An [UPDATE] whose condition fixes the key: one row, or none. *)
Lemma update_fenced {A} (id : A -> Z) (t : gmap Z A) p f k n t' :
  keyed id t -> (forall r', p r' = true -> id r' = k) ->
  update_where p f t = (n, t') ->
  (n = 1 /\ exists r, t !! k = Some r /\ p r = true /\ t' = <[k := f r]> t) \/
  (n = 0 /\ t' = t /\ forall r, t !! k = Some r -> p r = false).
Proof.
  intros Hk Hp E. assert (n = fst (update_where p f t) /\ t' = snd (update_where p f t)) as [-> ->]
    by (by rewrite E).
  destruct (t !! k) as [r|] eqn:Hr; [destruct (p r) eqn:Hpr|].
  1: { left. cbn [fst update_where]. rewrite (select_one id t p k r) by done. split; [done|].
       exists r. split_and!; try done. by apply (update_one id). }
  all: assert (forall k' r', t !! k' = Some r' -> p r' = false) as Hno
    by (intros k' r' Hr'; destruct (p r') eqn:Hpr'; [|done];
        pose proof (Hp _ Hpr') as Hid; rewrite (Hk _ _ Hr') in Hid; congruence).
  all: right; cbn [fst update_where]; rewrite (select_nil _ _ Hno); split; [done|];
    split; [by apply none_update | naive_solver].
Qed.
