(* ===== verification/Validation.v ===== *)
(** * Validation of identities: [internal/pkg/usernamepolicy] and
    [internal/service/auth_validation.go]

    [net/mail.ParseAddress] is a parameter ([Mail]): the code keeps only the
    address it returns, to compare it with the whole input. *)

From S2P Require Import Prelude.
From S2P Require Import GoText.
From S2P Require Import Apierr.
From S2P Require Import Model.
Open Scope Z_scope.

Class Mail := { ParseAddress : string -> option string }.

Section validation.
Context `{Unicode} `{Mail}.

(** ** usernamepolicy/policy.go *)
Definition Normalize (raw : string) : string :=
  join_spaces (split_spaces EmptyString (TrimSpace (NFKC_String raw))).

Definition allowed (r : Z) : bool :=
  (r =? 32) || (r =? 95) || IsLetter r || IsNumber r.

Definition ValidCharacters (value : string) : bool :=
  forallb allowed (runes value) && negb (bool_decide (value = ""%string)).

(** ** auth_validation.go *)
Definition minUsernameRunes : Z := 2.
Definition maxUsernameRunes : Z := 24.
Definition MaxLen : Z := 72.   (* passwordx.MaxLen *)

Definition invalid {A} (field code message : string) : goerr + A :=
  inl (EApi (InvalidField field code message)).

Definition normalizeEmail (raw : string) : goerr + string :=
  let email := ToLower (TrimSpace raw) in
  match ParseAddress email with
  | Some address =>
      if negb (bool_decide (address = email)) || negb (Count email "@" =? 1) ||
         (255 <? len email)
      then invalid "email" FieldInvalidFormat "邮箱格式不正确"
      else inr email
  | None => invalid "email" FieldInvalidFormat "邮箱格式不正确"
  end.

Definition emailDomain (email : string) : string :=
  let '(_, domain, _) := Cut email "@" in domain.

Definition validatePasswordField (field password : string) (registering : bool)
    : goerr + unit :=
  if bool_decide (password = ""%string) then invalid field FieldRequired "密码不能为空"
  else if negb registering then inr tt
  else
    let length := RuneCountInString password in
    if length <? 8 then invalid field FieldTooShort "密码不能少于 8 个字符"
    else if (64 <? length) || (MaxLen <? len password)
    then invalid field FieldTooLong "密码不能超过 64 个字符且不能超过 72 字节"
    else inr tt.

Definition validatePassword (password : string) (registering : bool) : goerr + unit :=
  validatePasswordField "password" password registering.

Definition reservedUsername (name : string) : bool :=
  existsb (fun reserved => bool_decide (ToLower name = reserved))
    ["admin"; "administrator"; "official"; "support"; "system"; "security"; "danshi"]%string.

Definition normalizeUsername (raw : string) : goerr + string :=
  let name := Normalize raw in
  let length := RuneCountInString name in
  if length =? 0 then invalid "username" FieldRequired "用户名不能为空"
  else if length <? minUsernameRunes
  then invalid "username" FieldTooShort "用户名不能少于 2 个字符"
  else if maxUsernameRunes <? length
  then invalid "username" FieldTooLong "用户名不能超过 24 个字符"
  else if negb (ValidCharacters name)
  then invalid "username" FieldInvalidFormat "用户名只能包含文字、数字、下划线和空格"
  else if reservedUsername name
  then invalid "username" FieldInvalidFormat "该用户名不可使用"
  else inr name.

Definition validGender (value : string) : bool :=
  bool_decide (value = GenderMale) || bool_decide (value = GenderFemale) ||
  bool_decide (value = GenderOther).

Record RegisterInput := mkRegisterInput {
  ri_Email : string;
  ri_Password : string;
  ri_VerificationCode : option string;
  ri_Username : option string;
  ri_Gender : option string;
}.
#[global] Instance eta_RegisterInput : Eta RegisterInput := fun x =>
  mkRegisterInput (ri_Email x) (ri_Password x) (ri_VerificationCode x)
    (ri_Username x) (ri_Gender x).

Definition normalizeRegister (input : RegisterInput) : goerr + RegisterInput :=
  match normalizeEmail (ri_Email input) with
  | inl err => inl err
  | inr email =>
      let input := input <| ri_Email := email |> in
      match validatePassword (ri_Password input) true with
      | inl err => inl err
      | inr _ =>
          match ri_Username input with
          | None => invalid "username" FieldRequired "用户名不能为空"
          | Some raw =>
              match normalizeUsername raw with
              | inl err => inl err
              | inr name =>
                  let input := input <| ri_Username := Some name |> in
                  match ri_Gender input with
                  | Some g =>
                      if negb (validGender g)
                      then invalid "gender" FieldInvalidEnum
                             "gender 只能是 male、female 或 other"
                      else inr input
                  | None => inr input
                  end
              end
          end
      end
  end.

Definition validateVerificationCode (code : option string) : goerr + unit :=
  match code with
  | None => invalid "verification_code" FieldRequired "验证码不能为空"
  | Some code =>
      if bool_decide (code = ""%string)
      then invalid "verification_code" FieldRequired "验证码不能为空"
      else if negb (len code =? 6)
      then invalid "verification_code" FieldInvalidFormat "验证码必须是 6 位数字"
      else if negb (forallb is_digit (runes code))
      then invalid "verification_code" FieldInvalidFormat "验证码必须是 6 位数字"
      else inr tt
  end.

Definition truncateRunes (value : string) (limit : nat) : string :=
  string_of_runes (firstn limit (runes value)).

Definition optionalString (value : string) (limit : nat) : option string :=
  let value := TrimSpace value in
  if bool_decide (value = ""%string) then None
  else Some (truncateRunes value limit).
End validation.

Section validation_lemmas.
Context `{Unicode} `{Mail}.

Lemma truncateRunes_count value limit :
  RuneCountInString (truncateRunes value limit) <= Z.of_nat limit.
Proof.
  unfold truncateRunes. rewrite RuneCount_string_of_runes, length_firstn. lia.
Qed.

Lemma optionalString_count value limit s :
  optionalString value limit = Some s -> RuneCountInString s <= Z.of_nat limit.
Proof.
  unfold optionalString. case_bool_decide; intros; simplify_eq.
  apply truncateRunes_count.
Qed.

(** Exactly the strings of six ASCII digits are accepted. *)
Lemma validateVerificationCode_digits l :
  length l = 6%nat -> Forall (fun b => 48 <= b <= 57) l ->
  validateVerificationCode (Some (string_of l)) = inr tt.
Proof.
  intros Hl Hd. unfold validateVerificationCode.
  rewrite bool_decide_eq_false_2 by (by destruct l).
  unfold len. rewrite length_string_of, Hl. cbn [negb Z.of_nat].
  rewrite runes_ascii by (eapply Forall_impl; [done|]; cbn; lia).
  replace (forallb is_digit l) with true; [done|]. symmetry.
  apply forallb_forall. intros b Hb. rewrite Forall_forall in Hd.
  apply list_elem_of_In, Hd in Hb. unfold is_digit, in_range. lia.
Qed.
End validation_lemmas.
