(* ===== verification/Digest.v ===== *)
(** * Digests and tokens: [internal/pkg/jwtx], SHA-256 and HMAC

    SHA-256 and HMAC are the standard library's and are executable here.  The JWT
    library ([golang-jwt]) is a parameter ([JWT]): signing with HS256 and parsing
    with validation at an instant.  So is bcrypt ([Bcrypt]). *)

From S2P Require Import Prelude.
From S2P Require Import GoText.
From S2P Require Import Apierr.
Open Scope Z_scope.

(** ** crypto/sha256 *)
Module SHA256.
(** FIPS 180-4: the first 32 bits of the fractional parts of the square roots
    (initial state) and cube roots (round constants) of the first primes. *)
Definition primes : list Z :=
  map Z.of_nat (filter (fun n =>
    negb (existsb (fun d => Nat.eqb (n mod d) 0) (seq 2 (n - 2)))) (seq 2 310)).

(** The integer cube root of [x] below [2 ^ bits], bit by bit. *)
Fixpoint cube_root (bits : nat) (x acc : Z) : Z :=
  match bits with
  | O => acc
  | S b =>
      let try := acc + 2 ^ Z.of_nat b in
      cube_root b x (if try * try * try <=? x then try else acc)
  end.

Definition K : list Z :=
  Eval vm_compute in map (fun p => cube_root 36 (p * 2 ^ 96) 0 mod 2 ^ 32) primes.
Definition H0 : list Z :=
  Eval vm_compute in map (fun p => Z.sqrt (p * 2 ^ 64) mod 2 ^ 32) (firstn 8 primes).

Definition w32 (x : Z) : Z := Z.land x 0xffffffff.
Definition add (x y : Z) : Z := w32 (x + y).
Definition rotr (n x : Z) : Z := w32 (Z.lor (Z.shiftr x n) (Z.shiftl x (32 - n))).
Definition xor3 (x y z : Z) : Z := Z.lxor (Z.lxor x y) z.

Definition S0 x := xor3 (rotr 2 x) (rotr 13 x) (rotr 22 x).
Definition S1 x := xor3 (rotr 6 x) (rotr 11 x) (rotr 25 x).
Definition s0 x := xor3 (rotr 7 x) (rotr 18 x) (Z.shiftr x 3).
Definition s1 x := xor3 (rotr 17 x) (rotr 19 x) (Z.shiftr x 10).
Definition ch x y z := Z.lxor (Z.land x y) (Z.land (Z.lxor x 0xffffffff) z).
Definition maj x y z := xor3 (Z.land x y) (Z.land x z) (Z.land y z).

Definition be_word (l : list Z) : Z := fold_left (fun acc b => acc * 256 + b) l 0.
Definition be_bytes (n : nat) (v : Z) : list Z :=
  map (fun i => (v / 256 ^ Z.of_nat i) mod 256) (rev (seq 0 n)).

Definition pad (m : list Z) : list Z :=
  m ++ [128] ++ repeat 0 (Z.to_nat ((55 - Z.of_nat (length m)) mod 64))
    ++ be_bytes 8 (8 * Z.of_nat (length m)).

Fixpoint words (n : nat) (l : list Z) : list Z :=
  match n with
  | O => []
  | S n' => be_word (firstn 4 l) :: words n' (skipn 4 l)
  end.

(** The message schedule, last word first. *)
Fixpoint schedule (n : nat) (w : list Z) : list Z :=
  match n with
  | O => w
  | S n' =>
      let x := add (add (s1 (nth 1 w 0)) (nth 6 w 0)) (add (s0 (nth 14 w 0)) (nth 15 w 0)) in
      schedule n' (x :: w)
  end.

Record Regs := mkRegs { ra : Z; rb : Z; rc : Z; rd : Z; re : Z; rf : Z; rg : Z; rh : Z }.

Definition round (s : Regs) (kw : Z * Z) : Regs :=
  let t1 := add (add (rh s) (S1 (re s)))
                (add (ch (re s) (rf s) (rg s)) (add (fst kw) (snd kw))) in
  let t2 := add (S0 (ra s)) (maj (ra s) (rb s) (rc s)) in
  mkRegs (add t1 t2) (ra s) (rb s) (rc s) (add (rd s) t1) (re s) (rf s) (rg s).

Definition block (s : Regs) (l : list Z) : Regs :=
  let w := rev (schedule 48 (rev (words 16 l))) in
  let r := fold_left round (combine K w) s in
  mkRegs (add (ra s) (ra r)) (add (rb s) (rb r)) (add (rc s) (rc r)) (add (rd s) (rd r))
    (add (re s) (re r)) (add (rf s) (rf r)) (add (rg s) (rg r)) (add (rh s) (rh r)).

Fixpoint blocks (n : nat) (s : Regs) (l : list Z) : Regs :=
  match n with
  | O => s
  | S n' => blocks n' (block s (firstn 64 l)) (skipn 64 l)
  end.

Definition init : Regs :=
  match H0 with
  | [a; b; c; d; e; f; g; h] => mkRegs a b c d e f g h
  | _ => mkRegs 0 0 0 0 0 0 0 0
  end.

Definition sum_bytes (m : list Z) : list Z :=
  let p := pad m in
  let s := blocks (Nat.div (length p) 64) init p in
  concat (map (be_bytes 4) [ra s; rb s; rc s; rd s; re s; rf s; rg s; rh s]).
End SHA256.

(** [sha256.Sum256]. *)
Definition Sum256 (m : string) : string := string_of (SHA256.sum_bytes (bytes_of m)).

(** ** crypto/hmac over SHA-256 *)
Definition hmac_sha256 (key msg : string) : string :=
  let k := bytes_of key in
  let k := if (64 <? length k)%nat then SHA256.sum_bytes k else k in
  let k := k ++ repeat 0 (64 - length k)%nat in
  let inner := SHA256.sum_bytes (map (Z.lxor 54) k ++ bytes_of msg) in
  string_of (SHA256.sum_bytes (map (Z.lxor 92) k ++ inner)).

(** ** jwtx/digest.go *)
Definition Digest (token : string) : string := hex_encode (Sum256 token).

Example sha256_abc : Digest "abc" =
  "ba7816bf8f01cfea414140de5dae2223b00361a396177a9cb410ff61f20015ad"%string.
Proof. vm_compute. reflexivity. Qed.

Example hmac_test_vector :
  hex_encode (hmac_sha256 "Jefe" "what do ya want for nothing?") =
  "5bdcc146bf60754e6a042426089575c75a003f089d2739839dec58b964ec3843"%string.
Proof. vm_compute. reflexivity. Qed.

(** Lower-case hexadecimal text, the format the schema demands of digests. *)
Definition is_lower_hex (b : Z) : bool := in_range 48 57 b || in_range 97 102 b.

Lemma hex_digit_lower d : 0 <= d < 16 ->
  is_byte (hex_digit d) /\ is_lower_hex (hex_digit d) = true.
Proof.
  intros Hd. unfold hex_digit, is_lower_hex, in_range, is_byte.
  destruct (Z.ltb_spec d 10); split; lia.
Qed.

Lemma hex_encode_bytes s :
  bytes_of (hex_encode s) =
  flat_map (fun b => [hex_digit (b / 16); hex_digit (b mod 16)]) (bytes_of s).
Proof.
  unfold hex_encode. apply bytes_of_string_of. pose proof (bytes_of_range s) as Hs.
  induction Hs as [|b l Hb _ IH]; cbn; [done|].
  unfold is_byte in Hb. pose proof (Z.mod_pos_bound b 16 ltac:(lia)).
  constructor; [apply hex_digit_lower; split; [apply Z.div_pos|apply Z.div_lt_upper_bound]; lia|].
  constructor; [by apply hex_digit_lower|done].
Qed.

Lemma hex_encode_length s : String.length (hex_encode s) = (2 * String.length s)%nat.
Proof.
  rewrite <- !length_bytes_of, hex_encode_bytes.
  induction (bytes_of s); cbn; lia.
Qed.

Lemma hex_encode_lower s : all_bytes is_lower_hex (hex_encode s) = true.
Proof.
  assert (forall t, all_bytes is_lower_hex t = forallb is_lower_hex (bytes_of t)) as ->
    by (induction t; cbn; congruence).
  rewrite hex_encode_bytes. pose proof (bytes_of_range s) as Hs.
  induction Hs as [|b l Hb _ IH]; cbn [flat_map app forallb]; [done|].
  unfold is_byte in Hb. pose proof (Z.mod_pos_bound b 16 ltac:(lia)).
  assert (0 <= b / 16 < 16)
    by (split; [apply Z.div_pos|apply Z.div_lt_upper_bound]; lia).
  rewrite IH. by rewrite (proj2 (hex_digit_lower (b / 16) ltac:(assumption))),
    (proj2 (hex_digit_lower (b mod 16) ltac:(assumption))).
Qed.

Lemma Sum256_length m : String.length (Sum256 m) = 32%nat.
Proof. unfold Sum256. by rewrite length_string_of. Qed.

Lemma Digest_length token : String.length (Digest token) = 64%nat.
Proof. unfold Digest. by rewrite hex_encode_length, Sum256_length. Qed.


(** ** jwtx/jwtx.go *)
Abbreviation TokenType := string (only parsing).
Definition TypeAccess : TokenType := "access".
Definition TypeRefresh : TokenType := "refresh".

Definition ErrInvalid : goerr := ENew "令牌无效".
Definition ErrExpired : goerr := ENew "令牌已过期".

Record Claims := mkClaims {
  Subject : string;
  IssuedAt : option time;
  ExpiresAt : option time;
  cl_Type : TokenType;
  SessionID : Z;
}.

(** Outcome of [jwt.ParseWithClaims] restricted to HS256: whatever was decoded,
    [errors.Is(err, jwt.ErrTokenExpired)], or any other error. *)
Inductive jwt_result := JWTValid (c : Claims) | JWTExpired | JWTInvalid.

(** The library, and the secret-independent [NumericDate] rounding. *)
Class JWT := {
  jwt_sign : string -> Claims -> option string;
  jwt_parse : string -> time -> string -> jwt_result;
  NewNumericDate : time -> time;
}.

Section jwtx.
Context `{JWT}.

Definition UserID (c : Claims) : option Z := ParseInt (Subject c).

Definition SignAt (secret : string) (userID sessionID : Z) (typ : TokenType)
    (now : time) (ttl : duration) : option string :=
  jwt_sign secret
    (mkClaims (FormatInt userID) (Some (NewNumericDate now))
       (Some (NewNumericDate (time_Add now ttl))) typ sessionID).

Definition Parse (secret : string) (now : time) (token : string) (want : TokenType)
    : goerr + Claims :=
  match jwt_parse secret now token with
  | JWTExpired => inl ErrExpired
  | JWTInvalid => inl ErrInvalid
  | JWTValid claims =>
      if negb (bool_decide (cl_Type claims = want)) then inl ErrInvalid
      else if SessionID claims <=? 0 then inl ErrInvalid
      else match UserID claims with
           | None => inl ErrInvalid
           | Some _ => inr claims
           end
  end.

(** What its documentation promises of the tokens the code signs: such a token parses,
    under the secret it was signed with, to the claims it was signed with, until its
    expiry and as expired from then on; and it is no blank text (three base64
    segments). *)
Class JWTLaws := {
  jwt_parse_sign : forall secret userID sessionID typ now ttl tok t,
    0 < sessionID <= int64_max -> typ = TypeAccess \/ typ = TypeRefresh ->
    SignAt secret userID sessionID typ now ttl = Some tok ->
    jwt_parse secret t tok =
      if t <? NewNumericDate (time_Add now ttl)
      then JWTValid (mkClaims (FormatInt userID) (Some (NewNumericDate now))
             (Some (NewNumericDate (time_Add now ttl))) typ sessionID)
      else JWTExpired;
  jwt_sign_nonblank : forall secret userID sessionID typ now ttl tok,
    SignAt secret userID sessionID typ now ttl = Some tok -> TrimSpace tok <> ""%string;
}.

Lemma Parse_inr secret now token want c :
  Parse secret now token want = inr c ->
  jwt_parse secret now token = JWTValid c /\ cl_Type c = want /\
  0 < SessionID c /\ is_Some (UserID c).
Proof.
  unfold Parse. repeat case_match; intros; simplify_eq.
  match goal with Hd : negb _ = false |- _ => apply negb_false_iff, bool_decide_eq_true in Hd end.
  split_and!; [done|done|lia|by eexists].
Qed.
End jwtx.

(** ** passwordx: bcrypt is a parameter *)
Class Bcrypt := {
  (** [GenerateFromPassword]: the [k]-th call (it salts), [None] on failure. *)
  bcrypt_generate : nat -> string -> Z -> option string;
  bcrypt_matches : string -> string -> bool;
}.

Section passwordx.
Context `{Bcrypt}.

Definition Cost : Z := 12.
Definition PasswordMaxLen : Z := 72.

Definition Hash (k : nat) (plain : string) : goerr + string :=
  if PasswordMaxLen <? len plain
  then inl (ENew "密码长度不能超过 72 字节")
  else match bcrypt_generate k plain Cost with
       | Some b => inr b
       | None => inl (ENew "bcrypt")
       end.

Definition Verify (plain hashed : string) : bool :=
  if PasswordMaxLen <? len plain then false else bcrypt_matches hashed plain.
End passwordx.
