(* ===== verification/Ptime.v ===== *)
(** * Wire timestamps: [internal/pkg/ptime]

    [Format] with the calendar of the standard library's [time] package: the
    proleptic Gregorian calendar, in UTC. *)

From S2P Require Import Prelude.
From S2P Require Import GoText.
Open Scope Z_scope.

Record Civil := mkCivil {
  year : Z; month : Z; day : Z; hour : Z; minute : Z; second : Z; nanosecond : Z;
}.

(** Day number (since 1970-01-01) to year, month, day, by 400-year eras that
    start on 1 March. *)
Definition date_of_days (days : Z) : Z * Z * Z :=
  let z := days + 719468 in
  let era := z / 146097 in
  let doe := z mod 146097 in
  let yoe := (doe - doe / 1460 + doe / 36524 - doe / 146096) / 365 in
  let doy := doe - (365 * yoe + yoe / 4 - yoe / 100) in
  let mp := (5 * doy + 2) / 153 in
  let d := doy - (153 * mp + 2) / 5 + 1 in
  let m := if mp <? 10 then mp + 3 else mp - 9 in
  (yoe + era * 400 + (if m <=? 2 then 1 else 0), m, d).

Definition civil (t : time) : Civil :=
  let sec := t / Second in
  let '(y, m, d) := date_of_days (sec / 86400) in
  let s := sec mod 86400 in
  mkCivil y m d (s / 3600) ((s / 60) mod 60) (s mod 60) (t mod Second).

(** Zero-padded decimal of a fixed width, as the layouts of [time.Format] use it. *)
Fixpoint digits (width : nat) (v : Z) : list Z :=
  match width with
  | O => []
  | S w => digits w (v / 10) ++ [48 + v mod 10]
  end.

Definition Nanosecond (t : time) : Z := t mod Second.

(** ["2006-01-02T15:04:05"]. *)
Definition date_time (c : Civil) : list Z :=
  digits 4 (year c) ++ [45] ++ digits 2 (month c) ++ [45] ++ digits 2 (day c) ++ [84] ++
  digits 2 (hour c) ++ [58] ++ digits 2 (minute c) ++ [58] ++ digits 2 (second c).

(** ["-07:00"] in UTC. *)
Definition offset_utc : list Z := [43; 48; 48; 58; 48; 48].

Definition format_no_fraction (t : time) : list Z :=
  date_time (civil t) ++ offset_utc.
Definition format_micros (t : time) : list Z :=
  date_time (civil t) ++ [46] ++ digits 6 (Nanosecond t / 1000) ++ offset_utc.

(** [Format]: the fraction is left out exactly when the nanoseconds are zero. *)
Definition Format (t : time) : string :=
  string_of (if Nanosecond t =? 0 then format_no_fraction t else format_micros t).

Example format_epoch : Format 0 = "1970-01-01T00:00:00+00:00"%string.
Proof. reflexivity. Qed.
Example format_leap_day :
  Format (951782400 * Second + 1500 * Microsecond) = "2000-02-29T00:00:00.001500+00:00"%string.
Proof. vm_compute. reflexivity. Qed.
