(* ===== verification/Sealed.v ===== *)
(** * AES-256-GCM and unpadded URL base64

    What [internal/pkg/pagination/cursor.go] uses of the standard library's
    [crypto/aes], [crypto/cipher] and [encoding/base64], executable, with the two
    round trips: [Open] undoes [Seal], [DecodeString] undoes [EncodeToString]. *)

From S2P Require Import Prelude.
From S2P Require Import GoText.
From S2P Require Import Digest.
Open Scope Z_scope.

(** ** Bytes *)
(** Exclusive or of two [uint8]. *)
Definition bxor (x y : Z) : Z := Z.land (Z.lxor x y) 255.

Lemma land_255_byte x : is_byte (Z.land x 255).
Proof.
  unfold is_byte. change 255 with (Z.ones 8). rewrite Z.land_ones by lia.
  apply (Z.mod_pos_bound x 256). lia.
Qed.

Lemma bxor_byte x y : is_byte (bxor x y).
Proof. apply land_255_byte. Qed.

Lemma bxor_cancel p k : is_byte p -> bxor (bxor p k) k = p.
Proof.
  intros Hp. unfold bxor. change 255 with (Z.ones 8). rewrite !Z.land_ones by lia.
  assert (Z.lxor (Z.lxor p k `mod` 2 ^ 8) k `mod` 2 ^ 8 = p `mod` 2 ^ 8) as ->.
  { apply Z.bits_inj'. intros n Hn. destruct (decide (n < 8)).
    - rewrite !Z.mod_pow2_bits_low, Z.lxor_spec, Z.mod_pow2_bits_low, Z.lxor_spec by lia.
      by destruct (Z.testbit p n), (Z.testbit k n).
    - by rewrite !Z.mod_pow2_bits_high by lia. }
  unfold is_byte in Hp. rewrite Z.mod_small; lia.
Qed.

Lemma be_bytes_range n v : Forall is_byte (SHA256.be_bytes n v).
Proof.
  unfold SHA256.be_bytes. apply Forall_forall. intros x Hx.
  apply list_elem_of_In, in_map_iff in Hx as (i & <- & _). unfold is_byte.
  pose proof (Z.mod_pos_bound (v / 256 ^ Z.of_nat i) 256 ltac:(lia)). lia.
Qed.

Lemma be_bytes_length n v : length (SHA256.be_bytes n v) = n.
Proof. unfold SHA256.be_bytes. by rewrite length_map, length_rev, length_seq. Qed.

(** Big-endian bytes of a value that fits are read back. *)
Lemma be_word_bytes n v : 0 <= v < 256 ^ Z.of_nat n ->
  SHA256.be_word (SHA256.be_bytes n v) = v.
Proof.
  unfold SHA256.be_word, SHA256.be_bytes. intros Hv.
  assert (forall m acc w,
    fold_left (fun acc b => acc * 256 + b)
      (map (fun i => (w / 256 ^ Z.of_nat i) mod 256) (rev (seq 0 m))) acc
    = acc * 256 ^ Z.of_nat m + w mod 256 ^ Z.of_nat m) as Hf.
  { induction m as [|m IH]; intros acc w.
    - cbn. rewrite Z.mod_1_r. lia.
    - rewrite seq_S, rev_app_distr. cbn [rev app map fold_left Nat.add]. rewrite IH.
      rewrite Nat2Z.inj_succ, Z.pow_succ_r by lia.
      pose proof (Z.pow_pos_nonneg 256 (Z.of_nat m) ltac:(lia) ltac:(lia)).
      rewrite (Z.mul_comm 256 (256 ^ _)), (Z.rem_mul_r w (256 ^ Z.of_nat m) 256) by lia.
      lia. }
  rewrite Hf, Z.mod_small by lia. lia.
Qed.

Lemma be_word_range l : Forall is_byte l ->
  0 <= SHA256.be_word l < 256 ^ Z.of_nat (length l).
Proof.
  unfold SHA256.be_word. intros Hl.
  induction l as [|b l IH] using rev_ind; [cbn; lia|].
  apply Forall_app in Hl as [Hl Hb]. apply Forall_cons in Hb as [Hb _]. specialize (IH Hl).
  rewrite fold_left_app, length_app. cbn [fold_left length].
  rewrite Nat.add_1_r, Nat2Z.inj_succ, Z.pow_succ_r by lia. unfold is_byte in Hb. nia.
Qed.

(** Bytes are the big-endian bytes of their value. *)
Lemma be_bytes_S n v : SHA256.be_bytes (S n) v = SHA256.be_bytes n (v / 256) ++ [v mod 256].
Proof.
  unfold SHA256.be_bytes. cbn [seq rev]. rewrite map_app. cbn [map]. rewrite Z.div_1_r.
  f_equal. rewrite <- seq_shift, <- map_rev, map_map. apply map_ext. intros i.
  by rewrite Nat2Z.inj_succ, Z.pow_succ_r, Z.div_div by lia.
Qed.

Lemma be_bytes_word l : Forall is_byte l ->
  SHA256.be_bytes (length l) (SHA256.be_word l) = l.
Proof.
  intros Hl. induction l as [|b l IH] using rev_ind; [done|].
  apply Forall_app in Hl as [Hl Hb]. apply Forall_cons in Hb as [Hb _].
  assert (SHA256.be_word (l ++ [b]) = SHA256.be_word l * 256 + b) as ->
    by (unfold SHA256.be_word; by rewrite fold_left_app).
  unfold is_byte in Hb. rewrite length_app, Nat.add_1_r, be_bytes_S.
  rewrite Z.div_add_l, Z.div_small, Z.add_0_r, IH by (done || lia).
  by rewrite Z.add_comm, Z_mod_plus_full, Z.mod_small by lia.
Qed.

(** ** crypto/aes, 256-bit keys (FIPS 197) *)
Module AES.
Definition xtime (b : Z) : Z :=
  Z.land (Z.lxor (Z.shiftl b 1) (if Z.testbit b 7 then 0x1b else 0)) 255.

(** Product in GF(2^8), over the bits of [b] from the highest. *)
Definition gmul (a b : Z) : Z :=
  fold_left (fun acc i => bxor (xtime acc) (if Z.testbit b i then a else 0))
    [7; 6; 5; 4; 3; 2; 1; 0] 0.

Fixpoint gpow (a : Z) (n : nat) : Z :=
  match n with O => 1 | S n' => gmul a (gpow a n') end.

Definition rotl8 (n x : Z) : Z :=
  Z.land (Z.lor (Z.shiftl x n) (Z.shiftr x (8 - n))) 255.

(** The inverse in the field, then the affine map. *)
Definition sub_byte (x : Z) : Z :=
  let b := gpow x 254 in
  bxor (fold_left bxor [rotl8 1 b; rotl8 2 b; rotl8 3 b; rotl8 4 b] b) 0x63.

Definition sbox : list Z := Eval vm_compute in map sub_byte (map Z.of_nat (seq 0 256)).
Definition sub (x : Z) : Z := nth (Z.to_nat x) sbox 0.

Definition xor_word (a b : list Z) : list Z := zip_with bxor a b.

Definition rcon (i : nat) : Z := gpow 2 (i - 1).

(** The key schedule, last word first: [n] more words, the next being word [i]. *)
Fixpoint expand (n i : nat) (ws : list (list Z)) : list (list Z) :=
  match n with
  | O => ws
  | S n' =>
      let prev := nth 0 ws [] in
      let temp :=
        if Nat.eqb (i mod 8) 0 then
          match map sub prev with
          | [a; b; c; d] => [bxor b (rcon (i / 8)); c; d; a]
          | w => w
          end
        else if Nat.eqb (i mod 8) 4 then map sub prev
        else prev in
      expand n' (S i) (xor_word (nth 7 ws []) temp :: ws)
  end.

Fixpoint chunks (n k : nat) (l : list Z) : list (list Z) :=
  match n with O => [] | S n' => firstn k l :: chunks n' k (skipn k l) end.

(** The fifteen round keys of a 32-byte key. *)
Definition round_keys (key : list Z) : list (list Z) :=
  chunks 15 16 (concat (rev (expand 52 8 (rev (chunks 8 4 key))))).

Definition add_round_key (s k : list Z) : list Z :=
  map (fun i => bxor (nth i s 0) (nth i k 0)) (seq 0 16).
Definition shift_rows (s : list Z) : list Z :=
  map (fun i => nth ((i mod 4) + 4 * ((i / 4 + i mod 4) mod 4))%nat s 0) (seq 0 16).
Definition mix_columns (s : list Z) : list Z :=
  map (fun i =>
    let at_ k := nth (4 * (i / 4) + (i + k) mod 4)%nat s 0 in
    bxor (bxor (gmul 2 (at_ 0%nat)) (gmul 3 (at_ 1%nat))) (bxor (at_ 2%nat) (at_ 3%nat)))
    (seq 0 16).

Definition encrypt (ks : list (list Z)) (block : list Z) : list Z :=
  let s := fold_left (fun s k => add_round_key (mix_columns (shift_rows (map sub s))) k)
             (firstn 13 (tl ks)) (add_round_key block (nth 0 ks [])) in
  add_round_key (shift_rows (map sub s)) (nth 14 ks []).
End AES.

Lemma encrypt_length ks b : length (AES.encrypt ks b) = 16%nat.
Proof. unfold AES.encrypt, AES.add_round_key. by rewrite length_map, length_seq. Qed.

Example aes_fips_197 :
  AES.encrypt (AES.round_keys (map Z.of_nat (seq 0 32)))
    (map (fun i => 17 * Z.of_nat i) (seq 0 16)) =
  SHA256.be_bytes 16 0x8ea2b7ca516745bfeafc49904b496089.
Proof. vm_compute. reflexivity. Qed.

(** ** crypto/cipher: GCM with 96-bit nonces and 128-bit tags (SP 800-38D) *)
Module GCM.
Definition nonceSize : nat := 12.
Definition tagSize : nat := 16.

Fixpoint gf_mul (bits : nat) (x v acc : Z) : Z :=
  match bits with
  | O => acc
  | S b =>
      gf_mul b x (Z.lxor (Z.shiftr v 1) (if Z.testbit v 0 then Z.shiftl 0xe1 120 else 0))
        (if Z.testbit x (Z.of_nat b) then Z.lxor acc v else acc)
  end.

(** GHASH of a whole number of 16-byte blocks. *)
Fixpoint ghash (n : nat) (h acc : Z) (l : list Z) : Z :=
  match n with
  | O => acc
  | S n' => ghash n' h (gf_mul 128 (Z.lxor acc (SHA256.be_word (firstn 16 l))) h 0)
              (skipn 16 l)
  end.

Definition pad16 (l : list Z) : list Z :=
  l ++ repeat 0 ((16 - length l mod 16) mod 16)%nat.

Section cipher.
Context (ks : list (list Z)) (nonce : list Z).

Definition counter_block (i : nat) : list Z :=
  AES.encrypt ks (nonce ++ SHA256.be_bytes 4 (Z.of_nat i)).

(** The key stream from counter 2 on, [n] blocks of it. *)
Definition key_stream (n : nat) : list Z :=
  concat (map (fun i => counter_block (i + 2)) (seq 0 n)).

Definition xor_stream (l : list Z) : list Z :=
  zip_with bxor l (key_stream (length l / 16 + 1)).

Definition tag (aad ciphertext : list Z) : list Z :=
  let h := SHA256.be_word (AES.encrypt ks (repeat 0 16)) in
  let text := pad16 aad ++ pad16 ciphertext
    ++ SHA256.be_bytes 8 (8 * Z.of_nat (length aad))
    ++ SHA256.be_bytes 8 (8 * Z.of_nat (length ciphertext)) in
  zip_with bxor (SHA256.be_bytes 16 (ghash (length text / 16) h 0 text)) (counter_block 1).

(** [aead.Seal(nil, nonce, plaintext, aad)] and [aead.Open]. *)
Definition Seal (plaintext aad : list Z) : list Z :=
  let c := xor_stream plaintext in c ++ tag aad c.

Definition Open (sealed aad : list Z) : option (list Z) :=
  if (length sealed <? tagSize)%nat then None
  else
    let c := firstn (length sealed - tagSize) sealed in
    if bool_decide (skipn (length sealed - tagSize) sealed = tag aad c)
    then Some (xor_stream c) else None.

Lemma key_stream_length n : length (key_stream n) = (16 * n)%nat.
Proof.
  unfold key_stream. induction n as [|n IH]; [done|].
  rewrite seq_S, map_app, concat_app, length_app, IH. cbn [map concat].
  rewrite length_app. unfold counter_block. rewrite encrypt_length. cbn [length]. lia.
Qed.

Lemma xor_stream_length l : length (xor_stream l) = length l.
Proof.
  unfold xor_stream. rewrite length_zip_with, key_stream_length.
  pose proof (Nat.div_mod_eq (length l) 16).
  pose proof (Nat.mod_upper_bound (length l) 16 ltac:(lia)). lia.
Qed.

Lemma tag_length aad c : length (tag aad c) = tagSize.
Proof.
  unfold tag. rewrite length_zip_with, be_bytes_length. unfold counter_block.
  by rewrite encrypt_length.
Qed.

Lemma zip_xor_cancel l k : Forall is_byte l -> (length l <= length k)%nat ->
  zip_with bxor (zip_with bxor l k) k = l.
Proof.
  intros Hl. revert k. induction Hl as [|x l Hx _ IH]; intros [|y k] Hk; cbn in *;
    try done; try lia. rewrite bxor_cancel by done. f_equal. apply IH. lia.
Qed.

Lemma xor_stream_involutive l : Forall is_byte l -> xor_stream (xor_stream l) = l.
Proof.
  intros Hl. unfold xor_stream at 1. rewrite xor_stream_length.
  unfold xor_stream. apply zip_xor_cancel; [done|]. rewrite key_stream_length.
  pose proof (Nat.div_mod_eq (length l) 16).
  pose proof (Nat.mod_upper_bound (length l) 16 ltac:(lia)). lia.
Qed.

Lemma Open_Seal plaintext aad : Forall is_byte plaintext ->
  Open (Seal plaintext aad) aad = Some plaintext.
Proof.
  intros Hp. unfold Open, Seal.
  rewrite length_app, tag_length, xor_stream_length.
  replace (length plaintext + tagSize - tagSize)%nat with (length plaintext) by lia.
  rewrite (proj2 (Nat.ltb_ge _ _)) by lia.
  rewrite <- (xor_stream_length plaintext), firstn_app, skipn_app, Nat.sub_diag.
  rewrite firstn_all, skipn_all. cbn [firstn skipn app]. rewrite app_nil_r.
  rewrite bool_decide_true by done. by rewrite xor_stream_involutive.
Qed.

Lemma zip_bxor_bytes l k : Forall is_byte (zip_with bxor l k).
Proof. revert k. induction l; intros [|]; cbn; constructor; auto using bxor_byte. Qed.

Lemma Open_bytes sealed aad p : Open sealed aad = Some p -> Forall is_byte p.
Proof.
  unfold Open. repeat case_match; try done. intros [= <-]. apply zip_bxor_bytes.
Qed.

(** What [Open] accepts was sealed, under the same key, nonce and additional data. *)
Lemma Open_inv sealed aad p : Forall is_byte sealed ->
  Open sealed aad = Some p -> sealed = Seal p aad.
Proof.
  intros Hb. unfold Open, Seal. case_match; [done|]. case_bool_decide as Ht; [|done].
  intros [= <-]. rewrite xor_stream_involutive by by apply Forall_take.
  rewrite <- Ht. symmetry. apply firstn_skipn.
Qed.

Lemma Seal_bytes plaintext aad : Forall is_byte (Seal plaintext aad).
Proof. apply Forall_app; split; apply zip_bxor_bytes. Qed.

Lemma Seal_length plaintext aad :
  length (Seal plaintext aad) = (length plaintext + tagSize)%nat.
Proof. unfold Seal. by rewrite length_app, tag_length, xor_stream_length. Qed.
End cipher.
End GCM.

Example gcm_test_vector :
  GCM.Seal (AES.round_keys (repeat 0 32)) (repeat 0 12) (repeat 0 16) [] =
  SHA256.be_bytes 16 0xcea7403d4d606b6e074ec5d3baf39d18 ++
  SHA256.be_bytes 16 0xd0d1c8a799996bf0265b98b5d48ab919.
Proof. vm_compute. reflexivity. Qed.

(** ** encoding/base64: [RawURLEncoding] *)
Module RawURLEncoding.
(** The alphabet A-Z a-z 0-9 - _ , from a sextet to its character and back. *)
Definition char_of (s : Z) : Z :=
  if s <? 26 then 65 + s
  else if s <? 52 then 71 + s
  else if s <? 62 then s - 4
  else if s =? 62 then 45 else 95.

Definition value_of (c : Z) : option Z :=
  if in_range 65 90 c then Some (c - 65)
  else if in_range 97 122 c then Some (c - 71)
  else if in_range 48 57 c then Some (c + 4)
  else if c =? 45 then Some 62
  else if c =? 95 then Some 63
  else None.

Fixpoint sextets (l : list Z) : list Z :=
  match l with
  | a :: b :: c :: l' =>
      a / 4 :: (a mod 4) * 16 + b / 16 :: (b mod 16) * 4 + c / 64 :: c mod 64 :: sextets l'
  | [a; b] => [a / 4; (a mod 4) * 16 + b / 16; (b mod 16) * 4]
  | [a] => [a / 4; (a mod 4) * 16]
  | [] => []
  end.

(** A last group of two or three characters carries one or two bytes (its spare
    bits are ignored); a lone character is an error. *)
Fixpoint unsextets (l : list Z) : option (list Z) :=
  match l with
  | [] => Some []
  | [_] => None
  | [p; q] => Some [p * 4 + q / 16]
  | [p; q; r] => Some [p * 4 + q / 16; (q mod 16) * 16 + r / 4]
  | p :: q :: r :: s :: l' =>
      rest ← unsextets l';
      Some (p * 4 + q / 16 :: (q mod 16) * 16 + r / 4 :: (r mod 4) * 64 + s :: rest)
  end.

Definition EncodeToString (l : list Z) : string := string_of (map char_of (sextets l)).

(** The decoder skips line feeds and carriage returns. *)
Definition DecodeString (s : string) : option (list Z) :=
  vs ← mapM value_of (filter (fun c => c <> 10 /\ c <> 13) (bytes_of s));
  unsextets vs.

Definition is_sextet (s : Z) : Prop := 0 <= s < 64.

Lemma value_of_char s : is_sextet s -> value_of (char_of s) = Some s.
Proof.
  unfold is_sextet, char_of, value_of, in_range. intros Hs.
  repeat (case_match; try lia); try (f_equal; lia).
Qed.

Lemma char_of_byte s : is_sextet s ->
  is_byte (char_of s) /\ char_of s <> 10 /\ char_of s <> 13.
Proof. unfold is_sextet, char_of, is_byte. intros Hs. repeat case_match; lia. Qed.

(** Induction in steps of three bytes. *)
Lemma triples_ind (P : list Z -> Prop) :
  P [] -> (forall a, P [a]) -> (forall a b, P [a; b]) ->
  (forall a b c l, P l -> P (a :: b :: c :: l)) -> forall l, P l.
Proof.
  intros H0 H1 H2 H3 l. remember (length l) as n eqn:Hn. revert l Hn.
  induction n as [n IH] using (well_founded_induction lt_wf).
  intros [|a [|b [|c l]]] Hn; auto. apply H3. apply (IH (length l)); cbn in *; lia.
Qed.

Ltac bytes_arith := unfold is_byte, is_sextet in *; Z.to_euclidean_division_equations; lia.

Lemma sextets_range l : Forall is_byte l -> Forall is_sextet (sextets l).
Proof.
  induction l as [|a|a b|a b c l IH] using triples_ind; intros Hl;
    rewrite ?Forall_cons in Hl; cbn [sextets]; rewrite ?Forall_cons;
    repeat split; try apply IH; try apply Forall_nil; try tauto; bytes_arith.
Qed.

Lemma unsextets_sextets l : Forall is_byte l -> unsextets (sextets l) = Some l.
Proof.
  induction l as [|a|a b|a b c l IH] using triples_ind; intros Hl;
    rewrite ?Forall_cons in Hl; cbn [sextets unsextets]; [done| | |].
  - do 2 f_equal. bytes_arith.
  - do 2 f_equal; [|f_equal]; bytes_arith.
  - rewrite IH by tauto. cbn. do 2 f_equal; [|f_equal; [|f_equal]]; bytes_arith.
Qed.

Lemma mapM_value_of l : Forall is_sextet l ->
  mapM value_of (filter (fun c => c <> 10 /\ c <> 13) (map char_of l)) = Some l.
Proof.
  induction 1 as [|s l Hs _ IH]; [done|]. cbn [map].
  destruct (char_of_byte s Hs) as [_ Hc]. rewrite filter_cons_True by done.
  cbn. rewrite value_of_char, IH by done. done.
Qed.

Lemma DecodeString_EncodeToString l : Forall is_byte l ->
  DecodeString (EncodeToString l) = Some l.
Proof.
  intros Hl. pose proof (sextets_range l Hl) as Hs. unfold DecodeString, EncodeToString.
  rewrite bytes_of_string_of.
  2:{ apply Forall_map. apply (Forall_impl _ _ _ Hs). intros s H. by apply char_of_byte. }
  rewrite mapM_value_of by done. cbn. by apply unsextets_sextets.
Qed.

Lemma value_of_sextet c s : value_of c = Some s -> is_sextet s.
Proof. unfold value_of, in_range, is_sextet. intros Hv. repeat case_match; simplify_eq; lia. Qed.

Fixpoint unsextets_bytes l {struct l} :
  forall bs, Forall is_sextet l -> unsextets l = Some bs -> Forall is_byte bs.
Proof.
  destruct l as [|p [|q [|r [|s l]]]]; cbn [unsextets]; intros bs Hl;
    rewrite ?Forall_cons in Hl; [intros [= <-]; done|done| | |].
  1,2: intros [= <-]; rewrite ?Forall_cons; repeat split; try done; bytes_arith.
  destruct (unsextets l) as [rest|] eqn:E; cbn; [|done]. intros [= <-].
  apply unsextets_bytes in E; [|tauto]. rewrite ?Forall_cons.
  repeat split; try done; bytes_arith.
Qed.

Lemma DecodeString_bytes s l : DecodeString s = Some l -> Forall is_byte l.
Proof.
  unfold DecodeString. destruct (mapM _ _) as [vs|] eqn:E; [|done]. cbn.
  apply unsextets_bytes. apply mapM_Some_1 in E.
  eapply Forall2_Forall_r; [exact E|]. apply Forall_true. apply value_of_sextet.
Qed.

Lemma EncodeToString_nonempty l : l <> [] -> EncodeToString l <> ""%string.
Proof. by destruct l as [|a [|b [|c l]]]. Qed.
End RawURLEncoding.
