(* ===== verification/Pagination.v ===== *)
(** * Pages and cursors: [internal/pkg/pagination]

    Offset pages ([pagination.go]) and sealed cursors ([cursor.go]).  The codec is
    the code's: AES-256-GCM under a key derived with SHA-256, the sort key as
    payload, the scope as associated data, unpadded URL base64 around it. *)

From S2P Require Import Prelude.
From S2P Require Import GoText.
From S2P Require Import Apierr.
From S2P Require Import Effects.
From S2P Require Import Digest.
From S2P Require Import Sealed.
Open Scope Z_scope.

(** ** pagination.go *)
Definition DefaultPage : Z := 1.
Definition DefaultLimit : Z := 20.
Definition MaxLimit : Z := 100.

Record Params := mkParams { Page : Z; Limit : Z }.

(** [(p.Page - 1) * p.Limit], on 64-bit [int]s. *)
Definition Offset (p : Params) : Z := wrap64 (wrap64 (Page p - 1) * Limit p).

Definition parseOne (raw field : string) (defaultValue minimum maximum : Z) : goerr + Z :=
  if bool_decide (raw = ""%string) then inr defaultValue
  else
    match Atoi raw with
    | None => inl (EApi (InvalidField field FieldInvalidFormat (field +:+ " 必须是整数")))
    | Some v =>
        if v <? minimum then
          inl (EApi (InvalidField field FieldOutOfRange
                 (field +:+ " 不能小于 " +:+ FormatInt minimum)))
        else if (0 <? maximum) && (maximum <? v) then
          inl (EApi (InvalidField field FieldOutOfRange
                 (field +:+ " 不能大于 " +:+ FormatInt maximum)))
        else inr v
    end.

Definition Parse (rawPage rawLimit : string) : goerr + Params :=
  match parseOne rawPage "page" DefaultPage 1 0 with
  | inl err => inl err
  | inr page =>
      match parseOne rawLimit "limit" DefaultLimit 1 MaxLimit with
      | inl err => inl err
      | inr limit => inr (mkParams page limit)
      end
  end.

Record Meta := mkMeta { m_Page : Z; m_Limit : Z; Total : Z; TotalPages : Z }.

Record CursorMeta := mkCursorMeta {
  cm_Limit : Z;
  NextCursor : option string;
  HasMore : bool;
}.

(** Go's division truncates towards zero. *)
Definition NewMeta (p : Params) (total : Z) : Meta :=
  mkMeta (Page p) (Limit p) total
    (if 0 <? Limit p
     then wrap64 (Z.quot (wrap64 (wrap64 (total + Limit p) - 1)) (Limit p)) else 0).

(** [HybridMeta]: at most one of the two is set by the constructors. *)
Record HybridMeta := mkHybridMeta { offset : option Meta; cursor : option CursorMeta }.
Definition NewOffsetHybridMeta (meta : Meta) : HybridMeta := mkHybridMeta (Some meta) None.
Definition NewCursorHybridMeta (meta : CursorMeta) : HybridMeta :=
  mkHybridMeta None (Some meta).
(** What [MarshalJSON] hands to [json.Marshal]. *)
Definition HybridMeta_MarshalJSON (m : HybridMeta) : goerr + (CursorMeta + Meta) :=
  match cursor m, offset m with
  | Some c, _ => inr (inl c)
  | None, Some o => inr (inr o)
  | None, None => inl (ENew "分页元信息未初始化")
  end.

(** [repository.FindPage] over the rows its scopes select, in their order.  GORM
    writes an [OFFSET] clause only when the offset is positive. *)
Definition page_rows {R} (params : Params) (rows : list R) : list R :=
  firstn (Z.to_nat (Limit params)) (skipn (Z.to_nat (Offset params)) rows).
Definition FindPage {R} (params : Params) (rows : list R) : list R * Meta :=
  (page_rows params rows, NewMeta params (Z.of_nat (length rows))).

(** ** cursor.go *)
Definition cursorVersion : Z := 1.
Definition rankedCursorVersion : Z := 2.
Definition cursorPayloadSize : nat := 17.
Definition rankedCursorPayloadSize : nat := 25.

Definition ErrInvalidCursor : goerr := ENew "游标无效".

Module Cursor.
Record t := mk { CreatedAt : time; ID : Z; Rank : option Z }.
End Cursor.

Record CursorRequest := mkCursorRequest { Token : string; cr_Limit : Z }.
Record CursorParams := mkCursorParams { After : option Cursor.t; cp_Limit : Z }.

Record CursorCodec := mkCursorCodec { aead : list (list Z); scope : list Z }.

Definition NewCursorCodec (secret scope : string) : CursorCodec :=
  let key := SHA256.sum_bytes (bytes_of "danshi-cursor-v1" ++ [0] ++ bytes_of secret) in
  mkCursorCodec (AES.round_keys key) (bytes_of scope).

Definition ParseCursorRequest (rawCursor rawLimit : string) : goerr + CursorRequest :=
  match parseOne rawLimit "limit" DefaultLimit 1 MaxLimit with
  | inl err => inl err
  | inr limit => inr (mkCursorRequest rawCursor limit)
  end.

(** [t.UnixMicro()] and [time.UnixMicro]. *)
Definition UnixMicro (t : time) : Z := wrap64 (t / Microsecond).
Definition of_UnixMicro (micros : Z) : time := micros * Microsecond.

(** [binary.BigEndian.PutUint64] of the two's-complement image. *)
Definition put_uint64 (v : Z) : list Z := SHA256.be_bytes 8 (v mod 2 ^ 64).
Definition get_uint64 (l : list Z) : Z := SHA256.be_word l.

Definition payload (value : Cursor.t) : list Z :=
  match Cursor.Rank value with
  | None => cursorVersion :: put_uint64 (UnixMicro (Cursor.CreatedAt value)) ++ put_uint64 (Cursor.ID value)
  | Some rank =>
      rankedCursorVersion :: put_uint64 (UnixMicro (Cursor.CreatedAt value)) ++
        put_uint64 (Cursor.ID value) ++ put_uint64 rank
  end.

Definition seal_cursor (c : CursorCodec) (value : Cursor.t) (nonce : string) : string :=
  RawURLEncoding.EncodeToString
    (bytes_of nonce ++ GCM.Seal (aead c) (bytes_of nonce) (payload value) (scope c)).

Definition Encode `{Env} {DB B A} (c : CursorCodec) (value : Cursor.t)
    : M (Tx DB B A) string :=
  if (Cursor.CreatedAt value =? zero_time) || (Cursor.ID value =? 0)
  then throw (EWrap "编码游标" ErrInvalidCursor)
  else
    let* nonce := RandRead GCM.nonceSize in
    match nonce with
    | None => throw (EWrap "生成游标 nonce" (ENew "rand"))
    | Some nonce => mret (seal_cursor c value nonce)
    end.

Definition validCursorPayload (p : list Z) : bool :=
  bool_decide (length p = cursorPayloadSize) && (nth 0 p 0 =? cursorVersion)
  || bool_decide (length p = rankedCursorPayloadSize) && (nth 0 p 0 =? rankedCursorVersion).

Definition Decode (c : CursorCodec) (raw : string) : goerr + option Cursor.t :=
  if bool_decide (raw = ""%string) then inr None
  else
    match RawURLEncoding.DecodeString raw with
    | None => inl ErrInvalidCursor
    | Some sealed =>
        if (length sealed <? GCM.nonceSize + GCM.tagSize)%nat then inl ErrInvalidCursor
        else
          match GCM.Open (aead c) (firstn GCM.nonceSize sealed)
                  (skipn GCM.nonceSize sealed) (scope c) with
          | None => inl ErrInvalidCursor
          | Some p =>
              if negb (validCursorPayload p) then inl ErrInvalidCursor
              else
                let id := get_uint64 (firstn 8 (skipn 9 p)) in
                if id =? 0 then inl ErrInvalidCursor
                else
                  let micros := wrap64 (get_uint64 (firstn 8 (skipn 1 p))) in
                  inr (Some (Cursor.mk (of_UnixMicro micros) id
                    (if nth 0 p 0 =? rankedCursorVersion
                     then Some (wrap64 (get_uint64 (firstn 8 (skipn 17 p)))) else None)))
          end
    end.

Definition DecodeRequest (c : CursorCodec) (request : CursorRequest) : goerr + CursorParams :=
  match Decode c (Token request) with
  | inl _ => inl (EApi (InvalidField "cursor" FieldInvalidFormat "cursor 无效或已被篡改"))
  | inr after => inr (mkCursorParams after (cr_Limit request))
  end.

(** ** Round trip of the codec *)
Lemma wrap64_id v : int64_min <= v <= int64_max -> wrap64 v = v.
Proof. unfold wrap64, int64_min, int64_max. intros Hv. rewrite Z.mod_small; lia. Qed.

Lemma wrap64_unsigned v : int64_min <= v <= int64_max -> wrap64 (v mod 2 ^ 64) = v.
Proof.
  unfold wrap64, int64_min, int64_max. intros Hv.
  rewrite Zplus_mod_idemp_l, Z.mod_small; lia.
Qed.

Lemma put_uint64_length v : length (put_uint64 v) = 8%nat.
Proof. apply be_bytes_length. Qed.
Lemma put_uint64_bytes v : Forall is_byte (put_uint64 v).
Proof. apply be_bytes_range. Qed.
Lemma get_put_uint64 v : get_uint64 (put_uint64 v) = v mod 2 ^ 64.
Proof.
  unfold get_uint64, put_uint64. apply be_word_bytes.
  change (256 ^ Z.of_nat 8) with (2 ^ 64). apply Z.mod_pos_bound. lia.
Qed.

(** The eight-byte fields behind the version byte. *)
Lemma eight {A} (l : list A) : length l = 8%nat ->
  exists a b c d e f g h, l = [a; b; c; d; e; f; g; h].
Proof.
  destruct l as [|a [|b [|c [|d [|e [|f [|g [|h [|]]]]]]]]]; try discriminate. eauto 10.
Qed.

Lemma fields (v : Z) (a b l : list Z) : length a = 8%nat -> length b = 8%nat ->
  firstn 8 (skipn 1 (v :: a ++ b ++ l)) = a /\
  firstn 8 (skipn 9 (v :: a ++ b ++ l)) = b /\
  skipn 17 (v :: a ++ b ++ l) = l.
Proof.
  intros (?&?&?&?&?&?&?&?&->)%eight (?&?&?&?&?&?&?&?&->)%eight. done.
Qed.

(** A sort key as the database can hold it: a non-zero instant of whole
    microseconds in range, a non-zero 64-bit id. *)
Record storable (value : Cursor.t) : Prop := {
  st_instant : Cursor.CreatedAt value <> zero_time;
  st_micros : Cursor.CreatedAt value mod Microsecond = 0;
  st_range : int64_min <= Cursor.CreatedAt value / Microsecond <= int64_max;
  st_id : 0 < Cursor.ID value < 2 ^ 64;
  st_rank : match Cursor.Rank value with
            | Some rank => int64_min <= rank <= int64_max
            | None => True
            end;
}.

Lemma payload_bytes value : Forall is_byte (payload value).
Proof.
  unfold payload. destruct (Cursor.Rank value); (apply Forall_cons; split; [done|]);
    rewrite ?Forall_app; repeat split; apply put_uint64_bytes.
Qed.

Lemma payload_valid value : validCursorPayload (payload value) = true.
Proof.
  unfold validCursorPayload, payload. destruct (Cursor.Rank value); cbn [length nth];
    rewrite !length_app, !put_uint64_length; reflexivity.
Qed.

Lemma open_seal_cursor c value nonce :
  String.length nonce = GCM.nonceSize ->
  exists sealed,
    RawURLEncoding.DecodeString (seal_cursor c value nonce) = Some sealed /\
    (GCM.nonceSize + GCM.tagSize <= length sealed)%nat /\
    GCM.Open (aead c) (firstn GCM.nonceSize sealed) (skipn GCM.nonceSize sealed) (scope c)
    = Some (payload value).
Proof.
  intros Hn. rewrite <- length_bytes_of in Hn. eexists. split.
  { apply RawURLEncoding.DecodeString_EncodeToString. apply Forall_app.
    split; [apply bytes_of_range | apply GCM.Seal_bytes]. }
  rewrite length_app, GCM.Seal_length, Hn. split; [lia|].
  rewrite <- Hn, firstn_app, skipn_app, Nat.sub_diag, firstn_all, skipn_all.
  cbn [firstn skipn app]. rewrite app_nil_r. apply GCM.Open_Seal, payload_bytes.
Qed.

Lemma Decode_seal_cursor c value nonce :
  storable value -> String.length nonce = GCM.nonceSize ->
  Decode c (seal_cursor c value nonce) = inr (Some value).
Proof.
  intros [Hz Hm Hr Hi Hk] Hn. unfold Decode.
  destruct (open_seal_cursor c value nonce Hn) as (sealed & Hd & Hl & Ho).
  rewrite bool_decide_false by (intros E; rewrite E in Hd; cbn in Hd; injection Hd as <-;
    unfold GCM.nonceSize, GCM.tagSize in Hl; cbn in Hl; lia).
  rewrite Hd, (proj2 (Nat.ltb_ge _ _)) by done. rewrite Ho, payload_valid. cbn [negb].
  destruct value as [t id rank]; cbn [Cursor.CreatedAt Cursor.ID Cursor.Rank] in *.
  assert (of_UnixMicro (wrap64 (UnixMicro t mod 2 ^ 64)) = t) as Ht.
  { unfold UnixMicro. rewrite (wrap64_id (t / Microsecond)), wrap64_unsigned by done.
    unfold of_UnixMicro. pose proof (Z.div_mod t Microsecond ltac:(done)). lia. }
  unfold payload; destruct rank as [rank|]; cbn [Cursor.Rank Cursor.CreatedAt Cursor.ID].
  - destruct (fields rankedCursorVersion (put_uint64 (UnixMicro t)) (put_uint64 id)
      (put_uint64 rank)) as (-> & -> & ->); try apply put_uint64_length.
    rewrite (firstn_all2 (put_uint64 rank)) by (by rewrite put_uint64_length).
    rewrite !get_put_uint64, (Z.mod_small id), Ht, wrap64_unsigned by (assumption || lia).
    rewrite (proj2 (Z.eqb_neq id 0)) by lia. done.
  - destruct (fields cursorVersion (put_uint64 (UnixMicro t)) (put_uint64 id) [])
      as (H1 & H2 & _); try apply put_uint64_length. rewrite app_nil_r in H1, H2.
    rewrite H1, H2, !get_put_uint64, (Z.mod_small id), Ht by lia.
    rewrite (proj2 (Z.eqb_neq id 0)) by lia. done.
Qed.

Lemma get_uint64_range k p : Forall is_byte p ->
  0 <= get_uint64 (firstn 8 (skipn k p)) < 2 ^ 64.
Proof.
  intros Hp. pose proof (be_word_range (firstn 8 (skipn k p))) as H.
  assert (Z.of_nat (length (firstn 8 (skipn k p))) <= 8) as Hl by (rewrite length_take; lia).
  apply (Z.pow_le_mono_r 256) in Hl; [|lia]. change (256 ^ 8) with (2 ^ 64) in Hl.
  unfold get_uint64. ospecialize (H _); [by apply Forall_take, Forall_drop | lia].
Qed.
Lemma wrap64_range v : int64_min <= wrap64 v <= int64_max.
Proof.
  unfold wrap64, int64_min, int64_max.
  pose proof (Z.mod_pos_bound (v + 2 ^ 63) (2 ^ 64) ltac:(lia)). lia.
Qed.

(** The sort key that a valid payload carries; its payload is the one it came from. *)
Definition read_payload (p : list Z) : Cursor.t :=
  Cursor.mk (of_UnixMicro (wrap64 (get_uint64 (firstn 8 (skipn 1 p)))))
    (get_uint64 (firstn 8 (skipn 9 p)))
    (if nth 0 p 0 =? rankedCursorVersion
     then Some (wrap64 (get_uint64 (firstn 8 (skipn 17 p)))) else None).

Lemma wrap64_mod v : wrap64 v mod 2 ^ 64 = v mod 2 ^ 64.
Proof. unfold wrap64. rewrite Zminus_mod_idemp_l. f_equal. lia. Qed.

Lemma put_get_uint64 l v : Forall is_byte l -> length l = 8%nat ->
  v mod 2 ^ 64 = get_uint64 l mod 2 ^ 64 -> put_uint64 v = l.
Proof.
  intros Hb Hl E. unfold put_uint64. rewrite E. unfold get_uint64.
  pose proof (be_word_range l Hb) as Hr. rewrite Hl in Hr.
  change (256 ^ Z.of_nat 8) with (2 ^ 64) in Hr. rewrite Z.mod_small by done.
  rewrite <- Hl. by apply be_bytes_word.
Qed.

Lemma payload_read p : Forall is_byte p -> validCursorPayload p = true ->
  payload (read_payload p) = p.
Proof.
  intros Hb Hv. unfold validCursorPayload in Hv.
  assert (forall k, (k + 8 <= length p)%nat ->
    put_uint64 (wrap64 (get_uint64 (firstn 8 (skipn k p)))) = firstn 8 (skipn k p) /\
    put_uint64 (get_uint64 (firstn 8 (skipn k p))) = firstn 8 (skipn k p)) as Hw.
  { intros k Hk. assert (Forall is_byte (firstn 8 (skipn k p))) as Hf
      by by apply Forall_take, Forall_drop.
    assert (length (firstn 8 (skipn k p)) = 8%nat) as Hl
      by (rewrite length_take, length_drop; lia).
    split; apply put_get_uint64; try done. apply wrap64_mod. }
  unfold read_payload, payload. cbn [Cursor.Rank Cursor.CreatedAt Cursor.ID].
  unfold UnixMicro, of_UnixMicro. rewrite Z.div_mul by done.
  rewrite (wrap64_id (wrap64 _)) by apply wrap64_range.
  apply orb_prop in Hv as [[Hl%bool_decide_eq_true Hn%Z.eqb_eq]%andb_prop
    | [Hl%bool_decide_eq_true Hn%Z.eqb_eq]%andb_prop]; rewrite Hn, Hl in *;
    unfold cursorPayloadSize, rankedCursorPayloadSize in *;
    [change (cursorVersion =? rankedCursorVersion) with false
    |change (rankedCursorVersion =? rankedCursorVersion) with true]; cbn iota.
  all: rewrite (proj1 (Hw 1%nat ltac:(lia))), (proj2 (Hw 9%nat ltac:(lia))).
  2: rewrite (proj1 (Hw 17%nat ltac:(lia))).
  all: rewrite <- Hn; clear Hw Hn Hb; destruct p as [|v p]; [done|]; cbn [nth];
    f_equal; cbn [skipn]; injection Hl as Hl.
  - rewrite (firstn_all2 (skipn 8 p)) by (rewrite length_drop; lia). apply firstn_skipn.
  - rewrite (firstn_all2 (skipn 16 p)) by (rewrite length_drop; lia).
    rewrite <- (firstn_skipn 8 p) at 4. f_equal.
    rewrite <- (firstn_skipn 8 (skipn 8 p)) at 2. by rewrite skipn_skipn.
Qed.

Lemma Decode_inr c raw value : Decode c raw = inr (Some value) ->
  exists nonce p, length nonce = GCM.nonceSize /\
    RawURLEncoding.DecodeString raw = Some (nonce ++ GCM.Seal (aead c) nonce p (scope c)) /\
    Forall is_byte p /\ validCursorPayload p = true /\
    Cursor.ID value <> 0 /\ value = read_payload p.
Proof.
  unfold Decode. case_match; [done|].
  destruct (RawURLEncoding.DecodeString raw) as [sealed|] eqn:Hd; [|done].
  apply RawURLEncoding.DecodeString_bytes in Hd as Hb.
  destruct (length sealed <? _)%nat eqn:Hl; [done|]. apply Nat.ltb_ge in Hl.
  destruct (GCM.Open _ _ _ _) as [p|] eqn:Ho; [|done].
  apply GCM.Open_bytes in Ho as Hp. apply GCM.Open_inv in Ho; [|by apply Forall_drop].
  destruct (validCursorPayload p) eqn:Hv; [|done]. cbn [negb]. case_match eqn:Hid; [done|].
  intros [= <-]. exists (firstn GCM.nonceSize sealed), p. cbn [Cursor.ID].
  rewrite <- Ho, firstn_skipn, length_take.
  split_and!; try done; [unfold GCM.tagSize in Hl; lia | lia].
Qed.

(** C37: cursors survive the wire, and nothing else gets in.  A token that [Encode]
    issued decodes under the same codec to the sort key it was made of, to the
    microsecond.  Whatever text a client sends, a cursor [Decode] accepts is the
    unpadded URL base64 of a 12-byte nonce and the AES-256-GCM seal, under that nonce,
    of the payload of exactly this cursor, with the key derived from the codec's secret
    and the codec's scope as the authenticated data; and it has a non-zero 64-bit id, an
    instant of whole microseconds and a 64-bit rank. *)
Theorem cursor_roundtrip `{Env} `{!EnvOk} {DB B A} (secret scope : string) :
  let c := NewCursorCodec secret scope in
  (forall value token (tx tx' : Tx DB B A), storable value ->
     Encode c value tx = (inr token, tx') -> Decode c token = inr (Some value)) /\
  (forall raw value, Decode c raw = inr (Some value) ->
     (exists nonce, length nonce = 12%nat /\
        RawURLEncoding.DecodeString raw =
        Some (nonce ++ GCM.Seal
                (AES.round_keys (SHA256.sum_bytes
                   (bytes_of "danshi-cursor-v1" ++ [0] ++ bytes_of secret)))
                nonce (payload value) (bytes_of scope))) /\
     0 < Cursor.ID value < 2 ^ 64 /\ Cursor.CreatedAt value mod Microsecond = 0 /\
     int64_min <= Cursor.CreatedAt value / Microsecond <= int64_max /\
     forall rank, Cursor.Rank value = Some rank -> int64_min <= rank <= int64_max).
Proof.
  intros c. split.
  - intros value token tx tx' Hv. unfold Encode. case_match; [done|].
    intros (n & tx1 & Hr & Hk)%mbind_inr. injection Hr as <- <-.
    case_match eqn:Hn; [|done]. injection Hk as <- <-.
    apply Decode_seal_cursor; [done|]. by eapply rand_length.
  - intros raw value (nonce & p & Hn & Hd & Hb & Hv & Hid & Hp)%Decode_inr. split.
    { exists nonce. split; [done|]. by rewrite Hp, payload_read. }
    rewrite Hp in Hid |- *. cbn [Cursor.ID Cursor.CreatedAt Cursor.Rank read_payload] in *.
    unfold of_UnixMicro. rewrite Z.mod_mul, Z.div_mul by done.
    pose proof (get_uint64_range 9 p Hb). split; [lia|]. split; [done|].
    split; [apply wrap64_range|]. case_match; [|done]. intros rank [= <-].
    apply wrap64_range.
Qed.

(** ** Offset pages *)
Lemma parseOne_spec raw field default minimum maximum v :
  parseOne raw field default minimum maximum = inr v <->
  (raw = ""%string /\ v = default) \/
  (raw <> ""%string /\ Atoi raw = Some v /\ minimum <= v /\ (0 < maximum -> v <= maximum)).
Proof.
  unfold parseOne. case_bool_decide as Hr; [naive_solver|].
  destruct (Atoi raw) as [w|]; [|naive_solver].
  destruct (w <? minimum) eqn:H1; [split; [done|]; intros [[? _]|(_ & [= ->] & ? & _)]; [done|lia]|].
  destruct ((0 <? maximum) && (maximum <? w)) eqn:H2.
  - apply andb_prop in H2 as [H2 H3]. split; [done|].
    intros [[? _]|(_ & [= ->] & ? & H4)]; [done|]. lia.
  - apply andb_false_iff in H2. split.
    + intros [= ->]. right. repeat split; [done|lia|]. lia.
    + intros [[? _]|(_ & [= ->] & _)]; done.
Qed.

Lemma parseOne_error raw field default minimum maximum err :
  parseOne raw field default minimum maximum = inl err ->
  exists code message, err = EApi (InvalidField field code message).
Proof. unfold parseOne. repeat case_match; intros [= <-]; eauto. Qed.

(** Parameters are checked, never clamped.  [Parse] succeeds exactly when each
    parameter is absent (its default then) or an integer in range: a page from 1
    up, a limit from 1 to 100.  Anything else is a 422 that names its field. *)
Theorem parse_exact rawPage rawLimit :
  (forall p, Parse rawPage rawLimit = inr p <->
     ((rawPage = "" /\ Page p = DefaultPage) \/
      (rawPage <> "" /\ Atoi rawPage = Some (Page p) /\ 1 <= Page p)) /\
     ((rawLimit = "" /\ Limit p = DefaultLimit) \/
      (rawLimit <> "" /\ Atoi rawLimit = Some (Limit p) /\ 1 <= Limit p <= MaxLimit)))%string /\
  (forall err, Parse rawPage rawLimit = inl err ->
     exists field code message, err = EApi (InvalidField field code message) /\
       Status (InvalidField field code message) = 422 /\
       (field = "page" \/ field = "limit")%string).
Proof.
  split.
  - intros p. unfold Parse.
    destruct (parseOne rawPage "page" _ _ _) as [e1|page] eqn:H1.
    { split; [done|]. intros [Hp _]. exfalso.
      assert (parseOne rawPage "page" DefaultPage 1 0 = inr (Page p)) as E
        by (apply parseOne_spec; naive_solver lia). congruence. }
    destruct (parseOne rawLimit "limit" _ _ _) as [e2|limit] eqn:H2.
    { split; [done|]. intros [_ Hl]. exfalso.
      assert (parseOne rawLimit "limit" DefaultLimit 1 MaxLimit = inr (Limit p)) as E
        by (apply parseOne_spec; naive_solver lia). congruence. }
    apply parseOne_spec in H1, H2. unfold MaxLimit in *. split.
    + intros [= <-]. cbn. naive_solver lia.
    + intros [Hp Hl]. destruct p as [pp pl]; cbn in *.
      assert (page = pp) as -> by naive_solver congruence.
      assert (limit = pl) as -> by naive_solver congruence. done.
  - intros err. unfold Parse.
    destruct (parseOne rawPage "page" _ _ _) as [e1|page] eqn:H1.
    { intros [= <-]. apply parseOne_error in H1 as (code & m & ->). eauto 10. }
    destruct (parseOne rawLimit "limit" _ _ _) as [e2|limit] eqn:H2; [|done].
    intros [= <-]. apply parseOne_error in H2 as (code & m & ->). eauto 10.
Qed.

(** ["page * limit"] stays below [2^63] on every page a table can have. *)
Lemma Offset_small page limit : 1 <= page -> 0 <= limit ->
  (page - 1) * limit <= int64_max -> page <= int64_max ->
  Offset (mkParams page limit) = (page - 1) * limit.
Proof.
  unfold Offset; cbn [Page Limit]. intros Hp Hl Hm Hpm.
  assert (int64_min < 0) by done. rewrite (wrap64_id (page - 1)), wrap64_id by nia. done.
Qed.

Definition total_pages {R} (limit : Z) (rows : list R) : Z :=
  TotalPages (snd (FindPage (mkParams 1 limit) rows)).

Lemma total_pages_ceil {R} limit (rows : list R) :
  1 <= limit <= MaxLimit -> Z.of_nat (length rows) < 2 ^ 62 ->
  total_pages limit rows = (Z.of_nat (length rows) + limit - 1) / limit.
Proof.
  intros Hl Hn. unfold total_pages, FindPage, NewMeta, MaxLimit in *. cbn [snd TotalPages Limit].
  rewrite (proj2 (Z.ltb_lt 0 limit)) by lia. change (2 ^ 62) with 4611686018427387904 in Hn.
  assert (forall v, -100 <= v < 2 ^ 63 -> wrap64 v = v) as Hw
    by (intros v Hv; apply wrap64_id; unfold int64_min, int64_max; lia).
  rewrite (Hw (_ + limit)), (Hw (_ + limit - 1)) by lia.
  rewrite Z.quot_div_nonneg by lia. apply Hw.
  assert (0 <= (Z.of_nat (length rows) + limit - 1) / limit <= Z.of_nat (length rows) + limit - 1)
    by (split; [apply Z.div_pos; lia | apply Z.div_le_upper_bound; nia]). lia.
Qed.

(** Consecutive chunks of a list rebuild it. *)
Lemma concat_chunks {R} (n k : nat) (l : list R) :
  (length l <= n * k)%nat ->
  concat (map (fun i => firstn k (skipn (i * k) l)) (seq 0 n)) = l.
Proof.
  revert l. induction n as [|n IH]; intros l Hl; cbn [seq map concat].
  - destruct l; cbn in *; [done | lia].
  - transitivity (firstn k l ++ skipn k l); [f_equal | apply firstn_skipn].
    rewrite <- (IH (skipn k l)) by (rewrite length_skipn; lia).
    rewrite <- seq_shift, map_map. apply (f_equal (@concat _)), map_ext. intros i.
    rewrite drop_drop. do 2 f_equal.
Qed.

(** Offset pages partition the list.  For a limit that [Parse] accepts, the
    pages [1 .. TotalPages] laid end to end are the rows, each once and in their
    order; no page is longer than the limit; and every later page whose offset is
    still a 64-bit integer is empty. *)
Theorem offset_pages {R} (rows : list R) limit :
  1 <= limit <= MaxLimit -> Z.of_nat (length rows) < 2 ^ 62 ->
  let page p := fst (FindPage (mkParams p limit) rows) in
  concat (map (fun k => page (Z.of_nat k)) (seq 1 (Z.to_nat (total_pages limit rows)))) = rows /\
  (forall p, Z.of_nat (length (page p)) <= limit) /\
  (forall p, total_pages limit rows < p <= int64_max -> (p - 1) * limit <= int64_max ->
     page p = []).
Proof.
  intros Hl Hn page. rewrite total_pages_ceil by done.
  set (n := Z.of_nat (length rows)) in *. set (pages := (n + limit - 1) / limit).
  assert (0 <= n) by lia.
  assert (0 <= pages /\ n <= pages * limit < n + limit) as [Hp Hpl].
  { unfold pages. clear -Hl. Z.to_euclidean_division_equations. nia. }
  assert (forall p, 1 <= p <= int64_max -> (p - 1) * limit <= int64_max ->
    page p = firstn (Z.to_nat limit) (skipn (Z.to_nat ((p - 1) * limit)) rows)) as Hpage.
  { intros p H1 H2. unfold page, FindPage, page_rows; cbn [fst Limit].
    by rewrite Offset_small by lia. }
  assert (2 ^ 62 + 200 <= int64_max) by done.
  split; [|split].
  - etransitivity; [|apply (concat_chunks (Z.to_nat pages) (Z.to_nat limit))].
    2:{ apply Nat2Z.inj_le. rewrite Nat2Z.inj_mul, !Z2Nat.id by lia. lia. }
    rewrite <- seq_shift, map_map. apply (f_equal (@concat _)), map_ext_in. intros i Hi.
    apply in_seq in Hi. unfold MaxLimit in Hl.
    assert (Z.of_nat i < pages) by lia. assert (Z.of_nat i * limit <= (pages - 1) * limit) by nia.
    rewrite Hpage by nia. do 2 f_equal. nia.
  - intros p. unfold page, FindPage, page_rows; cbn [fst Limit]. rewrite length_take. lia.
  - intros p H1 H2. rewrite Hpage by lia. rewrite skipn_all2; [by rewrite take_nil|].
    apply Nat2Z.inj_le. rewrite Z2Nat.id by nia. fold n. nia.
Qed.

(** Where the partition ends.  The page number has no upper bound, and
    [(Page - 1) * Limit] wraps: an accepted request for page 92233720368547760 has
    a negative offset, which GORM leaves out of the query, so that it is answered
    with the first page's rows. *)
Theorem offset_wraps :
  exists p, Parse "92233720368547760" "100" = inr p /\ Offset p < 0 /\
    forall R (rows : list R), fst (FindPage p rows) = firstn 100 rows.
Proof.
  eexists. split; [reflexivity|]. split; [reflexivity|]. intros R rows. reflexivity.
Qed.
