(* ===== verification/AuthRepo.v ===== *)
(** * The auth repositories: [internal/repository/auth.go], [base.go]

    Every method is one or two SQL statements on the transaction's tables
    ([Effects.stmt]); the functions PostgreSQL applies inside them ([lower],
    [normalize]) are parameters ([Pg]).  Constraint violations the service looks
    at are modelled at the statement that can raise them. *)

From S2P Require Import Prelude.
From S2P Require Import GoText.
From S2P Require Import Apierr.
From S2P Require Import Effects.
From S2P Require Import Model.
From S2P Require Import Authz.
Open Scope Z_scope.

Class Pg := {
  pg_lower : string -> string;
  pg_normalize : string -> string;
}.

(** Deferred operations of the service layer, as data. *)
Inductive BeforeOp := SessionTouch (sessionID : Z) (now : time).

(** internal/service/moderation_ports.go [ModerationAlert]. *)
Record ModerationAlert := mkModerationAlert {
  Kind : string;
  Target : string;
  TargetID : Z;
  al_Field : option string;
  al_Provider : string;
  al_ProviderJobID : option string;
  al_Verdict : string;
  al_Labels : list string;
  FailureCode : string;
  al_ErrorID : string;
  Occurrences : Z;
  WindowSeconds : Z;
  QueueDepth : Z;
  Threshold : Z;
}.

Inductive AfterOp := KickEmailWorker | SendAlert (alert : ModerationAlert).

Abbreviation TxD := (Tx DB BeforeOp AfterOp).
Abbreviation MT := (M TxD).

(** ** base.go *)
Definition ErrNotFoundText : string := "repository: resource not found".
Definition ErrAlreadyExistsText : string := "repository: resource already exists".
Definition ErrNotFound : goerr := ENew ErrNotFoundText.
Definition ErrAlreadyExists : goerr := ENew ErrAlreadyExistsText.
Definition ErrRecordNotFound : goerr := ENew "record not found".

Definition is_not_found (e : goerr) : bool := err_is ErrNotFoundText e.

Definition NormalizeError (err : goerr) : goerr :=
  if err_is "record not found" err then ErrNotFound else err.

Definition ToAPIError (random : option string) (err : goerr) (code : BizCode)
    (resource : string) : Error :=
  if is_not_found err then NotFound code resource else Internal random err.

Definition IsUniqueViolation (err : goerr) (constraint : string) : bool :=
  match as_pg err with
  | Some (code, c) => bool_decide (code = "23505"%string) && bool_decide (c = constraint)
  | None => false
  end.

Definition IsCheckViolation (err : goerr) (constraint : string) : bool :=
  match as_pg err with
  | Some (code, c) => bool_decide (code = "23514"%string) && bool_decide (c = constraint)
  | None => false
  end.

(** GORM's [First]: an empty result is [gorm.ErrRecordNotFound], which every
    repository normalises; it is not a failed statement. *)
Definition First `{Env} {R} (f : DB -> option R) : MT R :=
  let* r := query f in
  match r with
  | Some v => mret v
  | None => throw (NormalizeError ErrRecordNotFound)
  end.

Definition valueOrEmpty (v : option string) : string :=
  match v with Some s => s | None => "" end.

Definition unique_violation (constraint : string) : goerr := EPg "23505" constraint.

(** ** UserRepository *)
Module UserRepository.
Section ops.
Context `{Env} `{Pg}.

Definition same_email (email : string) (u : User.t) : bool :=
  bool_decide (pg_lower (User.Email u) = pg_lower email).

Definition fold_name (name : string) : string := pg_lower (pg_normalize name).

Definition same_name (name : string) (u : User.t) : bool :=
  bool_decide (fold_name (User.Username u) = fold_name name).

Definition live (u : User.t) : bool := bool_decide (User.DeletedAt u = None).

Definition FindByEmail (email : string) (IncludeDeleted : bool) : MT User.t :=
  First (fun db =>
    first (fun u => same_email email u && (IncludeDeleted || live u)) (users db)).

Definition FindByUsername (name : string) : MT User.t :=
  First (fun db => first (fun u => same_name name u && live u) (users db)).

Definition LockByID (userID : Z) : MT User.t :=
  First (fun db =>
    first (fun u => bool_decide (User.ID u = userID) && live u) (users db)).

Definition claim_holder (name : string) (db : DB) : option UsernameClaim.t :=
  first (fun c => bool_decide (fold_name (UsernameClaim.Username c) = fold_name name))
    (user_name_claims db).

(** [INSERT INTO users], the unique indexes on it and its trigger
    [trg_users_claim_name] (migration 00018). *)
Definition insert_user (user : User.t) (claim_id : Z) (db : DB) : goerr + unit * DB :=
  if exists_row (same_email (User.Email user)) (users db)
  then inl (unique_violation "uq_users_email_lower")
  else if exists_row (same_name (User.Username user)) (users db)
  then inl (unique_violation "uq_users_name_lower")
  else match insert_row "users_pkey" (User.ID user) user (users db) with
  | inl err => inl err
  | inr t =>
    let db := db <| users := t |> in
    match claim_holder (User.Username user) db with
    | Some c =>
        if UsernameClaim.UserID c =? User.ID user then inr (tt, db)
        else inl (unique_violation "uq_user_name_claims_name_lower")
    | None =>
        match insert_row "user_name_claims_pkey" claim_id
                (UsernameClaim.mk claim_id (User.ID user) (User.Username user)
                   (User.CreatedAt user)) (user_name_claims db) with
        | inl err => inl err
        | inr claims => inr (tt, db <| user_name_claims := claims |>)
        end
    end
  end.

(** [Create]: GORM fills the identity and the two timestamps. *)
Definition Create (user : User.t) : MT User.t :=
  let* now := Now in
  let* id := NextID in
  let* claim_id := NextID in
  let user := user <| User.ID := id |> <| User.CreatedAt := now |>
                   <| User.UpdatedAt := now |> in
  stmt (insert_user user claim_id) ;;;
  mret user.

Definition ClaimUsername (userID : Z) (name : string) (now : time) : MT unit :=
  let* claim_id := NextID in
  let* inserted := stmt (fun db =>
    match claim_holder name db with
    | Some _ => inr (false, db)
    | None =>
        match insert_row "user_name_claims_pkey" claim_id
                (UsernameClaim.mk claim_id userID name now) (user_name_claims db) with
        | inl err => inl err
        | inr claims => inr (true, db <| user_name_claims := claims |>)
        end
    end) in
  if (inserted : bool) then mret tt
  else
    let* owner := query (claim_holder name) in
    match owner with
    | None => throw ErrNotFound
    | Some c =>
        if negb (UsernameClaim.UserID c =? userID) then throw ErrAlreadyExists
        else mret tt
    end.

Definition UpdatePassword (userID : Z) (passwordHash : string) : MT unit :=
  let* affected := stmt (fun db =>
    let '(n, t) := update_where
      (fun u => bool_decide (User.ID u = userID) && live u)
      (fun u => u <| User.PasswordHash := passwordHash |>) (users db) in
    inr (n, db <| users := t |>)) in
  if affected =? 0 then throw ErrNotFound else mret tt.

(** Roles bound to the user, ordered by their text. *)
Definition roles_of (db : DB) (userID : Z) : list string :=
  sort_by String.leb
    (map (fun kv => snd (fst kv))
      (filter (fun kv => fst (fst kv) = userID) (map_to_list (user_roles db)))).

Definition FindRoles (userID : Z) : MT (list UserRole) :=
  query (fun db => roles_of db userID).

Definition FindAvatarURL (userID : Z) : MT (option string) :=
  query (fun db =>
    match users db !! userID with
    | Some u =>
        if live u then
          match User.AvatarImageAssetID u with
          | Some a => ImageAsset.PublicURL <$> image_assets db !! a
          | None => None
          end
        else None
    | None => None
    end).

Definition CreateModerationRecord (record : ModerationRecord.t) : MT unit :=
  let* id := NextID in
  stmt (fun db =>
    match insert_row "moderation_records_pkey" id
            (record <| ModerationRecord.ID := id |>) (moderation_records db) with
    | inl err => inl err
    | inr t => inr (tt, db <| moderation_records := t |>)
    end).
End ops.
End UserRepository.

(** ** VerificationCodeRepository *)
Definition zeroDigest : string :=
  "0000000000000000000000000000000000000000000000000000000000000000".

Module VerificationCodeRepository.
Section ops.
Context `{Env} `{Pg}.
Import EmailVerificationCode.

Definition matches (email purpose : string) (c : t) : bool :=
  bool_decide (pg_lower (Email c) = pg_lower email) && bool_decide (Purpose c = purpose).

Definition fresh_challenge (id : Z) (email purpose : string) (now : time) : t :=
  mk id email purpose zeroDigest now None now 0 0 None now now.

Definition LockOrCreate (email purpose : string) (now : time) : MT t :=
  let* id := NextID in
  stmt (fun db =>
    if exists_row (matches email purpose) (email_verification_codes db) then inr (tt, db)
    else match insert_row "email_verification_codes_pkey" id
                 (fresh_challenge id email purpose now) (email_verification_codes db) with
         | inl err => inl err
         | inr t => inr (tt, db <| email_verification_codes := t |>)
         end) ;;;
  First (fun db => first (matches email purpose) (email_verification_codes db)).

Definition LockExisting (email purpose : string) : MT t :=
  First (fun db => first (matches email purpose) (email_verification_codes db)).

(** The first statement of [SaveState]: the challenge row. *)
Definition save_challenge (challenge : t) (now : time) (db : DB) : DB :=
  db <| email_verification_codes := snd (update_where
    (fun c => bool_decide (ID c = ID challenge))
    (fun c => mk (ID c) (Email c) (Purpose c) (CodeDigest challenge)
                (ExpiresAt challenge) (LastSentAt challenge)
                (SendWindowStartedAt challenge) (SendCount challenge)
                (FailedAttempts challenge) (ConsumedAt challenge) (CreatedAt c) now)
    (email_verification_codes db)) |>.

(** Whether a challenge can still be answered at [now]. *)
Definition usable (c : t) (now : time) : bool :=
  bool_decide (ConsumedAt c = None) && time_After (ExpiresAt c) now &&
  (FailedAttempts c <? 5).

(** Its second statement: the plaintext of every task of this challenge that no
    longer carries the current code is wiped. *)
Definition wipe_codes (challenge : t) (now : time) (db : DB) : DB :=
  db <| verification_email_deliveries := snd (update_where
    (fun d => bool_decide (VerificationEmailDelivery.ChallengeID d = ID challenge) &&
              bool_decide (VerificationEmailDelivery.Code d <> None) &&
              (if usable challenge now
               then negb (bool_decide
                      (VerificationEmailDelivery.CodeDigest d = CodeDigest challenge))
               else true))
    (fun d => d <| VerificationEmailDelivery.Code := None |>)
    (verification_email_deliveries db)) |>.

Definition SaveState (challenge : t) (now : time) : MT unit :=
  exec (save_challenge challenge now) ;;;
  exec (wipe_codes challenge now).
End ops.
End VerificationCodeRepository.

(** ** SessionRepository *)

Record Identity := mkIdentity {
  id_Session : UserSession.t;
  id_User : User.t;
}.

Module SessionRepository.
Section ops.
Context `{Env} `{Pg}.
Import UserSession.

(** The [WHERE] of both identity queries: a live session of a live user who is
    not banned. *)
Definition session_live (now : time) (s : t) : bool :=
  bool_decide (RevokedAt s = None) && (now <? ExpiresAt s).

Definition user_banned (now : time) (u : User.t) : bool :=
  User.BanIsPermanent u ||
  match User.BannedUntil u with Some b => now <? b | None => false end.

Definition user_active (now : time) (u : User.t) : bool :=
  UserRepository.live u && negb (user_banned now u).

(** [identityRow.identity]: the columns the queries do not select stay zero. *)
Definition identity (s : t) (u : User.t) (roles : list string) : Identity :=
  mkIdentity
    (mk (ID s) (UserID s) "" None None None zero_time (LastSeenAt s) (ExpiresAt s)
       (RevokedAt s))
    (u <| User.Roles := Some roles |>).

Definition lookup_identity (p : t -> bool) (sessionID userID : Z) (now : time) (db : DB)
    : option Identity :=
  match user_sessions db !! sessionID, users db !! userID with
  | Some s, Some u =>
      if bool_decide (UserID s = userID) && p s && session_live now s && user_active now u
      then Some (identity s u (UserRepository.roles_of db userID))
      else None
  | _, _ => None
  end.

Definition FindActiveIdentity (sessionID userID : Z) (now : time) : MT Identity :=
  let* r := query (lookup_identity (fun _ => true) sessionID userID now) in
  match r with Some i => mret i | None => throw ErrNotFound end.

Definition FindRefreshIdentity (sessionID userID : Z) (digest : string) (now : time)
    : MT Identity :=
  let* r := query (lookup_identity
    (fun s => bool_decide (RefreshTokenDigest s = digest)) sessionID userID now) in
  match r with Some i => mret i | None => throw ErrNotFound end.

Definition Create (session : t) : MT t :=
  let* id := NextID in
  let session := session <| ID := id |> in
  stmt (fun db =>
    if exists_row (fun s => bool_decide
         (RefreshTokenDigest s = RefreshTokenDigest session)) (user_sessions db)
    then inl (unique_violation "uq_user_sessions_digest")
    else match insert_row "user_sessions_pkey" id session (user_sessions db) with
         | inl err => inl err
         | inr t => inr (tt, db <| user_sessions := t |>)
         end) ;;;
  mret session.

Definition set_digest (sessionID : Z) (digest : string) (db : DB) : DB :=
  db <| user_sessions := alter (fun s => s <| RefreshTokenDigest := digest |>) sessionID
          (user_sessions db) |>.

Definition SetRefreshDigest (sessionID : Z) (digest : string) : MT unit :=
  stmt (fun db =>
    if exists_row (fun s => bool_decide (RefreshTokenDigest s = digest) &&
                            negb (bool_decide (ID s = sessionID))) (user_sessions db)
    then inl (unique_violation "uq_user_sessions_digest")
    else inr (tt, set_digest sessionID digest db)).

Definition touch_row (sessionID : Z) (now : time) (threshold : duration) (s : t) : t :=
  if bool_decide (ID s = sessionID) && bool_decide (RevokedAt s = None) &&
     (now <? ExpiresAt s) && (LastSeenAt s <=? time_Add now (- threshold))
  then s <| LastSeenAt := now |> else s.

Definition Touch (sessionID : Z) (now : time) (threshold : duration) : MT unit :=
  exec (fun db => db <| user_sessions :=
    touch_row sessionID now threshold <$> user_sessions db |>).

Definition revoke_row (now : time) (s : t) : t :=
  s <| RevokedAt := Some (Z.max now (LastSeenAt s)) |>.

Definition Revoke (userID sessionID : Z) (now : time) : MT unit :=
  let* affected := stmt (fun db =>
    let '(n, ss) := update_where
      (fun s => bool_decide (ID s = sessionID) && bool_decide (UserID s = userID) &&
                bool_decide (RevokedAt s = None) && (now <? ExpiresAt s))
      (revoke_row now) (user_sessions db) in
    inr (n, db <| user_sessions := ss |>)) in
  if affected =? 0 then throw ErrNotFound else mret tt.

Definition revoke_all (userID : Z) (now : time) (db : DB) : DB :=
  db <| user_sessions := snd (update_where
    (fun s => bool_decide (UserID s = userID) && bool_decide (RevokedAt s = None))
    (revoke_row now) (user_sessions db)) |>.

Definition RevokeAll (userID : Z) (now : time) : MT unit := exec (revoke_all userID now).

(** [ORDER BY last_seen_at DESC, id DESC]. *)
Definition recent_first (a b : t) : bool :=
  if LastSeenAt b <? LastSeenAt a then true
  else if LastSeenAt a =? LastSeenAt b then ID b <=? ID a else false.

Definition ListActive (userID : Z) (now : time) : MT (list t) :=
  query (fun db => sort_by recent_first
    (select (fun s => bool_decide (UserID s = userID) && session_live now s)
       (user_sessions db))).
End ops.
End SessionRepository.
