(* ===== verification/AuthService.v ===== *)
(** * The auth service: [internal/service/auth.go]

    Verification-code challenges, registration, login, refresh, sessions and
    password reset, each method in full: its guards and early returns in the code's
    order, every repository call, every reading of the clock and of the random
    source, every conversion to [apierr.Internal].

    The collaborators the service is handed are records of operations
    ([DeliveryQueue], [ContentModerator], [Sender]); the e-mail outbox implements
    the first. *)

From S2P Require Import Prelude.
From S2P Require Import GoText.
From S2P Require Import Apierr.
From S2P Require Import Effects.
From S2P Require Import Model.
From S2P Require Import Authz.
From S2P Require Import Validation.
From S2P Require Import Digest.
From S2P Require Import Ptime.
From S2P Require Import AuthRepo.
Open Scope Z_scope.

(** ** Configuration *)
Record Config := mkConfig {
  EmailVerificationRequired : bool;
  EmailVerificationSecret : string;
  JWTSecretKey : string;
  JWTExpireMinutes : Z;
  JWTRefreshExpireDay : Z;
  AllowedEmailDomains : string;
}.

Definition AccessTokenTTL (c : Config) : duration := wrap64 (JWTExpireMinutes c * Minute).
Definition RefreshTokenTTL (c : Config) : duration :=
  wrap64 (wrap64 (JWTRefreshExpireDay c * 24) * Hour).

Fixpoint split_commas (cur : string) (s : string) : list string :=
  match s with
  | EmptyString => [cur]
  | String a s' =>
      if bool_decide (a = ","%char) then cur :: split_commas EmptyString s'
      else split_commas (cur +:+ String a EmptyString) s'
  end.

Definition splitCSV (s : string) : list string :=
  filter (fun p => p <> ""%string) (map TrimSpace (split_commas EmptyString s)).

(** ** Collaborators *)
(** [VerificationEmailSender]; the two availability probes are optional methods
    the code finds by type assertion. *)
Record Sender := mkSender {
  SendRegistrationCode : nat -> string -> string -> option goerr;
  SendPasswordResetCode_ : nat -> string -> string -> option goerr;
  Configured : option bool;
  PasswordResetConfigured : option bool;
}.

Definition emailSenderConfigured (sender : option Sender) : bool :=
  match sender with
  | None => false
  | Some s => match Configured s with Some b => b | None => true end
  end.

Definition passwordResetSenderConfigured (sender : option Sender) : bool :=
  match sender with
  | Some s => match PasswordResetConfigured s with
              | Some b => b
              | None => emailSenderConfigured sender
              end
  | None => emailSenderConfigured sender
  end.

(** [VerificationEmailDeliveryQueue]. *)
Record DeliveryQueue := mkDeliveryQueue {
  Enqueue : EmailVerificationCode.t -> string -> string -> string -> string -> time -> MT Z;
  Kick : AfterOp;
}.

(** [ContentModerator], called inside the transaction; the number is a time
    stamp, so that two calls may answer differently. *)
Record ModerationRequest := mkModerationRequest {
  mq_Target : string; mq_Field : option string; mq_Text : string }.
Record ModerationResult := mkModerationResult {
  mr_Provider : string;
  mr_ProviderJobID : option string;
  mr_Verdict : string;
  mr_Labels : list string;
  mr_Score : option Z;
  mr_RawResponse : string;
}.
Record ContentModerator := mkContentModerator {
  Review : nat -> ModerationRequest -> goerr + ModerationResult;
}.

Record AuthService := mkAuthService {
  cfg : Config;
  sender : option Sender;
  deliveries : option DeliveryQueue;
  moderator : ContentModerator;
}.

(** ** Data *)
Record ClientInfo := mkClientInfo { ci_DeviceLabel : string; ci_UserAgent : string; ci_IP : string }.
Record UserView := mkUserView {
  uv_ID : Z; uv_Email : string; uv_Username : string; uv_Gender : option string;
  uv_Bio : option string; uv_Roles : list string; uv_AvatarURL : option string }.
Record AuthResult := mkAuthResult {
  ar_Token : string; ar_RefreshToken : string; ar_User : UserView }.
Record TokenResult := mkTokenResult { tr_Token : string; tr_RefreshToken : string }.
Record Principal := mkPrincipal { pr_User : User.t; pr_SessionID : Z }.

Definition verificationCodeTTL : duration := 10 * Minute.
Definition verificationSendCooldown : duration := Minute.
Definition verificationSendWindow : duration := Hour.
Definition maxSendsPerWindow : Z := 5.
Definition maxFailedAttempts : Z := 5.
Definition sessionTouchThreshold : duration := 5 * Minute.

Definition errInvalidCredentials : goerr := ENew "auth: invalid credentials".
Definition errInvalidSession : goerr := ENew "auth: invalid session".

Definition invalid_code : Error := BadRequest BizVerifyCodeInvalid "验证码无效或已过期".
Definition bad_credentials : Error := WithCause Unauthorized errInvalidCredentials.

(** The before-commit operations of the service layer. *)
Definition interp_before `{Env} (op : BeforeOp) : MT unit :=
  match op with
  | SessionTouch sid now => SessionRepository.Touch sid now sessionTouchThreshold
  end.

(** ** Send-rate arithmetic *)
(** [math.Ceil(remaining.Seconds())], exact below 2^23 seconds, at least one. *)
Definition retry_seconds (remaining : duration) : Z :=
  Z.max 1 (- ((- remaining) / Second)).

Definition rateLimitError (remaining : duration) : goerr :=
  ERateLimit (retry_seconds remaining)
    (EApi (TooManyRequests BizVerifyCodeTooMany "验证码发送过于频繁，请稍后再试")).

Section auth.
Context `{Env} `{Pg} `{Unicode} `{Mail} `{JWT} `{Bcrypt}.
Import EmailVerificationCode.

Definition cooldown_remaining (challenge : t) (now : time) : duration :=
  match LastSentAt challenge with
  | Some last => wrap64 (verificationSendCooldown - time_Sub now last)
  | None => 0
  end.

(** [enforceSendRate]: the challenge after the call (it resets an expired
    window in place) and the error. *)
Definition enforceSendRate (challenge : t) (now : time) : t * option goerr :=
  let remaining := cooldown_remaining challenge now in
  if 0 <? remaining then (challenge, Some (rateLimitError remaining))
  else
    let challenge :=
      if verificationSendWindow <=? time_Sub now (SendWindowStartedAt challenge)
      then challenge <| SendWindowStartedAt := now |> <| SendCount := 0 |>
      else challenge in
    if maxSendsPerWindow <=? SendCount challenge
    then (challenge, Some (rateLimitError
            (wrap64 (verificationSendWindow - time_Sub now (SendWindowStartedAt challenge)))))
    else (challenge, None).

(** The new state of a challenge a code is sent for. *)
Definition issue_code (challenge : t) (digest : string) (now : time) : t :=
  challenge <| CodeDigest := digest |>
            <| ExpiresAt := time_Add now verificationCodeTTL |>
            <| LastSentAt := Some now |>
            <| SendCount := wrap32 (SendCount challenge + 1) |>
            <| FailedAttempts := 0 |>
            <| ConsumedAt := None |>.

Definition EmailDomains (c : Config) : list string :=
  splitCSV (ToLower (AllowedEmailDomains c)).

Definition domainAllowed (s : AuthService) (email : string) : bool :=
  existsb (fun allowed => bool_decide (emailDomain email = allowed)) (EmailDomains (cfg s)).

Definition codeDigest (s : AuthService) (purpose email code : string) : string :=
  hex_encode (hmac_sha256 (EmailVerificationSecret (cfg s))
    (purpose +:+ ":" +:+ email +:+ ":" +:+ code)).

(** [generateVerificationCode] and [randomDigest]. *)
Definition generateVerificationCode : MT string :=
  let* n := RandInt 1000000 in
  match n with
  | Some v => mret (fmt_06d v)
  | None => throw (ENew "crypto/rand")
  end.

Definition randomDigest : MT string :=
  let* b := RandRead 32 in
  match b with
  | Some random => mret (Digest random)
  | None => throw (ENew "crypto/rand")
  end.

Definition send_unavailable : Error :=
  ServiceUnavailable "验证码暂时无法发送，请稍后再试".

Definition enqueueVerificationEmail (s : AuthService) (challenge : t)
    (email purpose digest code : string) (now : time) : MT unit :=
  match emailSenderConfigured (sender s), deliveries s with
  | true, Some queue =>
      on_error (Enqueue queue challenge email purpose digest code now) internal ;;;
      AfterCommit (Kick queue) ;;;
      mret tt
  | _, _ => api_error send_unavailable
  end.

Definition has_queue (s : AuthService) : bool :=
  match deliveries s with Some _ => true | None => false end.

(** A lookup whose [ErrNotFound] is an answer and whose other errors are
    internal. *)
Definition lookup_user (m : MT User.t) : MT (option User.t) :=
  let* r := attempt m in
  match r with
  | inr u => mret (Some u)
  | inl err => if is_not_found err then mret None else internal err
  end.

Definition SendVerificationCode (s : AuthService) (rawEmail : string) : MT unit :=
  match normalizeEmail rawEmail with
  | inl err => throw err
  | inr email =>
      if negb (EmailVerificationRequired (cfg s)) then mret tt
      else if negb (domainAllowed s email) then mret tt
      else if negb (emailSenderConfigured (sender s)) || negb (has_queue s)
      then api_error send_unavailable
      else
        let* found := lookup_user (UserRepository.FindByEmail email true) in
        let registered := match found with Some _ => true | None => false end in
        let* now := Now in
        let* challenge := on_error (VerificationCodeRepository.LockOrCreate email
                            VerificationPurposeRegistration now) internal in
        match enforceSendRate challenge now with
        | (_, Some err) => throw err
        | (challenge, None) =>
            let* dc := on_error
              (if registered
               then let* d := randomDigest in mret (d, ""%string)
               else let* code := generateVerificationCode in
                    mret (codeDigest s VerificationPurposeRegistration email code, code))
              internal in
            let '(digest, code) := dc in
            let challenge := issue_code challenge digest now in
            on_error (VerificationCodeRepository.SaveState challenge now) internal ;;;
            if registered then mret tt
            else enqueueVerificationEmail s challenge email
                   VerificationPurposeRegistration digest code now
        end
  end.

Definition SendPasswordResetCode (s : AuthService) (rawEmail : string) : MT unit :=
  match normalizeEmail rawEmail with
  | inl err => throw err
  | inr email =>
      if negb (EmailVerificationRequired (cfg s))
      then api_error (ServiceUnavailable "密码重置暂不可用")
      else if negb (passwordResetSenderConfigured (sender s)) || negb (has_queue s)
      then api_error send_unavailable
      else
        let* found := lookup_user (UserRepository.FindByEmail email false) in
        let* locked :=
          match found with
          | Some u => lookup_user (UserRepository.LockByID (User.ID u))
          | None => mret None
          end in
        let* now := Now in
        let* challenge := on_error (VerificationCodeRepository.LockOrCreate email
                            VerificationPurposePasswordReset now) internal in
        match enforceSendRate challenge now with
        | (_, Some _) => mret tt
        | (challenge, None) =>
            let* code := on_error generateVerificationCode internal in
            let* digest := on_error
              (match locked with
               | Some _ => mret (codeDigest s VerificationPurposePasswordReset email code)
               | None => randomDigest
               end) internal in
            let challenge := issue_code challenge digest now in
            on_error (VerificationCodeRepository.SaveState challenge now) internal ;;;
            match locked with
            | None => mret tt
            | Some user =>
                enqueueVerificationEmail s challenge (User.Email user)
                  VerificationPurposePasswordReset digest code now
            end
        end
  end.

(** ** Consuming a code *)
Definition challenge_dead (challenge : t) (now : time) : bool :=
  bool_decide (ConsumedAt challenge <> None) ||
  negb (time_After (ExpiresAt challenge) now) ||
  (maxFailedAttempts <=? FailedAttempts challenge).

Definition consumeVerification (s : AuthService) (purpose email code : string) : MT unit :=
  let* now := Now in
  let* r := attempt (VerificationCodeRepository.LockExisting email purpose) in
  match r with
  | inl err => if is_not_found err then api_error invalid_code else internal err
  | inr challenge =>
      if challenge_dead challenge now then api_error invalid_code
      else if negb (bool_decide (CodeDigest challenge = codeDigest s purpose email code)) then
        on_error (VerificationCodeRepository.SaveState
          (challenge <| FailedAttempts := wrap32 (FailedAttempts challenge + 1) |>) now)
          internal ;;;
        throw (EPersisted (EApi invalid_code))
      else
        on_error (VerificationCodeRepository.SaveState
          (challenge <| ConsumedAt := Some now |>) now) internal
  end.

(** ** Sessions *)
Definition unknown_device : string := "未知设备".

Definition or_else {A} (o p : option A) : option A :=
  match o with Some _ => o | None => p end.

Definition newSession (userID : Z) (client : ClientInfo) (digest : string)
    (now : time) (ttl : duration) : UserSession.t :=
  let userAgent := optionalString (ci_UserAgent client) 512 in
  let deviceLabel := optionalString (ci_DeviceLabel client) 100 in
  let deviceLabel := or_else deviceLabel
    (match userAgent with Some ua => optionalString ua 100 | None => None end) in
  let deviceLabel := or_else deviceLabel (Some unknown_device) in
  UserSession.mk 0 userID digest deviceLabel userAgent (optionalString (ci_IP client) 45)
    now now (time_Add now ttl) None.

Definition userView (user : User.t) : MT UserView :=
  let* avatarURL := on_error (UserRepository.FindAvatarURL (User.ID user)) internal in
  let* roles :=
    match User.Roles user with
    | Some roles => mret roles
    | None => on_error (UserRepository.FindRoles (User.ID user)) internal
    end in
  mret (mkUserView (User.ID user) (User.Email user) (User.Username user)
          (User.Gender user) (User.Bio user) roles avatarURL).

Definition sign (s : AuthService) (userID sessionID : Z) (typ : TokenType)
    (now : time) (ttl : duration) : MT string :=
  match SignAt (JWTSecretKey (cfg s)) userID sessionID typ now ttl with
  | Some tok => mret tok
  | None => internal (ENew "jwt: sign")
  end.

Definition issueSession (s : AuthService) (user : User.t) (client : ClientInfo)
    (now : time) : MT AuthResult :=
  let* placeholder := on_error randomDigest internal in
  let* session := on_error (SessionRepository.Create
    (newSession (User.ID user) client placeholder now (RefreshTokenTTL (cfg s)))) internal in
  if (int64_max <? User.ID user) || (int64_max <? UserSession.ID session)
  then internal (ENew "用户或会话 ID 超出 JWT 可表示范围")
  else
    let* refresh := sign s (User.ID user) (UserSession.ID session) TypeRefresh now
                      (RefreshTokenTTL (cfg s)) in
    let* access := sign s (User.ID user) (UserSession.ID session) TypeAccess now
                     (AccessTokenTTL (cfg s)) in
    on_error (SessionRepository.SetRefreshDigest (UserSession.ID session)
                (Digest refresh)) internal ;;;
    let* view := userView user in
    mret (mkAuthResult access refresh view).

(** [claimIDs]. *)
Definition claimIDs (claims : Claims) : goerr + Z * Z :=
  match UserID claims with
  | Some userID =>
      if (userID <=? 0) || (SessionID claims <=? 0) then inl ErrInvalid
      else inr (userID, SessionID claims)
  | None => inl ErrInvalid
  end.

Definition sessionLookupError {A} (err : goerr) : MT A :=
  if is_not_found err then api_error (WithCause Unauthorized errInvalidSession)
  else internal err.

Definition deferSessionTouch (sessionID : Z) (now : time) : MT unit :=
  BeforeCommit (SessionTouch sessionID now).

(** [s.tokens.Parse], which reads the clock inside the JWT library, then
    [claimIDs]; every failure is the same 401. *)
Definition parse_claims (s : AuthService) (token : string) (typ : TokenType) : MT (Z * Z) :=
  let* t := Now in
  match Parse (JWTSecretKey (cfg s)) t token typ with
  | inl err => api_error (WithCause Unauthorized err)
  | inr claims =>
      match claimIDs claims with
      | inl err => api_error (WithCause Unauthorized err)
      | inr ids => mret ids
      end
  end.

Definition Refresh (s : AuthService) (refreshToken : string) : MT TokenResult :=
  if bool_decide (TrimSpace refreshToken = ""%string)
  then api_error (WithCause Unauthorized ErrInvalid)
  else
    let* ids := parse_claims s refreshToken TypeRefresh in
    let '(userID, sessionID) := ids in
    let* now := Now in
    let* identity := on_error (SessionRepository.FindRefreshIdentity sessionID userID
                        (Digest refreshToken) now) sessionLookupError in
    let* access := sign s (User.ID (id_User identity)) (UserSession.ID (id_Session identity))
                     TypeAccess now (AccessTokenTTL (cfg s)) in
    on_error (deferSessionTouch sessionID now) internal ;;;
    mret (mkTokenResult access refreshToken).

Definition Authenticate (s : AuthService) (accessToken : string) : MT Principal :=
  let* ids := parse_claims s accessToken TypeAccess in
  let '(userID, sessionID) := ids in
  let* now := Now in
  let* identity := on_error (SessionRepository.FindActiveIdentity sessionID userID now)
                     sessionLookupError in
  on_error (deferSessionTouch sessionID now) internal ;;;
  mret (mkPrincipal (id_User identity) (UserSession.ID (id_Session identity))).

Definition CurrentUser (principal : Principal) : MT UserView := userView (pr_User principal).

Definition Logout (principal : Principal) : MT unit :=
  let* now := Now in
  on_error (SessionRepository.Revoke (User.ID (pr_User principal))
              (pr_SessionID principal) now)
    (fun err => if is_not_found err
                then api_error (WithCause Unauthorized errInvalidSession)
                else internal err).

Definition LogoutAll (principal : Principal) : MT unit :=
  let* now := Now in
  on_error (SessionRepository.RevokeAll (User.ID (pr_User principal)) now) internal.

Record SessionView := mkSessionView {
  sv_ID : Z; sv_DeviceLabel : option string; sv_UserAgent : option string;
  sv_IP : option string; sv_CreatedAt : time; sv_LastSeenAt : time;
  sv_ExpiresAt : time; sv_IsCurrent : bool }.

Definition session_view (principal : Principal) (row : UserSession.t) : SessionView :=
  mkSessionView (UserSession.ID row) (UserSession.DeviceLabel row)
    (UserSession.UserAgent row) (UserSession.IP row) (UserSession.CreatedAt row)
    (UserSession.LastSeenAt row) (UserSession.ExpiresAt row)
    (UserSession.ID row =? pr_SessionID principal).

Definition Sessions (principal : Principal) : MT (list SessionView) :=
  let* now := Now in
  let* rows := on_error (SessionRepository.ListActive (User.ID (pr_User principal)) now)
                 internal in
  mret (map (session_view principal) rows).

Definition KickSession (principal : Principal) (sessionID : Z) : MT unit :=
  let* now := Now in
  on_error (SessionRepository.Revoke (User.ID (pr_User principal)) sessionID now)
    (fun err => if is_not_found err
                then api_error (NotFound BizSessionNotFound "会话")
                else internal err).

(** ** Bans *)
Definition banned (user : User.t) (now : time) : bool :=
  User.BanIsPermanent user ||
  match User.BannedUntil user with Some until => time_After until now | None => false end.

Definition bannedError (user : User.t) : Error :=
  let reason :=
    match User.BanReason user with
    | Some r => if bool_decide (TrimSpace r = ""%string) then "账号违反平台规则"%string else r
    | None => "账号违反平台规则"%string
    end in
  if User.BanIsPermanent user
  then Forbidden BizAccountBanned ("账号已被永久封禁：" +:+ reason)
  else Forbidden BizAccountBanned
         ("账号已被封禁至 " +:+
          (match User.BannedUntil user with Some t => Format t | None => "" end)
          +:+ "：" +:+ reason).

(** ** Password reset, registration, login *)
Record PasswordResetInput := mkPasswordResetInput {
  pi_Email : string; pi_VerificationCode : string; pi_NewPassword : string }.
Record LoginInput := mkLoginInput { li_Identifier : string; li_Password : string }.

(** [passwordx.Hash] salts with the random source. *)
Definition hash_password (plain : string) : MT string := fun tx =>
  (Hash (c_rand (tx_ctr tx)) plain, set_ctr (fun c => c <| c_rand := S (c_rand c) |>) tx).

Definition found_or_invalid_code (m : MT User.t) : MT User.t :=
  on_error m (fun err => if is_not_found err then api_error invalid_code else internal err).

Definition ResetPassword (s : AuthService) (input : PasswordResetInput) : MT unit :=
  match normalizeEmail (pi_Email input) with
  | inl err => throw err
  | inr email =>
      lift (validatePasswordField "new_password" (pi_NewPassword input) true) ;;;
      lift (validateVerificationCode (Some (pi_VerificationCode input))) ;;;
      let* user := found_or_invalid_code (UserRepository.FindByEmail email false) in
      let* user := found_or_invalid_code (UserRepository.LockByID (User.ID user)) in
      consumeVerification s VerificationPurposePasswordReset email
        (pi_VerificationCode input) ;;;
      let* hash := on_error (hash_password (pi_NewPassword input)) internal in
      on_error (UserRepository.UpdatePassword (User.ID user) hash) internal ;;;
      let* now := Now in
      on_error (SessionRepository.RevokeAll (User.ID user) now) internal
  end.

Definition moderationRecordForUser (userID : Z) (field : string) (result : ModerationResult)
    (now : time) : ModerationRecord.t :=
  ModerationRecord.mk 0 None None None None (Some userID) (Some field) None None None
    ModerationSceneText (mr_Provider result) (mr_ProviderJobID result) (mr_Verdict result)
    (mr_Labels result) (mr_Score result) (mr_RawResponse result) None None None now.

Definition moderationVerdictError (verdict field : string) : Error :=
  if bool_decide (verdict = ModerationVerdictReview)
  then Conflict BizContentUnderAudit (field +:+ " 正在审核")
  else Conflict BizContentRejected (field +:+ " 未通过内容审核").

Definition validateModerationResult (result : ModerationResult) : MT unit :=
  if bool_decide (TrimSpace (mr_Provider result) = ""%string)
  then internal (ENew "审核供应商返回了空 provider")
  else if negb (bool_decide (mr_Verdict result = ModerationVerdictPass)) &&
          negb (bool_decide (mr_Verdict result = ModerationVerdictReview)) &&
          negb (bool_decide (mr_Verdict result = ModerationVerdictBlock))
  then internal (ENew "审核供应商返回了未知 verdict")
  else mret tt.

Definition call_review (m : ContentModerator) (req : ModerationRequest) : MT ModerationResult :=
  fun tx => (Review m (c_stmt (tx_ctr tx)) req, tx).

Definition email_taken : Error := Conflict BizEmailTaken "邮箱已被注册".
Definition username_taken : Error := Conflict BizUsernameTaken "用户名已被占用".

Definition Register (s : AuthService) (raw : RegisterInput) (client : ClientInfo)
    : MT AuthResult :=
  match normalizeRegister raw with
  | inl err => throw err
  | inr input =>
      if negb (domainAllowed s (ri_Email input))
      then api_error (InvalidField "email" FieldInvalidDomain "该邮箱域名不允许注册")
      else
        (if EmailVerificationRequired (cfg s)
         then lift (validateVerificationCode (ri_VerificationCode input))
         else mret tt) ;;;
        let* taken := lookup_user (UserRepository.FindByEmail (ri_Email input) true) in
        match taken with
        | Some _ => api_error email_taken
        | None =>
            (if EmailVerificationRequired (cfg s)
             then consumeVerification s VerificationPurposeRegistration (ri_Email input)
                    (valueOrEmpty (ri_VerificationCode input))
             else mret tt) ;;;
            let* moderation := call_review (moderator s)
              (mkModerationRequest "user" (Some ModerationFieldName)
                 (valueOrEmpty (ri_Username input))) in
            validateModerationResult moderation ;;;
            if negb (bool_decide (mr_Verdict moderation = ModerationVerdictPass))
            then api_error (moderationVerdictError (mr_Verdict moderation) "用户名")
            else
              let* hash := on_error (hash_password (ri_Password input)) internal in
              let* user := on_error (UserRepository.Create
                (User.mk 0 (ri_Email input) hash (valueOrEmpty (ri_Username input))
                   (ri_Gender input) None None None false None None None None
                   zero_time zero_time))
                (fun err =>
                   if IsUniqueViolation err "uq_users_email_lower" then api_error email_taken
                   else if IsUniqueViolation err "uq_users_name_lower" ||
                           IsUniqueViolation err "uq_user_name_claims_name_lower"
                   then api_error username_taken
                   else internal err) in
              let* now := Now in
              on_error (UserRepository.ClaimUsername (User.ID user) (User.Username user) now)
                (fun err =>
                   if IsUniqueViolation err "uq_user_name_claims_name_lower" ||
                      IsUniqueViolation err "uq_users_name_lower" ||
                      err_is ErrAlreadyExistsText err
                   then api_error username_taken
                   else internal err) ;;;
              let* now := Now in
              on_error (UserRepository.CreateModerationRecord
                (moderationRecordForUser (User.ID user) ModerationFieldName moderation now))
                internal ;;;
              let* now := Now in
              issueSession s user client now
        end
  end.

Definition findLoginUser (s : AuthService) (rawIdentifier : string) : MT User.t :=
  let identifier := TrimSpace rawIdentifier in
  if bool_decide (identifier = ""%string)
  then api_error (InvalidField "identifier" FieldRequired "登录标识不能为空")
  else if Contains identifier "@" then
    match normalizeEmail identifier with
    | inl _ => api_error (InvalidField "identifier" FieldInvalidFormat "登录标识格式不正确")
    | inr email =>
        if negb (domainAllowed s email) then api_error bad_credentials
        else UserRepository.FindByEmail email false
    end
  else
    match normalizeUsername identifier with
    | inl _ => api_error (InvalidField "identifier" FieldInvalidFormat "登录标识格式不正确")
    | inr name => UserRepository.FindByUsername name
    end.

Definition Login (s : AuthService) (input : LoginInput) (client : ClientInfo)
    : MT AuthResult :=
  lift (validatePassword (li_Password input) false) ;;;
  let* user := on_error (findLoginUser s (li_Identifier input))
    (fun err =>
       match as_api err with
       | Some _ => throw err
       | None => if negb (is_not_found err) then internal err else api_error bad_credentials
       end) in
  let* user := on_error (UserRepository.LockByID (User.ID user))
    (fun err => if is_not_found err then api_error bad_credentials else internal err) in
  let* r := attempt (findLoginUser s (li_Identifier input)) in
  match r with
  | inl err => if is_not_found err then api_error bad_credentials else internal err
  | inr current =>
      if negb (User.ID current =? User.ID user) then api_error bad_credentials
      else if negb (Verify (li_Password input) (User.PasswordHash user))
      then api_error bad_credentials
      else
        let* now := Now in
        if banned user now then api_error (bannedError user)
        else
          let* now := Now in
          issueSession s user client now
  end.
End auth.
