(* ===== verification/AuthHandler.v ===== *)
(** * The auth endpoints: [internal/handler/auth.go], [internal/router/auth.go]

    Each handler binds its request, calls one service method and answers.  The
    decoding of JSON is the framework's: a handler is given the decoded request, or
    [None] when the body is not a valid JSON object; the aliasing of legacy fields
    on top of it is the code's and is modelled.  [route] is the table of
    [registerAuth], with its [RequireAuth] guards, and [request] runs one HTTP
    request through the whole pipeline of [Middleware]. *)

From S2P Require Import Prelude.
From S2P Require Import GoText.
From S2P Require Import Apierr.
From S2P Require Import Effects.
From S2P Require Import Model.
From S2P Require Import Authz.
From S2P Require Import Middleware.
From S2P Require Import Validation.
From S2P Require Import Digest.
From S2P Require Import AuthRepo.
From S2P Require Import AuthService.
Open Scope Z_scope.

Class JSONLib := {
  (** [json.Unmarshal(raw, &s)] into a [*string]. *)
  Unmarshal_string : string -> option (option string);
}.

(** Request bodies. *)
Record passwordResetConfirmRequest := mkPasswordResetConfirmRequest {
  prc_Email : string; prc_VerificationCode : string; prc_NewPassword : string }.
Record registerRequest := mkRegisterRequest {
  rr_Email : string; rr_Password : string; rr_VerificationCode : option string;
  rr_Username : string; rr_Gender : option string; rr_DeviceLabel : string }.
Record loginRequest := mkLoginRequest {
  lr_Identifier : string; lr_Password : string; lr_DeviceLabel : string;
  lr_legacyEmail : string }.

(** What the handlers see of the request besides its body. *)
Record RequestInfo := mkRequestInfo {
  ri_Authorization : string;
  ri_UserAgent : string;
  ri_ClientIP : string;
}.

(** Response payloads. *)
Inductive Payload :=
| PNull
| PAuth (r : AuthResult)
| PToken (r : TokenResult)
| PUser (u : UserView)
| PSessions (l : list SessionView).

Abbreviation Ctx := (ReqCtx Principal Payload).
Abbreviation AuthH := (Handler DB BeforeOp AfterOp Principal Payload).
Abbreviation HandlerT T := (Handler DB BeforeOp AfterOp Principal T).

(** [normalizeUsernameAlias]; [None] is an error. *)
Definition normalizeUsernameAlias `{JSONLib} (fields : gmap string string)
    : option (gmap string string) :=
  match fields !! "name" with
  | None => Some fields
  | Some legacy =>
      match fields !! "username" with
      | None => Some (<["username" := legacy]> fields)
      | Some current =>
          match Unmarshal_string current, Unmarshal_string legacy with
          | Some a, Some b => if bool_decide (a = b) then Some fields else None
          | _, _ => None
          end
      end
  end.

(** [registerRequest.UnmarshalJSON]: [decode] re-encodes the aliased fields and
    decodes them into the struct. *)
Definition registerRequest_UnmarshalJSON `{JSONLib}
    (decode : gmap string string -> option registerRequest)
    (fields : option (gmap string string)) : option registerRequest :=
  match fields with
  | None => None
  | Some fields =>
      match normalizeUsernameAlias fields with
      | None => None
      | Some fields => decode fields
      end
  end.

Definition loginIdentifier (request : loginRequest) : goerr + string :=
  if negb (bool_decide (lr_Identifier request = ""%string)) &&
     negb (bool_decide (lr_legacyEmail request = ""%string))
  then inl (EApi (InvalidField "identifier" FieldConflict "identifier 与 email 不能同时提供"))
  else if negb (bool_decide (lr_Identifier request = ""%string))
  then inr (lr_Identifier request)
  else inr (lr_legacyEmail request).

Definition clientInfo (info : RequestInfo) (label : string) : ClientInfo :=
  mkClientInfo label (ri_UserAgent info) (ri_ClientIP info).

Definition failService {T} (err : goerr) (c : ReqCtx Principal T) : ReqCtx Principal T :=
  let c := match as_rate_limit err with
           | Some n => c <| rc_headers := rc_headers c ++ [("Retry-After"%string, FormatInt n)] |>
           | None => c
           end in
  let c := if ShouldCommitError err then CommitError c else c in
  Fail (Some err) c.

Definition bindError : goerr :=
  EApi (InvalidField "body" FieldInvalidFormat "请求体必须是合法的 JSON 对象").

(** [if err := bindJSON(...); err != nil { httpx.Fail; return }]. *)
Definition bindJSON {T R} (body : option R) (k : R -> HandlerT T) : HandlerT T := fun c tx =>
  match body with
  | None => Returned (Fail (Some bindError) c) tx
  | Some request => k request c tx
  end.

(** Call the service; [failService] on an error, the envelope otherwise. *)
Definition respond {T R} (m : MT R) (message : string) (payload : R -> T) : HandlerT T :=
  fun c tx =>
    match m tx with
    | (inl err, tx') => Returned (failService err c) tx'
    | (inr v, tx') => Returned (JSON 200 (OK message (payload v)) c) tx'
    end.

(** [principal, err := httpx.CurrentPrincipal(c); if err == nil { ... }]. *)
Definition with_principal {T R} (m : Principal -> MT R) (message : string)
    (payload : R -> T) : HandlerT T := fun c tx =>
  match CurrentPrincipal c with
  | inl err => Returned (failService err c) tx
  | inr principal => respond (m principal) message payload c tx
  end.

Definition null {R} (_ : R) : Payload := PNull.

(** ** The endpoints *)
Section handlers.
Context `{Env} `{Pg} `{Unicode} `{Mail} `{JWT} `{Bcrypt}.
Context (h : AuthService).

Definition SendVerificationCodeHandler (body : option string) : AuthH :=
  bindJSON body (fun email =>
    respond (SendVerificationCode h email)
      "如果该邮箱可以注册，验证码将发送到该邮箱" null).

Definition SendPasswordResetCodeHandler (body : option string) : AuthH :=
  bindJSON body (fun email =>
    respond (SendPasswordResetCode h email)
      "如果该邮箱已绑定可用账号，验证码将发送到该邮箱" null).

Definition ResetPasswordHandler (body : option passwordResetConfirmRequest) : AuthH :=
  bindJSON body (fun r =>
    respond (ResetPassword h (mkPasswordResetInput (prc_Email r)
               (prc_VerificationCode r) (prc_NewPassword r)))
      "密码重置成功，请使用新密码登录" null).

Definition RegisterHandler (info : RequestInfo) (body : option registerRequest) : AuthH :=
  bindJSON body (fun r =>
    respond (Register h
      (mkRegisterInput (rr_Email r) (rr_Password r) (rr_VerificationCode r)
         (Some (rr_Username r)) (rr_Gender r))
      (clientInfo info (rr_DeviceLabel r))) "注册成功" PAuth).

Definition LoginHandler (info : RequestInfo) (body : option loginRequest) : AuthH :=
  bindJSON body (fun r c tx =>
    match loginIdentifier r with
    | inl err => Returned (failService err c) tx
    | inr identifier =>
        respond (Login h (mkLoginInput identifier (lr_Password r))
                   (clientInfo info (lr_DeviceLabel r))) "登录成功" PAuth c tx
    end).

Definition RefreshHandler (body : option string) : AuthH :=
  bindJSON body (fun token => respond (Refresh h token) "刷新成功" PToken).

Definition MeHandler : AuthH := with_principal CurrentUser "请求成功" PUser.
Definition LogoutHandler : AuthH := with_principal Logout "退出成功" null.
Definition LogoutAllHandler : AuthH := with_principal LogoutAll "已退出所有设备" null.
Definition SessionsHandler : AuthH := with_principal Sessions "请求成功" PSessions.

Definition KickSessionHandler (id : string) : AuthH := fun c tx =>
  match ParseUint id with
  | Some sessionID =>
      if sessionID =? 0
      then Returned (Fail (Some (EApi (InvalidField "id" FieldInvalidFormat
             "会话 id 必须是正整数"))) c) tx
      else with_principal (fun p => KickSession p sessionID) "设备已退出" null c tx
  | None => Returned (Fail (Some (EApi (InvalidField "id" FieldInvalidFormat
             "会话 id 必须是正整数"))) c) tx
  end.

(** ** registerAuth *)
Inductive AuthRequest :=
| POST_email_verification_codes (body : option string)
| POST_password_reset_codes (body : option string)
| POST_password_resets (body : option passwordResetConfirmRequest)
| POST_register (body : option registerRequest)
| POST_login (body : option loginRequest)
| POST_refresh (body : option string)
| GET_me
| POST_logout
| POST_logout_all
| GET_sessions
| DELETE_session (id : string).

Definition requireAuth (info : RequestInfo) (next : AuthH) : AuthH :=
  RequireAuth (Authenticate h) (ri_Authorization info) next.

Definition route (info : RequestInfo) (r : AuthRequest) : AuthH :=
  match r with
  | POST_email_verification_codes body => SendVerificationCodeHandler body
  | POST_password_reset_codes body => SendPasswordResetCodeHandler body
  | POST_password_resets body => ResetPasswordHandler body
  | POST_register body => RegisterHandler info body
  | POST_login body => LoginHandler info body
  | POST_refresh body => RefreshHandler body
  | GET_me => requireAuth info MeHandler
  | POST_logout => requireAuth info LogoutHandler
  | POST_logout_all => requireAuth info LogoutAllHandler
  | GET_sessions => requireAuth info SessionsHandler
  | DELETE_session id => requireAuth info (KickSessionHandler id)
  end.

(** One HTTP request through the pipeline. *)
Context {X : Type} (interp_after : AfterOp -> World DB X -> World DB X * option string).

Definition request (random : option string) (info : RequestInfo) (r : AuthRequest)
    (w : World DB X) : Ctx * World DB X :=
  serve interp_before interp_after random (route info r) fresh_request w.

(** The process between requests; anybody may send anything. *)
Inductive auth_step : World DB X -> World DB X -> Prop :=
| step_request random info r w c w' :
    request random info r w = (c, w') -> auth_step w w'.
End handlers.
