(* ===== verification/AuthTables.v ===== *)
(** * The auth tables: their constraints, and that the service keeps them

    [tables_ok] collects what migration 00001 and its successors demand of
    [users], [user_name_claims], [email_verification_codes] and [user_sessions]
    (checks, column widths, unique indexes).  Most of it is never tested by the
    code: no operation may produce a row that the database would refuse. *)

From S2P Require Import Prelude.
From S2P Require Import GoText.
From S2P Require Import Apierr.
From S2P Require Import Effects.
From S2P Require Import Logic.
From S2P Require Import Model.
From S2P Require Import Authz.
From S2P Require Import Middleware.
From S2P Require Import Validation.
From S2P Require Import Digest.
From S2P Require Import AuthRepo.
From S2P Require Import AuthService.
From S2P Require Import AuthHandler.
Open Scope Z_scope.

Definition is_digest (s : string) : Prop :=
  String.length s = 64%nat /\ all_bytes is_lower_hex s = true.

Definition fits (width : Z) (o : option string) : Prop :=
  forall s, o = Some s -> RuneCountInString s <= width.

Record session_ok (s : UserSession.t) : Prop := {
  digest_format : is_digest (UserSession.RefreshTokenDigest s);
  device_label_fits : fits 100 (UserSession.DeviceLabel s);
  user_agent_fits : fits 512 (UserSession.UserAgent s);
  ip_fits : fits 45 (UserSession.IP s);
  expires_after_created : UserSession.CreatedAt s < UserSession.ExpiresAt s;
  seen_after_created : UserSession.CreatedAt s <= UserSession.LastSeenAt s;
  seen_before_expires : UserSession.LastSeenAt s <= UserSession.ExpiresAt s;
  seen_before_revoked : forall r, UserSession.RevokedAt s = Some r ->
    UserSession.LastSeenAt s <= r;
}.

(** [user_sessions_revoked_after_created_check] follows from two others. *)
Lemma revoked_after_created s r :
  session_ok s -> UserSession.RevokedAt s = Some r -> UserSession.CreatedAt s <= r.
Proof. intros Hs Hr. apply Hs in Hr. pose proof (seen_after_created s Hs). lia. Qed.

Record challenge_ok (c : EmailVerificationCode.t) : Prop := {
  code_digest_format : is_digest (EmailVerificationCode.CodeDigest c);
  send_count_bounds : 0 <= EmailVerificationCode.SendCount c <= maxSendsPerWindow;
  failed_attempts_bounds : 0 <= EmailVerificationCode.FailedAttempts c <= maxFailedAttempts;
}.

(** [code ~ '^[0-9]{6}$']. *)
Definition six_digits (code : string) : Prop :=
  String.length code = 6%nat /\ all_bytes is_digit code = true.

Definition purposes : list string :=
  [VerificationPurposeRegistration; VerificationPurposePasswordReset].

Definition terminal_states : list string :=
  [VerificationEmailDeliverySent; VerificationEmailDeliveryCanceled;
   VerificationEmailDeliveryDeadLetter].

(** The checks of migration 00020, and two rules of the code: a lease belongs to
    the state [sending], and a task that will never be sent holds no plaintext. *)
Record delivery_ok (d : VerificationEmailDelivery.t) : Prop := {
  purpose_ok : VerificationEmailDelivery.Purpose d ∈ purposes;
  delivery_digest : String.length (VerificationEmailDelivery.CodeDigest d) = 64%nat;
  delivery_code : forall c, VerificationEmailDelivery.Code d = Some c -> six_digits c;
  state_ok : VerificationEmailDelivery.State d ∈
    VerificationEmailDeliveryPending :: VerificationEmailDeliverySending :: terminal_states;
  attempts_ok : 0 <= VerificationEmailDelivery.Attempts d;
  lease_pair : VerificationEmailDelivery.LeaseToken d = None <->
    VerificationEmailDelivery.LeaseUntil d = None;
  lease_token_ok : forall l, VerificationEmailDelivery.LeaseToken d = Some l ->
    (16 <= String.length l <= 64)%nat;
  error_ok : forall e, VerificationEmailDelivery.LastErrorCode d = Some e ->
    e ∈ ["stale_challenge"; "provider_error"; "delivery_exhausted"]%string;
  sent_ok : VerificationEmailDelivery.State d = VerificationEmailDeliverySent <->
    VerificationEmailDelivery.SentAt d <> None;
  canceled_ok : VerificationEmailDelivery.State d = VerificationEmailDeliveryCanceled <->
    VerificationEmailDelivery.CanceledAt d <> None;
  dead_ok : VerificationEmailDelivery.State d = VerificationEmailDeliveryDeadLetter <->
    VerificationEmailDelivery.DeadLetteredAt d <> None;
  terminal_ok : VerificationEmailDelivery.State d ∈ terminal_states <->
    VerificationEmailDelivery.NextAttemptAt d = None;
  sending_ok : VerificationEmailDelivery.State d = VerificationEmailDeliverySending <->
    VerificationEmailDelivery.LeaseToken d <> None;
  wiped_ok : VerificationEmailDelivery.State d ∈
    [VerificationEmailDeliveryCanceled; VerificationEmailDeliveryDeadLetter] ->
    VerificationEmailDelivery.Code d = None;
}.

Section tables.
Context `{Pg}.

Definition email_key (u : User.t) : string := pg_lower (User.Email u).
Definition code_key (c : EmailVerificationCode.t) : string * string :=
  (pg_lower (EmailVerificationCode.Email c), EmailVerificationCode.Purpose c).
Definition claim_key (c : UsernameClaim.t) : string :=
  UserRepository.fold_name (UsernameClaim.Username c).

Record tables_ok (db : DB) : Prop := {
  users_keyed : keyed User.ID (users db);
  users_email : unique_on all_rows email_key (users db);
  claims_name : unique_on all_rows claim_key (user_name_claims db);
  codes_keyed : keyed EmailVerificationCode.ID (email_verification_codes db);
  codes_unique : unique_on all_rows code_key (email_verification_codes db);
  codes_ok : forall k c, email_verification_codes db !! k = Some c -> challenge_ok c;
  sessions_keyed : keyed UserSession.ID (user_sessions db);
  sessions_digest : unique_on all_rows UserSession.RefreshTokenDigest (user_sessions db);
  sessions_ok : forall k s, user_sessions db !! k = Some s -> session_ok s;
  deliveries_keyed : keyed VerificationEmailDelivery.ID (verification_email_deliveries db);
  deliveries_ok : forall k d, verification_email_deliveries db !! k = Some d -> delivery_ok d;
}.
End tables.

Lemma hmac_sha256_length k m : String.length (hmac_sha256 k m) = 32%nat.
Proof. unfold hmac_sha256. by rewrite length_string_of. Qed.

Lemma codeDigest_format s purpose email code : is_digest (codeDigest s purpose email code).
Proof.
  split; [|apply hex_encode_lower]. unfold codeDigest.
  by rewrite hex_encode_length, hmac_sha256_length.
Qed.

Lemma Digest_format token : is_digest (Digest token).
Proof. split; [apply Digest_length | apply hex_encode_lower]. Qed.

Lemma zeroDigest_format : is_digest zeroDigest.
Proof. by split. Qed.

#[export] Hint Resolve codeDigest_format Digest_format zeroDigest_format : core.
#[local] Opaque Sum256 hmac_sha256 hex_encode.

(** ** The repositories *)
Section repositories.
Context `{EnvOk} `{Pg}.
Abbreviation Inv_ok := (Inv (B := BeforeOp) (A := AfterOp) tables_ok).

Lemma inv_First {R} (f : DB -> option R) (phi : R -> Prop) :
  (forall db r, tables_ok db -> f db = Some r -> phi r) -> Inv_ok (First f) phi.
Proof.
  intros Hf. unfold First. eapply (inv_bind _ _ _ (fun o => forall r, o = Some r -> phi r)).
  - apply inv_query. eauto.
  - intros [r|] Hr; [apply inv_mret; eauto | apply inv_throw].
Qed.

(** A tables update that only concerns one table: the rest of [tables_ok] is
    untouched. *)
Lemma ok_users db t :
  tables_ok db -> keyed User.ID t -> unique_on all_rows email_key t ->
  tables_ok (db <| users := t |>).
Proof. intros [] ??. by constructor. Qed.

Lemma ok_claims db t :
  tables_ok db -> unique_on all_rows claim_key t ->
  tables_ok (db <| user_name_claims := t |>).
Proof. intros [] ?. by constructor. Qed.

Lemma ok_codes db t :
  tables_ok db -> keyed EmailVerificationCode.ID t -> unique_on all_rows code_key t ->
  (forall k c, t !! k = Some c -> challenge_ok c) ->
  tables_ok (db <| email_verification_codes := t |>).
Proof. intros [] ???. by constructor. Qed.

Lemma ok_sessions db t :
  tables_ok db -> keyed UserSession.ID t ->
  unique_on all_rows UserSession.RefreshTokenDigest t ->
  (forall k s, t !! k = Some s -> session_ok s) ->
  tables_ok (db <| user_sessions := t |>).
Proof. intros [] ???. by constructor. Qed.

Lemma ok_deliveries db t :
  tables_ok db -> keyed VerificationEmailDelivery.ID t ->
  (forall k d, t !! k = Some d -> delivery_ok d) ->
  tables_ok (db <| verification_email_deliveries := t |>).
Proof. intros [] ??. by constructor. Qed.

Lemma ok_deliveries_fmap db f :
  (forall d, VerificationEmailDelivery.ID (f d) = VerificationEmailDelivery.ID d) ->
  (forall d, delivery_ok d -> delivery_ok (f d)) -> tables_ok db ->
  tables_ok (db <| verification_email_deliveries :=
    f <$> verification_email_deliveries db |>).
Proof.
  intros Hid Hf Hdb. apply ok_deliveries; [done|..].
  - apply keyed_fmap; [done | by apply deliveries_keyed].
  - apply rows_fmap; [done | by apply deliveries_ok].
Qed.

Lemma wiped_delivery_ok d :
  delivery_ok d -> delivery_ok (d <| VerificationEmailDelivery.Code := None |>).
Proof. intros []. by constructor. Qed.

Lemma ok_records db t : tables_ok db -> tables_ok (db <| moderation_records := t |>).
Proof. intros []. by constructor. Qed.

(** *** UserRepository *)
Lemma inv_FindByEmail email b : Inv_ok (UserRepository.FindByEmail email b) any.
Proof. by apply inv_First. Qed.
Lemma inv_FindByUsername name : Inv_ok (UserRepository.FindByUsername name) any.
Proof. by apply inv_First. Qed.
Lemma inv_LockByID uid : Inv_ok (UserRepository.LockByID uid) any.
Proof. by apply inv_First. Qed.
Lemma inv_FindAvatarURL uid : Inv_ok (UserRepository.FindAvatarURL uid) any.
Proof. by apply inv_query. Qed.
Lemma inv_FindRoles uid : Inv_ok (UserRepository.FindRoles uid) any.
Proof. by apply inv_query. Qed.

(** A claim no other row holds keeps the claims' names unique. *)
Lemma claim_insert db k c name :
  tables_ok db -> UsernameClaim.Username c = name ->
  UserRepository.claim_holder name db = None ->
  tables_ok (db <| user_name_claims := <[k := c]> (user_name_claims db) |>).
Proof.
  intros Hdb <- Hn. apply ok_claims; [done|].
  apply unique_insert; [by apply claims_name|].
  intros k' c' Hk Heq. unfold UserRepository.claim_holder in Hn.
  rewrite first_None in Hn. apply Hn in Hk.
  rewrite bool_decide_eq_false in Hk. by unfold claim_key in Heq.
Qed.

Lemma insert_user_ok user cid db r db' :
  tables_ok db -> UserRepository.insert_user user cid db = inr (r, db') -> tables_ok db'.
Proof.
  intros Hdb. unfold UserRepository.insert_user.
  destruct (exists_row (UserRepository.same_email _) _) eqn:He; [done|].
  destruct (exists_row (UserRepository.same_name _) _); [done|].
  rewrite exists_row_false in He.
  destruct (insert_row "users_pkey" _ _ _) as [|t] eqn:Ht; [done|].
  apply insert_row_inr in Ht as [_ ->].
  set (db1 := db <| users := _ |>).
  assert (tables_ok db1) as Hdb1.
  { apply ok_users; [done|..].
    - apply keyed_insert; [by apply users_keyed | done].
    - apply unique_insert; [by apply users_email|]. intros k' u' Hk Heq.
      apply He in Hk. unfold UserRepository.same_email in Hk.
      by rewrite bool_decide_eq_false in Hk. }
  destruct (UserRepository.claim_holder _ db1) eqn:Hc; [case_match; naive_solver|].
  destruct (insert_row "user_name_claims_pkey" _ _ _) as [|t] eqn:Ht; [done|].
  apply insert_row_inr in Ht as [_ ->].
  intros [= <- <-]. by eapply (claim_insert db1).
Qed.

Lemma inv_UserCreate user : Inv_ok (UserRepository.Create user) any.
Proof.
  unfold UserRepository.Create. solve_inv. apply inv_stmt. intros db r db' Hdb E.
  split; [|done]. by eapply insert_user_ok.
Qed.

Lemma inv_ClaimUsername uid name now :
  Inv_ok (UserRepository.ClaimUsername uid name now) any.
Proof.
  unfold UserRepository.ClaimUsername. solve_inv.
  - apply inv_stmt. intros db r db' Hdb.
    destruct (UserRepository.claim_holder name db) eqn:Hc; [naive_solver|].
    destruct (insert_row _ _ _ _) as [|t] eqn:Ht; [done|].
    apply insert_row_inr in Ht as [_ ->]. intros [= <- <-]. split; [|done].
    by eapply claim_insert.
  - by apply inv_query.
Qed.

Lemma inv_UpdatePassword uid hash : Inv_ok (UserRepository.UpdatePassword uid hash) any.
Proof.
  unfold UserRepository.UpdatePassword. solve_inv.
  apply inv_stmt. intros db r db' Hdb [= <- <-]. split; [|done].
  apply ok_users; [done|..].
  - apply keyed_fmap; [|by apply users_keyed]. intros u. by case_match.
  - apply unique_fmap; [|by apply users_email]. intros u. by case_match.
Qed.

Lemma inv_CreateModerationRecord rec :
  Inv_ok (UserRepository.CreateModerationRecord rec) any.
Proof.
  unfold UserRepository.CreateModerationRecord. solve_inv. apply inv_stmt.
  intros db r db' Hdb. case_match; [done|]. intros [= <- <-]. split; [|done].
  by apply ok_records.
Qed.
End repositories.

#[export] Hint Resolve inv_FindByEmail inv_FindByUsername inv_LockByID inv_FindAvatarURL
  inv_FindRoles inv_UserCreate inv_ClaimUsername inv_UpdatePassword
  inv_CreateModerationRecord : inv.

Section repositories2.
Context `{EnvOk} `{Pg}.
Abbreviation Inv_ok := (Inv (B := BeforeOp) (A := AfterOp) tables_ok).

(** *** VerificationCodeRepository *)
Lemma code_row p db c :
  tables_ok db -> first p (email_verification_codes db) = Some c -> challenge_ok c.
Proof. intros Hdb (_ & k & Hk)%first_Some. by eapply codes_ok. Qed.

Lemma fresh_challenge_ok id email purpose now :
  challenge_ok (VerificationCodeRepository.fresh_challenge id email purpose now).
Proof. by constructor. Qed.

Lemma inv_LockOrCreate email purpose now :
  Inv_ok (VerificationCodeRepository.LockOrCreate email purpose now) challenge_ok.
Proof.
  unfold VerificationCodeRepository.LockOrCreate. solve_inv.
  - apply inv_stmt. intros db r db' Hdb.
    destruct (exists_row _ _) eqn:He; [naive_solver|]. rewrite exists_row_false in He.
    destruct (insert_row _ _ _ _) as [|t] eqn:Ht; [done|].
    apply insert_row_inr in Ht as [_ ->]. intros [= <- <-]. split; [|done].
    apply ok_codes; [done|..].
    + by apply keyed_insert; [apply codes_keyed|].
    + apply unique_insert; [by apply codes_unique|]. intros k' c' Hk Heq.
      apply He in Hk. unfold VerificationCodeRepository.matches in Hk.
      injection Heq as ??. rewrite andb_false_iff, !bool_decide_eq_false in Hk. tauto.
    + apply rows_insert; [by apply codes_ok | apply fresh_challenge_ok].
  - apply inv_First. intros db r Hdb. by apply code_row.
Qed.

Lemma inv_LockExisting email purpose :
  Inv_ok (VerificationCodeRepository.LockExisting email purpose) challenge_ok.
Proof. apply inv_First. intros db r Hdb. by apply code_row. Qed.

Lemma inv_SaveState challenge now :
  challenge_ok challenge ->
  Inv_ok (VerificationCodeRepository.SaveState challenge now) any.
Proof.
  intros Hc. unfold VerificationCodeRepository.SaveState. solve_inv; apply inv_exec.
  - intros db Hdb. apply ok_codes; [done|..].
    + apply keyed_fmap; [|by apply codes_keyed]. intros c. by case_match.
    + apply unique_fmap; [|by apply codes_unique]. intros c. by case_match.
    + apply rows_fmap; [|by apply codes_ok]. intros c Hr. case_match; [|done].
      destruct Hc. by constructor.
  - intros db. apply ok_deliveries_fmap; intros d; case_match; try done.
    apply wiped_delivery_ok.
Qed.

(** *** SessionRepository *)
Lemma inv_FindActiveIdentity sid uid now :
  Inv_ok (SessionRepository.FindActiveIdentity sid uid now) any.
Proof. unfold SessionRepository.FindActiveIdentity. solve_inv. by apply inv_query. Qed.

Lemma inv_FindRefreshIdentity sid uid d now :
  Inv_ok (SessionRepository.FindRefreshIdentity sid uid d now) any.
Proof. unfold SessionRepository.FindRefreshIdentity. solve_inv. by apply inv_query. Qed.

Lemma inv_ListActive uid now : Inv_ok (SessionRepository.ListActive uid now) any.
Proof. by apply inv_query. Qed.

Lemma inv_SessionCreate session :
  session_ok session -> Inv_ok (SessionRepository.Create session) any.
Proof.
  intros Hs. unfold SessionRepository.Create. solve_inv. apply inv_stmt.
  intros db r db' Hdb. destruct (exists_row _ _) eqn:He; [done|].
  destruct (insert_row _ _ _ _) as [|t] eqn:Ht; [done|].
  apply insert_row_inr in Ht as [_ ->]. intros [= <- <-].
  rewrite exists_row_false in He. split; [|done]. apply ok_sessions; [done|..].
  - by apply keyed_insert; [apply sessions_keyed|].
  - apply unique_insert; [by apply sessions_digest|]. intros k' s' Hk Heq.
    apply He in Hk. by rewrite bool_decide_eq_false in Hk.
  - apply rows_insert; [by apply sessions_ok|]. destruct Hs. by constructor.
Qed.

Lemma inv_SetRefreshDigest sid digest :
  is_digest digest -> Inv_ok (SessionRepository.SetRefreshDigest sid digest) any.
Proof.
  intros Hd. apply inv_stmt. intros db r db' Hdb.
  destruct (exists_row _ _) eqn:He; intros [= <- <-]. rewrite exists_row_false in He.
  split; [|done].
  assert (Hother : forall k s, user_sessions db !! k = Some s -> k <> sid ->
            UserSession.RefreshTokenDigest s <> digest).
  { intros k s Hk Hne Heq. pose proof (sessions_keyed db Hdb _ _ Hk) as Hid.
    apply He in Hk. rewrite andb_false_iff, negb_false_iff, bool_decide_eq_false,
      bool_decide_eq_true in Hk. destruct Hk; congruence. }
  apply ok_sessions; [done|..].
  - intros k s Hk. cbn in Hk.
    apply lookup_alter_Some in Hk as [(<- & s0 & Hk & ->) | [? Hk]];
      by apply (sessions_keyed db Hdb) in Hk.
  - intros k1 k2 s1 s2 H1' H2' _ _ Heq. cbn in H1', H2'.
    apply lookup_alter_Some in H1' as [(<- & r1 & H1' & ->) | [N1 H1']],
      H2' as [(<- & r2 & H2' & ->) | [N2 H2']]; cbn in Heq; try done.
    + by edestruct (Hother k2).
    + by edestruct (Hother k1).
    + by eapply (sessions_digest db Hdb).
  - intros k s Hk. cbn in Hk.
    apply lookup_alter_Some in Hk as [(<- & s0 & Hk & ->) | [? Hk]];
      apply (sessions_ok db Hdb) in Hk; [|done]. destruct Hk. by constructor.
Qed.

(** An update of session rows that keeps id and digest. *)
Lemma ok_sessions_fmap db (f : UserSession.t -> UserSession.t) :
  (forall s, UserSession.ID (f s) = UserSession.ID s) ->
  (forall s, UserSession.RefreshTokenDigest (f s) = UserSession.RefreshTokenDigest s) ->
  (forall s, session_ok s -> session_ok (f s)) ->
  tables_ok db -> tables_ok (db <| user_sessions := f <$> user_sessions db |>).
Proof.
  intros Hid Hd Hok Hdb. apply ok_sessions; [done|..].
  - apply keyed_fmap; [done | by apply sessions_keyed].
  - apply unique_fmap; [done | by apply sessions_digest].
  - apply rows_fmap; [done | by apply sessions_ok].
Qed.

Lemma touch_row_ok sid now threshold s :
  0 <= threshold -> session_ok s ->
  session_ok (SessionRepository.touch_row sid now threshold s).
Proof.
  intros Ht Hs. unfold SessionRepository.touch_row, time_Add. case_match eqn:Hg; [|done].
  rewrite !andb_true_iff, bool_decide_eq_true, bool_decide_eq_true in Hg.
  destruct Hg as [[[_ Hr] Hx] Hl]. destruct Hs. constructor; cbn; try done; try lia.
  rewrite Hr. done.
Qed.

Lemma inv_Touch sid now threshold :
  0 <= threshold -> Inv_ok (SessionRepository.Touch sid now threshold) any.
Proof.
  intros Ht. apply inv_exec. intros db. apply ok_sessions_fmap.
  - intros s. unfold SessionRepository.touch_row. by case_match.
  - intros s. unfold SessionRepository.touch_row. by case_match.
  - intros s. by apply touch_row_ok.
Qed.

Lemma revoke_row_ok now s : session_ok s -> session_ok (SessionRepository.revoke_row now s).
Proof. intros []. constructor; cbn; try done. intros r [= <-]. lia. Qed.

Lemma ok_revoke db p now :
  tables_ok db ->
  tables_ok (db <| user_sessions :=
    snd (update_where p (SessionRepository.revoke_row now) (user_sessions db)) |>).
Proof.
  apply ok_sessions_fmap; intros s; case_match; try done. apply revoke_row_ok.
Qed.

Lemma inv_Revoke uid sid now : Inv_ok (SessionRepository.Revoke uid sid now) any.
Proof.
  unfold SessionRepository.Revoke. solve_inv. apply inv_stmt.
  intros db r db' Hdb [= <- <-]. split; [|done]. by eapply ok_revoke.
Qed.

Lemma inv_RevokeAll uid now : Inv_ok (SessionRepository.RevokeAll uid now) any.
Proof. apply inv_exec. intros db Hdb. by apply ok_revoke. Qed.
End repositories2.

#[export] Hint Resolve inv_LockOrCreate inv_LockExisting inv_SaveState
  inv_FindActiveIdentity inv_FindRefreshIdentity inv_ListActive inv_SessionCreate
  inv_SetRefreshDigest inv_Touch inv_Revoke inv_RevokeAll : inv.

(** ** The service *)
(** What the outbox promises the service: enqueueing keeps the invariant. *)
Class QueueKeeps {I : DB -> Prop} (q : DeliveryQueue) :=
  queue_keeps : forall challenge email purpose digest code now,
    is_digest digest -> six_digits code -> purpose ∈ purposes ->
    Inv I (Enqueue q challenge email purpose digest code now) any.
Arguments QueueKeeps I q : clear implicits.

Lemma wrap32_small z : - 2 ^ 31 <= z < 2 ^ 31 -> wrap32 z = z.
Proof. intros. unfold wrap32. rewrite Z.mod_small; lia. Qed.

Section service.
Context `{EnvOk} `{Pg} `{Unicode} `{Mail} `{JWT} `{Bcrypt}.
Context (h : AuthService).
Context (Httl : 0 < RefreshTokenTTL (cfg h)).
Context (Hqueue : forall q, deliveries h = Some q -> QueueKeeps tables_ok q).
Abbreviation Inv_ok := (Inv (B := BeforeOp) (A := AfterOp) tables_ok).

Lemma enforceSendRate_ok challenge now c :
  challenge_ok challenge -> enforceSendRate challenge now = (c, None) ->
  challenge_ok c /\ EmailVerificationCode.SendCount c < maxSendsPerWindow.
Proof.
  intros [] E. unfold enforceSendRate, maxSendsPerWindow in *.
  repeat (case_match; simplify_eq); cbn in *; (split; [by constructor | lia]).
Qed.

Lemma issue_code_ok c digest now :
  challenge_ok c -> EmailVerificationCode.SendCount c < maxSendsPerWindow ->
  is_digest digest -> challenge_ok (issue_code c digest now).
Proof.
  intros [] Hs Hd. unfold maxSendsPerWindow in *. constructor; cbn; [done| |by unfold maxFailedAttempts].
  rewrite wrap32_small; unfold maxSendsPerWindow; lia.
Qed.

Lemma failed_attempt_ok c now :
  challenge_ok c -> challenge_dead c now = false ->
  challenge_ok (c <| EmailVerificationCode.FailedAttempts :=
                  wrap32 (EmailVerificationCode.FailedAttempts c + 1) |>).
Proof.
  intros [] Hd. unfold challenge_dead, maxFailedAttempts in *.
  rewrite !orb_false_iff in Hd. destruct Hd as [_ Hd].
  constructor; cbn; try done. rewrite wrap32_small; unfold maxFailedAttempts; lia.
Qed.

Lemma consumed_ok c now :
  challenge_ok c -> challenge_ok (c <| EmailVerificationCode.ConsumedAt := now |>).
Proof. intros []. by constructor. Qed.

Lemma inv_lookup_user m phi : Inv_ok m phi -> Inv_ok (lookup_user m) any.
Proof. intros Hm. unfold lookup_user. solve_inv. Qed.

Lemma fmt_06d_digits v : six_digits (fmt_06d v).
Proof.
  assert (forall k, is_digit (48 + (v / k) mod 10) = true /\ is_byte (48 + (v / k) mod 10))
    as Hd.
  { intros k. pose proof (Z.mod_pos_bound (v / k) 10 ltac:(lia)).
    unfold is_digit, in_range, is_byte. lia. }
  split; [done|]. unfold fmt_06d. cbn [map string_of fold_right all_bytes].
  unfold string_of. cbn [map fold_right all_bytes String.string_of_list_ascii].
  rewrite !byte_of_of_byte by apply Hd. by rewrite !(proj1 (Hd _)).
Qed.

Lemma inv_generateVerificationCode : Inv_ok generateVerificationCode six_digits.
Proof.
  unfold generateVerificationCode. eapply inv_bind; [by apply inv_RandInt|].
  intros [v|] Hv; [apply inv_mret, fmt_06d_digits | apply inv_throw].
Qed.

Lemma inv_randomDigest : Inv_ok randomDigest is_digest.
Proof. unfold randomDigest. solve_inv. Qed.

Hint Resolve inv_generateVerificationCode inv_randomDigest : inv.

Lemma inv_enqueue challenge email purpose digest code now :
  is_digest digest -> six_digits code -> purpose ∈ purposes ->
  Inv_ok (enqueueVerificationEmail h challenge email purpose digest code now) any.
Proof.
  intros. unfold enqueueVerificationEmail. repeat case_match; try apply inv_api_error.
  eapply inv_bind; [apply inv_on_error; [by eapply Hqueue | intros; apply inv_internal]|].
  solve_inv.
Qed.

Lemma inv_save_issued c digest now (k : MT unit) :
  challenge_ok c -> EmailVerificationCode.SendCount c < maxSendsPerWindow ->
  is_digest digest -> Inv_ok k any ->
  Inv_ok (on_error (VerificationCodeRepository.SaveState (issue_code c digest now) now)
            internal ;;; k) any.
Proof.
  intros. eapply inv_bind; [|intros; assumption].
  apply inv_on_error; [by apply inv_SaveState, issue_code_ok | intros; apply inv_internal].
Qed.

Lemma inv_SendVerificationCode raw : Inv_ok (SendVerificationCode h raw) any.
Proof.
  unfold SendVerificationCode. repeat (case_match; try solve [solve_inv]).
  apply (inv_bind _ _ _ any); [by eapply inv_lookup_user, inv_FindByEmail|]. intros found _.
  apply (inv_bind _ _ _ any); [apply inv_Now|]. intros now _.
  eapply inv_bind; [inv_call|]. intros challenge Hc.
  destruct (enforceSendRate challenge now) as [c [err|]] eqn:Hr; [apply inv_throw|].
  apply enforceSendRate_ok in Hr as [Hok Hn]; [|done].
  eapply (inv_bind _ _ _ (fun dc => is_digest (fst dc) /\ (found = None -> six_digits (snd dc)))).
  { apply inv_on_error; [|intros; apply inv_internal].
    destruct found; solve_inv; cbn; auto. }
  intros [digest code] [Hd Hcode]. apply inv_save_issued; [done..|].
  destruct found; [by apply inv_mret | apply inv_enqueue; [done|by apply Hcode|]].
  by apply list_elem_of_In; left.
Qed.

Lemma inv_SendPasswordResetCode raw : Inv_ok (SendPasswordResetCode h raw) any.
Proof.
  unfold SendPasswordResetCode. repeat (case_match; try solve [solve_inv]).
  apply (inv_bind _ _ _ any); [by eapply inv_lookup_user, inv_FindByEmail|]. intros found _.
  apply (inv_bind _ _ _ any).
  { destruct found; [by eapply inv_lookup_user, inv_LockByID | by apply inv_mret]. }
  intros locked _.
  apply (inv_bind _ _ _ any); [apply inv_Now|]. intros now _.
  eapply inv_bind; [inv_call|]. intros challenge Hc.
  destruct (enforceSendRate challenge now) as [c [err|]] eqn:Hr; [by apply inv_mret|].
  apply enforceSendRate_ok in Hr as [Hok Hn]; [|done].
  eapply inv_bind; [inv_call|]. intros code Hcode.
  eapply (inv_bind _ _ _ is_digest).
  { apply inv_on_error; [|intros; apply inv_internal]. destruct locked; solve_inv; auto. }
  intros digest Hd. apply inv_save_issued; [done..|].
  destruct locked; [apply inv_enqueue; [done..|] | by apply inv_mret].
  by apply list_elem_of_In; right; left.
Qed.

Lemma inv_consumeVerification purpose email code :
  Inv_ok (consumeVerification h purpose email code) any.
Proof.
  unfold consumeVerification. apply (inv_bind _ _ _ any); [apply inv_Now|]. intros now _.
  eapply inv_bind; [inv_call|]. intros [e|c] Hc; [solve_inv|].
  specialize (Hc c eq_refl).
  destruct (challenge_dead c now) eqn:Hd; [solve_inv|]. case_match.
  - eapply inv_bind; [|intros; apply inv_throw].
    apply inv_on_error; [|intros; apply inv_internal].
    apply inv_SaveState. by eapply failed_attempt_ok.
  - apply inv_on_error; [|intros; apply inv_internal].
    by apply inv_SaveState, consumed_ok.
Qed.

Lemma fits_optional value limit :
  fits (Z.of_nat limit) (optionalString value limit).
Proof. intros s. apply optionalString_count. Qed.

Lemma fits_or_else w o p : fits w o -> fits w p -> fits w (or_else o p).
Proof. by destruct o. Qed.

Lemma newSession_ok userID client digest now :
  is_digest digest ->
  session_ok (newSession userID client digest now (RefreshTokenTTL (cfg h))).
Proof.
  intros Hd. unfold newSession. split; cbn -[optionalString]; unfold time_Add.
  - done.
  - apply fits_or_else; [|intros s [= <-]; by vm_compute].
    apply fits_or_else; [apply (fits_optional _ 100)|].
    case_match; [apply (fits_optional _ 100) | by intros ?].
  - apply (fits_optional _ 512).
  - apply (fits_optional _ 45).
  - lia.
  - lia.
  - lia.
  - by intros ?.
Qed.

Lemma inv_userView u : Inv_ok (userView u) any.
Proof. unfold userView. solve_inv. Qed.

Lemma inv_sign uid sid typ now ttl : Inv_ok (sign h uid sid typ now ttl) any.
Proof. unfold sign. solve_inv. Qed.

Hint Resolve inv_userView inv_sign inv_consumeVerification : inv.

Lemma inv_issueSession user client now : Inv_ok (issueSession h user client now) any.
Proof.
  unfold issueSession. eapply inv_bind; [inv_call|]. intros placeholder Hp.
  eapply inv_bind.
  { apply inv_on_error; [by apply inv_SessionCreate, newSession_ok
                        | intros; apply inv_internal]. }
  solve_inv.
Qed.

Lemma inv_hash_password p : Inv_ok (hash_password p) any.
Proof. apply inv_same. by intros tx r tx' [= <- <-]. Qed.

Hint Resolve inv_issueSession inv_hash_password : inv.

Lemma inv_parse_claims token typ : Inv_ok (parse_claims h token typ) any.
Proof. unfold parse_claims. solve_inv. Qed.

Lemma inv_sessionLookupError {R} e : Inv_ok (sessionLookupError (A := R) e) any.
Proof. unfold sessionLookupError. solve_inv. Qed.

Lemma inv_deferSessionTouch sid now : Inv_ok (deferSessionTouch sid now) any.
Proof. apply inv_BeforeCommit. Qed.

Hint Resolve inv_parse_claims inv_sessionLookupError inv_deferSessionTouch : inv.

Lemma inv_Refresh token : Inv_ok (Refresh h token) any.
Proof. unfold Refresh. solve_inv. Qed.

Lemma inv_Authenticate token : Inv_ok (Authenticate h token) any.
Proof. unfold Authenticate. solve_inv. Qed.

Lemma inv_found_or_invalid_code m phi : Inv_ok m phi -> Inv_ok (found_or_invalid_code m) any.
Proof.
  intros Hm. unfold found_or_invalid_code. apply inv_on_error; [by eapply inv_any | solve_inv].
Qed.

Lemma inv_ResetPassword input : Inv_ok (ResetPassword h input) any.
Proof.
  unfold ResetPassword. destruct (normalizeEmail _); [apply inv_throw|].
  do 2 (eapply inv_bind; [apply inv_lift | intros _ _]).
  eapply inv_bind; [by eapply inv_found_or_invalid_code, inv_FindByEmail | intros user _].
  eapply inv_bind; [by eapply inv_found_or_invalid_code, inv_LockByID | intros user' _].
  solve_inv.
Qed.

Lemma inv_call_review m q : Inv_ok (call_review m q) any.
Proof. apply inv_same. by intros tx r tx' [= <- <-]. Qed.

Lemma inv_validateModerationResult r : Inv_ok (validateModerationResult r) any.
Proof. unfold validateModerationResult. solve_inv. Qed.

Hint Resolve inv_call_review inv_validateModerationResult : inv.

Lemma inv_Register raw client : Inv_ok (Register h raw client) any.
Proof.
  unfold Register. destruct (normalizeRegister raw); [apply inv_throw|].
  case_match; [apply inv_api_error|].
  apply (inv_bind _ _ _ any); [case_match; solve_inv; eapply inv_any, inv_lift | intros _ _].
  apply (inv_bind _ _ _ any); [by eapply inv_lookup_user, inv_FindByEmail | intros taken _].
  solve_inv.
Qed.

Lemma inv_findLoginUser id : Inv_ok (findLoginUser h id) any.
Proof. unfold findLoginUser. solve_inv. Qed.

Hint Resolve inv_findLoginUser : inv.

Lemma inv_Login input client : Inv_ok (Login h input client) any.
Proof. unfold Login. solve_inv. Qed.
End service.

(** ** The endpoints and the running process *)
Definition InvH (I : DB -> Prop) {T} (hd : HandlerT T) : Prop :=
  forall c tx, I (tx_db tx) ->
    match hd c tx with Returned _ tx' | Panicked _ _ tx' => I (tx_db tx') end.

Section endpoints.
Context `{Env} (I : DB -> Prop) {T : Type}.

Lemma inv_respond {R} (m : MT R) msg (payload : R -> T) : Inv I m any -> InvH I (respond m msg payload).
Proof.
  intros Hm c tx Ht. unfold respond. destruct (m tx) as [r tx'] eqn:E.
  apply Hm in E as [Ht' _]; [done|]. by destruct r.
Qed.

Lemma inv_with_principal {R} (m : Principal -> MT R) msg (payload : R -> T) :
  (forall p, Inv I (m p) any) -> InvH I (with_principal m msg payload).
Proof.
  intros Hm c tx Ht. unfold with_principal. destruct (CurrentPrincipal c); [done|].
  by apply inv_respond.
Qed.

Lemma inv_bindJSON {R} (body : option R) (k : R -> HandlerT T) :
  (forall r, InvH I (k r)) -> InvH I (bindJSON body k).
Proof. intros Hk c tx Ht. destruct body; [by apply Hk | done]. Qed.

Lemma inv_RequireAuth authenticate header (next : HandlerT T) :
  (forall t, Inv I (authenticate t) any) -> InvH I next ->
  InvH I (RequireAuth authenticate header next).
Proof.
  intros Ha Hn c tx Ht. unfold RequireAuth. destruct (bearerToken header); [done|].
  destruct (authenticate _ tx) as [r tx'] eqn:E. apply Ha in E as [Ht' _]; [done|].
  destruct r; [done | by apply Hn].
Qed.

Lemma inv_RequireCapability roles_of capability (next : HandlerT T) :
  InvH I next -> InvH I (RequireCapability roles_of capability next).
Proof.
  intros Hn c tx Ht. unfold RequireCapability. destruct (CurrentPrincipal c); [done|].
  destruct (HasCapability _ _); [by apply Hn|done].
Qed.

(** The tables after a request: those before it, or what the before-commit operations
    made of the handler's. *)
Lemma serve_db {X} ia random (next : HandlerT T) c (w : World DB X) c' w' ib :
  (forall op w w' p, ia op w = (w', p) -> w_db w' = w_db w) ->
  serve ib ia random next c w = (c', w') ->
  w_db w' = w_db w \/
  exists c1 tx tx1, next c (begin_tx true w) = Returned c1 tx /\
    BeforeCommitQueue_Run ib tx = (inr tt, tx1) /\ w_db w' = tx_db tx1.
Proof.
  intros Hia E. unfold serve in E. destruct (UnitOfWork _ _ _ _ _) as [[p c1] w1] eqn:U.
  assert (w1 = w') as -> by (by destruct p; simplify_eq).
  apply UnitOfWork_cases in U as [(-> & _) | (tx & tx1 & _ & [_ Hr _ Hb _ _] & ->)]; [by left|right].
  exists c1, tx, tx1. split; [done|]. split; [done|].
  assert (forall ops v, w_db (fst (run_after ia ops v)) = w_db v) as ->; [|done].
  intros ops. induction ops as [|op ops IH]; intros v; cbn; [done|].
  destruct (ia op v) as [w2 q] eqn:E2. apply Hia in E2. specialize (IH w2).
  destruct (run_after ia ops w2). cbn in *. congruence.
Qed.

(** A request keeps what its handler and the before-commit operations keep. *)
Lemma inv_serve {X} ia random (next : HandlerT T) c (w : World DB X) c' w' ib :
  (forall op, Inv I (ib op) any) ->
  (forall op w w' p, ia op w = (w', p) -> w_db w' = w_db w) ->
  InvH I next -> serve ib ia random next c w = (c', w') -> I (w_db w) -> I (w_db w').
Proof.
  intros Hib Hia Hn E Hw.
  apply (serve_db _ _ _ _ _ _ _ _ Hia) in E as [->|(c1 & tx & tx1 & Hr & Hb & ->)]; [done|].
  specialize (Hn c (begin_tx true w) Hw). rewrite Hr in Hn.
  by destruct (inv_run_before I ib _ Hib _ _ _ Hb Hn) as [Ht _].
Qed.
End endpoints.

(** An invariant of every service method is one of the running process. *)
Section process.
Context `{Env} `{Pg} `{Unicode} `{Mail} `{JWT} `{Bcrypt}.
Context (h : AuthService) {X : Type} (I : DB -> Prop).

Record ServiceInv : Prop := {
  si_SendVerificationCode : forall e, Inv I (SendVerificationCode h e) any;
  si_SendPasswordResetCode : forall e, Inv I (SendPasswordResetCode h e) any;
  si_ResetPassword : forall i, Inv I (ResetPassword h i) any;
  si_Register : forall i c, Inv I (Register h i c) any;
  si_Login : forall i c, Inv I (Login h i c) any;
  si_Refresh : forall t, Inv I (Refresh h t) any;
  si_Authenticate : forall t, Inv I (Authenticate h t) any;
  si_CurrentUser : forall p, Inv I (CurrentUser p) any;
  si_Logout : forall p, Inv I (Logout p) any;
  si_LogoutAll : forall p, Inv I (LogoutAll p) any;
  si_Sessions : forall p, Inv I (Sessions p) any;
  si_KickSession : forall p s, Inv I (KickSession p s) any;
  si_before : forall op, Inv I (interp_before op) any;
}.
Context (HI : ServiceInv).

Lemma inv_requireAuth info next : InvH I next -> InvH I (requireAuth h info next).
Proof. intros Hn. apply inv_RequireAuth; [|done]. by apply HI. Qed.

Lemma inv_KickSessionHandler id : InvH I (KickSessionHandler id).
Proof.
  intros c tx Ht. unfold KickSessionHandler. destruct (ParseUint id); [|done].
  destruct (_ =? 0); [done|]. apply inv_with_principal; [|done]. intros p. by apply HI.
Qed.

Lemma inv_LoginHandler info body : InvH I (LoginHandler h info body).
Proof.
  apply inv_bindJSON. intros r c tx Ht. destruct (loginIdentifier r); [done|].
  by apply inv_respond; [apply HI|].
Qed.

Lemma inv_route info r : InvH I (route h info r).
Proof.
  destruct r; cbn -[LoginHandler KickSessionHandler].
  - apply inv_bindJSON. intros. apply inv_respond, HI.
  - apply inv_bindJSON. intros. apply inv_respond, HI.
  - apply inv_bindJSON. intros. apply inv_respond, HI.
  - apply inv_bindJSON. intros. apply inv_respond, HI.
  - apply inv_LoginHandler.
  - apply inv_bindJSON. intros. apply inv_respond, HI.
  - apply inv_requireAuth, inv_with_principal, HI.
  - apply inv_requireAuth, inv_with_principal, HI.
  - apply inv_requireAuth, inv_with_principal, HI.
  - apply inv_requireAuth, inv_with_principal, HI.
  - apply inv_requireAuth, inv_KickSessionHandler.
Qed.

Context (ia : AfterOp -> World DB X -> World DB X * option string).
Context (Hia : forall op w w' p, ia op w = (w', p) -> w_db w' = w_db w).

Lemma inv_reachable (w w' : World DB X) :
  rtc (auth_step h ia) w w' -> I (w_db w) -> I (w_db w').
Proof.
  induction 1 as [|w w1 w2 Hs _ IH]; [done|]. intros Hw. apply IH.
  destruct Hs as [random info r w c w1 E].
  eapply inv_serve; [..|exact E|exact Hw]; [apply HI | exact Hia | apply inv_route].
Qed.
End process.

Section constraints.
Context `{EnvOk} `{Pg} `{Unicode} `{Mail} `{JWT} `{Bcrypt}.
Context (h : AuthService) {X : Type}.
Context (ia : AfterOp -> World DB X -> World DB X * option string).
Context (Hia : forall op w w' p, ia op w = (w', p) -> w_db w' = w_db w).
Context (Httl : 0 < RefreshTokenTTL (cfg h)).
Context (Hqueue : forall q, deliveries h = Some q -> QueueKeeps tables_ok q).

Lemma service_tables_ok : ServiceInv h tables_ok.
Proof.
  split; intros.
  - by apply inv_SendVerificationCode.
  - by apply inv_SendPasswordResetCode.
  - by apply inv_ResetPassword.
  - by apply inv_Register.
  - by apply inv_Login.
  - by apply inv_Refresh.
  - by apply inv_Authenticate.
  - apply inv_userView.
  - unfold Logout. solve_inv.
  - unfold LogoutAll. solve_inv.
  - unfold Sessions. solve_inv.
  - unfold KickSession. solve_inv.
  - destruct op. by apply inv_Touch.
Qed.

(** C28: the constraints of the auth tables are an invariant of the running
    service.  Whatever requests arrive, in whatever order, whether they commit
    or roll back, whether the database fails or the random source does: every
    reachable state satisfies the schema's checks, column widths and unique
    indexes on users, claimed names, verification codes (at most five sends in
    a window, at most five failed attempts, digests of 64 hexadecimal digits)
    and sessions (creation, last use, expiry and revocation in order). *)
Theorem auth_tables_invariant (w w' : World DB X) :
  rtc (auth_step h ia) w w' -> tables_ok (w_db w) -> tables_ok (w_db w').
Proof. apply inv_reachable; [apply service_tables_ok | exact Hia]. Qed.
End constraints.
