(* ===== verification/AuthCodes.v ===== *)
(** * Verification codes: the challenge as a state machine

    An abstract challenge ([ch_step]) has three moves: a code is sent, a wrong
    code is answered, the right one is used.  The service refines it: whatever
    requests arrive, every row of [email_verification_codes] only ever makes these
    moves.  What the machine guarantees (single use, five wrong answers, the
    send rate) therefore holds of every execution of the service. *)

From S2P Require Import Prelude.
From S2P Require Import GoText.
From S2P Require Import Apierr.
From S2P Require Import Effects.
From S2P Require Import Logic.
From S2P Require Import Model.
From S2P Require Import Authz.
From S2P Require Import Middleware.
From S2P Require Import Validation.
From S2P Require Import Digest.
From S2P Require Import AuthRepo.
From S2P Require Import AuthService.
From S2P Require Import AuthHandler.
From S2P Require Import AuthTables.
Open Scope Z_scope.

(** Instants up to the year 2116, on which [Time.Sub] does not saturate. *)
Definition instant (t : time) : Prop := 0 <= t < 2 ^ 62.

Class ClockOK `{Env} := clock_range : forall k, instant (env_now k).

(** ** The abstract machine *)
Section machine.
Import EmailVerificationCode.

Inductive label := LSend (now : time) | LWrong (now : time) | LUse (now : time).

Definition label_time (l : label) : time :=
  match l with LSend n | LWrong n | LUse n => n end.

Definition live (c : t) (now : time) : Prop :=
  ConsumedAt c = None /\ now < ExpiresAt c /\ FailedAttempts c < 5.

Inductive ch_step : t -> label -> t -> Prop :=
| ch_send c now digest start count :
    (forall last, LastSentAt c = Some last -> last + Minute <= now) ->
    (SendWindowStartedAt c + Hour <= now /\ start = now /\ count = 1 \/
     now < SendWindowStartedAt c + Hour /\ start = SendWindowStartedAt c /\
       count = SendCount c + 1 /\ count <= 5) ->
    ch_step c (LSend now)
      (mk (ID c) (Email c) (Purpose c) digest (now + 10 * Minute) (Some now) start count
         0 None (CreatedAt c) now)
| ch_wrong c now :
    live c now ->
    ch_step c (LWrong now) (c <| FailedAttempts := FailedAttempts c + 1 |>
                              <| UpdatedAt := now |>)
| ch_use c now :
    live c now ->
    ch_step c (LUse now) (c <| ConsumedAt := Some now |> <| UpdatedAt := now |>).

Inductive ch_run : t -> list label -> t -> Prop :=
| run_nil c : ch_run c [] c
| run_cons c l c1 ls c2 : ch_step c l c1 -> ch_run c1 ls c2 -> ch_run c (l :: ls) c2.

Lemma run_app c ls c1 ls' c2 :
  ch_run c ls c1 -> ch_run c1 ls' c2 -> ch_run c (ls ++ ls') c2.
Proof. induction 1; cbn; [done|]. intros. econstructor; eauto. Qed.

Lemma run_one c l c' : ch_step c l c' -> ch_run c [l] c'.
Proof. intros. econstructor; [done | constructor]. Qed.

(** Rows on which the code's arithmetic is exact. *)
Record regular (c : t) : Prop := {
  regular_count : 0 <= SendCount c <= 5;
  regular_failed : 0 <= FailedAttempts c <= 5;
  regular_start : instant (SendWindowStartedAt c);
  regular_last : forall last, LastSentAt c = Some last -> instant last;
}.

Lemma step_regular c l c' :
  ch_step c l c' -> instant (label_time l) -> regular c -> regular c'.
Proof.
  destruct 1 as [c now digest start count Hc Hw | c now (?&?&?) | c now (?&?&?)];
    intros Hi []; constructor; cbn in *; try done; try lia.
  - destruct Hw as [(? & -> & ->) | (? & -> & -> & ?)]; [by destruct Hi | done].
  - by intros ? [= <-].
Qed.

Lemma run_regular c ls c' :
  ch_run c ls c' -> Forall (fun l => instant (label_time l)) ls -> regular c -> regular c'.
Proof.
  induction 1; [done|]. intros Hf Hr. apply Forall_cons in Hf as [??].
  eauto using step_regular.
Qed.

(** *** What the machine guarantees *)
(** A spent challenge does not move without a new code. *)
Lemma run_spent c ls c' :
  ch_run c ls c' -> (ConsumedAt c <> None \/ 5 <= FailedAttempts c) ->
  (exists last, LastSentAt c' = Some last /\ LastSentAt c <> Some last) \/ c' = c.
Proof.
  intros Hr Hs.
  assert (forall c ls c', ch_run c ls c' -> forall last, LastSentAt c = Some last ->
            exists last', LastSentAt c' = Some last' /\ last <= last') as Hmono.
  { induction 1 as [c0|c0 l c1 ls0 c2 Hst _ IH]; [eauto with lia|]. intros last Hl.
    destruct Hst as [c0 now d st ct Hc _|c0 now _|c0 now _]; cbn in IH; eauto.
    apply Hc in Hl. destruct (IH now eq_refl) as (l' & ? & ?). exists l'.
    unfold Minute, Second, Millisecond, Microsecond in *. split; [done|lia]. }
  destruct Hr as [|c l c1 ls c2 Hst Hr]; [by right|]. left.
  destruct Hst as [c now d st ct Hc _|c now (?&?&?)|c now (?&?&?)];
    [| exfalso; destruct Hs; [done|lia].. ].
  destruct (Hmono _ _ _ Hr now eq_refl) as (last' & ? & ?). exists last'. split; [done|].
  intros Hl. apply Hc in Hl. unfold Minute, Second, Millisecond, Microsecond in *. lia.
Qed.

Fixpoint send_times (ls : list label) : list time :=
  match ls with
  | [] => []
  | LSend n :: ls' => n :: send_times ls'
  | _ :: ls' => send_times ls'
  end.

Lemma run_same_window c ls c' :
  ch_run c ls c' -> Forall (fun s => s < SendWindowStartedAt c + Hour) (send_times ls) ->
  SendCount c <= 5 -> SendCount c + Z.of_nat (length (send_times ls)) <= 5.
Proof.
  induction 1 as [|c l c1 ls c2 Hst _ IH]; [cbn; lia|].
  destruct Hst as [c now d st ct Hc Hw|c now _|c now _]; cbn; [|by apply IH..].
  intros Hf Hb. apply Forall_cons in Hf as [Hn Hf].
  destruct Hw as [(? & _) | (_ & -> & -> & ?)]; [lia|]. cbn in IH. specialize (IH Hf ltac:(lia)). lia.
Qed.

(** At most ten codes in any hour: two windows can meet inside it. *)
Lemma run_hour c ls c' b :
  ch_run c ls c' -> Forall (fun s => b <= s < b + Hour) (send_times ls) ->
  0 <= SendCount c <= 5 -> SendCount c + Z.of_nat (length (send_times ls)) <= 10.
Proof.
  induction 1 as [|c l c1 ls c2 Hst Hr IH]; [cbn; lia|].
  destruct Hst as [c now d st ct Hc Hw|c now _|c now _]; cbn; [|by apply IH..].
  intros Hf Hb. apply Forall_cons in Hf as [Hn Hf].
  destruct Hw as [(? & -> & ->) | (_ & -> & -> & ?)].
  - apply run_same_window in Hr; cbn in *; [lia | | lia].
    eapply Forall_impl; [exact Hf|]. cbn. lia.
  - cbn in IH. specialize (IH Hf ltac:(lia)). lia.
Qed.

Lemma run_cooldown c ls c' last :
  ch_run c ls c' -> LastSentAt c = Some last ->
  Forall (fun s => last + Minute <= s) (send_times ls).
Proof.
  intros Hr. revert last. induction Hr as [|c l c1 ls c2 Hst _ IH]; [constructor|].
  intros last Hl. destruct Hst as [c now d st ct Hc _|c now _|c now _]; cbn; [|by apply IH..].
  apply Hc in Hl. constructor; [done|]. eapply Forall_impl; [by apply IH|]. cbn.
  unfold Minute, Second, Millisecond, Microsecond in *. lia.
Qed.
End machine.

(** ** Tables: every row makes a run of the machine *)
Abbreviation codes := email_verification_codes.

Definition instants (ls : list label) : Prop := Forall (fun l => instant (label_time l)) ls.

Definition rows_run (db db' : DB) : Prop :=
  keyed EmailVerificationCode.ID (codes db) ->
  keyed EmailVerificationCode.ID (codes db') /\
  forall k c, codes db !! k = Some c -> regular c ->
    exists ls c', codes db' !! k = Some c' /\ ch_run c ls c' /\ instants ls.

#[export] Instance rows_run_preorder : PreOrder rows_run.
Proof.
  split.
  - intros db Hk. split; [done|]. intros k c Hc _. exists [], c.
    split_and!; [done | constructor | constructor].
  - intros db1 db2 db3 H12 H23 Hk. destruct (H12 Hk) as [Hk2 R12].
    destruct (H23 Hk2) as [Hk3 R23]. split; [done|]. intros k c Hc Hr.
    destruct (R12 k c Hc Hr) as (ls & c2 & Hc2 & Hrun & Hi).
    destruct (R23 k c2 Hc2) as (ls' & c3 & Hc3 & Hrun' & Hi');
      [by eapply run_regular|].
    exists (ls ++ ls'), c3. split_and!; [done | by eapply run_app | by apply Forall_app].
Qed.

Lemma rows_run_same db db' : codes db' = codes db -> rows_run db db'.
Proof.
  intros He Hk. rewrite He. split; [done|]. intros k c Hc _. exists [], c.
  split_and!; [done | constructor | constructor].
Qed.

Lemma keeps_rows_same `{Env} {R} (m : MT R) :
  Keeps (unchanged codes) m -> Keeps rows_run m.
Proof. intros Hm tx r tx' E. by apply rows_run_same, (Hm _ _ _ E). Qed.

(** What [SaveState] makes of a row. *)
Definition merged (c challenge : EmailVerificationCode.t) (now : time)
    : EmailVerificationCode.t :=
  EmailVerificationCode.mk (EmailVerificationCode.ID c) (EmailVerificationCode.Email c)
    (EmailVerificationCode.Purpose c) (EmailVerificationCode.CodeDigest challenge)
    (EmailVerificationCode.ExpiresAt challenge) (EmailVerificationCode.LastSentAt challenge)
    (EmailVerificationCode.SendWindowStartedAt challenge)
    (EmailVerificationCode.SendCount challenge)
    (EmailVerificationCode.FailedAttempts challenge)
    (EmailVerificationCode.ConsumedAt challenge) (EmailVerificationCode.CreatedAt c) now.

Lemma rows_run_save db c challenge now l :
  codes db !! EmailVerificationCode.ID c = Some c ->
  EmailVerificationCode.ID challenge = EmailVerificationCode.ID c ->
  instant (label_time l) ->
  (regular c -> ch_step c l (merged c challenge now)) ->
  rows_run db (VerificationCodeRepository.save_challenge challenge now db).
Proof.
  intros Hc Hid Hi Hst Hk. unfold VerificationCodeRepository.save_challenge. cbn. split.
  { apply keyed_fmap; [|done]. intros r. by case_match. }
  intros k c0 Hc0 Hr. rewrite lookup_fmap, Hc0. cbn.
  case_bool_decide as Heq.
  - rewrite (Hk _ _ Hc0) in Heq. subst k. rewrite Hid in Hc0. simplify_eq.
    exists [l], (merged c challenge now).
    split_and!; [done | by apply run_one, Hst | by constructor].
  - exists [], c0. split_and!; [done | constructor | constructor].
Qed.

Lemma rows_run_wipe db c now : rows_run db (VerificationCodeRepository.wipe_codes c now db).
Proof. by apply rows_run_same. Qed.

(** ** The code makes only moves of the machine *)
Section moves.
Context `{Env}.
Import EmailVerificationCode.

Lemma sub_exact now t : instant now -> instant t -> time_Sub now t = now - t.
Proof. unfold instant, time_Sub, sat64, int64_min, int64_max. lia. Qed.

Lemma cooldown_exact c now :
  regular c -> instant now ->
  cooldown_remaining c now =
    match LastSentAt c with Some last => Minute - (now - last) | None => 0 end.
Proof.
  intros Hr Hi. unfold cooldown_remaining. destruct (LastSentAt c) as [last|] eqn:Hl; [|done].
  apply (regular_last _ Hr) in Hl. rewrite sub_exact by done.
  unfold instant, wrap64, verificationSendCooldown, Minute, Second, Millisecond,
    Microsecond in *. rewrite Z.mod_small; lia.
Qed.

Lemma send_step c now c1 digest :
  regular c -> instant now -> enforceSendRate c now = (c1, None) ->
  ch_step c (LSend now) (merged c (issue_code c1 digest now) now).
Proof.
  intros Hr Hi. unfold enforceSendRate. rewrite cooldown_exact by done.
  pose proof (regular_start _ Hr) as Hs. pose proof (regular_count _ Hr).
  rewrite sub_exact by done. unfold maxSendsPerWindow.
  destruct (0 <? _) eqn:Hc; [done|].
  assert (forall last, LastSentAt c = Some last -> last + Minute <= now) as Hcool
    by (intros last Hl; rewrite Hl in Hc; lia).
  unfold verificationSendWindow. destruct (Hour <=? _) eqn:Hw; cbn; [|destruct (5 <=? _) eqn:H5];
    intros [= <-]; unfold merged, issue_code, time_Add, verificationCodeTTL; cbn;
    apply ch_send; try done; rewrite wrap32_small by lia.
  - left. lia.
  - right. lia.
Qed.

Lemma live_challenge c now : challenge_dead c now = false -> live c now.
Proof.
  unfold challenge_dead, live, time_After, maxFailedAttempts.
  rewrite !orb_false_iff, bool_decide_eq_false, negb_false_iff.
  destruct (ConsumedAt c); intros [[Hc He] Hf]; [by destruct Hc|]. split_and!; [done|lia..].
Qed.

Lemma wrong_step c now :
  regular c -> challenge_dead c now = false ->
  ch_step c (LWrong now)
    (merged c (c <| FailedAttempts := wrap32 (FailedAttempts c + 1) |>) now).
Proof.
  intros Hr Hd%live_challenge. pose proof (regular_failed _ Hr). unfold merged. cbn.
  rewrite wrap32_small by lia. by apply ch_wrong.
Qed.

Lemma use_step c now :
  challenge_dead c now = false ->
  ch_step c (LUse now) (merged c (c <| ConsumedAt := Some now |>) now).
Proof. intros Hd%live_challenge. by apply ch_use. Qed.
End moves.

(** ** The service refines the machine *)
(** What the outbox promises here: enqueueing does not touch the challenges. *)
Class QueueFrame `{Env} {F} (proj : DB -> F) (q : DeliveryQueue) :=
  queue_frame : forall challenge email purpose digest code now,
    Keeps (unchanged proj) (Enqueue q challenge email purpose digest code now).

Section refinement.
Context `{EnvOk} `{!ClockOK} `{Pg} `{Unicode} `{Mail} `{JWT} `{Bcrypt}.
Context (h : AuthService).
Context (Hqueue : forall q, deliveries h = Some q -> QueueFrame codes q).
Implicit Types (c : EmailVerificationCode.t).

(** *** Calls that never write the challenges *)
Lemma same_First {R} (f : DB -> option R) : Keeps rows_run (First f).
Proof. unfold First. solve_keeps. Qed.

Lemma same_stmt {R} (f : DB -> goerr + R * DB) :
  (forall db r db', f db = inr (r, db') -> codes db' = codes db) -> Keeps rows_run (stmt f : MT R).
Proof. intros Hf. apply (keeps_stmt _). intros db r db' E. by eapply rows_run_same, Hf. Qed.

Lemma same_exec (f : DB -> DB) :
  (forall db, codes (f db) = codes db) -> Keeps rows_run (exec f : MT unit).
Proof. intros Hf. apply same_stmt. naive_solver. Qed.

Lemma insert_user_codes user cid db r db' :
  UserRepository.insert_user user cid db = inr (r, db') -> codes db' = codes db.
Proof. unfold UserRepository.insert_user. intros E. repeat case_match; by simplify_eq. Qed.

Lemma same_UserCreate u : Keeps rows_run (UserRepository.Create u).
Proof.
  unfold UserRepository.Create. solve_keeps. apply same_stmt. apply insert_user_codes.
Qed.

Lemma same_ClaimUsername uid name now : Keeps rows_run (UserRepository.ClaimUsername uid name now).
Proof.
  unfold UserRepository.ClaimUsername. solve_keeps. apply same_stmt.
  intros db r db' E. repeat case_match; by simplify_eq.
Qed.

Lemma same_UpdatePassword uid p : Keeps rows_run (UserRepository.UpdatePassword uid p).
Proof. unfold UserRepository.UpdatePassword. solve_keeps. apply same_stmt. naive_solver. Qed.

Lemma same_CreateModerationRecord r : Keeps rows_run (UserRepository.CreateModerationRecord r).
Proof.
  unfold UserRepository.CreateModerationRecord. solve_keeps. apply same_stmt.
  intros db r' db' E. case_match; by simplify_eq.
Qed.

Lemma same_SessionCreate s : Keeps rows_run (SessionRepository.Create s).
Proof.
  unfold SessionRepository.Create. solve_keeps. apply same_stmt.
  intros db r' db' E. repeat case_match; by simplify_eq.
Qed.

Lemma same_SetRefreshDigest sid d : Keeps rows_run (SessionRepository.SetRefreshDigest sid d).
Proof. apply same_stmt. intros db r' db' E. repeat case_match; by simplify_eq. Qed.

Lemma same_Revoke uid sid now : Keeps rows_run (SessionRepository.Revoke uid sid now).
Proof. unfold SessionRepository.Revoke. solve_keeps. apply same_stmt. naive_solver. Qed.

Lemma same_RevokeAll uid now : Keeps rows_run (SessionRepository.RevokeAll uid now).
Proof. by apply same_exec. Qed.

Lemma same_Touch sid now t : Keeps rows_run (SessionRepository.Touch sid now t).
Proof. by apply same_exec. Qed.

Lemma same_hash_password p : Keeps rows_run (hash_password p).
Proof. apply keeps_same; [apply _|]. by intros tx r tx' [= <- <-]. Qed.

Lemma same_call_review m q : Keeps rows_run (call_review m q).
Proof. apply keeps_same; [apply _|]. by intros tx r tx' [= <- <-]. Qed.

Lemma same_interp_before op : Keeps rows_run (interp_before op).
Proof. destruct op. by apply same_Touch. Qed.
End refinement.

#[export] Hint Resolve same_First same_UserCreate same_ClaimUsername same_UpdatePassword
  same_CreateModerationRecord same_SessionCreate same_SetRefreshDigest same_Revoke
  same_RevokeAll same_Touch same_hash_password same_call_review : keeps.

Section codes.
Context `{EnvOk} `{!ClockOK} `{Pg} `{Unicode} `{Mail} `{JWT} `{Bcrypt}.
Context (h : AuthService).
Context (Hqueue : forall q, deliveries h = Some q -> QueueFrame codes q).
Implicit Types (c : EmailVerificationCode.t).

Section from.
Context (db0 : DB).
Abbreviation P0 := (rows_run db0).

(** The row that was read is the row that is there. *)
Definition reading (c : EmailVerificationCode.t) (db : DB) : Prop :=
  P0 db /\ codes db !! EmailVerificationCode.ID c = Some c.

Lemma triple_kept {R} (m : MT R) : Keeps rows_run m -> Triple P0 m (fun _ => P0) P0.
Proof. intros Hm tx r tx' E Hp. destruct r; by etrans; [exact Hp | by eapply Hm]. Qed.

Lemma triple_bind_Now {R} P (k : time -> MT R) Q E :
  (forall now, instant now -> Triple P (k now) Q E) -> Triple P (mbind Now k) Q E.
Proof.
  intros Hk tx r tx' Er Hp. unfold mbind, Now in Er.
  exact (Hk _ (clock_range _) _ _ _ Er Hp).
Qed.

Lemma triple_First_code p (Hk : keyed EmailVerificationCode.ID (codes db0)) :
  Triple P0 (First (fun db => first p (codes db))) reading P0.
Proof.
  intros tx r tx' E Hp. unfold First in E. unfold mbind in E.
  destruct (query _ tx) as [[e|o] tx1] eqn:E1.
  - simplify_eq. apply stmt_inl in E1 as [-> _]. done.
  - apply query_inr in E1 as (-> & Hd & _). rewrite <- Hd in Hp.
    unfold mret, throw in E.
    destruct (first p _) as [c|] eqn:Hf; simplify_eq; [|done].
    split; [done|]. apply first_Some in Hf as (_ & k & Hc). rewrite <- Hd in Hc.
    destruct (Hp Hk) as [Hkd _]. by rewrite (Hkd _ _ Hc).
Qed.

Lemma triple_LockOrCreate email purpose now (Hk : keyed EmailVerificationCode.ID (codes db0)) :
  Triple P0 (VerificationCodeRepository.LockOrCreate email purpose now) reading P0.
Proof.
  unfold VerificationCodeRepository.LockOrCreate.
  eapply triple_bind; [apply triple_neutral, neutral_NextID|]. intros id.
  eapply (triple_bind _ _ (fun _ => P0)); [|intros []; by apply triple_First_code].
  apply triple_kept, (keeps_stmt _). intros db r db' E.
  destruct (exists_row _ _); [simplify_eq; done|].
  destruct (insert_row _ _ _ _) as [|t] eqn:Ht; simplify_eq.
  apply insert_row_inr in Ht as [Hn ->]. intros Hkd. cbn. split.
  { by apply keyed_insert. }
  intros k c Hc _. exists [], c. split_and!; [|constructor..].
  rewrite lookup_insert_ne; [done | congruence].
Qed.

Lemma triple_SaveState c challenge now l :
  EmailVerificationCode.ID challenge = EmailVerificationCode.ID c ->
  instant (label_time l) ->
  (regular c -> ch_step c l (merged c challenge now)) ->
  Triple (reading c) (VerificationCodeRepository.SaveState challenge now)
    (fun _ => P0) P0.
Proof.
  intros Hid Hi Hst. unfold VerificationCodeRepository.SaveState.
  eapply (triple_bind _ _ (fun _ => P0)).
  - apply triple_exec; [|by intros db []]. intros db [Hp Hc].
    etrans; [exact Hp|]. by eapply rows_run_save.
  - intros _. apply triple_exec; [|done]. intros db Hp. etrans; [exact Hp|].
    apply rows_run_wipe.
Qed.

Lemma triple_internal {R} e (P : DB -> Prop) (Q : R -> DB -> Prop) :
  Triple P (internal e : MT R) Q P.
Proof. intros tx r tx'. cbn. by intros [= <- <-]. Qed.
End from.

Lemma keeps_triple {R} (m : MT R) :
  (forall db0, keyed EmailVerificationCode.ID (codes db0) ->
     Triple (rows_run db0) m (fun _ => rows_run db0) (rows_run db0)) -> Keeps rows_run m.
Proof.
  intros Hm tx r tx' E Hk. specialize (Hm (tx_db tx) Hk tx r tx' E).
  assert (rows_run (tx_db tx) (tx_db tx')) as Hd by (destruct r; by apply Hm).
  by apply Hd.
Qed.

(** Save the issued code, then go on without touching the challenges. *)
Lemma triple_issue db0 c c1 now digest (k : MT unit) :
  instant now -> enforceSendRate c now = (c1, None) -> Keeps rows_run k ->
  Triple (reading db0 c)
    (on_error (VerificationCodeRepository.SaveState (issue_code c1 digest now) now)
       internal ;;; k : MT unit)
    (fun _ => rows_run db0) (rows_run db0).
Proof.
  intros Hi Hs Hk. eapply (triple_bind _ _ (fun _ => rows_run db0));
    [|intros _; by apply triple_kept].
  eapply triple_on_error; [|intros; apply triple_internal].
  eapply (triple_SaveState _ _ _ _ (LSend now)); [|done|].
  - unfold enforceSendRate in Hs. repeat case_match; by simplify_eq.
  - intros Hr. by apply send_step.
Qed.

Lemma same_lookup_user m : Keeps rows_run m -> Keeps rows_run (lookup_user m).
Proof. intros. unfold lookup_user. solve_keeps. Qed.

Lemma same_enqueue challenge email purpose digest code now :
  Keeps rows_run (enqueueVerificationEmail h challenge email purpose digest code now).
Proof.
  unfold enqueueVerificationEmail. repeat case_match; try apply (keeps_api_error _).
  apply (keeps_bind _); [|solve_keeps].
  apply (keeps_on_error _); [|intros; apply (keeps_internal _)].
  apply keeps_rows_same. by eapply Hqueue.
Qed.

Lemma reading_weaken db0 c db : reading db0 c db -> rows_run db0 db.
Proof. by intros []. Qed.

Lemma triple_reading_neutral {R} db0 c (m : MT R) :
  Neutral m -> Triple (reading db0 c) m (fun _ => reading db0 c) (rows_run db0).
Proof.
  intros Hm. eapply triple_conseq; [by apply triple_neutral|done|done|]. apply reading_weaken.
Qed.

Lemma neutral_randomDigest : Neutral (B := BeforeOp) (A := AfterOp) (DB := DB) randomDigest.
Proof. unfold randomDigest. solve_neutral. Qed.
Lemma neutral_generate :
  Neutral (B := BeforeOp) (A := AfterOp) (DB := DB) generateVerificationCode.
Proof. unfold generateVerificationCode. solve_neutral. Qed.
Hint Resolve neutral_randomDigest neutral_generate : neutral.

Lemma rows_SendVerificationCode raw : Keeps rows_run (SendVerificationCode h raw).
Proof.
  unfold SendVerificationCode. repeat (case_match; try solve [solve_keeps]).
  apply (keeps_bind _); [apply same_lookup_user, same_First | intros found].
  apply keeps_triple. intros db0 Hk.
  apply triple_bind_Now. intros now Hi. eapply triple_bind.
  { eapply triple_on_error; [by apply triple_LockOrCreate | intros; apply triple_internal]. }
  intros c. destruct (enforceSendRate c now) as [c1 [err|]] eqn:Hs.
  { apply triple_throw. apply reading_weaken. }
  eapply triple_bind.
  { apply triple_reading_neutral. destruct found; solve_neutral. }
  intros [digest code]. apply triple_issue; [done..|].
  destruct found; [apply (keeps_mret _) | apply same_enqueue].
Qed.

Lemma rows_SendPasswordResetCode raw : Keeps rows_run (SendPasswordResetCode h raw).
Proof.
  unfold SendPasswordResetCode. repeat (case_match; try solve [solve_keeps]).
  apply (keeps_bind _); [apply same_lookup_user, same_First | intros found].
  apply (keeps_bind _).
  { destruct found; [apply same_lookup_user, same_First | apply (keeps_mret _)]. }
  intros locked. apply keeps_triple. intros db0 Hk.
  apply triple_bind_Now. intros now Hi. eapply triple_bind.
  { eapply triple_on_error; [by apply triple_LockOrCreate | intros; apply triple_internal]. }
  intros c. destruct (enforceSendRate c now) as [c1 [err|]] eqn:Hs.
  { apply triple_mret. apply reading_weaken. }
  eapply triple_bind; [apply triple_reading_neutral; solve_neutral|]. intros code.
  eapply triple_bind.
  { apply triple_reading_neutral. destruct locked; solve_neutral. }
  intros digest. apply triple_issue; [done..|].
  destruct locked; [apply same_enqueue | apply (keeps_mret _)].
Qed.

Lemma rows_consumeVerification purpose email code :
  Keeps rows_run (consumeVerification h purpose email code).
Proof.
  apply keeps_triple. intros db0 Hk. unfold consumeVerification.
  apply triple_bind_Now. intros now Hi. eapply triple_bind.
  { apply triple_attempt. unfold VerificationCodeRepository.LockExisting.
    by apply triple_First_code. }
  intros [e|c]; [apply triple_kept; solve_keeps|].
  destruct (challenge_dead c now) eqn:Hd; [apply triple_throw, reading_weaken|].
  case_match.
  - eapply (triple_bind _ _ (fun _ => rows_run db0)); [|intros; by apply triple_throw].
    eapply triple_on_error; [|intros; apply triple_internal].
    apply (triple_SaveState _ _ _ _ (LWrong now)); [done..|].
    intros Hr. by apply wrong_step.
  - eapply triple_on_error; [|intros; apply triple_internal].
    apply (triple_SaveState _ _ _ _ (LUse now)); [done..|].
    intros Hr. by apply use_step.
Qed.

Hint Resolve rows_consumeVerification : keeps.

Lemma rows_userView u : Keeps rows_run (userView u).
Proof. unfold userView. solve_keeps. Qed.
Lemma rows_sign uid sid typ now ttl : Keeps rows_run (sign h uid sid typ now ttl).
Proof. unfold sign. solve_keeps. Qed.
Lemma rows_randomDigest : Keeps rows_run randomDigest.
Proof. unfold randomDigest. solve_keeps. Qed.
Hint Resolve rows_userView rows_sign rows_randomDigest : keeps.

Lemma rows_issueSession user client now : Keeps rows_run (issueSession h user client now).
Proof. unfold issueSession. solve_keeps. Qed.
Lemma rows_parse_claims token typ : Keeps rows_run (parse_claims h token typ).
Proof. unfold parse_claims. solve_keeps. Qed.
Lemma rows_sessionLookupError {R} e : Keeps rows_run (sessionLookupError (A := R) e).
Proof. unfold sessionLookupError. solve_keeps. Qed.
Lemma rows_query {R} (f : DB -> R) : Keeps rows_run (query f : MT R).
Proof. apply (keeps_query _). Qed.
Hint Resolve rows_issueSession rows_parse_claims rows_sessionLookupError : keeps.

Lemma rows_findLoginUser id : Keeps rows_run (findLoginUser h id).
Proof.
  unfold findLoginUser, UserRepository.FindByEmail, UserRepository.FindByUsername.
  solve_keeps.
Qed.
Hint Resolve rows_findLoginUser : keeps.

Lemma service_rows_run db0 : ServiceInv h (rows_run db0).
Proof.
  assert (forall R (m : MT R), Keeps rows_run m -> Inv (rows_run db0) m any) as Hc.
  { intros R m Hm tx r tx' E Hp. split; [|done]. etrans; [exact Hp | by eapply Hm]. }
  split; intros; apply Hc.
  - apply rows_SendVerificationCode.
  - apply rows_SendPasswordResetCode.
  - unfold ResetPassword, found_or_invalid_code, UserRepository.FindByEmail,
      UserRepository.LockByID. solve_keeps.
  - unfold Register, validateModerationResult, lookup_user, UserRepository.FindByEmail.
    solve_keeps.
  - unfold Login, UserRepository.LockByID. solve_keeps.
  - unfold Refresh, SessionRepository.FindRefreshIdentity, deferSessionTouch. solve_keeps.
  - unfold Authenticate, SessionRepository.FindActiveIdentity, deferSessionTouch. solve_keeps.
  - unfold CurrentUser. solve_keeps.
  - unfold Logout. solve_keeps.
  - unfold LogoutAll. solve_keeps.
  - unfold Sessions, SessionRepository.ListActive. solve_keeps.
  - unfold KickSession. solve_keeps.
  - apply same_interp_before.
Qed.
End codes.

(** ** The guarantees *)
Lemma run_split c ls1 ls2 c' :
  ch_run c (ls1 ++ ls2) c' -> exists c1, ch_run c ls1 c1 /\ ch_run c1 ls2 c'.
Proof.
  revert c. induction ls1 as [|l ls1 IH]; intros c Hr.
  - exists c. split; [constructor | done].
  - inversion Hr as [|? ? c1 ? ? Hs Hr1]; subst. apply IH in Hr1 as (c2 & ? & ?).
    exists c2. split; [by econstructor | done].
Qed.

Lemma send_times_app ls1 ls2 : send_times (ls1 ++ ls2) = send_times ls1 ++ send_times ls2.
Proof. induction ls1 as [|[] ls1 IH]; cbn; congruence. Qed.

Section guarantees.
Context `{EnvOk} `{!ClockOK} `{Pg} `{Unicode} `{Mail} `{JWT} `{Bcrypt}.
Context (h : AuthService).
Context (Hqueue : forall q, deliveries h = Some q -> QueueFrame codes q).
Context {X : Type} (ia : AfterOp -> World DB X -> World DB X * option string).
Context (Hia : forall op w w' p, ia op w = (w', p) -> w_db w' = w_db w).
Implicit Types (c : EmailVerificationCode.t).

Lemma reachable_run (w w' : World DB X) k c :
  rtc (auth_step h ia) w w' ->
  keyed EmailVerificationCode.ID (codes (w_db w)) ->
  codes (w_db w) !! k = Some c -> regular c ->
  exists ls c', codes (w_db w') !! k = Some c' /\ ch_run c ls c' /\ instants ls.
Proof.
  intros Hr Hk Hc Hreg.
  assert (rows_run (w_db w) (w_db w')) as Hd.
  { exact (inv_reachable h (rows_run (w_db w)) (service_rows_run h Hqueue _) ia Hia w w' Hr
             (reflexivity _)). }
  destruct (Hd Hk) as [_ Hrows]. eauto.
Qed.

(** C29: the service refines the challenge machine.  Whatever requests are
    served, no challenge row disappears, and what happened to it is a run of
    [ch_step]: codes are only sent, answered wrongly or used, each under the
    machine's guards.  In that run at most ten codes are sent in any hour, and a
    code is never sent within a minute of the previous one. *)
Theorem challenge_refinement (w w' : World DB X) k c :
  rtc (auth_step h ia) w w' ->
  keyed EmailVerificationCode.ID (codes (w_db w)) ->
  codes (w_db w) !! k = Some c -> regular c ->
  exists ls c', codes (w_db w') !! k = Some c' /\ ch_run c ls c' /\
    (forall b ls1 ls2 ls3, ls = ls1 ++ ls2 ++ ls3 ->
       Forall (fun s => b <= s < b + Hour) (send_times ls2) ->
       (length (send_times ls2) <= 10)%nat) /\
    (forall last, EmailVerificationCode.LastSentAt c = Some last ->
       Forall (fun s => last + Minute <= s) (send_times ls)).
Proof.
  intros Hr Hk Hc Hreg. destruct (reachable_run _ _ _ _ Hr Hk Hc Hreg)
    as (ls & c' & Hc' & Hrun & Hi). exists ls, c'. split_and!; [done..| |].
  - intros b ls1 ls2 ls3 -> Hb.
    apply run_split in Hrun as (c1 & Hr1 & (c2 & Hr2 & _)%run_split).
    unfold instants in Hi. rewrite Forall_app in Hi. destruct Hi as [Hi1 _].
    pose proof (run_regular _ _ _ Hr1 Hi1 Hreg) as Hreg1.
    pose proof (run_hour _ _ _ _ Hr2 Hb (regular_count _ Hreg1)).
    pose proof (regular_count _ Hreg1). lia.
  - intros last Hl. by eapply run_cooldown.
Qed.

(** a spent code stays spent.  Once a code was used, or answered wrongly
    five times, no sequence of requests changes its row (so in particular none
    uses it again) until a new code is sent to the address. *)
Theorem spent_code_frozen (w w' : World DB X) k c c' :
  rtc (auth_step h ia) w w' ->
  keyed EmailVerificationCode.ID (codes (w_db w)) ->
  codes (w_db w) !! k = Some c -> regular c ->
  (EmailVerificationCode.ConsumedAt c <> None \/
   5 <= EmailVerificationCode.FailedAttempts c) ->
  codes (w_db w') !! k = Some c' ->
  c' = c \/ exists sent, EmailVerificationCode.LastSentAt c' = Some sent /\
                         EmailVerificationCode.LastSentAt c <> Some sent.
Proof.
  intros Hr Hk Hc Hreg Hs Hc'. destruct (reachable_run _ _ _ _ Hr Hk Hc Hreg)
    as (ls & c2 & Hc2 & Hrun & _). simplify_eq.
  apply run_spent in Hrun; [|done]. naive_solver.
Qed.
End guarantees.

(** ** Consuming a code *)
Section consuming.
Context `{EnvOk} `{Pg} `{Unicode} `{Mail} `{JWT} `{Bcrypt}.
Context (h : AuthService).
Import EmailVerificationCode.

(** The challenge a purpose and an address select. *)
Definition challenge_of (email purpose : string) (db : DB) : option t :=
  first (VerificationCodeRepository.matches email purpose) (codes db).

Lemma LockExisting_inr email purpose (tx : TxD) c tx' :
  VerificationCodeRepository.LockExisting email purpose tx = (inr c, tx') ->
  challenge_of email purpose (tx_db tx) = Some c /\ tx_db tx' = tx_db tx.
Proof.
  unfold VerificationCodeRepository.LockExisting, First. intros E. run_inv.
  by simplify_eq.
Qed.

Lemma SaveState_inr c now (tx : TxD) u tx' :
  VerificationCodeRepository.SaveState c now tx = (inr u, tx') ->
  tx_db tx' = VerificationCodeRepository.wipe_codes c now
                (VerificationCodeRepository.save_challenge c now (tx_db tx)).
Proof.
  unfold VerificationCodeRepository.SaveState. intros E. run_inv.
  repeat match goal with Hd : tx_db _ = _ |- _ => rewrite Hd; clear Hd end. done.
Qed.

(** With unique challenges, the selected row after a save is the saved one. *)
Lemma challenge_of_save email purpose c challenge now db :
  keyed ID (codes db) -> unique_on all_rows code_key (codes db) ->
  challenge_of email purpose db = Some c -> ID challenge = ID c ->
  challenge_of email purpose
    (VerificationCodeRepository.wipe_codes challenge now
       (VerificationCodeRepository.save_challenge challenge now db)) =
  Some (merged c challenge now).
Proof.
  intros Hk Hu Hc Hid. apply first_Some in Hc as (Hm & k & Hc).
  pose proof (Hk _ _ Hc). subst k.
  unfold challenge_of, VerificationCodeRepository.save_challenge. cbn.
  apply (first_unique _ _ (ID c)).
  - rewrite lookup_fmap, Hc. cbn. rewrite Hid. by rewrite bool_decide_eq_true_2.
  - done.
  - intros k' r' Hk' Hm'. apply lookup_fmap_Some in Hk' as (r & <- & Hr).
    eapply (Hu k' (ID c) r c); [done|done|done|done|].
    assert (VerificationCodeRepository.matches email purpose r = true) as Hmr
      by (by destruct (bool_decide (ID r = ID challenge))).
    unfold VerificationCodeRepository.matches, code_key in *.
    rewrite andb_true_iff, !bool_decide_eq_true in Hm, Hmr. destruct_and!. congruence.
Qed.

Lemma consume_inr purpose email code (tx : TxD) tx' :
  consumeVerification h purpose email code tx = (inr tt, tx') ->
  exists c now,
    challenge_of email purpose (tx_db tx) = Some c /\
    challenge_dead c now = false /\ CodeDigest c = codeDigest h purpose email code /\
    tx_db tx' = VerificationCodeRepository.wipe_codes (c <| ConsumedAt := Some now |>) now
      (VerificationCodeRepository.save_challenge (c <| ConsumedAt := Some now |>) now
         (tx_db tx)).
Proof.
  unfold consumeVerification. intros E. do 3 run_inv_step. destruct a0 as [e|c]; [by destruct (is_not_found e); run_inv|].
  apply LockExisting_inr in E1 as [Hc Hd].
  destruct (challenge_dead c a) eqn:Hdead; [run_inv|].
  destruct (bool_decide _) eqn:Hcd; [|by run_inv].
  apply bool_decide_eq_true in Hcd. run_inv. apply SaveState_inr in E.
  exists c, a. rewrite E, Hd. replace (tx_db s) with (tx_db tx) in * by done. done.
Qed.

(** single use.  A verification code is accepted only when it is the code
    last sent for that address and purpose (its keyed digest is the stored one),
    unexpired, unused and with fewer than five wrong answers; and once accepted,
    no code whatsoever is accepted for that address and purpose as long as the
    challenge stays as it was left. *)
Theorem verification_code_single_use purpose email code (tx tx' : TxD) :
  tables_ok (tx_db tx) ->
  consumeVerification h purpose email code tx = (inr tt, tx') ->
  (exists c now, challenge_of email purpose (tx_db tx) = Some c /\
     CodeDigest c = codeDigest h purpose email code /\
     ConsumedAt c = None /\ now < ExpiresAt c /\ 0 <= FailedAttempts c < 5) /\
  (forall code2 (tx2 tx3 : TxD), codes (tx_db tx2) = codes (tx_db tx') ->
     consumeVerification h purpose email code2 tx2 <> (inr tt, tx3)).
Proof.
  intros Hok E. apply consume_inr in E as (c & now & Hc & Hd & Hcode & Hdb). split.
  - exists c, now. pose proof (live_challenge _ _ Hd) as (? & ? & ?).
    split_and!; try done. apply first_Some in Hc as (_ & k & Hc).
    apply (codes_ok _ Hok) in Hc as []. lia.
  - intros code2 tx2 tx3 Hsame E2.
    apply consume_inr in E2 as (c2 & now2 & Hc2 & Hd2 & _).
    unfold challenge_of in Hc2. rewrite Hsame, Hdb in Hc2.
    fold (challenge_of email purpose (VerificationCodeRepository.wipe_codes
      (c <| ConsumedAt := Some now |>) now (VerificationCodeRepository.save_challenge
      (c <| ConsumedAt := Some now |>) now (tx_db tx)))) in Hc2.
    erewrite challenge_of_save in Hc2; [|by apply codes_keyed|by apply codes_unique|done|done].
    by simplify_eq.
Qed.
End consuming.

(** ** Wrong answers are committed *)
Section wrong.
Context `{Faultless} `{Pg} `{Unicode} `{Mail} `{JWT} `{Bcrypt}.
Context (h : AuthService).
Import EmailVerificationCode.

(** A transaction one statement later. *)
Definition after_stmt (db : DB) (tx : TxD) : TxD := set_ctr stmt_ctr tx <| tx_db := db |>.

Lemma First_ok {R} (f : DB -> option R) (tx : TxD) v :
  tx_aborted tx = false -> f (tx_db tx) = Some v ->
  First f tx = (inr v, after_stmt (tx_db tx) tx).
Proof. intros Ha Hf. unfold First. erewrite mbind_run by (by apply query_ok). by rewrite Hf. Qed.

Lemma SaveState_ok c now (tx : TxD) :
  tx_aborted tx = false ->
  let db1 := VerificationCodeRepository.save_challenge c now (tx_db tx) in
  let db2 := VerificationCodeRepository.wipe_codes c now db1 in
  VerificationCodeRepository.SaveState c now tx =
    (inr tt, after_stmt db2 (after_stmt db1 tx)).
Proof.
  intros Ha. unfold VerificationCodeRepository.SaveState.
  erewrite mbind_run by (by apply exec_ok). by rewrite exec_ok.
Qed.

(** The failed attempt, as [consumeVerification] records it. *)
Definition failed_once (c : t) : t :=
  c <| FailedAttempts := wrap32 (FailedAttempts c + 1) |>.

Definition record_failure (c : t) (now : time) (db : DB) : DB :=
  VerificationCodeRepository.wipe_codes (failed_once c) now
    (VerificationCodeRepository.save_challenge (failed_once c) now db).

Lemma consume_wrong purpose email code c (tx : TxD) :
  let now := env_now (c_now (tx_ctr tx)) in
  tx_aborted tx = false ->
  challenge_of email purpose (tx_db tx) = Some c -> challenge_dead c now = false ->
  CodeDigest c <> codeDigest h purpose email code ->
  exists tx', consumeVerification h purpose email code tx =
      (inl (EPersisted (EApi invalid_code)), tx') /\
    tx_db tx' = record_failure c now (tx_db tx) /\ tx_aborted tx' = false /\
    tx_before tx' = tx_before tx /\ tx_after tx' = tx_after tx.
Proof.
  intros now Ha Hc Hd Hcode. unfold consumeVerification.
  rewrite mbind_Now. fold now. set (tx1 := tick tx).
  rewrite (mbind_run (attempt _) _ tx1 (inr c) (after_stmt (tx_db tx1) tx1)).
  2: { unfold attempt, VerificationCodeRepository.LockExisting. by rewrite (First_ok _ _ c). }
  rewrite Hd, bool_decide_eq_false_2 by done. cbn [negb].
  erewrite mbind_run by (by apply on_error_run, SaveState_ok).
  eexists. split; [reflexivity|]. done.
Qed.

Lemma found_ok (f : DB -> option User.t) (tx : TxD) u :
  tx_aborted tx = false -> f (tx_db tx) = Some u ->
  found_or_invalid_code (First f) tx = (inr u, after_stmt (tx_db tx) tx).
Proof. intros. by apply on_error_run, First_ok. Qed.

(** [ResetPassword] up to the check of the code. *)
Lemma ResetPassword_wrong input email u u' c (tx : TxD) :
  let now := env_now (c_now (tx_ctr tx)) in
  let db := tx_db tx in
  tx_aborted tx = false ->
  normalizeEmail (pi_Email input) = inr email ->
  validatePasswordField "new_password" (pi_NewPassword input) true = inr tt ->
  validateVerificationCode (Some (pi_VerificationCode input)) = inr tt ->
  first (fun u => UserRepository.same_email email u && (false || UserRepository.live u))
    (users db) = Some u ->
  first (fun v => bool_decide (User.ID v = User.ID u) && UserRepository.live v)
    (users db) = Some u' ->
  challenge_of email VerificationPurposePasswordReset db = Some c ->
  challenge_dead c now = false ->
  CodeDigest c <> codeDigest h VerificationPurposePasswordReset email
                    (pi_VerificationCode input) ->
  exists tx', ResetPassword h input tx = (inl (EPersisted (EApi invalid_code)), tx') /\
    tx_db tx' = record_failure c now db /\ tx_aborted tx' = false /\
    tx_before tx' = tx_before tx /\ tx_after tx' = tx_after tx.
Proof.
  intros now db Ha He Hp Hv Hu Hl Hc Hd Hcode. unfold ResetPassword. rewrite He, Hp, Hv.
  rewrite (mbind_run (lift (inr tt)) _ tx tt tx eq_refl).
  rewrite (mbind_run (lift (inr tt)) _ tx tt tx eq_refl).
  erewrite mbind_run by (by apply (found_ok _ tx u)).
  set (tx1 := after_stmt _ tx).
  erewrite mbind_run by (by apply (found_ok _ tx1 u')).
  set (tx2 := after_stmt _ tx1).
  destruct (consume_wrong VerificationPurposePasswordReset email
    (pi_VerificationCode input) c tx2) as (tx' & E & ? & ? & ? & ?); [done..|].
  exists tx'. split; [by apply mbind_stop | done].
Qed.

(** A handler that reports a persisted client error commits. *)
Lemma serve_persisted {X} ia random (next : AuthH) e (tx : TxD) (w : World DB X) :
  Status (As None e) = 400 -> ShouldCommitError e = true -> as_rate_limit e = None ->
  next fresh_request (begin_tx true w) = Returned (failService e fresh_request) tx ->
  tx_aborted tx = false -> tx_before tx = [] -> tx_after tx = [] ->
  exists c w', serve interp_before ia random next fresh_request w = (c, w') /\
    rc_status c = 400 /\ rc_body c = [snd (FromError (As random e))] /\
    w_db w' = tx_db tx.
Proof.
  intros Hs Hp Hl Hn Ha Hb Haf. unfold serve, UnitOfWork, commit_error.
  rewrite faultless_begin, Hn. unfold failService. rewrite Hl, Hp.
  assert (request_failed (Fail (Some e) (CommitError fresh_request) : Ctx) = false) as ->.
  { unfold request_failed, shouldCommitError, HasError. cbn. by rewrite Hs. }
  unfold BeforeCommitQueue_Run. rewrite Hb. cbn [run_before mret].
  unfold set_field. cbn. rewrite Ha, faultless_commit, Haf. cbn.
  unfold ErrorHandler, ReportedError, FromError. cbn.
  do 2 eexists. split; [reflexivity|]. cbn. by rewrite Status_As.
Qed.

(** a wrong answer counts, although its request fails.  In a fault-free
    environment, a password-reset request with a wrong code for a live challenge
    is answered 400 [verify_code_invalid], and yet its transaction is committed:
    the only change of the database is the challenge's recorded failure (and the
    wiping of plaintext codes that can no longer be delivered). *)
Theorem wrong_code_is_counted {X} (ia : AfterOp -> World DB X -> World DB X * option string)
    random info r email u u' c (w : World DB X) :
  let now := env_now (c_now (w_ctr w)) in
  normalizeEmail (prc_Email r) = inr email ->
  validatePasswordField "new_password" (prc_NewPassword r) true = inr tt ->
  validateVerificationCode (Some (prc_VerificationCode r)) = inr tt ->
  first (fun u => UserRepository.same_email email u && (false || UserRepository.live u))
    (users (w_db w)) = Some u ->
  first (fun v => bool_decide (User.ID v = User.ID u) && UserRepository.live v)
    (users (w_db w)) = Some u' ->
  challenge_of email VerificationPurposePasswordReset (w_db w) = Some c ->
  challenge_dead c now = false ->
  CodeDigest c <> codeDigest h VerificationPurposePasswordReset email
                    (prc_VerificationCode r) ->
  exists ctx w', request h ia random info (POST_password_resets (Some r)) w = (ctx, w') /\
    rc_status ctx = 400 /\
    rc_body ctx = [mkEnvelope 400 "验证码无效或已过期" DataNull BizVerifyCodeInvalid] /\
    w_db w' = record_failure c now (w_db w).
Proof.
  intros now He Hp Hv Hu Hl Hc Hd Hcode.
  destruct (ResetPassword_wrong (mkPasswordResetInput (prc_Email r)
    (prc_VerificationCode r) (prc_NewPassword r)) email u u' c (begin_tx true w))
    as (tx & E & Hdb & Ha & Hb & Haf); [done..|].
  destruct (serve_persisted ia random (route h info (POST_password_resets (Some r)))
    (EPersisted (EApi invalid_code)) tx w) as (ctx & w' & Es & Hst & Hbody & Hw);
    [done..| |done|done|done|].
  { cbn. unfold ResetPasswordHandler, bindJSON, respond. by rewrite E. }
  exists ctx, w'. split_and!; [done|done|done|]. by rewrite Hw, Hdb.
Qed.
End wrong.

(** ** Retry-After *)
Section retry_after.
Import EmailVerificationCode.

Lemma retry_seconds_enough r : r <= retry_seconds r * Second.
Proof.
  unfold retry_seconds. change Second with 1000000000.
  pose proof (Z.div_mod (- r) 1000000000 ltac:(lia)).
  pose proof (Z.mod_pos_bound (- r) 1000000000 ltac:(lia)). lia.
Qed.

Lemma retry_seconds_bounds r k :
  r <= k * Second -> 1 <= k -> 1 <= retry_seconds r <= k.
Proof.
  unfold retry_seconds. change Second with 1000000000. intros Hr Hk.
  pose proof (Z.div_le_lower_bound (- r) 1000000000 (- k) ltac:(lia) ltac:(lia)). lia.
Qed.

Definition cooling (c : t) (now : time) : Prop :=
  exists last, LastSentAt c = Some last /\ now < last + Minute.
Definition window_full (c : t) (now : time) : Prop :=
  now < SendWindowStartedAt c + Hour /\ 5 <= SendCount c.

(** What [enforceSendRate] decides, in plain terms. *)
Lemma enforceSendRate_spec c now :
  regular c -> instant now ->
  match snd (enforceSendRate c now) with
  | None => ~ cooling c now /\ ~ window_full c now
  | Some err =>
      (exists last, LastSentAt c = Some last /\ now < last + Minute /\
         err = rateLimitError (last + Minute - now)) \/
      (~ cooling c now /\ window_full c now /\
         err = rateLimitError (SendWindowStartedAt c + Hour - now))
  end.
Proof.
  intros Hr Hi. unfold enforceSendRate, cooling, window_full.
  rewrite cooldown_exact by done. pose proof (regular_start _ Hr) as Hs.
  rewrite !sub_exact by done. unfold maxSendsPerWindow, verificationSendWindow.
  destruct (0 <? _) eqn:Hc; cbn.
  { left. destruct (LastSentAt c) as [last|]; [|done]. exists last.
    split_and!; [done|lia|]. f_equal. lia. }
  assert (~ exists last, LastSentAt c = Some last /\ now < last + Minute) as Hn
    by (intros (last & Hl & ?); rewrite Hl in Hc; lia).
  destruct (Hour <=? _) eqn:Hw; cbn; [split; [done|lia]|].
  rewrite sub_exact by done.
  destruct (5 <=? SendCount c) eqn:H5; cbn; [|split; [done|lia]].
  right. split_and!; [done|lia|lia|]. f_equal.
  unfold instant in *. unfold wrap64, Hour, Minute, Second, Millisecond, Microsecond in *.
  rewrite Z.mod_small; lia.
Qed.

(** C30: [Retry-After] is honest and bounded.  A rejected send names a delay
    between one second and an hour; when the client has waited that long, it is
    not rejected for the same reason: either the code is sent, or (only after a
    rejection by the one-minute cooldown) the hourly window is exhausted and the
    delay named then is enough. *)
Theorem retry_after_suffices c now c1 err :
  regular c -> instant now -> SendWindowStartedAt c <= now ->
  (forall last, LastSentAt c = Some last -> last <= now) ->
  enforceSendRate c now = (c1, Some err) ->
  exists n, as_rate_limit err = Some n /\ 1 <= n <= 3600 /\
    forall later, instant later -> now + n * Second <= later ->
      snd (enforceSendRate c later) = None \/
      (cooling c now /\ exists err' n',
         snd (enforceSendRate c later) = Some err' /\ as_rate_limit err' = Some n' /\
         forall later', instant later' -> later + n' * Second <= later' ->
           snd (enforceSendRate c later') = None).
Proof.
  intros Hr Hi Hst Hla E. pose proof (enforceSendRate_spec c now Hr Hi) as Hsp.
  rewrite E in Hsp. cbn in Hsp.
  assert (forall t1 t2, window_full c t1 -> instant t2 ->
    (forall last, LastSentAt c = Some last -> last + Minute <= t2) ->
    t1 + retry_seconds (SendWindowStartedAt c + Hour - t1) * Second <= t2 ->
    snd (enforceSendRate c t2) = None) as Hwin.
  { intros t1 t2 Hf Hi2 Hl2 Ht. pose proof (enforceSendRate_spec c t2 Hr Hi2) as Hs2.
    pose proof (retry_seconds_enough (SendWindowStartedAt c + Hour - t1)).
    destruct (snd (enforceSendRate c t2)); [|done].
    destruct Hs2 as [(last & Hl & Hlt & _) | (_ & [Hf2 _] & _)]; [|lia].
    apply Hl2 in Hl. lia. }
  destruct Hsp as [(last & Hl & Hlt & ->) | (Hnc & Hf & ->)].
  - exists (retry_seconds (last + Minute - now)). split; [done|].
    pose proof (Hla _ Hl). split.
    { pose proof (retry_seconds_bounds (last + Minute - now) 60). unfold Minute in *. lia. }
    intros later Hil Hlater. pose proof (retry_seconds_enough (last + Minute - now)).
    pose proof (enforceSendRate_spec c later Hr Hil) as Hs2.
    destruct (snd (enforceSendRate c later)) as [err'|]; [right|by left].
    split; [by exists last|].
    destruct Hs2 as [(last' & Hl' & Hlt' & _) | (_ & Hf & ->)]; [simplify_eq; lia|].
    eexists _, _. split_and!; [done|done|]. intros later' Hil' Hlater'.
    eapply (Hwin later); [done|done| |done]. intros last' Hl'. simplify_eq.
    assert (0 < retry_seconds (SendWindowStartedAt c + Hour - later)) by
      (unfold retry_seconds; lia).
    unfold Second, Millisecond, Microsecond in *. lia.
  - exists (retry_seconds (SendWindowStartedAt c + Hour - now)). split; [done|]. split.
    { apply retry_seconds_bounds; [|lia]. unfold Hour, Minute in *. lia. }
    intros later Hil Hlater. left. eapply (Hwin now); [done|done| |done].
    intros last Hl. pose proof (retry_seconds_bounds 0 1).
    destruct (decide (now < last + Minute)); [by destruct Hnc; exists last|].
    assert (0 < retry_seconds (SendWindowStartedAt c + Hour - now)) by
      (unfold retry_seconds; lia).
    unfold Second, Millisecond, Microsecond in *. lia.
Qed.
End retry_after.
