(* ===== verification/AuthTokens.v ===== *)
(** * Tokens and sessions

    Which tokens authenticate, what revocation means for every later request, and
    that what [Login] returns works.  The JWT library is used through its laws
    ([JWTLaws]); the sessions table through its own machine ([sess_le]): a session
    never changes its owner or its lifetime, and a revoked one stays revoked. *)

From S2P Require Import Prelude.
From S2P Require Import GoText.
From S2P Require Import Apierr.
From S2P Require Import Effects.
From S2P Require Import Logic.
From S2P Require Import Model.
From S2P Require Import Authz.
From S2P Require Import Middleware.
From S2P Require Import Validation.
From S2P Require Import Digest.
From S2P Require Import AuthRepo.
From S2P Require Import AuthService.
From S2P Require Import AuthHandler.
From S2P Require Import AuthTables.
From S2P Require Import AuthCodes.
Open Scope Z_scope.

(** ** The session machine *)
Record sess_le (s s' : UserSession.t) : Prop := {
  le_id : UserSession.ID s' = UserSession.ID s;
  le_user : UserSession.UserID s' = UserSession.UserID s;
  le_created : UserSession.CreatedAt s' = UserSession.CreatedAt s;
  le_expires : UserSession.ExpiresAt s' = UserSession.ExpiresAt s;
  le_seen : UserSession.LastSeenAt s <= UserSession.LastSeenAt s';
  le_revoked : forall r, UserSession.RevokedAt s = Some r -> UserSession.RevokedAt s' = Some r;
}.

#[export] Instance sess_le_preorder : PreOrder sess_le.
Proof.
  split.
  - intros s. by split.
  - intros s1 s2 s3 [] []. split; try congruence; [lia | auto].
Qed.

Definition sess_run (db db' : DB) : Prop :=
  forall k s, user_sessions db !! k = Some s ->
    exists s', user_sessions db' !! k = Some s' /\ sess_le s s'.

#[export] Instance sess_run_preorder : PreOrder sess_run.
Proof.
  split.
  - intros db k s Hs. by exists s.
  - intros db1 db2 db3 H12 H23 k s Hs. apply H12 in Hs as (s2 & Hs2 & ?).
    apply H23 in Hs2 as (s3 & ? & ?). exists s3. split; [done | by etrans].
Qed.

Lemma sess_run_same db db' : user_sessions db' = user_sessions db -> sess_run db db'.
Proof. intros He k s Hs. exists s. by rewrite He. Qed.

Lemma sess_run_fmap db db' f :
  user_sessions db' = f <$> user_sessions db -> (forall s, sess_le s (f s)) -> sess_run db db'.
Proof. intros He Hf k s Hs. exists (f s). split; [by rewrite He, lookup_fmap, Hs | done]. Qed.

Section statements.
Context `{Env} `{Pg}.

Lemma sess_First {R} (f : DB -> option R) : Keeps sess_run (First f).
Proof. unfold First. solve_keeps. Qed.

Lemma sess_stmt {R} (f : DB -> goerr + R * DB) :
  (forall db r db', f db = inr (r, db') -> user_sessions db' = user_sessions db) ->
  Keeps sess_run (stmt f : MT R).
Proof. intros Hf. apply (keeps_stmt _). intros db r db' E. by eapply sess_run_same, Hf. Qed.

Lemma sess_UserCreate u : Keeps sess_run (UserRepository.Create u).
Proof.
  unfold UserRepository.Create. solve_keeps. apply sess_stmt.
  unfold UserRepository.insert_user. intros db r db' E. repeat case_match; by simplify_eq.
Qed.

Lemma sess_ClaimUsername uid name now : Keeps sess_run (UserRepository.ClaimUsername uid name now).
Proof.
  unfold UserRepository.ClaimUsername. solve_keeps. apply sess_stmt.
  intros db r db' E. repeat case_match; by simplify_eq.
Qed.

Lemma sess_UpdatePassword uid p : Keeps sess_run (UserRepository.UpdatePassword uid p).
Proof. unfold UserRepository.UpdatePassword. solve_keeps. apply sess_stmt. naive_solver. Qed.

Lemma sess_CreateModerationRecord r : Keeps sess_run (UserRepository.CreateModerationRecord r).
Proof.
  unfold UserRepository.CreateModerationRecord. solve_keeps. apply sess_stmt.
  intros db r' db' E. case_match; by simplify_eq.
Qed.

Lemma sess_LockOrCreate email purpose now :
  Keeps sess_run (VerificationCodeRepository.LockOrCreate email purpose now).
Proof.
  unfold VerificationCodeRepository.LockOrCreate. solve_keeps.
  apply sess_stmt. intros db r' db' E. repeat case_match; by simplify_eq.
Qed.

Lemma sess_SaveState c now : Keeps sess_run (VerificationCodeRepository.SaveState c now).
Proof.
  unfold VerificationCodeRepository.SaveState. solve_keeps; apply sess_stmt; naive_solver.
Qed.

Lemma sess_SessionCreate s : Keeps sess_run (SessionRepository.Create s).
Proof.
  unfold SessionRepository.Create. solve_keeps. apply (keeps_stmt _).
  intros db r' db' E. destruct (exists_row _ _); [done|].
  destruct (insert_row _ _ _ _) as [|t] eqn:Ht; simplify_eq.
  apply insert_row_inr in Ht as [Hn ->]. intros k s' Hs. exists s'.
  split; [|done]. cbn. rewrite lookup_insert_ne; [done|]. congruence.
Qed.

Lemma sess_SetRefreshDigest sid d : Keeps sess_run (SessionRepository.SetRefreshDigest sid d).
Proof.
  apply (keeps_stmt _). intros db r' db' E. destruct (exists_row _ _); simplify_eq.
  intros k s Hs. cbn. destruct (decide (k = sid)) as [->|Hne].
  - rewrite lookup_alter_eq, Hs. eexists. split; [done|]. by split.
  - rewrite lookup_alter_ne by done. by exists s.
Qed.

Lemma sess_revoke_row now s :
  UserSession.RevokedAt s = None -> sess_le s (SessionRepository.revoke_row now s).
Proof. intros Hr. split; cbn; try done. by rewrite Hr. Qed.

Lemma sess_Revoke uid sid now : Keeps sess_run (SessionRepository.Revoke uid sid now).
Proof.
  unfold SessionRepository.Revoke. solve_keeps. apply (keeps_stmt _).
  intros db r' db' [= <- <-]. eapply sess_run_fmap; [done|]. intros s; cbn beta.
  case_match eqn:Hp; [|done]. rewrite !andb_true_iff, !bool_decide_eq_true in Hp.
  destruct_and!. by apply sess_revoke_row.
Qed.

Lemma sess_RevokeAll uid now : Keeps sess_run (SessionRepository.RevokeAll uid now).
Proof.
  apply (keeps_exec _). intros db. eapply sess_run_fmap; [done|]. intros s; cbn beta.
  case_match eqn:Hp; [|done]. rewrite andb_true_iff, !bool_decide_eq_true in Hp.
  destruct_and!. by apply sess_revoke_row.
Qed.

Lemma sess_Touch sid now t : 0 <= t -> Keeps sess_run (SessionRepository.Touch sid now t).
Proof.
  intros Ht. apply (keeps_exec _). intros db. eapply sess_run_fmap; [done|]. intros s; cbn beta.
  unfold SessionRepository.touch_row, time_Add. case_match eqn:Hp; [|done].
  rewrite !andb_true_iff in Hp. split; cbn; try done. lia.
Qed.

Lemma sess_interp_before op : Keeps sess_run (interp_before op).
Proof. destruct op. by apply sess_Touch. Qed.

Lemma sess_hash_password `{Bcrypt} p : Keeps sess_run (hash_password p).
Proof. apply keeps_same; [apply _|]. by intros tx r tx' [= <- <-]. Qed.

Lemma sess_call_review m q : Keeps sess_run (call_review m q).
Proof. apply keeps_same; [apply _|]. by intros tx r tx' [= <- <-]. Qed.
End statements.

#[export] Hint Resolve sess_First sess_UserCreate sess_ClaimUsername sess_UpdatePassword
  sess_CreateModerationRecord sess_LockOrCreate sess_SaveState sess_SessionCreate
  sess_SetRefreshDigest sess_Revoke sess_RevokeAll sess_interp_before sess_hash_password
  sess_call_review : keeps.

Section sessions.
Context `{EnvOk} `{Pg} `{Unicode} `{Mail} `{JWT} `{Bcrypt}.
Context (h : AuthService).
Context (Hqueue : forall q, deliveries h = Some q -> QueueFrame user_sessions q).

Lemma sess_enqueue challenge email purpose digest code now :
  Keeps sess_run (enqueueVerificationEmail h challenge email purpose digest code now).
Proof.
  unfold enqueueVerificationEmail. repeat case_match; try apply (keeps_api_error _).
  apply (keeps_bind _); [|solve_keeps].
  apply (keeps_on_error _); [|intros; apply (keeps_internal _)].
  intros tx r tx' E. apply sess_run_same. by apply (Hqueue _ ltac:(done)) in E.
Qed.

Lemma sess_userView u : Keeps sess_run (userView u).
Proof. unfold userView. solve_keeps. Qed.
Hint Resolve sess_enqueue sess_userView : keeps.

Lemma sess_issueSession user client now : Keeps sess_run (issueSession h user client now).
Proof. unfold issueSession, sign, randomDigest. solve_keeps. Qed.
Lemma sess_parse_claims token typ : Keeps sess_run (parse_claims h token typ).
Proof. unfold parse_claims. solve_keeps. Qed.
Lemma sess_sessionLookupError {R} e : Keeps sess_run (sessionLookupError (A := R) e).
Proof. unfold sessionLookupError. solve_keeps. Qed.
Lemma sess_findLoginUser id : Keeps sess_run (findLoginUser h id).
Proof.
  unfold findLoginUser, UserRepository.FindByEmail, UserRepository.FindByUsername.
  solve_keeps.
Qed.
Lemma sess_consume purpose email code :
  Keeps sess_run (consumeVerification h purpose email code).
Proof. unfold consumeVerification, VerificationCodeRepository.LockExisting. solve_keeps. Qed.
Hint Resolve sess_issueSession sess_parse_claims sess_sessionLookupError
  sess_findLoginUser sess_consume : keeps.

Lemma service_sess_run db0 : ServiceInv h (sess_run db0).
Proof.
  assert (forall R (m : MT R), Keeps sess_run m -> Inv (sess_run db0) m any) as Hc.
  { intros R m Hm tx r tx' E Hp. split; [|done]. etrans; [exact Hp | by eapply Hm]. }
  split; intros; apply Hc.
  - unfold SendVerificationCode, lookup_user, randomDigest, generateVerificationCode,
      UserRepository.FindByEmail. solve_keeps.
  - unfold SendPasswordResetCode, lookup_user, randomDigest, generateVerificationCode,
      UserRepository.FindByEmail, UserRepository.LockByID. solve_keeps.
  - unfold ResetPassword, found_or_invalid_code, UserRepository.FindByEmail,
      UserRepository.LockByID. solve_keeps.
  - unfold Register, validateModerationResult, lookup_user, UserRepository.FindByEmail.
    solve_keeps.
  - unfold Login, UserRepository.LockByID. solve_keeps.
  - unfold Refresh, SessionRepository.FindRefreshIdentity, deferSessionTouch, sign. solve_keeps.
  - unfold Authenticate, SessionRepository.FindActiveIdentity, deferSessionTouch. solve_keeps.
  - unfold CurrentUser. solve_keeps.
  - unfold Logout. solve_keeps.
  - unfold LogoutAll. solve_keeps.
  - unfold Sessions, SessionRepository.ListActive. solve_keeps.
  - unfold KickSession. solve_keeps.
  - apply sess_interp_before.
Qed.
End sessions.

(** ** What authenticates *)
Section tokens.
Context `{Env} `{Pg} `{Unicode} `{Mail} `{JWT} `{Bcrypt}.
Context (h : AuthService).
Abbreviation secret := (JWTSecretKey (cfg h)).

(** The identifiers a valid token of type [typ] carries. *)
Definition token_ids (now : time) (token : string) (typ : TokenType) : option (Z * Z) :=
  match jwt_parse secret now token with
  | JWTValid c =>
      if bool_decide (cl_Type c = typ) && (0 <? SessionID c)
      then match UserID c with
           | Some uid => if 0 <? uid then Some (uid, SessionID c) else None
           | None => None
           end
      else None
  | _ => None
  end.

(** The identity behind an access token, as the proofs below follow it through
    [Authenticate]. [t1] is the library's clock, [t2] the service's. *)
Definition authenticated (t1 t2 : time) (token : string) (db : DB) : option Principal :=
  match token_ids t1 token TypeAccess with
  | Some (uid, sid) =>
      (fun i => mkPrincipal (id_User i) (UserSession.ID (id_Session i))) <$>
        SessionRepository.lookup_identity (fun _ => true) sid uid t2 db
  | None => None
  end.

(** Two reads of the clock and two counters on. *)
Lemma parse_claims_spec token typ (tx : TxD) :
  match token_ids (env_now (c_now (tx_ctr tx))) token typ with
  | Some ids => parse_claims h token typ tx = (inr ids, tick tx)
  | None => exists cause, parse_claims h token typ tx =
              (inl (EApi (WithCause Unauthorized cause)), tick tx)
  end.
Proof.
  cbn. fold (tick tx).
  unfold token_ids, Parse, claimIDs.
  destruct (jwt_parse _ _ token) as [c| |]; [|by eexists..].
  case_bool_decide; cbn [negb andb]; [|by eexists].
  destruct (Z.leb_spec (SessionID c) 0) as [Hs|Hs].
  { replace (0 <? SessionID c) with false by lia. by eexists. }
  replace (0 <? SessionID c) with true by lia.
  destruct (UserID c) as [uid|] eqn:Hu; [|by eexists]. rewrite Hu.
  replace (SessionID c <=? 0) with false by lia. rewrite orb_false_r.
  destruct (Z.leb_spec uid 0).
  - replace (0 <? uid) with false by lia. by eexists.
  - by replace (0 <? uid) with true by lia.
Qed.

Lemma parse_claims_inr token typ (tx : TxD) ids tx' :
  parse_claims h token typ tx = (inr ids, tx') ->
  token_ids (env_now (c_now (tx_ctr tx))) token typ = Some ids /\ tx_db tx' = tx_db tx.
Proof.
  intros E. pose proof (parse_claims_spec token typ tx) as Hs.
  destruct (token_ids _ token typ) as [i|].
  - rewrite Hs in E. by simplify_eq.
  - destruct Hs as [c Hs]. rewrite Hs in E. done.
Qed.

Lemma token_ids_valid now token typ uid sid :
  token_ids now token typ = Some (uid, sid) ->
  exists c, jwt_parse secret now token = JWTValid c /\ cl_Type c = typ /\
    UserID c = Some uid /\ SessionID c = sid /\ 0 < uid /\ 0 < sid.
Proof.
  unfold token_ids. destruct (jwt_parse _ _ _) as [c| |]; [|done..].
  case_bool_decide; cbn; [|done]. destruct (Z.ltb_spec 0 (SessionID c)); [|done].
  destruct (UserID c) as [u|] eqn:Hu; [|done]. destruct (Z.ltb_spec 0 u); [|done].
  intros [= <- <-]. by exists c.
Qed.

Lemma Authenticate_inr token (tx : TxD) p tx' :
  Authenticate h token tx = (inr p, tx') ->
  exists t1 t2, authenticated t1 t2 token (tx_db tx) = Some p.
Proof.
  unfold Authenticate. intros E. run_inv_step. destruct a as [uid sid].
  apply parse_claims_inr in E0 as [Hids Hd].
  unfold SessionRepository.FindActiveIdentity, sessionLookupError, deferSessionTouch in E.
  run_inv. simplify_eq.
  eexists _, _. unfold authenticated. rewrite Hids, <- Hd.
  match goal with Hl : Some _ = SessionRepository.lookup_identity _ _ _ _ (tx_db ?x),
    Hx : tx_db ?x = _ |- _ => rewrite <- Hx, <- Hl end.
  done.
Qed.
End tokens.

Section token_theorems.
Context `{Env} `{Pg} `{Unicode} `{Mail} `{JWT} `{Bcrypt}.
Context (h : AuthService).

Lemma Refresh_inr token (tx : TxD) r tx' :
  Refresh h token tx = (inr r, tx') ->
  exists t1 t2 uid sid i,
    token_ids h t1 token TypeRefresh = Some (uid, sid) /\
    SessionRepository.lookup_identity
      (fun s => bool_decide (UserSession.RefreshTokenDigest s = Digest token))
      sid uid t2 (tx_db tx) = Some i.
Proof.
  unfold Refresh. intros E. run_inv_step; [by run_inv|]. run_inv_step.
  destruct a as [uid sid]. apply parse_claims_inr in E0 as [Hids Hd].
  unfold SessionRepository.FindRefreshIdentity, sessionLookupError, deferSessionTouch in E.
  repeat (run_inv_step; try destruct (is_not_found _)).
  all: simplify_eq; try done.
  do 5 eexists. split; [done|]. rewrite <- Hd.
  match goal with Hl : Some _ = SessionRepository.lookup_identity _ _ _ _ (tx_db ?x),
    Hx : tx_db ?x = _ |- _ => rewrite <- Hx, <- Hl end.
  done.
Qed.

Lemma lookup_identity_Some p sid uid now db i :
  SessionRepository.lookup_identity p sid uid now db = Some i ->
  exists s u, user_sessions db !! sid = Some s /\ users db !! uid = Some u /\
    UserSession.UserID s = uid /\ p s = true /\
    UserSession.RevokedAt s = None /\ now < UserSession.ExpiresAt s /\
    User.DeletedAt u = None /\ SessionRepository.user_banned now u = false /\
    i = SessionRepository.identity s u (UserRepository.roles_of db uid).
Proof.
  unfold SessionRepository.lookup_identity. repeat case_match; try done. intros [= <-].
  unfold SessionRepository.session_live, SessionRepository.user_active,
    UserRepository.live in *.
  rewrite !andb_true_iff, !bool_decide_eq_true, negb_true_iff in *. destruct_and!.
  do 2 eexists. split_and!; try done. lia.
Qed.

(** What an access token has to be, read off the tables and the token itself: it
    parses (its signature and its expiry are the library's part) as an access token
    with positive identifiers; the session it names is stored, is its user's, is not
    revoked and has not expired; the user is stored, not deleted, and under no ban,
    permanent or running. [t1] is the library's clock, [t2] the service's. *)
Record acceptable (t1 t2 : time) (token : string) (db : DB)
    (c : Claims) (uid : Z) (s : UserSession.t) (u : User.t) : Prop := {
  ac_parse : jwt_parse (JWTSecretKey (cfg h)) t1 token = JWTValid c;
  ac_type : cl_Type c = TypeAccess;
  ac_subject : ParseInt (Subject c) = Some uid /\ 0 < uid;
  ac_sid : 0 < SessionID c;
  ac_session : user_sessions db !! SessionID c = Some s;
  ac_owner : UserSession.UserID s = uid;
  ac_unrevoked : UserSession.RevokedAt s = None;
  ac_unexpired : t2 < UserSession.ExpiresAt s;
  ac_user : users db !! uid = Some u;
  ac_undeleted : User.DeletedAt u = None;
  ac_no_ban : User.BanIsPermanent u = false;
  ac_ban_over : forall b, User.BannedUntil u = Some b -> b <= t2;
}.

(** The principal of an account: its row with the roles bound to it, and the session. *)
Definition principal_of (db : DB) (s : UserSession.t) (u : User.t) (p : Principal) : Prop :=
  exists roles, p = mkPrincipal (u <| User.Roles := Some roles |>) (UserSession.ID s) /\
    forall role, role ∈ roles <-> is_Some (user_roles db !! (UserSession.UserID s, role)).

Lemma roles_of_bound db uid role :
  role ∈ UserRepository.roles_of db uid <-> is_Some (user_roles db !! (uid, role)).
Proof.
  unfold UserRepository.roles_of. rewrite elem_of_sort_by. split.
  - intros ([[k r] v] & -> & Hf)%list_elem_of_fmap.
    apply list_elem_of_filter in Hf as [Hk Hin]. cbn in *. subst k. exists v.
    by apply elem_of_map_to_list.
  - intros [v Hv]. apply list_elem_of_fmap. exists (uid, role, v). split; [done|].
    apply list_elem_of_filter. split; [done|]. by apply elem_of_map_to_list.
Qed.

Lemma lookup_acceptable t1 t2 token db uid sid i :
  token_ids h t1 token TypeAccess = Some (uid, sid) ->
  SessionRepository.lookup_identity (fun _ => true) sid uid t2 db = Some i ->
  exists c s u, acceptable t1 t2 token db c uid s u /\
    i = SessionRepository.identity s u (UserRepository.roles_of db uid).
Proof.
  intros (c & Hp & Hty & Hu & <- & Hu0 & Hs0)%token_ids_valid.
  intros (s & u & Hs & Hus & Ho & _ & Hr & He & Hd & Hb & ->)%lookup_identity_Some.
  exists c, s, u. split; [|done]. unfold SessionRepository.user_banned in Hb.
  apply orb_false_iff in Hb as [Hb Hb']. split; try done.
  intros b E. rewrite E in Hb'. lia.
Qed.

Lemma acceptable_lookup t1 t2 token db c uid s u :
  acceptable t1 t2 token db c uid s u ->
  token_ids h t1 token TypeAccess = Some (uid, SessionID c) /\
  SessionRepository.lookup_identity (fun _ => true) (SessionID c) uid t2 db =
    Some (SessionRepository.identity s u (UserRepository.roles_of db uid)).
Proof.
  intros [Hp Hty [Hu Hu0] Hs0 Hs Ho Hr He Hus Hd Hb Hb']. split.
  - unfold token_ids, UserID. rewrite Hp, bool_decide_true, Hu by done. cbn.
    by rewrite !(proj2 (Z.ltb_lt _ _)) by done.
  - unfold SessionRepository.lookup_identity, SessionRepository.session_live,
      SessionRepository.user_active, SessionRepository.user_banned, UserRepository.live.
    rewrite Hs, Hus, Ho, Hr, Hd, Hb, !bool_decide_true, (proj2 (Z.ltb_lt _ _)) by done. cbn.
    destruct (User.BannedUntil u) as [b|] eqn:E; [|done]. specialize (Hb' b eq_refl).
    by rewrite (proj2 (Z.ltb_ge _ _)) by done.
Qed.

(** One run of [Authenticate]: its reads, whatever the environment does. *)
Lemma Authenticate_run token (tx : TxD) :
  let t2 := env_now (S (c_now (tx_ctr tx))) in
  match token_ids h (env_now (c_now (tx_ctr tx))) token TypeAccess with
  | Some (uid, sid) =>
      match SessionRepository.FindActiveIdentity sid uid t2 (tick (tick tx)) with
      | (inl err, tx1) => Authenticate h token tx = sessionLookupError err tx1
      | (inr i, tx1) => Authenticate h token tx =
          (inr (mkPrincipal (id_User i) (UserSession.ID (id_Session i))),
           tx1 <| tx_before := tx_before tx1 ++ [SessionTouch sid t2] |>)
      end
  | None => exists cause,
      Authenticate h token tx = (inl (EApi (WithCause Unauthorized cause)), tick tx)
  end.
Proof.
  cbv zeta. unfold Authenticate. pose proof (parse_claims_spec h token TypeAccess tx) as Hp.
  destruct (token_ids h _ token TypeAccess) as [[uid sid]|].
  2: { destruct Hp as [cause Hp]. exists cause. by apply mbind_stop. }
  rewrite (mbind_run _ _ _ _ _ Hp), mbind_Now.
  change (env_now (c_now (tx_ctr (tick tx)))) with (env_now (S (c_now (tx_ctr tx)))).
  destruct (SessionRepository.FindActiveIdentity _ _ _ _) as [[err|i] tx1] eqn:E.
  - unfold mbind at 1, on_error at 1. rewrite E.
    unfold sessionLookupError, api_error, internal, throw, mbind, RandRead.
    by destruct (is_not_found err).
  - by erewrite mbind_run by by apply on_error_run.
Qed.

Lemma FindActiveIdentity_run sid uid now (tx : TxD) :
  (exists e, SessionRepository.FindActiveIdentity sid uid now tx =
     (inl e, (SessionRepository.FindActiveIdentity sid uid now tx).2) /\
     tx_db (SessionRepository.FindActiveIdentity sid uid now tx).2 = tx_db tx /\
     (Faultless -> tx_aborted tx = false -> e = ErrNotFound /\
        SessionRepository.lookup_identity (fun _ => true) sid uid now (tx_db tx) = None)) \/
  (exists i tx1, SessionRepository.FindActiveIdentity sid uid now tx = (inr i, tx1) /\
     tx_db tx1 = tx_db tx /\ tx_before tx1 = tx_before tx /\
     SessionRepository.lookup_identity (fun _ => true) sid uid now (tx_db tx) = Some i).
Proof.
  unfold SessionRepository.FindActiveIdentity, query, stmt, mbind. cbv beta zeta iota.
  change (tx_aborted (set_ctr _ tx)) with (tx_aborted tx).
  change (tx_db (set_ctr _ tx)) with (tx_db tx).
  destruct (tx_aborted tx) eqn:Ha; [left; eexists; by split_and!|].
  destruct (env_stmt _) eqn:Hs; [left; eexists; split_and!; try done|].
  { intros F _. by rewrite (faultless_stmt (Faultless := F)) in Hs. }
  destruct (SessionRepository.lookup_identity _ _ _ _ _) as [i|].
  - right. eexists _, _. by split_and!.
  - left. eexists. by split_and!.
Qed.

Lemma sessionLookupError_run {R} err (tx : TxD) :
  exists e tx1, (sessionLookupError err : MT R) tx = (inl e, tx1) /\ tx_db tx1 = tx_db tx /\
    (err = ErrNotFound -> e = EApi (WithCause Unauthorized errInvalidSession)).
Proof.
  unfold sessionLookupError, api_error, internal, throw, mbind, RandRead.
  destruct (is_not_found err) eqn:Hn; do 2 eexists; split_and!; try done.
  by intros ->.
Qed.

(** C31: exactly which access tokens authenticate.  Whatever [Authenticate] answers, the
    tables stay as they are.  In any environment (statements may fail) it accepts only a
    token that is [acceptable], answers the account and the session the token names with
    the roles bound to the account, and defers exactly one touch of that session to the
    commit.  When no statement fails, it accepts every such token, and every other one
    gets the same 401, whatever the reason. *)
Theorem authenticate_exact token (tx : TxD) r tx' :
  Authenticate h token tx = (r, tx') ->
  let t1 := env_now (c_now (tx_ctr tx)) in
  let t2 := env_now (S (c_now (tx_ctr tx))) in
  tx_db tx' = tx_db tx /\
  (forall p, r = inr p -> exists c uid s u,
     acceptable t1 t2 token (tx_db tx) c uid s u /\ principal_of (tx_db tx) s u p /\
     tx_before tx' = tx_before tx ++ [SessionTouch (SessionID c) t2]) /\
  (Faultless -> tx_aborted tx = false ->
     (forall c uid s u, acceptable t1 t2 token (tx_db tx) c uid s u -> exists p, r = inr p) /\
     ((forall c uid s u, ~ acceptable t1 t2 token (tx_db tx) c uid s u) ->
        exists cause, r = inl (EApi (WithCause Unauthorized cause)))).
Proof.
  intros E t1 t2. pose proof (Authenticate_run token tx) as R. cbv zeta in R. rewrite E in R.
  fold t1 t2 in R. destruct (token_ids h t1 token TypeAccess) as [[uid sid]|] eqn:Hids; cycle 1.
  { destruct R as [cause R]. simplify_eq. split_and!; [done..|]. intros _ _. split; [|by eauto].
    intros c uid s u [Hn _]%acceptable_lookup. congruence. }
  destruct (FindActiveIdentity_run sid uid t2 (tick (tick tx)))
    as [(e & Hf & D & Hno) | (i & tx1 & Hf & D & B & Hl)]; rewrite Hf in R.
  - destruct (@sessionLookupError_run Principal e
      (SessionRepository.FindActiveIdentity sid uid t2 (tick (tick tx))).2) as (e' & tx1 & R' & D' & He).
    rewrite R' in R. simplify_eq. split; [by rewrite D', D|]. split; [done|].
    intros F Ha. destruct (Hno F Ha) as [-> Hn]. split.
    + intros c uid' s u [Hi Hl]%acceptable_lookup.
      change (tx_db (tick (tick tx))) with (tx_db tx) in Hn. congruence.
    + intros _. rewrite He by done. by eexists.
  - simplify_eq. split; [done|]. change (tx_db (tick (tick tx))) with (tx_db tx) in Hl.
    split; [|intros _ _; split; [by eauto|]].
    + intros p [= <-]. destruct (lookup_acceptable _ _ _ _ _ _ _ Hids Hl)
        as (c & s & u & Hac & ->). exists c, uid, s, u. split; [done|]. split.
      * eexists. split; [done|]. intros role. rewrite roles_of_bound.
        by rewrite (ac_owner _ _ _ _ _ _ _ _ Hac).
      * apply acceptable_lookup in Hac as [Hi _]. cbn. rewrite B.
        rewrite Hids in Hi. by simplify_eq.
    + intros Hna. destruct (lookup_acceptable _ _ _ _ _ _ _ Hids Hl) as (c & s & u & Hac & _).
      destruct (Hna _ _ _ _ Hac).
Qed.

(** A refresh token is not an access token, nor the other way round.  A token
    signed as one type never passes where the other is expected. *)
Theorem token_types_disjoint `{!JWTLaws} uid sid now ttl tok (tx tx' : TxD) p r :
  0 < sid <= int64_max ->
  (SignAt (JWTSecretKey (cfg h)) uid sid TypeRefresh now ttl = Some tok ->
     Authenticate h tok tx <> (inr p, tx')) /\
  (SignAt (JWTSecretKey (cfg h)) uid sid TypeAccess now ttl = Some tok ->
     Refresh h tok tx <> (inr r, tx')).
Proof.
  intros Hr.
  assert (forall typ want t ids, typ = TypeAccess \/ typ = TypeRefresh ->
    SignAt (JWTSecretKey (cfg h)) uid sid typ now ttl = Some tok ->
    token_ids h t tok want = Some ids -> want = typ) as Ht.
  { intros typ want t [u s] Hty Hs (c & Hc & <- & _)%token_ids_valid.
    rewrite (jwt_parse_sign _ _ _ _ _ _ _ t Hr Hty Hs) in Hc. case_match; by simplify_eq. }
  split; intros Hs E.
  - apply Authenticate_inr in E as (t1 & t2 & E). unfold authenticated in E.
    destruct (token_ids h t1 tok TypeAccess) eqn:Hi; [|done].
    discriminate (Ht TypeRefresh _ _ _ (or_intror eq_refl) Hs Hi).
  - apply Refresh_inr in E as (t1 & t2 & u & s & i & Hi & _).
    discriminate (Ht TypeAccess _ _ _ (or_introl eq_refl) Hs Hi).
Qed.
End token_theorems.

(** ** Revocation *)
Section revocation.
Context `{EnvOk} `{Pg} `{Unicode} `{Mail} `{JWT} `{Bcrypt}.
Context (h : AuthService).
Context (Hqueue : forall q, deliveries h = Some q -> QueueFrame user_sessions q).
Context {X : Type} (ia : AfterOp -> World DB X -> World DB X * option string).
Context (Hia : forall op w w' p, ia op w = (w', p) -> w_db w' = w_db w).

(** C32: revocation is final.  From a state in which a session is revoked, no
    sequence of requests (not even by its owner) leads to one where a token of
    that session authenticates or refreshes. *)
Theorem revocation_is_final (w w' : World DB X) sid s tok (tx : TxD) :
  rtc (auth_step h ia) w w' ->
  user_sessions (w_db w) !! sid = Some s -> UserSession.RevokedAt s <> None ->
  (forall now c, jwt_parse (JWTSecretKey (cfg h)) now tok = JWTValid c -> SessionID c = sid) ->
  tx_db tx = w_db w' ->
  (forall p tx', Authenticate h tok tx <> (inr p, tx')) /\
  (forall r tx', Refresh h tok tx <> (inr r, tx')).
Proof.
  intros Hr Hs Hrev Htok Htx.
  assert (sess_run (w_db w) (w_db w')) as Hd.
  { exact (inv_reachable h (sess_run (w_db w)) (service_sess_run h Hqueue _) ia Hia w w' Hr
             (reflexivity _)). }
  destruct (Hd _ _ Hs) as (s' & Hs' & Hle).
  destruct (UserSession.RevokedAt s) as [r|] eqn:Hrs; [|done].
  pose proof (le_revoked _ _ Hle _ Hrs) as Hrev'.
  assert (forall t typ u s1 p now i, token_ids h t tok typ = Some (u, s1) ->
    SessionRepository.lookup_identity p s1 u now (tx_db tx) = Some i -> False) as Hno.
  { intros t typ u s1 p now i Hi Hl.
    apply token_ids_valid in Hi as (c & Hc & _ & _ & Hsid & _).
    apply Htok in Hc. apply lookup_identity_Some in Hl as (s2 & ? & Hs2 & _ & _ & _ & Hn & _).
    rewrite Htx in Hs2. congruence. }
  split.
  - intros p tx' E. apply Authenticate_inr in E as (t1 & t2 & E). unfold authenticated in E.
    destruct (token_ids h t1 tok TypeAccess) as [[u s1]|] eqn:Hi; [|done].
    apply fmap_Some in E as (i & Hl & _). by eapply Hno.
  - intros r' tx' E. apply Refresh_inr in E as (t1 & t2 & u & s1 & i & Hi & Hl).
    by eapply Hno.
Qed.

Definition all_revoked (uid : Z) (db : DB) : Prop :=
  forall k s, user_sessions db !! k = Some s -> UserSession.UserID s = uid ->
    UserSession.RevokedAt s <> None.

Lemma revoke_all_revoked uid now db : all_revoked uid (SessionRepository.revoke_all uid now db).
Proof.
  intros k s Hs Hu. unfold SessionRepository.revoke_all in Hs. cbn in Hs.
  apply lookup_fmap_Some in Hs as (s0 & <- & Hs).
  case_match eqn:Hp; [done|]. rewrite andb_false_iff, !bool_decide_eq_false in Hp.
  destruct Hp as [Hp|Hp]; done.
Qed.

Lemma RevokeAll_inr uid now (tx : TxD) u tx' :
  SessionRepository.RevokeAll uid now tx = (inr u, tx') -> all_revoked uid (tx_db tx').
Proof.
  intros E. unfold SessionRepository.RevokeAll in E. run_inv.
  match goal with Hd : tx_db tx' = _ |- _ => rewrite Hd end. apply revoke_all_revoked.
Qed.

Lemma LockByID_inr uid (tx : TxD) u tx' :
  UserRepository.LockByID uid tx = (inr u, tx') ->
  tx_db tx' = tx_db tx /\ User.ID u = uid /\ User.DeletedAt u = None /\
  exists k, users (tx_db tx) !! k = Some u.
Proof.
  unfold UserRepository.LockByID, First. intros E. run_inv. simplify_eq.
  match goal with Hf : Some _ = first _ _ |- _ => symmetry in Hf; apply first_Some in Hf as [Hp Hk] end.
  unfold UserRepository.live in Hp. rewrite andb_true_iff, !bool_decide_eq_true in Hp.
  destruct Hp. done.
Qed.

Lemma FindByEmail_inr email b (tx : TxD) u tx' :
  UserRepository.FindByEmail email b tx = (inr u, tx') ->
  tx_db tx' = tx_db tx /\ pg_lower (User.Email u) = pg_lower email /\
  exists k, users (tx_db tx) !! k = Some u.
Proof.
  unfold UserRepository.FindByEmail, First. intros E. run_inv. simplify_eq.
  match goal with Hf : Some _ = first _ _ |- _ => symmetry in Hf; apply first_Some in Hf as [Hp Hk] end.
  unfold UserRepository.same_email in Hp. rewrite andb_true_iff, bool_decide_eq_true in Hp.
  by destruct Hp.
Qed.

Lemma found_or_invalid_code_inr (m : MT User.t) (tx : TxD) u tx' :
  found_or_invalid_code m tx = (inr u, tx') -> m tx = (inr u, tx').
Proof. unfold found_or_invalid_code. intros E. by run_inv. Qed.

Lemma UpdatePassword_inr uid hash (tx : TxD) u tx' :
  UserRepository.UpdatePassword uid hash tx = (inr u, tx') ->
  tx_db tx' = (tx_db tx) <| users := snd (update_where
    (fun u => bool_decide (User.ID u = uid) && UserRepository.live u)
    (fun u => u <| User.PasswordHash := hash |>) (users (tx_db tx))) |>.
Proof.
  unfold UserRepository.UpdatePassword. intros E. run_inv.
  match goal with Hs : stmt _ _ = _ |- _ => apply stmt_inr_short in Hs as ([= _ Hs] & _) end.
  by simplify_eq.
Qed.

Lemma wipe_save_users c now db :
  users (VerificationCodeRepository.wipe_codes c now
    (VerificationCodeRepository.save_challenge c now db)) = users db.
Proof. done. Qed.

(** what a password reset does.  When it succeeds, the code was the one last
    sent to the address and is now used up; the account of that address, which
    is not deleted, has the hash of the new password; and every session of the
    account is revoked. *)
Theorem reset_password_effect input (tx tx' : TxD) :
  tables_ok (tx_db tx) ->
  ResetPassword h input tx = (inr tt, tx') ->
  exists email u hash k,
    normalizeEmail (pi_Email input) = inr email /\
    users (tx_db tx) !! User.ID u = Some u /\
    pg_lower (User.Email u) = pg_lower email /\ User.DeletedAt u = None /\
    Hash k (pi_NewPassword input) = inr hash /\
    users (tx_db tx') !! User.ID u = Some (u <| User.PasswordHash := hash |>) /\
    all_revoked (User.ID u) (tx_db tx') /\
    (exists c now, challenge_of email VerificationPurposePasswordReset (tx_db tx) = Some c /\
       challenge_dead c now = false /\
       EmailVerificationCode.CodeDigest c =
         codeDigest h VerificationPurposePasswordReset email (pi_VerificationCode input) /\
       challenge_of email VerificationPurposePasswordReset (tx_db tx') =
         Some (merged c (c <| EmailVerificationCode.ConsumedAt := Some now |>) now)).
Proof.
  intros Hok E. unfold ResetPassword in E.
  destruct (normalizeEmail (pi_Email input)) as [|email] eqn:He; [done|].
  do 2 (apply mbind_inr in E as (? & ? & El & E); apply lift_inr in El as [_ <-]).
  apply mbind_inr in E as (u0 & tx1 & E1 & E). apply found_or_invalid_code_inr in E1.
  apply FindByEmail_inr in E1 as (D1 & Hmail & k0 & Hu0).
  apply mbind_inr in E as (u & tx2 & E2 & E). apply found_or_invalid_code_inr in E2.
  apply LockByID_inr in E2 as (D2 & Hid & Hdel & k1 & Hu1).
  rewrite D1 in *. pose proof (users_keyed _ Hok _ _ Hu0). pose proof (users_keyed _ Hok _ _ Hu1).
  assert (u0 = u) as -> by congruence. subst.
  apply mbind_inr in E as ([] & tx3 & E3 & E).
  apply consume_inr in E3 as (c & now & Hc & Hd & Hcode & D3). rewrite D2 in *.
  apply mbind_inr in E as (hash & tx4 & E4 & E).
  apply on_error_inr in E4 as [E4 | (? & ? & _ & E4)]; [|by run_inv].
  unfold hash_password in E4. injection E4 as Hh <-.
  apply mbind_inr in E as ([] & tx5 & E5 & E).
  apply on_error_inr in E5 as [E5 | (? & ? & _ & E5)]; [|by run_inv].
  apply UpdatePassword_inr in E5. cbn in E5. rewrite D3 in E5.
  apply mbind_inr in E as (now' & tx6 & E6 & E). apply Now_inr in E6 as (_ & D6 & _).
  apply on_error_inr in E as [E | (? & ? & _ & E)]; [|by run_inv].
  pose proof (RevokeAll_inr _ _ _ _ _ E) as Hrev. unfold SessionRepository.RevokeAll in E.
  apply exec_inr in E as (D7 & _). rewrite D6, E5 in D7.
  exists email, u, hash, (c_rand (tx_ctr tx3)).
  split_and!; try done.
  - rewrite D7. cbn. rewrite lookup_fmap, Hu1. cbn.
    unfold UserRepository.live. by rewrite !bool_decide_eq_true_2.
  - exists c, now. split_and!; try done. unfold challenge_of. rewrite D7.
    change (challenge_of email VerificationPurposePasswordReset
      (VerificationCodeRepository.wipe_codes (c <| EmailVerificationCode.ConsumedAt := Some now |>) now
         (VerificationCodeRepository.save_challenge
            (c <| EmailVerificationCode.ConsumedAt := Some now |>) now (tx_db tx))) =
      Some (merged c (c <| EmailVerificationCode.ConsumedAt := Some now |>) now)).
    by apply challenge_of_save; [apply codes_keyed | apply codes_unique | |].
Qed.
End revocation.

(** ** Issuing a session *)
Section issuing.
Context `{EnvOk} `{Pg} `{Unicode} `{Mail} `{JWT} `{Bcrypt}.
Context (h : AuthService).
Abbreviation secret := (JWTSecretKey (cfg h)).
Abbreviation refreshTTL := (RefreshTokenTTL (cfg h)).
Abbreviation accessTTL := (AccessTokenTTL (cfg h)).

(** A session issued to [uid] at [now], with its two tokens. *)
Record issued (uid : Z) (now : time) (sid : Z) (access refresh : string) (db : DB) : Prop := {
  issued_refresh : SignAt secret uid sid TypeRefresh now refreshTTL = Some refresh;
  issued_access : SignAt secret uid sid TypeAccess now accessTTL = Some access;
  issued_range : uid <= int64_max /\ sid <= int64_max;
  issued_session : exists s, user_sessions db !! sid = Some s /\
    UserSession.ID s = sid /\ UserSession.UserID s = uid /\
    UserSession.RefreshTokenDigest s = Digest refresh /\
    UserSession.ExpiresAt s = now + refreshTTL /\ UserSession.RevokedAt s = None;
}.

Lemma sign_inr uid sid typ now ttl (tx : TxD) tok tx' :
  sign h uid sid typ now ttl tx = (inr tok, tx') ->
  SignAt secret uid sid typ now ttl = Some tok /\ tx' = tx.
Proof. unfold sign. destruct (SignAt _ _ _ _ _ _); intros E; run_inv. done. Qed.

Lemma SessionCreate_inr session (tx : TxD) s tx' :
  SessionRepository.Create session tx = (inr s, tx') ->
  let sid := c_seq (tx_ctr tx) + 1 in
  s = session <| UserSession.ID := sid |> /\
  user_sessions (tx_db tx) !! sid = None /\
  tx_db tx' = (tx_db tx) <| user_sessions := <[sid := s]> (user_sessions (tx_db tx)) |>.
Proof.
  unfold SessionRepository.Create. intros E.
  apply mbind_inr in E as (id & tx1 & E1 & E). apply NextID_inr in E1 as (-> & D1 & _).
  apply mbind_inr in E as ([] & tx2 & E2 & E). apply mret_inr in E as [<- <-].
  apply stmt_inr_short in E2 as (E2 & _). destruct (exists_row _ _); [done|].
  destruct (insert_row _ _ _ _) as [|t] eqn:Ht; [done|]. injection E2 as E2.
  apply insert_row_inr in Ht as [Hn ->]. rewrite D1 in *. by rewrite <- E2.
Qed.

Lemma userView_inr u (tx : TxD) v tx' : userView u tx = (inr v, tx') -> tx_db tx' = tx_db tx.
Proof.
  unfold userView, UserRepository.FindAvatarURL, UserRepository.FindRoles.
  intros E. run_inv; congruence.
Qed.

Lemma issueSession_inr user client now (tx : TxD) res tx' :
  issueSession h user client now tx = (inr res, tx') ->
  let sid := c_seq (tx_ctr tx) + 1 in
  issued (User.ID user) now sid (ar_Token res) (ar_RefreshToken res) (tx_db tx') /\
  user_sessions (tx_db tx) !! sid = None /\ users (tx_db tx') = users (tx_db tx).
Proof.
  unfold issueSession. intros E. cbv zeta.
  apply mbind_inr in E as (ph & tx1 & E1 & E).
  apply on_error_inr in E1 as [E1 | (? & ? & _ & E1)]; [|by run_inv].
  assert (c_seq (tx_ctr tx1) = c_seq (tx_ctr tx) /\ tx_db tx1 = tx_db tx) as [Hseq D1].
  { unfold randomDigest, mbind, RandRead, mret, throw in E1. cbv beta iota in E1.
    destruct (env_rand _ _); by simplify_eq. }
  apply mbind_inr in E as (s & tx2 & E2 & E).
  apply on_error_inr in E2 as [E2 | (? & ? & _ & E2)]; [|by run_inv].
  apply SessionCreate_inr in E2 as (Hs & Hn & D2). rewrite Hseq, D1 in *.
  set (sid := c_seq (tx_ctr tx) + 1) in *.
  assert (UserSession.ID s = sid) as Hsid by (by subst s). rewrite Hsid in E.
  destruct (_ || _) eqn:Hr; [by run_inv|]. rewrite orb_false_iff in Hr.
  apply mbind_inr in E as (refresh & tx3 & E3 & E). apply sign_inr in E3 as [Href ->].
  apply mbind_inr in E as (access & tx4 & E4 & E). apply sign_inr in E4 as [Hacc ->].
  apply mbind_inr in E as ([] & tx5 & E5 & E).
  apply on_error_inr in E5 as [E5 | (? & ? & _ & E5)]; [|by run_inv].
  apply stmt_inr_short in E5 as (E5 & _). destruct (exists_row _ _); [done|].
  injection E5 as D5. rewrite D2 in D5.
  apply mbind_inr in E as (v & tx6 & E6 & E). apply userView_inr in E6.
  apply mret_inr in E as [<- <-]. rewrite E6, <- D5. cbn. split; [|done].
  split; [done|done|lia|]. eexists. split.
  { cbn. by rewrite lookup_alter_eq, lookup_insert_eq. }
  by subst s.
Qed.

(** What later transactions have to leave of an issued session for its tokens to work at
    [t2]: its row but for the last use, and an account neither deleted nor banned. *)
Record session_kept (db db2 : DB) (uid sid : Z) (t2 : time) : Prop := {
  sk_session : exists s seen, user_sessions db !! sid = Some s /\
    user_sessions db2 !! sid = Some (s <| UserSession.LastSeenAt := seen |>);
  sk_account : exists u, users db2 !! uid = Some u /\ User.ID u = uid /\
    User.DeletedAt u = None /\ User.BanIsPermanent u = false /\
    forall b, User.BannedUntil u = Some b -> b <= t2;
}.

Lemma kept_lookup uid now sid access refresh db db2 t2 p :
  issued uid now sid access refresh db -> session_kept db db2 uid sid t2 ->
  t2 < now + refreshTTL ->
  (forall s, UserSession.RefreshTokenDigest s = Digest refresh -> p s = true) ->
  exists i, SessionRepository.lookup_identity p sid uid t2 db2 = Some i /\
    User.ID (id_User i) = uid /\ UserSession.ID (id_Session i) = sid.
Proof.
  intros [_ _ _ (s & Hs & Hsid & Huid & Hdig & Hexp & Hrev)]
    [(s' & seen & Hs' & Hs2) (u & Hu & Hk & Hdel & Hb & Hb')] Ht Hp.
  rewrite Hs in Hs'. injection Hs' as <-. unfold SessionRepository.lookup_identity,
    SessionRepository.session_live, SessionRepository.user_active,
    SessionRepository.user_banned, UserRepository.live.
  rewrite Hs2, Hu, Hp by done. cbn. rewrite Huid, Hrev, Hexp, Hdel, Hb.
  rewrite !bool_decide_true, (proj2 (Z.ltb_lt _ _)) by done. cbn.
  assert (match User.BannedUntil u with Some b => t2 <? b | None => false end = false) as ->.
  { destruct (User.BannedUntil u) as [b|]; [|done]. apply Z.ltb_ge. auto. }
  eexists. by split_and!.
Qed.

Lemma signed_ids `{!JWTLaws} uid sid typ now ttl tok t :
  SignAt secret uid sid typ now ttl = Some tok -> typ = TypeAccess \/ typ = TypeRefresh ->
  0 < uid <= int64_max -> 0 < sid <= int64_max -> t < NewNumericDate (now + ttl) ->
  token_ids h t tok typ = Some (uid, sid).
Proof.
  intros Hsign Hty Hu Hs Ht. unfold token_ids.
  rewrite (jwt_parse_sign _ _ _ _ _ _ _ t Hs Hty Hsign). unfold time_Add.
  rewrite (proj2 (Z.ltb_lt _ _)) by done. cbn. rewrite bool_decide_eq_true_2 by done.
  unfold UserID. cbn. rewrite ParseInt_FormatInt by (unfold in_int64, int64_min; lia).
  by rewrite !(proj2 (Z.ltb_lt _ _)) by lia.
Qed.

(** The two runs, when no statement fails. *)
Lemma Authenticate_works `{!JWTLaws} `{!Faultless} uid now sid access refresh db (tx : TxD) :
  issued uid now sid access refresh db -> 0 < uid -> 0 < sid -> tx_aborted tx = false ->
  let t2 := env_now (S (c_now (tx_ctr tx))) in
  session_kept db (tx_db tx) uid sid t2 -> t2 < now + refreshTTL ->
  env_now (c_now (tx_ctr tx)) < NewNumericDate (now + accessTTL) ->
  exists p tx', Authenticate h access tx = (inr p, tx') /\
    User.ID (pr_User p) = uid /\ pr_SessionID p = sid.
Proof.
  intros Hiss Hu0 Hs0 Ha t2 Hk Ht2 Ht1.
  destruct (kept_lookup _ _ _ _ _ _ _ _ (fun _ => true) Hiss Hk Ht2 ltac:(done))
    as (i & Hl & Hu & Hs). destruct Hiss as [_ Hacc [Hru Hrs] _].
  pose proof (Authenticate_run h access tx) as R. cbv zeta in R. fold t2 in R.
  rewrite (signed_ids _ _ _ _ _ _ _ Hacc (or_introl eq_refl)) in R by lia.
  destruct (FindActiveIdentity_run sid uid t2 (tick (tick tx)))
    as [(e & Hf & D & Hno) | (i' & tx1 & Hf & D & B & Hl')]; rewrite Hf in R;
    change (tx_db (tick (tick tx))) with (tx_db tx) in *.
  - destruct (Hno _ Ha) as [_ Hn]. congruence.
  - rewrite Hl in Hl'. injection Hl' as <-. by eauto.
Qed.

Lemma Refresh_works `{!JWTLaws} `{!Faultless} uid now sid access refresh db (tx : TxD) tok :
  issued uid now sid access refresh db -> 0 < uid -> 0 < sid -> tx_aborted tx = false ->
  let t2 := env_now (S (c_now (tx_ctr tx))) in
  session_kept db (tx_db tx) uid sid t2 -> t2 < now + refreshTTL ->
  env_now (c_now (tx_ctr tx)) < NewNumericDate (now + refreshTTL) ->
  SignAt secret uid sid TypeAccess t2 accessTTL = Some tok ->
  exists tx', Refresh h refresh tx = (inr (mkTokenResult tok refresh), tx').
Proof.
  intros Hiss Hu0 Hs0 Ha t2 Hk Ht2 Ht1 Hsign.
  destruct (kept_lookup _ _ _ _ _ _ _ _
    (fun s => bool_decide (UserSession.RefreshTokenDigest s = Digest refresh)) Hiss Hk Ht2)
    as (i & Hl & Hu & Hs); [by intros s Hd; apply bool_decide_true|].
  destruct Hiss as [Href _ [Hru Hrs] _].
  unfold Refresh. rewrite bool_decide_false by by eapply jwt_sign_nonblank.
  pose proof (parse_claims_spec h refresh TypeRefresh tx) as Hp.
  rewrite (signed_ids _ _ _ _ _ _ _ Href (or_intror eq_refl)) in Hp by lia.
  rewrite (mbind_run _ _ _ _ _ Hp), mbind_Now.
  change (env_now (c_now (tx_ctr (tick tx)))) with t2.
  erewrite mbind_run by (apply on_error_run; unfold SessionRepository.FindRefreshIdentity;
    erewrite mbind_run by (by apply query_ok);
    change (tx_db (tick (tick tx))) with (tx_db tx); rewrite Hl; reflexivity).
  unfold sign. rewrite Hu, Hs, Hsign. by eexists.
Qed.

(** [m] reads: it changes neither the tables nor the sequences. *)
Definition Reads {R} (m : MT R) : Prop :=
  forall tx r tx', m tx = (r, tx') ->
    tx_db tx' = tx_db tx /\ c_seq (tx_ctr tx') = c_seq (tx_ctr tx).

Lemma reads_First {R} (f : DB -> option R) : Reads (First f).
Proof.
  intros tx r tx'. unfold First, query, stmt, mbind.
  repeat (case_match; simplify_eq/=); unfold mret, throw; intros; by simplify_eq.
Qed.

Lemma reads_findLoginUser id : Reads (findLoginUser h id).
Proof.
  unfold findLoginUser. repeat case_match; try by intros tx r tx' [= <- <-].
  - apply reads_First.
  - apply reads_First.
Qed.

Lemma Login_inr input client (tx tx' : TxD) res :
  Login h input client tx = (inr res, tx') ->
  exists u now checked k,
    users (tx_db tx) !! k = Some u /\ User.DeletedAt u = None /\
    Verify (li_Password input) (User.PasswordHash u) = true /\ banned u checked = false /\
    issued (User.ID u) now (c_seq (tx_ctr tx) + 1) (ar_Token res) (ar_RefreshToken res)
      (tx_db tx') /\
    user_sessions (tx_db tx) !! (c_seq (tx_ctr tx) + 1) = None /\
    users (tx_db tx') = users (tx_db tx).
Proof.
  intros E. unfold Login in E.
  apply mbind_inr in E as ([] & tx0 & E0 & E). apply lift_inr in E0 as [_ <-].
  apply mbind_inr in E as (u0 & tx1 & E1 & E).
  apply on_error_inr in E1 as [E1 | (? & ? & _ & E1)]; [|by repeat (case_match; run_inv)].
  apply reads_findLoginUser in E1 as [D1 S1].
  apply mbind_inr in E as (u & tx2 & E2 & E).
  apply on_error_inr in E2 as [E2 | (? & ? & _ & E2)]; [|by case_match; run_inv].
  pose proof (proj2 (reads_First _ _ _ _ E2)) as S2.
  apply LockByID_inr in E2 as (D2 & _ & Hdel & k & Hu).
  apply mbind_inr in E as (r & tx3 & E3 & E). apply attempt_inr in E3.
  apply reads_findLoginUser in E3 as [D3 S3].
  destruct r as [e|cur]; [by case_match; run_inv|].
  destruct (negb (User.ID cur =? _)); [by run_inv|].
  destruct (Verify _ _) eqn:Hver; [|by run_inv]. cbn [negb] in E.
  apply mbind_inr in E as (checked & tx4 & E4 & E). injection E4 as Hch <-.
  destruct (banned u checked) eqn:Hban; [by run_inv|].
  apply mbind_inr in E as (now & tx5 & E5 & E). injection E5 as Hnow <-.
  apply issueSession_inr in E as (Hiss & Hn & Hus). cbn in Hiss, Hn, Hus.
  rewrite D3, D2, D1 in Hn, Hus. rewrite S3, S2, S1 in Hiss, Hn. rewrite D1 in Hu.
  by exists u, now, checked, k.
Qed.

(** C33: what a login is worth.  When [Login] succeeds, the account was found by
    the identifier, is not deleted, its password hash matches the password and
    it was not banned; the two tokens belong to a new session of that account.  In every
    later transaction in which statements do not fail, as long as the session's row is
    kept (but for its last use) and has not expired and the account is neither deleted
    nor banned, [Authenticate] accepts the access token until its expiry, as that
    account in that session, and [Refresh] accepts the refresh token until its expiry
    and answers the same refresh token and the new access token that the library
    signs. *)
Theorem login_tokens_work `{!JWTLaws} input client (tx tx' : TxD) res :
  tables_ok (tx_db tx) -> (forall k, is_Some (users (tx_db tx) !! k) -> 0 < k) ->
  0 <= c_seq (tx_ctr tx) ->
  Login h input client tx = (inr res, tx') ->
  exists u sid now checked,
    users (tx_db tx') !! User.ID u = Some u /\ User.DeletedAt u = None /\
    Verify (li_Password input) (User.PasswordHash u) = true /\
    banned u checked = false /\
    issued (User.ID u) now sid (ar_Token res) (ar_RefreshToken res) (tx_db tx') /\
    user_sessions (tx_db tx) !! sid = None /\
    (Faultless -> forall tx2 : TxD, tx_aborted tx2 = false ->
       let t1 := env_now (c_now (tx_ctr tx2)) in
       let t2 := env_now (S (c_now (tx_ctr tx2))) in
       session_kept (tx_db tx') (tx_db tx2) (User.ID u) sid t2 -> t2 < now + refreshTTL ->
       (t1 < NewNumericDate (now + accessTTL) ->
          exists p tx3, Authenticate h (ar_Token res) tx2 = (inr p, tx3) /\
            User.ID (pr_User p) = User.ID u /\ pr_SessionID p = sid) /\
       (t1 < NewNumericDate (now + refreshTTL) -> forall access,
          SignAt secret (User.ID u) sid TypeAccess t2 accessTTL = Some access ->
          exists tx3, Refresh h (ar_RefreshToken res) tx2 =
            (inr (mkTokenResult access (ar_RefreshToken res)), tx3))).
Proof.
  intros Hok Hpos Hseq E. apply Login_inr in E as (u & now & checked & k & Hu & Hdel & Hver & Hban & Hiss & Hn & Hus).
  pose proof (users_keyed _ Hok _ _ Hu) as Hk. rewrite <- Hk in Hu.
  assert (0 < User.ID u) as Hu0 by (apply Hpos; by exists u).
  exists u, (c_seq (tx_ctr tx) + 1), now, checked. rewrite Hus. split_and!; try done.
  intros F tx2 Ha t1 t2 Hkept Ht2. split.
  - intros Ht1. eapply Authenticate_works; try done; lia.
  - intros Ht1 access Hs. eapply Refresh_works; try done; lia.
Qed.
End issuing.
