(* ===== verification/EmailOutbox.v ===== *)
(** * The verification-e-mail outbox

    [internal/repository/email_delivery.go] (module [EmailDeliveryRepository]) and
    [internal/service/email_delivery.go] (module [EmailWorker]): tasks are queued in
    the transaction that issues a code, and a worker claims them in batches under a
    lease, re-checks each one, calls the mail provider and records the outcome,
    fenced by its lease token.  [wake] and [Run]'s timer only decide when
    [RunBatch] is called and are not modelled. *)

From S2P Require Import Prelude.
From S2P Require Import GoText.
From S2P Require Import Apierr.
From S2P Require Import Effects.
From S2P Require Import Logic.
From S2P Require Import Model.
From S2P Require Import Validation.
From S2P Require Import Digest.
From S2P Require Import AuthRepo.
From S2P Require Import AuthService.
Open Scope Z_scope.

(** ** internal/repository/email_delivery.go *)
Module EmailDeliveryRepository.
Section ops.
Context `{Env} `{Pg}.
Import VerificationEmailDelivery.

Record Claim := mkClaim { cl_row : t; CurrentCodeDigest : string }.

(** The challenge of a task is one its code can no longer answer. *)
Definition code_invalid (db : DB) (now : time) (d : t) : bool :=
  match email_verification_codes db !! ChallengeID d with
  | Some c =>
      (EmailVerificationCode.ExpiresAt c <=? now) ||
      bool_decide (EmailVerificationCode.ConsumedAt c <> None) ||
      negb (bool_decide (EmailVerificationCode.CodeDigest c = CodeDigest d)) ||
      (5 <=? EmailVerificationCode.FailedAttempts c)
  | None => false
  end.

Definition has_code (d : t) : bool := bool_decide (Code d <> None).

Definition in_ids (l : list t) (d : t) : bool := existsb (fun r => ID r =? ID d) l.

Definition clear_invalid (now : time) (limit : nat) (db : DB) : DB :=
  let expired := firstn limit
    (select (fun d => has_code d && code_invalid db now d)
       (verification_email_deliveries db)) in
  db <| verification_email_deliveries :=
    (fun d => if in_ids expired d then d <| Code := None |> else d) <$>
      verification_email_deliveries db |>.

Definition ClearInvalidCodes (now : time) (limit : nat) : MT unit :=
  exec (clear_invalid now limit).

Definition new_delivery (id challengeID : Z) (email purpose codeDigest code : string)
    (now : time) : t :=
  mk id challengeID email purpose codeDigest (Some code) VerificationEmailDeliveryPending 0
    (Some now) None None None None None None now now.

Definition Enqueue (challenge : EmailVerificationCode.t)
    (email purpose codeDigest code : string) (now : time) : MT Z :=
  let* id := NextID in
  stmt (fun db =>
    match insert_row "verification_email_deliveries_pkey" id
            (new_delivery id (EmailVerificationCode.ID challenge) email purpose
               codeDigest code now) (verification_email_deliveries db) with
    | inl err => inl err
    | inr t => inr (tt, db <| verification_email_deliveries := t |>)
    end) ;;;
  mret id.

(** *** Claims *)
Definition open_state (d : t) : bool :=
  bool_decide (State d = VerificationEmailDeliveryPending) ||
  bool_decide (State d = VerificationEmailDeliverySending).

Definition due (now : time) (d : t) : bool :=
  open_state d &&
  match NextAttemptAt d with Some n => n <=? now | None => false end &&
  match LeaseUntil d with Some u => u <=? now | None => true end.

(** [ORDER BY next_attempt_at, id]. *)
Definition earlier (a b : t) : bool :=
  match NextAttemptAt a, NextAttemptAt b with
  | Some x, Some y => if x <? y then true else if x =? y then ID a <=? ID b else false
  | _, _ => ID a <=? ID b
  end.

Definition leased (token : string) (until now : time) (d : t) : t :=
  d <| State := VerificationEmailDeliverySending |> <| LeaseToken := Some token |>
    <| LeaseUntil := Some until |> <| UpdatedAt := now |>.

(** The code of the task still answers its challenge; for a password reset, the
    address still has an account. *)
Definition current (db : DB) (now : time) (d : t) (c : EmailVerificationCode.t) : bool :=
  bool_decide (EmailVerificationCode.CodeDigest c = CodeDigest d) &&
  bool_decide (EmailVerificationCode.ConsumedAt c = None) &&
  (now <? EmailVerificationCode.ExpiresAt c) &&
  (EmailVerificationCode.FailedAttempts c <? 5) &&
  (negb (bool_decide (Purpose d = VerificationPurposePasswordReset)) ||
   exists_row (fun u => bool_decide (pg_lower (User.Email u) = pg_lower (Email d)) &&
                        UserRepository.live u) (users db)).

Definition current_code_digest (db : DB) (now : time) (d : t) : string :=
  match email_verification_codes db !! ChallengeID d with
  | Some c => if current db now d c then EmailVerificationCode.CodeDigest c else ""
  | None => ""
  end.

Definition candidates (now : time) (limit : nat) (db : DB) : list t :=
  firstn limit (sort_by earlier (select (due now) (verification_email_deliveries db))).

Definition claim_due (now until : time) (token : string) (limit : nat) (db : DB)
    : list Claim * DB :=
  let cs := candidates now limit db in
  let claimed := map (leased token until now) cs in
  (map (fun d => mkClaim d (current_code_digest db now d)) (sort_by earlier claimed),
   db <| verification_email_deliveries :=
     (fun d => if in_ids cs d then leased token until now d else d) <$>
       verification_email_deliveries db |>).

Definition ClaimDue (now leaseUntil : time) (leaseToken : string) (limit : Z)
    : MT (list Claim) :=
  if (limit <=? 0) || (1000 <? limit)
  then throw (ENew "verification email delivery claim limit must be between 1 and 1000")
  else stmt (fun db => inr (claim_due now leaseUntil leaseToken (Z.to_nat limit) db)).

Definition stringValue (v : option string) : string :=
  match v with Some s => s | None => "" end.

(** The fence of both statements below. *)
Definition owned_row (claim : Claim) (d : t) : bool :=
  bool_decide (ID d = ID (cl_row claim)) &&
  bool_decide (State d = VerificationEmailDeliverySending) &&
  bool_decide (LeaseToken d = Some (stringValue (LeaseToken (cl_row claim)))).

Definition lease_valid (now : time) (d : t) : bool :=
  match LeaseUntil d with Some u => now <? u | None => false end.

(** [None] is [RowsAffected = 0]. *)
Definition RefreshClaim (claim : Claim) (now : time) : MT (option Claim) :=
  query (fun db =>
    (fun d => mkClaim d (current_code_digest db now d)) <$>
      first (fun d => owned_row claim d && lease_valid now d)
        (verification_email_deliveries db)).

Definition UpdateClaim (claim : Claim) (updates : t -> t) : MT bool :=
  let* affected := stmt (fun db =>
    let '(n, rows) := update_where (owned_row claim) updates
                        (verification_email_deliveries db) in
    inr (n, db <| verification_email_deliveries := rows |>)) in
  mret (affected =? 1).
End ops.
End EmailDeliveryRepository.

(** ** internal/service/email_delivery.go *)
Module EmailWorker.
Import EmailDeliveryRepository.

Definition defaultVerificationEmailDeliveryBatchSize : Z := 4.
Definition defaultVerificationEmailDeliveryLease : duration := Minute.
Definition defaultVerificationEmailDeliveryAttempts : Z := 8.
Definition defaultVerificationEmailDeliveryRetry : duration := 30 * Second.

Record Options := mkOptions {
  BatchSize : Z;
  LeaseDuration : duration;
  MaxAttempts : Z;
  RetryDelay : duration;
}.

Record Worker := mkWorker { wk_sender : Sender; opts : Options }.

(** [NewVerificationEmailDeliveryWorker]. *)
Definition NewWorker (sender : Sender) (o : Options) : Worker :=
  mkWorker sender (mkOptions
    (if (BatchSize o <=? 0) || (100 <? BatchSize o)
     then defaultVerificationEmailDeliveryBatchSize else BatchSize o)
    (if LeaseDuration o <=? 0
     then defaultVerificationEmailDeliveryLease else LeaseDuration o)
    (if MaxAttempts o <=? 0
     then defaultVerificationEmailDeliveryAttempts else MaxAttempts o)
    (if RetryDelay o <=? 0
     then defaultVerificationEmailDeliveryRetry else RetryDelay o)).

(** [retryDelay]; [fuel] bounds the loop (64 doublings pass 24 hours). *)
Fixpoint retry_loop (fuel : nat) (index attempts delay : Z) : duration :=
  match fuel with
  | O => delay
  | S fuel' =>
      if (index <? attempts) && (delay <? 24 * Hour)
      then retry_loop fuel' (wrap32 (index + 1)) attempts (wrap64 (delay * 2))
      else delay
  end.

Definition retryDelay (base : duration) (attempts : Z) : duration :=
  let delay := retry_loop 64 1 attempts base in
  if 24 * Hour <? delay then 24 * Hour else delay.

Record Result := mkResult {
  Claimed : Z; Sent : Z; Canceled : Z; Rescheduled : Z; DeadLettered : Z }.
#[global] Instance eta_Result : Eta Result := fun x =>
  mkResult (Claimed x) (Sent x) (Canceled x) (Rescheduled x) (DeadLettered x).

(** What the provider was asked to send. *)
Record MailSent := mkMailSent {
  ms_purpose : string; ms_email : string; ms_code : string; ms_error : option goerr }.

Section worker.
Context `{Env} `{Pg} `{!Interference DB}.
Import VerificationEmailDelivery.

Abbreviation W := (M (World DB (list MailSent))).

Definition inTx {R} (fn : MT R) : W R := InTx interp_before fn.

(** [leaseToken]: 24 random bytes in hexadecimal. *)
Definition leaseToken : W string :=
  let* raw := RandReadW 24 in
  match raw with
  | Some b => mret (hex_encode b)
  | None => throw (ENew "crypto/rand")
  end.

(** [sendVerificationEmail]; the provider's answers are indexed by the calls
    already made. *)
Definition sendVerificationEmail (sender : Sender) (purpose email code : string)
    : W (option goerr) := fun w =>
  let k := length (w_ext w) in
  if bool_decide (purpose = VerificationPurposeRegistration) then
    let r := SendRegistrationCode sender k email code in
    (inr r, w <| w_ext := w_ext w ++ [mkMailSent purpose email code r] |>)
  else if bool_decide (purpose = VerificationPurposePasswordReset) then
    let r := SendPasswordResetCode_ sender k email code in
    (inr r, w <| w_ext := w_ext w ++ [mkMailSent purpose email code r] |>)
  else (inr (Some (ENew "unknown verification email purpose")), w).

Definition updateClaim (claim : Claim) (updates : t -> t) : W bool :=
  inTx (UpdateClaim claim updates).

(** The four outcomes, as the code's update maps. *)
Definition canceled (now : time) (d : t) : t :=
  d <| State := VerificationEmailDeliveryCanceled |> <| LeaseToken := None |>
    <| LeaseUntil := None |> <| NextAttemptAt := None |>
    <| LastErrorCode := Some "stale_challenge"%string |> <| CanceledAt := Some now |>
    <| UpdatedAt := now |> <| Code := None |>.

Definition sent (now : time) (d : t) : t :=
  d <| State := VerificationEmailDeliverySent |> <| LeaseToken := None |>
    <| LeaseUntil := None |> <| NextAttemptAt := None |> <| LastErrorCode := None |>
    <| SentAt := Some now |> <| UpdatedAt := now |>.

Definition dead_lettered (claim : Claim) (now : time) (errorCode : string) (d : t) : t :=
  d <| State := VerificationEmailDeliveryDeadLetter |>
    <| Attempts := wrap32 (Attempts (cl_row claim) + 1) |> <| NextAttemptAt := None |>
    <| LeaseToken := None |> <| LeaseUntil := None |>
    <| LastErrorCode := Some errorCode |> <| DeadLetteredAt := Some now |>
    <| UpdatedAt := now |> <| Code := None |>.

Definition rescheduled (attempts : Z) (next now : time) (d : t) : t :=
  d <| State := VerificationEmailDeliveryPending |> <| Attempts := attempts |>
    <| NextAttemptAt := Some next |> <| LeaseToken := None |> <| LeaseUntil := None |>
    <| LastErrorCode := Some "provider_error"%string |> <| UpdatedAt := now |>.

Definition deadLetter (claim : Claim) (now : time) (errorCode : string) : W bool :=
  updateClaim claim (dead_lettered claim now errorCode).

(** The code of a refreshed claim, when it may be sent. *)
Definition sendable (claim : Claim) : option string :=
  match Code (cl_row claim) with
  | Some code =>
      if bool_decide (CurrentCodeDigest claim = ""%string) ||
         negb (bool_decide (CurrentCodeDigest claim = CodeDigest (cl_row claim)))
      then None else Some code
  | None => None
  end.

Definition counted (updated : bool) (f : Result -> Result) : Result -> Result :=
  if updated then f else fun r => r.

(** The end of the loop's body: what the provider's answer makes of the claim. *)
Definition record_answer (w : Worker) (claim : Claim) (now : time)
    (deliveryErr : option goerr) : W (Result -> Result) :=
  match deliveryErr with
  | None =>
      let* updated := updateClaim claim (sent now) in
      mret (counted updated (fun r => r <| Sent := Sent r + 1 |>))
  | Some _ =>
      let attempts := wrap32 (Attempts (cl_row claim) + 1) in
      if wrap32 (MaxAttempts (opts w)) <=? attempts then
        let* updated := deadLetter claim now "delivery_exhausted" in
        mret (counted updated (fun r => r <| DeadLettered := DeadLettered r + 1 |>))
      else
        let next := time_Add now (retryDelay (RetryDelay (opts w)) attempts) in
        let* updated := updateClaim claim (rescheduled attempts next now) in
        mret (counted updated (fun r => r <| Rescheduled := Rescheduled r + 1 |>))
  end.

(** The body of [RunBatch]'s loop for one claim: how it changes the counters. *)
Definition deliver_one (w : Worker) (claim : Claim) : W (Result -> Result) :=
  let* now := NowW in
  let* refreshed := inTx (RefreshClaim claim now) in
  match refreshed with
  | None => mret (fun r => r)
  | Some claim =>
      match sendable claim with
      | None =>
          let* updated := updateClaim claim (canceled now) in
          mret (counted updated (fun r => r <| Canceled := Canceled r + 1 |>))
      | Some code =>
          let* deliveryErr := sendVerificationEmail (wk_sender w) (Purpose (cl_row claim))
                                (Email (cl_row claim)) code in
          record_answer w claim now deliveryErr
      end
  end.

(** The loop: the first error ends it, with the counters so far. *)
Fixpoint deliver_all (w : Worker) (claims : list Claim) (r : Result)
    : W (Result * option goerr) :=
  match claims with
  | [] => mret (r, None)
  | claim :: claims' =>
      let* o := attempt (deliver_one w claim) in
      match o with
      | inl err => mret (r, Some err)
      | inr f => deliver_all w claims' (f r)
      end
  end.

Definition RunBatch (w : Worker) : W (Result * option goerr) :=
  let* now := NowW in
  let* token := leaseToken in
  let* claims := inTx (
    ClearInvalidCodes now (Z.to_nat (BatchSize (opts w) * 10)) ;;;
    ClaimDue now (time_Add now (LeaseDuration (opts w))) token (BatchSize (opts w))) in
  deliver_all w claims (mkResult (Z.of_nat (length claims)) 0 0 0 0).

(** The worker as the queue of the auth service. *)
Definition Queue : DeliveryQueue := mkDeliveryQueue EmailDeliveryRepository.Enqueue KickEmailWorker.
End worker.
End EmailWorker.
