(* ===== verification/EmailProps.v ===== *)
(** * The verification-e-mail outbox: properties

    The tables' constraints under concurrency, the outbox as an implementation of
    the queue the auth service is written against, what may be sent, the lease
    fence, and the retry budget. *)

From S2P Require Import Prelude.
From S2P Require Import GoText.
From S2P Require Import Apierr.
From S2P Require Import Effects.
From S2P Require Import Logic.
From S2P Require Import Model.
From S2P Require Import Authz.
From S2P Require Import Middleware.
From S2P Require Import Validation.
From S2P Require Import Digest.
From S2P Require Import AuthRepo.
From S2P Require Import AuthService.
From S2P Require Import AuthHandler.
From S2P Require Import AuthTables.
From S2P Require Import AuthCodes.
From S2P Require Import AuthTokens.
From S2P Require Import EmailOutbox.
Open Scope Z_scope.
Import EmailDeliveryRepository EmailWorker.
#[local] Opaque Sum256 hmac_sha256 hex_encode.

Module D := VerificationEmailDelivery.
Abbreviation tasks := verification_email_deliveries.

(** ** The outbox implements the queue of the auth service *)
Section queue.
Context `{EnvOk} `{Pg}.

Lemma new_delivery_ok id cid email purpose digest code now :
  is_digest digest -> six_digits code -> purpose ∈ purposes ->
  delivery_ok (new_delivery id cid email purpose digest code now).
Proof.
  intros [Hd _] Hc Hp. constructor; cbn; try done.
  - by intros ? [= <-].
  - in_list.
  - split; [not_in_list | done].
  - not_in_list.
Qed.

#[export] Instance queue_keeps_tables : QueueKeeps tables_ok Queue.
Proof.
  intros challenge email purpose digest code now Hd Hc Hp. unfold Queue. cbn.
  unfold EmailDeliveryRepository.Enqueue. solve_inv. apply inv_stmt.
  intros db r db' Hdb E. destruct (insert_row _ _ _ _) as [|t] eqn:Ht; simplify_eq.
  apply insert_row_inr in Ht as [_ ->]. split; [|done]. apply ok_deliveries; [done|..].
  - by apply keyed_insert; [apply deliveries_keyed|].
  - by apply rows_insert; [apply deliveries_ok | apply new_delivery_ok].
Qed.

(** It writes nothing but its own table. *)
Lemma Enqueue_frame {F} (proj : DB -> F) challenge email purpose digest code now :
  (forall db t, proj (db <| verification_email_deliveries := t |>) = proj db) ->
  Keeps (unchanged proj) (AuthService.Enqueue Queue challenge email purpose digest code now).
Proof.
  intros Hp. unfold Queue. cbn. unfold EmailDeliveryRepository.Enqueue. solve_keeps.
  apply (keeps_stmt _). intros db r db' E. case_match; simplify_eq. apply Hp.
Qed.

#[export] Instance queue_frame_codes : QueueFrame codes Queue.
Proof. intros challenge email purpose digest code now. by apply Enqueue_frame. Qed.
#[export] Instance queue_frame_sessions : QueueFrame user_sessions Queue.
Proof. intros challenge email purpose digest code now. by apply Enqueue_frame. Qed.
End queue.

(** ** The constraints under concurrency *)
Section constraints.
Context `{EnvOk} `{Pg}.
Context (M : Z) (HM : 1 <= M < 2 ^ 31).

Definition in_budget (d : D.t) : Prop := open_state d = true -> D.Attempts d < M.

(** The constraints, and: a task still open has attempts left. *)
Definition outbox_ok (db : DB) : Prop :=
  tables_ok db /\ forall k d, tasks db !! k = Some d -> in_budget d.

Abbreviation Inv_ok := (Inv (B := BeforeOp) (A := AfterOp) outbox_ok).

Lemma outbox_fmap db (f : D.t -> D.t) :
  (forall d, D.ID (f d) = D.ID d) ->
  (forall d, delivery_ok d -> in_budget d -> delivery_ok (f d) /\ in_budget (f d)) ->
  outbox_ok db -> outbox_ok (db <| verification_email_deliveries := f <$> tasks db |>).
Proof.
  intros Hid Hf [Hdb Hb]. split.
  - apply ok_deliveries; [done|by apply keyed_fmap, deliveries_keyed|].
    intros k d (d0 & <- & Hd)%lookup_fmap_Some. apply Hf; [by eapply deliveries_ok|eauto].
  - cbn. intros k d (d0 & <- & Hd)%lookup_fmap_Some. apply Hf; [by eapply deliveries_ok|eauto].
Qed.

Lemma inv_ClearInvalidCodes now limit : Inv_ok (ClearInvalidCodes now limit) any.
Proof.
  apply inv_exec. intros db. apply outbox_fmap; intros d; case_match; try done.
  intros Hd Hb. split; [by apply wiped_delivery_ok | done].
Qed.

(** An open row carries no outcome yet. *)
Lemma blank_outcome d :
  D.State d = VerificationEmailDeliveryPending \/
    D.State d = VerificationEmailDeliverySending -> delivery_ok d ->
  D.SentAt d = None /\ D.CanceledAt d = None /\ D.DeadLetteredAt d = None.
Proof.
  intros Hs Hd. pose proof (proj2 (sent_ok _ Hd)) as H1'.
  pose proof (proj2 (canceled_ok _ Hd)) as H2'. pose proof (proj2 (dead_ok _ Hd)) as H3'.
  split_and!.
  - destruct (D.SentAt d); [|done]. by destruct Hs as [Hs|Hs]; rewrite Hs in H1'; discriminate H1'.
  - destruct (D.CanceledAt d); [|done]. by destruct Hs as [Hs|Hs]; rewrite Hs in H2'; discriminate H2'.
  - destruct (D.DeadLetteredAt d); [|done]. by destruct Hs as [Hs|Hs]; rewrite Hs in H3'; discriminate H3'.
Qed.

Lemma leased_ok token until now d :
  (16 <= String.length token <= 64)%nat -> open_state d = true ->
  delivery_ok d -> in_budget d ->
  delivery_ok (leased token until now d) /\ in_budget (leased token until now d).
Proof.
  intros Ht Ho Hd Hb. split; [|intros _; by apply Hb].
  assert (D.State d = VerificationEmailDeliveryPending \/
          D.State d = VerificationEmailDeliverySending) as Hs.
  { unfold open_state in Ho. rewrite orb_true_iff, !bool_decide_eq_true in Ho. done. }
  pose proof (blank_outcome d Hs Hd) as (H1' & H2' & H3').
  pose proof (terminal_ok _ Hd) as Hterm.
  destruct Hd. split; cbn; rewrite ?H1', ?H2', ?H3'; try done.
  - in_list.
  - by intros l [= <-].
  - split; [not_in_list|]. intros Hn. apply Hterm in Hn. revert Hn.
    destruct Hs as [-> | ->]; not_in_list.
  - not_in_list.
Qed.

Lemma elem_of_in_ids (l : list D.t) d : d ∈ l -> in_ids l d = true.
Proof.
  intros Hd. unfold in_ids. apply existsb_exists. exists d.
  split; [by apply list_elem_of_In | lia].
Qed.

Lemma in_ids_elem (l : list D.t) d : in_ids l d = true -> exists r, r ∈ l /\ D.ID r = D.ID d.
Proof.
  unfold in_ids. intros (r & Hr & He)%existsb_exists. exists r.
  split; [by apply list_elem_of_In | lia].
Qed.

Lemma candidates_due now limit db d :
  d ∈ candidates now limit db -> due now d = true /\ exists k, tasks db !! k = Some d.
Proof.
  unfold candidates. intros Hd. apply elem_of_take in Hd as (i & Hd & _).
  apply list_elem_of_lookup_2, elem_of_sort_by, elem_of_select in Hd. done.
Qed.

(** In a keyed table, the claimed ids are exactly the candidates. *)
Lemma claimed_is_candidate now limit db k d :
  keyed D.ID (tasks db) -> tasks db !! k = Some d ->
  in_ids (candidates now limit db) d = true -> d ∈ candidates now limit db.
Proof.
  intros Hk Hd (r & Hr & Hid)%in_ids_elem.
  destruct (candidates_due _ _ _ _ Hr) as [_ [k' Hk']].
  rewrite (Hk _ _ Hd), (Hk _ _ Hk') in Hid. by simplify_eq.
Qed.

Lemma inv_ClaimDue now until token limit :
  (16 <= String.length token <= 64)%nat -> Inv_ok (ClaimDue now until token limit) any.
Proof.
  intros Ht. unfold ClaimDue. case_match; [apply inv_throw|]. apply inv_stmt.
  intros db r db' [Hdb Hb] [= <- <-]. split; [|done]. split.
  - apply ok_deliveries; [done|apply keyed_fmap; [intros d; by case_match|by apply deliveries_keyed]|].
    intros k d (d0 & <- & Hd)%lookup_fmap_Some. case_match eqn:Hin; [|by eapply deliveries_ok].
    eapply claimed_is_candidate in Hin; [|by apply deliveries_keyed|done].
    apply candidates_due in Hin as [Hdue _]. unfold due in Hdue. rewrite !andb_true_iff in Hdue.
    destruct Hdue as [[Ho _] _]. apply leased_ok; [done|done|by eapply deliveries_ok|eauto].
  - cbn. intros k d (d0 & <- & Hd)%lookup_fmap_Some. case_match eqn:Hin; [|by eapply Hb].
    eapply claimed_is_candidate in Hin; [|by apply deliveries_keyed|done].
    apply candidates_due in Hin as [Hdue _]. unfold due in Hdue. rewrite !andb_true_iff in Hdue.
    destruct Hdue as [[Ho _] _]. apply leased_ok; [done|done|by eapply deliveries_ok|eauto].
Qed.

Definition claim_ok (claim : Claim) : Prop :=
  0 <= D.Attempts (cl_row claim) < M.

Lemma inv_RefreshClaim claim now :
  Inv_ok (RefreshClaim claim now) (fun o => forall c, o = Some c -> claim_ok c).
Proof.
  apply inv_query. intros db [Hdb Hb] c (d & Hd & ->)%fmap_Some.
  apply first_Some in Hd as (Hp & k & Hd).
  unfold owned_row in Hp. rewrite !andb_true_iff, !bool_decide_eq_true in Hp.
  destruct Hp as [[[_ Hs] _] _]. unfold claim_ok. cbn. split; [by eapply attempts_ok, deliveries_ok|].
  eapply Hb; [done|]. unfold open_state.
  rewrite orb_true_iff, !bool_decide_eq_true. by right.
Qed.

Lemma inv_UpdateClaim claim f :
  (forall d, D.ID (f d) = D.ID d) ->
  (forall d, D.State d = VerificationEmailDeliverySending -> delivery_ok d ->
     delivery_ok (f d) /\ in_budget (f d)) ->
  Inv_ok (UpdateClaim claim f) any.
Proof.
  intros Hid Hf. unfold UpdateClaim. solve_inv. apply inv_stmt.
  intros db r db' Hdb [= <- <-]. split; [|done]. apply outbox_fmap; [..|done].
  - intros d. by case_match.
  - intros d Hd Hb. case_match eqn:Ho; [|done].
    unfold owned_row in Ho. rewrite !andb_true_iff, !bool_decide_eq_true in Ho.
    destruct Ho as [[_ Hs] _]. by apply Hf.
Qed.

Ltac outcome := intros d Hs Hd; pose proof (blank_outcome d (or_intror Hs) Hd) as (Hs1 & Hs2 & Hs3);
  destruct Hd; split; [split; cbn; rewrite ?Hs1, ?Hs2, ?Hs3; try done; try in_list;
    try (split; [done | intros _; in_list]) | ].

Lemma canceled_row_ok now d :
  D.State d = VerificationEmailDeliverySending -> delivery_ok d ->
  delivery_ok (canceled now d) /\ in_budget (canceled now d).
Proof.
  revert d. outcome; [|done]. intros e [= <-]. in_list.
Qed.

Lemma sent_row_ok now d :
  D.State d = VerificationEmailDeliverySending -> delivery_ok d ->
  delivery_ok (sent now d) /\ in_budget (sent now d).
Proof. revert d. outcome; [|done]. not_in_list. Qed.

Lemma dead_row_ok claim now e d :
  claim_ok claim -> e ∈ ["provider_error"; "delivery_exhausted"]%string ->
  D.State d = VerificationEmailDeliverySending -> delivery_ok d ->
  delivery_ok (dead_lettered claim now e d) /\ in_budget (dead_lettered claim now e d).
Proof.
  intros Hc He. revert d. unfold claim_ok in Hc. outcome; [| |done].
  - rewrite wrap32_small; lia.
  - intros e' [= <-]. set_solver.
Qed.

Lemma rescheduled_row_ok attempts next now d :
  0 <= attempts < M -> D.State d = VerificationEmailDeliverySending -> delivery_ok d ->
  delivery_ok (rescheduled attempts next now d) /\ in_budget (rescheduled attempts next now d).
Proof.
  intros Ha. revert d. outcome; [lia| | | |intros _; cbn; lia].
  - intros e' [= <-]. in_list.
  - split; [not_in_list|done].
  - not_in_list.
Qed.
End constraints.

Section worker_invariant.
Context `{EnvOk} `{Pg} `{!Interference DB}.
Context (wk : Worker) (HM : 1 <= MaxAttempts (opts wk) < 2 ^ 31).
Abbreviation ok := (outbox_ok (MaxAttempts (opts wk))).
Context (Hothers : forall k db, ok db -> ok (others k db)).
Abbreviation InvW_ok := (InvW (X := list MailSent) ok).

Lemma inv_before_outbox op : Inv ok (interp_before op) any.
Proof.
  destruct op. cbn. intros tx r tx' E [Hdb Hb].
  destruct (inv_Touch sessionID now sessionTouchThreshold ltac:(done) tx r tx' E Hdb).
  split; [|done]. split; [done|].
  assert (tasks (tx_db tx') = tasks (tx_db tx)) as ->; [|done].
  unfold SessionRepository.Touch in E. destruct r as [e|[]].
  - by apply stmt_inl in E as [-> _].
  - by apply exec_inr in E as [-> _].
Qed.

Lemma invw_inTx {R} (fn : MT R) phi : Inv ok fn phi -> InvW_ok (inTx fn) phi.
Proof. intros Hf. apply invw_InTx; [exact Hothers | apply inv_before_outbox | exact Hf]. Qed.

Lemma invw_update claim f :
  (forall d, D.ID (f d) = D.ID d) ->
  (forall d, D.State d = VerificationEmailDeliverySending -> delivery_ok d ->
     delivery_ok (f d) /\ in_budget (MaxAttempts (opts wk)) (f d)) ->
  InvW_ok (updateClaim claim f) any.
Proof. intros. by apply invw_inTx, inv_UpdateClaim. Qed.

Lemma invw_send s purpose email code : InvW_ok (sendVerificationEmail s purpose email code) any.
Proof.
  apply invw_same. intros w r w'. unfold sendVerificationEmail.
  repeat case_match; by intros [= <- <-].
Qed.

Lemma invw_record_answer claim now answer :
  claim_ok (MaxAttempts (opts wk)) claim -> InvW_ok (record_answer wk claim now answer) any.
Proof.
  intros Hc. assert (Hc' := Hc). unfold claim_ok in Hc'. unfold record_answer.
  destruct answer as [e|].
  - rewrite !wrap32_small by lia.
    destruct (_ <=? _) eqn:Hx; (eapply invw_bind; [|intros; by apply invw_mret]).
    + apply invw_update; [done|]. intros d Hs Hd. apply dead_row_ok; try done. in_list.
    + apply invw_update; [done|]. intros d Hs Hd. apply rescheduled_row_ok; try done. lia.
  - eapply invw_bind; [|intros; by apply invw_mret].
    apply invw_update; [done|]. intros d. by apply sent_row_ok.
Qed.

Lemma invw_deliver_one claim : InvW_ok (deliver_one wk claim) any.
Proof.
  unfold deliver_one. eapply invw_bind; [apply invw_NowW|]. intros now _.
  eapply invw_bind; [apply invw_inTx, inv_RefreshClaim|]. intros [c|] Hc; [|by apply invw_mret].
  specialize (Hc c eq_refl). destruct (sendable c) as [code|].
  - eapply invw_bind; [apply invw_send|]. intros answer _. by apply invw_record_answer.
  - eapply invw_bind; [|intros; by apply invw_mret].
    apply invw_update; [done|]. intros d. by apply canceled_row_ok.
Qed.

Lemma invw_deliver_all claims r : InvW_ok (deliver_all wk claims r) any.
Proof.
  revert r. induction claims as [|c cs IH]; intros r; cbn; [by apply invw_mret|].
  eapply invw_bind; [apply invw_attempt, invw_deliver_one|].
  intros [e|f] _; [by apply invw_mret | apply IH].
Qed.

Lemma invw_leaseToken : InvW_ok leaseToken (fun tok => (16 <= String.length tok <= 64)%nat).
Proof.
  intros w r w' E Hw. unfold leaseToken, RandReadW, mbind in E. cbv beta iota in E.
  destruct (env_rand _ 24) as [b|] eqn:Hb; unfold mret, throw in E; simplify_eq; split; try done.
  intros a [= <-]. rewrite hex_encode_length. apply rand_length in Hb. lia.
Qed.

(** the outbox's constraints are an invariant of a batch.  As long as the
    other processes keep them between the worker's transactions, [RunBatch]
    keeps every check of migration 00020 (lease pairs, outcome timestamps, error
    codes, code format), that canceled and dead-lettered tasks hold no plaintext,
    and that a task still open has attempts left; whatever the provider answers
    and wherever the batch stops. *)
Theorem outbox_batch_invariant (w w' : World DB (list MailSent)) r :
  RunBatch wk w = (r, w') -> ok (w_db w) -> ok (w_db w').
Proof.
  intros E Hw. revert w r w' E Hw.
  assert (InvW_ok (RunBatch wk) any) as Hi; [|intros w r w' E Hw; by eapply Hi].
  unfold RunBatch. eapply invw_bind; [apply invw_NowW|]. intros now _.
  eapply invw_bind; [apply invw_leaseToken|]. intros tok Htok.
  eapply (invw_bind _ _ _ any); [|intros; apply invw_deliver_all].
  apply invw_inTx. eapply inv_bind; [apply inv_ClearInvalidCodes|]. intros _ _.
  by apply inv_ClaimDue.
Qed.
End worker_invariant.

(** ** What may be sent *)
Section sending.
Context `{Env} `{Pg} `{!Interference DB}.

(** The task's code can still be used by its addressee. *)
Record deliverable (db : DB) (now : time) (d : D.t) (code : string) : Prop := {
  del_code : D.Code d = Some code;
  del_challenge : exists c, codes db !! D.ChallengeID d = Some c /\
    EmailVerificationCode.CodeDigest c = D.CodeDigest d /\
    EmailVerificationCode.ConsumedAt c = None /\
    now < EmailVerificationCode.ExpiresAt c /\ EmailVerificationCode.FailedAttempts c < 5;
  del_account : D.Purpose d = VerificationPurposePasswordReset ->
    exists k u, users db !! k = Some u /\ pg_lower (User.Email u) = pg_lower (D.Email d) /\
      User.DeletedAt u = None;
}.

Lemma sendable_deliverable db now d code :
  sendable (mkClaim d (current_code_digest db now d)) = Some code ->
  deliverable db now d code.
Proof.
  unfold sendable, current_code_digest. cbn.
  destruct (D.Code d) as [cd|] eqn:Hcode; [|done].
  destruct (codes db !! D.ChallengeID d) as [c|] eqn:Hc; [|done].
  destruct (current db now d c) eqn:Hcur; [|done].
  destruct (_ || _); [done|]. intros [= ->]. unfold current in Hcur.
  rewrite !andb_true_iff, !bool_decide_eq_true in Hcur.
  destruct Hcur as [[[[? ?] ?] ?] Hacc]. split; [done| |].
  - exists c. split_and!; try done; lia.
  - intros Hp. rewrite orb_true_iff, negb_true_iff, bool_decide_eq_false in Hacc.
    destruct Hacc as [Hn|Hacc]; [done|]. apply exists_row_true in Hacc as (k & u & Hu & Hx).
    unfold UserRepository.live in Hx. rewrite andb_true_iff, !bool_decide_eq_true in Hx.
    exists k, u. by destruct Hx.
Qed.

Lemma updateClaim_ext claim f w r w' :
  updateClaim claim f w = (r, w') -> w_ext w' = w_ext w.
Proof.
  intros E. apply InTx_cases in E as [(? & _ & _ & ->) | (? & ? & ? & _ & _ & _ & _ & ->)]; done.
Qed.

Lemma outcome_ext {R} claim f (k : bool -> R) w r w' :
  (let* u := updateClaim claim f in mret (k u)) w = (r, w') -> w_ext w' = w_ext w.
Proof.
  unfold mbind. destruct (updateClaim claim f w) as [[e|u] w1] eqn:E1;
    apply updateClaim_ext in E1 as <-; unfold mret; intros; by simplify_eq.
Qed.

Lemma record_answer_ext wk claim now answer w r w' :
  record_answer wk claim now answer w = (r, w') -> w_ext w' = w_ext w.
Proof. unfold record_answer. repeat case_match; apply outcome_ext. Qed.

Lemma RefreshClaim_inr claim now (tx : TxD) o tx' :
  RefreshClaim claim now tx = (inr o, tx') ->
  o = (fun d => mkClaim d (current_code_digest (tx_db tx) now d)) <$>
        first (fun d => owned_row claim d && lease_valid now d) (tasks (tx_db tx)).
Proof. intros E. unfold RefreshClaim in E. by apply query_inr in E as [-> _]. Qed.

Lemma refresh_inr claim now w o w' :
  inTx (RefreshClaim claim now) w = (o, w') ->
  w_ext w' = w_ext w /\
  forall c, o = inr (Some c) -> exists d k, let db := w_db (interfere w) in
    c = mkClaim d (current_code_digest db now d) /\ tasks db !! k = Some d /\
    owned_row claim d = true /\ lease_valid now d = true.
Proof.
  intros E. apply InTx_cases in E
    as [(? & -> & _ & Hx) | (v & tx & tx1 & -> & Ht & _ & _ & Hx)]; (split; [done|]).
  - done.
  - intros c [= ->]. apply RefreshClaim_inr in Ht. symmetry in Ht.
    apply fmap_Some in Ht as (d & Hd & ->). apply first_Some in Hd as [Hp [k Hk]].
    apply andb_true_iff in Hp as [Ho Hl]. by exists d, k.
Qed.

Lemma send_ext s purpose email code w r w' :
  sendVerificationEmail s purpose email code w = (r, w') ->
  w_ext w' = w_ext w \/
  exists answer, w_ext w' = w_ext w ++ [mkMailSent purpose email code answer].
Proof.
  unfold sendVerificationEmail. repeat case_match; intros [= <- <-]; cbn; eauto.
Qed.

(** a mail is sent only for a code that still works.  Handling a claim asks
    the provider for at most one mail; if it does, then in the tables the worker
    re-read just before, the task was still its own (sending, under its lease
    token, the lease not expired), its plaintext was still there, its challenge
    still had the task's digest and was unused, unexpired and not exhausted, and
    a password reset still had a live account for the address. *)
Theorem no_stale_mail (wk : Worker) (claim : Claim) (w w' : World DB (list MailSent)) r :
  deliver_one wk claim w = (r, w') ->
  w_ext w' = w_ext w \/
  exists now d code answer k,
    let db := w_db (interfere w) in
    w_ext w' = w_ext w ++ [mkMailSent (D.Purpose d) (D.Email d) code answer] /\
    tasks db !! k = Some d /\ owned_row claim d = true /\ lease_valid now d = true /\
    deliverable db now d code.
Proof.
  unfold deliver_one, mbind, NowW. cbv beta iota. set (w1 := w <| w_ctr := _ |>).
  set (now := env_now _).
  destruct (inTx (RefreshClaim claim now) w1) as [[e|[c|]] w2] eqn:E1;
    apply refresh_inr in E1 as [Hx Hc]; [intros; simplify_eq; by left| |intros [= <- <-]; by left].
  destruct (Hc c eq_refl) as (d & k & -> & Hk & Ho & Hl). clear Hc.
  destruct (sendable _) as [code|] eqn:Hs;
    [|intros E; left; apply outcome_ext in E; by rewrite E, Hx].
  apply sendable_deliverable in Hs. cbn [cl_row].
  destruct (sendVerificationEmail _ _ _ _ w2) as [[e|a] w3] eqn:E3; apply send_ext in E3.
  - intros [= <- <-]. destruct E3 as [E3 | [a E3]]; [left; by rewrite E3|right].
    exists now, d, code, a, k. by rewrite E3, Hx.
  - intros E. apply record_answer_ext in E. rewrite E.
    destruct E3 as [E3 | [an E3]]; [left; by rewrite E3|right].
    exists now, d, code, an, k. by rewrite E3, Hx.
Qed.
End sending.

(** ** Leases *)
Section leases.
Context `{Env} `{Pg}.
Import D.

Lemma owned_id claim d : owned_row claim d = true -> ID d = ID (cl_row claim).
Proof.
  unfold owned_row. rewrite !andb_true_iff, bool_decide_eq_true. by intros [[? _] _].
Qed.

(** the fence.  A worker's update writes one row or none: it reports success
    exactly when the task is still [sending] under the claim's own lease token,
    and then changes that row as asked and nothing else; a worker whose lease was
    taken over changes nothing at all. *)
Theorem lease_fence claim f (tx tx' : TxD) b :
  keyed ID (tasks (tx_db tx)) ->
  UpdateClaim claim f tx = (inr b, tx') ->
  (b = true /\ exists d, tasks (tx_db tx) !! ID (cl_row claim) = Some d /\
     State d = VerificationEmailDeliverySending /\
     LeaseToken d = Some (stringValue (LeaseToken (cl_row claim))) /\
     tx_db tx' = (tx_db tx) <| verification_email_deliveries :=
       <[ID (cl_row claim) := f d]> (tasks (tx_db tx)) |>) \/
  (b = false /\ tx_db tx' = tx_db tx /\
     forall d, tasks (tx_db tx) !! ID (cl_row claim) = Some d -> owned_row claim d = false).
Proof.
  intros Hk E. unfold UpdateClaim in E. apply mbind_inr in E as (n & tx1 & E1 & E).
  apply mret_inr in E as [<- <-]. apply stmt_inr_short in E1 as (E1 & _).
  destruct (update_where _ _ _) as [n' rows] eqn:Hu. injection E1 as -> Hdb.
  apply (update_fenced ID _ _ _ (ID (cl_row claim))) in Hu
    as [(-> & d & Hd & Ho & ->) | (-> & -> & Hno)]; [..|done|apply owned_id].
  - left. split; [done|]. exists d. unfold owned_row in Ho.
    rewrite !andb_true_iff, !bool_decide_eq_true in Ho. by destruct Ho as [[_ ?] ?].
  - right. split_and!; [done| |done]. rewrite <- Hdb. by destruct (tx_db tx).
Qed.
End leases.

Lemma length_insert_sorted {A} le (x : A) l : length (insert_sorted le x l) = S (length l).
Proof. induction l; cbn; [done|]. case_match; cbn; congruence. Qed.
Lemma length_sort_by {A} le (l : list A) : length (sort_by le l) = length l.
Proof. induction l; cbn; [done|]. rewrite length_insert_sorted. congruence. Qed.

Section claiming.
Context `{Env} `{Pg}.
Import D.

Lemma ClaimDue_inr now until token limit (tx : TxD) claims tx' :
  ClaimDue now until token limit tx = (inr claims, tx') ->
  0 < limit <= 1000 /\
  (claims, tx_db tx') = claim_due now until token (Z.to_nat limit) (tx_db tx).
Proof.
  unfold ClaimDue. destruct (_ || _) eqn:Hl; [by intros ?|]. rewrite orb_false_iff in Hl.
  intros E. apply stmt_inr_short in E as (E & _). apply (inj inr) in E. split; [lia|done].
Qed.

Lemma claim_of_candidate now until token limit db claim :
  claim ∈ fst (claim_due now until token limit db) ->
  exists d, d ∈ candidates now limit db /\ cl_row claim = leased token until now d.
Proof.
  cbn. intros (d & -> & Hd)%list_elem_of_fmap.
  apply elem_of_sort_by, list_elem_of_fmap in Hd as (d0 & -> & Hd). by exists d0.
Qed.

(** leases exclude.  [ClaimDue] claims as many of the due tasks as its limit
    allows, each of them open, due and not under a running lease; and until a
    lease runs out no later claim, by whichever worker, gets one of its tasks. *)
Theorem leases_exclude now1 until1 tok1 limit1 now2 until2 tok2 limit2
    (tx1 tx1' tx2 tx2' : TxD) cs1 cs2 :
  keyed ID (tasks (tx_db tx1)) ->
  ClaimDue now1 until1 tok1 limit1 tx1 = (inr cs1, tx1') ->
  tasks (tx_db tx2) = tasks (tx_db tx1') -> now2 < until1 ->
  ClaimDue now2 until2 tok2 limit2 tx2 = (inr cs2, tx2') ->
  Z.of_nat (length cs1) =
    Z.min limit1 (Z.of_nat (length (select (due now1) (tasks (tx_db tx1))))) /\
  (forall c, c ∈ cs1 -> exists k d, tasks (tx_db tx1) !! k = Some d /\
     due now1 d = true /\ cl_row c = leased tok1 until1 now1 d) /\
  (forall c1 c2, c1 ∈ cs1 -> c2 ∈ cs2 -> ID (cl_row c1) <> ID (cl_row c2)).
Proof.
  intros Hk E1 Hsame Hlt E2.
  apply ClaimDue_inr in E1 as [Hl1 E1]. apply ClaimDue_inr in E2 as [_ E2].
  pose proof (f_equal fst E1) as Hc1. pose proof (f_equal snd E1) as Hd1. cbn [fst snd] in *.
  pose proof (f_equal fst E2) as Hc2. cbn [fst] in Hc2. split_and!.
  - rewrite Hc1. cbn. rewrite length_map, length_sort_by, length_map. unfold candidates.
    rewrite length_firstn, length_sort_by. lia.
  - intros c Hc. rewrite Hc1 in Hc. apply claim_of_candidate in Hc as (d & Hd & Hrow).
    apply candidates_due in Hd as [Hdue [k Hd]]. by exists k, d.
  - intros c1 c2 H1 H2 Hid. rewrite Hc1 in H1. rewrite Hc2 in H2.
    apply claim_of_candidate in H1 as (d1 & H1 & Hr1).
    apply claim_of_candidate in H2 as (d2 & H2 & Hr2). rewrite Hr1, Hr2 in Hid. cbn in Hid.
    apply candidates_due in H2 as [Hdue2 [k2 Hd2]]. rewrite Hsame, Hd1 in Hd2. cbn in Hd2.
    apply lookup_fmap_Some in Hd2 as (d0 & Hd0 & Hk2).
    assert (in_ids (candidates now1 (Z.to_nat limit1) (tx_db tx1)) d0 = true) as Hin.
    { unfold in_ids. apply existsb_exists. exists d1. split; [by apply list_elem_of_In|].
      rewrite Hid, <- Hd0. case_match; cbn; lia. }
    rewrite Hin in Hd0. subst d2. unfold due in Hdue2. cbn in Hdue2.
    rewrite !andb_true_iff in Hdue2. destruct Hdue2 as [_ Hlease]. lia.
Qed.

(** Plaintext codes do not outlive their use.  After a challenge is saved, no
    task of it holds a plaintext code other than the one its digest is of, and
    none at all when the challenge can no longer be answered. *)
Theorem plaintext_wiped c now (tx tx' : TxD) k d :
  VerificationCodeRepository.SaveState c now tx = (inr tt, tx') ->
  tasks (tx_db tx') !! k = Some d ->
  ChallengeID d = EmailVerificationCode.ID c -> Code d <> None ->
  CodeDigest d = EmailVerificationCode.CodeDigest c /\
  EmailVerificationCode.ConsumedAt c = None /\ now < EmailVerificationCode.ExpiresAt c /\
  EmailVerificationCode.FailedAttempts c < 5.
Proof.
  intros E Hd Hc Hcode. apply SaveState_inr in E. rewrite E in Hd. cbn in Hd.
  apply lookup_fmap_Some in Hd as (d0 & Hd & _).
  destruct (bool_decide (ChallengeID d0 = EmailVerificationCode.ID c) &&
            bool_decide (Code d0 <> None) && _) eqn:Hw; [by subst d|].
  subst d0. rewrite !bool_decide_eq_true_2 in Hw by done. cbn in Hw.
  destruct (VerificationCodeRepository.usable c now) eqn:Hu; [|done].
  apply negb_false_iff, bool_decide_eq_true in Hw. split; [done|].
  unfold VerificationCodeRepository.usable, time_After in Hu.
  rewrite !andb_true_iff, bool_decide_eq_true in Hu. destruct Hu as [[? ?] ?].
  split_and!; [done|lia|lia].
Qed.
End claiming.

(** ** Retries *)
Lemma retry_loop_spec fuel index attempts delay :
  0 < delay -> 1 <= index <= attempts -> attempts < 2 ^ 31 ->
  delay < 24 * Hour + 24 * Hour \/ index = 1 /\ delay <= int64_max ->
  24 * Hour <= delay * 2 ^ Z.of_nat fuel ->
  Z.min (24 * Hour) (retry_loop fuel index attempts delay) =
  Z.min (24 * Hour) (delay * 2 ^ (attempts - index)).
Proof.
  revert index delay. induction fuel as [|fuel IH]; intros index delay Hd Hi Ha Hb Hf.
  - cbn [retry_loop]. change (2 ^ Z.of_nat 0) with 1 in Hf.
    pose proof (Z.pow_pos_nonneg 2 (attempts - index) ltac:(lia) ltac:(lia)). nia.
  - cbn [retry_loop]. destruct (index <? attempts) eqn:H1; cbn [andb].
    + destruct (delay <? 24 * Hour) eqn:H2.
      * rewrite wrap32_small by lia.
        assert (wrap64 (delay * 2) = delay * 2) as ->.
        { unfold wrap64, Hour, Minute, Second, Millisecond, Microsecond in *.
          rewrite Z.mod_small; lia. }
        rewrite IH; [|lia|lia|lia|lia|].
        -- replace (attempts - index) with (Z.succ (attempts - (index + 1))) by lia.
           rewrite Z.pow_succ_r by lia. f_equal. lia.
        -- rewrite Nat2Z.inj_succ, Z.pow_succ_r in Hf by lia. lia.
      * pose proof (Z.pow_pos_nonneg 2 (attempts - index) ltac:(lia) ltac:(lia)). nia.
    + replace (attempts - index) with 0 by lia. f_equal. lia.
Qed.

(** the backoff, in closed form.  For every positive base the delay before
    attempt [attempts + 1] is [base * 2^(attempts - 1)] capped at a day: the
    doubling loop ends, and neither its counter nor the duration overflows. *)
Theorem retryDelay_closed_form base attempts :
  0 < base <= int64_max -> 1 <= attempts < 2 ^ 31 ->
  retryDelay base attempts = Z.min (24 * Hour) (base * 2 ^ (attempts - 1)).
Proof.
  intros Hb Ha. unfold retryDelay.
  assert (24 * Hour <= base * 2 ^ Z.of_nat 64) as Hf.
  { change (2 ^ Z.of_nat 64) with 18446744073709551616. unfold Hour, Minute, Second,
      Millisecond, Microsecond. lia. }
  rewrite <- (retry_loop_spec 64 1 attempts base) by lia.
  destruct (_ <? _) eqn:Hc; lia.
Qed.

Section retries.
Context `{Faultless} `{Pg} `{!Interference DB}.
Import D.

Lemma updateClaim_ok claim f (w : World DB (list MailSent)) d :
  let db := w_db (interfere w) in
  keyed ID (tasks db) -> tasks db !! ID (cl_row claim) = Some d -> owned_row claim d = true ->
  exists w', updateClaim claim f w = (inr true, w') /\
    w_db w' = db <| verification_email_deliveries :=
      <[ID (cl_row claim) := f d]> (tasks db) |>.
Proof.
  intros db Hk Hd Ho. unfold updateClaim, inTx, InTx, RunInTx.
  rewrite faultless_begin. unfold UpdateClaim. set (tx := begin_tx false (interfere w)).
  erewrite mbind_run.
  2: { apply stmt_ok; [done|]. reflexivity. }
  unfold mret. cbn [tx_before BeforeCommitQueue_Run].
  change (length (select (owned_row claim) (tasks (tx_db tx))))
    with (length (select (owned_row claim) (tasks db))).
  rewrite (select_one ID _ _ (ID (cl_row claim)) d) by (try done; apply owned_id).
  unfold BeforeCommitQueue_Run. cbn. rewrite faultless_commit.
  eexists. split; [reflexivity|]. cbn. f_equal.
  change (snd (update_where (owned_row claim) f (tasks db)) =
    <[ID (cl_row claim) := f d]> (tasks db)).
  by apply (update_one ID); [done|apply owned_id| |].
Qed.

(** the retry budget.  When the provider refuses a task that is still the
    worker's own, the refusal is recorded: the task is rescheduled with one more
    attempt, after a backoff of at most a day, and stays within its budget; or,
    at the last attempt of the budget, it becomes a dead letter without plaintext
    and is never claimed again.  No other row changes, so a task is refused at
    most [MaxAttempts] times. *)
Theorem retry_budget wk claim now e (w : World DB (list MailSent)) d :
  let db := w_db (interfere w) in
  let attempts := Attempts (cl_row claim) + 1 in
  keyed ID (tasks db) -> tasks db !! ID (cl_row claim) = Some d -> owned_row claim d = true ->
  0 <= Attempts (cl_row claim) < MaxAttempts (opts wk) -> MaxAttempts (opts wk) < 2 ^ 31 ->
  0 < RetryDelay (opts wk) <= int64_max ->
  exists f w' d', record_answer wk claim now (Some e) w = (inr f, w') /\
    w_db w' = db <| verification_email_deliveries := <[ID (cl_row claim) := d']> (tasks db) |> /\
    Attempts d' = attempts /\ LeaseToken d' = None /\
    (attempts < MaxAttempts (opts wk) /\ State d' = VerificationEmailDeliveryPending /\
       Code d' = Code d /\
       NextAttemptAt d' = Some (now + Z.min (24 * Hour)
         (RetryDelay (opts wk) * 2 ^ (attempts - 1))) \/
     attempts = MaxAttempts (opts wk) /\ State d' = VerificationEmailDeliveryDeadLetter /\
       Code d' = None /\ forall t, due t d' = false).
Proof.
  intros db attempts Hk Hd Ho Ha Hm Hb. unfold record_answer.
  rewrite !wrap32_small by lia. fold attempts.
  destruct (_ <=? attempts) eqn:Hx.
  - destruct (updateClaim_ok claim (dead_lettered claim now "delivery_exhausted") w d)
      as (w' & E & Hw); [done..|].
    unfold deadLetter. rewrite (mbind_run _ _ _ _ _ E). do 3 eexists. split; [reflexivity|].
    split; [exact Hw|]. cbn. rewrite wrap32_small by lia. split_and!; try done.
    right. split_and!; try done. subst attempts; lia.
  - destruct (updateClaim_ok claim (rescheduled attempts
      (time_Add now (retryDelay (RetryDelay (opts wk)) attempts)) now) w d)
      as (w' & E & Hw); [done..|].
    rewrite (mbind_run _ _ _ _ _ E). do 3 eexists. split; [reflexivity|].
    split; [exact Hw|]. cbn. split_and!; try done. left. split_and!; try done; [lia|].
    unfold time_Add. rewrite retryDelay_closed_form by lia. done.
Qed.
End retries.
