(* ===== verification/AuthUniform.v ===== *)
(** * Password reset does not tell whether an account exists

    [SendPasswordResetCode] is symbolically executed in a fault-free environment:
    whatever the tables hold, its answer is a function of the request's text and of
    the configuration. *)

From S2P Require Import Prelude.
From S2P Require Import GoText.
From S2P Require Import Apierr.
From S2P Require Import Effects.
From S2P Require Import Logic.
From S2P Require Import Model.
From S2P Require Import Authz.
From S2P Require Import Middleware.
From S2P Require Import Validation.
From S2P Require Import Digest.
From S2P Require Import AuthRepo.
From S2P Require Import AuthService.
From S2P Require Import AuthHandler.
From S2P Require Import AuthTables.
From S2P Require Import AuthCodes.
From S2P Require Import AuthTokens.
From S2P Require Import EmailOutbox.
From S2P Require Import EmailProps.
Open Scope Z_scope.

(** The identity sequences are ahead of the tables. *)
Definition fresh_ids (tx : TxD) : Prop :=
  forall k, is_Some (codes (tx_db tx) !! k) \/ is_Some (tasks (tx_db tx) !! k) ->
    k <= c_seq (tx_ctr tx).

(** What the outbox promises here: it takes the task. *)
Class QueueTotal `{Env} (q : DeliveryQueue) :=
  queue_total : forall challenge email purpose digest code now (tx : TxD),
    tx_aborted tx = false -> fresh_ids tx ->
    exists id tx', AuthService.Enqueue q challenge email purpose digest code now tx = (inr id, tx').

Section uniform.
Context `{Reliable} `{Pg} `{Unicode} `{Mail} `{JWT} `{Bcrypt}.
Context (h : AuthService).
Context (Hqueue : forall q, deliveries h = Some q -> QueueTotal q).
Context (Hsender : passwordResetSenderConfigured (sender h) = true ->
                   emailSenderConfigured (sender h) = true).

(** A transaction that can still go on. *)
Definition healthy (tx : TxD) : Prop := tx_aborted tx = false /\ fresh_ids tx.

#[export] Instance outbox_total : QueueTotal EmailWorker.Queue.
Proof.
  intros challenge email purpose digest code now tx Ha Hf. cbn.
  unfold EmailDeliveryRepository.Enqueue, NextID, mbind. unfold stmt. cbn.
  rewrite faultless_stmt, Ha. unfold insert_row.
  destruct (tasks (tx_db tx) !! (c_seq (tx_ctr tx) + 1)) as [d|] eqn:Hd; [|by do 2 eexists].
  assert (c_seq (tx_ctr tx) + 1 <= c_seq (tx_ctr tx)); [|lia]. apply Hf. right. by exists d.
Qed.

(** A lookup finds somebody or nobody, and the transaction goes on. *)
Lemma lookup_user_runs (f : DB -> option User.t) (tx : TxD) :
  healthy tx -> exists u tx', lookup_user (First f) tx = (inr u, tx') /\ healthy tx'.
Proof.
  intros [Ha Hf]. unfold lookup_user, First, attempt, mbind.
  rewrite query_ok by done. destruct (f (tx_db tx)) as [u|]; cbn; do 2 eexists; split; done.
Qed.

Lemma LockOrCreate_runs email purpose now (tx : TxD) :
  healthy tx ->
  exists c tx', VerificationCodeRepository.LockOrCreate email purpose now tx = (inr c, tx') /\
    healthy tx'.
Proof.
  intros [Ha Hf]. unfold VerificationCodeRepository.LockOrCreate.
  set (p := VerificationCodeRepository.matches email purpose).
  unfold NextID at 1. unfold mbind at 1.
  set (id := c_seq (tx_ctr tx) + 1). set (tx1 := set_ctr _ tx).
  assert (codes (tx_db tx) !! id = None) as Hn.
  { destruct (codes (tx_db tx) !! id) as [c|] eqn:Hc; [|done].
    assert (id <= c_seq (tx_ctr tx)); [|subst id; lia]. apply Hf. left. by exists c. }
  destruct (exists_row p (codes (tx_db tx))) eqn:He.
  - erewrite mbind_run.
    2: { apply stmt_ok; [done|]. change (tx_db tx1) with (tx_db tx). rewrite He. reflexivity. }
    unfold exists_row in He. destruct (first p (codes (tx_db tx))) as [c|] eqn:Hc; [|done].
    eexists c, _. split; [by apply First_ok|]. split; [done|].
    intros k Hk. apply Hf in Hk. cbn. lia.
  - erewrite mbind_run.
    2: { apply stmt_ok; [done|]. change (tx_db tx1) with (tx_db tx). rewrite He.
         unfold insert_row. rewrite Hn. reflexivity. }
    set (fc := VerificationCodeRepository.fresh_challenge id email purpose now).
    set (t := <[id := fc]> (codes (tx_db tx))).
    assert (exists c, first p t = Some c) as [c Hc].
    { assert (exists_row p t = true) as He'.
      { apply exists_row_true. exists id, fc. split; [apply lookup_insert_eq|].
        subst p fc. unfold VerificationCodeRepository.matches. cbn.
        by rewrite !bool_decide_eq_true_2. }
      unfold exists_row in He'. destruct (first p t); [eauto|done]. }
    eexists c, _. split; [by apply First_ok|]. split; [done|].
    intros k Hk. cbn in Hk |- *. destruct (decide (k = id)) as [->|Hne]; [done|].
    unfold t in Hk. rewrite lookup_insert_ne in Hk by done. apply Hf in Hk. lia.
Qed.

Lemma SaveState_runs c now (tx : TxD) :
  healthy tx -> exists tx', VerificationCodeRepository.SaveState c now tx = (inr tt, tx') /\
    healthy tx'.
Proof.
  intros [Ha Hf]. eexists. split; [by apply SaveState_ok|]. split; [done|].
  intros k Hk. apply (Hf k). revert Hk. cbn. rewrite !lookup_fmap.
  intros [Hk | Hk]; [left|right]; by apply fmap_is_Some in Hk.
Qed.

Lemma generate_runs (tx : TxD) :
  healthy tx -> exists code tx', generateVerificationCode tx = (inr code, tx') /\ healthy tx'.
Proof.
  intros Hh. unfold generateVerificationCode, mbind, RandInt.
  destruct (reliable_int (c_rand (tx_ctr tx)) 1000000 ltac:(lia)) as [v ->].
  do 2 eexists. split; [reflexivity|]. done.
Qed.

Lemma randomDigest_runs (tx : TxD) :
  healthy tx -> exists d tx', randomDigest tx = (inr d, tx') /\ healthy tx'.
Proof.
  intros Hh. unfold randomDigest, mbind, RandRead.
  destruct (reliable_rand (c_rand (tx_ctr tx)) 32) as [v ->].
  do 2 eexists. split; [reflexivity|]. done.
Qed.

Lemma enqueue_runs challenge email purpose digest code now (tx : TxD) :
  emailSenderConfigured (sender h) = true -> has_queue h = true -> healthy tx ->
  fst (enqueueVerificationEmail h challenge email purpose digest code now tx) = inr tt.
Proof.
  intros Hs Hq [Ha Hf]. unfold enqueueVerificationEmail. rewrite Hs.
  unfold has_queue in Hq. destruct (deliveries h) as [q|] eqn:Hd; [|done].
  destruct (Hqueue q eq_refl challenge email purpose digest code now tx Ha Hf) as (id & tx' & E).
  erewrite mbind_run by (by apply on_error_run). unfold mbind, AfterCommit, mret.
  by destruct (tx_has_after tx').
Qed.

(** The answer, from the text and the configuration alone. *)
Definition reset_answer (raw : string) : goerr + unit :=
  match normalizeEmail raw with
  | inl err => inl err
  | inr _ =>
      if negb (EmailVerificationRequired (cfg h))
      then inl (EApi (ServiceUnavailable "密码重置暂不可用"))
      else if negb (passwordResetSenderConfigured (sender h)) || negb (has_queue h)
      then inl (EApi send_unavailable)
      else inr tt
  end.

(** C34: no account enumeration.  Asking for a password-reset code is answered the
    same way whatever the database holds: whether the address has an account,
    whether it was deleted, and even whether the address is being rate limited. *)
Theorem reset_code_uniform raw (tx : TxD) :
  tx_aborted tx = false -> fresh_ids tx ->
  fst (SendPasswordResetCode h raw tx) = reset_answer raw.
Proof.
  intros Ha Hf. unfold SendPasswordResetCode, reset_answer.
  destruct (normalizeEmail raw) as [err|email]; [done|].
  destruct (negb (EmailVerificationRequired (cfg h))); [done|].
  destruct (negb (passwordResetSenderConfigured _) || _) eqn:Hc; [done|].
  rewrite orb_false_iff, !negb_false_iff in Hc. destruct Hc as [Hs Hq].
  destruct (lookup_user_runs (fun db => first (fun u => UserRepository.same_email email u &&
    (false || UserRepository.live u)) (users db)) tx) as (found & tx1 & E1 & G1); [done|].
  rewrite (mbind_run _ _ _ _ _ E1).
  assert (exists locked tx2, (match found with
    | Some u => lookup_user (UserRepository.LockByID (User.ID u))
    | None => mret None end) tx1 = (inr locked, tx2) /\ healthy tx2) as (locked & tx2 & E2 & G2).
  { destruct found; [by apply lookup_user_runs | by do 2 eexists]. }
  rewrite (mbind_run _ _ _ _ _ E2), mbind_Now.
  assert (healthy (tick tx2)) as G2' by done.
  destruct (LockOrCreate_runs email VerificationPurposePasswordReset
    (env_now (c_now (tx_ctr tx2))) (tick tx2) G2') as (c & tx3 & E3 & G3).
  erewrite mbind_run by (by apply on_error_run).
  destruct (enforceSendRate _ _) as [c1 [err|]]; [done|].
  destruct (generate_runs tx3 G3) as (code & tx4 & E4 & G4).
  erewrite mbind_run by (by apply on_error_run).
  assert (exists digest tx5, (match locked with
    | Some _ => mret (codeDigest h VerificationPurposePasswordReset email code)
    | None => randomDigest end) tx4 = (inr digest, tx5) /\ healthy tx5) as (digest & tx5 & E5 & G5).
  { destruct locked; [by do 2 eexists | by apply randomDigest_runs]. }
  erewrite mbind_run by (by apply on_error_run).
  destruct (SaveState_runs (issue_code c1 digest (env_now (c_now (tx_ctr tx2))))
    (env_now (c_now (tx_ctr tx2))) tx5 G5) as (tx6 & E6 & G6).
  erewrite mbind_run by (by apply on_error_run).
  destruct locked; [|done]. apply enqueue_runs; [by apply Hsender | done | done].
Qed.
End uniform.
