(* ===== verification/ImageAccess.v ===== *)
(** * Publishing reviewed images: the access outbox

    [internal/repository/image_access.go] (module [ImageAccessOutbox]),
    [internal/service/image_access_controller.go] ([Apply]) and
    [internal/service/image_access_worker.go] (module [ImageAccessWorker]).  A
    verdict on an image enqueues an intent in its own transaction; the worker
    brings the object's ACL and the CDN's caches in line with the newest intent,
    through a durable state machine whose writes are fenced by generation and lease
    token.

    The worker starts one goroutine per claim; claims are different rows, so what
    the other goroutines do is, for one claim, part of what other processes do
    between its transactions ([Interference]), and the batch is modelled claim
    after claim. *)

From S2P Require Import Prelude.
From S2P Require Import GoText.
From S2P Require Import Apierr.
From S2P Require Import Effects.
From S2P Require Import Logic.
From S2P Require Import Model.
From S2P Require Import AuthRepo.
From S2P Require Import AuthService.
Open Scope Z_scope.

(** ** internal/repository/image_access.go *)
Module ImageAccessOutbox.
Section ops.
Context `{Env}.
Import ImageAccessDelivery.

Record Claim := mkClaim { cl_row : t; ObjectKey : string; PublicURL : string }.

Definition has_intent (source : Z) (db : DB) : bool :=
  exists_row (fun i => ImageAccessIntent.SourceModerationRecordID i =? source)
    (image_access_intents db).

(** The trigger of migration 00012 on a new intent: it follows the verdict of its
    own moderation record. *)
Definition valid_source (assetID source : Z) (public : bool) (db : DB) : bool :=
  match moderation_records db !! source with
  | Some r =>
      bool_decide (ModerationRecord.ImageAssetID r = Some assetID) &&
      Bool.eqb public (bool_decide (ModerationRecord.Verdict r = ModerationVerdictPass))
  | None => false
  end.

(** The row an intent asks for, and the projection of a newer intent on a row. *)
Definition first_delivery (assetID intentID : Z) (public purge : bool) (now : time) : t :=
  mk assetID intentID public purge 1 ImageAccessPendingACL 0 0 0 0 None None (Some now)
    None None None None None now now.
Definition next_generation (intentID : Z) (public purge : bool) (now : time) (d : t) : t :=
  d <| DesiredIntentID := intentID |> <| DesiredPublic := public |>
    <| PurgeRequired := purge |> <| Generation := Generation d + 1 |>
    <| State := ImageAccessPendingACL |> <| ACLAttempts := 0 |> <| SubmitAttempts := 0 |>
    <| PollAttempts := 0 |> <| UnknownChecks := 0 |> <| ProviderJobID := None |>
    <| SubmissionStartedAt := None |> <| NextAttemptAt := Some now |>
    <| LastErrorCode := None |> <| CompletedAt := None |> <| DeadLetteredAt := None |>
    <| UpdatedAt := now |>.

(** The statement of [Enqueue] under the intent id it would draw: rows affected,
    tables. *)
Definition enqueue (intentID assetID source : Z) (public purge : bool) (now : time) (db : DB)
    : goerr + Z * DB :=
  if has_intent source db then inr (0, db)
  else if negb (valid_source assetID source public db) then inl (EPg "23514" "")
  else
    inr (1, db
      <| image_access_intents :=
           <[intentID := ImageAccessIntent.mk intentID assetID source public now]>
             (image_access_intents db) |>
      <| image_access_deliveries :=
           <[assetID :=
               match image_access_deliveries db !! assetID with
               | Some d => next_generation intentID public purge now d
               | None => first_delivery assetID intentID public purge now
               end]> (image_access_deliveries db) |>).

Definition Enqueue (assetID source : Z) (public purge : bool) (now : time) : MT bool :=
  let* intentID := NextID in
  let* affected := stmt (enqueue intentID assetID source public purge now) in
  mret (affected =? 1).

Definition closed_states : list string := [ImageAccessSucceeded; ImageAccessDeadLetter].

Definition due (now : time) (d : t) : bool :=
  bool_decide (State d ∉ closed_states) &&
  match NextAttemptAt d with Some n => n <=? now | None => false end &&
  match LeaseUntil d with Some u => u <=? now | None => true end.

(** [ORDER BY next_attempt_at, image_asset_id]; claimed rows have the former. *)
Definition next_at (d : t) : Z := match NextAttemptAt d with Some n => n | None => 0 end.
Definition earlier (a b : t) : bool :=
  (next_at a <? next_at b) ||
  (next_at a =? next_at b) && (ImageAssetID a <=? ImageAssetID b).

Definition leased (token : string) (until now : time) (d : t) : t :=
  d <| LeaseToken := Some token |> <| LeaseUntil := Some until |> <| UpdatedAt := now |>.

Definition candidates (now : time) (limit : nat) (db : DB) : list t :=
  firstn limit (sort_by earlier (select (due now) (image_access_deliveries db))).

Definition in_ids (l : list t) (d : t) : bool :=
  bool_decide (ImageAssetID d ∈ map ImageAssetID l).

Definition claim_of (db : DB) (d : t) : option Claim :=
  asset ← image_assets db !! ImageAssetID d;
  Some (mkClaim d (ImageAsset.ObjectKey asset) (ImageAsset.PublicURL asset)).

Definition claim_due (now until : time) (token : string) (limit : nat) (db : DB)
    : list Claim * DB :=
  let cs := candidates now limit db in
  (omap (claim_of db) (sort_by earlier (map (leased token until now) cs)),
   db <| image_access_deliveries :=
     (fun d => if in_ids cs d then leased token until now d else d) <$>
       image_access_deliveries db |>).

Definition ClaimDue (now leaseUntil : time) (leaseToken : string) (limit : Z)
    : MT (list Claim) :=
  if (limit <=? 0) || (1000 <? limit)
  then throw (ENew "image access claim limit must be between 1 and 1000")
  else stmt (fun db => inr (claim_due now leaseUntil leaseToken (Z.to_nat limit) db)).

(** The fence. *)
Definition owned_row (claim : Claim) (d : t) : bool :=
  bool_decide (ImageAssetID d = ImageAssetID (cl_row claim)) &&
  bool_decide (Generation d = Generation (cl_row claim)) &&
  bool_decide (LeaseToken d = Some (valueOrEmpty (LeaseToken (cl_row claim)))).

Definition update_deliveries (p : t -> bool) (f : t -> t) : MT Z :=
  stmt (fun db =>
    let '(n, rows) := update_where p f (image_access_deliveries db) in
    inr (n, db <| image_access_deliveries := rows |>)).

Definition UpdateClaim (claim : Claim) (updates : t -> t) : MT bool :=
  let* affected := update_deliveries (owned_row claim) updates in
  mret (affected =? 1).

Definition released (now : time) (d : t) : t :=
  d <| LeaseToken := None |> <| LeaseUntil := None |> <| NextAttemptAt := Some now |>
    <| UpdatedAt := now |>.

Definition leased_by (assetID : Z) (token : string) (d : t) : bool :=
  bool_decide (ImageAssetID d = assetID) && bool_decide (LeaseToken d = Some token).

Definition ReleaseSuperseded (assetID : Z) (leaseToken : string) (now : time) : MT unit :=
  let* _ := update_deliveries (leased_by assetID leaseToken) (released now) in mret tt.
End ops.
End ImageAccessOutbox.

(** ** internal/service/image_access_controller.go *)
Definition DurableImageAccess_Apply `{Env} (assetID source : Z) (public purge : bool) : MT unit :=
  if (assetID =? 0) || (source =? 0)
  then throw (ENew "image access intent requires asset and moderation record")
  else
    let* now := Now in
    let* _ := ImageAccessOutbox.Enqueue assetID source public purge now in mret tt.

(** ** Ports: internal/service/moderation_ports.go, upload.go *)
(** The [k]-th call of the object storage and of the CDN provider. *)
Definition ImageCachePurgeProcessing : string := "processing".
Definition ImageCachePurgeSuccess : string := "success".
Definition ImageCachePurgeFailed : string := "failed".
Definition ImageCachePurgeTimeout : string := "timeout".
Definition ImageCachePurgeCanceled : string := "canceled".
Definition ImageCachePurgeProtocolUnknown : string := "protocol_unknown".

Definition ImageCachePurgeErrorUnknown : string := "unknown".
Definition ImageCachePurgeErrorRetryable : string := "retryable".
Definition ImageCachePurgeErrorPermanent : string := "permanent".

Definition ClassifyImageCachePurgeError (err : goerr) : string :=
  match as_purge err with Some kind => kind | None => ImageCachePurgeErrorPermanent end.

Record Submission := mkSubmission { JobID : string; Partial : bool }.
Record Recovery := mkRecovery {
  Found : bool; EffectSucceeded : bool; Ambiguous : bool; r_JobID : string; r_State : string }.

Record ImageStorage := mkStorage {
  SetObjectPublicAccess : nat -> string -> bool -> option goerr }.
Record PurgeProvider := mkProvider {
  Submit : nat -> string -> goerr + Submission;
  Describe : nat -> string -> string -> goerr + string;
  Recover : nat -> string -> time -> time -> goerr + Recovery }.

(** The calls made, in order. *)
Inductive Call :=
| CallACL (key : string) (public : bool)
| CallSubmit (url : string)
| CallDescribe (url jobID : string)
| CallRecover (url : string) (from upto : time).

(** ** internal/service/image_access_worker.go *)
Module ImageAccessWorker.
Import ImageAccessOutbox.

Definition defaultImageAccessLease : duration := 60 * Second.
Definition defaultImageAccessUnknownGrace : duration := 90 * Second.
Definition defaultImageAccessPendingTimeout : duration := 10 * Minute.
Definition defaultImageAccessMaxACLAttempts : Z := 8.
Definition defaultImageAccessMaxSubmissions : Z := 3.
Definition defaultImageAccessMaxPollFailures : Z := 8.
Definition defaultImageAccessMaxUnknownChecks : Z := 12.

Record Options := mkOptions {
  BatchSize : Z;
  LeaseDuration : duration;
  UnknownGrace : duration;
  PendingTimeout : duration;
  MaxACLAttempts : Z;
  MaxSubmissions : Z;
  MaxPollFailures : Z;
  MaxUnknownChecks : Z;
}.

(** [withImageAccessWorkerDefaults]; the ACL timeout only bounds the storage call. *)
Definition withDefaults (o : Options) : Options :=
  let positive v d := if v <=? 0 then d else v in
  mkOptions
    (if (BatchSize o <=? 0) || (4 <? BatchSize o) then 4 else BatchSize o)
    (positive (LeaseDuration o) defaultImageAccessLease)
    (positive (UnknownGrace o) defaultImageAccessUnknownGrace)
    (positive (PendingTimeout o) defaultImageAccessPendingTimeout)
    (positive (MaxACLAttempts o) defaultImageAccessMaxACLAttempts)
    (positive (MaxSubmissions o) defaultImageAccessMaxSubmissions)
    (positive (MaxPollFailures o) defaultImageAccessMaxPollFailures)
    (positive (MaxUnknownChecks o) defaultImageAccessMaxUnknownChecks).

Record Worker := mkWorker {
  storage : ImageStorage; provider : PurgeProvider; options : Options }.
Definition NewImageAccessWorker (s : ImageStorage) (p : PurgeProvider) (o : Options) : Worker :=
  mkWorker s p (withDefaults o).

(** [retryBackoff]; [fuel] bounds the loop: 63 doublings pass every duration. *)
Fixpoint backoff_loop (fuel : nat) (index attempt delay maximum : Z) : duration :=
  match fuel with
  | O => Z.min delay maximum
  | S fuel' =>
      if (index <? attempt) && (delay <? maximum) then
        let delay := wrap64 (delay * 2) in
        if maximum <=? delay then maximum
        else backoff_loop fuel' (index + 1) attempt delay maximum
      else Z.min delay maximum
  end.
Definition retryBackoff (attempt : Z) (base maximum : duration) : duration :=
  backoff_loop 64 1 (if attempt <? 1 then 1 else attempt) base maximum.

Definition providerStateCode (state : string) : string :=
  if bool_decide (state = ImageCachePurgeTimeout) then "provider_timeout"
  else if bool_decide (state = ImageCachePurgeCanceled) then "provider_canceled"
  else "provider_failed".

Definition terminalPurgeState (state : string) : bool :=
  bool_decide (state = ImageCachePurgeFailed) || bool_decide (state = ImageCachePurgeTimeout) ||
  bool_decide (state = ImageCachePurgeCanceled).

(** The outcome and error a handler returns together; [Unreleased e] is
    [imageAccessSuperseded] with the error of the release, other errors come with
    [imageAccessRescheduled]. *)
Inductive Outcome := Rescheduled | Succeeded | Dead | Superseded | Unreleased (e : goerr).

Record Result := mkResult {
  Claimed : Z; nSucceeded : Z; nRescheduled : Z; nDeadLettered : Z; nSuperseded : Z }.
#[global] Instance eta_Result : Eta Result := fun x =>
  mkResult (Claimed x) (nSucceeded x) (nRescheduled x) (nDeadLettered x) (nSuperseded x).

Section worker.
Context `{Env} `{Pg} `{!Interference DB}.
Import ImageAccessDelivery.

Abbreviation W := (M (World DB (list Call))).

Definition inTx {R} (fn : MT R) : W R := InTx interp_before fn.

(** One external call: the answer of its index, and its entry in the log. *)
Definition call {R} (answer : nat -> R) (entry : Call) : W R := fun w =>
  (inr (answer (length (w_ext w))), w <| w_ext := w_ext w ++ [entry] |>).

Definition leaseToken : W string :=
  let* raw := RandReadW 16 in
  match raw with
  | Some b => mret (hex_encode b)
  | None => throw (ENew "crypto/rand")
  end.

Context (w : Worker).

Definition update (claim : Claim) (updates : t -> t) : W bool := inTx (UpdateClaim claim updates).

(** [updateOutcome] after an update that wrote no row, or failed. *)
Definition updateOutcome (claim : Claim) : W Outcome :=
  let* released := attempt (inTx (
    let* now := Now in
    ReleaseSuperseded (ImageAssetID (cl_row claim)) (valueOrEmpty (LeaseToken (cl_row claim)))
      now)) in
  mret (match released with inl e => Unreleased e | inr _ => Superseded end).

(** [updated, err := w.update(...); if err != nil || !updated { return w.updateOutcome(...) }]:
    an error is returned as it is. *)
Definition updating (claim : Claim) (updates : t -> t) (next : W Outcome) : W Outcome :=
  let* updated := update claim updates in
  if updated then next else updateOutcome claim.

(** The fields every outcome writes. *)
Definition scheduled (state : string) (next : time) (errorCode : option string) (now : time)
    (d : t) : t :=
  d <| State := state |> <| NextAttemptAt := Some next |> <| LeaseToken := None |>
    <| LeaseUntil := None |> <| LastErrorCode := errorCode |> <| UpdatedAt := now |>.
Definition succeeded (now : time) (d : t) : t :=
  d <| State := ImageAccessSucceeded |> <| NextAttemptAt := None |> <| LeaseToken := None |>
    <| LeaseUntil := None |> <| LastErrorCode := None |> <| CompletedAt := Some now |>
    <| DeadLetteredAt := None |> <| UpdatedAt := now |>.
Definition dead_lettered (code : string) (now : time) (d : t) : t :=
  d <| State := ImageAccessDeadLetter |> <| NextAttemptAt := None |> <| LeaseToken := None |>
    <| LeaseUntil := None |> <| LastErrorCode := Some code |> <| CompletedAt := None |>
    <| DeadLetteredAt := Some now |> <| UpdatedAt := now |>.

Definition schedule (claim : Claim) (state : string) (next : time) (errorCode : option string)
    (extra : t -> t) : W Outcome :=
  let* now := NowW in
  updating claim (fun d => extra (scheduled state next errorCode now d)) (mret Rescheduled).

Definition succeed (claim : Claim) : W Outcome :=
  let* now := NowW in updating claim (succeeded now) (mret Succeeded).

Definition dead (claim : Claim) (code : string) : W Outcome :=
  let* now := NowW in updating claim (dead_lettered code now) (mret Dead).

(** [w.now().Add(d)] as an argument. *)
Definition after (d : duration) (k : time -> W Outcome) : W Outcome :=
  let* now := NowW in k (time_Add now d).

Definition retrySubmission (claim : Claim) (code : string) : W Outcome :=
  if MaxSubmissions (options w) <=? SubmitAttempts (cl_row claim)
  then dead claim "submit_exhausted"
  else
    after (retryBackoff (SubmitAttempts (cl_row claim)) (10 * Second) (5 * Minute)) (fun next =>
      schedule claim ImageAccessPendingSubmit next (Some code) (fun d =>
        d <| ProviderJobID := None |> <| SubmissionStartedAt := None |>
          <| PollAttempts := 0 |> <| UnknownChecks := 0 |>)).

Definition scheduleUnknown (claim : Claim) (code : string) : W Outcome :=
  let checks := UnknownChecks (cl_row claim) + 1 in
  if MaxUnknownChecks (options w) <=? checks then dead claim "discover_exhausted"
  else
    after (retryBackoff checks (5 * Second) (15 * Second)) (fun next =>
      schedule claim ImageAccessSubmitting next (Some code)
        (fun d => d <| UnknownChecks := checks |>)).

(** The end of [submit]: what the provider's answer makes of the claim. *)
Definition submitted (claim : Claim) (answer : goerr + Submission) : W Outcome :=
  match answer with
  | inl submitErr =>
      let kind := ClassifyImageCachePurgeError submitErr in
      if bool_decide (kind = ImageCachePurgeErrorPermanent) then dead claim "submit_permanent"
      else
        let code := if bool_decide (kind = ImageCachePurgeErrorRetryable)
                    then "submit_retryable"%string else "submit_unknown"%string in
        after (5 * Second) (fun next =>
          schedule claim ImageAccessSubmitting next (Some code) (fun d => d))
  | inr submission =>
      if bool_decide (JobID submission = ""%string) then
        after (5 * Second) (fun next =>
          schedule claim ImageAccessSubmitting next (Some "submit_unknown"%string) (fun d => d))
      else
        after (2 * Second) (fun next =>
          schedule claim ImageAccessSubmitted next
            (if Partial submission then Some "provider_failed"%string else None)
            (fun d => d <| ProviderJobID := Some (JobID submission) |>))
  end.

(** The first write of [submit], and the claim's local copy after it. *)
Definition submitting (attempts : Z) (startedAt : time) (d : t) : t :=
  d <| State := ImageAccessSubmitting |> <| SubmitAttempts := attempts |>
    <| SubmissionStartedAt := Some startedAt |>
    <| NextAttemptAt := Some (time_Add startedAt (5 * Second)) |>
    <| LastErrorCode := None |> <| UpdatedAt := startedAt |>.
Definition submitting_claim (startedAt : time) (claim : Claim) : Claim :=
  mkClaim ((cl_row claim) <| State := ImageAccessSubmitting |>
             <| SubmitAttempts := SubmitAttempts (cl_row claim) + 1 |>
             <| SubmissionStartedAt := Some startedAt |>)
    (ObjectKey claim) (PublicURL claim).

Definition submit (claim : Claim) : W Outcome :=
  if MaxSubmissions (options w) <=? SubmitAttempts (cl_row claim)
  then dead claim "submit_exhausted"
  else
    let* startedAt := NowW in
    updating claim (submitting (SubmitAttempts (cl_row claim) + 1) startedAt) (
      let claim := submitting_claim startedAt claim in
      let* answer := call (fun k => Submit (provider w) k (PublicURL claim))
                       (CallSubmit (PublicURL claim)) in
      submitted claim answer).

Definition to_submit (next now : time) (d : t) : t :=
  d <| State := ImageAccessPendingSubmit |> <| NextAttemptAt := Some next |>
    <| LastErrorCode := None |> <| UpdatedAt := now |>.

Definition applyACL (claim : Claim) : W Outcome :=
  let d := cl_row claim in
  let* err := call (fun k => SetObjectPublicAccess (storage w) k (ObjectKey claim) (DesiredPublic d))
                (CallACL (ObjectKey claim) (DesiredPublic d)) in
  match err with
  | Some _ =>
      let attempts := ACLAttempts d + 1 in
      if MaxACLAttempts (options w) <=? attempts then dead claim "acl_exhausted"
      else
        after (retryBackoff attempts Second (5 * Minute)) (fun next =>
          schedule claim ImageAccessPendingACL next (Some "acl_retryable"%string)
            (fun d => d <| ACLAttempts := attempts |>))
  | None =>
      if negb (PurgeRequired d) then succeed claim
      else
        let* next := NowW in
        let* now := NowW in
        updating claim (to_submit next now)
          (submit (mkClaim (d <| State := ImageAccessPendingSubmit |>)
                     (ObjectKey claim) (PublicURL claim)))
  end.

(** What an unfinished reconciliation makes of the claim, [age] after the
    submission. *)
Definition unresolved (claim : Claim) (recovery : Recovery) (age : duration) : W Outcome :=
  if Found recovery && terminalPurgeState (r_State recovery)
  then retrySubmission claim (providerStateCode (r_State recovery))
  else if Ambiguous recovery && (age <? UnknownGrace (options w))
  then scheduleUnknown claim "discover_retryable"
  else if UnknownGrace (options w) <=? age then
    if bool_decide (valueOrEmpty (LastErrorCode (cl_row claim)) = "submit_retryable"%string) &&
       (SubmitAttempts (cl_row claim) <? MaxSubmissions (options w)) &&
       negb (Ambiguous recovery)
    then retrySubmission claim "submit_retryable"
    else dead claim "discover_exhausted"
  else scheduleUnknown claim "submit_unknown".

Definition recovered (claim : Claim) (startedAt : time) (recovery : Recovery) : W Outcome :=
  if EffectSucceeded recovery then succeed claim
  else if Found recovery && negb (bool_decide (r_JobID recovery = ""%string)) then
    if bool_decide (r_State recovery = ImageCachePurgeSuccess) then succeed claim
    else if terminalPurgeState (r_State recovery)
    then retrySubmission claim (providerStateCode (r_State recovery))
    else
      after (2 * Second) (fun next =>
        schedule claim ImageAccessSubmitted next None
          (fun d => d <| ProviderJobID := Some (r_JobID recovery) |>))
  else
    let* now := NowW in unresolved claim recovery (time_Sub now startedAt).

Definition recoverSubmission (claim : Claim) : W Outcome :=
  match SubmissionStartedAt (cl_row claim) with
  | None => dead claim "discover_permanent"
  | Some startedAt =>
      let* now := NowW in
      let* answer := call (fun k => Recover (provider w) k (PublicURL claim) startedAt now)
                       (CallRecover (PublicURL claim) startedAt now) in
      match answer with
      | inl err =>
          if bool_decide (ClassifyImageCachePurgeError err = ImageCachePurgeErrorPermanent)
          then dead claim "discover_permanent"
          else scheduleUnknown claim "discover_retryable"
      | inr recovery => recovered claim startedAt recovery
      end
  end.

(** The end of [poll]. *)
Definition polled (claim : Claim) (startedAt : time) (answer : goerr + string) : W Outcome :=
  let polls := PollAttempts (cl_row claim) + 1 in
  match answer with
  | inl err =>
      if bool_decide (ClassifyImageCachePurgeError err = ImageCachePurgeErrorPermanent)
      then dead claim "poll_permanent"
      else if MaxPollFailures (options w) <=? polls then dead claim "poll_exhausted"
      else
        after (retryBackoff polls (2 * Second) (30 * Second)) (fun next =>
          schedule claim ImageAccessSubmitted next (Some "poll_retryable"%string)
            (fun d => d <| PollAttempts := polls |>))
  | inr state =>
      if bool_decide (state = ImageCachePurgeSuccess) then succeed claim
      else if terminalPurgeState state
      then retrySubmission claim (providerStateCode state)
      else if bool_decide (state = ImageCachePurgeProcessing) ||
              bool_decide (state = ImageCachePurgeProtocolUnknown) then
        let* now := NowW in
        if PendingTimeout (options w) <=? time_Sub now startedAt
        then retrySubmission claim "provider_pending_timeout"
        else
          after (retryBackoff polls (2 * Second) (30 * Second)) (fun next =>
            schedule claim ImageAccessSubmitted next None
              (fun d => d <| PollAttempts := polls |>))
      else dead claim "poll_permanent"
  end.

Definition poll (claim : Claim) : W Outcome :=
  match ProviderJobID (cl_row claim), SubmissionStartedAt (cl_row claim) with
  | Some jobID, Some startedAt =>
      let* answer := call (fun k => Describe (provider w) k (PublicURL claim) jobID)
                       (CallDescribe (PublicURL claim) jobID) in
      polled claim startedAt answer
  | _, _ => dead claim "poll_permanent"
  end.

Definition processClaim (claim : Claim) : W Outcome :=
  let state := State (cl_row claim) in
  if bool_decide (state = ImageAccessPendingACL) then applyACL claim
  else if bool_decide (state = ImageAccessPendingSubmit) then submit claim
  else if bool_decide (state = ImageAccessSubmitting) then recoverSubmission claim
  else if bool_decide (state = ImageAccessSubmitted) then poll claim
  else dead claim "poll_permanent".

Definition count (o : Outcome) (r : Result) : Result :=
  match o with
  | Succeeded => r <| nSucceeded := nSucceeded r + 1 |>
  | Dead => r <| nDeadLettered := nDeadLettered r + 1 |>
  | Superseded | Unreleased _ => r <| nSuperseded := nSuperseded r + 1 |>
  | Rescheduled => r <| nRescheduled := nRescheduled r + 1 |>
  end.

Definition errors_of (o : Outcome) : list goerr :=
  match o with Unreleased e => [e] | _ => [] end.

(** Every claim is processed; the errors are joined. *)
Fixpoint process_all (claims : list Claim) (r : Result) (errs : list goerr)
    : W (Result * list goerr) :=
  match claims with
  | [] => mret (r, errs)
  | claim :: claims' =>
      let* o := attempt (processClaim claim) in
      match o with
      | inl err => process_all claims' (count Rescheduled r) (errs ++ [err])
      | inr outcome => process_all claims' (count outcome r) (errs ++ errors_of outcome)
      end
  end.

Definition RunBatch : W (Result * list goerr) :=
  let* now := NowW in
  let* token := leaseToken in
  let* claims := inTx (ClaimDue now (time_Add now (LeaseDuration (options w))) token
                         (BatchSize (options w))) in
  process_all claims (mkResult (Z.of_nat (length claims)) 0 0 0 0) [].
End worker.
End ImageAccessWorker.
