(* ===== verification/ImageAccessProps.v ===== *)
(** * The access outbox: constraints, fencing, termination *)

From S2P Require Import Prelude.
From S2P Require Import GoText.
From S2P Require Import Apierr.
From S2P Require Import Effects.
From S2P Require Import Logic.
From S2P Require Import Model.
From S2P Require Import Digest.
From S2P Require Import AuthRepo.
From S2P Require Import AuthService.
From S2P Require Import ImageAccess.
Open Scope Z_scope.
Import ImageAccessOutbox ImageAccessWorker.
Import ImageAccessDelivery.

Abbreviation deliveries := image_access_deliveries.

(** ** The checks of migration 00012 *)
Definition access_states : list string :=
  [ImageAccessPendingACL; ImageAccessPendingSubmit; ImageAccessSubmitting;
   ImageAccessSubmitted; ImageAccessSucceeded; ImageAccessDeadLetter].

Definition access_codes : list string :=
  ["acl_retryable"; "acl_exhausted"; "submit_retryable"; "submit_unknown";
   "submit_permanent"; "submit_exhausted"; "discover_retryable"; "discover_permanent";
   "discover_exhausted"; "poll_retryable"; "poll_permanent"; "provider_failed";
   "provider_timeout"; "provider_canceled"; "provider_pending_timeout";
   "poll_exhausted"]%string.

(** The CHECK constraints of a row, and one rule of the code: a closed row holds no
    lease. *)
Record access_ok (d : t) : Prop := {
  acc_generation : 0 < Generation d;
  acc_state : State d ∈ access_states;
  acc_counters : 0 <= ACLAttempts d /\ 0 <= SubmitAttempts d /\ 0 <= PollAttempts d /\
    0 <= UnknownChecks d;
  acc_lease_pair : LeaseToken d = None <-> LeaseUntil d = None;
  acc_lease_length : forall l, LeaseToken d = Some l -> (16 <= String.length l <= 64)%nat;
  acc_job : forall j, ProviderJobID d = Some j -> (1 <= String.length j <= 128)%nat;
  acc_code : forall e, LastErrorCode d = Some e -> e ∈ access_codes;
  acc_submitting : State d = ImageAccessSubmitting -> SubmissionStartedAt d <> None;
  acc_submitted : State d = ImageAccessSubmitted ->
    ProviderJobID d <> None /\ SubmissionStartedAt d <> None;
  acc_succeeded : State d = ImageAccessSucceeded -> CompletedAt d <> None;
  acc_dead : State d = ImageAccessDeadLetter -> DeadLetteredAt d <> None;
  acc_purge : PurgeRequired d = true \/ State d = ImageAccessPendingACL \/
    State d ∈ closed_states;
  acc_next : State d ∈ closed_states <-> NextAttemptAt d = None;
  acc_closed : State d ∈ closed_states -> LeaseToken d = None;
}.

Definition access_db_ok (db : DB) : Prop :=
  keyed ImageAssetID (deliveries db) /\ forall k d, deliveries db !! k = Some d -> access_ok d.

(** A provider whose job ids fit their column. *)
Record provider_ok (p : PurgeProvider) : Prop := {
  submit_job : forall k url s, Submit p k url = inr s -> (String.length (JobID s) <= 128)%nat;
  recover_job : forall k url a b r, Recover p k url a b = inr r ->
    (String.length (r_JobID r) <= 128)%nat;
}.

Lemma nonempty_length (s : string) : s <> ""%string -> (1 <= String.length s)%nat.
Proof. destruct s; [done|]. cbn. lia. Qed.

Lemma not_closed s : s ∈ [ImageAccessPendingACL; ImageAccessPendingSubmit;
    ImageAccessSubmitting; ImageAccessSubmitted] -> s ∉ closed_states.
Proof.
  intros Hs. apply list_elem_of_In in Hs. cbn in Hs.
  destruct Hs as [<-|[<-|[<-|[<-|[]]]]]; not_in_list.
Qed.

(** ** Rows after the worker's writes *)
Lemma open_row_ok st next code now d (f : t -> t) :
  access_ok d ->
  let d' := f (scheduled st next code now d) in
  (forall x, Generation (f x) = Generation x /\ State (f x) = State x /\
     LeaseToken (f x) = LeaseToken x /\ LeaseUntil (f x) = LeaseUntil x /\
     LastErrorCode (f x) = LastErrorCode x /\ PurgeRequired (f x) = PurgeRequired x /\
     NextAttemptAt (f x) = NextAttemptAt x) ->
  st ∈ [ImageAccessPendingACL; ImageAccessPendingSubmit; ImageAccessSubmitting;
        ImageAccessSubmitted] ->
  (forall e, code = Some e -> e ∈ access_codes) ->
  (0 <= ACLAttempts d' /\ 0 <= SubmitAttempts d' /\ 0 <= PollAttempts d' /\
    0 <= UnknownChecks d') ->
  (forall j, ProviderJobID d' = Some j -> (1 <= String.length j <= 128)%nat) ->
  (st = ImageAccessSubmitting -> SubmissionStartedAt d' <> None) ->
  (st = ImageAccessSubmitted -> ProviderJobID d' <> None /\ SubmissionStartedAt d' <> None) ->
  (st <> ImageAccessPendingACL -> PurgeRequired d = true) ->
  access_ok d'.
Proof.
  intros Hd d' Hf Hst Hcode Hcount Hjob Hing Hed Hpurge.
  destruct (Hf (scheduled st next code now d)) as (Hg & Hs & Hlt & Hlu & Hc & Hp & Hn).
  fold d' in Hg, Hs, Hlt, Hlu, Hc, Hp, Hn. cbn in Hg, Hs, Hlt, Hlu, Hc, Hp, Hn.
  pose proof (not_closed _ Hst) as Hnc.
  destruct Hd. split; rewrite ?Hg, ?Hs, ?Hlt, ?Hlu, ?Hc, ?Hp, ?Hn; try done.
  - apply list_elem_of_In in Hst. cbn in Hst. destruct Hst as [<-|[<-|[<-|[<-|[]]]]]; in_list.
  - intros ->. exfalso. apply Hnc. in_list.
  - intros ->. exfalso. apply Hnc. in_list.
  - destruct (decide (st = ImageAccessPendingACL)); [by right; left|left; by apply Hpurge].
Qed.

Lemma succeeded_ok now d : access_ok d -> access_ok (succeeded now d).
Proof.
  intros Hd. destruct Hd. split; try done; try in_list.
  - right; right. in_list.
  - split; [done|]. intros _. in_list.
Qed.

Lemma dead_lettered_ok code now d :
  code ∈ access_codes -> access_ok d -> access_ok (dead_lettered code now d).
Proof.
  intros Hc Hd. destruct Hd. split; try done; try in_list.
  - by intros e [= <-].
  - right; right. in_list.
  - split; [done|]. intros _. in_list.
Qed.

Lemma submitting_ok n started d :
  access_ok d -> 0 <= n -> PurgeRequired d = true -> LeaseToken d <> None ->
  access_ok (submitting n started d).
Proof.
  intros Hd Hn Hp Hl. destruct Hd. split; try done; try in_list.
  - cbn. lia.
  - by left.
  - split; [|done]. not_in_list.
  - not_in_list.
Qed.

Lemma to_submit_ok next now d :
  access_ok d -> PurgeRequired d = true -> access_ok (to_submit next now d).
Proof.
  intros Hd Hp. destruct Hd. split; try done; try in_list.
  - by left.
  - split; [|done]. not_in_list.
  - not_in_list.
Qed.

Lemma released_ok now d : access_ok d -> LeaseToken d <> None -> access_ok (released now d).
Proof.
  intros Hd Hl. destruct Hd. split; try done.
  cbn. split; [|done]. intros Hc. by apply acc_closed0 in Hc.
Qed.

Lemma lease_taken_ok token until now d :
  (16 <= String.length token <= 64)%nat -> State d ∉ closed_states -> access_ok d ->
  access_ok (leased token until now d).
Proof.
  intros Ht Hc Hd. destruct Hd. split; try done.
  by intros l [= <-].
Qed.

Lemma first_delivery_ok assetID intentID public purge now :
  access_ok (first_delivery assetID intentID public purge now).
Proof.
  split; try done; try in_list; cbn; try lia.
  - by right; left.
  - split; [|done]. not_in_list.
Qed.

Lemma next_generation_ok intentID public purge now d :
  access_ok d -> access_ok (next_generation intentID public purge now d).
Proof.
  intros Hd. destruct Hd. split; try done; try in_list; cbn; try lia.
  - by right; left.
  - split; [|done]. not_in_list.
  - not_in_list.
Qed.

(** ** Claims and their rows

    The fields an outcome is computed from.  A claim is a copy of its row; the copy
    is good as long as the row carries the claim's token under its generation. *)
Definition same_work (a b : t) : Prop :=
  State a = State b /\ PurgeRequired a = PurgeRequired b /\
  ACLAttempts a = ACLAttempts b /\ SubmitAttempts a = SubmitAttempts b /\
  PollAttempts a = PollAttempts b /\ UnknownChecks a = UnknownChecks b /\
  ProviderJobID a = ProviderJobID b /\ SubmissionStartedAt a = SubmissionStartedAt b.

#[export] Instance same_work_preorder : PreOrder same_work.
Proof.
  split; unfold same_work; [by intros x; split_and!|].
  intros x y z. intros. destruct_and?. split_and!; congruence.
Qed.

(** What the others may do to a row leased under [tok]: end the lease, or give the
    row a newer generation; not advance the work of this one. *)
Definition fence (tok : string) (db db' : DB) : Prop :=
  forall i d', deliveries db' !! i = Some d' -> LeaseToken d' = Some tok ->
    exists d, deliveries db !! i = Some d /\ LeaseToken d = Some tok /\
      Generation d <= Generation d' /\ (Generation d = Generation d' -> same_work d d').

Section fenced.
Context (tok : string).

Definition held (claim : Claim) (db : DB) : Prop :=
  LeaseToken (cl_row claim) = Some tok /\
  forall d, deliveries db !! ImageAssetID (cl_row claim) = Some d -> LeaseToken d = Some tok ->
    Generation (cl_row claim) <= Generation d /\
    (Generation (cl_row claim) = Generation d -> same_work (cl_row claim) d).

Definition ready (claims : list Claim) (db : DB) : Prop :=
  access_db_ok db /\ Forall (fun c => held c db) claims.

Lemma held_fence claim db db' : fence tok db db' -> held claim db -> held claim db'.
Proof.
  intros Hf [Ht Hh]. split; [done|]. intros d' Hd' Hl.
  destruct (Hf _ _ Hd' Hl) as (d & Hd & Hld & Hg & Hw). destruct (Hh d Hd Hld) as [Hg' Hw'].
  split; [lia|]. intros He. etrans; [apply Hw' | apply Hw]; lia.
Qed.

Lemma held_owned claim db i d :
  access_db_ok db -> held claim db -> deliveries db !! i = Some d ->
  owned_row claim d = true -> same_work (cl_row claim) d.
Proof.
  intros [Hk _] [Ht Hh] Hd Ho. unfold owned_row in Ho.
  rewrite !andb_true_iff, !bool_decide_eq_true, Ht in Ho. destruct Ho as [[Hi Hg] Hl].
  rewrite (Hk _ _ Hd) in Hi. rewrite Hi in Hd. by apply (Hh d Hd Hl).
Qed.

(** An update under the fence, of the claim's row alone; [claim'] is the claim's copy
    afterwards. *)
Lemma update_ready claim claim' rest f db :
  (forall d, ImageAssetID (f d) = ImageAssetID d) ->
  (forall d, owned_row claim d = true -> same_work (cl_row claim) d -> access_ok d ->
     access_ok (f d) /\ (LeaseToken (f d) = Some tok -> Generation (f d) = Generation d /\
       same_work (cl_row claim') (f d))) ->
  ImageAssetID (cl_row claim') = ImageAssetID (cl_row claim) ->
  Generation (cl_row claim') = Generation (cl_row claim) ->
  LeaseToken (cl_row claim') = LeaseToken (cl_row claim) ->
  Forall (fun c => ImageAssetID (cl_row c) <> ImageAssetID (cl_row claim)) rest ->
  ready (claim :: rest) db ->
  ready (claim' :: rest)
    (db <| image_access_deliveries := snd (update_where (owned_row claim) f (deliveries db)) |>).
Proof.
  intros Hid Hf Hi Hg Hl Hrest [Hdb Hheld]. apply Forall_cons in Hheld as [Hc Hheld].
  pose proof Hdb as [Hk Hrows]. pose proof Hc as [Htok Hcopy].
  split; [split|apply Forall_cons; split].
  - apply keyed_fmap; [|done]. intros d. by case_match.
  - intros k d Hd. cbn in Hd. apply lookup_fmap_Some in Hd as (d0 & <- & Hd).
    case_match eqn:Ho; [|by eapply Hrows]. apply Hf; [done| |by eapply Hrows].
    by eapply held_owned.
  - split; [congruence|]. intros d Hd Hld. cbn in Hd.
    apply lookup_fmap_Some in Hd as (d0 & <- & Hd). rewrite Hi in Hd.
    destruct (owned_row claim d0) eqn:Ho.
    + destruct (Hf d0 Ho) as [_ Hsame]; [by eapply held_owned|by eapply Hrows|].
      destruct (Hsame Hld) as [Hgen Hw]. unfold owned_row in Ho.
      rewrite !andb_true_iff, !bool_decide_eq_true in Ho. split; [lia|done].
    + destruct (Hcopy d0 Hd Hld) as [Hle _]. rewrite Hg. split; [done|]. intros He. exfalso.
      unfold owned_row in Ho. rewrite Htok, (Hk _ _ Hd), Hld, He in Ho. cbn in Ho.
      by rewrite !bool_decide_eq_true_2 in Ho.
  - eapply Forall_impl; [by apply Forall_and; split; [exact Hrest | exact Hheld]|].
    intros c [Hne [Ht Hh]]. split; [done|]. intros d Hd. cbn in Hd.
    apply lookup_fmap_Some in Hd as (d0 & <- & Hd). case_match eqn:Ho; [|by apply Hh].
    unfold owned_row in Ho. rewrite !andb_true_iff, !bool_decide_eq_true in Ho.
    destruct Ho as [[Ho _] _]. rewrite (Hk _ _ Hd) in Ho. done.
Qed.

Lemma release_ready i now rest db :
  ready rest db ->
  ready rest (db <| image_access_deliveries :=
    snd (update_where (leased_by i tok) (released now) (deliveries db)) |>).
Proof.
  intros [[Hk Hrows] Hheld]. split; [split|].
  - apply keyed_fmap; [|done]. intros d. by case_match.
  - intros k d Hd. cbn in Hd. apply lookup_fmap_Some in Hd as (d0 & <- & Hd).
    case_match eqn:Ho; [|by eapply Hrows]. apply released_ok; [by eapply Hrows|].
    unfold leased_by in Ho. rewrite andb_true_iff, !bool_decide_eq_true in Ho.
    destruct Ho as [_ ->]. done.
  - eapply Forall_impl; [exact Hheld|]. intros c [Ht Hh]. split; [done|]. intros d Hd.
    cbn in Hd. apply lookup_fmap_Some in Hd as (d0 & <- & Hd). case_match; [done|by apply Hh].
Qed.
End fenced.

(** ** The worker's writes *)
Definition apart (claim : Claim) (rest : list Claim) : Prop :=
  Forall (fun c => ImageAssetID (cl_row c) <> ImageAssetID (cl_row claim)) rest.

Section worker.
Context `{EnvOk} `{Pg} `{!Interference DB}.
Context (wk : Worker) (Hprov : provider_ok (provider wk)).
Context (Hothers : forall k db, access_db_ok db -> access_db_ok (others k db)).
Context (tok : string) (Hfence : forall k db, fence tok db (others k db)).
Abbreviation W := (M (World DB (list Call))).

Definition Works (claim : Claim) (rest : list Claim) {R} (m : W R) : Prop :=
  TripleW (ready tok (claim :: rest)) m (fun _ => ready tok rest) (ready tok rest).

Lemma ready_tail claim rest db : ready tok (claim :: rest) db -> ready tok rest db.
Proof. intros [Hdb Hh]. apply Forall_cons in Hh as [_ Hh]. done. Qed.

Lemma ready_others claims k db : ready tok claims db -> ready tok claims (others k db).
Proof.
  intros [Hdb Hh]. split; [by apply Hothers|].
  eapply Forall_impl; [exact Hh|]. intros c. by apply held_fence.
Qed.

Lemma works_reads {R} (m : W R) claims :
  (forall w r w', m w = (r, w') -> w_db w' = w_db w) ->
  TripleW (ready tok claims) m (fun _ => ready tok claims) (ready tok claims).
Proof. intros Hm. by apply tripleW_same. Qed.

Lemma NowW_same (w : World DB (list Call)) r w' : NowW w = (r, w') -> w_db w' = w_db w.
Proof. by intros [= <- <-]. Qed.
Lemma call_same {R} (answer : nat -> R) entry (w : World DB (list Call)) r w' :
  call answer entry w = (r, w') -> w_db w' = w_db w.
Proof. by intros [= <- <-]. Qed.

Lemma works_read {R T} claim rest (m : W R) (k : R -> W T) :
  (forall w r w', m w = (r, w') -> w_db w' = w_db w) ->
  (forall a, Works claim rest (k a)) -> Works claim rest (mbind m k).
Proof.
  intros Hm Hk. eapply (tripleW_bind _ _ (fun _ => ready tok (claim :: rest))); [|exact Hk].
  apply tripleW_same; [done|]. intros db. by apply ready_tail.
Qed.

Lemma works_call {R T} claim rest (answer : nat -> R) entry (k : R -> W T) :
  (forall n, Works claim rest (k (answer n))) -> Works claim rest (mbind (call answer entry) k).
Proof. intros Hk w r w' E. by apply (Hk (length (w_ext w))) in E. Qed.

Lemma update_deliveries_inr p f (tx : TxD) n tx' :
  update_deliveries p f tx = (inr n, tx') ->
  tx_before tx' = tx_before tx /\ n = fst (update_where p f (deliveries (tx_db tx))) /\
  tx_db tx' = (tx_db tx) <| image_access_deliveries :=
    snd (update_where p f (deliveries (tx_db tx))) |>.
Proof.
  intros E. apply stmt_inr_short in E as (E & _ & Hb). cbn [update_where] in E.
  injection E as <- <-. done.
Qed.

Lemma works_updateOutcome claim claim' rest : LeaseToken (cl_row claim) = Some tok ->
  Works claim' rest (updateOutcome claim).
Proof.
  intros Ht.
  eapply (tripleW_bind _ _ (fun _ => ready tok rest)); [|intros o; by apply tripleW_mret].
  apply tripleW_attempt_any.
  apply tripleW_InTx; [intros k db; apply ready_others|intros db; apply ready_tail|].
  intros tx [] tx' E Hb Hr. unfold ReleaseSuperseded in E. run_inv_step. run_inv_step.
  run_inv_step. run_inv_step. apply update_deliveries_inr in E1 as (Hb' & _ & ->).
  destruct_and?. rewrite Ht. cbn [valueOrEmpty]. split; [congruence|].
  apply release_ready. match goal with H : tx_db _ = tx_db tx |- _ => rewrite H end.
  by eapply ready_tail.
Qed.

(** An update that keeps the lease; [claim'] is the copy the rest works with. *)
Lemma works_updating claim claim' rest f (next : W Outcome) :
  apart claim rest -> LeaseToken (cl_row claim) = Some tok ->
  (forall d, ImageAssetID (f d) = ImageAssetID d) ->
  (forall d, same_work (cl_row claim) d -> LeaseToken d = Some tok -> access_ok d ->
     access_ok (f d) /\ (LeaseToken (f d) = Some tok -> Generation (f d) = Generation d /\
       same_work (cl_row claim') (f d))) ->
  ImageAssetID (cl_row claim') = ImageAssetID (cl_row claim) ->
  Generation (cl_row claim') = Generation (cl_row claim) ->
  LeaseToken (cl_row claim') = LeaseToken (cl_row claim) ->
  Works claim' rest next -> Works claim rest (updating claim f next).
Proof.
  intros Ha Ht Hid Hf Hi Hg Hl Hnext. eapply (tripleW_bind _ _ (fun _ => ready tok (claim' :: rest))).
  - apply tripleW_InTx; [intros k db; apply ready_others|intros db; apply ready_tail|].
    intros tx b tx' E Hb Hr. unfold UpdateClaim in E. run_inv_step. run_inv_step.
    apply update_deliveries_inr in E0 as (Hb' & _ & ->). split; [congruence|].
    apply (update_ready tok claim claim'); try done.
    intros d Ho Hw Hd. apply Hf; [done| |done]. unfold owned_row in Ho.
    rewrite Ht, !andb_true_iff, !bool_decide_eq_true in Ho. by destruct Ho.
  - intros b. destruct b; [exact Hnext|].
    by apply works_updateOutcome.
Qed.

(** One that ends it. *)
Lemma works_final claim rest f (o : Outcome) :
  apart claim rest -> LeaseToken (cl_row claim) = Some tok ->
  (forall d, ImageAssetID (f d) = ImageAssetID d) ->
  (forall d, LeaseToken (f d) = None) ->
  (forall d, same_work (cl_row claim) d -> access_ok d -> access_ok (f d)) ->
  Works claim rest (updating claim f (mret o)).
Proof.
  intros Ha Ht Hid Hl Hf. eapply (works_updating claim claim); try done.
  - intros d Hw _ Hd. split; [by apply Hf|]. by rewrite Hl.
  - apply tripleW_mret. intros db. apply ready_tail.
Qed.

Definition mine (claim : Claim) (rest : list Claim) : Prop :=
  apart claim rest /\ LeaseToken (cl_row claim) = Some tok.

Lemma works_dead claim rest code : mine claim rest -> code ∈ access_codes ->
  Works claim rest (dead claim code).
Proof.
  intros [Ha Ht] Hc. apply works_read; [apply NowW_same|]. intros now.
  apply works_final; try done. intros d _. by apply dead_lettered_ok.
Qed.

Lemma works_succeed claim rest : mine claim rest -> Works claim rest (succeed claim).
Proof.
  intros [Ha Ht]. apply works_read; [apply NowW_same|]. intros now.
  apply works_final; try done. intros d _. by apply succeeded_ok.
Qed.

Lemma works_after claim rest d k :
  (forall next, Works claim rest (k next)) -> Works claim rest (after d k).
Proof. intros Hk. apply works_read; [apply NowW_same|done]. Qed.

(** Only claims past the ACL have a purge to do. *)
Definition past_acl (claim : Claim) : Prop :=
  State (cl_row claim) ∈ [ImageAccessPendingSubmit; ImageAccessSubmitting; ImageAccessSubmitted].

Lemma work_purge claim d : same_work (cl_row claim) d -> access_ok d ->
  past_acl claim -> PurgeRequired d = true.
Proof.
  intros (Hs & _) Hd Hin. destruct (acc_purge _ Hd) as [?|Hc]; [done|]. exfalso.
  rewrite <- Hs in Hc. revert Hc. apply list_elem_of_In in Hin. cbn in Hin.
  destruct Hin as [<-|[<-|[<-|[]]]]; intros [Hc|Hc]; try discriminate Hc; revert Hc; not_in_list.
Qed.

Lemma works_schedule claim rest st next code extra :
  mine claim rest ->
  st ∈ [ImageAccessPendingACL; ImageAccessPendingSubmit; ImageAccessSubmitting;
        ImageAccessSubmitted] ->
  (st <> ImageAccessPendingACL -> past_acl claim) ->
  (forall e, code = Some e -> e ∈ access_codes) ->
  (forall x, ImageAssetID (extra x) = ImageAssetID x /\ Generation (extra x) = Generation x /\
     State (extra x) = State x /\
     LeaseToken (extra x) = LeaseToken x /\ LeaseUntil (extra x) = LeaseUntil x /\
     LastErrorCode (extra x) = LastErrorCode x /\ PurgeRequired (extra x) = PurgeRequired x /\
     NextAttemptAt (extra x) = NextAttemptAt x) ->
  (forall d now, same_work (cl_row claim) d -> access_ok d ->
     let d' := extra (scheduled st next code now d) in
     (0 <= ACLAttempts d' /\ 0 <= SubmitAttempts d' /\ 0 <= PollAttempts d' /\
       0 <= UnknownChecks d') /\
     (forall j, ProviderJobID d' = Some j -> (1 <= String.length j <= 128)%nat) /\
     (st = ImageAccessSubmitting -> SubmissionStartedAt d' <> None) /\
     (st = ImageAccessSubmitted -> ProviderJobID d' <> None /\ SubmissionStartedAt d' <> None)) ->
  Works claim rest (schedule claim st next code extra).
Proof.
  intros [Ha Ht] Hst Hpast Hcode Hx Hd. apply works_read; [apply NowW_same|]. intros now.
  apply works_final; try done.
  - intros d. by rewrite (proj1 (Hx _)).
  - intros d. destruct (Hx (scheduled st next code now d)) as (_ & _ & _ & Hl & _). by rewrite Hl.
  - intros d Hw Hok. destruct (Hd d now Hw Hok) as (H1' & H2' & H3' & H4').
    apply open_row_ok; try done; [intros x; apply Hx|].
    intros Hn. apply (work_purge claim); auto.
Qed.

(** What a row says of the claim that copies it. *)
Ltac by_row :=
  cbn; intros; unfold same_work in *; destruct_and?;
  match goal with
  | Hok : access_ok ?d |- _ =>
      pose proof (acc_counters _ Hok); pose proof (acc_job _ Hok);
      pose proof (acc_submitting _ Hok); pose proof (acc_submitted _ Hok)
  end;
  split_and!; try done; try lia; try (intros _; destruct_and?; auto with congruence).

Lemma works_retrySubmission claim rest code : mine claim rest -> past_acl claim ->
  code ∈ access_codes -> Works claim rest (retrySubmission wk claim code).
Proof.
  intros Hm Hp Hc. unfold retrySubmission. case_match; [apply works_dead; [done|in_list]|].
  apply works_after; intros next; apply works_schedule;
    [done | in_list | done | by intros e [= <-] | done | by_row].
Qed.

Lemma works_scheduleUnknown claim rest code : mine claim rest ->
  State (cl_row claim) = ImageAccessSubmitting ->
  code ∈ access_codes -> Works claim rest (scheduleUnknown wk claim code).
Proof.
  intros Hm Hs Hc. unfold scheduleUnknown. case_match; [apply works_dead; [done|in_list]|].
  apply works_after; intros next; apply works_schedule;
    [done | in_list | intros _; unfold past_acl; rewrite Hs; in_list | by intros e [= <-] | done |].
  by_row.
Qed.

Ltac past Hs := unfold past_acl; rewrite Hs; in_list.
Ltac in_codes := first [in_list | intros ? [= <-]; in_list | intros ? [=]].

Lemma works_submitted claim rest answer : mine claim rest ->
  State (cl_row claim) = ImageAccessSubmitting ->
  (forall s, answer = inr s -> (String.length (JobID s) <= 128)%nat) ->
  Works claim rest (submitted claim answer).
Proof.
  intros Hm Hs Hj. unfold submitted. destruct answer as [e|s].
  - destruct (bool_decide (_ = ImageCachePurgeErrorPermanent)).
    + apply works_dead; [done|in_list].
    + apply works_after; intros next. apply works_schedule;
        [done | in_list | intros _; past Hs | | done | by_row].
      destruct (bool_decide _); in_codes.
  - destruct (bool_decide (JobID s = ""%string)) eqn:He.
    + apply works_after; intros next. apply works_schedule;
        [done | in_list | intros _; past Hs | in_codes | done | by_row].
    + apply bool_decide_eq_false in He. apply works_after; intros next. apply works_schedule;
        [done | in_list | intros _; past Hs | destruct (Partial s); in_codes | done | by_row].
      intros j [= <-]. split; [by apply nonempty_length | by apply Hj].
Qed.

Lemma works_submit claim rest : mine claim rest ->
  State (cl_row claim) = ImageAccessPendingSubmit -> Works claim rest (submit wk claim).
Proof.
  intros [Ha Ht] Hs. unfold submit. case_match; [apply works_dead; [done|in_list]|].
  apply works_read; [apply NowW_same|]. intros now.
  apply (works_updating _ (submitting_claim now claim)); try done.
  - intros d Hw Hl Hok. pose proof (work_purge _ _ Hw Hok ltac:(past Hs)).
    pose proof (acc_counters _ Hok). pose proof Hw as (_ & _ & _ & Hsub & _).
    split; [apply submitting_ok; [done|lia|done|by rewrite Hl]|]. intros _. split; [done|].
    unfold same_work in *. cbn. destruct_and?. by split_and!.
  - apply works_call. intros n. apply works_submitted; [done..|].
    intros sub. apply (submit_job _ Hprov).
Qed.

Lemma works_applyACL claim rest : mine claim rest ->
  State (cl_row claim) = ImageAccessPendingACL -> Works claim rest (applyACL wk claim).
Proof.
  intros [Ha Ht] Hs. unfold applyACL. apply works_call. intros n.
  destruct (SetObjectPublicAccess _ _ _ _).
  - case_match; [apply works_dead; [done|in_list]|]. apply works_after; intros next.
    apply works_schedule; [done | in_list | done | in_codes | done | by_row].
  - destruct (PurgeRequired (cl_row claim)) eqn:Hp; [|by apply works_succeed].
    apply works_read; [apply NowW_same|]. intros next.
    apply works_read; [apply NowW_same|]. intros now.
    set (claim' := mkClaim _ _ _). apply (works_updating _ claim'); try done.
    + intros d Hw _ Hok. unfold same_work in *. cbn. destruct_and?.
      split; [apply to_submit_ok; congruence|]. intros _. by split_and!.
    + by apply works_submit.
Qed.

Ltac branch := match goal with |- Works _ _ (if ?b then _ else _) => destruct b end.

Lemma works_recovered claim rest startedAt recovery : mine claim rest ->
  State (cl_row claim) = ImageAccessSubmitting ->
  (String.length (r_JobID recovery) <= 128)%nat ->
  Works claim rest (recovered wk claim startedAt recovery).
Proof.
  intros Hm Hs Hj. unfold recovered.
  assert (forall st, providerStateCode st ∈ access_codes) as Hcode.
  { intros st. unfold providerStateCode. repeat case_match; in_list. }
  assert (forall st, Works claim rest (retrySubmission wk claim (providerStateCode st))) as Hretry.
  { intros st. apply works_retrySubmission; [done|past Hs|done]. }
  destruct (EffectSucceeded recovery); [by apply works_succeed|].
  destruct (_ && _) eqn:Hfound.
  - destruct (bool_decide (r_State _ = _)); [by apply works_succeed|].
    destruct (terminalPurgeState _); [done|].
    apply andb_true_iff in Hfound as [_ Hne].
    apply negb_true_iff, bool_decide_eq_false in Hne. apply works_after; intros next.
    apply works_schedule; [done | in_list | intros _; past Hs | in_codes | done | by_row].
    intros j [= <-]. split; [by apply nonempty_length|done].
  - apply works_read; [apply NowW_same|]. intros now. unfold unresolved.
    branch; [done|].
    branch; [apply works_scheduleUnknown; [done|done|in_list]|].
    branch; [|apply works_scheduleUnknown; [done|done|in_list]].
    branch; [apply works_retrySubmission; [done|past Hs|in_list]|].
    apply works_dead; [done|in_list].
Qed.

Lemma works_recoverSubmission claim rest : mine claim rest ->
  State (cl_row claim) = ImageAccessSubmitting -> Works claim rest (recoverSubmission wk claim).
Proof.
  intros Hm Hs. unfold recoverSubmission.
  destruct (SubmissionStartedAt _); [|apply works_dead; [done|in_list]].
  apply works_read; [apply NowW_same|]. intros now. apply works_call. intros n.
  destruct (Recover _ _ _ _ _) eqn:E.
  - case_bool_decide; [apply works_dead; [done|in_list]|].
    apply works_scheduleUnknown; [done|done|in_list].
  - apply works_recovered; [done..|]. by eapply (recover_job _ Hprov).
Qed.

Lemma works_polled claim rest startedAt answer : mine claim rest ->
  State (cl_row claim) = ImageAccessSubmitted ->
  Works claim rest (polled wk claim startedAt answer).
Proof.
  intros Hm Hs. unfold polled. destruct answer as [e|st].
  - case_bool_decide; [apply works_dead; [done|in_list]|].
    case_match; [apply works_dead; [done|in_list]|]. apply works_after; intros next.
    apply works_schedule; [done | in_list | intros _; past Hs | in_codes | done | by_row].
  - case_bool_decide; [by apply works_succeed|].
    destruct (terminalPurgeState st).
    { apply works_retrySubmission; [done|past Hs|].
      unfold providerStateCode. repeat case_match; in_list. }
    case_match; [|apply works_dead; [done|in_list]].
    apply works_read; [apply NowW_same|]. intros now.
    case_match; [apply works_retrySubmission; [done|past Hs|in_list]|].
    apply works_after; intros next.
    apply works_schedule; [done | in_list | intros _; past Hs | in_codes | done | by_row].
Qed.

Lemma works_processClaim claim rest : mine claim rest -> Works claim rest (processClaim wk claim).
Proof.
  intros Hm. unfold processClaim.
  case_bool_decide; [by apply works_applyACL|].
  case_bool_decide; [by apply works_submit|].
  case_bool_decide; [by apply works_recoverSubmission|].
  case_bool_decide; [|apply works_dead; [done|in_list]].
  unfold poll. destruct (ProviderJobID _); [|apply works_dead; [done|in_list]].
  destruct (SubmissionStartedAt _); [|apply works_dead; [done|in_list]].
  apply works_call. intros n. by apply works_polled.
Qed.

Lemma works_process_all claims : NoDup (map (fun c => ImageAssetID (cl_row c)) claims) ->
  Forall (fun c => LeaseToken (cl_row c) = Some tok) claims ->
  forall r errs, TripleW (ready tok claims) (process_all wk claims r errs)
    (fun _ => access_db_ok) access_db_ok.
Proof.
  induction claims as [|claim claims IH]; intros Hn Ht r errs; cbn [process_all].
  { apply tripleW_mret. by intros db []. }
  cbn in Hn. apply NoDup_cons in Hn as [Hx Hn]. apply Forall_cons in Ht as [Ht Hts].
  eapply (tripleW_bind _ _ (fun _ => ready tok claims)).
  - eapply tripleW_conseq; [apply tripleW_attempt, works_processClaim|done| |].
    + split; [|exact Ht]. apply Forall_forall. intros c Hc Hid. apply Hx.
      apply list_elem_of_fmap. eauto.
    + by intros [] db Hr.
    + by intros db Hr.
  - intros [e|o]; by apply IH.
Qed.

Lemma claim_of_row db d c : claim_of db d = Some c -> cl_row c = d.
Proof. unfold claim_of. intros E. by destruct (image_assets db !! _); simplify_eq/=. Qed.

Lemma claims_ids db l : NoDup (map ImageAssetID l) ->
  NoDup (map (fun c => ImageAssetID (cl_row c)) (omap (claim_of db) l)).
Proof.
  induction l as [|d l IH]; intros Hn; [constructor|]. apply NoDup_cons in Hn as [Hd Hn].
  cbn. destruct (claim_of db d) as [c|] eqn:Hc; [|by apply IH]. cbn. apply NoDup_cons.
  split; [|by apply IH]. rewrite (claim_of_row _ _ _ Hc). intros Hin. apply Hd.
  apply list_elem_of_fmap in Hin as (c' & -> & Hc').
  apply list_elem_of_omap in Hc' as (d' & Hd' & Hc').
  rewrite (claim_of_row _ _ _ Hc'). by apply list_elem_of_fmap_2.
Qed.

Lemma candidate_due now limit db d : d ∈ candidates now limit db ->
  due now d = true /\ exists k, deliveries db !! k = Some d.
Proof.
  intros Hd. apply elem_of_take in Hd as (i & Hd & _).
  by apply list_elem_of_lookup_2, elem_of_sort_by, elem_of_select in Hd.
Qed.

Lemma claimed_row now until limit db c :
  c ∈ fst (claim_due now until tok limit db) ->
  exists d, d ∈ candidates now limit db /\ cl_row c = leased tok until now d.
Proof.
  cbn. intros (d' & Hd & Hc)%list_elem_of_omap. apply elem_of_sort_by in Hd.
  apply list_elem_of_fmap in Hd as (d & -> & Hd). exists d.
  by rewrite (claim_of_row _ _ _ Hc).
Qed.

Lemma in_ids_candidate now limit db k d : access_db_ok db -> deliveries db !! k = Some d ->
  in_ids (candidates now limit db) d = true -> d ∈ candidates now limit db.
Proof.
  intros [Hk _] Hd Hin. unfold in_ids in Hin. apply bool_decide_eq_true in Hin.
  apply list_elem_of_fmap in Hin as (d' & Hid & Hin).
  destruct (candidate_due _ _ _ _ Hin) as [_ [k' Hk']].
  rewrite (Hk _ _ Hd), (Hk _ _ Hk') in Hid. by simplify_eq.
Qed.

Lemma claimed_ready now until limit db : (16 <= String.length tok <= 64)%nat ->
  access_db_ok db ->
  let claims := fst (claim_due now until tok limit db) in
  ready tok claims (snd (claim_due now until tok limit db)) /\
  NoDup (map (fun c => ImageAssetID (cl_row c)) claims) /\
  Forall (fun c => LeaseToken (cl_row c) = Some tok) claims.
Proof.
  intros Ht Hdb. pose proof Hdb as [Hk Hrows].
  assert (Forall (fun c => LeaseToken (cl_row c) = Some tok)
            (fst (claim_due now until tok limit db))) as Htok.
  { apply Forall_forall. intros c (d & _ & ->)%claimed_row. done. }
  split_and!; [split| |done].
  - split; [apply keyed_fmap; [intros d; by case_match|done]|].
    intros k d Hd. cbn in Hd. apply lookup_fmap_Some in Hd as (d0 & <- & Hd).
    case_match eqn:Hin; [|by eapply Hrows].
    apply (in_ids_candidate _ _ _ _ _ Hdb Hd), candidate_due in Hin as [Hdue _].
    apply lease_taken_ok; [done| |by eapply Hrows].
    unfold due in Hdue. rewrite !andb_true_iff, bool_decide_eq_true in Hdue. by destruct_and?.
  - apply Forall_forall. intros c Hc. pose proof Hc as Hrow.
    apply claimed_row in Hrow as (d & Hd & Hrow). rewrite Forall_forall in Htok.
    split; [by apply Htok|]. rewrite Hrow. cbn. intros d' Hd' _.
    apply candidate_due in Hd as Hdue. destruct Hdue as [_ [k Hkd]].
    apply lookup_fmap_Some in Hd' as (d0 & <- & Hd0).
    rewrite (Hk _ _ Hkd) in Hd0. rewrite Hkd in Hd0. injection Hd0 as <-.
    assert (in_ids (candidates now limit db) d = true) as ->.
    { apply bool_decide_eq_true. by apply list_elem_of_fmap_2. }
    done.
  - apply claims_ids. change (map ImageAssetID) with (fmap (M := list) ImageAssetID).
    rewrite sort_by_perm, <- list_fmap_compose. apply NoDup_page_ids. exact Hk.
Qed.

Lemma works_batch now until limit (r : list Claim -> Result) :
  (16 <= String.length tok <= 64)%nat ->
  TripleW access_db_ok
    (let* claims := inTx (ClaimDue now until tok limit) in process_all wk claims (r claims) [])
    (fun _ => access_db_ok) access_db_ok.
Proof.
  intros Ht.
  eapply (tripleW_bind _ _ (fun claims db => ready tok claims db /\
    NoDup (map (fun c => ImageAssetID (cl_row c)) claims) /\
    Forall (fun c => LeaseToken (cl_row c) = Some tok) claims)).
  - apply tripleW_InTx; [intros k db; apply Hothers|done|].
    intros tx claims tx' E Hb Hdb. unfold ClaimDue in E. case_match; [discriminate E|].
    apply stmt_inr_short in E as (E & _ & Hb'). split; [congruence|].
    pose proof (claimed_ready now until (Z.to_nat limit) _ Ht Hdb) as Hready.
    destruct (claim_due _ _ _ _ _) as [cs db']. by simplify_eq.
  - intros claims w x w' E (Hr & Hn & Hts).
    by eapply (works_process_all claims Hn Hts).
Qed.
End worker.

(** the constraints of the access outbox are an invariant of a batch.  As long as
    the other processes keep them between the worker's transactions, and do not
    advance the work of a row under this batch's lease (they may end the lease, or
    enqueue a newer generation), [RunBatch] keeps every check of migration 00012
    (states, counters, lease pairs, job ids, error codes, the timestamps each state
    needs, [next_attempt_at] exactly for open rows), and that closed rows hold no
    lease; whatever the storage and the provider answer and wherever it stops. *)
Theorem access_batch_invariant `{EnvOk} `{Pg} `{!Interference DB} (wk : Worker)
    (w w' : World DB (list Call)) r :
  provider_ok (provider wk) ->
  (forall k db, access_db_ok db -> access_db_ok (others k db)) ->
  (forall b, env_rand (c_rand (w_ctr w)) 16 = Some b ->
     forall k db, fence (hex_encode b) db (others k db)) ->
  RunBatch wk w = (r, w') -> access_db_ok (w_db w) -> access_db_ok (w_db w').
Proof.
  intros Hprov Hothers Hfence E Hdb. unfold RunBatch in E.
  unfold mbind at 1 in E. unfold NowW in E. cbn beta iota in E.
  unfold mbind at 1 in E. unfold leaseToken, RandReadW, mbind at 1 in E. cbn in E.
  destruct (env_rand (c_rand (w_ctr w)) 16) as [b|] eqn:Hb; [|by injection E as <- <-].
  assert (16 <= String.length (hex_encode b) <= 64)%nat as Hlen.
  { rewrite hex_encode_length. apply rand_length in Hb. lia. }
  epose proof (works_batch wk Hprov Hothers _ (Hfence b eq_refl) _ _ _ _ Hlen _ _ _ E Hdb) as Hok.
  by destruct r.
Qed.
