(* ===== verification/ImageAccessLiveness.v ===== *)
(** * The access outbox: every delivery is settled

    Without faults and with the row to itself, the worker closes a row or brings it
    strictly closer to being closed; and a claim that a newer intent has overtaken
    changes nothing of it. *)

From S2P Require Import Prelude.
From S2P Require Import GoText.
From S2P Require Import Apierr.
From S2P Require Import Effects.
From S2P Require Import Logic.
From S2P Require Import Model.
From S2P Require Import AuthRepo.
From S2P Require Import AuthService.
From S2P Require Import ImageAccess.
From S2P Require Import ImageAccessProps.
Open Scope Z_scope.
Import ImageAccessOutbox ImageAccessWorker.
Import ImageAccessDelivery.

(** ** The backoff stays within its bounds *)
Lemma backoff_loop_bounds fuel index attempt delay maximum :
  0 < delay <= maximum -> 2 * maximum <= int64_max ->
  delay <= backoff_loop fuel index attempt delay maximum <= maximum.
Proof.
  revert index delay. induction fuel as [|fuel IH]; intros index delay Hd Hm; cbn; [lia|].
  destruct (_ && _) eqn:Hc; [|lia].
  assert (wrap64 (delay * 2) = delay * 2) as ->.
  { unfold wrap64, int64_max in *. rewrite Z.mod_small; lia. }
  case_match; [lia|]. specialize (IH (index + 1) (delay * 2)). lia.
Qed.

Lemma retryBackoff_bounds attempt base maximum :
  0 < base <= maximum -> 2 * maximum <= int64_max ->
  base <= retryBackoff attempt base maximum <= maximum.
Proof. intros. unfold retryBackoff. by apply backoff_loop_bounds. Qed.

Lemma retryBackoff_delay attempt base maximum :
  0 < base <= maximum -> maximum <= 5 * Minute ->
  0 < retryBackoff attempt base maximum <= 5 * Minute.
Proof.
  intros Hb Hm. assert (2 * (5 * Minute) <= int64_max) by done.
  pose proof (retryBackoff_bounds attempt base maximum). lia.
Qed.

(** ** How much work a row may still need *)
Section measure.
Context (o : Options).

Definition left_of (maximum used : Z) : Z := Z.max 0 (maximum - used).

(** Polls until the pending timeout, two seconds apart at least. *)
Definition poll_window (started next : time) : Z :=
  Z.max 0 ((started + PendingTimeout o - next) / (2 * Second) + 1).
Definition max_polls : Z :=
  Z.max 0 (MaxPollFailures o) + Z.max 0 (PendingTimeout o / (2 * Second) + 1).

Definition polls_left (d : t) : Z :=
  match SubmissionStartedAt d with
  | Some started => left_of (MaxPollFailures o) (PollAttempts d) + poll_window started (next_at d)
  | None => 0
  end.

Definition round : Z := 3 + max_polls + Z.max 0 (MaxUnknownChecks o).
Definition rounds_left (d : t) : Z := left_of (MaxSubmissions o) (SubmitAttempts d) * round.

Definition work_left (d : t) : Z :=
  rounds_left d +
  (if bool_decide (State d = ImageAccessPendingACL)
   then 1 + left_of (MaxACLAttempts o) (ACLAttempts d)
   else if bool_decide (State d = ImageAccessPendingSubmit) then 0
   else if bool_decide (State d = ImageAccessSubmitted) then 1 + polls_left d
   else 2 + max_polls + left_of (MaxUnknownChecks o) (UnknownChecks d)).

Definition work_budget : Z :=
  (Z.max 0 (MaxSubmissions o) + 1) * round + 1 + Z.max 0 (MaxACLAttempts o).

(** A submission does not start after the row's next attempt. *)
Definition timely (d : t) : Prop :=
  forall started, SubmissionStartedAt d = Some started -> started <= next_at d.

Lemma max_polls_nonneg : 0 <= max_polls.
Proof. unfold max_polls. lia. Qed.

Definition counters (d : t) : Prop :=
  0 <= ACLAttempts d /\ 0 <= SubmitAttempts d /\ 0 <= PollAttempts d /\ 0 <= UnknownChecks d.

Lemma polls_left_bounds d : timely d -> counters d -> 0 <= polls_left d <= max_polls.
Proof.
  intros Ht (_ & _ & Hp & _). pose proof max_polls_nonneg.
  unfold polls_left. destruct (SubmissionStartedAt d) as [s|] eqn:Hs; [|lia].
  specialize (Ht s Hs). unfold left_of, poll_window, max_polls in *.
  assert ((s + PendingTimeout o - next_at d) / (2 * Second) <= PendingTimeout o / (2 * Second)).
  { apply Z.div_le_mono; [done|lia]. }
  lia.
Qed.

Lemma rounds_left_bounds d : counters d ->
  0 <= rounds_left d <= Z.max 0 (MaxSubmissions o) * round.
Proof.
  intros (_ & Hs & _). pose proof max_polls_nonneg.
  unfold rounds_left, left_of, round. nia.
Qed.

Ltac decide_states :=
  repeat first [rewrite bool_decide_eq_true_2 by done | rewrite bool_decide_eq_false_2 by done].

Lemma left_acl d : State d = ImageAccessPendingACL ->
  work_left d = rounds_left d + 1 + left_of (MaxACLAttempts o) (ACLAttempts d).
Proof. intros Hs. unfold work_left. rewrite Hs. decide_states. lia. Qed.
Lemma left_pending d : State d = ImageAccessPendingSubmit -> work_left d = rounds_left d.
Proof. intros Hs. unfold work_left. rewrite Hs. decide_states. lia. Qed.
Lemma left_submitted d : State d = ImageAccessSubmitted ->
  work_left d = rounds_left d + 1 + polls_left d.
Proof. intros Hs. unfold work_left. rewrite Hs. decide_states. lia. Qed.
Lemma left_submitting d : State d = ImageAccessSubmitting ->
  work_left d = rounds_left d + 2 + max_polls + left_of (MaxUnknownChecks o) (UnknownChecks d).
Proof. intros Hs. unfold work_left. rewrite Hs. decide_states. lia. Qed.

(** Past the ACL, what is left of a round is less than a round. *)
Lemma left_round d : timely d -> counters d -> State d <> ImageAccessPendingACL ->
  work_left d < rounds_left d + round.
Proof.
  intros Ht Hc Hs. pose proof (polls_left_bounds d Ht Hc). pose proof max_polls_nonneg.
  destruct Hc as (_ & _ & _ & Hu). unfold work_left, round, left_of in *.
  rewrite bool_decide_eq_false_2 by done. repeat case_bool_decide; lia.
Qed.

Lemma work_left_bounds d : timely d -> counters d -> 0 <= work_left d <= work_budget.
Proof.
  intros Ht Hc. pose proof (rounds_left_bounds d Hc). pose proof (polls_left_bounds d Ht Hc).
  pose proof max_polls_nonneg. destruct Hc as (? & ? & ? & ?).
  unfold work_left, work_budget, round, left_of in *.
  repeat case_bool_decide; lia.
Qed.
End measure.

(** ** Total execution

    [Ends Q m w]: from [w], [m] returns, and its result satisfies [Q]. *)
Section total.
Context `{Faultless} `{Pg} `{!Interference DB}.
Context (Hquiet : forall k db, deliveries (others k db) = deliveries db).
Context (Hclock : forall j k, (j <= k)%nat -> env_now j <= env_now k).
Abbreviation WorldC := (World DB (list Call)).
Abbreviation W := (M WorldC).

Definition Ends {R} (Q : R -> WorldC -> Prop) (m : W R) (w : WorldC) : Prop :=
  exists a w', m w = (inr a, w') /\ Q a w'.

(** The row of [i] is [d], and the clock has reached [T]. *)
Record At (i : Z) (d : t) (T : time) (w : WorldC) : Prop := {
  at_keyed : keyed ImageAssetID (deliveries (w_db w));
  at_row : deliveries (w_db w) !! i = Some d;
  at_clock : forall k, (c_now (w_ctr w) <= k)%nat -> T <= env_now k;
}.

Lemma ends_mret {R} (Q : R -> WorldC -> Prop) a w : Q a w -> Ends Q (mret a) w.
Proof. intros HQ. by exists a, w. Qed.

Lemma ends_now {R} (Q : R -> WorldC -> Prop) i d T (k : time -> W R) w : At i d T w ->
  (forall now w', T <= now -> At i d now w' -> Ends Q (k now) w') -> Ends Q (mbind NowW k) w.
Proof.
  intros [Hk Hr Hc] HQ. unfold Ends, mbind. cbn. apply (HQ (env_now (c_now (w_ctr w)))).
  - by apply Hc.
  - split; [done|done|]. cbn. intros n Hn. apply Hclock. lia.
Qed.

Lemma ends_call {R T} (Q : T -> WorldC -> Prop) i d c (answer : nat -> R) entry (k : R -> W T) w :
  At i d c w -> (forall n w', At i d c w' -> Ends Q (k (answer n)) w') ->
  Ends Q (mbind (call answer entry) k) w.
Proof.
  intros [Hk Hr Hc] HQ. unfold Ends, mbind. cbn. by apply HQ.
Qed.

Lemma update_deliveries_runs p f (tx : TxD) k d :
  tx_aborted tx = false -> keyed ImageAssetID (deliveries (tx_db tx)) ->
  (forall r, p r = true -> ImageAssetID r = k) ->
  deliveries (tx_db tx) !! k = Some d -> p d = true ->
  update_deliveries p f tx = (inr 1, set_ctr stmt_ctr tx <| tx_db :=
    (tx_db tx) <| image_access_deliveries := <[k := f d]> (deliveries (tx_db tx)) |> |>).
Proof.
  intros Ha Hk Hp Hd Ho. unfold update_deliveries. apply stmt_ok; [done|].
  destruct (update_where _ _ _) as [n rows] eqn:E.
  assert (n = fst (update_where p f (deliveries (tx_db tx))) /\
          rows = snd (update_where p f (deliveries (tx_db tx)))) as [-> ->] by by rewrite E.
  rewrite (update_one ImageAssetID _ p f k d) by done.
  cbn [fst update_where]. by rewrite (select_one ImageAssetID _ p k d).
Qed.

Lemma owned_same_id claim d : owned_row claim d = true -> ImageAssetID d = ImageAssetID (cl_row claim).
Proof. unfold owned_row. rewrite !andb_true_iff, !bool_decide_eq_true. by intros [[? _] _]. Qed.

Lemma ends_updating (Q : Outcome -> WorldC -> Prop) i d T claim f next w :
  At i d T w -> owned_row claim d = true -> (forall r, ImageAssetID (f r) = ImageAssetID r) ->
  (forall w', At i (f d) T w' -> Ends Q next w') -> Ends Q (updating claim f next) w.
Proof.
  intros [Hk Hr Hc] Ho Hid HQ. unfold Ends, updating, update, inTx, InTx, RunInTx, mbind.
  rewrite !faultless_begin. unfold UpdateClaim, mbind.
  assert (keyed ImageAssetID (deliveries (w_db (interfere w)))) as Hk' by (cbn; by rewrite Hquiet).
  rewrite (update_deliveries_runs _ f _ i d); try done.
  - cbn. rewrite faultless_commit. cbn. apply HQ. split; cbn; rewrite ?Hquiet; [|apply lookup_insert_eq|].
    + apply keyed_insert; [done|]. rewrite Hid. by apply Hk.
    + intros n Hn. by apply Hc.
  - intros r Hr'. apply owned_same_id in Hr', Ho. rewrite <- (Hk _ _ Hr). congruence.
  - cbn. by rewrite Hquiet.
Qed.

(** ** Progress *)
Context (wk : Worker) (Htimeout : PendingTimeout (options wk) <= int64_max).
Abbreviation left := (work_left (options wk)).
Abbreviation round_of := (round (options wk)).

(** How a claim may be left: closed, or open with less than [bound] to do and due
    within five minutes. *)
Definition progress (i bound : Z) (outcome : Outcome) (w : WorldC) : Prop :=
  exists d, deliveries (w_db w) !! i = Some d /\
    match outcome with
    | Succeeded => State d = ImageAccessSucceeded
    | Dead => State d = ImageAccessDeadLetter
    | Rescheduled =>
        State d ∉ closed_states /\ LeaseToken d = None /\ timely d /\ left d < bound /\
        forall k, (c_now (w_ctr w) <= k)%nat -> next_at d <= env_now k + 5 * Minute
    | Superseded | Unreleased _ => False
    end.

Section claim.
Context (i bound : Z) (d : t) (claim : Claim) (Howned : owned_row claim d = true).
Abbreviation Good := (Ends (progress i bound)).

Lemma ends_dead code T w : At i d T w -> Good (dead claim code) w.
Proof.
  intros Hw. eapply ends_now; [exact Hw|]. intros now w' _ Hw'.
  eapply ends_updating; [exact Hw'|done|done|]. intros w2 [_ Hr _].
  apply ends_mret. by exists (dead_lettered code now d).
Qed.

Lemma ends_succeed T w : At i d T w -> Good (succeed claim) w.
Proof.
  intros Hw. eapply ends_now; [exact Hw|]. intros now w' _ Hw'.
  eapply ends_updating; [exact Hw'|done|done|]. intros w2 [_ Hr _].
  apply ends_mret. by exists (succeeded now d).
Qed.

Lemma ends_schedule delay st code extra T w :
  At i d T w -> delay <= 5 * Minute ->
  (forall x, ImageAssetID (extra x) = ImageAssetID x /\ State (extra x) = State x /\
     LeaseToken (extra x) = LeaseToken x /\ NextAttemptAt (extra x) = NextAttemptAt x) ->
  st ∉ closed_states ->
  (forall next now, T + delay <= next -> let d' := extra (scheduled st next code now d) in
     timely d' /\ left d' < bound) ->
  Good (after delay (fun next => schedule claim st next code extra)) w.
Proof.
  intros Hw Hdelay Hx Hst Hd. eapply ends_now; [exact Hw|]. intros t1 w1 Ht1 Hw1.
  eapply ends_now; [exact Hw1|]. intros t2 w2 Ht2 Hw2.
  eapply ends_updating; [exact Hw2|done|intros r; by rewrite (proj1 (Hx _))|]. intros w3 [_ Hr Hc].
  apply ends_mret. eexists. split; [exact Hr|].
  destruct (Hd (time_Add t1 delay) t2) as [Ht Hl]; [unfold time_Add; lia|].
  destruct (Hx (scheduled st (time_Add t1 delay) code t2 d)) as (_ & Hs & Hlt & Hn).
  cbn beta. split; [by rewrite Hs|]. split; [by rewrite Hlt|].
  split; [exact Ht|]. split; [exact Hl|].
  intros k Hk. unfold next_at. rewrite Hn. cbn. specialize (Hc k Hk). unfold time_Add. lia.
Qed.

Context (Hcount : counters d) (Hsub : SubmitAttempts (cl_row claim) = SubmitAttempts d).

Lemma ends_retrySubmission code T w : At i d T w ->
  rounds_left (options wk) d < bound -> Good (retrySubmission wk claim code) w.
Proof.
  intros Hw Hb. unfold retrySubmission. case_match; [by eapply ends_dead|].
  eapply ends_schedule; [exact Hw| |done|not_in_list|].
  - apply retryBackoff_bounds; [by vm_compute|done].
  - intros next now _. split; [done|]. by rewrite left_pending.
Qed.

Lemma ends_submitted answer T w : At i d T w ->
  timely d -> State d = ImageAccessSubmitting -> (forall s, SubmissionStartedAt d = Some s -> s <= T) ->
  rounds_left (options wk) d + round_of <= bound -> Good (submitted claim answer) w.
Proof.
  intros Hw Htd Hs Hstart Hb. unfold submitted.
  assert (forall d' delay next, 0 <= delay -> T + delay <= next ->
    State d' <> ImageAccessPendingACL ->
    SubmissionStartedAt d' = SubmissionStartedAt d /\ next_at d' = next /\
      SubmitAttempts d' = SubmitAttempts d /\ counters d' ->
    timely d' /\ left d' < bound) as Hgood.
  { intros d' delay next Hdel Hnext Hst (E1 & E2 & E3 & Hcf).
    assert (timely d') as Htf.
    { intros s. rewrite E1, E2. intros Hss. specialize (Hstart s Hss). lia. }
    split; [done|]. pose proof (left_round (options wk) d' Htf Hcf Hst).
    unfold rounds_left in *. rewrite E3 in *. lia. }
  assert (forall delay st code extra, 0 <= delay <= 5 * Minute -> st ∉ closed_states ->
    st <> ImageAccessPendingACL ->
    (forall x, ImageAssetID (extra x) = ImageAssetID x /\ State (extra x) = State x /\
      LeaseToken (extra x) = LeaseToken x /\ NextAttemptAt (extra x) = NextAttemptAt x) ->
    (forall x, SubmissionStartedAt (extra x) = SubmissionStartedAt x /\
      SubmitAttempts (extra x) = SubmitAttempts x /\ (counters x -> counters (extra x))) ->
    Good (after delay (fun next => schedule claim st next code extra)) w) as Hsched.
  { intros delay st code extra Hdel Hst Hna Hx Hx'. eapply ends_schedule; [exact Hw|lia|done|done|].
    intros next now Hn. cbn zeta.
    destruct (Hx (scheduled st next code now d)) as (_ & E1 & _ & E2).
    destruct (Hx' (scheduled st next code now d)) as (E3 & E4 & E5).
    eapply Hgood; [|exact Hn| |]; [lia|by rewrite E1|].
    rewrite E3, E4. split_and!; [done| |done|by apply E5]. unfold next_at. by rewrite E2. }
  destruct answer as [e|s]; case_bool_decide.
  - by eapply ends_dead.
  - apply Hsched; [by vm_compute|not_in_list|done..].
  - apply Hsched; [by vm_compute|not_in_list|done..].
  - apply Hsched; [by vm_compute|not_in_list|done..].
Qed.
End claim.

Lemma ends_submit i bound d claim T w : At i d T w -> owned_row claim d = true ->
  counters d -> SubmitAttempts (cl_row claim) = SubmitAttempts d ->
  rounds_left (options wk) d <= bound -> Ends (progress i bound) (submit wk claim) w.
Proof.
  intros Hw Ho Hc Hs Hb. unfold submit. destruct (Z.leb_spec (MaxSubmissions (options wk))
    (SubmitAttempts (cl_row claim))) as [Hmax|Hmax]; [by eapply ends_dead|].
  eapply ends_now; [exact Hw|]. intros now w1 Hn Hw1.
  eapply ends_updating; [exact Hw1|done|done|]. intros w2 Hw2.
  eapply ends_call; [exact Hw2|]. intros n w3 Hw3. cbn zeta.
  eapply ends_submitted; [|..|exact Hw3|intros s [= <-]; cbn|done|intros s [= <-]; lia|]; try done.
  - destruct Hc as (? & ? & ? & ?). unfold counters. cbn. lia.
  - unfold time_Add, Second, Millisecond, Microsecond. lia.
  - unfold rounds_left in *. cbn.
    assert (left_of (MaxSubmissions (options wk)) (SubmitAttempts (cl_row claim) + 1) =
            left_of (MaxSubmissions (options wk)) (SubmitAttempts d) - 1) as ->; [|lia].
    unfold left_of. lia.
Qed.

(** A row as the worker claims it: the copy is exact, and it is due. *)
Record claimable (claim : Claim) (d : t) (T : time) : Prop := {
  cl_owned : owned_row claim d = true;
  cl_same : same_work (cl_row claim) d;
  cl_counters : counters d;
  cl_timely : timely d;
  cl_due : next_at d <= T;
}.

(** Rescheduling keeps the row timely when the submission is the old one. *)
Lemma still_timely claim d T d' : claimable claim d T ->
  SubmissionStartedAt d' = SubmissionStartedAt d -> T <= next_at d' -> timely d'.
Proof. intros Hc E Hn s. rewrite E. intros Hs. pose proof (cl_timely _ _ _ Hc s Hs).
  pose proof (cl_due _ _ _ Hc). lia. Qed.

Lemma ends_applyACL i d claim T w : At i d T w -> claimable claim d T ->
  State d = ImageAccessPendingACL -> Ends (progress i (left d)) (applyACL wk claim) w.
Proof.
  intros Hw Hc Hs. pose proof Hc as [Ho (_ & Hp & Ha & Hsub & _) Hcount Htd Hdue].
  rewrite (left_acl _ d) by done.
  unfold applyACL. cbn zeta. eapply ends_call; [exact Hw|]. intros n w1 Hw1.
  destruct (SetObjectPublicAccess _ _ _ _).
  - destruct (Z.leb_spec (MaxACLAttempts (options wk)) (ACLAttempts (cl_row claim) + 1));
      [by eapply ends_dead|].
    pose proof (retryBackoff_delay (ACLAttempts (cl_row claim) + 1) Second (5 * Minute)
      ltac:(by vm_compute) ltac:(by vm_compute)) as Hback.
    eapply ends_schedule; [done|exact Hw1|lia|done|not_in_list|].
    intros next now Hn. cbn zeta. split.
    + eapply still_timely; [done..|]. unfold next_at. cbn. lia.
    + rewrite left_acl by done. unfold rounds_left, left_of. cbn. lia.
  - destruct (PurgeRequired (cl_row claim)); cbn [negb]; [|by eapply ends_succeed].
    eapply ends_now; [exact Hw1|]. intros next w2 Hn Hw2.
    eapply ends_now; [exact Hw2|]. intros now w3 Hn' Hw3.
    eapply ends_updating; [exact Hw3|done|done|]. intros w4 Hw4.
    eapply ends_submit; [exact Hw4|done|done|done|].
    unfold rounds_left, left_of. cbn. lia.
Qed.

Lemma ends_scheduleUnknown i d claim T w code : At i d T w -> claimable claim d T ->
  State d = ImageAccessSubmitting -> Ends (progress i (left d)) (scheduleUnknown wk claim code) w.
Proof.
  intros Hw Hc Hs. pose proof Hc as [Ho (_ & _ & _ & _ & _ & Hu & _) Hcount Htd Hdue].
  rewrite (left_submitting _ d) by done. unfold scheduleUnknown. cbn zeta.
  destruct (Z.leb_spec (MaxUnknownChecks (options wk)) (UnknownChecks (cl_row claim) + 1));
    [by eapply ends_dead|].
  pose proof (retryBackoff_delay (UnknownChecks (cl_row claim) + 1) (5 * Second) (15 * Second)
      ltac:(by vm_compute) ltac:(by vm_compute)) as Hback.
  eapply ends_schedule; [done|exact Hw| |done|not_in_list|].
  - lia.
  - intros next now Hn. cbn zeta. split.
    + eapply still_timely; [done..|]. unfold next_at. cbn. lia.
    + rewrite left_submitting by done. unfold rounds_left, left_of. cbn. lia.
Qed.

(** Within a round, resubmitting is progress. *)
Lemma ends_retry i d claim T w code : At i d T w -> claimable claim d T ->
  State d = ImageAccessSubmitting \/ State d = ImageAccessSubmitted ->
  Ends (progress i (left d)) (retrySubmission wk claim code) w.
Proof.
  intros Hw Hc Hs. pose proof Hc as [Ho (_ & _ & _ & Hsub & _) Hcount Htd Hdue].
  eapply ends_retrySubmission; [done..|exact Hw|].
  pose proof (polls_left_bounds (options wk) d Htd Hcount).
  pose proof (max_polls_nonneg (options wk)).
  destruct Hs as [Hs|Hs]; [rewrite left_submitting by done|rewrite left_submitted by done];
    unfold left_of; lia.
Qed.

Ltac end_if := match goal with |- Ends _ (if ?b then _ else _) _ => destruct b end.

Lemma ends_recovered i d claim T w startedAt recovery : At i d T w -> claimable claim d T ->
  State d = ImageAccessSubmitting ->
  Ends (progress i (left d)) (recovered wk claim startedAt recovery) w.
Proof.
  intros Hw Hc Hs. pose proof Hc as [Ho _ Hcount Htd Hdue]. unfold recovered.
  end_if; [by eapply ends_succeed|]. end_if.
  - end_if; [by eapply ends_succeed|]. end_if; [by eapply ends_retry; eauto|].
    eapply ends_schedule; [done|exact Hw|by vm_compute|done|not_in_list|].
    intros next now Hn. cbn zeta. assert (0 < 2 * Second) by done.
    match goal with |- timely ?x /\ _ => set (d' := x) end.
    assert (timely d') as Htd' by (eapply still_timely; [done..|]; unfold next_at; cbn; lia).
    split; [exact Htd'|]. rewrite (left_submitting _ d), (left_submitted _ d') by done.
    pose proof (polls_left_bounds (options wk) d' Htd' Hcount).
    change (rounds_left (options wk) d') with (rounds_left (options wk) d).
    unfold left_of. lia.
  - eapply ends_now; [exact Hw|]. intros now w1 Hn Hw1. unfold unresolved.
    assert (claimable claim d now) as Hc1 by (destruct Hc; split; [done..|lia]).
    end_if; [by eapply ends_retry; eauto|]. end_if; [by eapply ends_scheduleUnknown|].
    end_if; [|by eapply ends_scheduleUnknown].
    end_if; [by eapply ends_retry; eauto|by eapply ends_dead].
Qed.

Lemma ends_recoverSubmission i d claim T w : At i d T w -> claimable claim d T ->
  State d = ImageAccessSubmitting ->
  Ends (progress i (left d)) (recoverSubmission wk claim) w.
Proof.
  intros Hw Hc Hs. pose proof Hc as [Ho _ Hcount Htd Hdue]. unfold recoverSubmission.
  destruct (SubmissionStartedAt (cl_row claim)) as [startedAt|]; [|by eapply ends_dead].
  eapply ends_now; [exact Hw|]. intros now w1 Hn Hw1.
  assert (claimable claim d now) as Hc1 by (destruct Hc; split; [done..|lia]).
  eapply ends_call; [exact Hw1|]. intros n w2 Hw2.
  destruct (Recover _ _ _ _ _) as [e|recovery]; [|by eapply ends_recovered].
  end_if; [by eapply ends_dead|by eapply ends_scheduleUnknown].
Qed.

(** The poll window shrinks by a poll, two seconds later. *)
Lemma poll_window_step o started next next' :
  next < started + PendingTimeout o -> next + 2 * Second <= next' ->
  poll_window o started next' < poll_window o started next.
Proof.
  intros Hx Hn. unfold poll_window. set (X := started + PendingTimeout o) in *.
  assert (0 <= (X - next) / (2 * Second)) by (apply Z.div_pos; [lia|done]).
  assert ((X - next') / (2 * Second) <= (X - next) / (2 * Second) - 1); [|lia].
  replace ((X - next) / (2 * Second) - 1) with ((X - next + (-1) * (2 * Second)) / (2 * Second))
    by (rewrite Z.div_add by done; lia).
  apply Z.div_le_mono; [done|lia].
Qed.

Lemma poll_window_mono o started next next' :
  next <= next' -> poll_window o started next' <= poll_window o started next.
Proof.
  intros Hn. unfold poll_window.
  assert ((started + PendingTimeout o - next') / (2 * Second) <=
          (started + PendingTimeout o - next) / (2 * Second)) by (apply Z.div_le_mono; [done|lia]).
  lia.
Qed.

Lemma ends_polled i d claim T w startedAt answer : At i d T w -> claimable claim d T ->
  State d = ImageAccessSubmitted -> SubmissionStartedAt d = Some startedAt ->
  Ends (progress i (left d)) (polled wk claim startedAt answer) w.
Proof.
  intros Hw Hc Hs Hst. pose proof Hc as [Ho (_ & _ & _ & _ & Hpoll & _) Hcount Htd Hdue].
  pose proof (retryBackoff_bounds (PollAttempts (cl_row claim) + 1) (2 * Second) (30 * Second)
    ltac:(by vm_compute) ltac:(by vm_compute)) as Hback.
  assert (30 * Second <= 5 * Minute) as Hmin by done. assert (0 < 2 * Second) as Hpos by done.
  (* rescheduling a poll two seconds after [now] *)
  assert (forall now code wn, At i d now wn -> T <= now ->
    (code <> None -> PollAttempts d + 1 < MaxPollFailures (options wk)) ->
    (code = None -> now < startedAt + PendingTimeout (options wk)) ->
    Ends (progress i (left d))
      (after (retryBackoff (PollAttempts (cl_row claim) + 1) (2 * Second) (30 * Second)) (fun next =>
        schedule claim ImageAccessSubmitted next code
          (fun d => d <| PollAttempts := PollAttempts (cl_row claim) + 1 |>))) wn) as Hagain.
  { intros now code wn Hwn Hn Hfail Hrun.
    eapply ends_schedule; [done|exact Hwn|lia|done|not_in_list|].
    intros next now' Hnext. cbn zeta. match goal with |- timely ?x /\ _ => set (d' := x) end.
    assert (timely d') as Htd' by (eapply still_timely; [done..|]; unfold next_at; cbn; lia).
    split; [exact Htd'|]. rewrite (left_submitted _ d), (left_submitted _ d') by done.
    change (rounds_left (options wk) d') with (rounds_left (options wk) d).
    unfold polls_left. change (SubmissionStartedAt d') with (SubmissionStartedAt d). rewrite Hst.
    change (PollAttempts d') with (PollAttempts (cl_row claim) + 1). rewrite Hpoll.
    change (next_at d') with next. destruct Hcount as (_ & _ & Hp0 & _).
    destruct code as [e|].
    - specialize (Hfail ltac:(done)).
      pose proof (poll_window_mono (options wk) startedAt (next_at d) next). unfold left_of. lia.
    - specialize (Hrun eq_refl).
      pose proof (poll_window_step (options wk) startedAt (next_at d) next). unfold left_of. lia. }
  unfold polled. cbn zeta. destruct answer as [e|st].
  - end_if; [by eapply ends_dead|].
    destruct (Z.leb_spec (MaxPollFailures (options wk)) (PollAttempts (cl_row claim) + 1));
      [by eapply ends_dead|].
    eapply Hagain; [exact Hw|done| |done]. rewrite <- Hpoll. lia.
  - end_if; [by eapply ends_succeed|]. end_if; [by eapply ends_retry; eauto|].
    end_if; [|by eapply ends_dead]. eapply ends_now; [exact Hw|]. intros now w1 Hn Hw1.
    destruct (Z.leb_spec (PendingTimeout (options wk)) (time_Sub now startedAt)) as [|Hrun].
    + eapply ends_retry; [exact Hw1| |by right]. destruct Hc; split; [done..|lia].
    + eapply Hagain; [exact Hw1|done|done|]. intros _. unfold time_Sub, sat64 in Hrun. lia.
Qed.

Lemma ends_processClaim i d claim T w : At i d T w -> claimable claim d T ->
  access_ok d -> State d ∉ closed_states ->
  Ends (progress i (left d)) (processClaim wk claim) w.
Proof.
  intros Hw Hc Hok Hopen. pose proof Hc as [Ho Hsame Hcount Htd Hdue].
  pose proof Hsame as (Hs & _ & _ & Hsub & _ & _ & Hjob & Hstart).
  pose proof (acc_state _ Hok) as Hst. unfold processClaim. rewrite Hs.
  case_bool_decide; [by eapply ends_applyACL|].
  case_bool_decide; [eapply ends_submit; try done; rewrite left_pending by done; lia|].
  case_bool_decide; [by eapply ends_recoverSubmission|].
  case_bool_decide.
  - destruct (acc_submitted _ Hok) as [Hj Ht]; [done|]. unfold poll. rewrite Hjob, Hstart.
    destruct (ProviderJobID d); [|done]. destruct (SubmissionStartedAt d) eqn:E; [|done].
    eapply ends_call; [exact Hw|]. intros n w1 Hw1. by eapply ends_polled.
  - by eapply ends_dead.
Qed.

(** A turn: the row is claimed, handled and rescheduled. *)
Definition turn (d d' : t) : Prop :=
  exists i tok until now claim T w w', let leased_row := leased tok until now d in
    At i leased_row T w /\ claimable claim leased_row T /\ access_ok leased_row /\
    State leased_row ∉ closed_states /\
    processClaim wk claim w = (inr Rescheduled, w') /\ deliveries (w_db w') !! i = Some d'.

Inductive turns : nat -> t -> t -> Prop :=
| turns_none d : turns 0 d d
| turns_more n d d1 d2 : turn d d1 -> turns n d1 d2 -> turns (S n) d d2.

Lemma turn_decreases d d' : turn d d' -> timely d' /\ left d' < left d.
Proof.
  intros (i & tok & until & now & claim & T & w & w' & Hw & Hc & Hok & Hopen & E & Hd').
  destruct (ends_processClaim i _ claim T w Hw Hc Hok Hopen) as (o & w2 & E2 & d2 & Hd2 & Hp).
  rewrite E in E2. injection E2 as <- <-. rewrite Hd' in Hd2. injection Hd2 as <-.
  destruct Hp as (_ & _ & Ht & Hl & _). split; [exact Ht|].
  by change (left (leased tok until now d)) with (left d) in Hl.
Qed.

Lemma turns_left n d d' : turns n d d' -> Z.of_nat n + left d' <= left d.
Proof.
  induction 1 as [|n d d1 d2 Hturn _ IH]; [lia|].
  apply turn_decreases in Hturn as [_ Hl]. lia.
Qed.

Lemma left_nonneg d : 0 <= left d.
Proof.
  pose proof (max_polls_nonneg (options wk)). unfold work_left, rounds_left, round, polls_left,
    poll_window, left_of. repeat case_bool_decide; try case_match; nia.
Qed.

(** C39: every handling of a delivery ends, and makes progress.  Without faults, when
    no other process touches the outbox and the clock does not run backwards, the
    worker's handling of a claimed row that is open and due returns, and leaves the
    row succeeded, or dead-lettered, or released, open, due again within five minutes
    and with strictly less work left, where the work left (attempts, unknown checks,
    polls that fit before the pending timeout) never exceeds a budget fixed by the
    options; whatever the storage and the provider answer. *)
Theorem access_progress i d claim T w :
  At i d T w -> claimable claim d T -> access_ok d -> State d ∉ closed_states ->
  (exists outcome w', processClaim wk claim w = (inr outcome, w') /\
     progress i (left d) outcome w') /\
  0 <= left d <= work_budget (options wk).
Proof.
  intros Hw Hc Hok Hopen. split; [by eapply ends_processClaim|].
  destruct Hc. by apply work_left_bounds.
Qed.

(** C40: deliveries terminate.  Starting from any row the constraints allow, at most
    [work_budget] claim-and-handle turns can leave it open: then it has succeeded or
    is dead-lettered.  With the default options the budget is 1,305 turns. *)
Theorem access_terminates n d d' :
  timely d -> access_ok d -> turns n d d' -> Z.of_nat n <= work_budget (options wk).
Proof.
  intros Ht Hok Hn. apply turns_left in Hn. pose proof (left_nonneg d').
  pose proof (work_left_bounds (options wk) d Ht (acc_counters _ Hok)). lia.
Qed.
End total.

(** ** A claim that is overtaken *)
Section stale.
Context `{Env} `{Pg} `{!Interference DB}.
Context (Hquiet : forall k db, deliveries (others k db) = deliveries db).
Context (wk : Worker) (claim : Claim) (rows : gmap Z t) (i : Z) (d : t).
Context (Hkeyed : keyed ImageAssetID rows) (Hrow : rows !! i = Some d).
Context (Hid : ImageAssetID (cl_row claim) = i) (Hgen : Generation (cl_row claim) < Generation d).

(** At most the lease is gone. *)
Definition at_most_released (db : DB) : Prop :=
  deliveries db = rows \/ exists now, deliveries db = <[i := released now d]> rows.

Definition overtaken (o : Outcome) : Prop := o = Superseded \/ exists e, o = Unreleased e.

Definition Stale (m : M (World DB (list Call)) Outcome) : Prop :=
  TripleW (fun db => deliveries db = rows) m
    (fun o db => overtaken o /\ at_most_released db) at_most_released.

Lemma not_owned k r : rows !! k = Some r -> owned_row claim r = false.
Proof.
  intros Hr. destruct (owned_row claim r) eqn:Ho; [|done]. unfold owned_row in Ho.
  rewrite !andb_true_iff, !bool_decide_eq_true in Ho. destruct Ho as [[Hi Hg] _].
  rewrite (Hkeyed _ _ Hr), Hid in Hi. subst k. rewrite Hrow in Hr. injection Hr as <-. lia.
Qed.

Lemma stale_updateOutcome : Stale (updateOutcome claim).
Proof.
  eapply (tripleW_bind _ _ (fun _ => at_most_released));
    [|intros [e|[]]; apply tripleW_mret; intros db Hdb; (split; [|done]); [right; eauto|by left]].
  apply tripleW_attempt_any.
  apply tripleW_InTx; [intros k db; by rewrite Hquiet|by left|].
  intros tx [] tx' E Hb Hr. unfold ReleaseSuperseded in E. run_inv_step. run_inv_step.
  run_inv_step. run_inv_step. apply update_deliveries_inr in E1 as (Hb' & _ & ->).
  destruct_and?. split; [congruence|].
  match goal with H : tx_db _ = tx_db tx |- _ => rewrite H end. rewrite Hr.
  set (p := leased_by _ _).
  destruct (p d) eqn:Hp.
  - right. eexists. cbn [image_access_deliveries set_field]. subst.
    apply (update_one ImageAssetID _ p _ (ImageAssetID (cl_row claim)) d); try done.
    intros r Hr'. unfold p, leased_by in Hr'. rewrite andb_true_iff, !bool_decide_eq_true in Hr'.
    by destruct Hr'.
  - left. apply none_update. intros k r Hr'. destruct (p r) eqn:Hpr; [|done].
    pose proof Hpr as Hi. unfold p, leased_by in Hi.
    rewrite andb_true_iff, !bool_decide_eq_true in Hi. destruct Hi as [Hi _].
    rewrite (Hkeyed _ _ Hr'), Hid in Hi. subst k. congruence.
Qed.

Lemma stale_updating f next : Stale (updating claim f next).
Proof.
  eapply (tripleW_bind _ _ (fun b db => b = false /\ deliveries db = rows)).
  - apply tripleW_InTx; [intros k db; by rewrite Hquiet|by left|].
    intros tx b tx' E Hb Hr. apply mbind_inr in E as (n & tx1 & E & [= <- <-]).
    apply update_deliveries_inr in E as (Hb' & -> & ->). split; [congruence|].
    rewrite Hr. cbn [image_access_deliveries set_field]. rewrite (proj2 (update_where_zero _ _ _)) by apply not_owned.
    split; [done|]. apply none_update, not_owned.
  - intros []; [by intros w r w' E []|]. eapply tripleW_conseq; [apply stale_updateOutcome|by intros db []|done..].
Qed.

Lemma stale_read {R} (m : M (World DB (list Call)) R) k :
  (forall w r w', m w = (r, w') -> w_db w' = w_db w) ->
  (forall a, Stale (k a)) -> Stale (mbind m k).
Proof.
  intros Hm Hk. eapply (tripleW_bind _ _ (fun _ db => deliveries db = rows)); [|exact Hk].
  apply tripleW_same; [done|]. by left.
Qed.

Ltac solve_stale :=
  repeat match goal with
  | |- Stale (updating _ _ _) => apply stale_updating
  | |- Stale (mbind NowW _) => apply stale_read; [apply NowW_same|intros ?]
  | |- Stale (mbind (call _ _) _) => apply stale_read; [apply call_same|intros ?]
  | |- Stale (if ?b then _ else _) => destruct b
  | |- Stale (match ?x with _ => _ end) => destruct x
  | |- Stale (dead _ _) => unfold dead
  | |- Stale (succeed _) => unfold succeed
  | |- Stale (after _ _) => unfold after
  | |- Stale (schedule _ _ _ _ _) => unfold schedule
  | |- Stale (let _ := _ in _) => cbn zeta
  end.

Lemma stale_retrySubmission code : Stale (retrySubmission wk claim code).
Proof. unfold retrySubmission. solve_stale. Qed.
Lemma stale_scheduleUnknown code : Stale (scheduleUnknown wk claim code).
Proof. unfold scheduleUnknown. solve_stale. Qed.
Lemma stale_recovered startedAt recovery : Stale (recovered wk claim startedAt recovery).
Proof.
  unfold recovered, unresolved. solve_stale;
    first [apply stale_retrySubmission | apply stale_scheduleUnknown].
Qed.
Lemma stale_polled startedAt answer : Stale (polled wk claim startedAt answer).
Proof. unfold polled. solve_stale; apply stale_retrySubmission. Qed.

Lemma stale_processClaim : Stale (processClaim wk claim).
Proof.
  unfold processClaim, applyACL, submit, recoverSubmission, poll. solve_stale;
    first [apply stale_scheduleUnknown | apply stale_recovered | apply stale_polled].
Qed.
End stale.

(** C38: the newest intent wins.  When a verdict enqueues an intent for an image while
    the worker still holds an older claim on its row, the row becomes the new intent's
    (its visibility, a new generation, a fresh [pending_acl] state with all counters
    at zero), and handling the old claim, whatever the storage and the provider answer
    and whatever statement fails, ends superseded or with an error and writes nothing
    but the end of its own lease: the row it leaves is the new intent's, at most
    released, and no other delivery changes. *)
Theorem newer_intent_wins `{Env} `{Pg} `{!Interference DB} (wk : Worker) (claim : Claim)
    intentID source public purge now (db0 db : DB) (d : t) (w w' : World DB (list Call)) r :
  let i := ImageAssetID (cl_row claim) in
  (forall k db, deliveries (others k db) = deliveries db) ->
  keyed ImageAssetID (deliveries db0) -> deliveries db0 !! i = Some d ->
  Generation (cl_row claim) <= Generation d ->
  enqueue intentID i source public purge now db0 = inr (1, db) ->
  w_db w = db -> processClaim wk claim w = (r, w') ->
  let d' := next_generation intentID public purge now d in
  (r = inr Superseded \/ exists e, r = inr (Unreleased e) \/ r = inl e) /\
  (deliveries (w_db w') = <[i := d']> (deliveries db0) \/
   exists now', deliveries (w_db w') = <[i := released now' d']> (deliveries db0)).
Proof.
  intros i Hquiet Hk Hd Hg Henq Hw E d'. unfold enqueue in Henq.
  destruct (has_intent source db0); [discriminate Henq|].
  destruct (negb _); [discriminate Henq|]. injection Henq as <-.
  rewrite Hd in Hw. set (rows := <[i := d']> (deliveries db0)).
  assert (deliveries (w_db w) = rows) as Hrows by by rewrite Hw.
  assert (keyed ImageAssetID rows) as Hkeyed by (apply keyed_insert; [done|exact (Hk _ _ Hd)]).
  assert (rows !! i = Some d') as Hrow by apply lookup_insert_eq.
  assert (Generation (cl_row claim) < Generation d') as Hgen by (cbn; lia).
  pose proof (stale_processClaim Hquiet wk claim rows i d' Hkeyed Hrow eq_refl Hgen _ _ _ E Hrows)
    as Hend. clear E. unfold at_most_released in Hend.
  assert (forall now', <[i := released now' d']> rows =
    <[i := released now' d']> (deliveries db0)) as Hins by (intros; apply insert_insert_eq).
  destruct r as [e|o].
  - split; [right; exists e; by right|]. destruct Hend as [?|[n Hn]]; [by left|right].
    exists n. by rewrite Hn.
  - destruct Hend as [Ho Hend].
    split; [destruct Ho as [->|[e ->]]; [by left|right; exists e; by left]|]. destruct Hend as [?|[n Hn]]; [by left|right].
    exists n. by rewrite Hn.
Qed.
