(* ===== verification/Notifications.v ===== *)
(** * Notifications: [repository/notification.go], [service/notification.go],
    [handler/notification.go], [router/notification.go]

    The recipient's list behind a sealed cursor, the unread count, and the two ways
    to mark as read. *)

From S2P Require Import Prelude.
From S2P Require Import GoText.
From S2P Require Import Apierr.
From S2P Require Import Effects.
From S2P Require Import Logic.
From S2P Require Import Model.
From S2P Require Import Authz.
From S2P Require Import Middleware.
From S2P Require Import Validation.
From S2P Require Import Digest.
From S2P Require Import Pagination.
From S2P Require Import AuthRepo.
From S2P Require Import AuthService.
From S2P Require Import AuthHandler.
Open Scope Z_scope.

(** ** NotificationRepository *)
Module NotificationRepository.
Record Filter := mkFilter { IsRead : option bool; Type_ : option string }.

Record NotificationRecord := mkRecord {
  row : Notification.t;
  SenderName : string;
  SenderAvatarURL : option string;
  SenderDeletedAt : option time;
  CommentPostID : option Z;
}.

(** The joins of [FindPage]: a row without its sender is dropped, the avatar and
    the comment are optional. *)
Definition record_of (db : DB) (n : Notification.t) : option NotificationRecord :=
  sender ← users db !! Notification.SenderID n;
  Some (mkRecord n (User.Username sender)
    (id ← User.AvatarImageAssetID sender; ImageAsset.PublicURL <$> image_assets db !! id)
    (User.DeletedAt sender)
    (id ← Notification.RelatedCommentID n; Comment.PostID <$> comments db !! id)).

(** The sort key, and the row comparison [(a, b) < (c, d)] of SQL. *)
Definition key (n : Notification.t) : Z * Z :=
  (Notification.CreatedAt n, Notification.ID n).
Definition key_lt (a b : Z * Z) : bool :=
  (fst a <? fst b) || (fst a =? fst b) && (snd a <? snd b).

(** [ORDER BY n.created_at DESC, n.id DESC]. *)
Definition newest_first (a b : NotificationRecord) : bool :=
  negb (key_lt (key (row a)) (key (row b))).

Definition selected (recipientID : Z) (filter : Filter) (n : Notification.t) : bool :=
  (Notification.RecipientID n =? recipientID) &&
  match IsRead filter with
  | Some b => Bool.eqb (Notification.IsRead n) b
  | None => true
  end &&
  match Type_ filter with
  | Some t => bool_decide (Notification.Type_ n = t)
  | None => true
  end.

Definition after_cursor (after : option Cursor.t) (n : Notification.t) : bool :=
  match after with
  | Some c => key_lt (key n) (Cursor.CreatedAt c, Cursor.ID c)
  | None => true
  end.

(** [SELECT ... WHERE ... ORDER BY ...] before its [LIMIT]. *)
Definition found (recipientID : Z) (filter : Filter) (after : option Cursor.t) (db : DB)
    : list NotificationRecord :=
  sort_by newest_first
    (omap (record_of db)
       (select (fun n => selected recipientID filter n && after_cursor after n)
          (notifications db))).

Section ops.
Context `{Env}.

(** GORM fills the identity and the two timestamps. *)
Definition Create (notification : Notification.t) : MT unit :=
  let* now := Now in
  let* id := NextID in
  stmt (fun db =>
    match insert_row "notifications_pkey" id
            (notification <| Notification.ID := id |> <| Notification.CreatedAt := now |>
                          <| Notification.UpdatedAt := now |>) (notifications db) with
    | inl err => inl err
    | inr t => inr (tt, db <| notifications := t |>)
    end).

Definition FindPage (recipientID : Z) (filter : Filter) (params : CursorParams)
    : MT (list NotificationRecord * bool) :=
  let* rows := query (fun db =>
    firstn (Z.to_nat (cp_Limit params + 1)) (found recipientID filter (After params) db)) in
  let hasMore := cp_Limit params <? Z.of_nat (length rows) in
  mret (if hasMore then firstn (Z.to_nat (cp_Limit params)) rows else rows, hasMore).

Definition unread (recipientID : Z) (n : Notification.t) : bool :=
  (Notification.RecipientID n =? recipientID) && negb (Notification.IsRead n).

Definition UnreadCount (recipientID : Z) : MT Z :=
  query (fun db => Z.of_nat (length (select (unread recipientID) (notifications db)))).

Definition mark (now : time) (n : Notification.t) : Notification.t :=
  n <| Notification.IsRead := true |> <| Notification.UpdatedAt := now |>.

(** [UPDATE notifications SET is_read = true, updated_at = now WHERE p]. *)
Definition mark_where (p : Notification.t -> bool) : MT Z :=
  let* now := Now in
  stmt (fun db =>
    let '(n, t) := update_where p (mark now) (notifications db) in
    inr (n, db <| notifications := t |>)).

Definition owned (notificationID recipientID : Z) (n : Notification.t) : bool :=
  (Notification.ID n =? notificationID) && (Notification.RecipientID n =? recipientID).

Definition MarkRead (notificationID recipientID : Z) : MT bool :=
  let* n := mark_where (owned notificationID recipientID) in mret (n =? 1).

Definition MarkAllRead (recipientID : Z) : MT Z := mark_where (unread recipientID).
End ops.
End NotificationRepository.

(** ** NotificationService *)
Module NotificationService.
Import NotificationRepository.

Record ListInput := mkListInput {
  li_IsRead : option bool;
  li_Type : string;
  li_Pagination : CursorRequest;
}.

Record Sender := mkSender { s_ID : Z; s_Username : string; s_AvatarURL : option string }.

Record Item := mkItem {
  i_ID : Z;
  i_Type : string;
  i_Sender : Sender;
  RelatedID : option Z;
  RelatedType : option string;
  PostID : option Z;
  i_Content : option string;
  i_IsRead : bool;
  i_CreatedAt : time;
}.

Record NotificationList := mkNotificationList {
  Notifications : list Item;
  Pagination_ : CursorMeta;
  UnreadCount_ : Z;
}.

Definition buildNotificationItem (record : NotificationRecord) : Item :=
  let n := row record in
  let '(name, avatarURL) :=
    match SenderDeletedAt record with
    | Some _ => ("已注销用户"%string, None)
    | None => (SenderName record, SenderAvatarURL record)
    end in
  let '(relatedID, relatedType, postID) :=
    match Notification.RelatedPostID n, Notification.RelatedCommentID n with
    | Some p, _ => (Some p, Some "post"%string, Some p)
    | None, Some c => (Some c, Some "comment"%string, CommentPostID record)
    | None, None => (None, None, None)
    end in
  mkItem (Notification.ID n) (Notification.Type_ n)
    (mkSender (Notification.SenderID n) name avatarURL) relatedID relatedType postID
    (Notification.Content n) (Notification.IsRead n) (Notification.CreatedAt n).

Definition notificationTypes : list string :=
  [NotificationTypeLikePost; NotificationTypeLikeComment; NotificationTypeComment;
   NotificationTypeReply; NotificationTypeMention; NotificationTypeFollow].

Definition parseNotificationType (raw : string) : goerr + option string :=
  if bool_decide (raw = ""%string) then inr None
  else if bool_decide (raw ∈ notificationTypes) then inr (Some raw)
  else inl (EApi (InvalidField "type" FieldInvalidEnum "type 取值不合法")).

Definition NewCodec (cursorSecret : string) : CursorCodec :=
  NewCursorCodec cursorSecret "notifications".

Section ops.
Context `{Env} (codec : CursorCodec).

Definition cursorMeta (rows : list NotificationRecord) (limit : Z) (hasMore : bool)
    : MT CursorMeta :=
  match last rows with
  | Some last_ =>
      if hasMore then
        let* token := on_error
          (Encode codec (Cursor.mk (Notification.CreatedAt (row last_))
             (Notification.ID (row last_)) None)) internal in
        mret (mkCursorMeta limit (Some token) hasMore)
      else mret (mkCursorMeta limit None hasMore)
  | None => mret (mkCursorMeta limit None hasMore)
  end.

Definition List_ (recipientID : Z) (input : ListInput) : MT NotificationList :=
  let* typeFilter := lift (parseNotificationType (li_Type input)) in
  let* params := lift (DecodeRequest codec (li_Pagination input)) in
  let* page := on_error
    (FindPage recipientID (mkFilter (li_IsRead input) typeFilter) params) internal in
  let* meta := cursorMeta (fst page) (cp_Limit params) (snd page) in
  let* unread := on_error (UnreadCount recipientID) internal in
  mret (mkNotificationList (map buildNotificationItem (fst page)) meta unread).

Definition UnreadCount (recipientID : Z) : MT Z :=
  on_error (UnreadCount recipientID) internal.

Definition MarkRead (notificationID recipientID : Z) : MT unit :=
  let* found := on_error (MarkRead notificationID recipientID) internal in
  if found then mret tt else api_error (NotFound BizNotificationNotFound "通知").

Definition MarkAllRead (recipientID : Z) : MT Z :=
  on_error (MarkAllRead recipientID) internal.
End ops.
End NotificationService.

(** ** The endpoints *)
Module NotificationHandler.
Import NotificationService.

(** The payloads of the four answers. *)
Inductive Payload :=
| PNone
| PList (l : NotificationList)
| PUnread (count : Z)
| PMarked (count : Z).

(** The query string of [GET /notifications], as [bindQuery] reads it. *)
Record ListQuery := mkListQuery {
  q_IsRead : string;
  q_Type : string;
  q_Cursor : string;
  q_Limit : string;
}.

Inductive NotificationRequest :=
| GET_notifications (q : ListQuery)
| GET_unread_count
| PUT_read_all
| PUT_read (notification_id : string).

Section handlers.
Context `{Env} `{Pg} `{Unicode} `{JWT}.

Definition optionalBoolField (raw field : string) : goerr + option bool :=
  if bool_decide (raw = ""%string) then inr None
  else
    let raw := ToLower raw in
    if bool_decide (raw = "true"%string) then inr (Some true)
    else if bool_decide (raw = "false"%string) then inr (Some false)
    else inl (EApi (InvalidField field FieldInvalidFormat
                (field +:+ " 只能是 true 或 false"))).

Definition optionalBool (raw : string) : goerr + option bool :=
  optionalBoolField raw "is_read".

Context (h : AuthService) (codec : CursorCodec).

(** The first error wins, in the order: principal, cursor parameters, [is_read]. *)
Definition ListHandler (q : ListQuery) : HandlerT Payload :=
  with_principal (fun principal =>
    let* params := lift (ParseCursorRequest (q_Cursor q) (q_Limit q)) in
    let* isRead := lift (optionalBool (q_IsRead q)) in
    List_ codec (User.ID (pr_User principal)) (mkListInput isRead (q_Type q) params))
    "请求成功" PList.

Definition UnreadCountHandler : HandlerT Payload :=
  with_principal (fun p => UnreadCount (User.ID (pr_User p))) "请求成功" PUnread.

Definition MarkReadHandler (notification_id : string) : HandlerT Payload := fun c tx =>
  let invalid := EApi (InvalidField "notification_id" FieldInvalidFormat
    "notification_id 必须是正整数") in
  match ParseUint notification_id with
  | Some notificationID =>
      if notificationID =? 0 then Returned (Fail (Some invalid) c) tx
      else with_principal (fun p => MarkRead notificationID (User.ID (pr_User p)))
             "标记成功" (fun _ => PNone) c tx
  | None => Returned (Fail (Some invalid) c) tx
  end.

Definition MarkAllReadHandler : HandlerT Payload :=
  with_principal (fun p => MarkAllRead (User.ID (pr_User p))) "全部标记成功" PMarked.

(** [registerNotification]: every route is behind [RequireAuth]. *)
Definition route_notification (authorization : string) (r : NotificationRequest)
    : HandlerT Payload :=
  RequireAuth (Authenticate h) authorization
    match r with
    | GET_notifications q => ListHandler q
    | GET_unread_count => UnreadCountHandler
    | PUT_read_all => MarkAllReadHandler
    | PUT_read id => MarkReadHandler id
    end.
End handlers.
End NotificationHandler.
