(* ===== verification/NotificationProps.v ===== *)
(** * Notifications: what the list and the marks guarantee *)

From S2P Require Import Prelude.
From S2P Require Import GoText.
From S2P Require Import Apierr.
From S2P Require Import Effects.
From S2P Require Import Logic.
From S2P Require Import Model.
From S2P Require Import Authz.
From S2P Require Import Middleware.
From S2P Require Import Digest.
From S2P Require Import Sealed.
From S2P Require Import Pagination.
From S2P Require Import AuthRepo.
From S2P Require Import AuthService.
From S2P Require Import AuthHandler.
From S2P Require Import Notifications.
Import NotificationRepository.
Import NotificationService.
Open Scope Z_scope.

(** ** The order of the list *)
Section order.
Implicit Types (x y : NotificationRecord).

Lemma key_lt_spec a b :
  key_lt a b = true <-> fst a < fst b \/ fst a = fst b /\ snd a < snd b.
Proof. unfold key_lt. rewrite orb_true_iff, andb_true_iff. lia. Qed.

Lemma newest_first_spec x y :
  newest_first x y = true <-> ~ (key_lt (key (row x)) (key (row y)) = true).
Proof. unfold newest_first. rewrite negb_true_iff. by destruct (key_lt _ _). Qed.

Lemma newest_first_total x y : newest_first x y = true \/ newest_first y x = true.
Proof. rewrite !newest_first_spec, !key_lt_spec. lia. Qed.

Lemma newest_first_trans x y z :
  newest_first x y = true -> newest_first y z = true -> newest_first x z = true.
Proof. rewrite !newest_first_spec, !key_lt_spec. lia. Qed.

(** Strictly newer, in a list whose keys differ. *)
Definition newer x y : Prop := key_lt (key (row y)) (key (row x)) = true.

Lemma strictly_sorted l :
  StronglySorted (fun a b => newest_first a b = true) l -> NoDup l ->
  (forall x y, x ∈ l -> y ∈ l -> key (row x) = key (row y) -> x = y) ->
  StronglySorted newer l.
Proof.
  induction 1 as [|x l Hl IH Hx]; intros Hn Hk; constructor; apply NoDup_cons in Hn as [Hxl Hn].
  - apply IH; [done|]. intros. apply Hk; by try right.
  - rewrite Forall_forall in Hx |- *. intros y Hy. specialize (Hx y Hy).
    rewrite newest_first_spec, key_lt_spec in Hx. unfold newer. rewrite key_lt_spec.
    destruct (decide (key (row x) = key (row y))) as [E|E].
    + apply Hk in E as ->; [done|by left|by right].
    + destruct (key (row x)) as [a b], (key (row y)) as [c d]; cbn in *.
      assert (a <> c \/ b <> d) by (destruct (decide (a = c)), (decide (b = d)); naive_solver).
      lia.
Qed.

(** The records behind one of a strictly sorted list are those with a smaller key. *)
Lemma filter_behind s x rest :
  StronglySorted newer (s ++ x :: rest) ->
  filter (fun y => key_lt (key (row y)) (key (row x)) = true) (s ++ x :: rest) = rest.
Proof.
  intros Hs. rewrite filter_app, filter_cons_False by (rewrite key_lt_spec; lia).
  replace (filter _ s) with (@nil NotificationRecord).
  - cbn. apply sorted_suffix in Hs. apply StronglySorted_inv in Hs as [_ Hr].
    induction Hr as [|y l Hy _ IH]; [done|]. rewrite filter_cons_True by done. by rewrite IH.
  - symmetry. induction s as [|y s IH]; [done|]. cbn in Hs.
    apply StronglySorted_inv in Hs as [Hs Hy]. rewrite filter_cons_False; [by apply IH|].
    apply Forall_app in Hy as [_ [Hy _]%Forall_cons]. unfold newer in Hy.
    rewrite key_lt_spec in *. lia.
Qed.
End order.

(** ** The query *)
Section query.
Context (recipientID : Z) (filter_ : Filter).

Lemma record_of_row db n x : record_of db n = Some x -> row x = n.
Proof. unfold record_of. destruct (users db !! _); [|done]. by intros [= <-]. Qed.

Lemma omap_select db (p q : Notification.t -> bool) t :
  omap (record_of db) (select (fun n => p n && q n) t) =
  filter (fun x => q (row x) = true) (omap (record_of db) (select p t)).
Proof.
  unfold select. induction (map snd (rows t)) as [|n l IH]; [done|].
  rewrite !filter_cons. destruct (p n); cbn.
  - destruct (q n) eqn:Hq; repeat case_decide; try done; cbn.
    all: destruct (record_of db n) as [x|] eqn:Hx; [|done].
    all: rewrite filter_cons, (record_of_row _ _ _ Hx), Hq, IH; by case_decide.
  - repeat case_decide; done.
Qed.

(** [WHERE] may as well select after [ORDER BY]. *)
Lemma found_after c db :
  found recipientID filter_ (Some c) db =
  filter (fun x => key_lt (key (row x)) (Cursor.CreatedAt c, Cursor.ID c) = true)
    (found recipientID filter_ None db).
Proof.
  unfold found. rewrite filter_sort_by
    by eauto using newest_first_total, newest_first_trans.
  rewrite <- (omap_select db _ (fun n => key_lt (key n) (Cursor.CreatedAt c, Cursor.ID c))).
  do 2 f_equal. unfold select. apply list_filter_iff. intros n. cbn [after_cursor].
  by rewrite andb_true_r.
Qed.

Lemma elem_of_found db x :
  x ∈ found recipientID filter_ None db ->
  exists k, notifications db !! k = Some (row x) /\ record_of db (row x) = Some x.
Proof.
  unfold found. rewrite elem_of_sort_by, list_elem_of_omap.
  intros (n & Hn & Hx). pose proof (record_of_row _ _ _ Hx) as <-.
  apply elem_of_select in Hn as [_ [k Hk]]. eauto.
Qed.

Lemma found_sorted db : keyed Notification.ID (notifications db) ->
  StronglySorted newer (found recipientID filter_ None db).
Proof.
  intros Hk. apply strictly_sorted.
  - apply sort_by_sorted; eauto using newest_first_total, newest_first_trans.
  - apply NoDup_sort_by. pose proof (NoDup_ids Notification.ID (notifications db)
      (fun n => selected recipientID filter_ n && after_cursor None n) Hk) as Hn.
    revert Hn. induction (select _ _) as [|n l IH]; cbn; [constructor|].
    intros [Hn Hl]%NoDup_cons. destruct (record_of db n) as [x|] eqn:Hx; [|by apply IH].
    apply NoDup_cons. split; [|by apply IH]. intros (m & Hm & Hmx)%list_elem_of_omap.
    apply Hn. apply list_elem_of_fmap. exists m. split; [|done].
    by rewrite <- (record_of_row _ _ _ Hx), (record_of_row _ _ _ Hmx).
  - intros x y (kx & Hx & Hrx)%elem_of_found (ky & Hy & Hry)%elem_of_found E.
    assert (kx = ky) as ->.
    { rewrite <- (Hk _ _ Hx), <- (Hk _ _ Hy). by injection E. }
    congruence.
Qed.
End query.

(** ** One page *)
Definition cursor_of (x : NotificationRecord) : Cursor.t :=
  Cursor.mk (Notification.CreatedAt (row x)) (Notification.ID (row x)) None.

(** The text of a request: filters, limit, token. *)
Definition list_input (isRead : option bool) (typ : string) (limit : Z) (token : string)
    : ListInput := mkListInput isRead typ (mkCursorRequest token limit).

Section pages.
Context `{Env} `{!EnvOk} `{!Reliable} (codec : CursorCodec).

Lemma Encode_runs value (tx : TxD) : storable value ->
  exists token, Encode codec value tx = (inr token, set_ctr (fun c => c <| c_rand := S (c_rand c) |>) tx)
    /\ Decode codec token = inr (Some value).
Proof.
  intros Hv. destruct (reliable_rand (c_rand (tx_ctr tx)) GCM.nonceSize) as [nonce Hn].
  exists (seal_cursor codec value nonce). split.
  - unfold Encode. destruct Hv as [Hz _ _ Hi _].
    rewrite (proj2 (Z.eqb_neq _ _) Hz), (proj2 (Z.eqb_neq (Cursor.ID value) 0)) by lia.
    cbn [orb]. erewrite mbind_run by reflexivity. by rewrite Hn.
  - apply Decode_seal_cursor; [done|]. by eapply rand_length.
Qed.

(** The meta data and the page of a healthy request. *)
Record page_of (recipientID : Z) (filter_ : Filter) (after : option Cursor.t) (limit : Z)
    (db : DB) (l : NotificationList) : Prop := {
  page_items : Notifications l = map buildNotificationItem
    (firstn (Z.to_nat limit) (found recipientID filter_ after db));
  page_more : HasMore (Pagination_ l) =
    (limit <? Z.of_nat (length (found recipientID filter_ after db)));
  page_limit : cm_Limit (Pagination_ l) = limit;
  page_next : match NextCursor (Pagination_ l) with
    | Some token => HasMore (Pagination_ l) = true /\ exists x,
        last (firstn (Z.to_nat limit) (found recipientID filter_ after db)) = Some x /\
        Decode codec token = inr (Some (cursor_of x))
    | None => HasMore (Pagination_ l) = false
    end;
  page_unread : UnreadCount_ l =
    Z.of_nat (length (select (unread recipientID) (notifications db)));
}.

Lemma cursorMeta_runs (rows : list NotificationRecord) limit (more : bool) (tx : TxD) :
  (forall x, x ∈ rows -> storable (cursor_of x)) -> (more = true -> rows <> []) ->
  exists meta tx', cursorMeta codec rows limit more tx = (inr meta, tx') /\
    tx_db tx' = tx_db tx /\ tx_aborted tx' = tx_aborted tx /\
    HasMore meta = more /\ cm_Limit meta = limit /\
    match NextCursor meta with
    | Some token => more = true /\ exists x, last rows = Some x /\
        Decode codec token = inr (Some (cursor_of x))
    | None => more = false
    end.
Proof.
  intros Hs Hm. unfold cursorMeta. destruct (last rows) as [x|] eqn:Hl.
  - destruct more; [|by do 2 eexists].
    assert (storable (cursor_of x)) as Hx by (apply Hs; by eapply last_Some_elem_of).
    destruct (Encode_runs _ tx Hx) as (token & He & Hd).
    erewrite mbind_run by by apply on_error_run. do 2 eexists. split; [reflexivity|].
    cbn. eauto 10.
  - apply last_None in Hl as ->. destruct more; [by destruct Hm|]. by do 2 eexists.
Qed.

Lemma List_runs recipientID isRead typ tf token after limit (tx : TxD) :
  tx_aborted tx = false -> parseNotificationType typ = inr tf ->
  Decode codec token = inr after -> 1 <= limit ->
  (forall x, x ∈ found recipientID (mkFilter isRead tf) after (tx_db tx) ->
     storable (cursor_of x)) ->
  exists l tx', List_ codec recipientID (list_input isRead typ limit token) tx = (inr l, tx') /\
    tx_db tx' = tx_db tx /\
    page_of recipientID (mkFilter isRead tf) after limit (tx_db tx) l.
Proof.
  intros Ha Ht Hd Hl Hs. unfold List_, list_input; cbn [li_Type li_Pagination li_IsRead].
  erewrite mbind_run by (unfold lift; by rewrite Ht).
  erewrite mbind_run by (unfold lift, DecodeRequest; cbn [Token]; by rewrite Hd).
  set (rows := found recipientID (mkFilter isRead tf) after (tx_db tx)) in *.
  set (k := Z.to_nat limit). assert (Z.of_nat k = limit) as Hk by (unfold k; lia).
  erewrite mbind_run.
  2:{ apply on_error_run. unfold FindPage. erewrite mbind_run by by apply query_ok. reflexivity. }
  cbn [fst snd After cp_Limit cr_Limit]. fold rows.
  replace (Z.to_nat (limit + 1)) with (S k) by lia. rewrite length_take.
  assert ((limit <? Z.of_nat (S k `min` length rows)) = (limit <? Z.of_nat (length rows))) as ->
    by (apply eq_iff_eq_true; rewrite !Z.ltb_lt; lia).
  fold k. set (page := if limit <? Z.of_nat (length rows) then _ else _).
  assert (page = firstn k rows) as Hp.
  { unfold page. destruct (limit <? Z.of_nat (length rows)) eqn:E.
    - rewrite take_take. f_equal. lia.
    - rewrite !take_ge by lia. done. }
  clearbody page. subst page.
  set (more := limit <? Z.of_nat (length rows)).
  set (tx1 := set_ctr stmt_ctr tx <| tx_db := tx_db tx |>).
  destruct (cursorMeta_runs (firstn k rows) limit more tx1)
    as (meta & tx2 & Hrun & Hdb & Hab & Hmore & Hlim & Hnext).
  { intros x Hx. apply elem_of_take in Hx as (i & Hi & _). apply Hs. by eapply list_elem_of_lookup_2. }
  { unfold more. intros Hm E. apply (f_equal length) in E. rewrite length_take in E. cbn in E. lia. }
  erewrite mbind_run by apply Hrun.
  erewrite mbind_run by (apply on_error_run, query_ok; by rewrite Hab).
  do 2 eexists. split; [reflexivity|]. split; [by cbn; rewrite Hdb|].
  constructor; cbn [Notifications Pagination_ UnreadCount_]; try done.
  - by rewrite Hmore.
  - by rewrite Hdb.
Qed.

(** ** Following the cursors *)
(** A client that follows [next_cursor], each request in a transaction of its own;
    [None] when the transactions run out or a request fails. *)
Fixpoint follow (recipientID : Z) (isRead : option bool) (typ : string) (limit : Z)
    (token : string) (txs : list TxD) : option (list Item) :=
  match txs with
  | [] => None
  | tx :: txs' =>
      match List_ codec recipientID (list_input isRead typ limit token) tx with
      | (inr l, _) =>
          match NextCursor (Pagination_ l) with
          | Some next =>
              app (Notifications l) <$> follow recipientID isRead typ limit next txs'
          | None => Some (Notifications l)
          end
      | (inl _, _) => None
      end
  end.

(** What the walk needs of the transactions between two requests: rows as old as
    the newest one of [all] stay as they are (newer ones may arrive). *)
Definition settled (recipientID : Z) (filter_ : Filter) (all : list NotificationRecord)
    (db : DB) : Prop :=
  match all with
  | [] => True
  | newest :: _ =>
      filter (fun x => key_lt (key (row newest)) (key (row x)) = false)
        (found recipientID filter_ None db) = all
  end.

Lemma found_behind recipientID filter_ s x rest db :
  StronglySorted newer (s ++ x :: rest) ->
  settled recipientID filter_ (s ++ x :: rest) db ->
  found recipientID filter_ (Some (cursor_of x)) db = rest.
Proof.
  intros Hs Hset. rewrite found_after. change (Cursor.CreatedAt _, _) with (key (row x)).
  rewrite <- (filter_behind s x rest Hs).
  destruct (s ++ x :: rest) as [|newest all] eqn:E; [by destruct s|].
  cbn [settled] in Hset. rewrite <- Hset, list_filter_filter_l; [done|].
  intros y Hy. rewrite <- not_true_iff_false, key_lt_spec in *.
  assert (key_lt (key (row newest)) (key (row x)) <> true) as Hn.
  { assert (x ∈ newest :: all) as Hx by (rewrite <- E; set_solver).
    apply StronglySorted_inv in Hs as [_ Hs]. rewrite Forall_forall in Hs.
    apply elem_of_cons in Hx as [->|Hx]; [rewrite key_lt_spec; lia|].
    specialize (Hs _ Hx). unfold newer in Hs. rewrite key_lt_spec in *. lia. }
  rewrite key_lt_spec in Hn. lia.
Qed.

Lemma follow_rest recipientID isRead typ tf limit txs : forall token after s rest,
  parseNotificationType typ = inr tf -> 1 <= limit ->
  let filter_ := mkFilter isRead tf in
  let all := s ++ rest in
  Decode codec token = inr after ->
  StronglySorted newer all -> (forall x, x ∈ all -> storable (cursor_of x)) ->
  Forall (fun tx => tx_aborted tx = false /\ settled recipientID filter_ all (tx_db tx)) txs ->
  match txs with
  | tx :: _ => found recipientID filter_ after (tx_db tx) = rest
  | [] => False
  end ->
  Z.of_nat (length rest) <= Z.of_nat (length txs) * limit ->
  follow recipientID isRead typ limit token txs = Some (map buildNotificationItem rest).
Proof.
  induction txs as [|tx txs IH]; intros token after s rest Ht Hl filter_ all Hd Hs Hst Hall
    Hfound Hlen; [done|].
  apply Forall_cons in Hall as [[Ha Hset] Hall]. cbn [follow].
  destruct (List_runs recipientID isRead typ tf token after limit tx)
    as (l & tx' & -> & _ & [Hitems Hmore _ Hnext _]); try done.
  { intros x. fold filter_. rewrite Hfound. intros Hx. apply Hst. unfold all. set_solver. }
  fold filter_ in Hitems, Hmore, Hnext. rewrite Hfound in Hitems, Hmore, Hnext.
  destruct (NextCursor (Pagination_ l)) as [next|].
  - destruct Hnext as (Hm & x & Hlast & Hdec). rewrite Hm in Hmore. symmetry in Hmore.
    apply last_Some in Hlast as [page Hpage].
    set (k := Z.to_nat limit) in *.
    assert (rest = (page ++ [x]) ++ skipn k rest) as Hrest
      by (by rewrite <- Hpage, firstn_skipn).
    assert (all = ((s ++ page) ++ x :: skipn k rest)) as Hsplit
      by (unfold all; rewrite Hrest at 1; by rewrite <- !app_assoc).
    assert (((s ++ page) ++ [x]) ++ skipn k rest = all) as Hall'
      by (rewrite Hsplit, <- !app_assoc; done).
    assert (txs <> []) as Htxs by (intros ->; cbn in Hlen; lia).
    rewrite (IH next (Some (cursor_of x)) ((s ++ page) ++ [x]) (skipn k rest)); try done.
    + cbn. by rewrite Hitems, <- map_app, firstn_skipn.
    + by rewrite Hall'.
    + by rewrite Hall'.
    + by rewrite Hall'.
    + destruct txs as [|tx2 txs]; [done|]. apply Forall_cons in Hall as [[_ Hset2] _].
      rewrite Hsplit in Hset2, Hs. by apply (found_behind _ _ _ _ _ _ Hs Hset2).
    + rewrite length_skipn. cbn [length] in Hlen. lia.
  - rewrite Hnext in Hmore. rewrite Hitems, take_ge by lia. done.
Qed.
End pages.

Lemma filter_everything {A} (P : A -> Prop) `{!forall x, Decision (P x)} l :
  Forall P l -> filter P l = l.
Proof. induction 1; [done|]. rewrite filter_cons_True by done. by f_equal. Qed.

Lemma settled_found recipientID filter_ db :
  keyed Notification.ID (notifications db) ->
  settled recipientID filter_ (found recipientID filter_ None db) db.
Proof.
  intros Hk. pose proof (found_sorted recipientID filter_ db Hk) as Hs. unfold settled.
  destruct (found recipientID filter_ None db) as [|newest l]; [done|].
  apply filter_everything, Forall_cons. apply StronglySorted_inv in Hs as [_ Hs].
  split; [rewrite <- not_true_iff_false, key_lt_spec; lia|].
  eapply Forall_impl; [done|]. intros y Hy. unfold newer in Hy.
  rewrite <- not_true_iff_false, key_lt_spec in *. lia.
Qed.

Section walk.
Context `{Env} `{!EnvOk} `{!Reliable} (codec : CursorCodec).

(** C36: following [next_cursor] reads the whole list, once.  Whatever the filters
    and the limit, a client that starts without a cursor and follows [next_cursor]
    gets every matching notification that was there at its first request, newest
    first, none twice and none skipped, however many newer ones arrive between two
    requests; and [n] notifications take at most [ceil (n / limit)] requests (one
    for the empty list), after which there is no [next_cursor]. *)
Theorem notification_walk recipientID isRead typ tf limit tx txs :
  parseNotificationType typ = inr tf -> 1 <= limit ->
  let filter_ := mkFilter isRead tf in
  let all := found recipientID filter_ None (tx_db tx) in
  keyed Notification.ID (notifications (tx_db tx)) ->
  (forall x, x ∈ all -> storable (cursor_of x)) ->
  tx_aborted tx = false ->
  Forall (fun t => tx_aborted t = false /\ settled recipientID filter_ all (tx_db t)) txs ->
  Z.of_nat (length all) <= Z.of_nat (S (length txs)) * limit ->
  follow codec recipientID isRead typ limit "" (tx :: txs)
  = Some (map buildNotificationItem all).
Proof.
  intros Ht Hl filter_ all Hk Hst Ha Htxs Hlen.
  eapply (follow_rest codec recipientID isRead typ tf limit (tx :: txs) "" None [] all);
    try done.
  - by apply found_sorted.
  - constructor; [|done]. split; [done|]. by apply settled_found.
Qed.
End walk.

(** ** Marks *)
Section marks.
Context `{Env} `{!Reliable}.

Lemma mark_where_runs p (tx : TxD) : tx_aborted tx = false ->
  exists now tx', mark_where p tx = (inr (Z.of_nat (length (select p (notifications (tx_db tx))))), tx') /\
    tx_db tx' = (tx_db tx) <| notifications := (fun n => if p n then mark now n else n)
                              <$> notifications (tx_db tx) |>.
Proof.
  intros Ha. unfold mark_where. do 2 eexists. rewrite mbind_Now.
  erewrite stmt_ok; [|done|reflexivity]. done.
Qed.

(** marking touches one's own notifications only.  [MarkRead] succeeds exactly
    when the notification exists and is the caller's, and then marks that one row;
    somebody else's and a missing one get the same 404 and nothing changes.
    [MarkAllRead] answers how many were unread, and leaves the caller none and
    everybody else's rows as they were. *)
Theorem mark_read_effect id uid (tx : TxD) :
  tx_aborted tx = false -> keyed Notification.ID (notifications (tx_db tx)) ->
  let t := notifications (tx_db tx) in
  (forall n, t !! id = Some n -> Notification.RecipientID n = uid ->
     exists tx' now, NotificationService.MarkRead id uid tx = (inr tt, tx') /\
       tx_db tx' = (tx_db tx) <| notifications := <[id := mark now n]> t |>) /\
  ((forall n, t !! id = Some n -> Notification.RecipientID n <> uid) ->
     exists tx', NotificationService.MarkRead id uid tx
       = (inl (EApi (NotFound BizNotificationNotFound "通知")), tx') /\
       tx_db tx' = tx_db tx) /\
  (exists tx' now, NotificationService.MarkAllRead uid tx
       = (inr (Z.of_nat (length (select (unread uid) t))), tx') /\
     tx_db tx' = (tx_db tx) <| notifications :=
       (fun n => if unread uid n then mark now n else n) <$> t |> /\
     select (unread uid) (notifications (tx_db tx')) = []).
Proof.
  intros Ha Hk t.
  assert (forall n, owned id uid n = true -> Notification.ID n = id) as Hid
    by (unfold owned; intros n [?%Z.eqb_eq _]%andb_prop; done).
  destruct (mark_where_runs (owned id uid) tx Ha) as (now & tx' & Hrun & Hdb).
  unfold NotificationService.MarkRead, NotificationRepository.MarkRead.
  split; [|split].
  - intros n Hn Ho. exists tx', now.
    assert (owned id uid n = true) as Hown by (unfold owned; rewrite (Hk _ _ Hn); lia).
    rewrite (select_one _ _ _ _ _ Hk Hid Hn Hown) in Hrun.
    erewrite mbind_run by (apply on_error_run; erewrite mbind_run by done; reflexivity).
    split; [done|]. rewrite Hdb. f_equal.
    exact (update_one _ _ _ (mark now) _ _ Hk Hid Hn Hown).
  - intros Hn. exists tx'.
    assert (forall k n, t !! k = Some n -> owned id uid n = false) as Hno.
    { intros k n Hkn. destruct (owned id uid n) eqn:Ho; [|done]. exfalso.
      rewrite <- (Hk _ _ Hkn), (Hid _ Ho) in Hkn. apply (Hn _ Hkn).
      unfold owned in Ho. lia. }
    rewrite (select_nil _ (notifications (tx_db tx)) Hno) in Hrun.
    erewrite mbind_run by (apply on_error_run; erewrite mbind_run by done; reflexivity).
    split; [done|]. rewrite Hdb.
    pose proof (none_update _ (mark now) _ Hno) as E. cbn in E.
    fold t. rewrite E. unfold t. by destruct (tx_db tx).
  - destruct (mark_where_runs (unread uid) tx Ha) as (now2 & tx2 & Hrun2 & Hdb2).
    exists tx2, now2. split; [by apply on_error_run|]. split; [done|].
    rewrite Hdb2. apply select_nil. cbn. intros k n (n0 & <- & _)%lookup_fmap_Some.
    destruct (unread uid n0) eqn:Hu; [|done]. unfold unread, mark. cbn. lia.
Qed.
End marks.
