(* ===== verification/Concrete.v ===== *)
(** * A concrete environment

    Instances of every parameter of the model (clock, random source, database
    functions, mail parser, token library, password hashing), with the laws the
    theorems assume of them, and a small deployment of the auth service.  They are
    used only to evaluate the model on examples and to show that the hypotheses of
    the theorems can hold. *)

From stdpp Require Import countable.
From S2P Require Import Prelude.
From S2P Require Import GoText.
From S2P Require Import Apierr.
From S2P Require Import Effects.
From S2P Require Import Logic.
From S2P Require Import Model.
From S2P Require Import Authz.
From S2P Require Import Middleware.
From S2P Require Import Validation.
From S2P Require Import Digest.
From S2P Require Import AuthRepo.
From S2P Require Import AuthService.
From S2P Require Import AuthHandler.
From S2P Require Import AuthTables.
From S2P Require Import AuthCodes.
From S2P Require Import AuthTokens.
From S2P Require Import EmailOutbox.
From S2P Require Import EmailProps.
Open Scope Z_scope.

(** ** Clock, randomness, a database that does not fail *)
Definition start_time : time := 1767225600 * Second.

#[export] Instance env0 : Env := {|
  env_now k := start_time + Z.min (Z.of_nat k) 1000000 * Second;
  env_rand k n := Some (string_of (repeat (Z.of_nat k mod 256) n));
  env_rand_int k m := if 0 <? m then Some (Z.of_nat k mod m) else None;
  env_stmt _ := None;
  env_begin _ := None;
  env_commit _ := None;
|}.

#[export] Instance env0_ok : EnvOk.
Proof.
  split.
  - intros k n b [= <-]. by rewrite length_string_of, repeat_length.
  - intros k m v. cbn. destruct (Z.ltb_spec 0 m); [|done]. intros [= <-].
    by apply Z.mod_pos_bound.
Qed.

#[export] Instance env0_faultless : Faultless.
Proof. by split. Qed.

#[export] Instance env0_reliable : Reliable.
Proof.
  split.
  - apply _.
  - intros k n. by eexists.
  - intros k m Hm. cbn. destruct (Z.ltb_spec 0 m); [by eexists | lia].
Qed.

#[export] Instance env0_clock : ClockOK.
Proof.
  intros k. unfold instant. cbn. unfold start_time, Second, Millisecond, Microsecond. lia.
Qed.

#[export] Instance no_interference : Interference DB := fun _ db => db.

(** ** Text and mail: ASCII *)
#[export] Instance unicode0 : Unicode := {|
  table_IsLetter _ := false;
  table_IsNumber _ := false;
  table_ToLower r := r;
  NFKC_String s := s;
|}.
#[export] Instance mail0 : Mail := {| ParseAddress s := Some s |}.
#[export] Instance pg0 : Pg := {| pg_lower := ToLower; pg_normalize s := s |}.

(** ** Passwords: reversible on purpose *)
#[export] Instance bcrypt0 : Bcrypt := {|
  bcrypt_generate _ p _ := Some ("h:" +:+ p)%string;
  bcrypt_matches h p := bool_decide (h = "h:" +:+ p)%string;
|}.

(** ** Tokens: the claims in binary, unprotected *)
Fixpoint bits_of (p : positive) : string :=
  match p with
  | xH => EmptyString
  | xO p => String "0" (bits_of p)
  | xI p => String "1" (bits_of p)
  end.
Fixpoint of_bits (s : string) : option positive :=
  match s with
  | EmptyString => Some xH
  | String a s =>
      p ← of_bits s;
      if bool_decide (a = "0"%char) then Some (xO p)
      else if bool_decide (a = "1"%char) then Some (xI p) else None
  end.

Lemma of_bits_of p : of_bits (bits_of p) = Some p.
Proof. induction p; cbn; by rewrite ?IHp. Qed.

#[export] Instance claims_eq_dec : EqDecision Claims.
Proof. solve_decision. Defined.
#[export] Instance claims_countable : Countable Claims.
Proof.
  refine (inj_countable'
    (fun c => (Subject c, IssuedAt c, ExpiresAt c, cl_Type c, SessionID c))
    (fun '(a, b, c, d, e) => mkClaims a b c d e) _).
  by intros [].
Defined.

Definition token_of (c : Claims) : string := String "e" (bits_of (encode c)).
Definition of_token (s : string) : option Claims :=
  match s with
  | String _ bits =>
      p ← of_bits bits; c ← decode p; if bool_decide (token_of c = s) then Some c else None
  | EmptyString => None
  end.

Lemma of_token_of c : of_token (token_of c) = Some c.
Proof.
  unfold of_token, token_of at 1. rewrite of_bits_of. cbn. rewrite decode_encode. cbn. by rewrite bool_decide_eq_true_2.
Qed.

#[export] Instance jwt0 : JWT := {|
  jwt_sign _ c := Some (token_of c);
  jwt_parse _ now tok :=
    match of_token tok with
    | Some c => match ExpiresAt c with
                | Some e => if now <? e then JWTValid c else JWTExpired
                | None => JWTInvalid
                end
    | None => JWTInvalid
    end;
  NewNumericDate t := t / Second * Second;
|}.

#[export] Instance jwt0_laws : JWTLaws.
Proof.
  split; unfold SignAt; cbn [jwt_sign jwt_parse jwt0].
  - intros _ uid sid typ now ttl tok t _ _ [= <-]. by rewrite of_token_of.
  - intros _ uid sid typ now ttl tok [= <-]. by apply TrimSpace_visible.
Qed.

(** ** A deployment *)
Definition cfg0 : Config := mkConfig true "verification secret" "jwt secret" 30 7 "example.com".
Definition sender0 : Sender :=
  mkSender (fun _ _ _ => None) (fun _ _ _ => None) None None.
Definition moderator0 : ContentModerator := mkContentModerator (fun _ _ =>
  inr (mkModerationResult "provider" None ModerationVerdictPass [] None "{}")).
Definition h0 : AuthService := mkAuthService cfg0 (Some sender0) (Some EmailWorker.Queue) moderator0.

Definition ia0 (op : AfterOp) (w : World DB unit) : World DB unit * option string := (w, None).
Definition info0 : RequestInfo := mkRequestInfo "" "agent" "127.0.0.1".

Definition alice : User.t :=
  User.mk 1 "alice@example.com" "h:password1" "alice" None None None None false None None None
    None start_time start_time.
Definition db0 : DB := empty_db <| users := {[ 1 := alice ]} |>.
Definition w0 : World DB unit := mkWorld db0 (mkCtr 0 0 0 0 100) tt.

Definition send (r : AuthRequest) (w : World DB unit) : Ctx * World DB unit :=
  request h0 ia0 None info0 r w.

Lemma ia0_db op w w' p : ia0 op w = (w', p) -> w_db w' = w_db w.
Proof. by intros [= <- _]. Qed.

Lemma ttl0 : 0 < RefreshTokenTTL (cfg h0).
Proof. by vm_compute. Qed.

Lemma queue0 q : deliveries h0 = Some q -> q = EmailWorker.Queue.
Proof. by intros [= <-]. Qed.

(** The story the examples tell: a reset code is asked for, answered wrongly, then
    rightly. *)
Definition w_sent : World DB unit :=
  snd (send (POST_password_reset_codes (Some "alice@example.com"%string)) w0).
Definition reset_with (code : string) : AuthRequest :=
  POST_password_resets (Some (mkPasswordResetConfirmRequest "alice@example.com" code
    "newpassword")).
Definition w_wrong : World DB unit := snd (send (reset_with "999999") w_sent).
