(* ===== verification/Examples.v ===== *)
(** * Runs of the model: accounts, notifications and image access

    The parameters instantiated in [Concrete]; requests and worker turns evaluated, and the
    hypotheses of the theorems on the auth service, its mail, the pages of notifications and
    the delivery of image access met at concrete tables. *)

From stdpp Require Import relations.
From S2P Require Import Prelude.
From S2P Require Import GoText.
From S2P Require Import Apierr.
From S2P Require Import Effects.
From S2P Require Import Logic.
From S2P Require Import Model.
From S2P Require Import Authz.
From S2P Require Import Middleware.
From S2P Require Import Validation.
From S2P Require Import Digest.
From S2P Require Import AuthRepo.
From S2P Require Import AuthService.
From S2P Require Import AuthHandler.
From S2P Require Import AuthTables.
From S2P Require Import AuthCodes.
From S2P Require Import AuthTokens.
From S2P Require Import EmailOutbox.
From S2P Require Import EmailProps.
From S2P Require Import AuthUniform.
From S2P Require Import Concrete.
Open Scope Z_scope.
Import EmailDeliveryRepository EmailWorker.

(** ** The states of the story are legal *)
Lemma db0_ok : tables_ok db0.
Proof.
  split; cbn.
  - intros k u Hu. apply lookup_singleton_Some in Hu as [<- <-]. done.
  - intros k k' u u' Hu Hu' _ _ _. apply lookup_singleton_Some in Hu as [<- _].
    by apply lookup_singleton_Some in Hu' as [<- _].
  - by intros k k' r r' Hr.
  - by intros k r Hr.
  - by intros k k' r r' Hr.
  - by intros k r Hr.
  - by intros k r Hr.
  - by intros k k' r r' Hr.
  - by intros k r Hr.
  - by intros k r Hr.
  - by intros k r Hr.
Qed.

Lemma queue0_keeps q : deliveries h0 = Some q -> QueueKeeps tables_ok q.
Proof. intros ->%queue0. apply _. Qed.
Lemma queue0_codes q : deliveries h0 = Some q -> QueueFrame codes q.
Proof. intros ->%queue0. apply _. Qed.
Lemma queue0_sessions q : deliveries h0 = Some q -> QueueFrame user_sessions q.
Proof. intros ->%queue0. apply _. Qed.

Lemma send_step0 r w : auth_step h0 ia0 w (snd (send r w)).
Proof. eapply (step_request _ _ None info0 r _ (fst (send r w))). apply surjective_pairing. Qed.

Lemma send_run r w : rtc (auth_step h0 ia0) w (snd (send r w)).
Proof. apply rtc_once, send_step0. Qed.

Lemma run_sent : rtc (auth_step h0 ia0) w0 w_sent.
Proof. exact (send_run _ _). Qed.

Lemma run_wrong : rtc (auth_step h0 ia0) w_sent w_wrong.
Proof. exact (send_run _ _). Qed.

Lemma reach_ok w w' : rtc (auth_step h0 ia0) w w' -> tables_ok (w_db w) -> tables_ok (w_db w').
Proof.
  intros Hr. exact (inv_reachable h0 tables_ok (service_tables_ok h0 ttl0 queue0_keeps)
    ia0 ia0_db w w' Hr).
Qed.

Lemma sent_ok0 : tables_ok (w_db w_sent).
Proof. exact (reach_ok _ _ run_sent db0_ok). Qed.
Lemma wrong_ok0 : tables_ok (w_db w_wrong).
Proof. exact (reach_ok _ _ run_wrong sent_ok0). Qed.

(** ** Middleware and roles *)
(** A handler that reports a 401 and asks for it to be committed (a wrong
    verification code does), one that only reports it, and one that panics. *)
Definition failing (commit : bool) (c : ReqCtx unit unit) (tx : Tx nat unit unit)
    : outcome nat unit unit unit unit :=
  Returned ((if commit then CommitError else id) (Fail (Some (EApi Unauthorized)) c))
    (tx <| tx_db := 7%nat |> <| tx_after := tx_after tx ++ [tt] |>).

Definition failed_request (commit : bool) : ReqCtx unit unit * World nat nat :=
  serve (fun _ : unit => mret tt) (fun _ (w : World nat nat) => (w <| w_ext := 1%nat |>, None)) None
    (failing commit) fresh_request (mkWorld 0%nat (mkCtr 0 0 0 0 0) 0%nat).

Lemma request_atomic_witness :
  w_ext (snd (failed_request true)) = 1%nat /\ w_db (snd (failed_request true)) = 7%nat /\
  w_ext (snd (failed_request false)) = 0%nat /\ w_db (snd (failed_request false)) = 0%nat.
Proof.
  pose proof (fun b => request_atomic (fun _ : unit => mret tt)
    (fun _ (w : World nat nat) => (w <| w_ext := 1%nat |>, None)) None (failing b) fresh_request
    (mkWorld 0%nat (mkCtr 0 0 0 0 0) 0%nat) _ _ (surjective_pairing (failed_request b))) as R.
  destruct (R true) as [(c1 & tx & tx1 & [_ Hr _ Hb _ _] & Hw & _) | [Hno _]];
    [|exfalso; eapply Hno; split; try reflexivity; right; done].
  destruct (R false) as [(c2 & ? & ? & [_ Hr2 [[He _] | [He _]] _ _ _] & _) | (_ & Hd & Hx)];
    [by injection Hr2 as <- _ ..|].
  cbn in Hr. injection Hr as <- <-. injection Hb as <-.
  rewrite Hw, Hd, Hx. by repeat split.
Defined.

Lemma capability_separation_witness :
  HasCapability [UserRoleSuperAdmin] CapBanUser = true.
Proof.
  apply (capability_separation [UserRoleSuperAdmin] CapBanUser) with (r := UserRoleModerator).
  - apply list_elem_of_In. by left.
  - in_list.
Defined.

(** ** The auth service *)
Lemma auth_tables_invariant_witness : tables_ok (w_db w_wrong).
Proof.
  apply (auth_tables_invariant h0 ia0 ia0_db ttl0 queue0_keeps w0 w_wrong).
  - etrans; [exact run_sent | exact run_wrong].
  - exact db0_ok.
Defined.

Definition row0 : EmailVerificationCode.t :=
  match codes (w_db w_sent) !! 101 with
  | Some c => c
  | None => VerificationCodeRepository.fresh_challenge 0 "" "" 0
  end.

Lemma row0_there : codes (w_db w_sent) !! 101 = Some row0.
Proof. vm_compute. reflexivity. Qed.

Lemma row0_regular : regular row0.
Proof.
  assert (instant start_time) as Hs by by vm_compute.
  split.
  - by vm_compute.
  - by vm_compute.
  - by vm_compute.
  - intros last Hl. assert (last = start_time) as ->; [|done]. vm_compute in Hl.
    injection Hl as <-. reflexivity.
Qed.

Lemma challenge_refinement_witness :
  exists ls c', codes (w_db w_wrong) !! 101 = Some c' /\ ch_run row0 ls c'.
Proof.
  destruct (challenge_refinement h0 queue0_codes ia0 ia0_db w_sent w_wrong 101 row0
    run_wrong (codes_keyed _ sent_ok0) row0_there row0_regular) as (ls & c' & Hc & Hr & _).
  exists ls, c'. split; assumption.
Defined.

(** After the reset succeeded, a second one with the same code changes nothing. *)
Definition w_used : World DB unit := snd (send (reset_with "000000") w_sent).
Definition w_again : World DB unit := snd (send (reset_with "000000") w_used).
Definition row_used : EmailVerificationCode.t :=
  match codes (w_db w_used) !! 101 with Some c => c | None => row0 end.

Definition row_again : EmailVerificationCode.t :=
  match codes (w_db w_again) !! 101 with Some c => c | None => row0 end.

Lemma row_used_there : codes (w_db w_used) !! 101 = Some row_used.
Proof. vm_compute. reflexivity. Qed.
Lemma row_again_there : codes (w_db w_again) !! 101 = Some row_again.
Proof. vm_compute. reflexivity. Qed.
Lemma row_used_last : EmailVerificationCode.LastSentAt row_used = Some start_time.
Proof. vm_compute. reflexivity. Qed.
Lemma row_used_regular : regular row_used.
Proof.
  split; [by vm_compute|by vm_compute|by vm_compute|].
  rewrite row_used_last. intros last [= <-]. by vm_compute.
Qed.
Lemma row_used_spent : EmailVerificationCode.ConsumedAt row_used <> None.
Proof. vm_compute. discriminate. Qed.
Lemma w_used_ok : tables_ok (w_db w_used).
Proof. exact (reach_ok _ _ (send_run (reset_with "000000") w_sent) sent_ok0). Qed.

Lemma spent_code_frozen_witness : row_again = row_used.
Proof.
  destruct (spent_code_frozen h0 queue0_codes ia0 ia0_db w_used w_again 101 row_used row_again
    (send_run (reset_with "000000") w_used) (codes_keyed _ w_used_ok) row_used_there
    row_used_regular (or_introl row_used_spent) row_again_there) as [Heq | (s & Hs & Hn)].
  - exact Heq.
  - destruct Hn. rewrite <- Hs. vm_compute. reflexivity.
Defined.

Definition tx_sent : TxD := begin_tx true w_sent.
Definition consume0 (code : string) (tx : TxD) :=
  consumeVerification h0 VerificationPurposePasswordReset "alice@example.com" code tx.

Lemma verification_code_single_use_witness :
  ~ exists tx3, consume0 "000000" (snd (consume0 "000000" tx_sent)) = (inr tt, tx3).
Proof.
  intros [tx3 E]. revert E.
  refine (proj2 (verification_code_single_use h0 VerificationPurposePasswordReset
    "alice@example.com" "000000" tx_sent (snd (consume0 "000000" tx_sent)) sent_ok0 _)
    "000000"%string _ tx3 eq_refl).
  vm_compute. reflexivity.
Defined.

Lemma wrong_code_is_counted_witness :
  exists ctx w', send (reset_with "999999") w_sent = (ctx, w') /\ rc_status ctx = 400 /\
    w_db w' = record_failure row0 (env_now (c_now (w_ctr w_sent))) (w_db w_sent).
Proof.
  destruct (wrong_code_is_counted h0 ia0 None info0
    (mkPasswordResetConfirmRequest "alice@example.com" "999999" "newpassword")
    "alice@example.com" alice alice row0 w_sent) as (ctx & w' & E & Hs & _ & Hdb);
    try (vm_compute; reflexivity).
  - by vm_compute.
  - exists ctx, w'. split; [exact E|]. split; [exact Hs | exact Hdb].
Defined.

Lemma rejected0 : enforceSendRate row0 start_time = (row0, Some (rateLimitError Minute)).
Proof. vm_compute. reflexivity. Qed.
Lemma row0_last : EmailVerificationCode.LastSentAt row0 = Some start_time.
Proof. vm_compute. reflexivity. Qed.
Lemma row0_started : EmailVerificationCode.SendWindowStartedAt row0 <= start_time.
Proof. by vm_compute. Qed.
Lemma start_instant : instant start_time.
Proof. by vm_compute. Qed.
Lemma later_instant : instant (start_time + 100 * Second).
Proof. by vm_compute. Qed.
Lemma later_accepted :
  snd (enforceSendRate row0 (start_time + 100 * Second)) <> None -> False.
Proof. intros Hn. apply Hn. vm_compute. reflexivity. Qed.

Lemma retry_after_suffices_witness :
  snd (enforceSendRate row0 (start_time + 100 * Second)) = None.
Proof.
  destruct (retry_after_suffices row0 start_time row0 (rateLimitError Minute) row0_regular
    start_instant row0_started) as (n & Hn & Hb & Hl);
    [intros last; rewrite row0_last; intros [= <-]; reflexivity | exact rejected0 |].
  injection Hn as <-.
  destruct (Hl (start_time + 100 * Second) later_instant) as [Hok | (_ & err' & n' & He & _)].
  - vm_compute. discriminate.
  - exact Hok.
  - exfalso. apply later_accepted. rewrite He. discriminate.
Defined.

(** ** Tokens *)
Definition login0 : LoginInput := mkLoginInput "alice" "password1".
Definition client0 : ClientInfo := mkClientInfo "phone" "agent" "127.0.0.1".
Definition tx_login : TxD := begin_tx true w0.
Definition no_result : AuthResult :=
  mkAuthResult "" "" (mkUserView 0 "" "" None None [] None).
Definition login_result : AuthResult :=
  match fst (Login h0 login0 client0 tx_login) with inr r => r | inl _ => no_result end.
Definition tx_logged : TxD := snd (Login h0 login0 client0 tx_login).

Lemma login_runs : Login h0 login0 client0 tx_login = (inr login_result, tx_logged).
Proof. vm_compute. reflexivity. Qed.

Lemma users0_positive k : is_Some (users (tx_db tx_login) !! k) -> 0 < k.
Proof. intros [u Hu]. change (({[1 := alice]} : gmap Z User.t) !! k = Some u) in Hu.
  apply lookup_singleton_Some in Hu as [<- _]. done. Qed.

Definition tx_after : TxD := mkTx (tx_db tx_logged) false (tx_ctr tx_logged) [] [] true.

Lemma after_kept now : session_kept (tx_db tx_logged) (tx_db tx_after) 1 101 now.
Proof.
  split.
  - eexists _, _. split; vm_compute; reflexivity.
  - exists alice. split_and!; try (vm_compute; reflexivity). by intros b [=].
Qed.

Definition login_session : UserSession.t :=
  match user_sessions (tx_db tx_logged) !! 101 with
  | Some s => s
  | None => UserSession.mk 0 0 "" None None None 0 0 0 None
  end.
Lemma logged_sessions : user_sessions (tx_db tx_logged) = {[ 101 := login_session ]}.
Proof. vm_compute. reflexivity. Qed.

Lemma login_issued u now sid access refresh :
  issued h0 u now sid access refresh (tx_db tx_logged) ->
  sid = 101 /\ u = 1 /\ now = start_time + Second.
Proof.
  intros [_ _ _ (s & Hs & _ & Hu & _ & He & _)].
  rewrite logged_sessions in Hs. apply lookup_singleton_Some in Hs as [<- <-].
  change (UserSession.UserID login_session) with 1 in Hu.
  assert (UserSession.ExpiresAt login_session = start_time + Second + RefreshTokenTTL (cfg h0)) as E
    by (vm_compute; reflexivity).
  rewrite E in He. split_and!; [done..|lia].
Qed.

(** Alice logs in; the two tokens are then used. *)
Lemma login_tokens_work_witness :
  exists p tx3 r tx4, Authenticate h0 (ar_Token login_result) tx_after = (inr p, tx3) /\
    User.ID (pr_User p) = 1 /\ pr_SessionID p = 101 /\
    Refresh h0 (ar_RefreshToken login_result) tx_after = (inr r, tx4) /\
    tr_RefreshToken r = ar_RefreshToken login_result.
Proof.
  destruct (login_tokens_work h0 login0 client0 tx_login tx_logged login_result db0_ok
    users0_positive ltac:(vm_compute; discriminate) login_runs)
    as (u & sid & now & checked & Hu & Hd & _ & _ & Hi & _ & Hw).
  destruct (login_issued _ _ _ _ _ Hi) as (-> & Hk & ->). rewrite Hk in *.
  destruct (Hw env0_faultless tx_after eq_refl (after_kept _) eq_refl) as [Ha Hr].
  destruct (Ha eq_refl) as (p & tx3 & Ep & Hp & Hs).
  destruct (Hr eq_refl _ eq_refl) as (tx4 & Er).
  eexists _, _, _, _. split_and!; [exact Ep | exact Hp | exact Hs | exact Er | reflexivity].
Defined.

Definition login_claims : Claims :=
  match of_token (ar_Token login_result) with
  | Some c => c
  | None => mkClaims "" None None "" 0
  end.

Lemma after_sessions : user_sessions (tx_db tx_after) = {[ 101 := login_session ]}.
Proof. vm_compute. reflexivity. Qed.

Lemma login_acceptable :
  acceptable h0 (env_now (c_now (tx_ctr tx_after))) (env_now (S (c_now (tx_ctr tx_after))))
    (ar_Token login_result) (tx_db tx_after) login_claims 1 login_session alice.
Proof.
  split; [..|by intros b [=]]; try (split; vm_compute; reflexivity);
    vm_compute; reflexivity.
Qed.

(** The token of the login is accepted; another text is a 401. *)
Lemma authenticate_exact_witness :
  (exists p, fst (Authenticate h0 (ar_Token login_result) tx_after) = inr p /\
     pr_SessionID p = 101) /\
  exists cause, fst (Authenticate h0 "e" tx_after) = inl (EApi (WithCause Unauthorized cause)).
Proof.
  split.
  - destruct (authenticate_exact h0 (ar_Token login_result) tx_after _ _
      (surjective_pairing (Authenticate h0 (ar_Token login_result) tx_after)))
      as (_ & Hsound & Hexact).
    destruct (proj1 (Hexact env0_faultless eq_refl) _ _ _ _ login_acceptable) as [p Hp].
    exists p. split; [exact Hp|].
    destruct (Hsound p Hp) as (c & uid & s & u & [? ? ? ? Hs ? ? ? ? ? ? ?] & (roles & -> & _) & _).
    rewrite after_sessions in Hs. apply lookup_singleton_Some in Hs as [_ <-].
    vm_compute. reflexivity.
  - destruct (authenticate_exact h0 "e" tx_after _ _
      (surjective_pairing (Authenticate h0 "e" tx_after))) as (_ & _ & Hexact).
    apply (proj2 (Hexact env0_faultless eq_refl)). intros c uid s u [Hp]. discriminate Hp.
Defined.

Definition refresh0 : string :=
  match SignAt (JWTSecretKey (cfg h0)) 1 2 TypeRefresh start_time (RefreshTokenTTL (cfg h0)) with
  | Some tok => tok
  | None => ""
  end.

Lemma token_types_disjoint_witness :
  ~ exists p, Authenticate h0 refresh0 tx_after = (inr p, tx_after).
Proof.
  intros [p E].
  exact (proj1 (token_types_disjoint h0 1 2 start_time (RefreshTokenTTL (cfg h0)) refresh0
    tx_after tx_after p (mkTokenResult "" "") ltac:(unfold int64_max; lia)) eq_refl E).
Defined.

(** Alice logs in, then logs out: the token is dead in every later state. *)
Definition alice_session : Principal := mkPrincipal alice 101.
Definition tx_logout : TxD := snd (Logout alice_session tx_after).
Definition w_out : World DB unit := mkWorld (tx_db tx_logout) (tx_ctr tx_logout) tt.
Definition w_later : World DB unit :=
  snd (send (POST_password_reset_codes (Some "alice@example.com"%string)) w_out).
Definition out_session : UserSession.t :=
  match user_sessions (w_db w_out) !! 101 with
  | Some s => s
  | None => UserSession.mk 0 0 "" None None None 0 0 0 None
  end.

Lemma out_there : user_sessions (w_db w_out) !! 101 = Some out_session.
Proof. vm_compute. reflexivity. Qed.
Lemma out_revoked : UserSession.RevokedAt out_session <> None.
Proof. vm_compute. discriminate. Qed.
Lemma login_claims_of : of_token (ar_Token login_result) = Some login_claims.
Proof. vm_compute. reflexivity. Qed.
Lemma login_claims_session : SessionID login_claims = 101.
Proof. vm_compute. reflexivity. Qed.

Lemma login_token_session now c :
  jwt_parse (JWTSecretKey (cfg h0)) now (ar_Token login_result) = JWTValid c -> SessionID c = 101.
Proof.
  cbn [jwt_parse jwt0]. rewrite login_claims_of. generalize login_claims_session.
  generalize login_claims. intros l Hl. destruct (ExpiresAt l) as [e|]; [|discriminate].
  destruct (now <? e); [|discriminate]. intros E. injection E as <-. exact Hl.
Qed.

Lemma revocation_is_final_witness :
  ~ exists p tx', Authenticate h0 (ar_Token login_result) (begin_tx true w_later) = (inr p, tx').
Proof.
  intros (p & tx' & E).
  exact (proj1 (revocation_is_final h0 queue0_sessions ia0 ia0_db w_out w_later 101 out_session
    (ar_Token login_result) (begin_tx true w_later)
    (send_run (POST_password_reset_codes (Some "alice@example.com"%string)) w_out)
    out_there out_revoked login_token_session eq_refl) p tx' E).
Defined.

Definition reset0 : PasswordResetInput :=
  mkPasswordResetInput "alice@example.com" "000000" "newpassword".
Definition tx_reset : TxD := snd (ResetPassword h0 reset0 tx_sent).
Lemma reset_runs : ResetPassword h0 reset0 tx_sent = (inr tt, tx_reset).
Proof. vm_compute. reflexivity. Qed.

Lemma reset_password_effect_witness :
  exists u hash, users (tx_db tx_reset) !! User.ID u = Some (u <| User.PasswordHash := hash |>) /\
    all_revoked (User.ID u) (tx_db tx_reset).
Proof.
  destruct (reset_password_effect h0 reset0 tx_sent tx_reset sent_ok0 reset_runs)
    as (email & u & hash & k & _ & _ & _ & _ & _ & Hu & Hr & _).
  exists u, hash. split; [exact Hu | exact Hr].
Defined.


Lemma queue0_total q : deliveries h0 = Some q -> QueueTotal q.
Proof. intros ->%queue0. apply _. Qed.

Lemma tx_login_fresh : fresh_ids tx_login.
Proof.
  intros k [[c Hc] | [d Hd]].
  - change ((∅ : gmap Z EmailVerificationCode.t) !! k = Some c) in Hc. by rewrite lookup_empty in Hc.
  - change ((∅ : gmap Z VerificationEmailDelivery.t) !! k = Some d) in Hd. by rewrite lookup_empty in Hd.
Qed.

Lemma reset_code_uniform_witness :
  fst (SendPasswordResetCode h0 "alice@example.com" tx_login) = inr tt /\
  fst (SendPasswordResetCode h0 "nobody@example.com" tx_login) = inr tt.
Proof.
  split.
  - rewrite (reset_code_uniform h0 queue0_total (fun _ => eq_refl) "alice@example.com" tx_login
      eq_refl tx_login_fresh). vm_compute. reflexivity.
  - rewrite (reset_code_uniform h0 queue0_total (fun _ => eq_refl) "nobody@example.com" tx_login
      eq_refl tx_login_fresh). vm_compute. reflexivity.
Defined.

(** ** The mail outbox *)
Definition wk0 : Worker := NewWorker sender0 (mkOptions 0 0 0 0).
Definition failing_sender : Sender :=
  mkSender (fun _ _ _ => Some (ENew "refused")) (fun _ _ _ => Some (ENew "refused")) None None.
Definition wk_fail : Worker := NewWorker failing_sender (mkOptions 0 0 0 0).
Definition we0 : World DB (list MailSent) := mkWorld (w_db w_sent) (w_ctr w_sent) [].

Definition task0 : VerificationEmailDelivery.t :=
  match tasks (w_db w_sent) !! 102 with
  | Some d => d
  | None => new_delivery 0 0 "" "" "" "" 0
  end.
Lemma tasks_sent : tasks (w_db w_sent) = {[ 102 := task0 ]}.
Proof. vm_compute. reflexivity. Qed.

Lemma outbox0_ok : outbox_ok (MaxAttempts (opts wk0)) (w_db we0).
Proof.
  split; [exact sent_ok0|]. intros k d. change (tasks (w_db we0)) with (tasks (w_db w_sent)).
  rewrite tasks_sent. intros Hd. apply lookup_singleton_Some in Hd as [_ <-].
  intros _. by vm_compute.
Qed.

Lemma budget0 : 1 <= MaxAttempts (opts wk0) < 2 ^ 31.
Proof. by vm_compute. Qed.

Lemma outbox_batch_invariant_witness :
  outbox_ok (MaxAttempts (opts wk0)) (w_db (snd (RunBatch wk0 we0))).
Proof.
  exact (outbox_batch_invariant wk0 budget0 (fun _ _ H => H) we0 _ _
    (surjective_pairing (RunBatch wk0 we0)) outbox0_ok).
Defined.

(** The batch sends the mail, and only it. *)
Example batch_sends :
  w_ext (snd (RunBatch wk0 we0)) =
    [mkMailSent "password_reset" "alice@example.com" "000000" None] /\
  fst (RunBatch wk0 we0) = inr (mkResult 1 1 0 0 0, None).
Proof. vm_compute. split; reflexivity. Qed.

(** A claim of the task, and the tables after it. *)
Definition tok0 : string := "0123456789abcdef".
Definition now0 : time := start_time + 10 * Second.
Definition claim_run (now : time) (tx : TxD) := ClaimDue now (now + Minute) tok0 4 tx.
Definition tx_claim : TxD := begin_tx true w_sent.
Definition tx_claimed : TxD := snd (claim_run now0 tx_claim).
Definition claims0 : list Claim :=
  match fst (claim_run now0 tx_claim) with inr l => l | inl _ => [] end.
Definition claim0 : Claim :=
  match claims0 with c :: _ => c | [] => mkClaim task0 "" end.
Definition we_claimed : World DB (list MailSent) :=
  mkWorld (tx_db tx_claimed) (tx_ctr tx_claimed) [].

Lemma claim_runs : claim_run now0 tx_claim = (inr claims0, tx_claimed).
Proof. vm_compute. reflexivity. Qed.
Lemma claim0_in : claim0 ∈ claims0.
Proof. vm_compute. left. Qed.
Lemma claims0_length : length claims0 = 1%nat.
Proof. vm_compute. reflexivity. Qed.
Lemma claim_again :
  claim_run (now0 + Second) tx_claimed = (inr [], snd (claim_run (now0 + Second) tx_claimed)).
Proof. vm_compute. reflexivity. Qed.

Lemma leases_exclude_witness :
  exists k d, tasks (tx_db tx_claim) !! k = Some d /\ due now0 d = true /\
    cl_row claim0 = leased tok0 (now0 + Minute) now0 d.
Proof.
  destruct (leases_exclude now0 (now0 + Minute) tok0 4 (now0 + Second) (now0 + Second + Minute)
    tok0 4 tx_claim tx_claimed tx_claimed _ claims0 [] (deliveries_keyed _ sent_ok0)
    claim_runs eq_refl eq_refl claim_again) as (_ & Hc & _).
  exact (Hc claim0 claim0_in).
Defined.

Definition claimed_task : VerificationEmailDelivery.t :=
  match tasks (tx_db tx_claimed) !! 102 with Some d => d | None => task0 end.
Lemma tasks_claimed : tasks (tx_db tx_claimed) = {[ 102 := claimed_task ]}.
Proof. vm_compute. reflexivity. Qed.
Lemma claimed_keyed : keyed VerificationEmailDelivery.ID (tasks (tx_db tx_claimed)).
Proof.
  intros k d. rewrite tasks_claimed. intros Hd. apply lookup_singleton_Some in Hd as [<- <-].
  vm_compute. reflexivity.
Qed.
Lemma claimed_there :
  tasks (tx_db tx_claimed) !! VerificationEmailDelivery.ID (cl_row claim0) = Some claimed_task.
Proof. vm_compute. reflexivity. Qed.
Lemma claimed_owned : owned_row claim0 claimed_task = true.
Proof. vm_compute. reflexivity. Qed.

Lemma no_stale_mail_witness :
  exists now d code, lease_valid now d = true /\
    deliverable (tx_db tx_claimed) now d code /\ code = "000000"%string.
Proof.
  destruct (no_stale_mail wk0 claim0 we_claimed _ _ (surjective_pairing (deliver_one wk0 claim0 we_claimed)))
    as [Hx | (now & d & code & answer & k & Hx & _ & _ & Hl & Hd)].
  - vm_compute in Hx. discriminate.
  - exists now, d, code. split; [exact Hl|]. split; [exact Hd|].
    assert (w_ext (snd (deliver_one wk0 claim0 we_claimed)) =
      [mkMailSent "password_reset" "alice@example.com" "000000" None]) as Hy
      by (vm_compute; reflexivity).
    rewrite Hy in Hx. injection Hx as _ _ Hx _. symmetry. exact Hx.
Defined.

Definition update_run : (goerr + bool) * TxD := UpdateClaim claim0 (sent now0) tx_claimed.
Lemma update_runs : update_run = (inr true, snd update_run).
Proof. vm_compute. reflexivity. Qed.

Lemma lease_fence_witness :
  exists d, tasks (tx_db tx_claimed) !! VerificationEmailDelivery.ID (cl_row claim0) = Some d /\
    VerificationEmailDelivery.State d = VerificationEmailDeliverySending.
Proof.
  destruct (lease_fence claim0 (sent now0) tx_claimed (snd update_run) true claimed_keyed
    update_runs) as [(_ & d & Hd & Hs & _) | (Hf & _)].
  - exists d. split; [exact Hd | exact Hs].
  - discriminate.
Defined.

Definition used_row : EmailVerificationCode.t :=
  row0 <| EmailVerificationCode.ConsumedAt := Some now0 |>.
Definition save_run := VerificationCodeRepository.SaveState used_row now0 tx_claim.
Lemma save_runs : save_run = (inr tt, snd save_run).
Proof. vm_compute. reflexivity. Qed.
Definition saved_task : VerificationEmailDelivery.t :=
  match tasks (tx_db (snd save_run)) !! 102 with Some d => d | None => task0 end.
Lemma saved_there : tasks (tx_db (snd save_run)) !! 102 = Some saved_task.
Proof. vm_compute. reflexivity. Qed.
Lemma saved_challenge :
  VerificationEmailDelivery.ChallengeID saved_task = EmailVerificationCode.ID used_row.
Proof. vm_compute. reflexivity. Qed.

Lemma plaintext_wiped_witness : VerificationEmailDelivery.Code saved_task = None.
Proof.
  destruct (VerificationEmailDelivery.Code saved_task) as [c|] eqn:Hc; [exfalso|reflexivity].
  assert (VerificationEmailDelivery.Code saved_task <> None) as Hn by (rewrite Hc; discriminate).
  destruct (plaintext_wiped used_row now0 tx_claim (snd save_run) 102 saved_task save_runs
    saved_there saved_challenge Hn) as (_ & Hcons & _).
  discriminate Hcons.
Defined.

Lemma retryDelay_closed_form_witness : retryDelay (30 * Second) 3 = 120 * Second.
Proof.
  assert (0 < 30 * Second <= int64_max) as Hb by by vm_compute.
  assert (1 <= 3 < 2 ^ 31) as Ha by by vm_compute.
  rewrite (retryDelay_closed_form (30 * Second) 3 Hb Ha). reflexivity.
Defined.

Lemma claim0_attempts :
  0 <= VerificationEmailDelivery.Attempts (cl_row claim0) < MaxAttempts (opts wk_fail).
Proof. by vm_compute. Qed.
Lemma wk_fail_max : MaxAttempts (opts wk_fail) < 2 ^ 31.
Proof. by vm_compute. Qed.
Lemma wk_fail_delay : 0 < RetryDelay (opts wk_fail) <= int64_max.
Proof. by vm_compute. Qed.

Lemma retry_budget_witness :
  exists f w', record_answer wk_fail claim0 now0 (Some (ENew "refused")) we_claimed = (inr f, w').
Proof.
  destruct (retry_budget wk_fail claim0 now0 (ENew "refused") we_claimed claimed_task
    claimed_keyed claimed_there claimed_owned claim0_attempts wk_fail_max wk_fail_delay)
    as (f & w' & d' & E & _).
  exists f, w'. exact E.
Defined.

From S2P Require Import Sealed.
From S2P Require Import Pagination.
From S2P Require Import Notifications.
From S2P Require Import NotificationProps.

Section notification_pages.
Import NotificationRepository.
Import NotificationService.

Definition codec0 : CursorCodec := NewCodec "jwt secret".
Definition cursor0 : Cursor.t := Cursor.mk start_time 7 (Some (-3)).
Definition tx0 : TxD := begin_tx true w0.

Lemma cursor0_storable : storable cursor0.
Proof.
  split; cbn [Cursor.CreatedAt Cursor.ID Cursor.Rank cursor0];
    unfold int64_min, int64_max; [discriminate|reflexivity| | |]; try lia.
  change (start_time / Microsecond) with 1767225600000000. lia.
Qed.

Lemma cursor_roundtrip_witness :
  exists token tx', Encode codec0 cursor0 tx0 = (inr token, tx') /\
    Decode codec0 token = inr (Some cursor0) /\
    exists nonce, RawURLEncoding.DecodeString token =
      Some (nonce ++ GCM.Seal (aead codec0) nonce (payload cursor0)
              (bytes_of "notifications")).
Proof.
  destruct (cursor_roundtrip (DB := DB) (B := BeforeOp) (A := AfterOp) "jwt secret" "notifications")
    as [Hr Hd].
  do 2 eexists. split; [reflexivity|].
  pose proof (Hr cursor0 _ tx0 _ cursor0_storable eq_refl) as Hc. split; [exact Hc|].
  destruct (Hd _ _ Hc) as [(nonce & _ & E) _]. exists nonce. exact E.
Defined.

Lemma parse_exact_witness :
  exists p, Parse "3" "50" = inr p /\ 1 <= Page p.
Proof.
  exists (mkParams 3 50). split; [reflexivity|].
  destruct (proj1 (proj1 (parse_exact "3" "50") (mkParams 3 50)) eq_refl)
    as [[[E _]|(_ & _ & Hp)] _]; [discriminate E | exact Hp].
Defined.

Lemma offset_pages_witness :
  concat (map (fun k => fst (Pagination.FindPage (mkParams (Z.of_nat k) 2) [10; 20; 30; 40; 50]))
    (seq 1 3)) = [10; 20; 30; 40; 50].
Proof.
  refine (proj1 (offset_pages [10; 20; 30; 40; 50] 2 _ _)); [split; discriminate | reflexivity].
Defined.

(** ** Three notifications of alice, a fourth one later *)
Definition bob : User.t :=
  alice <| User.ID := 2 |> <| User.Username := "bob"%string |>.
Definition note (id seconds : Z) : Notification.t :=
  Notification.mk id 1 2 NotificationTypeFollow None None None false
    (start_time + seconds * Second) (start_time + seconds * Second).
Definition db_notes : DB := db0
  <| users := {[ 1 := alice; 2 := bob ]} |>
  <| notifications := {[ 11 := note 11 1; 12 := note 12 2; 13 := note 13 2 ]} |>.
Definition db_later : DB := db_notes
  <| notifications := <[14 := note 14 3]> (notifications db_notes) |>.
Definition tx_of (db : DB) : TxD := begin_tx true (w0 <| w_db := db |>).
Definition all_notes : list NotificationRecord :=
  found 1 (mkFilter None None) None db_notes.

Lemma notes_keyed : keyed Notification.ID (notifications db_notes).
Proof.
  intros k n Hk.
  change ((<[11 := note 11 1]> (<[12 := note 12 2]> {[13 := note 13 2]}) : gmap Z Notification.t) !! k = Some n) in Hk.
  repeat (apply lookup_insert_Some in Hk as [[<- <-]|[_ Hk]]; [reflexivity|]).
  apply lookup_singleton_Some in Hk as [<- <-]. reflexivity.
Qed.

Lemma all_notes_are : all_notes =
  map (fun n => mkRecord n "bob" None None None) [note 13 2; note 12 2; note 11 1].
Proof. vm_compute. reflexivity. Qed.

Lemma notes_storable x : x ∈ all_notes -> storable (cursor_of x).
Proof.
  rewrite all_notes_are. intros Hx. apply list_elem_of_In in Hx.
  cbn [map In] in Hx. destruct Hx as [<-|[<-|[<-|[]]]];
    (split; cbn [cursor_of row Cursor.CreatedAt Cursor.ID Cursor.Rank];
       [discriminate|reflexivity|vm_compute; split; discriminate|vm_compute; done|exact I]).
Qed.

Lemma later_settled : settled 1 (mkFilter None None) all_notes db_later.
Proof. vm_compute. reflexivity. Qed.

Lemma notification_walk_witness :
  follow codec0 1 None "" 2 "" [tx_of db_notes; tx_of db_later] =
  Some (map buildNotificationItem all_notes).
Proof.
  apply (notification_walk codec0 1 None "" None 2 (tx_of db_notes) [tx_of db_later]).
  - reflexivity.
  - lia.
  - exact notes_keyed.
  - exact notes_storable.
  - reflexivity.
  - constructor; [|constructor]. split; [reflexivity | exact later_settled].
  - change (found _ _ _ _) with all_notes. rewrite all_notes_are. vm_compute. discriminate.
Defined.

Lemma mark_read_effect_witness :
  exists tx', NotificationService.MarkRead 12 1 (tx_of db_notes) = (inr tt, tx').
Proof.
  destruct (proj1 (mark_read_effect 12 1 (tx_of db_notes) eq_refl notes_keyed) (note 12 2)
    eq_refl eq_refl) as (tx' & now & Hrun & _).
  exists tx'. exact Hrun.
Defined.
End notification_pages.

From S2P Require Import ImageAccess.
From S2P Require Import ImageAccessProps.
From S2P Require Import ImageAccessLiveness.

Section image_deliveries.
Import ImageAccessOutbox.
Import ImageAccessWorker.

Definition picture : ImageAsset.t :=
  ImageAsset.mk 5 (Some 1) "post" "posts/5.jpg" "https://cdn/posts/5.jpg" "image/jpeg" (Some 10)
    "attached" "pass" start_time start_time.
Definition verdict (id : Z) (v : string) : ModerationRecord.t :=
  ModerationRecord.mk id None None (Some 5) None None None None None None "image" "p" None v []
    None "{}" None None None start_time.
Definition db_picture : DB := db0 <| image_assets := {[ 5 := picture ]} |>
  <| moderation_records := {[ 1 := verdict 1 "pass"; 2 := verdict 2 "block" ]} |>.

Definition enqueued (intent source : Z) (public : bool) (db : DB) : DB :=
  match enqueue intent 5 source public true start_time db with
  | inr (_, db') => db'
  | inl _ => db
  end.
Definition db_wanted : DB := enqueued 101 1 true db_picture.

(** The CDN takes the job, calls it "processing" seven times, then has a hiccup. *)
Definition slow_cdn : PurgeProvider := mkProvider
  (fun _ _ => inr (mkSubmission "job" false))
  (fun k _ _ => if (k <? 9)%nat then inr ImageCachePurgeProcessing
                else inl (EPurge ImageCachePurgeErrorRetryable))
  (fun _ _ _ _ => inr (mkRecovery false false false "" "")).
Definition wk_image : Worker := NewImageAccessWorker (mkStorage (fun _ _ _ => None)) slow_cdn
  (mkOptions 0 0 0 0 0 0 0 0).

Definition w_wanted : World DB (list Call) := mkWorld db_wanted (mkCtr 0 0 0 0 200) [].

Fixpoint batches (n : nat) (w : World DB (list Call)) : World DB (list Call) :=
  match n with
  | O => w
  | S n' => batches n' (snd (RunBatch wk_image w))
  end.
Definition row5 (w : World DB (list Call)) : option ImageAccessDelivery.t :=
  image_access_deliveries (w_db w) !! 5.
Definition polls_of (w : World DB (list Call)) : nat :=
  length (List.filter (fun c => match c with CallDescribe _ _ => true | _ => false end) (w_ext w)).

(** How the story ends. *)
Record exhausted (w : World DB (list Call)) : Prop := {
  ex_polls : polls_of w = 8%nat;
  ex_dead : exists d started ended, row5 w = Some d /\
    ImageAccessDelivery.State d = ImageAccessDeadLetter /\
    ImageAccessDelivery.LastErrorCode d = Some "poll_exhausted"%string /\
    ImageAccessDelivery.SubmissionStartedAt d = Some started /\
    ImageAccessDelivery.DeadLetteredAt d = Some ended /\ ended - started < 3 * Minute;
}.
Definition exhausted_b (w : World DB (list Call)) : bool :=
  (polls_of w =? 8)%nat &&
  match row5 w with
  | Some d =>
      bool_decide (ImageAccessDelivery.State d = ImageAccessDeadLetter) &&
      bool_decide (ImageAccessDelivery.LastErrorCode d = Some "poll_exhausted"%string) &&
      match ImageAccessDelivery.SubmissionStartedAt d, ImageAccessDelivery.DeadLetteredAt d with
      | Some started, Some ended => ended - started <? 3 * Minute
      | _, _ => false
      end
  | None => false
  end.

Lemma exhausted_b_true w : exhausted_b w = true -> exhausted w.
Proof.
  unfold exhausted_b. rewrite andb_true_iff, Nat.eqb_eq. intros [Hp Hd]. split; [done|].
  destruct (row5 w) as [d|]; [|done]. rewrite !andb_true_iff, !bool_decide_eq_true in Hd.
  destruct Hd as [[Hs Hc] Ht]. destruct (ImageAccessDelivery.SubmissionStartedAt d) as [a|] eqn:Ha; [|done].
  destruct (ImageAccessDelivery.DeadLetteredAt d) as [b|] eqn:Hb; [|done].
  exists d, a, b. split_and!; try done. lia.
Qed.

(** Polls that find the purge in progress use up the failure budget.  With the
    default options (eight poll failures, ten minutes of pending time) and a provider
    that accepts the job, answers "processing" seven times and then fails one poll
    with a retryable error, the delivery is dead-lettered as [poll_exhausted] after
    that single failure, under three minutes after the submission. *)
Theorem one_poll_failure_exhausts :
  MaxPollFailures (options wk_image) = 8 /\ PendingTimeout (options wk_image) = 10 * Minute /\
  exhausted (batches 160 w_wanted).
Proof. split; [done|]. split; [done|]. apply exhausted_b_true. vm_compute. reflexivity. Qed.

(** ** The constraints hold at the start *)
Definition row_wanted : ImageAccessDelivery.t := first_delivery 5 101 true true start_time.

Lemma wanted_rows : image_access_deliveries db_wanted = {[ 5 := row_wanted ]}.
Proof. reflexivity. Qed.

Lemma wanted_ok : access_db_ok db_wanted.
Proof.
  split; rewrite wanted_rows; intros k d [<- <-]%lookup_singleton_Some; [reflexivity|].
  apply first_delivery_ok.
Qed.

Lemma slow_cdn_ok : provider_ok (provider wk_image).
Proof. split; [intros k url s [= <-]|intros k url a b r [= <-]]; vm_compute; lia. Qed.

Lemma fence_refl tok db : fence tok db db.
Proof. intros i d Hd Hl. exists d. split; [done|]. split; [done|]. split; [lia|]. by intros _. Qed.

Lemma access_batch_invariant_witness :
  access_db_ok (w_db (snd (RunBatch wk_image w_wanted))).
Proof.
  exact (access_batch_invariant wk_image w_wanted _ _ slow_cdn_ok (fun _ _ H => H)
    (fun b _ k db => fence_refl _ db) (surjective_pairing (RunBatch wk_image w_wanted)) wanted_ok).
Defined.

(** ** One turn *)
Definition lease0 : string := "0123456789abcdef".
Definition row_leased : ImageAccessDelivery.t :=
  leased lease0 (start_time + Minute) start_time row_wanted.
Definition claim_access : Claim := mkClaim row_leased "posts/5.jpg" "https://cdn/posts/5.jpg".
Definition w_leased : World DB (list Call) := mkWorld
  (db_wanted <| image_access_deliveries := {[ 5 := row_leased ]} |>) (mkCtr 0 0 0 0 200) [].

Lemma clock0 j k : (j <= k)%nat -> env_now j <= env_now k.
Proof. intros Hjk. cbn. assert (0 < Second) by done. nia. Qed.

Lemma leased_at : At 5 row_leased start_time w_leased.
Proof.
  split.
  - assert (deliveries (w_db w_leased) = {[5 := row_leased]}) as -> by reflexivity.
    intros k d [<- <-]%lookup_singleton_Some. reflexivity.
  - reflexivity.
  - intros k _. cbn. assert (0 < Second) by done. lia.
Qed.

Lemma leased_claimable : claimable claim_access row_leased start_time.
Proof.
  split; [reflexivity|reflexivity|by vm_compute|intros s [=]|reflexivity].
Qed.

Lemma leased_access_ok : access_ok row_leased.
Proof. apply lease_taken_ok; [cbn; lia|not_in_list|apply first_delivery_ok]. Qed.

Lemma leased_open : ImageAccessDelivery.State row_leased ∉ closed_states.
Proof. not_in_list. Qed.

Lemma quiet0 (k : nat) (db : DB) :
  image_access_deliveries (others k db) = image_access_deliveries db.
Proof. reflexivity. Qed.

Lemma timeout0 : PendingTimeout (options wk_image) <= int64_max.
Proof. by vm_compute. Qed.

Lemma access_progress_witness :
  exists outcome w', processClaim wk_image claim_access w_leased = (inr outcome, w') /\
    progress wk_image 5 (work_left (options wk_image) row_leased) outcome w'.
Proof.
  exact (proj1 (access_progress quiet0 clock0 wk_image timeout0 5 row_leased claim_access start_time
    w_leased leased_at leased_claimable leased_access_ok leased_open)).
Defined.

(** The first turn applies the ACL and submits. *)
Definition row_next : ImageAccessDelivery.t :=
  match row5 (snd (processClaim wk_image claim_access w_leased)) with Some d => d | None => row_leased end.

Lemma first_turn : turns wk_image 1 row_wanted row_next.
Proof.
  eapply turns_more; [|apply turns_none].
  exists 5, lease0, (start_time + Minute), start_time, claim_access, start_time, w_leased,
    (snd (processClaim wk_image claim_access w_leased)).
  split; [exact leased_at|]. split; [exact leased_claimable|]. split; [exact leased_access_ok|].
  split; [exact leased_open|]. split; [|by vm_compute].
  assert (fst (processClaim wk_image claim_access w_leased) = inr Rescheduled) as <- by by vm_compute.
  apply surjective_pairing.
Qed.

Lemma wanted_timely : timely row_wanted.
Proof. intros s [=]. Qed.

Lemma access_terminates_witness : Z.of_nat 1 <= work_budget (options wk_image).
Proof.
  exact (access_terminates quiet0 clock0 wk_image timeout0 1 row_wanted row_next wanted_timely
    (first_delivery_ok 5 101 true true start_time) first_turn).
Defined.

Example budget_default : work_budget (options wk_image) = 1305.
Proof. reflexivity. Qed.

(** ** The picture is blocked while its publication is in flight *)
Definition db_blocked : DB := enqueued 102 2 false (w_db w_leased).
Definition w_blocked : World DB (list Call) := mkWorld db_blocked (mkCtr 0 0 0 0 200) [].

Lemma newer_intent_wins_witness :
  fst (processClaim wk_image claim_access w_blocked) = inr Superseded \/
  exists e, fst (processClaim wk_image claim_access w_blocked) = inr (Unreleased e) \/
    fst (processClaim wk_image claim_access w_blocked) = inl e.
Proof.
  refine (proj1 (newer_intent_wins wk_image claim_access 102 2 false true start_time (w_db w_leased)
    db_blocked row_leased w_blocked _ _ quiet0 (at_keyed _ _ _ _ leased_at) _ _ _ eq_refl
    (surjective_pairing (processClaim wk_image claim_access w_blocked)))).
  - reflexivity.
  - reflexivity || (vm_compute; discriminate).
  - reflexivity.
Defined.
End image_deliveries.
