(* ===== verification/Money.v ===== *)
(** * Prices: [internal/pkg/money]

    An amount is held as the hundredths of the decimal the code wraps: [Parse]
    rounds to two places and the column is numeric(10,2).  The decimal library is
    a parameter ([Decimal]); what it documents of the operations the code uses is
    [DecimalOk]. *)

From S2P Require Import Prelude.
From S2P Require Import GoText.
From S2P Require Import Apierr.
Open Scope Z_scope.

Class Decimal := {
  decimal : Type;
  NewFromString : string -> option decimal;
  IsNegative : decimal -> bool;
  Exponent : decimal -> Z;
  Round2 : decimal -> decimal;          (* [d.Round(2)] *)
  StringFixed2 : decimal -> string;     (* [d.StringFixed(2)] *)
  to_column : decimal -> Z;             (* numeric(10,2), in hundredths *)
  of_column : Z -> decimal;
}.

Definition all_digits (s : string) : bool := all_bytes is_digit s.

(** [^(?:0|[0-9]+)(?:\.[0-9]{1,2})?$]. *)
Definition amountPattern (s : string) : bool :=
  let '(integer, fraction, dot) := Cut s "." in
  all_digits integer && (1 <=? len integer) &&
  (negb dot || all_digits fraction && (1 <=? len fraction) && (len fraction <=? 2)).

Section money.
Context `{Decimal}.

Definition Parse (s : string) : goerr + Z :=
  if bool_decide (s = ""%string) then inl (ENew "金额不能为空")
  else if negb (amountPattern s) then inl (ENew "金额格式不正确")
  else
    let '(integerPart, _, _) := Cut s "." in
    if 8 <? len integerPart then inl (ENew "金额整数部分最多八位")
    else match NewFromString s with
         | None => inl (ENew "金额格式不正确")
         | Some d =>
             if IsNegative d then inl (ENew "金额不能为负数")
             else if Exponent d <? -2 then inl (ENew "金额最多保留两位小数")
             else inr (to_column (Round2 d))
         end.

Definition String_ (a : Z) : string := StringFixed2 (of_column a).
End money.

(** ** What the decimal library documents *)
(** The hundredths a literal denotes, and the text with two places. *)
Definition literal_value (s : string) : option Z :=
  let '(integer, fraction, _) := Cut s "." in
  i ← parse_digits 0 integer;
  f ← parse_digits 0 fraction;
  Some (100 * i + f * 10 ^ (2 - len fraction)).

Definition fixed2 (a : Z) : string :=
  FormatInt (a / 100) +:+ "." +:+ string_of [48 + (a / 10) mod 10; 48 + a mod 10].

Class DecimalOk `{Decimal} := {
  decimal_parse : forall s v, amountPattern s = true -> literal_value s = Some v ->
    exists d, NewFromString s = Some d /\ IsNegative d = false /\ -2 <= Exponent d /\
      to_column (Round2 d) = v;
  decimal_print : forall a, 0 <= a < 10 ^ 10 -> StringFixed2 (of_column a) = fixed2 a;
}.

(** ** Reading back what is printed *)
Lemma all_digits_app s t : all_digits (s +:+ t) = all_digits s && all_digits t.
Proof.
  unfold all_digits. induction s as [|c s IH]; [done|].
  change (String c s +:+ t) with (String c (s +:+ t)). cbn [all_bytes]. by rewrite IH, andb_assoc.
Qed.

Lemma Cut_digits s t : all_digits s = true -> Cut (s +:+ "." +:+ t) "." = (s, t, true).
Proof.
  unfold all_digits. induction s as [|c s IH]; intros Hs.
  - done.
  - cbn in Hs. apply andb_true_iff in Hs as [Hc Hs].
    change (String c s +:+ "." +:+ t) with (String c (s +:+ "." +:+ t)). cbn [Cut].
    rewrite (IH Hs), bool_decide_eq_false_2; [done|]. intros ->. by vm_compute in Hc.
Qed.

Lemma format_digits_spec fuel v rest :
  0 <= v < 10 ^ Z.of_nat fuel -> (0 < fuel)%nat ->
  all_digits (format_digits fuel v rest) = all_digits rest /\
  len rest < len (format_digits fuel v rest) <= Z.of_nat fuel + len rest.
Proof.
  revert v rest. induction fuel as [|fuel IH]; [lia|]. intros v rest Hv _.
  rewrite Nat2Z.inj_succ, Z.pow_succ_r in Hv by lia.
  pose proof (Z.mod_pos_bound v 10 ltac:(lia)) as Hm. cbn [format_digits].
  set (s := String (digit_char (v mod 10)) rest).
  assert (all_digits s = all_digits rest /\ len s = 1 + len rest) as [Hs Hl].
  { unfold s, all_digits, len. cbn. split; [|lia].
    rewrite digit_char_byte by done.
    assert (is_digit (48 + v mod 10) = true) as -> by (unfold is_digit, in_range; lia). done. }
  destruct (Z.ltb_spec v 10) as [Hlt|Hge]; [split; [done|lia]|].
  destruct fuel as [|fuel']; [cbn in Hv; lia|].
  destruct (IH (v / 10) s) as [E1 E2]; [|lia|].
  { split; [apply Z.div_pos | apply Z.div_lt_upper_bound]; lia. }
  split; [by rewrite E1|lia].
Qed.

(** The fuel of [FormatInt] does not show below its bound. *)
Lemma format_digits_fuel n m v rest :
  0 <= v < 10 ^ Z.of_nat n -> (0 < n <= m)%nat -> format_digits m v rest = format_digits n v rest.
Proof.
  revert m v rest. induction n as [|n IH]; [lia|]. intros m v rest Hv Hm.
  destruct m as [|m]; [lia|]. cbn [format_digits]. destruct (Z.ltb_spec v 10); [done|].
  rewrite Nat2Z.inj_succ, Z.pow_succ_r in Hv by lia.
  destruct n as [|n']; [cbn in Hv; lia|].
  apply IH; [|lia]. split; [apply Z.div_pos | apply Z.div_lt_upper_bound]; lia.
Qed.

Section roundtrip.
Context `{DecimalOk}.

Lemma fixed2_parts a : 0 <= a < 10 ^ 10 ->
  let i := FormatInt (a / 100) in
  let f := string_of [48 + (a / 10) mod 10; 48 + a mod 10] in
  Cut (fixed2 a) "." = (i, f, true) /\ all_digits i = true /\ 1 <= len i <= 8 /\
  all_digits f = true /\ len f = 2 /\ parse_digits 0 i = Some (a / 100) /\
  parse_digits 0 f = Some (a mod 100).
Proof.
  intros Ha. assert (0 <= a / 100 < 10 ^ Z.of_nat 8) as Hi.
  { split; [apply Z.div_pos; lia|]. apply Z.div_lt_upper_bound; [lia|]. cbn. lia. }
  assert (FormatInt (a / 100) = format_digits 8 (a / 100) EmptyString) as Ef.
  { unfold FormatInt. destruct (Z.ltb_spec (a / 100) 0); [lia|].
    apply format_digits_fuel; [done|lia]. }
  destruct (format_digits_spec 8 (a / 100) EmptyString Hi ltac:(lia)) as [Hd Hl].
  cbv zeta. rewrite Ef.
  pose proof (Z.mod_pos_bound (a / 10) 10 ltac:(lia)). pose proof (Z.mod_pos_bound a 10 ltac:(lia)).
  assert (all_digits (string_of [48 + (a / 10) mod 10; 48 + a mod 10]) = true) as Hf.
  { unfold all_digits. cbn. rewrite !byte_of_of_byte by (unfold is_byte; lia).
    unfold is_digit, in_range. lia. }
  split_and!; try done.
  - unfold fixed2. rewrite Ef. apply Cut_digits. by rewrite Hd.
  - change (len "") with 0 in Hl. lia.
  - change (len "") with 0 in Hl. lia.
  - rewrite parse_format; [done|exact Hi|lia].
  - cbn. rewrite !byte_of_of_byte by (unfold is_byte; lia).
    assert (forall d, 0 <= d < 10 -> is_digit (48 + d) = true) as Hdig
      by (intros; unfold is_digit, in_range; lia).
    rewrite !Hdig by done. f_equal.
    change 100 with (10 * 10) at 1. rewrite Z.rem_mul_r by lia. lia.
Qed.

(** [money.Parse] reads back what [Amount.String] prints, for every amount the
    column numeric(10,2) holds. *)
Theorem money_roundtrip a : 0 <= a < 10 ^ 10 -> Parse (String_ a) = inr a.
Proof.
  intros Ha. unfold String_. rewrite decimal_print by done.
  destruct (fixed2_parts a Ha) as (Hc & Hi & Hl & Hf & Hlf & Hpi & Hpf).
  assert (amountPattern (fixed2 a) = true) as Hp.
  { unfold amountPattern. rewrite Hc, Hi, Hf, Hlf. cbn. lia. }
  assert (literal_value (fixed2 a) = Some a) as Hv.
  { unfold literal_value. rewrite Hc, Hpi, Hlf. cbn [mbind option_bind].
    rewrite Hpf. cbn. f_equal. pose proof (Z.div_mod a 100). lia. }
  destruct (decimal_parse _ _ Hp Hv) as (d & Hd & Hn & He & Hcol).
  unfold Parse. rewrite bool_decide_eq_false_2 by (intros E; by rewrite E in Hp).
  rewrite Hp, Hc. cbn [negb]. replace (8 <? _) with false by lia.
  rewrite Hd, Hn. replace (_ <? -2) with false by lia. by rewrite Hcol.
Qed.
End roundtrip.
