(* ===== verification/PostValidation.v ===== *)
(** * Post input: the types of [internal/service/post.go] and
    [internal/service/post_validation.go]

    A payload is normalised (trimmed, deduplicated) and checked field by field; the
    first failing check is the error.  [validatePostTypeFields] holds the rules that
    tie the fields to the type of the post. *)

From S2P Require Import Prelude.
From S2P Require Import GoText.
From S2P Require Import Apierr.
From S2P Require Import Model.
From S2P Require Import Validation.
Open Scope Z_scope.

(** [if err != nil { return err }] on a pure result. *)
Notation "'let?' x := r 'in' k" :=
  (match r with inl err => inl err | inr x => k end)
  (at level 10, x name, r at level 200, k at level 200) : effect_scope.
Open Scope effect_scope.

(** ** Inputs *)
Record BudgetRangeInput := mkBudgetRange { Min : Z; Max : Z }.
Record PreferencesInput := mkPreferences {
  AvoidFlavors : list string; PreferFlavors : list string }.

(** [Price] in hundredths ([Money]). *)
Record PostPayload := mkPostPayload {
  pp_Title : string;
  pp_Content : string;
  pp_Category : string;
  pp_ShareType : option string;
  pp_CanteenCode : option string;
  pp_CanteenWindowID : option Z;
  pp_Cuisine : option string;
  pp_Price : option Z;
  pp_Flavors : list string;
  pp_Tags : list string;
  pp_Images : list string;
  pp_BudgetRange : option BudgetRangeInput;
  pp_Preferences : option PreferencesInput;
}.

Record CreatePostInput := mkCreatePostInput {
  cp_Payload : PostPayload; cp_PostType : string; cp_Status : option string }.
Record UpdatePostInput := mkUpdatePostInput {
  up_Payload : PostPayload; up_PostType : option string; up_Status : option string;
  up_EditReason : option string }.

Record normalizedPostPayload := mkNormalized {
  np_PostType : string;
  np_ShareType : option string;
  np_Category : string;
  np_Title : string;
  np_Content : string;
  np_CanteenCode : option string;
  np_CanteenWindowID : option Z;
  np_Cuisine : option string;
  np_Price : option Z;
  np_FlavorNames : list string;
  np_FlavorStances : gmap string string;
  np_Tags : list string;
  np_Images : list string;
  np_BudgetRange : option BudgetRangeInput;
  np_Preferences : option PreferencesInput;
  np_Publish : bool;
  np_EditReason : option string;
}.
#[global] Instance eta_normalized : Eta normalizedPostPayload := fun x =>
  mkNormalized (np_PostType x) (np_ShareType x) (np_Category x) (np_Title x) (np_Content x)
    (np_CanteenCode x) (np_CanteenWindowID x) (np_Cuisine x) (np_Price x) (np_FlavorNames x)
    (np_FlavorStances x) (np_Tags x) (np_Images x) (np_BudgetRange x) (np_Preferences x)
    (np_Publish x) (np_EditReason x).

Definition maxPostTitleRunes : Z := 200.
Definition maxPostContentRunes : Z := 5000.
Definition maxPostTags : Z := 10.
Definition maxTagRunes : Z := 10.
Definition maxPostImages : Z := 9.
Definition maxEditReasonRunes : Z := 200.

Definition llen {A} (l : list A) : Z := Z.of_nat (length l).

(** ** Enumerations *)
Definition validPostType (v : string) : bool :=
  bool_decide (v = PostTypeShare) || bool_decide (v = PostTypeSeeking).
Definition validShareType (v : string) : bool :=
  bool_decide (v = ShareTypeRecommend) || bool_decide (v = ShareTypeWarning).
Definition validCategory (v : string) : bool :=
  bool_decide (v = PostCategoryFood) || bool_decide (v = PostCategoryRecipe).
Definition oneOf (v : string) (choices : list string) : bool := bool_decide (v ∈ choices).

Section validation.
Context `{Unicode}.

(** ** Lists of names *)
Fixpoint dedup_from (seen : list string) (key : string -> string) (values : list string)
    : list string :=
  match values with
  | [] => []
  | v :: values' =>
      if bool_decide (key v ∈ seen) then dedup_from seen key values'
      else v :: dedup_from (key v :: seen) key values'
  end.
Definition deduplicateStrings (values : list string) (foldCase : bool) : list string :=
  dedup_from [] (if foldCase then ToLower else fun v => v) values.

Definition hasDuplicates (values : list string) (foldCase : bool) : bool :=
  negb (llen (deduplicateStrings values foldCase) =? llen values).

Definition normalizeTags (values : list string) : list string :=
  deduplicateStrings (map (fun v => TrimSpace (NFKC_String v)) values) true.

Definition normalizeStrings (values : list string) : list string :=
  deduplicateStrings (filter (fun v => v <> ""%string) (map TrimSpace values)) false.

Definition normalizeOptional (value : option string) : option string :=
  match value with
  | None => None
  | Some v => let trimmed := TrimSpace v in
              if bool_decide (trimmed = ""%string) then None else Some trimmed
  end.

Definition normalizePreferences (value : option PreferencesInput) : option PreferencesInput :=
  match value with
  | None => None
  | Some p => Some (mkPreferences (normalizeStrings (AvoidFlavors p))
                      (normalizeStrings (PreferFlavors p)))
  end.

(** ** Single fields *)
Definition publishIntent (requested : option string) (current : string) : goerr + bool :=
  match requested with
  | None => inr (negb (bool_decide (current = PostStatusDraft)))
  | Some v =>
      if bool_decide (v = PostStatusDraft) then inr false
      else if bool_decide (v = PostStatusPending) || bool_decide (v = PostStatusApproved)
      then inr true
      else invalid "status" FieldInvalidEnum "status 只能是 draft 或 pending"
  end.

Definition normalizeShareType (value : option string) : goerr + option string :=
  match value with
  | None => inr None
  | Some v =>
      let trimmed := TrimSpace v in
      if negb (validShareType trimmed)
      then invalid "share_type" FieldInvalidEnum "share_type 取值不合法"
      else inr (Some trimmed)
  end.

Definition normalizeEditReason (value : option string) : goerr + option string :=
  match normalizeOptional value with
  | Some v =>
      if maxEditReasonRunes <? RuneCountInString v
      then invalid "edit_reason" FieldTooLong "edit_reason 不能超过 200 个字符"
      else inr (Some v)
  | None => inr None
  end.

Fixpoint validateTags (index : Z) (tags : list string) : goerr + unit :=
  match tags with
  | [] => inr tt
  | tag :: tags' =>
      if bool_decide (tag = ""%string)
      then invalid "tags" FieldInvalidFormat "标签不能为空"
      else if maxTagRunes <? RuneCountInString tag
      then invalid "tags" FieldTooLong
             ("第 " +:+ FormatInt (index + 1) +:+ " 个标签不能超过 10 个字符")
      else validateTags (index + 1) tags'
  end.

Definition validateBasicPostFields (value : normalizedPostPayload)
    (rawTags rawImages : list string) : goerr + unit :=
  if bool_decide (np_Title value = ""%string)
  then invalid "title" FieldRequired "title 不能为空"
  else if maxPostTitleRunes <? RuneCountInString (np_Title value)
  then invalid "title" FieldTooLong "title 不能超过 200 个字符"
  else if bool_decide (np_Content value = ""%string)
  then invalid "content" FieldRequired "content 不能为空"
  else if maxPostContentRunes <? RuneCountInString (np_Content value)
  then invalid "content" FieldTooLong "content 不能超过 5000 个字符"
  else if negb (validCategory (np_Category value))
  then invalid "category" FieldInvalidEnum "category 取值不合法"
  else if (maxPostTags <? llen (np_Tags value)) || (maxPostTags <? llen rawTags)
  then inl (EApi (BadRequest BizTagLimitExceeded "单帖标签数量不能超过 10 个"))
  else
    let? _ := validateTags 0 (np_Tags value) in
    if (maxPostImages <? llen (np_Images value)) || (maxPostImages <? llen rawImages)
    then invalid "images" FieldOutOfRange "单帖图片数量不能超过 9 张"
    else if bool_decide (""%string ∈ map TrimSpace rawImages)
    then invalid "images" FieldInvalidFormat "图片 URL 不能为空"
    else if hasDuplicates (map TrimSpace rawImages) false
    then invalid "images" FieldConflict "同一张图片不能重复引用"
    else inr tt.

Definition validateLocation (value : normalizedPostPayload) : goerr + unit :=
  match np_CanteenWindowID value with
  | None => inr tt
  | Some id =>
      if id =? 0
      then invalid "canteen_window_id" FieldInvalidFormat "canteen_window_id 必须是正整数"
      else match np_CanteenCode value with
           | None => invalid "canteen_window_id" FieldConflict "选择窗口时必须同时选择餐厅"
           | Some _ => inr tt
           end
  end.

Definition validateBudget (value : normalizedPostPayload) : goerr + unit :=
  match np_BudgetRange value with
  | None => inr tt
  | Some b =>
      if (Min b <? 0) || (Max b <? 0)
      then invalid "budget_range" FieldOutOfRange "预算不能为负数"
      else if Max b <? Min b
      then invalid "budget_range.max" FieldConflict "最大预算不能小于最小预算"
      else inr tt
  end.

Definition validatePostTypeFields (value : normalizedPostPayload) : goerr + unit :=
  let? _ := validateBudget value in
  if bool_decide (np_PostType value = PostTypeShare) then
    if np_Publish value && bool_decide (np_ShareType value = None)
    then invalid "share_type" FieldRequired "分享帖发布时必须选择推荐或避雷"
    else match np_BudgetRange value, np_Preferences value with
         | None, None => inr tt
         | _, _ => invalid "budget_range" FieldConflict "分享帖不能填写预算或口味偏好"
         end
  else if negb (bool_decide (np_ShareType value = None))
  then invalid "share_type" FieldConflict "提问帖不能包含 share_type"
  else if negb (bool_decide (np_Price value = None))
  then invalid "price" FieldConflict "提问帖不能填写 price"
  else inr tt.

(** The two loops of [normalizeFlavorSemantics] over the preferences. *)
Definition with_stance (stance : string) (names : list string) (m : gmap string string)
    : gmap string string :=
  foldl (fun m name => <[name := stance]> m) m names.

Fixpoint avoid_flavors (names : list string) (m : gmap string string)
    : goerr + gmap string string :=
  match names with
  | [] => inr m
  | name :: names' =>
      match m !! name with
      | Some _ => invalid "preferences" FieldConflict "同一口味不能既希望有又希望避开"
      | None => avoid_flavors names' (<[name := FlavorStanceAvoid]> m)
      end
  end.

Definition normalizeFlavorSemantics (value : normalizedPostPayload) (rawFlavors : list string)
    : goerr + normalizedPostPayload :=
  if bool_decide (np_PostType value = PostTypeShare) then
    let names := normalizeStrings rawFlavors in
    inr (value <| np_FlavorNames := names |>
               <| np_FlavorStances := with_stance FlavorStanceHas names ∅ |>)
  else if 0 <? llen (normalizeStrings rawFlavors)
  then invalid "flavors" FieldConflict "提问帖请使用 preferences 表达口味偏好"
  else match np_Preferences value with
       | None => inr (value <| np_FlavorNames := [] |>)
       | Some p =>
           let? stances := avoid_flavors (AvoidFlavors p)
                             (with_stance FlavorStancePrefer (PreferFlavors p) ∅) in
           inr (value <| np_FlavorNames := PreferFlavors p ++ AvoidFlavors p |>
                      <| np_FlavorStances := stances |>)
       end.

(** ** Payloads *)
Definition normalizePostPayload (payload : PostPayload) (postType : string) (publish : bool)
    (editReason : option string) : goerr + normalizedPostPayload :=
  let value := mkNormalized postType None (pp_Category payload)
    (TrimSpace (pp_Title payload)) (TrimSpace (pp_Content payload))
    (normalizeOptional (pp_CanteenCode payload)) (pp_CanteenWindowID payload)
    (normalizeOptional (pp_Cuisine payload)) (pp_Price payload) [] ∅
    (normalizeTags (pp_Tags payload)) (normalizeStrings (pp_Images payload))
    (pp_BudgetRange payload) (normalizePreferences (pp_Preferences payload))
    publish editReason in
  let? _ := validateBasicPostFields value (pp_Tags payload) (pp_Images payload) in
  let? shareType := normalizeShareType (pp_ShareType payload) in
  let value := value <| np_ShareType := shareType |> in
  let? _ := validateLocation value in
  let? value := normalizeFlavorSemantics value (pp_Flavors payload) in
  let? _ := validatePostTypeFields value in
  inr value.

Definition normalizeCreatePost (input : CreatePostInput) : goerr + normalizedPostPayload :=
  if negb (validPostType (cp_PostType input))
  then invalid "post_type" FieldInvalidEnum "post_type 取值不合法"
  else
    let? publish := publishIntent (cp_Status input) PostStatusPending in
    normalizePostPayload (cp_Payload input) (cp_PostType input) publish None.

Definition requestedType (requested : option string) (current : string) : goerr + unit :=
  match requested with
  | None => inr tt
  | Some v =>
      if negb (validPostType v)
      then invalid "post_type" FieldInvalidEnum "post_type 取值不合法"
      else if negb (bool_decide (v = current))
      then invalid "post_type" FieldConflict "帖子类型创建后不可修改"
      else inr tt
  end.

Definition normalizeUpdatePost (input : UpdatePostInput) (current : Post.t)
    : goerr + normalizedPostPayload :=
  let? _ := requestedType (up_PostType input) (Post.PostType current) in
  let? publish := publishIntent (up_Status input) (Post.Status current) in
  let? reason := normalizeEditReason (up_EditReason input) in
  normalizePostPayload (up_Payload input) (Post.PostType current) publish reason.
End validation.
