(* ===== verification/PostRepo.v ===== *)
(** * The post repositories: [internal/repository/post.go], [post_relations.go]

    One definition per method the write paths use, a statement each; with the
    triggers of migration 00001 on [post_images], [post_likes] and [favorites], and
    the trigger and unique indexes on [moderation_records].  [now()] inside SQL is the
    database's clock, constant in a transaction ([DbClock]). *)

From S2P Require Import Prelude.
From S2P Require Import GoText.
From S2P Require Import Apierr.
From S2P Require Import Effects.
From S2P Require Import Model.
From S2P Require Import AuthRepo.
Open Scope Z_scope.

(** [now()] in the transaction that was the [k]-th to begin. *)
Class DbClock := db_now : nat -> time.
Definition DbNow `{DbClock} : MT time := fun tx => (inr (db_now (c_tx (tx_ctr tx))), tx).

(** ** Tables with composite keys *)
Section tables.
Context {K : Type} `{Countable K} {A : Type}.

Definition rows_of (t : gmap K A) : list A := map snd (map_to_list t).
Definition where_ (p : A -> bool) (t : gmap K A) : list A :=
  filter (fun r => p r = true) (rows_of t).
Definition delete_where (p : A -> bool) (t : gmap K A) : gmap K A :=
  filter (fun kv => p (snd kv) = false) t.

Fixpoint insert_rows (pkey : string) (key : A -> K) (l : list A) (t : gmap K A)
    : goerr + gmap K A :=
  match l with
  | [] => inr t
  | r :: l' =>
      match t !! key r with
      | Some _ => inl (unique_violation pkey)
      | None => insert_rows pkey key l' (<[key r := r]> t)
      end
  end.
End tables.

(** [uniqueSortedIDs], and [uniqueModerationIDs] of moderation.go. *)
Definition uniqueSortedIDs (ids : list Z) : list Z :=
  sort_by Z.leb (remove_dups (filter (fun id => id <> 0) ids)).

(** ** image_assets: the triggers that follow its references *)
Section assets.
Import ImageAsset.

Definition referenced (assetID : Z) (db : DB) : bool :=
  existsb (fun pi => PostImage.ImageAssetID pi =? assetID) (rows_of (post_images db)) ||
  exists_row (fun u => bool_decide (User.AvatarImageAssetID u = Some assetID)) (users db).

(** [danshi_retire_asset_if_unreferenced], [danshi_activate_post_image_asset]. *)
Definition retire (now : time) (db : DB) (assetID : Z) : DB :=
  if referenced assetID db then db
  else db <| image_assets := snd (update_where
    (fun a => (ID a =? assetID) && bool_decide (Status a = ImageStatusReady))
    (fun a => a <| Status := ImageStatusRetired |> <| UpdatedAt := now |>)
    (image_assets db)) |>.

Definition activate (now : time) (db : DB) (assetID : Z) : DB :=
  db <| image_assets := snd (update_where
    (fun a => (ID a =? assetID) && negb (bool_decide (Status a = ImageStatusReady)))
    (fun a => a <| Status := ImageStatusReady |> <| UpdatedAt := now |>)
    (image_assets db)) |>.
End assets.

(** ** moderation_records *)
Section records.
Import ModerationRecord.

(** [ORDER BY created_at DESC, id DESC]. *)
Definition newer_first (a b : t) : bool :=
  (CreatedAt b <? CreatedAt a) || (CreatedAt a =? CreatedAt b) && (ID b <=? ID a).
Definition newest (p : t -> bool) (db : DB) : option t :=
  hd_error (sort_by newer_first (select p (moderation_records db))).

Definition of_revision (postID revision : Z) (r : t) : bool :=
  bool_decide (PostID r = Some postID) && bool_decide (ContentRevision r = Some revision).

Definition rejecting (verdict : string) : bool :=
  bool_decide (verdict = ModerationVerdictReview) || bool_decide (verdict = ModerationVerdictBlock).

(** [danshi_check_moderation_review] (migration 00015). *)
Definition review_shape (r : t) (db : DB) : bool :=
  match SupersedesID r with
  | None => negb (bool_decide (Provider r = ModerationProviderManual))
  | Some id =>
      bool_decide (Provider r = ModerationProviderManual) &&
      match moderation_records db !! id with
      | None => false
      | Some o =>
          negb (bool_decide (Provider o = ModerationProviderManual)) &&
          rejecting (Verdict o) &&
          bool_decide (PostID r = PostID o) && bool_decide (CommentID r = CommentID o) &&
          bool_decide (ImageAssetID r = ImageAssetID o) && bool_decide (TagID r = TagID o) &&
          bool_decide (UserID r = UserID o) && bool_decide (Scene r = Scene o) &&
          bool_decide (Field r = Field o) &&
          bool_decide (ContentRevision r = ContentRevision o)
      end
  end.

Definition same_job (provider : string) (job : option string) (r : t) : bool :=
  bool_decide (job <> None) && bool_decide (Provider r = provider) &&
  bool_decide (ProviderJobID r = job).

Definition superseding (id : option Z) (r : t) : bool :=
  bool_decide (id <> None) && bool_decide (SupersedesID r = id).

Definition insert_record (id : Z) (record : t) (db : DB) : goerr + DB :=
  let r := record <| ID := id |> in
  if negb (review_shape r db) then inl (EPg "23001" "")
  else if exists_row (superseding (SupersedesID r)) (moderation_records db)
  then inl (unique_violation "uq_mr_supersedes")
  else if exists_row (same_job (Provider r) (ProviderJobID r)) (moderation_records db)
  then inl (unique_violation "uq_mr_provider_job")
  else match insert_row "moderation_records_pkey" id r (moderation_records db) with
       | inl err => inl err
       | inr t => inr (db <| moderation_records := t |>)
       end.

(** [Create(record)]: the identity is set on the caller's record. *)
Definition CreateRecord `{Env} (record : t) : MT t :=
  let* id := NextID in
  stmt (fun db => match insert_record id record db with
                  | inl err => inl err
                  | inr db' => inr (record <| ID := id |>, db')
                  end).
End records.

(** ** PostRepository *)
Module PostRepository.

(** The rows [loadPostFlavors] scans, and what [LoadSnapshotRelations] returns for
    its one post. *)
Record PostFlavorRow := mkFlavorRow { fr_Name : string; fr_Stance : string }.
Record SnapshotRelations := mkRelations {
  sr_Tags : list string; sr_Flavors : list PostFlavorRow; sr_Images : list string }.

Section ops.
Context `{Env} `{Pg} `{DbClock}.

(** *** post.go *)
Definition by_id (postID : Z) (p : Post.t) : bool := Post.ID p =? postID.
Definition undeleted (p : Post.t) : bool := bool_decide (Post.DeletedAt p = None).

Definition update_posts (p : Post.t -> bool) (f : Post.t -> Post.t) : MT Z :=
  stmt (fun db =>
    let '(n, t) := update_where p f (posts db) in inr (n, db <| posts := t |>)).

(** GORM fills the identity and the two timestamps; the counters are columns the
    model does not write, zero by default. *)
Definition Create (post : Post.t) : MT Post.t :=
  let* now := Now in
  let* id := NextID in
  let post := post <| Post.ID := id |> <| Post.CreatedAt := now |> <| Post.UpdatedAt := now |>
    <| Post.LikeCount := 0 |> <| Post.FavoriteCount := 0 |> <| Post.CommentCount := 0 |>
    <| Post.ViewCount := 0 |> in
  stmt (fun db => match insert_row "posts_pkey" id post (posts db) with
                  | inl err => inl err
                  | inr t => inr (tt, db <| posts := t |>)
                  end) ;;;
  mret post.

Definition LockByID (postID : Z) (IncludeDeleted : bool) : MT Post.t :=
  First (fun db => first (fun p => by_id postID p && (IncludeDeleted || undeleted p)) (posts db)).

Definition found_row (m : MT Z) : MT unit :=
  let* affected := m in if affected =? 0 then throw ErrNotFound else mret tt.

Definition UpdateContent (postID : Z) (fields : Post.t -> Post.t) : MT unit :=
  found_row (update_posts (by_id postID) fields).

Definition UpdateStatus (postID : Z) (status : string) : MT unit :=
  let* _ := update_posts (by_id postID) (fun p => p <| Post.Status := status |>) in mret tt.

Definition SoftDelete (postID actorID : Z) (reason : string) (now : time) : MT unit :=
  found_row (update_posts (fun p => by_id postID p && undeleted p)
    (fun p => p <| Post.DeletedAt := Some now |> <| Post.DeletedReason := Some reason |>
                <| Post.DeletedBy := Some actorID |>)).

Definition Restore (postID : Z) : MT unit :=
  found_row (update_posts (fun p => by_id postID p && negb (undeleted p))
    (fun p => p <| Post.DeletedAt := None |> <| Post.DeletedReason := None |>
                <| Post.DeletedBy := None |>)).

Definition CurrentContentRevision (postID : Z) : MT Z :=
  let* r := query (fun db => Post.CurrentRevision <$> first (by_id postID) (posts db)) in
  match r with Some v => mret v | None => throw ErrNotFound end.

Definition of_post (postID : Z) (h : PostHistory.t) : bool := PostHistory.PostID h =? postID.

(** [COALESCE(max(revision), 0) + 1] in a 32-bit column. *)
Definition next_revision (postID : Z) (db : DB) : Z :=
  foldr Z.max 0 (map PostHistory.Revision (select (of_post postID) (post_histories db))) + 1.
Definition NextHistoryRevision (postID : Z) : MT Z :=
  stmt (fun db =>
    let r := next_revision postID db in
    if r <? 2 ^ 31 then inr (r, db) else inl (EPg "22003" "")).

Definition CreateHistory (history : PostHistory.t) : MT unit :=
  let* id := NextID in
  stmt (fun db =>
    if exists_row (fun h => of_post (PostHistory.PostID history) h &&
                            (PostHistory.Revision h =? PostHistory.Revision history))
         (post_histories db)
    then inl (unique_violation "uq_post_histories_revision")
    else match insert_row "post_histories_pkey" id (history <| PostHistory.ID := id |>)
                 (post_histories db) with
         | inl err => inl err
         | inr t => inr (tt, db <| post_histories := t |>)
         end).

Definition FindHistory (postID revision : Z) : MT PostHistory.t :=
  First (fun db => first (fun h => of_post postID h && (PostHistory.Revision h =? revision))
                     (post_histories db)).

Definition LatestPostModerationForRevision (postID revision : Z) : MT ModerationRecord.t :=
  First (newest (of_revision postID revision)).

(** *** post_relations.go: dictionaries *)
Definition FindActiveCanteenByCode (code : string) : MT Canteen.t :=
  First (fun db => first (fun c => bool_decide (Canteen.Code c = code) && Canteen.IsActive c)
                     (canteens db)).
Definition FindActiveCanteenByID (canteenID : Z) : MT Canteen.t :=
  First (fun db => first (fun c => (Canteen.ID c =? canteenID) && Canteen.IsActive c) (canteens db)).
Definition FindActiveWindow (windowID : Z) : MT CanteenWindow.t :=
  First (fun db => first (fun w => (CanteenWindow.ID w =? windowID) && CanteenWindow.IsActive w)
                     (canteen_windows db)).
Definition FindActiveCuisineByName (name : string) : MT Cuisine.t :=
  First (fun db => first (fun c => bool_decide (Cuisine.Name c = name) && Cuisine.IsActive c)
                     (cuisines db)).
Definition FindActiveCuisineByID (cuisineID : Z) : MT Cuisine.t :=
  First (fun db => first (fun c => (Cuisine.ID c =? cuisineID) && Cuisine.IsActive c) (cuisines db)).

Definition FindActiveFlavorsByNames (names : list string) : MT (list Flavor.t) :=
  match names with
  | [] => mret []
  | _ => query (fun db =>
           select (fun f => bool_decide (Flavor.Name f ∈ names) && Flavor.IsActive f) (flavors db))
  end.

(** *** images *)
Definition FindImagesByURLs (urls : list string) : MT (list ImageAsset.t) :=
  match urls with
  | [] => mret []
  | _ => query (fun db =>
           select (fun a => bool_decide (ImageAsset.PublicURL a ∈ urls)) (image_assets db))
  end.

(** [WHERE id IN ids ORDER BY id]; a table is read in key order. *)
Definition assets_in (ids : list Z) (db : DB) : list ImageAsset.t :=
  select (fun a => bool_decide (ImageAsset.ID a ∈ ids)) (image_assets db).
Definition LockImagesByIDs (imageIDs : list Z) : MT (list ImageAsset.t) :=
  let ids := uniqueSortedIDs imageIDs in
  match ids with
  | [] => mret []
  | _ => query (assets_in ids)
  end.

Definition images_of (postID : Z) (db : DB) : list PostImage.t :=
  sort_by (fun a b => PostImage.Position a <=? PostImage.Position b)
    (where_ (fun pi => PostImage.PostID pi =? postID) (post_images db)).
Definition image_ids (postID : Z) (db : DB) : list Z :=
  map PostImage.ImageAssetID (images_of postID db).
Definition PostImageIDs (postID : Z) : MT (list Z) := query (image_ids postID).

(** A post of the table that is not soft-deleted and shows the image. *)
Definition shown_by_undeleted (db : DB) (imageID : Z) : bool :=
  existsb (fun pi =>
    (PostImage.ImageAssetID pi =? imageID) &&
    exists_row (fun p => by_id (PostImage.PostID pi) p && undeleted p) (posts db))
    (rows_of (post_images db)).
Definition unshown (ids : list Z) (db : DB) : list Z :=
  filter (fun id => shown_by_undeleted db id = false)
    (map ImageAsset.ID (assets_in ids db)).
Definition ImageIDsWithoutUndeletedPostReferences (imageIDs : list Z) : MT (list Z) :=
  let ids := uniqueSortedIDs imageIDs in
  match ids with
  | [] => mret []
  | _ => query (unshown ids)
  end.

Definition image_record (imageID : Z) (r : ModerationRecord.t) : bool :=
  bool_decide (ModerationRecord.ImageAssetID r = Some imageID) &&
  bool_decide (ModerationRecord.Scene r = ModerationSceneImage).
(** The map the code builds is read back by key. *)
Definition LatestImageModerationByAssetIDs (imageAssetIDs : list Z)
    : MT (Z -> option ModerationRecord.t) :=
  let ids := uniqueSortedIDs imageAssetIDs in
  match ids with
  | [] => mret (fun _ => None)
  | _ => query (fun db id =>
           if bool_decide (id ∈ ids) then newest (image_record id) db else None)
  end.

(** [DELETE FROM post_images WHERE post_id = ...] with its row trigger. *)
Definition delete_images (now : time) (postID : Z) (db : DB) : DB :=
  let gone := image_ids postID db in
  foldl (retire now)
    (db <| post_images := delete_where (fun pi => PostImage.PostID pi =? postID)
                            (post_images db) |>) gone.

Definition image_rows (postID : Z) (now : time) (imageIDs : list Z) : list PostImage.t :=
  imap (fun position id => PostImage.mk postID (Z.of_nat position) id now) imageIDs.
Definition image_key (pi : PostImage.t) : Z * Z := (PostImage.PostID pi, PostImage.Position pi).

Definition insert_images (created now : time) (postID : Z) (imageIDs : list Z) (db : DB)
    : goerr + unit * DB :=
  if negb (bool_decide (NoDup imageIDs)) then inl (unique_violation "uq_post_images_post_asset")
  else match insert_rows "post_images_pkey" image_key (image_rows postID created imageIDs)
               (post_images db) with
       | inl err => inl err
       | inr t => inr (tt, foldl (activate now) (db <| post_images := t |>) imageIDs)
       end.

Definition ReplaceImages (postID : Z) (imageIDs : list Z) : MT unit :=
  let* now := DbNow in
  exec (delete_images now postID) ;;;
  match imageIDs with
  | [] => mret tt
  | _ => let* created := Now in stmt (insert_images created now postID imageIDs)
  end.

(** *** flavours and tags *)
Definition flavor_rows (postID : Z) (postType : string) (stances : gmap string string)
    (fs : list Flavor.t) : list PostFlavor.t :=
  map (fun f => PostFlavor.mk postID (Flavor.ID f) (default ""%string (stances !! Flavor.Name f))
                  postType) fs.

Definition ReplaceFlavors (postID : Z) (postType : string) (fs : list Flavor.t)
    (stances : gmap string string) : MT unit :=
  exec (fun db => db <| post_flavors :=
    delete_where (fun pf => PostFlavor.PostID pf =? postID) (post_flavors db) |>) ;;;
  match fs with
  | [] => mret tt
  | _ => stmt (fun db =>
           match insert_rows "post_flavors_pkey"
                   (fun pf => (PostFlavor.PostID pf, PostFlavor.FlavorID pf))
                   (flavor_rows postID postType stances fs) (post_flavors db) with
           | inl err => inl err
           | inr t => inr (tt, db <| post_flavors := t |>)
           end)
  end.

Definition same_tag (name : string) (t : Tag.t) : bool :=
  bool_decide (pg_lower (Tag.Name t) = pg_lower name).

(** [INSERT ... ON CONFLICT DO NOTHING RETURNING]; the identity is drawn anyway. *)
Definition FindOrCreateTag (name : string) : MT (Tag.t * bool) :=
  let* id := NextID in
  let* now := DbNow in
  let tag := Tag.mk id name now now ModerationStatusPending None in
  let* created := stmt (fun db =>
    if exists_row (same_tag name) (tags db) || bool_decide (tags db !! id <> None)
    then inr (false, db)
    else inr (true, db <| tags := <[id := tag]> (tags db) |>)) in
  if (created : bool) then mret (tag, true)
  else
    let* tag := First (fun db => first (same_tag name) (tags db)) in
    mret (tag, false).

Definition ReplaceTags (postID : Z) (tagIDs : list Z) : MT unit :=
  exec (fun db => db <| post_tags :=
    delete_where (fun pt => PostTag.PostID pt =? postID) (post_tags db) |>) ;;;
  match tagIDs with
  | [] => mret tt
  | _ => stmt (fun db =>
           match insert_rows "post_tags_pkey" (fun pt => (PostTag.PostID pt, PostTag.TagID pt))
                   (map (PostTag.mk postID) tagIDs) (post_tags db) with
           | inl err => inl err
           | inr t => inr (tt, db <| post_tags := t |>)
           end)
  end.

(** [Updates] on a model with [UpdatedAt] writes it too. *)
Definition SetTagModeration (tagID : Z) (status : string) (deletedAt : option time) : MT unit :=
  let* now := Now in
  exec (fun db => db <| tags := snd (update_where (fun t => Tag.ID t =? tagID)
    (fun t => t <| Tag.Moderation := status |> <| Tag.DeletedAt := deletedAt |>
                <| Tag.UpdatedAt := now |>) (tags db)) |>).

Definition CreateModerationRecord (record : ModerationRecord.t) : MT unit :=
  let* _ := CreateRecord record in mret tt.

(** *** the relations of a snapshot *)
Definition tag_rows (postID : Z) (db : DB) : list Tag.t :=
  sort_by (fun a b =>
      negb (String.leb (pg_lower (Tag.Name b)) (pg_lower (Tag.Name a))) ||
      bool_decide (pg_lower (Tag.Name a) = pg_lower (Tag.Name b)) && (Tag.ID a <=? Tag.ID b))
    (omap (fun pt => tags db !! PostTag.TagID pt)
       (where_ (fun pt => PostTag.PostID pt =? postID) (post_tags db))).

Definition flavor_links (postID : Z) (db : DB) : list (Flavor.t * string) :=
  sort_by (fun a b =>
      (Flavor.SortOrder (fst a) <? Flavor.SortOrder (fst b)) ||
      (Flavor.SortOrder (fst a) =? Flavor.SortOrder (fst b)) &&
      (Flavor.ID (fst a) <=? Flavor.ID (fst b)))
    (omap (fun pf => f ← flavors db !! PostFlavor.FlavorID pf; Some (f, PostFlavor.Stance pf))
       (where_ (fun pf => PostFlavor.PostID pf =? postID) (post_flavors db))).

(** Three queries. *)
Definition LoadSnapshotRelations (postID : Z) : MT SnapshotRelations :=
  let* tags := query (fun db => map Tag.Name (tag_rows postID db)) in
  let* flavors := query (fun db =>
    map (fun fl => mkFlavorRow (Flavor.Name (fst fl)) (snd fl)) (flavor_links postID db)) in
  let* images := query (fun db =>
    omap (fun pi => ImageAsset.PublicURL <$> image_assets db !! PostImage.ImageAssetID pi)
      (images_of postID db)) in
  mret (mkRelations tags flavors images).

(** *** likes and favourites, with the counter triggers *)
Definition liked (p : Post.t) : Post.t := p <| Post.LikeCount := Post.LikeCount p + 1 |>.
Definition unliked (p : Post.t) : Post.t :=
  p <| Post.LikeCount := Z.max (Post.LikeCount p - 1) 0 |>.
Definition favorited (p : Post.t) : Post.t :=
  p <| Post.FavoriteCount := Post.FavoriteCount p + 1 |>.
Definition unfavorited (p : Post.t) : Post.t :=
  p <| Post.FavoriteCount := Z.max (Post.FavoriteCount p - 1) 0 |>.

Definition bump (f : Post.t -> Post.t) (postID : Z) (db : DB) : DB :=
  db <| posts := snd (update_where (by_id postID) f (posts db)) |>.

(** The foreign key of both tables. *)
Definition has_post (postID : Z) (db : DB) : bool := bool_decide (is_Some (posts db !! postID)).

(** [INSERT ... ON CONFLICT DO NOTHING]: whether a row was inserted. *)
Definition Like (userID postID : Z) : MT bool :=
  let* now := Now in
  stmt (fun db =>
    match post_likes db !! (userID, postID) with
    | Some _ => inr (false, db)
    | None =>
        if negb (has_post postID db) then inl (EPg "23503" "post_likes_post_id_fkey")
        else inr (true, bump liked postID
          (db <| post_likes := <[(userID, postID) := PostLike.mk userID postID now]>
                                 (post_likes db) |>))
    end).

Definition Unlike (userID postID : Z) : MT unit :=
  exec (fun db =>
    match post_likes db !! (userID, postID) with
    | None => db
    | Some _ => bump unliked postID
        (db <| post_likes := delete (userID, postID) (post_likes db) |>)
    end).

Definition Favorite (userID postID : Z) : MT unit :=
  let* now := Now in
  stmt (fun db =>
    match favorites db !! (userID, postID) with
    | Some _ => inr (tt, db)
    | None =>
        if negb (has_post postID db) then inl (EPg "23503" "favorites_post_id_fkey")
        else inr (tt, bump favorited postID
          (db <| favorites := <[(userID, postID) := Favorite.mk userID postID now]>
                                (favorites db) |>))
    end).

Definition Unfavorite (userID postID : Z) : MT unit :=
  exec (fun db =>
    match favorites db !! (userID, postID) with
    | None => db
    | Some _ => bump unfavorited postID
        (db <| favorites := delete (userID, postID) (favorites db) |>)
    end).

Definition Counters (postID : Z) : MT (Z * Z) :=
  let* r := query (fun db =>
    (fun p => (Post.LikeCount p, Post.FavoriteCount p)) <$> first (by_id postID) (posts db)) in
  match r with Some v => mret v | None => throw ErrNotFound end.

(** *** the detail record: [FindByID] joins the author, and is counted as viewed *)
Definition FindByID (postID : Z) (IncludeDeleted : bool) : MT Post.t :=
  let* r := query (fun db =>
    p ← first (fun p => by_id postID p && (IncludeDeleted || undeleted p)) (posts db);
    _ ← users db !! Post.AuthorID p; Some p) in
  match r with Some p => mret p | None => throw ErrNotFound end.

Definition IncrementView (postID : Z) : MT unit :=
  found_row (update_posts (fun p => by_id postID p && undeleted p)
    (fun p => p <| Post.ViewCount := Post.ViewCount p + 1 |>)).
End ops.
End PostRepository.
