(* ===== verification/CommentRepo.v ===== *)
(** * The comment repository: [internal/repository/comment.go],
    [comment_relations.go]

    One definition per method, a statement each, with the triggers that keep the
    counters: [danshi_sync_comment_counts] (migration 00009) and
    [danshi_sync_comment_like_count] (00001).  [WHERE id = ?] is the lookup by primary
    key. *)

From S2P Require Import Prelude.
From S2P Require Import GoText.
From S2P Require Import Apierr.
From S2P Require Import Effects.
From S2P Require Import Model.
From S2P Require Import Pagination.
From S2P Require Import AuthRepo.
From S2P Require Import PostRepo.
Open Scope Z_scope.

Module CommentRepository.
Import Comment.

(** ** Counters *)
Definition active (c : t) : bool :=
  bool_decide (DeletedAt c = None) && bool_decide (Moderation c = ModerationStatusPass).

Definition add_comments (delta : Z) (p : Post.t) : Post.t :=
  p <| Post.CommentCount := Z.max (Post.CommentCount p + delta) 0 |>.
Definition add_replies (delta : Z) (c : t) : t :=
  c <| ReplyCount := Z.max (ReplyCount c + delta) 0 |>.

(** The trigger, after a row was written: whether the row was and is active.  A root
    counts for its whole floor; a reply counts when its root is active. *)
Definition sync_counts (was now_active : bool) (c : t) (db : DB) : DB :=
  let delta := Z.b2z now_active - Z.b2z was in
  if delta =? 0 then db
  else match RootID c with
       | None => PostRepository.bump (add_comments (delta * (1 + ReplyCount c))) (PostID c) db
       | Some r =>
           let db := db <| comments := alter (add_replies delta) r (comments db) |> in
           match comments db !! r with
           | Some root =>
               if active root then PostRepository.bump (add_comments delta) (PostID c) db else db
           | None => db
           end
       end.

Definition add_likes (delta : Z) (c : t) : t :=
  c <| LikeCount := Z.max (LikeCount c + delta) 0 |>.

(** [UPDATE comments SET ... WHERE id = ? AND p]: the rows affected; the trigger fires
    when the deletion or the status changed. *)
Definition update_comment (commentID : Z) (p : t -> bool) (f : t -> t) (db : DB) : Z * DB :=
  match comments db !! commentID with
  | Some c =>
      if p c then
        let c' := f c in
        let db := db <| comments := <[commentID := c']> (comments db) |> in
        (1, if bool_decide (DeletedAt c = DeletedAt c' /\ Moderation c = Moderation c') then db
            else sync_counts (active c) (active c') c' db)
      else (0, db)
  | None => (0, db)
  end.

Section ops.
Context `{Env} `{DbClock}.

Definition anything (_ : t) : bool := true.

Definition UpdateRow (commentID : Z) (p : t -> bool) (f : t -> t) : MT unit :=
  PostRepository.found_row (stmt (fun db => inr (update_comment commentID p f db))).

(** ** Rows *)
Definition FindByID (commentID : Z) : MT t := First (fun db => comments db !! commentID).
Definition LockByID (commentID : Z) : MT t := First (fun db => comments db !! commentID).

(** [Create(comment)]: the counters start at zero. *)
Definition Create (comment : t) : MT t :=
  let* id := NextID in
  let comment := comment <| ID := id |> <| LikeCount := 0 |> <| ReplyCount := 0 |> in
  stmt (fun db =>
    match insert_row "comments_pkey" id comment (comments db) with
    | inl err => inl err
    | inr rows => inr (tt, sync_counts false (active comment) comment
                             (db <| comments := rows |>))
    end) ;;;
  mret comment.

Definition UpdateContent (commentID : Z) (content : string) (currentRevision : Z)
    (updatedAt : time) : MT unit :=
  UpdateRow commentID anything (fun c =>
    c <| Content := content |> <| CurrentRevision := currentRevision |>
      <| UpdatedAt := updatedAt |>).

Definition moderated (moderation : string) (now : time) (c : t) : t :=
  let c := c <| Moderation := moderation |> <| DeletedBy := None |> in
  if bool_decide (moderation = ModerationStatusBlock)
  then c <| DeletedAt := Some now |> <| DeletedReason := Some DeleteReasonModeration |>
  else c <| DeletedAt := None |> <| DeletedReason := None |>.

Definition ApplyModeration (commentID : Z) (moderation : string) (now : time) : MT unit :=
  UpdateRow commentID anything (moderated moderation now).

Definition undeleted (c : t) : bool := bool_decide (DeletedAt c = None).

Definition SoftDelete (commentID : Z) (reason : string) (actorID : option Z)
    (deletedAt : time) : MT unit :=
  UpdateRow commentID undeleted (fun c =>
    c <| DeletedAt := Some deletedAt |> <| DeletedReason := Some reason |>
      <| DeletedBy := actorID |>).

(** [AdminRepository.RestoreComment]. *)
Definition Restore (commentID : Z) : MT unit :=
  UpdateRow commentID
    (fun c => negb (undeleted c) && bool_decide (DeletedReason c = Some DeleteReasonModeration))
    (fun c => c <| DeletedAt := None |> <| DeletedReason := None |> <| DeletedBy := None |>
                <| Moderation := ModerationStatusPass |>).

Definition CurrentContentRevision (commentID : Z) : MT Z :=
  let* r := query (fun db => CurrentRevision <$> comments db !! commentID) in
  match r with Some v => mret v | None => throw ErrNotFound end.

(** ** Versions *)
Definition of_comment (commentID : Z) (h : CommentHistory.t) : bool :=
  CommentHistory.CommentID h =? commentID.

Definition next_revision (commentID : Z) (db : DB) : Z :=
  foldr Z.max 0 (map CommentHistory.Revision (select (of_comment commentID)
    (comment_histories db))) + 1.

Definition NextHistoryRevision (commentID : Z) : MT Z :=
  stmt (fun db =>
    let r := next_revision commentID db in
    if r <? 2 ^ 31 then inr (r, db) else inl (EPg "22003" "")).

Definition CreateHistory (history : CommentHistory.t) : MT unit :=
  let* id := NextID in
  stmt (fun db =>
    if exists_row (fun h => of_comment (CommentHistory.CommentID history) h &&
         (CommentHistory.Revision h =? CommentHistory.Revision history)) (comment_histories db)
    then inl (unique_violation "uq_comment_histories_revision")
    else match insert_row "comment_histories_pkey" id
                 (history <| CommentHistory.ID := id |>) (comment_histories db) with
         | inl err => inl err
         | inr rows => inr (tt, db <| comment_histories := rows |>)
         end).

Definition ListHistories (commentID : Z) : MT (list CommentHistory.t) :=
  query (fun db =>
    sort_by (fun a b => CommentHistory.Revision b <=? CommentHistory.Revision a)
      (select (of_comment commentID) (comment_histories db))).

(** [DISTINCT ON (content_revision) ... reviewer_id IS NULL]. *)
Definition machine_verdict (commentID revision : Z) (r : ModerationRecord.t) : bool :=
  bool_decide (ModerationRecord.CommentID r = Some commentID) &&
  bool_decide (ModerationRecord.ContentRevision r = Some revision) &&
  bool_decide (ModerationRecord.ReviewerID r = None).

Definition ListHistoryModeration (commentID : Z) : MT (list ModerationRecord.t) :=
  query (fun db =>
    omap (fun revision => newest (machine_verdict commentID revision) db)
      (uniqueSortedIDs (omap (fun r =>
         if bool_decide (ModerationRecord.CommentID r = Some commentID) &&
            bool_decide (ModerationRecord.ReviewerID r = None)
         then ModerationRecord.ContentRevision r else None)
         (map snd (map_to_list (moderation_records db)))))).

(** ** Mentions *)
Definition mention_rows (commentID : Z) (db : DB) : list CommentMention.t :=
  sort_by (fun a b => CommentMention.UserID a <=? CommentMention.UserID b)
    (where_ (fun m => CommentMention.CommentID m =? commentID) (comment_mentions db)).

Definition ReplaceMentions (commentID : Z) (userIDs : list Z) : MT unit :=
  exec (fun db => db <| comment_mentions :=
    delete_where (fun m => CommentMention.CommentID m =? commentID) (comment_mentions db) |>) ;;;
  match uniqueSortedIDs userIDs with
  | [] => mret tt
  | ids =>
      stmt (fun db =>
        match insert_rows "comment_mentions_pkey"
                (fun m => (CommentMention.CommentID m, CommentMention.UserID m))
                (map (CommentMention.mk commentID) ids) (comment_mentions db) with
        | inl err => inl err
        | inr rows => inr (tt, db <| comment_mentions := rows |>)
        end)
  end.

Definition MentionIDs (commentID : Z) : MT (list Z) :=
  query (fun db => map CommentMention.UserID (mention_rows commentID db)).

(** The users, undeleted, among the ids; of the columns only the identity and the
    name are read. *)
Definition ActiveUsers (userIDs : list Z) : MT (list User.t) :=
  match uniqueSortedIDs userIDs with
  | [] => mret []
  | ids =>
      query (fun db => select (fun u => bool_decide (User.ID u ∈ ids) &&
        bool_decide (User.DeletedAt u = None)) (users db))
  end.

(** ** Likes *)
Definition Like (userID commentID : Z) : MT bool :=
  let* now := Now in
  stmt (fun db =>
    match comment_likes db !! (userID, commentID) with
    | Some _ => inr (false, db)
    | None =>
        if negb (bool_decide (is_Some (comments db !! commentID)))
        then inl (EPg "23503" "comment_likes_comment_id_fkey")
        else inr (true, db
          <| comment_likes := <[(userID, commentID) := CommentLike.mk userID commentID now]>
                                (comment_likes db) |>
          <| comments := alter (add_likes 1) commentID (comments db) |>)
    end).

Definition Unlike (userID commentID : Z) : MT unit :=
  exec (fun db =>
    match comment_likes db !! (userID, commentID) with
    | None => db
    | Some _ => db
        <| comment_likes := delete (userID, commentID) (comment_likes db) |>
        <| comments := alter (add_likes (-1)) commentID (comments db) |>
    end).

Definition LikeCount (commentID : Z) : MT Z :=
  let* r := query (fun db => LikeCount <$> comments db !! commentID) in
  match r with Some v => mret v | None => throw ErrNotFound end.

Definition CreateModerationRecord (record : ModerationRecord.t) : MT ModerationRecord.t :=
  CreateRecord record.

(** One [INSERT] of several rows, with an identity each. *)
Fixpoint next_ids {A} (rows : list A) : MT (list (Z * A)) :=
  match rows with
  | [] => mret []
  | r :: rows' =>
      let* id := NextID in
      let* rest := next_ids rows' in
      mret ((id, r) :: rest)
  end.

Definition CreateNotifications (rows : list Notification.t) : MT unit :=
  match rows with
  | [] => mret tt
  | _ =>
      let* now := Now in
      let* numbered := next_ids rows in
      stmt (fun db =>
        match insert_rows "notifications_pkey" Notification.ID
                (map (fun kv => (snd kv) <| Notification.ID := fst kv |>
                   <| Notification.CreatedAt := now |> <| Notification.UpdatedAt := now |>) numbered)
                (notifications db) with
        | inl err => inl err
        | inr t => inr (tt, db <| notifications := t |>)
        end)
  end.
End ops.

(** ** What a viewer sees *)
(** [commentVisibilityPredicate]. *)
Definition visible_to (viewer : Z) (c : t) : bool :=
  active c ||
  (AuthorID c =? viewer) && negb (bool_decide (Moderation c = ModerationStatusPass)) &&
  (bool_decide (DeletedAt c = None) ||
   bool_decide (DeletedReason c = Some DeleteReasonModeration)).

(** Row comparisons of the keyset conditions. *)
Definition time_key (c : t) : Z * Z := (CreatedAt c, ID c).
Definition key_lt (a b : Z * Z) : bool :=
  (fst a <? fst b) || (fst a =? fst b) && (snd a <? snd b).
Definition hot_lt (a b : Z * (Z * Z)) : bool :=
  (fst a <? fst b) || (fst a =? fst b) && key_lt (snd a) (snd b).
Definition hot_key (c : t) : Z * (Z * Z) := (Comment.LikeCount c, time_key c).

Definition oldest_first (a b : t) : bool := negb (key_lt (time_key b) (time_key a)).
Definition hottest_first (a b : t) : bool := negb (hot_lt (hot_key a) (hot_key b)).

Definition after_time (after : option Cursor.t) (c : t) : bool :=
  match after with
  | Some k => key_lt (Cursor.CreatedAt k, Cursor.ID k) (time_key c)
  | None => true
  end.
Definition after_hot (after : option Cursor.t) (c : t) : bool :=
  match after with
  | Some k => match Cursor.Rank k with
              | Some rank => hot_lt (hot_key c) (rank, (Cursor.CreatedAt k, Cursor.ID k))
              | None => true
              end
  | None => true
  end.

(** [LIMIT limit + 1], and the last row cut off when there is one more. *)
Definition cut (limit : Z) (rows : list t) : list t * bool :=
  let rows := firstn (Z.to_nat (limit + 1)) rows in
  let hasMore := limit <? Z.of_nat (length rows) in
  (if hasMore then firstn (Z.to_nat limit) rows else rows, hasMore).

Definition roots_of (postID viewer : Z) (c : t) : bool :=
  (PostID c =? postID) && bool_decide (RootID c = None) && visible_to viewer c.
Definition replies_of (rootID viewer : Z) (c : t) : bool :=
  bool_decide (RootID c = Some rootID) && visible_to viewer c.

Definition missing_rank (after : option Cursor.t) : bool :=
  match after with
  | Some k => bool_decide (Cursor.Rank k = None)
  | None => false
  end.

Section queries.
Context `{Env}.

Definition FindRootPage (postID viewer : Z) (sortBy : string) (params : CursorParams)
    : MT (list t * bool) :=
  if bool_decide (sortBy = "hot"%string) then
    if missing_rank (After params) then throw ErrInvalidCursor
    else query (fun db => cut (cp_Limit params)
      (sort_by hottest_first
        (select (fun c => roots_of postID viewer c && after_hot (After params) c) (comments db))))
  else query (fun db => cut (cp_Limit params)
    (sort_by oldest_first
      (select (fun c => roots_of postID viewer c && after_time (After params) c) (comments db)))).

(** The newest [limit] replies of a floor, oldest first. *)
Definition preview (viewer limit : Z) (db : DB) (rootID : Z) : list t :=
  rev (firstn (Z.to_nat limit)
    (rev (sort_by oldest_first (select (replies_of rootID viewer) (comments db))))).

Definition FindReplyPreviews (rootIDs : list Z) (viewer limit : Z) : MT (list t) :=
  match uniqueSortedIDs rootIDs with
  | [] => mret []
  | ids => if limit <=? 0 then mret []
           else query (fun db => flat_map (preview viewer limit db) ids)
  end.

Definition FindReplyPage (rootID viewer : Z) (params : CursorParams) : MT (list t * bool) :=
  query (fun db => cut (cp_Limit params)
    (sort_by oldest_first
      (select (fun c => replies_of rootID viewer c && after_time (After params) c)
         (comments db)))).
End queries.

(** ** comment_relations.go *)
Record CommentUserRow := mkUserRow {
  cu_Name : string;
  cu_DeletedAt : option time;
  cu_AvatarURL : option string;
}.

(** The maps of the struct, read as their total functions: a missing entry of a Go map
    is the zero value. *)
Record CommentRelations := mkRelations {
  Mentions : Z -> list Z;
  Users : Z -> option CommentUserRow;
  Liked : Z -> bool;
  Following : Z -> bool;
  Revisions : Z -> Z;
}.
Definition no_relations : CommentRelations :=
  mkRelations (fun _ => []) (fun _ => None) (fun _ => false) (fun _ => false) (fun _ => 0).

Definition commentRelationIDs (cs : list t) : list Z * list Z * list Z :=
  (uniqueSortedIDs (map ID cs),
   uniqueSortedIDs (flat_map (fun c => [AuthorID c; ReplyToUserID c]) cs),
   uniqueSortedIDs (map AuthorID cs)).

Definition user_row (db : DB) (u : User.t) : CommentUserRow :=
  mkUserRow (User.Username u) (User.DeletedAt u)
    (a ← User.AvatarImageAssetID u; ImageAsset.PublicURL <$> image_assets db !! a).

Section relations.
Context `{Env}.

Definition among {A} (ids : list Z) (zero : A) (f : Z -> A) (id : Z) : A :=
  if bool_decide (id ∈ ids) then f id else zero.

Definition loadCommentMentions (ids : list Z) : MT (Z -> list Z) :=
  query (fun db => among ids [] (fun c => map CommentMention.UserID (mention_rows c db))).

Definition loadCommentUsers (ids : list Z) : MT (Z -> option CommentUserRow) :=
  match ids with
  | [] => mret (fun _ => None)
  | _ => query (fun db => among ids None (fun u => user_row db <$> users db !! u))
  end.

Definition loadCommentRevisions (ids : list Z) : MT (Z -> Z) :=
  query (fun db => among ids 0 (fun c => next_revision c db - 1)).

Definition loadCommentLikes (viewer : Z) (ids : list Z) : MT (Z -> bool) :=
  query (fun db => among ids false
    (fun c => bool_decide (is_Some (comment_likes db !! (viewer, c))))).

Definition loadCommentFollows (viewer : Z) (ids : list Z) : MT (Z -> bool) :=
  match ids with
  | [] => mret (fun _ => false)
  | _ => query (fun db => among ids false
           (fun a => bool_decide (is_Some (follows db !! (viewer, a)))))
  end.

Definition LoadRelations (cs : list t) (viewer : Z) : MT CommentRelations :=
  match cs with
  | [] => mret no_relations
  | _ =>
      let '(commentIDs, userIDs, authorIDs) := commentRelationIDs cs in
      let* mentions := loadCommentMentions commentIDs in
      let* found := loadCommentUsers
        (uniqueSortedIDs (userIDs ++ flat_map mentions commentIDs)) in
      let* revisions := loadCommentRevisions commentIDs in
      if viewer =? 0
      then mret (mkRelations mentions found (fun _ => false) (fun _ => false) revisions)
      else
        let* liked := loadCommentLikes viewer commentIDs in
        let* following := loadCommentFollows viewer authorIDs in
        mret (mkRelations mentions found liked following revisions)
  end.
End relations.
End CommentRepository.
