(* ===== verification/UserRepo.v ===== *)
(** * Users beyond authentication: [internal/repository/user_domain.go]

    Profiles, follows and the history of usernames, a definition per method; with the
    triggers on [users] (claims and their audit: migrations 00018 and 00019; avatars:
    00001 and 00006) and the checks on [follows] and [user_name_change_records].
    [LockByID] and the methods of auth.go are those of [AuthRepo]. *)

From S2P Require Import Prelude.
From S2P Require Import GoText.
From S2P Require Import Apierr.
From S2P Require Import Effects.
From S2P Require Import Model.
From S2P Require Import Pagination.
From S2P Require Import AuthRepo.
From S2P Require Import PostRepo.
Open Scope Z_scope.

Module UserDomain.

(** The columns [UpdateProfile] writes: the map of the code, a field per key. *)
Record ProfileFields := mkFields {
  pf_name : option string;
  pf_bio : option (option string);
  pf_gender : option (option string);
  pf_avatar : option (option Z);
}.
#[global] Instance eta_ProfileFields : Eta ProfileFields := fun x =>
  mkFields (pf_name x) (pf_bio x) (pf_gender x) (pf_avatar x).
Definition no_fields : ProfileFields := mkFields None None None None.
Definition is_empty (f : ProfileFields) : bool :=
  match f with mkFields None None None None => true | _ => false end.

Definition set_fields (f : ProfileFields) (now : time) (u : User.t) : User.t :=
  u <| User.Username := default (User.Username u) (pf_name f) |>
    <| User.Bio := default (User.Bio u) (pf_bio f) |>
    <| User.Gender := default (User.Gender u) (pf_gender f) |>
    <| User.AvatarImageAssetID := default (User.AvatarImageAssetID u) (pf_avatar f) |>
    <| User.UpdatedAt := now |>.

Record UserStatsRow := mkStatsRow {
  sr_PostCount : Z;
  sr_LikeCount : Z;
  sr_FavoriteCount : Z;
  sr_FollowerCount : Z;
  sr_FollowingCount : Z;
}.

Record UserProfileRecord := mkProfileRecord {
  pr_User : User.t;
  pr_AvatarURL : option string;
  pr_Stats : UserStatsRow;
  pr_IsFollowing : bool;
}.

Record UserListRecord := mkListRecord {
  lr_ID : Z;
  lr_Name : string;
  lr_AvatarURL : option string;
  lr_Bio : option string;
  lr_FollowCreatedAt : time;
  lr_Stats : UserStatsRow;
  lr_IsFollowing : bool;
}.

(** ** The subqueries of [userProfileSQL] and [userListColumns] *)
Definition avatar_url (db : DB) (u : User.t) : option string :=
  a ← User.AvatarImageAssetID u; ImageAsset.PublicURL <$> image_assets db !! a.

Definition posts_by (userID : Z) (db : DB) : list Post.t :=
  select (fun p => (Post.AuthorID p =? userID) && PostRepository.undeleted p) (posts db).
Definition sum (l : list Z) : Z := foldr Z.add 0 l.

Definition live_user (db : DB) (userID : Z) : bool :=
  match users db !! userID with Some u => UserRepository.live u | None => false end.

Definition stats (userID : Z) (db : DB) : UserStatsRow :=
  let ps := posts_by userID db in
  mkStatsRow (Z.of_nat (length ps)) (sum (map Post.LikeCount ps)) (sum (map Post.FavoriteCount ps))
    (Z.of_nat (length (where_ (fun f => (Follow.FollowingID f =? userID) &&
                                        live_user db (Follow.FollowerID f)) (follows db))))
    (Z.of_nat (length (where_ (fun f => (Follow.FollowerID f =? userID) &&
                                        live_user db (Follow.FollowingID f)) (follows db)))).

Definition is_following (viewer userID : Z) (db : DB) : bool :=
  if (viewer =? 0) || (viewer =? userID) then false
  else bool_decide (is_Some (follows db !! (viewer, userID))).

(** ** Usernames *)
Definition change_of (userID : Z) (r : UsernameChangeRecord.t) : bool :=
  UsernameChangeRecord.UserID r =? userID.

(** 720 hours. *)
Definition username_cooldown : duration := 720 * Hour.

Definition latest_change_first (a b : UsernameChangeRecord.t) : bool :=
  (UsernameChangeRecord.ChangedAt b <? UsernameChangeRecord.ChangedAt a) ||
  (UsernameChangeRecord.ChangedAt a =? UsernameChangeRecord.ChangedAt b) &&
  (UsernameChangeRecord.ID b <=? UsernameChangeRecord.ID a).

(** [INSERT INTO user_name_change_records] with [danshi_enforce_username_change_cooldown]. *)
Definition insert_change (record : UsernameChangeRecord.t) (db : DB) : goerr + DB :=
  let at_ := UsernameChangeRecord.ChangedAt record in
  if exists_row (fun r => change_of (UsernameChangeRecord.UserID record) r &&
       (at_ - username_cooldown <? UsernameChangeRecord.ChangedAt r) &&
       (UsernameChangeRecord.ChangedAt r <? at_ + username_cooldown)) (user_name_change_records db)
  then inl (EPg "23514" "user_name_change_records_cooldown_check")
  else match insert_row "user_name_change_records_pkey" (UsernameChangeRecord.ID record) record
               (user_name_change_records db) with
       | inl err => inl err
       | inr t => inr (db <| user_name_change_records := t |>)
       end.

Section ops.
Context `{Env} `{Pg} `{DbClock}.

(** The audit of a name that changed. *)
Definition audit (change_id : Z) (now : time) (old new : User.t) (db : DB) : goerr + DB :=
  if bool_decide (User.Username old = User.Username new) then inr db
  else insert_change (UsernameChangeRecord.mk change_id (User.ID new) (User.Username old)
                        (User.Username new) now) db.

(** [danshi_claim_user_name] on an update: the name is claimed for the user, or it is
    already theirs. *)
Definition claim_name (claim_id change_id : Z) (now : time) (old new : User.t) (db : DB)
    : goerr + DB :=
  match UserRepository.claim_holder (User.Username new) db with
  | Some c =>
      if UsernameClaim.UserID c =? User.ID new then audit change_id now old new db
      else inl (unique_violation "uq_user_name_claims_name_lower")
  | None =>
      match insert_row "user_name_claims_pkey" claim_id
              (UsernameClaim.mk claim_id (User.ID new) (User.Username new) (User.CreatedAt new))
              (user_name_claims db) with
      | inl _ => inl (unique_violation "uq_user_name_claims_name_lower")
      | inr claims => audit change_id now old new (db <| user_name_claims := claims |>)
      end
  end.

(** [danshi_activate_avatar_asset], [danshi_retire_avatar_asset]. *)
Definition activate_avatar (now : time) (old new : User.t) (db : DB) : DB :=
  match User.AvatarImageAssetID new with
  | Some a => if bool_decide (User.AvatarImageAssetID old = Some a) then db else activate now db a
  | None => db
  end.
Definition retire_avatar (now : time) (old new : User.t) (db : DB) : DB :=
  match User.AvatarImageAssetID old with
  | Some a => if bool_decide (User.AvatarImageAssetID new = Some a) then db else retire now db a
  | None => db
  end.

(** The [UPDATE] of one live user: the unique index on names, then the row triggers in
    their order (activate_avatar, claim_name, retire_avatar), each on the columns that
    are assigned. *)
Definition update_user (f : ProfileFields) (claim_id change_id : Z) (at_ now : time)
    (userID : Z) (db : DB) : goerr + Z * DB :=
  match users db !! userID with
  | None => inr (0, db)
  | Some u =>
      if negb (UserRepository.live u) then inr (0, db)
      else
        let new := set_fields f at_ u in
        if bool_decide (pf_name f <> None) &&
           exists_row (fun o => UserRepository.same_name (User.Username new) o &&
                                negb (User.ID o =? userID)) (users db)
        then inl (unique_violation "uq_users_name_lower")
        else
          let db := db <| users := <[userID := new]> (users db) |> in
          let db := if bool_decide (pf_avatar f <> None) then activate_avatar now u new db
                    else db in
          match (if bool_decide (pf_name f <> None)
                 then claim_name claim_id change_id now u new db else inr db) with
          | inl err => inl err
          | inr db => inr (1, if bool_decide (pf_avatar f <> None) then retire_avatar now u new db
                              else db)
          end
  end.

Definition UpdateProfile (userID : Z) (fields : ProfileFields) : MT unit :=
  if is_empty fields then mret tt
  else
    let* at_ := Now in
    let* now := DbNow in
    let* claim_id := NextID in
    let* change_id := NextID in
    PostRepository.found_row (stmt (update_user fields claim_id change_id at_ now userID)).

Definition FindByID (userID : Z) : MT User.t :=
  First (fun db => first (fun u => (User.ID u =? userID) && UserRepository.live u) (users db)).

Definition SoftDelete (userID : Z) (deletedAt : time) : MT unit :=
  PostRepository.found_row (stmt (fun db =>
    let '(n, t) := update_where (fun u => (User.ID u =? userID) && UserRepository.live u)
                     (fun u => u <| User.DeletedAt := Some deletedAt |>) (users db) in
    inr (n, db <| users := t |>))).

Definition CreateModerationRecord (record : ModerationRecord.t) : MT ModerationRecord.t :=
  CreateRecord record.

Definition HasRecentUsernameChange (userID : Z) : MT bool :=
  let* now := DbNow in
  query (fun db => exists_row (fun r => change_of userID r &&
    (now - username_cooldown <? UsernameChangeRecord.ChangedAt r)) (user_name_change_records db)).

Definition FindUsernameChangeRecords (userID : Z) : MT (list UsernameChangeRecord.t) :=
  query (fun db => sort_by latest_change_first
    (select (change_of userID) (user_name_change_records db))).

Definition UsernameRevision (userID : Z) : MT Z :=
  query (fun db => foldr Z.max 0 (map UsernameChangeRecord.ID
    (select (change_of userID) (user_name_change_records db)))).

Definition FindProfile (userID currentUserID : Z) : MT UserProfileRecord :=
  let* r := query (fun db =>
    match users db !! userID with
    | Some u =>
        if UserRepository.live u
        then Some (mkProfileRecord u (avatar_url db u) (stats userID db)
                     (is_following currentUserID userID db))
        else None
    | None => None
    end) in
  match r with Some p => mret p | None => throw ErrNotFound end.

(** ** Follows *)
(** [INSERT ... ON CONFLICT DO NOTHING]; the check and the foreign keys are looked at
    for a row that is inserted. *)
Definition Follow (followerID followingID : Z) : MT bool :=
  let* now := DbNow in
  stmt (fun db =>
    if followerID =? followingID then inl (EPg "23514" "follows_no_self_check")
    else match follows db !! (followerID, followingID) with
         | Some _ => inr (false, db)
         | None =>
             if bool_decide (is_Some (users db !! followerID)) &&
                bool_decide (is_Some (users db !! followingID))
             then inr (true, db <| follows := <[(followerID, followingID) :=
                    Follow.mk followerID followingID now]> (follows db) |>)
             else inl (EPg "23503" "follows_following_id_fkey")
         end).

Definition Unfollow (followerID followingID : Z) : MT unit :=
  exec (fun db => db <| follows := delete (followerID, followingID) (follows db) |>).

Definition FollowerCount (userID : Z) : MT Z :=
  query (fun db => Z.of_nat (length (where_ (fun f => Follow.FollowingID f =? userID)
    (follows db)))).

(** The user at the other end of a follow. *)
Definition opposite (following : bool) (f : Follow.t) : Z :=
  if following then Follow.FollowingID f else Follow.FollowerID f.
Definition list_record (viewer : Z) (db : DB) (u : User.t) (f : Follow.t) : UserListRecord :=
  mkListRecord (User.ID u) (User.Username u) (avatar_url db u) (User.Bio u)
    (Follow.CreatedAt f) (stats (User.ID u) db) (is_following viewer (User.ID u) db).

Definition follow_row (userID viewer : Z) (following : bool) (after : option Cursor.t) (db : DB)
    (f : Follow.t) : option UserListRecord :=
  let id := opposite following f in
  if negb (opposite (negb following) f =? userID) then None
  else match users db !! id with
       | Some u =>
           if UserRepository.live u &&
              match after with
              | Some k => (Follow.CreatedAt f <? Cursor.CreatedAt k) ||
                          (Follow.CreatedAt f =? Cursor.CreatedAt k) && (id <? Cursor.ID k)
              | None => true
              end
           then Some (list_record viewer db u f) else None
       | None => None
       end.

Definition latest_follow_first (a b : UserListRecord) : bool :=
  (lr_FollowCreatedAt b <? lr_FollowCreatedAt a) ||
  (lr_FollowCreatedAt a =? lr_FollowCreatedAt b) && (lr_ID b <=? lr_ID a).

Definition findFollowPage (userID currentUserID : Z) (params : CursorParams) (following : bool)
    : MT (list UserListRecord * bool) :=
  query (fun db =>
    let rows := firstn (Z.to_nat (cp_Limit params + 1)) (sort_by latest_follow_first
      (omap (follow_row userID currentUserID following (After params) db)
         (rows_of (follows db)))) in
    let hasMore := cp_Limit params <? Z.of_nat (length rows) in
    (if hasMore then firstn (Z.to_nat (cp_Limit params)) rows else rows, hasMore)).

Definition FindFollowingPage (userID currentUserID : Z) (params : CursorParams)
    : MT (list UserListRecord * bool) := findFollowPage userID currentUserID params true.
Definition FindFollowersPage (userID currentUserID : Z) (params : CursorParams)
    : MT (list UserListRecord * bool) := findFollowPage userID currentUserID params false.
End ops.
End UserDomain.
