(* ===== verification/Json.v ===== *)
(** * JSON text: what the code uses of [encoding/json]

    [Valid] (the grammar of RFC 8259, as the Go scanner reads it: bytes, not runes,
    inside strings) and the encoding of a string by [Marshal]. *)

From S2P Require Import Prelude.
From S2P Require Import GoText.
Open Scope Z_scope.

(** ** json.Valid *)
Fixpoint skip_ws (l : list Z) : list Z :=
  match l with
  | b :: l' =>
      if (b =? 32) || (b =? 9) || (b =? 10) || (b =? 13) then skip_ws l' else l
  | [] => []
  end.

Definition is_hex (b : Z) : bool :=
  in_range 48 57 b || in_range 65 70 b || in_range 97 102 b.

(** After the opening quote: what follows the closing one. *)
Fixpoint scan_string (l : list Z) : option (list Z) :=
  match l with
  | [] => None
  | b :: l' =>
      if b =? 34 then Some l'
      else if b <? 32 then None
      else if b =? 92 then
        match l' with
        | e :: l2 =>
            if bool_decide (e ∈ [98; 102; 110; 114; 116; 92; 47; 34]) then scan_string l2
            else if e =? 117 then
              match l2 with
              | a :: b1 :: c :: d :: l3 =>
                  if is_hex a && is_hex b1 && is_hex c && is_hex d then scan_string l3 else None
              | _ => None
              end
            else None
        | [] => None
        end
      else scan_string l'
  end.

Fixpoint scan_digits (l : list Z) : list Z :=
  match l with
  | b :: l' => if is_digit b then scan_digits l' else l
  | [] => []
  end.
Definition scan_digits1 (l : list Z) : option (list Z) :=
  match l with b :: l' => if is_digit b then Some (scan_digits l') else None | [] => None end.

Definition scan_int (l : list Z) : option (list Z) :=
  match l with
  | b :: l' => if b =? 48 then Some l' else if is_digit b then Some (scan_digits l') else None
  | [] => None
  end.
Definition scan_frac (l : list Z) : option (list Z) :=
  match l with b :: l' => if b =? 46 then scan_digits1 l' else Some l | [] => Some [] end.
Definition scan_exp (l : list Z) : option (list Z) :=
  match l with
  | b :: l' =>
      if (b =? 101) || (b =? 69) then
        match l' with
        | s :: l2 => if (s =? 43) || (s =? 45) then scan_digits1 l2 else scan_digits1 l'
        | [] => None
        end
      else Some l
  | [] => Some []
  end.
Definition scan_number (l : list Z) : option (list Z) :=
  let l := match l with b :: l' => if b =? 45 then l' else l | [] => l end in
  l ← scan_int l; l ← scan_frac l; scan_exp l.

Fixpoint scan_literal (word l : list Z) : option (list Z) :=
  match word, l with
  | [], _ => Some l
  | w :: word', b :: l' => if w =? b then scan_literal word' l' else None
  | _ :: _, [] => None
  end.

(** The values of an array or the members of an object, up to the closing bracket;
    every step reads a byte, so the length of the input is fuel enough. *)
Fixpoint scan_value (fuel : nat) (l : list Z) : option (list Z) :=
  match fuel with
  | O => None
  | S fuel' =>
      match skip_ws l with
      | [] => None
      | b :: l' =>
          if b =? 34 then scan_string l'
          else if b =? 91 then
            match skip_ws l' with
            | c :: l2 => if c =? 93 then Some l2 else scan_items fuel' l'
            | [] => None
            end
          else if b =? 123 then
            match skip_ws l' with
            | c :: l2 => if c =? 125 then Some l2 else scan_members fuel' l'
            | [] => None
            end
          else if b =? 116 then scan_literal (bytes_of "rue") l'
          else if b =? 102 then scan_literal (bytes_of "alse") l'
          else if b =? 110 then scan_literal (bytes_of "ull") l'
          else scan_number (b :: l')
      end
  end
with scan_items (fuel : nat) (l : list Z) : option (list Z) :=
  match fuel with
  | O => None
  | S fuel' =>
      match scan_value fuel' l with
      | None => None
      | Some rest =>
          match skip_ws rest with
          | c :: l2 => if c =? 44 then scan_items fuel' l2 else if c =? 93 then Some l2 else None
          | [] => None
          end
      end
  end
with scan_members (fuel : nat) (l : list Z) : option (list Z) :=
  match fuel with
  | O => None
  | S fuel' =>
      match skip_ws l with
      | q :: l1 =>
          if q =? 34 then
            match scan_string l1 with
            | None => None
            | Some l2 =>
                match skip_ws l2 with
                | c :: l3 =>
                    if c =? 58 then
                      match scan_value fuel' l3 with
                      | None => None
                      | Some rest =>
                          match skip_ws rest with
                          | d :: l4 =>
                              if d =? 44 then scan_members fuel' l4
                              else if d =? 125 then Some l4 else None
                          | [] => None
                          end
                      end
                    else None
                | [] => None
                end
            end
          else None
      | [] => None
      end
  end.

Definition Valid (s : string) : bool :=
  let l := bytes_of s in
  match scan_value (S (2 * length l)) l with
  | Some rest => match skip_ws rest with [] => true | _ => false end
  | None => false
  end.

(** ** json.Marshal of a string *)
Definition hex4 (r : Z) : list Z :=
  let d k := let v := (r / 16 ^ k) mod 16 in if v <? 10 then 48 + v else 87 + v in
  [92; 117; d 3; d 2; d 1; d 0].

(** HTML characters, line separators and ill-formed bytes are escaped. *)
Definition escape_rune (chunk : Z * list Z) : list Z :=
  let '(r, bytes) := chunk in
  if r =? 34 then [92; 34]
  else if r =? 92 then [92; 92]
  else if r =? 8 then [92; 98]
  else if r =? 9 then [92; 116]
  else if r =? 10 then [92; 110]
  else if r =? 12 then [92; 102]
  else if r =? 13 then [92; 114]
  else if (r <? 32) || (r =? 60) || (r =? 62) || (r =? 38) || (r =? 8232) || (r =? 8233)
  then hex4 r
  else if (r =? RuneError) && bool_decide (length bytes = 1%nat) then hex4 RuneError
  else bytes.

Definition json_string (s : string) : string :=
  string_of ([34] ++ concat (map escape_rune (rune_chunks s)) ++ [34]).

(** An object, in the order of the struct's fields; a field is its key and the text
    of its value. *)
Fixpoint json_members (fields : list (string * string)) : string :=
  match fields with
  | [] => ""
  | [(k, v)] => json_string k +:+ ":" +:+ v
  | (k, v) :: rest => json_string k +:+ ":" +:+ v +:+ "," +:+ json_members rest
  end.
Definition json_object (fields : list (string * string)) : string :=
  "{" +:+ json_members fields +:+ "}".

Example valid_document :
  Valid (json_object [("feedback"%string, json_string "a<b 旦"); ("n"%string, "-10.5e3"%string)])
  = true.
Proof. vm_compute. reflexivity. Qed.
Example invalid_document : Valid "[1,]" = false /\ Valid "01" = false /\ Valid "{}x" = false.
Proof. repeat split; vm_compute; reflexivity. Qed.
