(* ===== verification/Moderation.v ===== *)
(** * Moderation of posts and images: [internal/repository/moderation.go],
    [internal/service/moderation_callback.go]

    The verdicts of an image provider, the review of a whole post by an
    administrator, and the recomputation of the posts they decide
    ([ReconcilePendingPosts]).  The alert channel is the after-commit decorator of
    [internal/infra/alerting/after_commit.go]; an alert raised in a transaction
    without after-commit queue is sent at once, outside the model. *)

From S2P Require Import Prelude.
From S2P Require Import GoText.
From S2P Require Import Apierr.
From S2P Require Import Effects.
From S2P Require Import Model.
From S2P Require Import AuthRepo.
From S2P Require Import AuthService.
From S2P Require Import ImageAccess.
From S2P Require Import PostRepo.
From S2P Require Import Json.
Open Scope Z_scope.

(** ** Ports *)
Definition Alert (alert : ModerationAlert) : MT unit :=
  let* _ := AfterCommit (SendAlert alert) in mret tt.

Definition verdict_alert (target : string) (id : Z) (field : option string) (provider : string)
    (job : option string) (verdict : string) (labels : list string) : ModerationAlert :=
  mkModerationAlert "" target id field provider job verdict labels "" "" 0 0 0 0.

(** [ImageAccessController]: [Apply] of asset, source record, public, purge. *)
Record ImageAccessController := mkAccess { Apply : Z -> Z -> bool -> bool -> MT unit }.
Definition DurableAccess `{Env} : ImageAccessController := mkAccess DurableImageAccess_Apply.
Definition DiscardAccess : ImageAccessController := mkAccess (fun _ _ _ _ => mret tt).

Definition ModerationTargetPost : string := "post".
Definition ModerationTargetTag : string := "tag".
Definition ModerationTargetComment : string := "comment".
Definition ModerationTargetUser : string := "user".
Definition ModerationTargetImage : string := "image_asset".

Definition adminRestoreProvider : string := "admin_restore".
Definition adminPostDeleteProvider : string := "admin_post_delete".

Record ImageModerationCallback := mkCallback {
  cb_ImageAssetID : Z;
  cb_ObjectKey : string;
  cb_Provider : string;
  cb_ProviderJobID : string;
  cb_Verdict : string;
  cb_Labels : list string;
  cb_Score : option Z;
  cb_RawResponse : string;
}.

Record ImageModerationApplyResult := mkApplyResult {
  Duplicate : bool; ApprovedPosts : Z; RejectedPosts : Z }.

(** ** internal/model/image.go *)
Definition purgedImageURLPrefix : string := "urn:danshi:image-asset:".

Fixpoint HasSuffix (s p : string) : bool :=
  bool_decide (s = p) || match s with String _ s' => HasSuffix s' p | EmptyString => false end.

Definition PurgedImageURL (imageAssetID : Z) : string :=
  purgedImageURLPrefix +:+ FormatInt imageAssetID +:+ ":retired".
Definition IsPurgedImageURL (value : string) : bool :=
  HasPrefix value purgedImageURLPrefix && HasSuffix value ":retired".

(** ** internal/repository/moderation.go *)
Module ModerationRepository.
Import PostRepository.
Section ops.
Context `{Env} `{Pg} `{DbClock}.

Definition LockPostForReview (postID : Z) : MT Post.t :=
  First (fun db => first (by_id postID) (posts db)).

Definition assets_of (postID : Z) (db : DB) : list ImageAsset.t :=
  sort_by (fun a b => ImageAsset.ID a <=? ImageAsset.ID b)
    (omap (fun pi => image_assets db !! PostImage.ImageAssetID pi)
       (where_ (fun pi => PostImage.PostID pi =? postID) (post_images db))).
Definition LockImagesForPost (postID : Z) : MT (list ImageAsset.t) := query (assets_of postID).

Definition current_revision (postID : Z) (db : DB) : option Z :=
  Post.CurrentRevision <$> first (by_id postID) (posts db).

Definition LatestPostModeration (postID : Z) : MT ModerationRecord.t :=
  First (fun db =>
    v ← current_revision postID db; newest (of_revision postID v) db).

(** [pendingModerationQuery] (repository/admin_read.go): a machine verdict against
    the current version of its object that nobody reviewed. *)
Definition pending (db : DB) (r : ModerationRecord.t) : bool :=
  rejecting (ModerationRecord.Verdict r) &&
  negb (bool_decide (ModerationRecord.Provider r = ModerationProviderManual)) &&
  negb (exists_row (superseding (Some (ModerationRecord.ID r))) (moderation_records db)) &&
  match ModerationRecord.PostID r with
  | None => true
  | Some p => bool_decide (ModerationRecord.ContentRevision r = current_revision p db) &&
              bool_decide (current_revision p db <> None)
  end &&
  match ModerationRecord.CommentID r with
  | None => true
  | Some c =>
      let v := Comment.CurrentRevision <$> comments db !! c in
      bool_decide (ModerationRecord.ContentRevision r = v) && bool_decide (v <> None)
  end.

Definition on_post (postID : Z) (db : DB) (r : ModerationRecord.t) : bool :=
  bool_decide (ModerationRecord.PostID r = Some postID) ||
  existsb (fun pi => (PostImage.PostID pi =? postID) &&
    bool_decide (ModerationRecord.ImageAssetID r = Some (PostImage.ImageAssetID pi)))
    (rows_of (post_images db)).

Definition LockPendingReviewRecordsForPost (postID : Z) : MT (list ModerationRecord.t) :=
  query (fun db => select (fun r => pending db r && on_post postID db r) (moderation_records db)).

(** Pending undeleted posts that show one of the images, by id. *)
Definition awaiting (imageIDs : list Z) (db : DB) (p : Post.t) : bool :=
  bool_decide (Post.Status p = PostStatusPending) && undeleted p &&
  existsb (fun pi => (PostImage.PostID pi =? Post.ID p) &&
                     bool_decide (PostImage.ImageAssetID pi ∈ imageIDs))
    (rows_of (post_images db)).
Definition awaiting_ids (imageIDs : list Z) (db : DB) : list Z :=
  map Post.ID (select (awaiting imageIDs db) (posts db)).

Definition PendingPostIDsForImages (imageAssetIDs : list Z) : MT (list Z) :=
  match imageAssetIDs with
  | [] => mret []
  | _ => query (awaiting_ids imageAssetIDs)
  end.

Definition LockPendingPostsForImage (imageAssetID : Z) : MT (list Z) :=
  query (awaiting_ids [imageAssetID]).

Definition LockImagesForPosts (imageAssetID : Z) (postIDs : list Z)
    : MT (list ImageAsset.t) :=
  let* related := match postIDs with
    | [] => mret []
    | _ => query (fun db => map PostImage.ImageAssetID
             (where_ (fun pi => bool_decide (PostImage.PostID pi ∈ postIDs)) (post_images db)))
    end in
  query (assets_in (uniqueSortedIDs (imageAssetID :: related))).

Definition FindMachineRecordByProviderJobID (provider job : string) : MT ModerationRecord.t :=
  First (fun db => first (fun r => bool_decide (ModerationRecord.Provider r = provider) &&
                                   bool_decide (ModerationRecord.ProviderJobID r = Some job))
                     (moderation_records db)).

(** [ON CONFLICT (provider, provider_job_id) DO NOTHING]: the record with its
    identity when a row was inserted. *)
Definition CreateMachineRecordIfNew (record : ModerationRecord.t)
    : MT (option ModerationRecord.t) :=
  let* id := NextID in
  stmt (fun db =>
    if review_shape (record <| ModerationRecord.ID := id |>) db &&
       exists_row (same_job (ModerationRecord.Provider record)
                     (ModerationRecord.ProviderJobID record)) (moderation_records db)
    then inr (None, db)
    else match insert_record id record db with
         | inl err => inl err
         | inr db' => inr (Some (record <| ModerationRecord.ID := id |>), db')
         end).

Definition CreateManualRecord (record : ModerationRecord.t) : MT ModerationRecord.t :=
  CreateRecord record.
Definition CreateAdministrativeRecord (record : ModerationRecord.t) : MT ModerationRecord.t :=
  CreateRecord record.

Definition set_moderation (imageAssetID : Z) (status : string) (db : DB) : Z * DB :=
  let '(n, t) := update_where (fun a => ImageAsset.ID a =? imageAssetID)
                   (fun a => a <| ImageAsset.Moderation := status |>) (image_assets db) in
  (n, db <| image_assets := t |>).
Definition UpdateImageModeration (imageAssetID : Z) (status : string) : MT unit :=
  found_row (stmt (fun db => inr (set_moderation imageAssetID status db))).

(** *** ReconcilePendingPosts *)
Definition image_with (p : string -> bool) (postID : Z) (db : DB) : bool :=
  existsb (fun pi => (PostImage.PostID pi =? postID) &&
    match image_assets db !! PostImage.ImageAssetID pi with
    | Some a => p (ImageAsset.Moderation a)
    | None => false
    end) (rows_of (post_images db)).

Definition text_verdict (p : Post.t) (db : DB) : option string :=
  ModerationRecord.Verdict <$> newest (of_revision (Post.ID p) (Post.CurrentRevision p)) db.

Definition undecided (postIDs : list Z) (p : Post.t) : bool :=
  bool_decide (Post.ID p ∈ postIDs) &&
  (bool_decide (Post.Status p = PostStatusPending) ||
   bool_decide (Post.Status p = PostStatusRejected)) && undeleted p.

Definition to_reject (db : DB) (p : Post.t) : bool :=
  image_with (fun m => bool_decide (m = ModerationStatusBlock)) (Post.ID p) db ||
  bool_decide (text_verdict p db = Some ModerationVerdictBlock).
Definition to_approve (db : DB) (p : Post.t) : bool :=
  negb (image_with (fun m => negb (bool_decide (m = ModerationStatusPass))) (Post.ID p) db) &&
  bool_decide (text_verdict p db = Some ModerationVerdictPass).

(** One of its two [UPDATE]s: the condition reads the tables before it. *)
Definition decide_posts (postIDs : list Z) (p : DB -> Post.t -> bool) (status : string) : MT Z :=
  stmt (fun db =>
    let '(n, t) := update_where (fun post => undecided postIDs post && p db post)
                     (fun post => post <| Post.Status := status |>) (posts db) in
    inr (n, db <| posts := t |>)).

(** The numbers of approved and of rejected posts. *)
Definition ReconcilePendingPosts (postIDs : list Z) : MT (Z * Z) :=
  match postIDs with
  | [] => mret (0, 0)
  | _ =>
      let ids := uniqueSortedIDs postIDs in
      let* rejected := decide_posts ids to_reject PostStatusRejected in
      let* approved := decide_posts ids to_approve PostStatusApproved in
      mret (approved, rejected)
  end.

(** *** image_moderation_retry.go *)
Definition DeleteForAsset (imageAssetID : Z) : MT unit :=
  exec (fun db => db <| image_moderation_retries :=
    delete_where (fun r => ImageModerationRetry.ImageAssetID r =? imageAssetID)
      (image_moderation_retries db) |>).
End ops.
End ModerationRepository.

(** ** internal/service/moderation_callback.go *)
Module ModerationService.
Import ModerationRepository.

Record ManualPostReviewInput := mkManualPostReview {
  mp_PostID : Z; mp_ReviewerID : Z; mp_Verdict : string; mp_RawResponse : string }.

Record postReviewSnapshot := mkReviewSnapshot {
  rs_assets : list ImageAsset.t;
  rs_latestText : ModerationRecord.t;
  rs_pending : list ModerationRecord.t;
}.

Section service.
Context `{Env} `{Pg} `{Unicode} `{DbClock}.
Context (imageAccess : ImageAccessController).

Definition to_api {A} (code resource : string) (err : goerr) : MT A :=
  let* r := RandRead 8 in throw (EApi (ToAPIError r err code resource)).

(** *** Image access *)
Definition imageAccessPurgeRequired (public : bool) (previous : string) : bool :=
  negb public || bool_decide (previous = ModerationStatusBlock) ||
  bool_decide (previous = ModerationStatusReview).

Definition applyImageAccess (asset : option ImageAsset.t) (sourceModerationRecordID : Z)
    (verdict : string) : MT unit :=
  match asset with
  | None => mret tt
  | Some a =>
      let public := bool_decide (verdict = ModerationVerdictPass) in
      Apply imageAccess (ImageAsset.ID a) sourceModerationRecordID public
        (imageAccessPurgeRequired public (ImageAsset.Moderation a))
  end.

Definition reconcileImageAccess (asset : option ImageAsset.t) (sourceModerationRecordID : Z)
    : MT unit :=
  match asset with
  | None => mret tt
  | Some a =>
      let public := bool_decide (ImageAsset.Moderation a = ModerationStatusPass) in
      Apply imageAccess (ImageAsset.ID a) sourceModerationRecordID public
        (imageAccessPurgeRequired public (ImageAsset.Moderation a))
  end.

Definition imageAssetByID (assets : list ImageAsset.t) (imageAssetID : Z) : option ImageAsset.t :=
  hd_error (filter (fun a => ImageAsset.ID a = imageAssetID) assets).

(** *** The callback *)
Definition validVerdict (verdict : string) : bool :=
  bool_decide (verdict = ModerationVerdictPass) || bool_decide (verdict = ModerationVerdictReview) ||
  bool_decide (verdict = ModerationVerdictBlock).

Definition callback_invalid (message : string) : Error :=
  BadRequest BizModerationCallbackInvalid message.

Definition validateImageCallback (callback : ImageModerationCallback) (requireJobID : bool)
    : goerr + unit :=
  if (cb_ImageAssetID callback =? 0) ||
     bool_decide (TrimSpace (cb_Provider callback) = ""%string)
  then inl (EApi (callback_invalid "审核回调缺少必要标识"))
  else if requireJobID && bool_decide (TrimSpace (cb_ProviderJobID callback) = ""%string)
  then inl (EApi (callback_invalid "审核回调缺少外部任务号"))
  else if negb (validVerdict (cb_Verdict callback))
  then inl (EApi (callback_invalid "审核回调结论无效"))
  else inr tt.

(** The loop returns at the first asset with the callback's id. *)
Definition validateCallbackAsset (callback : ImageModerationCallback)
    (assets : list ImageAsset.t) : goerr + ImageAsset.t :=
  match imageAssetByID assets (cb_ImageAssetID callback) with
  | None => inl (EApi (NotFound BizImageNotFound "图片"))
  | Some a =>
      if negb (bool_decide (cb_ObjectKey callback = ""%string)) &&
         negb (bool_decide (cb_ObjectKey callback = ImageAsset.ObjectKey a))
      then inl (EApi (Conflict BizModerationCallbackInvalid "审核回调对象与上传记录不一致"))
      else if bool_decide (ImageAsset.PublicURL a = ""%string) ||
              IsPurgedImageURL (ImageAsset.PublicURL a)
      then inl (EApi (Conflict BizModerationCallbackInvalid "审核回调对应的上传尚未完成"))
      else inr a
  end.

Definition imageModerationRecord (callback : ImageModerationCallback) (now : time)
    : ModerationRecord.t :=
  let job := if bool_decide (cb_ProviderJobID callback = ""%string) then None
             else Some (cb_ProviderJobID callback) in
  ModerationRecord.mk 0 None None (Some (cb_ImageAssetID callback)) None None None None None None
    ModerationSceneImage (cb_Provider callback) job (cb_Verdict callback) (cb_Labels callback)
    (cb_Score callback) (cb_RawResponse callback) None None None now.

Definition reconcileDuplicateImageResult (callback : ImageModerationCallback)
    (asset : ImageAsset.t) : MT ImageModerationApplyResult :=
  let* existing := on_error (FindMachineRecordByProviderJobID (cb_Provider callback)
                               (cb_ProviderJobID callback)) internal in
  if negb (bool_decide (ModerationRecord.ImageAssetID existing = Some (cb_ImageAssetID callback)))
  then api_error (Conflict BizModerationCallbackInvalid "审核回调任务号与图片不一致")
  else
    on_error (reconcileImageAccess (Some asset) (ModerationRecord.ID existing)) internal ;;;
    on_error (DeleteForAsset (cb_ImageAssetID callback)) internal ;;;
    mret (mkApplyResult true 0 0).

Definition applyImageResult (callback : ImageModerationCallback) (requireJobID : bool)
    : MT ImageModerationApplyResult :=
  lift (validateImageCallback callback requireJobID) ;;;
  let* postIDs := on_error (LockPendingPostsForImage (cb_ImageAssetID callback)) internal in
  let* assets := on_error (LockImagesForPosts (cb_ImageAssetID callback) postIDs) internal in
  let* asset := lift (validateCallbackAsset callback assets) in
  let* now := Now in
  let* created := on_error (CreateMachineRecordIfNew (imageModerationRecord callback now))
    internal in
  match created with
  | None => reconcileDuplicateImageResult callback asset
  | Some record =>
      on_error (UpdateImageModeration (cb_ImageAssetID callback) (cb_Verdict callback))
        (to_api BizImageNotFound "图片") ;;;
      let* transitions := on_error (ReconcilePendingPosts postIDs) internal in
      (if negb (bool_decide (cb_Verdict callback = ModerationVerdictPass))
       then Alert (verdict_alert ModerationTargetImage (cb_ImageAssetID callback) None
              (cb_Provider callback) (Some (cb_ProviderJobID callback)) (cb_Verdict callback)
              (cb_Labels callback))
       else mret tt) ;;;
      on_error (applyImageAccess (Some asset) (ModerationRecord.ID record)
                  (cb_Verdict callback)) internal ;;;
      on_error (DeleteForAsset (cb_ImageAssetID callback)) internal ;;;
      mret (mkApplyResult false (fst transitions) (snd transitions))
  end.

Definition ApplyImageCallback (callback : ImageModerationCallback)
    : MT ImageModerationApplyResult := applyImageResult callback true.
Definition ApplyImageResult (callback : ImageModerationCallback)
    : MT ImageModerationApplyResult := applyImageResult callback false.

(** *** The review of a whole post *)
Definition validateMachineReviewRecord (record : ModerationRecord.t) : goerr + unit :=
  if bool_decide (ModerationRecord.Provider record = ModerationProviderManual) ||
     negb (rejecting (ModerationRecord.Verdict record))
  then inl (EApi (Conflict BizConflict "只能复核机器判定为 review 或 block 的记录"))
  else inr tt.

Definition moderationRecordTarget (record : ModerationRecord.t) : string * Z :=
  match ModerationRecord.PostID record, ModerationRecord.CommentID record,
        ModerationRecord.ImageAssetID record, ModerationRecord.TagID record,
        ModerationRecord.UserID record with
  | Some id, _, _, _, _ => (ModerationTargetPost, id)
  | None, Some id, _, _, _ => (ModerationTargetComment, id)
  | None, None, Some id, _, _ => (ModerationTargetImage, id)
  | None, None, None, Some id, _ => (ModerationTargetTag, id)
  | None, None, None, None, Some id => (ModerationTargetUser, id)
  | None, None, None, None, None => (""%string, 0)
  end.

Definition manualReviewAlert (original : ModerationRecord.t) (verdict : string)
    (record : ModerationRecord.t) : ModerationAlert :=
  let '(target, id) := moderationRecordTarget original in
  verdict_alert target id (ModerationRecord.Field original) ModerationProviderManual None verdict
    (ModerationRecord.Labels record).

Definition validateManualPostReviewInput (input : ManualPostReviewInput) : goerr + unit :=
  if (mp_PostID input =? 0) || (mp_ReviewerID input =? 0)
  then inl (EApi (InvalidField "post_id" FieldInvalidFormat "帖子与复核人必须是正整数"))
  else if negb (bool_decide (mp_Verdict input = ModerationVerdictPass)) &&
          negb (bool_decide (mp_Verdict input = ModerationVerdictBlock))
  then inl (EApi (InvalidField "status" FieldInvalidEnum "人工复核结论必须是 pass 或 block"))
  else if negb (bool_decide (mp_RawResponse input = ""%string)) &&
          negb (Valid (mp_RawResponse input))
  then inl (EApi (InvalidField "feedback" FieldInvalidFormat "人工复核反馈必须是合法 JSON"))
  else inr tt.

Fixpoint validatePostReviewAssets (assets : list ImageAsset.t) : MT unit :=
  match assets with
  | [] => mret tt
  | a :: assets' =>
      if validVerdict (ImageAsset.Moderation a) then validatePostReviewAssets assets'
      else if bool_decide (ImageAsset.Moderation a = ModerationStatusPending)
      then api_error (Conflict BizModerationNotPending "帖子仍有图片正在机审，暂不能人工复核")
      else internal (ENew "图片存在未知审核状态")
  end.

Definition lockPostReviewSnapshot (postID : Z) : MT postReviewSnapshot :=
  let* post := on_error (LockPostForReview postID) (to_api BizPostNotFound "帖子") in
  if negb (bool_decide (Post.DeletedAt post = None))
  then api_error (NotFound BizPostDeleted "帖子")
  else if negb (bool_decide (Post.Status post = PostStatusPending)) &&
          negb (bool_decide (Post.Status post = PostStatusRejected))
  then api_error (Conflict BizModerationNotPending "帖子当前不在待审核状态")
  else
    let* assets := on_error (LockImagesForPost postID) internal in
    validatePostReviewAssets assets ;;;
    let* latestText := on_error (LatestPostModeration postID)
      (to_api BizModerationNotPending "帖子审核记录") in
    let* pending := on_error (LockPendingReviewRecordsForPost postID) internal in
    mret (mkReviewSnapshot assets latestText pending).

Definition postManualRecord (original : ModerationRecord.t) (input : ManualPostReviewInput)
    (now : time) : ModerationRecord.t :=
  original <| ModerationRecord.ID := 0 |>
    <| ModerationRecord.Provider := ModerationProviderManual |>
    <| ModerationRecord.ProviderJobID := None |>
    <| ModerationRecord.Verdict := mp_Verdict input |> <| ModerationRecord.Labels := [] |>
    <| ModerationRecord.Score := None |> <| ModerationRecord.RawResponse := mp_RawResponse input |>
    <| ModerationRecord.ReviewerID := Some (mp_ReviewerID input) |>
    <| ModerationRecord.ReviewedAt := Some now |>
    <| ModerationRecord.SupersedesID := Some (ModerationRecord.ID original) |>
    <| ModerationRecord.CreatedAt := now |>.

(** Whether the loop skips an original: an older verdict of the text, or one the
    image has moved on from. *)
Definition outdated (snapshot : postReviewSnapshot) (original : ModerationRecord.t) : bool :=
  match ModerationRecord.PostID original with
  | Some _ => negb (ModerationRecord.ID original =? ModerationRecord.ID (rs_latestText snapshot))
  | None => false
  end ||
  match ModerationRecord.ImageAssetID original with
  | Some id =>
      match imageAssetByID (rs_assets snapshot) id with
      | None => true
      | Some a => negb (bool_decide (ImageAsset.Moderation a = ModerationRecord.Verdict original))
      end
  | None => false
  end.

(** The manual records with the machine records they answer, in order. *)
Fixpoint manual_records (input : ManualPostReviewInput) (snapshot : postReviewSnapshot)
    (now : time) (pending : list ModerationRecord.t)
    : MT (list (ModerationRecord.t * ModerationRecord.t)) :=
  match pending with
  | [] => mret []
  | original :: pending' =>
      lift (validateMachineReviewRecord original) ;;;
      if outdated snapshot original then manual_records input snapshot now pending'
      else
        let* record := on_error (CreateManualRecord (postManualRecord original input now))
          (fun err => if IsUniqueViolation err "uq_mr_supersedes"
                      then api_error (Conflict BizConflict "帖子中有机器审核记录已经复核")
                      else internal err) in
        let* rest := manual_records input snapshot now pending' in
        mret ((record, original) :: rest)
  end.

(** [uniqueIDs]: the first occurrence of each, in order. *)
Fixpoint unique_from (seen ids : list Z) : list Z :=
  match ids with
  | [] => []
  | id :: ids' =>
      if bool_decide (id ∈ seen) then unique_from seen ids' else id :: unique_from (id :: seen) ids'
  end.
Definition uniqueIDs (ids : list Z) : list Z := unique_from [] ids.

Definition createPostManualRecords (input : ManualPostReviewInput) (snapshot : postReviewSnapshot)
    : MT (list (ModerationRecord.t * ModerationRecord.t) * list Z) :=
  let* now := Now in
  let* records := manual_records input snapshot now (rs_pending snapshot) in
  match records with
  | [] => api_error (Conflict BizModerationNotPending "帖子没有待人工复核的当前机审记录")
  | _ => mret (records,
           uniqueIDs (omap (fun ro => ModerationRecord.ImageAssetID (snd ro)) records))
  end.

Fixpoint update_images (imageIDs : list Z) (status : string) : MT unit :=
  match imageIDs with
  | [] => mret tt
  | id :: ids => on_error (UpdateImageModeration id status) internal ;;; update_images ids status
  end.

Fixpoint access_images (snapshot : postReviewSnapshot) (verdict : string)
    (records : list ModerationRecord.t) : MT unit :=
  match records with
  | [] => mret tt
  | r :: records' =>
      match ModerationRecord.ImageAssetID r with
      | None => mret tt
      | Some id =>
          on_error (applyImageAccess (imageAssetByID (rs_assets snapshot) id)
                      (ModerationRecord.ID r) verdict) internal
      end ;;;
      access_images snapshot verdict records'
  end.

Definition applyPostManualVerdict (input : ManualPostReviewInput) (snapshot : postReviewSnapshot)
    (imageIDs : list Z) (records : list ModerationRecord.t) : MT unit :=
  update_images imageIDs (mp_Verdict input) ;;;
  let* postIDs := on_error (PendingPostIDsForImages imageIDs) internal in
  let* _ := on_error (ReconcilePendingPosts (postIDs ++ [mp_PostID input])) internal in
  access_images snapshot (mp_Verdict input) records.

Fixpoint alertPostManualBlock (verdict : string)
    (records : list (ModerationRecord.t * ModerationRecord.t)) : MT unit :=
  match records with
  | [] => mret tt
  | (record, original) :: records' =>
      Alert (manualReviewAlert original verdict record) ;;; alertPostManualBlock verdict records'
  end.

Definition ManualReviewPost (input : ManualPostReviewInput)
    : MT (list ModerationRecord.t) :=
  lift (validateManualPostReviewInput input) ;;;
  let* snapshot := lockPostReviewSnapshot (mp_PostID input) in
  let* created := createPostManualRecords input snapshot in
  applyPostManualVerdict input snapshot (snd created) (map fst (fst created)) ;;;
  (if bool_decide (mp_Verdict input = ModerationVerdictBlock)
   then alertPostManualBlock (mp_Verdict input) (fst created)
   else mret tt) ;;;
  mret (map fst (fst created)).
End service.
End ModerationService.
