(* ===== verification/UserService.v ===== *)
(** * The user service: [internal/service/user.go], [username_review.go]

    Profiles, their moderation, usernames and follows.  Each method in full, in the
    code's order.  The two lists of posts ([Posts], [Favorites]) belong to the reading
    of posts, which is not modelled. *)

From S2P Require Import Prelude.
From S2P Require Import GoText.
From S2P Require Import Apierr.
From S2P Require Import Effects.
From S2P Require Import Model.
From S2P Require Import Validation.
From S2P Require Import Pagination.
From S2P Require Import AuthRepo.
From S2P Require Import AuthService.
From S2P Require Import Notifications.
From S2P Require Import PostRepo.
From S2P Require Import UserRepo.
From S2P Require Import Moderation.
Open Scope Z_scope.

Definition maxUserBioRunes : Z := 500.
Definition ModerationAlertKindVerdict : string := "verdict".

(** [optionalNonBlank]. *)
Definition optionalNonBlank (value : string) : option string :=
  if bool_decide (value = ""%string) then None else Some value.

(** A field of the input: absent, or present with a value that may be null. *)
Record UpdateUserInput := mkUpdateUser {
  uu_Username : option (option string);
  uu_Bio : option (option string);
  uu_Gender : option (option string);
  uu_AvatarURL : option (option string);
}.

Record UserProfile := mkProfile {
  up_ID : Z;
  up_Email : option string;
  up_Username : string;
  up_AvatarURL : option string;
  up_Bio : option string;
  up_Gender : option string;
  up_Roles : option (list string);
  up_Stats : UserDomain.UserStatsRow;
  up_IsFollowing : bool;
  up_CreatedAt : time;
}.
#[global] Instance eta_UserProfile : Eta UserProfile := fun x =>
  mkProfile (up_ID x) (up_Email x) (up_Username x) (up_AvatarURL x) (up_Bio x) (up_Gender x)
    (up_Roles x) (up_Stats x) (up_IsFollowing x) (up_CreatedAt x).

Record UserListItem := mkListItem {
  li_ID : Z;
  li_Username : string;
  li_AvatarURL : option string;
  li_Bio : option string;
  li_Stats : UserDomain.UserStatsRow;
  li_IsFollowing : bool;
}.
Record UserFollowList := mkFollowList {
  fl_Users : list UserListItem; fl_Pagination : CursorMeta }.
Record FollowActionResult := mkFollowAction { fa_IsFollowing : bool; fa_FollowerCount : Z }.
Record UsernameChangeView := mkChangeView {
  uv_ID : Z; uv_OldUsername : string; uv_NewUsername : string; uv_ChangedAt : time }.

(** ** Usernames: username_review.go *)
Section usernames.
Context `{Env} `{Pg} `{Unicode} `{DbClock}.

Definition userNotFoundError {A} (err : goerr) : MT A :=
  if is_not_found err then api_error (NotFound BizNotFound "用户") else internal err.

Definition usernameChangeLimitedError : Error :=
  TooManyRequests BizUsernameChangeLimited "修改用户名后需间隔满 30 天才能再次修改".

Definition username_claim_taken (err : goerr) : bool :=
  IsUniqueViolation err "uq_user_name_claims_name_lower" ||
  IsUniqueViolation err "uq_users_name_lower" || err_is ErrAlreadyExistsText err.

Definition claimUsername (userID : Z) (candidate : string) : MT unit :=
  let* now := Now in
  on_error (UserRepository.ClaimUsername userID candidate now)
    (fun err => if username_claim_taken err then api_error username_taken else internal err).

Definition profile_error {A} (err : goerr) : MT A :=
  if IsCheckViolation err "user_name_change_records_cooldown_check"
  then api_error usernameChangeLimitedError else userNotFoundError err.

Definition name_field (name : string) : UserDomain.ProfileFields :=
  UserDomain.no_fields <| UserDomain.pf_name := Some name |>.

Definition applyManualUsernameVerdict (original : ModerationRecord.t) (verdict : string)
    : MT unit :=
  if negb (bool_decide (verdict = ModerationVerdictPass)) then mret tt
  else
    match ModerationRecord.UsernameCandidate original, ModerationRecord.UsernameRevision original with
    | Some raw, Some submitted =>
        let* user := on_error
          (UserRepository.LockByID (default 0 (ModerationRecord.UserID original)))
          userNotFoundError in
        let* revision := on_error (UserDomain.UsernameRevision (User.ID user)) internal in
        if negb (revision =? submitted)
        then api_error (Conflict BizConflict "用户名已变更，该审核申请已过期")
        else
          let* candidate := lift (normalizeUsername raw) in
          if bool_decide (candidate = User.Username user) then mret tt
          else
            let* changed := on_error (UserDomain.HasRecentUsernameChange (User.ID user))
              internal in
            if (changed : bool) then api_error usernameChangeLimitedError
            else
              claimUsername (User.ID user) candidate ;;;
              on_error (UserDomain.UpdateProfile (User.ID user) (name_field candidate))
                profile_error
    | _, _ => api_error (Conflict BizConflict "该历史审核缺少候选用户名，请用户重新提交")
    end.
End usernames.

(** ** user.go *)
Record UserService := mkUserService {
  us_moderator : ContentModerator;
  us_following : CursorCodec;
  us_followers : CursorCodec;
}.
Definition NewUserServiceWithCursorSecret (moderator : ContentModerator) (cursorSecret : string)
    : UserService :=
  mkUserService moderator (NewCursorCodec cursorSecret "users.following")
    (NewCursorCodec cursorSecret "users.followers").

Module UserService.

(** *** Pure helpers *)
Definition buildUserProfile (record : UserDomain.UserProfileRecord) : UserProfile :=
  let u := UserDomain.pr_User record in
  mkProfile (User.ID u) None (User.Username u) (UserDomain.pr_AvatarURL record) (User.Bio u)
    (User.Gender u) None (UserDomain.pr_Stats record) (UserDomain.pr_IsFollowing record)
    (User.CreatedAt u).

Definition list_item (row : UserDomain.UserListRecord) : UserListItem :=
  mkListItem (UserDomain.lr_ID row) (UserDomain.lr_Name row) (UserDomain.lr_AvatarURL row)
    (UserDomain.lr_Bio row) (UserDomain.lr_Stats row) (UserDomain.lr_IsFollowing row).
Definition userFollowList (rows : list UserDomain.UserListRecord) (meta : CursorMeta)
    : UserFollowList := mkFollowList (map list_item rows) meta.

Section helpers.
Context `{Unicode}.

Definition normalized_name (input : option (option string)) : goerr + option (option string) :=
  match input with
  | None => inr None
  | Some None => inl (EApi (InvalidField "username" FieldInvalidFormat "用户名不能是 null"))
  | Some (Some raw) =>
      match normalizeUsername raw with
      | inl err => inl err
      | inr name => inr (Some (Some name))
      end
  end.
Definition normalized_bio (input : option (option string)) : goerr + option (option string) :=
  match input with
  | Some (Some raw) =>
      let value := TrimSpace raw in
      if maxUserBioRunes <? RuneCountInString value
      then inl (EApi (InvalidField "bio" FieldTooLong "简介不能超过 500 个字符"))
      else inr (Some (optionalNonBlank value))
  | _ => inr input
  end.
Definition normalized_gender (input : option (option string))
    : goerr + option (option string) :=
  match input with
  | Some (Some raw) =>
      let value := TrimSpace raw in
      if negb (validGender value)
      then inl (EApi (InvalidField "gender" FieldInvalidEnum "gender 取值不合法"))
      else inr (Some (Some value))
  | _ => inr input
  end.
Definition normalized_avatar (input : option (option string)) : option (option string) :=
  match input with
  | Some (Some raw) => Some (optionalNonBlank (TrimSpace raw))
  | _ => input
  end.

Definition normalizeUserUpdate (input : UpdateUserInput) : goerr + UpdateUserInput :=
  match normalized_name (uu_Username input) with
  | inl err => inl err
  | inr name =>
      match normalized_bio (uu_Bio input) with
      | inl err => inl err
      | inr bio =>
          match normalized_gender (uu_Gender input) with
          | inl err => inl err
          | inr gender => inr (mkUpdateUser name bio gender (normalized_avatar (uu_AvatarURL input)))
          end
      end
  end.

(** The value to write when the input has one and it differs. *)
Definition changed {A} `{EqDecision A} (old : A) (input : option A) : option A :=
  match input with
  | Some new => if bool_decide (new = old) then None else Some new
  | None => None
  end.

Definition changed_name (user : User.t) (input : UpdateUserInput) : option string :=
  match uu_Username input with
  | Some (Some name) => changed (User.Username user) (Some name)
  | _ => None
  end.
Definition changed_bio (user : User.t) (input : UpdateUserInput) : option (option string) :=
  changed (User.Bio user) (uu_Bio input).

(** The fields to write, and the texts to review. *)
Definition changedUserFields (user : User.t) (input : UpdateUserInput)
    : UserDomain.ProfileFields * list (string * string) :=
  (UserDomain.mkFields (changed_name user input) (changed_bio user input)
     (changed (User.Gender user) (uu_Gender input)) None,
   match changed_name user input with
   | Some name => if bool_decide (name = ""%string) then [] else [(ModerationFieldName, name)]
   | None => []
   end ++
   match changed_bio user input with
   | Some (Some bio) => [(ModerationFieldBio, bio)]
   | _ => []
   end).
End helpers.

Section service.
Context `{Env} `{Pg} `{Unicode} `{DbClock} (s : UserService).

Definition ensureUser (userID : Z) : MT unit :=
  let* _ := on_error (UserDomain.FindByID userID) userNotFoundError in mret tt.

Definition Delete (userID currentUserID : Z) : MT Z :=
  if negb (userID =? currentUserID)
  then api_error (Forbidden BizNotOwner "只能注销自己的账号")
  else
    let* _ := on_error (UserRepository.LockByID userID) userNotFoundError in
    let* now := Now in
    on_error (UserDomain.SoftDelete userID now) userNotFoundError ;;;
    on_error (SessionRepository.RevokeAll userID now) internal ;;;
    mret userID.

Definition Profile (userID currentUserID : Z) : MT UserProfile :=
  let* record := on_error (UserDomain.FindProfile userID currentUserID) userNotFoundError in
  let profile := buildUserProfile record in
  if userID =? currentUserID then
    let* roles := on_error (UserRepository.FindRoles userID) internal in
    mret (profile <| up_Email := Some (User.Email (UserDomain.pr_User record)) |>
                  <| up_Roles := Some roles |>)
  else mret profile.

Definition UsernameHistory (userID currentUserID : Z) : MT (list UsernameChangeView) :=
  if negb (userID =? currentUserID)
  then api_error (Forbidden BizNotOwner "只能查看自己的用户名修改记录")
  else
    ensureUser userID ;;;
    let* records := on_error (UserDomain.FindUsernameChangeRecords userID) internal in
    mret (map (fun r => mkChangeView (UsernameChangeRecord.ID r)
      (UsernameChangeRecord.OldUsername r) (UsernameChangeRecord.NewUsername r)
      (UsernameChangeRecord.ChangedAt r)) records).

(** *** Update *)
Definition user_alert (userID : Z) (field : string) (result : ModerationResult)
    : ModerationAlert :=
  mkModerationAlert ModerationAlertKindVerdict ModerationTargetUser userID (Some field) "" None
    (mr_Verdict result) (mr_Labels result) "" "" 0 0 0 0.

Definition reviewUserField (userID : Z) (field content : string) : MT ModerationResult :=
  let* result := call_review (us_moderator s)
    (mkModerationRequest ModerationTargetUser (Some field) content) in
  validateModerationResult result ;;;
  let* now := Now in
  let record := moderationRecordForUser userID field result now in
  let* record := (if bool_decide (field = ModerationFieldName)
    then let* revision := on_error (UserDomain.UsernameRevision userID) internal in
         mret (record <| ModerationRecord.UsernameCandidate := Some content |>
                      <| ModerationRecord.UsernameRevision := Some revision |>)
    else mret record) in
  on_error (UserDomain.CreateModerationRecord record) internal ;;;
  (if bool_decide (mr_Verdict result = ModerationVerdictBlock)
   then Alert (user_alert userID field result) else mret tt) ;;;
  mret result.

Definition avatar_usable (url : string) (a : ImageAsset.t) : bool :=
  bool_decide (ImageAsset.PublicURL a = url) && negb (IsPurgedImageURL (ImageAsset.PublicURL a)) &&
  (bool_decide (ImageAsset.Status a = ImageStatusPending) ||
   bool_decide (ImageAsset.Status a = ImageStatusReady)) &&
  bool_decide (ImageAsset.Moderation a = ModerationStatusPass).

Definition avatar_not_found : Error := NotFound BizImageNotFound "头像图片".

Definition resolveAvatar (user : User.t) (avatarURL : option string) : MT (option Z) :=
  match avatarURL with
  | None =>
      on_error (PostRepository.LockImagesByIDs (option_list (User.AvatarImageAssetID user)))
        internal ;;;
      mret None
  | Some url =>
      let* assets := on_error (PostRepository.FindImagesByURLs [url]) internal in
      match assets with
      | [asset] =>
          let newID := ImageAsset.ID asset in
          let* locked := on_error (PostRepository.LockImagesByIDs
            (option_list (User.AvatarImageAssetID user) ++ [newID])) internal in
          match ModerationService.imageAssetByID locked newID with
          | None => api_error avatar_not_found
          | Some selected =>
              if negb (bool_decide (ImageAsset.UploaderID selected = Some (User.ID user)))
              then api_error (Forbidden BizImageNotOwned "只能使用自己上传的头像")
              else if negb (bool_decide (ImageAsset.Purpose selected = ImagePurposeAvatar))
              then api_error (BadRequest BizImagePurposeWrong "图片用途不是头像")
              else if negb (avatar_usable url selected)
              then api_error (Conflict BizImageNotApproved "头像图片尚不可引用")
              else mret (Some newID)
          end
      | _ => api_error avatar_not_found
      end
  end.

(** The name is reviewed before anything else: a verdict against it is reported, and
    its record is kept ([EPersisted]). *)
Definition review_name (userID : Z) (name : option string) : MT unit :=
  match name with
  | None => mret tt
  | Some name =>
      let* changed := on_error (UserDomain.HasRecentUsernameChange userID) internal in
      if (changed : bool) then api_error usernameChangeLimitedError
      else
        let* result := reviewUserField userID ModerationFieldName name in
        if negb (bool_decide (mr_Verdict result = ModerationVerdictPass))
        then throw (EPersisted (EApi (moderationVerdictError (mr_Verdict result) "用户名")))
        else claimUsername userID name
  end.

Definition with_avatar (user : User.t) (input : UpdateUserInput)
    (fields : UserDomain.ProfileFields) : MT UserDomain.ProfileFields :=
  match uu_AvatarURL input with
  | None => mret fields
  | Some url =>
      let* avatarID := resolveAvatar user url in
      mret (if bool_decide (User.AvatarImageAssetID user = avatarID) then fields
            else fields <| UserDomain.pf_avatar := Some avatarID |>)
  end.

Fixpoint moderate_fields (userID : Z) (moderated : list (string * string)) : MT unit :=
  match moderated with
  | [] => mret tt
  | (field, text) :: rest =>
      (if bool_decide (field = ModerationFieldName) then mret tt
       else let* _ := reviewUserField userID field text in mret tt) ;;;
      moderate_fields userID rest
  end.

Definition Update (userID currentUserID : Z) (raw : UpdateUserInput) : MT UserProfile :=
  if negb (userID =? currentUserID)
  then api_error (Forbidden BizNotOwner "只能修改自己的资料")
  else
    let* input := lift (normalizeUserUpdate raw) in
    let* user := on_error (UserRepository.LockByID userID) userNotFoundError in
    let '(fields, moderated) := changedUserFields user input in
    review_name userID (changed_name user input) ;;;
    let* fields := with_avatar user input fields in
    on_error (UserDomain.UpdateProfile userID fields) profile_error ;;;
    moderate_fields userID moderated ;;;
    Profile userID currentUserID.

(** *** Follows *)
Definition followResult (targetID : Z) (isFollowing : bool) : MT FollowActionResult :=
  let* count := on_error (UserDomain.FollowerCount targetID) internal in
  mret (mkFollowAction isFollowing count).

Definition Follow (targetID currentUserID : Z) : MT FollowActionResult :=
  if targetID =? currentUserID
  then api_error (BadRequest BizCannotFollowSelf "不能关注自己")
  else
    ensureUser targetID ;;;
    let* created := on_error (UserDomain.Follow currentUserID targetID) internal in
    (if (created : bool)
     then on_error (NotificationRepository.Create
            (Notification.mk 0 targetID currentUserID NotificationTypeFollow None None None false
               zero_time zero_time)) internal
     else mret tt) ;;;
    followResult targetID true.

Definition Unfollow (targetID currentUserID : Z) : MT FollowActionResult :=
  if targetID =? currentUserID
  then api_error (BadRequest BizCannotFollowSelf "不能取消关注自己")
  else
    ensureUser targetID ;;;
    on_error (UserDomain.Unfollow currentUserID targetID) internal ;;;
    followResult targetID false.

Definition userFollowCursorMeta (codec : CursorCodec) (rows : list UserDomain.UserListRecord)
    (limit : Z) (hasMore : bool) : MT CursorMeta :=
  match last rows with
  | Some last_ =>
      if hasMore then
        let* token := on_error (Encode codec
          (Cursor.mk (UserDomain.lr_FollowCreatedAt last_) (UserDomain.lr_ID last_) None))
          internal in
        mret (mkCursorMeta limit (Some token) hasMore)
      else mret (mkCursorMeta limit None hasMore)
  | None => mret (mkCursorMeta limit None hasMore)
  end.

(** The two lists; an error of the page or of the cursor is reported as it is by
    [userFollowCursorMeta], then wrapped by [userFollowList]. *)
Definition follow_page (codec : CursorCodec)
    (find : CursorParams -> MT (list UserDomain.UserListRecord * bool))
    (userID : Z) (request : CursorRequest) : MT UserFollowList :=
  ensureUser userID ;;;
  let* params := lift (DecodeRequest codec request) in
  on_error
    (let* page := find params in
     let* meta := userFollowCursorMeta codec (fst page) (cp_Limit params) (snd page) in
     mret (userFollowList (fst page) meta)) internal.

Definition Following (userID : Z) (request : CursorRequest) (currentUserID : Z)
    : MT UserFollowList :=
  follow_page (us_following s) (UserDomain.FindFollowingPage userID currentUserID) userID request.
Definition Followers (userID : Z) (request : CursorRequest) (currentUserID : Z)
    : MT UserFollowList :=
  follow_page (us_followers s) (UserDomain.FindFollowersPage userID currentUserID) userID request.
End service.
End UserService.
