(* ===== verification/SingleReview.v ===== *)
(** * The review of one machine verdict: [ManualReview] of
    [internal/service/moderation_callback.go], with the verdicts it applies
    ([internal/repository/moderation.go]) and [AdminService.ManualReview]
    ([admin_moderation.go])

    A machine record that reviews or blocks a comment, a tag, an image shown by no
    pending post, or a user's name or bio; the records of posts go through
    [ManualReviewPost]. *)

From S2P Require Import Prelude.
From S2P Require Import GoText.
From S2P Require Import Apierr.
From S2P Require Import Effects.
From S2P Require Import Model.
From S2P Require Import AuthRepo.
From S2P Require Import AuthService.
From S2P Require Import PostRepo.
From S2P Require Import CommentRepo.
From S2P Require Import Json.
From S2P Require Import Moderation.
From S2P Require Import UserService.
Open Scope Z_scope.

(** ** internal/repository/moderation.go *)
Module SingleReviewRepository.
Section ops.
Context `{Env} `{Pg} `{DbClock}.
Import ModerationRecord.

Definition FindRecordForReview (moderationRecordID : Z) : MT t :=
  First (fun db => moderation_records db !! moderationRecordID).
Definition LockRecordForReview (moderationRecordID : Z) : MT t :=
  First (fun db => moderation_records db !! moderationRecordID).

(** The lock on the target; the targets are looked up by primary key. *)
Definition target_exists (record : t) (db : DB) : option unit :=
  match PostID record, CommentID record, TagID record, UserID record with
  | Some p, _, _, _ => (fun _ => tt) <$> posts db !! p
  | None, Some c, _, _ => (fun _ => tt) <$> comments db !! c
  | None, None, Some g, _ => (fun _ => tt) <$> tags db !! g
  | None, None, None, Some u => (fun _ => tt) <$> users db !! u
  | None, None, None, None => None
  end.
Definition LockManualTarget (record : t) : MT unit :=
  match PostID record, CommentID record, TagID record, UserID record, ImageAssetID record with
  | None, None, None, None, Some _ => throw (ENew "图片人工复核必须先按帖子、资产顺序锁定")
  | None, None, None, None, None => throw ErrNotFound
  | _, _, _, _, _ => First (target_exists record)
  end.

(** [Scan] leaves 0 when there is no row. *)
Definition IsCurrentContentRevision (record : t) : MT bool :=
  match ContentRevision record with
  | None => mret (bool_decide (PostID record = None) && bool_decide (CommentID record = None))
  | Some revision =>
      match PostID record, CommentID record with
      | Some p, _ => query (fun db =>
          default 0 (Post.CurrentRevision <$> posts db !! p) =? revision)
      | None, Some c => query (fun db =>
          default 0 (Comment.CurrentRevision <$> comments db !! c) =? revision)
      | None, None => mret false
      end
  end.

(** The [UPDATE] of a post: a pass is refused while an image has not passed. *)
Definition applyManualPostVerdict (postID : Z) (verdict : string) : MT unit :=
  let pass := bool_decide (verdict = ModerationVerdictPass) in
  exec (fun db => db <| posts := snd (update_where
    (fun p => PostRepository.by_id postID p &&
       (bool_decide (Post.Status p = PostStatusPending) ||
        bool_decide (Post.Status p = PostStatusRejected)) && PostRepository.undeleted p &&
       negb (pass && ModerationRepository.image_with
                       (fun m => negb (bool_decide (m = ModerationStatusPass))) postID db))
    (fun p => p <| Post.Status := if pass then PostStatusApproved else PostStatusRejected |>)
    (posts db)) |>).

Definition applyManualCommentVerdict (commentID : Z) (verdict : string) : MT unit :=
  let* now := Now in CommentRepository.ApplyModeration commentID verdict now.

(** GORM sets [updated_at] too. *)
Definition applyManualTagVerdict (tagID : Z) (verdict : string) : MT unit :=
  let* deletedAt := (if bool_decide (verdict = ModerationVerdictBlock)
                     then let* now := Now in mret (Some now) else mret None) in
  let* updated := Now in
  exec (fun db => db <| tags := alter (fun g =>
    let g := g <| Tag.Moderation := verdict |> <| Tag.UpdatedAt := updated |> in
    match deletedAt with Some d => g <| Tag.DeletedAt := Some d |> | None => g end)
    tagID (tags db) |>).

Definition ApplyManualTextVerdict (original : t) (verdict : string) : MT unit :=
  let* current := IsCurrentContentRevision original in
  if negb (current : bool) then mret tt
  else
    match PostID original, CommentID original, TagID original, UserID original with
    | Some p, _, _, _ => applyManualPostVerdict p verdict
    | None, Some c, _, _ => applyManualCommentVerdict c verdict
    | None, None, Some g, _ => applyManualTagVerdict g verdict
    | None, None, None, Some _ => mret tt
    | None, None, None, None => throw ErrNotFound
    end.
End ops.
End SingleReviewRepository.

(** ** internal/service/moderation_callback.go *)
Module SingleReviewService.
Import SingleReviewRepository.

(** [Score] in hundredths, as the column keeps it. *)
Record ManualReviewInput := mkManualReview {
  mi_MachineRecordID : Z;
  mi_ReviewerID : Z;
  mi_Verdict : string;
  mi_Labels : list string;
  mi_Score : option Z;
  mi_RawResponse : string;
}.

Record AdminReviewResult := mkAdminReview {
  ar_ModerationRecordID : Z;
  ar_TargetType : string;
  ar_TargetID : Z;
  ar_Verdict : string;
  ar_ReviewedAt : time;
}.

Section service.
Context `{Env} `{Pg} `{Unicode} `{DbClock}.
Context (imageAccess : ImageAccessController).

Definition validateManualReviewInput (input : ManualReviewInput) : goerr + unit :=
  if (mi_MachineRecordID input =? 0) || (mi_ReviewerID input =? 0)
  then inl (EApi (InvalidField "moderation_record_id" FieldInvalidFormat
         "复核记录与复核人必须是正整数"))
  else if negb (bool_decide (mi_Verdict input = ModerationVerdictPass)) &&
          negb (bool_decide (mi_Verdict input = ModerationVerdictBlock))
  then inl (EApi (InvalidField "verdict" FieldInvalidEnum "人工复核结论必须是 pass 或 block"))
  else if match mi_Score input with Some v => (v <? 0) || (100 * 100 <? v) | None => false end
  then inl (EApi (InvalidField "score" FieldOutOfRange "人工复核分数必须在 0 到 100 之间"))
  else if negb (bool_decide (mi_RawResponse input = ""%string)) &&
          negb (Valid (mi_RawResponse input))
  then inl (EApi (InvalidField "raw_response" FieldInvalidFormat
         "人工复核原始信息必须是合法 JSON"))
  else inr tt.

Definition validateSingleReviewScope (record : ModerationRecord.t) : MT unit :=
  if bool_decide (ModerationRecord.PostID record <> None)
  then api_error (Conflict BizConflict "帖子审核记录必须通过整帖复核端点一次性处理")
  else
    match ModerationRecord.ImageAssetID record with
    | None => mret tt
    | Some image =>
        let* postIDs := on_error (ModerationRepository.PendingPostIDsForImages [image]) internal in
        match postIDs with
        | [] => mret tt
        | _ => api_error (Conflict BizConflict "帖子附图审核记录必须随所属帖子一次性处理")
        end
    end.

(** The locks: the pending posts and the images of an image record, the target of
    another. *)
Definition lock_target (record : ModerationRecord.t) : MT (list Z * list ImageAsset.t) :=
  match ModerationRecord.ImageAssetID record with
  | Some image =>
      let* postIDs := ModerationRepository.LockPendingPostsForImage image in
      let* assets := ModerationRepository.LockImagesForPosts image postIDs in
      mret (postIDs, assets)
  | None => LockManualTarget record ;;; mret ([], [])
  end.

Definition manual_record (original : ModerationRecord.t) (input : ManualReviewInput) (now : time)
    : ModerationRecord.t :=
  original <| ModerationRecord.ID := 0 |>
    <| ModerationRecord.Provider := ModerationProviderManual |>
    <| ModerationRecord.ProviderJobID := None |>
    <| ModerationRecord.Verdict := mi_Verdict input |>
    <| ModerationRecord.Labels := mi_Labels input |>
    <| ModerationRecord.Score := mi_Score input |>
    <| ModerationRecord.RawResponse := mi_RawResponse input |>
    <| ModerationRecord.ReviewerID := Some (mi_ReviewerID input) |>
    <| ModerationRecord.ReviewedAt := Some now |>
    <| ModerationRecord.SupersedesID := Some (ModerationRecord.ID original) |>
    <| ModerationRecord.CreatedAt := now |>.

Definition applyManualImageVerdict (imageAssetID : Z) (imagePostIDs : list Z)
    (imageAssets : list ImageAsset.t) (sourceModerationRecordID : Z) (verdict : string)
    : MT unit :=
  ModerationRepository.UpdateImageModeration imageAssetID verdict ;;;
  let* _ := ModerationRepository.ReconcilePendingPosts imagePostIDs in
  ModerationService.applyImageAccess imageAccess
    (ModerationService.imageAssetByID imageAssets imageAssetID) sourceModerationRecordID verdict.

(** A verdict on a user's name. *)
Definition on_username (r : ModerationRecord.t) : bool :=
  bool_decide (ModerationRecord.UserID r <> None) &&
  bool_decide (ModerationRecord.Field r = Some ModerationFieldName).

Definition apply_verdict (original : ModerationRecord.t) (record : ModerationRecord.t)
    (locked : list Z * list ImageAsset.t) (verdict : string) : MT unit :=
  match ModerationRecord.ImageAssetID original with
  | Some image =>
      on_error (applyManualImageVerdict image (fst locked) (snd locked)
        (ModerationRecord.ID record) verdict) internal
  | None =>
      if on_username original then applyManualUsernameVerdict original verdict
      else on_error (ApplyManualTextVerdict original verdict) internal
  end.

Definition ManualReview (input : ManualReviewInput) : MT ModerationRecord.t :=
  lift (validateManualReviewInput input) ;;;
  let* snapshot := on_error (FindRecordForReview (mi_MachineRecordID input))
    (ModerationService.to_api BizNotFound "审核记录") in
  lift (ModerationService.validateMachineReviewRecord snapshot) ;;;
  validateSingleReviewScope snapshot ;;;
  let* locked := on_error (lock_target snapshot) internal in
  let* original := on_error (LockRecordForReview (mi_MachineRecordID input))
    (ModerationService.to_api BizNotFound "审核记录") in
  lift (ModerationService.validateMachineReviewRecord original) ;;;
  let* now := Now in
  let* record := on_error
    (ModerationRepository.CreateManualRecord (manual_record original input now))
    (fun err => if IsUniqueViolation err "uq_mr_supersedes"
                then api_error (Conflict BizConflict "该机器审核记录已经复核")
                else internal err) in
  apply_verdict original record locked (mi_Verdict input) ;;;
  (if negb (bool_decide (mi_Verdict input = ModerationVerdictPass))
   then Alert (ModerationService.manualReviewAlert original (mi_Verdict input) record)
   else mret tt) ;;;
  mret record.

(** *** admin_moderation.go *)
Definition AdminManualReview (input : ManualReviewInput) : MT AdminReviewResult :=
  let* manual := ManualReview input in
  let '(target, id) := ModerationService.moderationRecordTarget manual in
  mret (mkAdminReview (ModerationRecord.ID manual) target id (ModerationRecord.Verdict manual)
    (default zero_time (ModerationRecord.ReviewedAt manual))).
End service.
End SingleReviewService.
