(* ===== verification/PostService.v ===== *)
(** * The post service: [internal/service/post_write.go], the writes of
    [internal/service/post.go], and the posts of [internal/service/admin_content.go] and
    [admin_moderation.go]

    Each method in full: guards and early returns in the code's order, every
    repository call, the text moderation inside the transaction, the history of
    versions, the images that deleting and restoring a post withdraw and return. *)

From S2P Require Import Prelude.
From S2P Require Import GoText.
From S2P Require Import Apierr.
From S2P Require Import Effects.
From S2P Require Import Model.
From S2P Require Import Authz.
From S2P Require Import Validation.
From S2P Require Import AuthRepo.
From S2P Require Import AuthService.
From S2P Require Import Notifications.
From S2P Require Import Money.
From S2P Require Import Json.
From S2P Require Import PostValidation.
From S2P Require Import PostRepo.
From S2P Require Import Moderation.
Open Scope Z_scope.

Record resolvedPostPayload := mkResolved {
  rp_Norm : normalizedPostPayload;
  rp_CanteenID : option Z;
  rp_CuisineID : option Z;
  rp_Flavors : list Flavor.t;
  rp_ImageAssets : list ImageAsset.t;
  rp_ImageIDs : list Z;
}.
#[global] Instance eta_resolved : Eta resolvedPostPayload := fun x =>
  mkResolved (rp_Norm x) (rp_CanteenID x) (rp_CuisineID x) (rp_Flavors x) (rp_ImageAssets x)
    (rp_ImageIDs x).

Record PostCreateResult := mkCreateResult {
  cr_ID : Z; cr_PostType : string; cr_Status : string }.

Record PostService := mkPostService {
  ps_moderator : ContentModerator; ps_imageAccess : ImageAccessController }.

(** ** Pure helpers of post_write.go *)
Definition imagesContainModeration (images : list ImageAsset.t) (status : string) : bool :=
  existsb (fun a => bool_decide (ImageAsset.Moderation a = status)) images.

Definition aggregatePostModeration `{Env} (textVerdict : string) (images : list ImageAsset.t)
    : MT string :=
  if bool_decide (textVerdict = ModerationVerdictBlock) ||
     imagesContainModeration images ModerationStatusBlock
  then mret PostStatusRejected
  else if bool_decide (textVerdict = ModerationVerdictReview) ||
          imagesContainModeration images ModerationStatusReview ||
          imagesContainModeration images ModerationStatusPending
  then mret PostStatusPending
  else if negb (bool_decide (textVerdict = ModerationVerdictPass))
  then internal (ENew "未知的审核结论")
  else mret PostStatusApproved.

Definition budgetColumns (value : option BudgetRangeInput) : option Z * option Z :=
  match value with
  | None => (None, None)
  | Some b => (Some (Min b), Some (Max b))
  end.

Definition newPostModel (resolved : resolvedPostPayload) (authorID : Z) (status : string)
    : Post.t :=
  let n := rp_Norm resolved in
  let '(minimum, maximum) := budgetColumns (np_BudgetRange n) in
  Post.mk 0 authorID (np_PostType n) (np_ShareType n) status (np_Category n) (np_Title n)
    (np_Content n) 1 (rp_CanteenID resolved) (np_CanteenWindowID n) (rp_CuisineID resolved)
    (np_Price n) minimum maximum 0 0 0 0 None None None zero_time zero_time.

Definition contentFields (resolved : resolvedPostPayload) (status : string) (now : time)
    (p : Post.t) : Post.t :=
  let n := rp_Norm resolved in
  let '(budgetMin, budgetMax) := budgetColumns (np_BudgetRange n) in
  p <| Post.ShareType := np_ShareType n |> <| Post.Status := status |>
    <| Post.Category := np_Category n |> <| Post.Title := np_Title n |>
    <| Post.Content := np_Content n |> <| Post.CanteenID := rp_CanteenID resolved |>
    <| Post.CanteenWindowID := np_CanteenWindowID n |> <| Post.CuisineID := rp_CuisineID resolved |>
    <| Post.BudgetMin := budgetMin |> <| Post.BudgetMax := budgetMax |>
    <| Post.UpdatedAt := now |> <| Post.Price := np_Price n |>.

(** [fields["current_revision"] = revision]. *)
Definition versionFields (resolved : resolvedPostPayload) (status : string) (now : time)
    (revision : Z) (p : Post.t) : Post.t :=
  (contentFields resolved status now p) <| Post.CurrentRevision := revision |>.

Definition moderationRecordForTarget (postID tagID : option Z) (result : ModerationResult)
    (now : time) : ModerationRecord.t :=
  ModerationRecord.mk 0 postID None None tagID None None None None None ModerationSceneText
    (mr_Provider result) (mr_ProviderJobID result) (mr_Verdict result) (mr_Labels result)
    (mr_Score result) (mr_RawResponse result) None None None now.

Definition moderationRecordForPost (postID contentRevision : Z) (result : ModerationResult)
    (now : time) : ModerationRecord.t :=
  (moderationRecordForTarget (Some postID) None result now)
    <| ModerationRecord.ContentRevision := Some contentRevision |>.

Definition restorationRecord (actorID : Z) (postID commentID : option Z) (contentRevision : Z)
    (now : time) : ModerationRecord.t :=
  ModerationRecord.mk 0 postID commentID None None None None None None (Some contentRevision)
    ModerationSceneText adminRestoreProvider None ModerationVerdictPass [] None
    (json_object [("action"%string, json_string "restore")]) (Some actorID) (Some now) None now.

Definition isRestorablePostDeletion (deletedAt : option time) (reason : option string) : bool :=
  match deletedAt, reason with
  | Some _, Some r => bool_decide (r = DeleteReasonAuthor) || bool_decide (r = DeleteReasonAdmin) ||
                      bool_decide (r = DeleteReasonModeration)
  | _, _ => false
  end.

Section strings.
Context `{Unicode} `{Decimal}.

(** [sort.Slice] by folded name, then by name. *)
Definition tag_le (a b : string) : bool :=
  let left := ToLower a in
  let right := ToLower b in
  if bool_decide (left = right) then String.leb a b else String.leb left right.
Definition snapshotTags (values : list string) : list string := sort_by tag_le values.

Definition snapshotFromCurrent (post : Post.t) (relations : PostRepository.SnapshotRelations)
    : PostSnapshot.t :=
  PostSnapshot.mk (Post.PostType post) (Post.ShareType post) (Post.Title post)
    (Post.Content post) (Post.Category post) (Post.CanteenID post) (Post.CanteenWindowID post)
    (Post.CuisineID post) (String_ <$> Post.Price post) (Post.BudgetMin post) (Post.BudgetMax post)
    (snapshotTags (PostRepository.sr_Tags relations))
    (map (fun f => SnapshotFlavor.mk (PostRepository.fr_Name f) (PostRepository.fr_Stance f))
       (PostRepository.sr_Flavors relations))
    (PostRepository.sr_Images relations).

(** The stances of a snapshot's flavours, as the inputs they came from. *)
Definition names_with (stance : string) (flavors : list SnapshotFlavor.t) : list string :=
  map SnapshotFlavor.Name (filter (fun f => SnapshotFlavor.Stance f = stance) flavors).

Definition snapshotPayload (snapshot : PostSnapshot.t) (canteenCode cuisine : option string)
    (price : option Z) : PostPayload :=
  let share := bool_decide (PostSnapshot.PostType snapshot = PostTypeShare) in
  let prefer := names_with FlavorStancePrefer (PostSnapshot.Flavors snapshot) in
  let avoid := names_with FlavorStanceAvoid (PostSnapshot.Flavors snapshot) in
  mkPostPayload (PostSnapshot.Title snapshot) (PostSnapshot.Content snapshot)
    (PostSnapshot.Category snapshot) (PostSnapshot.ShareType snapshot) canteenCode
    (PostSnapshot.CanteenWindowID snapshot) cuisine price
    (if share then map SnapshotFlavor.Name (PostSnapshot.Flavors snapshot) else [])
    (PostSnapshot.Tags snapshot) (PostSnapshot.Images snapshot)
    match PostSnapshot.BudgetMin snapshot, PostSnapshot.BudgetMax snapshot with
    | Some minimum, Some maximum => Some (mkBudgetRange minimum maximum)
    | _, _ => None
    end
    (if share then None
     else match prefer, avoid with
          | [], [] => None
          | _, _ => Some (mkPreferences avoid prefer)
          end).
End strings.

(** [validateAndOrderImages]; [index] is the number of images accepted so far. *)
Fixpoint orderImages (index : Z) (urls : list string) (assets : list ImageAsset.t)
    (authorID : Z) : goerr + list ImageAsset.t :=
  match urls with
  | [] => inr []
  | url :: urls' =>
      match last (filter (fun a => ImageAsset.PublicURL a = url) assets) with
      | None => inl (EApi (NotFound BizImageNotFound "图片"))
      | Some asset =>
          if IsPurgedImageURL (ImageAsset.PublicURL asset)
          then inl (EApi (NotFound BizImageNotFound "图片"))
          else if negb (bool_decide (ImageAsset.Status asset = ImageStatusPending)) &&
                  negb (bool_decide (ImageAsset.Status asset = ImageStatusReady))
          then inl (EApi (Conflict BizImageNotApproved "图片当前不可引用"))
          else if negb (bool_decide (ImageAsset.UploaderID asset = Some authorID))
          then inl (EApi (Forbidden BizImageNotOwned "只能引用自己上传的图片"))
          else if negb (bool_decide (ImageAsset.Purpose asset = ImagePurposePost))
          then inl (EApi (Conflict BizImagePurposeWrong "图片用途不是帖子配图"))
          else if bool_decide (ImageAsset.Moderation asset = ModerationStatusBlock)
          then inl (EApi (Conflict BizImageNotApproved
                 ("第 " +:+ FormatInt (index + 1) +:+ " 张图片（upload_id=" +:+
                  FormatInt (ImageAsset.ID asset) +:+ "）未通过审核")))
          else
            let? rest := orderImages (index + 1) urls' assets authorID in
            inr (asset :: rest)
      end
  end.
Definition validateAndOrderImages (urls : list string) (assets : list ImageAsset.t)
    (authorID : Z) : goerr + list ImageAsset.t * list Z :=
  let? ordered := orderImages 0 urls assets authorID in
  inr (ordered, map ImageAsset.ID ordered).

Section service.
Context `{Env} `{Pg} `{Unicode} `{DbClock} `{Decimal}.

Definition dictionaryError {A} (resource : string) (err : goerr) : MT A :=
  if is_not_found err then api_error (NotFound BizDictItemNotFound resource) else internal err.
Definition postRepositoryError {A} (err : goerr) : MT A :=
  if is_not_found err then api_error (NotFound BizPostNotFound "帖子") else internal err.
Definition historyWriteError {A} (err : goerr) : MT A :=
  if IsUniqueViolation err "uq_post_histories_revision"
  then api_error (Conflict BizConflict "帖子版本冲突，请重试") else internal err.

(** ** Images of deleted and restored posts *)
Section images.
Context (imageAccess : ImageAccessController).

Definition action_document (action : string) (numbers : list (string * Z)) : string :=
  json_object (("action"%string, json_string action) ::
               map (fun kv => (fst kv, FormatInt (snd kv))) numbers).

Definition image_fact (assetID : Z) (provider verdict raw : string) (actorID : Z) (now : time)
    : ModerationRecord.t :=
  ModerationRecord.mk 0 None None (Some assetID) None None None None None None
    ModerationSceneImage provider None verdict [] None raw (Some actorID) (Some now) None now.

Definition applyAdminPostDeleteImage (postID actorID : Z) (asset : option ImageAsset.t)
    (now : time) : MT unit :=
  match asset with
  | None => mret tt
  | Some a =>
      let* record := ModerationRepository.CreateAdministrativeRecord
        (image_fact (ImageAsset.ID a) adminPostDeleteProvider ModerationVerdictBlock
           (action_document "admin_delete_post" [("post_id"%string, postID)]) actorID now) in
      ModerationRepository.UpdateImageModeration (ImageAsset.ID a) ModerationStatusBlock ;;;
      ModerationService.applyImageAccess imageAccess (Some a) (ModerationRecord.ID record)
        ModerationVerdictBlock
  end.

Definition applyAdminPostRestoreImage (postID actorID : Z) (asset : ImageAsset.t)
    (sourceRecordID : Z) (now : time) : MT unit :=
  let* record := ModerationRepository.CreateAdministrativeRecord
    (image_fact (ImageAsset.ID asset) adminRestoreProvider ModerationVerdictPass
       (action_document "restore_post_image"
          [("post_id"%string, postID); ("source_record_id"%string, sourceRecordID)]) actorID now) in
  ModerationRepository.UpdateImageModeration (ImageAsset.ID asset) ModerationStatusPass ;;;
  ModerationService.applyImageAccess imageAccess (Some asset) (ModerationRecord.ID record)
    ModerationVerdictPass.

Fixpoint block_images (postID actorID : Z) (assets : list ImageAsset.t) (now : time)
    (imageIDs : list Z) : MT unit :=
  match imageIDs with
  | [] => mret tt
  | id :: ids =>
      let asset := ModerationService.imageAssetByID assets id in
      (if bool_decide (ImageAsset.Moderation <$> asset = Some ModerationStatusBlock) then mret tt
       else on_error (applyAdminPostDeleteImage postID actorID asset now) internal) ;;;
      block_images postID actorID assets now ids
  end.

Definition deletePostWithHistoryAndImages (post : Post.t) (actorID : Z) (reason : string)
    (now : time) : MT unit :=
  let* imageIDs := on_error (PostRepository.PostImageIDs (Post.ID post)) internal in
  let* assets := on_error (PostRepository.LockImagesByIDs imageIDs) internal in
  on_error (PostRepository.SoftDelete (Post.ID post) actorID reason now) postRepositoryError ;;;
  let* imageIDsToBlock := on_error
    (PostRepository.ImageIDsWithoutUndeletedPostReferences imageIDs) internal in
  block_images (Post.ID post) actorID assets now imageIDsToBlock.

Fixpoint restore_images (postID actorID : Z) (latest : Z -> option ModerationRecord.t)
    (now : time) (assets : list ImageAsset.t) : MT unit :=
  match assets with
  | [] => mret tt
  | asset :: assets' =>
      (if bool_decide (ImageAsset.Moderation asset = ModerationStatusBlock) then
         match latest (ImageAsset.ID asset) with
         | Some record =>
             if bool_decide (ModerationRecord.Provider record = adminPostDeleteProvider)
             then applyAdminPostRestoreImage postID actorID asset (ModerationRecord.ID record) now
             else mret tt
         | None => mret tt
         end
       else mret tt) ;;;
      restore_images postID actorID latest now assets'
  end.

Definition restoreAdminPostDeleteImages (postID actorID : Z) (assets : list ImageAsset.t)
    (now : time) : MT unit :=
  let* latest := PostRepository.LatestImageModerationByAssetIDs
    (map ImageAsset.ID
       (filter (fun a => ImageAsset.Moderation a = ModerationStatusBlock) assets)) in
  restore_images postID actorID latest now assets.
End images.

Context (s : PostService).
Abbreviation access := (ps_imageAccess s).

(** ** Text moderation *)
Definition moderation_text (resolved : resolvedPostPayload) : string :=
  np_Title (rp_Norm resolved) +:+ String "010"%char EmptyString +:+ np_Content (rp_Norm resolved).

Definition alert_unless_pass (target : string) (id : Z) (result : ModerationResult) : MT unit :=
  if bool_decide (mr_Verdict result = ModerationVerdictPass) then mret tt
  else Alert (verdict_alert target id None (mr_Provider result) (mr_ProviderJobID result)
         (mr_Verdict result) (mr_Labels result)).

Definition finishModeration (postID contentRevision : Z) (resolved : resolvedPostPayload)
    : MT string :=
  if negb (np_Publish (rp_Norm resolved)) then mret PostStatusDraft
  else
    let* result := call_review (ps_moderator s)
      (mkModerationRequest ModerationTargetPost None (moderation_text resolved)) in
    validateModerationResult result ;;;
    let* now := Now in
    on_error (PostRepository.CreateModerationRecord
      (moderationRecordForPost postID contentRevision result now)) internal ;;;
    alert_unless_pass ModerationTargetPost postID result ;;;
    aggregatePostModeration (mr_Verdict result) (rp_ImageAssets resolved).

Definition moderateTag (tag : Tag.t) : MT unit :=
  let* result := call_review (ps_moderator s)
    (mkModerationRequest ModerationTargetTag None (Tag.Name tag)) in
  validateModerationResult result ;;;
  let* deletedAt := (if bool_decide (mr_Verdict result = ModerationVerdictBlock)
                     then let* now := Now in mret (Some now) else mret None) in
  on_error (PostRepository.SetTagModeration (Tag.ID tag) (mr_Verdict result) deletedAt) internal ;;;
  let* now := Now in
  on_error (PostRepository.CreateModerationRecord
    (moderationRecordForTarget None (Some (Tag.ID tag)) result now)) internal ;;;
  alert_unless_pass ModerationTargetTag (Tag.ID tag) result.

(** ** Relations *)
(** The tags' ids and canonical names. *)
Fixpoint replaceTags (names : list string) : MT (list (Z * string)) :=
  match names with
  | [] => mret []
  | name :: names' =>
      let* found := PostRepository.FindOrCreateTag name in
      let '(tag, created) := found in
      if negb (bool_decide (Tag.DeletedAt tag = None))
      then api_error (Conflict BizContentRejected "包含已下架标签")
      else
        (if (created : bool) then moderateTag tag else mret tt) ;;;
        let* rest := replaceTags names' in
        mret ((Tag.ID tag, Tag.Name tag) :: rest)
  end.

Definition applyPostRelations (postID : Z) (resolved : resolvedPostPayload)
    : MT resolvedPostPayload :=
  let* tags := replaceTags (np_Tags (rp_Norm resolved)) in
  let normalized := (rp_Norm resolved) <| np_Tags := map snd tags |> in
  let resolved := resolved <| rp_Norm := normalized |> in
  PostRepository.ReplaceTags postID (map fst tags) ;;;
  PostRepository.ReplaceFlavors postID (np_PostType (rp_Norm resolved)) (rp_Flavors resolved)
    (np_FlavorStances (rp_Norm resolved)) ;;;
  PostRepository.ReplaceImages postID (rp_ImageIDs resolved) ;;;
  mret resolved.

Definition appendPostHistory (post : Post.t) (revision editorID : Z) (editReason : option string)
    (editedAt : time) : MT unit :=
  let* relations := PostRepository.LoadSnapshotRelations (Post.ID post) in
  PostRepository.CreateHistory (PostHistory.mk 0 (Post.ID post) revision editorID editedAt
    (snapshotFromCurrent post relations) editReason).

(** ** Resolving names and images *)
Definition resolveCanteen (value : normalizedPostPayload) : MT (option Z) :=
  match np_CanteenCode value with
  | None => mret None
  | Some code =>
      let* canteen := on_error (PostRepository.FindActiveCanteenByCode code)
        (dictionaryError "餐厅") in
      mret (Some (Canteen.ID canteen))
  end.

Definition checkWindow (value : normalizedPostPayload) (canteenID : option Z) : MT unit :=
  match np_CanteenWindowID value with
  | None => mret tt
  | Some id =>
      let* window := on_error (PostRepository.FindActiveWindow id) (dictionaryError "窗口") in
      if bool_decide (canteenID = Some (CanteenWindow.CanteenID window)) then mret tt
      else api_error (Conflict BizWindowNotInCanteen "窗口不属于所选餐厅")
  end.

Definition resolveCuisine (value : normalizedPostPayload) : MT (option Z) :=
  match np_Cuisine value with
  | None => mret None
  | Some name =>
      let* cuisine := on_error (PostRepository.FindActiveCuisineByName name)
        (dictionaryError "菜系") in
      mret (Some (Cuisine.ID cuisine))
  end.

(** The last flavour of a name wins, as in the map the code builds. *)
Fixpoint resolveFlavors (names : list string) (found : list Flavor.t) : goerr + list Flavor.t :=
  match names with
  | [] => inr []
  | name :: names' =>
      match last (filter (fun f => Flavor.Name f = name) found) with
      | None => inl (EApi (NotFound BizDictItemNotFound "口味"))
      | Some f => let? rest := resolveFlavors names' found in inr (f :: rest)
      end
  end.

Definition resolvePostPayload (value : normalizedPostPayload) (authorID : Z)
    (oldImageIDs : list Z) : MT resolvedPostPayload :=
  let* canteenID := resolveCanteen value in
  checkWindow value canteenID ;;;
  let* cuisineID := resolveCuisine value in
  let* found := on_error (PostRepository.FindActiveFlavorsByNames (np_FlavorNames value)) internal in
  let* fs := lift (resolveFlavors (np_FlavorNames value) found) in
  let* assets := on_error (PostRepository.FindImagesByURLs (np_Images value)) internal in
  let* locked := on_error
    (PostRepository.LockImagesByIDs (oldImageIDs ++ map ImageAsset.ID assets)) internal in
  let* ordered := lift (validateAndOrderImages (np_Images value) locked authorID) in
  mret (mkResolved value canteenID cuisineID fs (fst ordered) (snd ordered)).

Definition initialStatus (resolved : resolvedPostPayload) : string :=
  if np_Publish (rp_Norm resolved) then PostStatusPending else PostStatusDraft.

(** ** Create, Update, Delete *)
Definition Create (input : CreatePostInput) (authorID : Z) : MT PostCreateResult :=
  let* normalized := lift (normalizeCreatePost input) in
  let* resolved := resolvePostPayload normalized authorID [] in
  let* post := on_error (PostRepository.Create
    (newPostModel resolved authorID (initialStatus resolved))) internal in
  let* resolved := on_error (applyPostRelations (Post.ID post) resolved) internal in
  on_error (appendPostHistory post 1 authorID None (Post.CreatedAt post)) historyWriteError ;;;
  let* status := finishModeration (Post.ID post) 1 resolved in
  on_error (PostRepository.UpdateStatus (Post.ID post) status) internal ;;;
  mret (mkCreateResult (Post.ID post) (Post.PostType post) status).

Definition replacePostContentVersion (post : Post.t) (editorID : Z) (editReason : option string)
    (resolved : resolvedPostPayload) (status : string) (now : time)
    : MT (Z * resolvedPostPayload) :=
  let* revision := on_error (PostRepository.NextHistoryRevision (Post.ID post)) historyWriteError in
  on_error (PostRepository.UpdateContent (Post.ID post)
    (versionFields resolved status now revision)) postRepositoryError ;;;
  let* relations := on_error (applyPostRelations (Post.ID post) resolved) internal in
  let version := (newPostModel relations (Post.AuthorID post) status)
    <| Post.ID := Post.ID post |> <| Post.CurrentRevision := revision |>
    <| Post.CreatedAt := Post.CreatedAt post |> <| Post.UpdatedAt := now |> in
  on_error (appendPostHistory version revision editorID editReason now) historyWriteError ;;;
  mret (revision, relations).

Definition owned_undeleted (post : Post.t) (authorID : Z) (message : string) : MT unit :=
  if negb (bool_decide (Post.DeletedAt post = None))
  then api_error (NotFound BizPostDeleted "帖子")
  else if negb (Post.AuthorID post =? authorID)
  then api_error (Forbidden BizNotOwner message)
  else mret tt.

Definition Update (postID : Z) (input : UpdatePostInput) (authorID : Z) : MT PostCreateResult :=
  let* post := on_error (PostRepository.LockByID postID true) postRepositoryError in
  owned_undeleted post authorID "只能修改自己的帖子" ;;;
  let* normalized := lift (normalizeUpdatePost input post) in
  let* oldImageIDs := on_error (PostRepository.PostImageIDs postID) internal in
  let* resolved := resolvePostPayload normalized authorID oldImageIDs in
  let* now := Now in
  let* version := replacePostContentVersion post authorID (np_EditReason (rp_Norm resolved))
    resolved (initialStatus resolved) now in
  let* status := finishModeration postID (fst version) resolved in
  on_error (PostRepository.UpdateStatus postID status) internal ;;;
  mret (mkCreateResult postID (Post.PostType post) status).

Definition Delete (postID authorID : Z) : MT unit :=
  let* post := on_error (PostRepository.LockByID postID true) postRepositoryError in
  owned_undeleted post authorID "只能删除自己的帖子" ;;;
  let* now := Now in
  deletePostWithHistoryAndImages access post authorID DeleteReasonAuthor now.

(** ** RestoreHistory *)
Definition updateInputFromSnapshot (snapshot : PostSnapshot.t) (editReason : option string)
    : MT UpdatePostInput :=
  let* canteenCode := match PostSnapshot.CanteenID snapshot with
    | None => mret None
    | Some id =>
        let* canteen := on_error (PostRepository.FindActiveCanteenByID id) (dictionaryError "餐厅") in
        mret (Some (Canteen.Code canteen))
    end in
  let* cuisine := match PostSnapshot.CuisineID snapshot with
    | None => mret None
    | Some id =>
        let* c := on_error (PostRepository.FindActiveCuisineByID id) (dictionaryError "菜系") in
        mret (Some (Cuisine.Name c))
    end in
  let* price := match PostSnapshot.Price snapshot with
    | None => mret None
    | Some text => let* v := on_error (lift (Parse text)) internal in mret (Some v)
    end in
  mret (mkUpdatePostInput (snapshotPayload snapshot canteenCode cuisine price)
    (Some (PostSnapshot.PostType snapshot)) (Some PostStatusPending) editReason).

Definition restoreDeletedSnapshotImages (postID actorID : Z) (urls : list string)
    (oldImageIDs : list Z) : MT unit :=
  let* assets := on_error (PostRepository.FindImagesByURLs urls) internal in
  let targetIDs := map ImageAsset.ID assets in
  let* locked := on_error (PostRepository.LockImagesByIDs (oldImageIDs ++ targetIDs)) internal in
  let* now := Now in
  on_error (restoreAdminPostDeleteImages access postID actorID
    (filter (fun a => ImageAsset.ID a ∈ targetIDs) locked) now) internal.

Definition reviewRestoredPost (postID contentRevision : Z) (resolved : resolvedPostPayload)
    : MT string :=
  let* status := finishModeration postID contentRevision resolved in
  on_error (PostRepository.UpdateStatus postID status) internal ;;;
  mret status.

Definition RestoreHistory (postID revision : Z) (editReason : option string) (authorID : Z)
    : MT PostCreateResult :=
  let* post := on_error (PostRepository.LockByID postID true) postRepositoryError in
  if negb (Post.AuthorID post =? authorID)
  then api_error (Forbidden BizNotOwner "只能恢复自己的帖子历史版本")
  else
    let* history := on_error (PostRepository.FindHistory postID revision) (fun err =>
      if is_not_found err then api_error (NotFound BizNotFound "帖子历史版本") else internal err) in
    let* source := on_error
      (let* r := PostRepository.LatestPostModerationForRevision postID revision in mret (Some r))
      (fun err => if is_not_found err then mret None else internal err) in
    let snapshot := PostHistory.Snapshot history in
    let* input := updateInputFromSnapshot snapshot editReason in
    let* normalized := lift (normalizeUpdatePost input post) in
    let* oldImageIDs := on_error (PostRepository.PostImageIDs postID) internal in
    let deleted := negb (bool_decide (Post.DeletedAt post = None)) in
    (if deleted
     then restoreDeletedSnapshotImages postID authorID (PostSnapshot.Images snapshot) oldImageIDs
     else mret tt) ;;;
    let* resolved := resolvePostPayload normalized authorID oldImageIDs in
    let* status := match source with
      | Some r => aggregatePostModeration (ModerationRecord.Verdict r) (rp_ImageAssets resolved)
      | None => mret (initialStatus resolved)
      end in
    let* now := Now in
    on_error (PostRepository.UpdateContent postID (versionFields resolved status now revision))
      postRepositoryError ;;;
    let* resolved := on_error (applyPostRelations postID resolved) internal in
    (if deleted then on_error (PostRepository.Restore postID) postRepositoryError
     else mret tt) ;;;
    let* status := match source with
      | Some _ => mret status
      | None => reviewRestoredPost postID revision resolved
      end in
    mret (mkCreateResult postID (Post.PostType post) status).

(** ** Interactions: post.go *)
Definition ensurePostWritable (post : Post.t) : goerr + unit :=
  if negb (bool_decide (Post.DeletedAt post = None))
  then inl (EApi (NotFound BizPostDeleted "帖子"))
  else if negb (bool_decide (Post.Status post = PostStatusApproved))
  then inl (EApi (Conflict BizPostNotPublished "帖子尚未发布"))
  else inr tt.

Definition postForWrite (postID : Z) : MT Post.t :=
  let* post := on_error (PostRepository.FindByID postID true)
    (ModerationService.to_api BizPostNotFound "帖子") in
  lift (ensurePostWritable post) ;;;
  mret post.

Definition Like (postID userID : Z) : MT (bool * Z) :=
  let* post := postForWrite postID in
  let* created := on_error (PostRepository.Like userID postID) internal in
  (if created && negb (Post.AuthorID post =? userID)
   then on_error (NotificationRepository.Create
          (Notification.mk 0 (Post.AuthorID post) userID NotificationTypeLikePost
             (Some (Post.ID post)) None None false zero_time zero_time)) internal
   else mret tt) ;;;
  let* counts := on_error (PostRepository.Counters postID) internal in
  mret (true, fst counts).

Definition Unlike (postID userID : Z) : MT (bool * Z) :=
  let* _ := postForWrite postID in
  on_error (PostRepository.Unlike userID postID) internal ;;;
  let* counts := on_error (PostRepository.Counters postID) internal in
  mret (false, fst counts).

Definition Favorite (postID userID : Z) : MT (bool * Z) :=
  let* _ := postForWrite postID in
  on_error (PostRepository.Favorite userID postID) internal ;;;
  let* counts := on_error (PostRepository.Counters postID) internal in
  mret (true, snd counts).

Definition Unfavorite (postID userID : Z) : MT (bool * Z) :=
  let* _ := postForWrite postID in
  on_error (PostRepository.Unfavorite userID postID) internal ;;;
  let* counts := on_error (PostRepository.Counters postID) internal in
  mret (false, snd counts).

(** ** Administration: admin_content.go, admin_moderation.go *)
Definition AdminDeletePost (postID actorID : Z) : MT Z :=
  let* post := on_error (PostRepository.LockByID postID true)
    (ModerationService.to_api BizPostNotFound "帖子") in
  if negb (bool_decide (Post.DeletedAt post = None))
  then api_error (NotFound BizPostDeleted "帖子")
  else
    let reason := if Post.AuthorID post =? actorID then DeleteReasonAuthor else DeleteReasonAdmin in
    let* now := Now in
    deletePostWithHistoryAndImages access post actorID reason now ;;;
    mret postID.

Definition lockApprovedPostImages (postID : Z) : MT bool :=
  let* imageIDs := PostRepository.PostImageIDs postID in
  let* assets := PostRepository.LockImagesByIDs imageIDs in
  mret (forallb (fun a => bool_decide (ImageAsset.Moderation a = ModerationStatusPass)) assets).

Definition CreateRestorationRecord (record : ModerationRecord.t) : MT ModerationRecord.t :=
  CreateRecord record.

Definition AdminRestorePost (postID actorID : Z) : MT (Z * Z) :=
  let* post := on_error (PostRepository.LockByID postID true)
    (ModerationService.to_api BizPostNotFound "帖子") in
  if negb (isRestorablePostDeletion (Post.DeletedAt post) (Post.DeletedReason post))
  then api_error (Conflict BizContentNotRestorable "帖子当前不处于可恢复的软删除状态")
  else if Post.AuthorID post =? actorID
  then api_error (Conflict BizContentNotRestorable "作者请通过历史版本回退恢复自己的帖子")
  else
    let* imageIDs := on_error (PostRepository.PostImageIDs postID) internal in
    let* assets := on_error (PostRepository.LockImagesByIDs imageIDs) internal in
    let* now := Now in
    on_error (restoreAdminPostDeleteImages access postID actorID assets now) internal ;;;
    (if bool_decide (Post.Status post = PostStatusApproved) then
       let* approved := on_error (lockApprovedPostImages postID) internal in
       if (approved : bool) then mret tt
       else api_error (Conflict BizImageNotApproved "帖子仍引用未通过审核的图片")
     else mret tt) ;;;
    let* revision := on_error (PostRepository.CurrentContentRevision postID) internal in
    let* now := Now in
    let* record := on_error (CreateRestorationRecord
      (restorationRecord actorID (Some postID) None revision now)) internal in
    on_error (PostRepository.Restore postID) (ModerationService.to_api BizPostNotFound "帖子") ;;;
    mret (postID, ModerationRecord.ID record).

Definition postReviewVerdict (raw : string) : goerr + string :=
  let raw := TrimSpace raw in
  if bool_decide (raw = PostStatusApproved) then inr ModerationVerdictPass
  else if bool_decide (raw = PostStatusRejected) then inr ModerationVerdictBlock
  else inl (EApi (InvalidField "status" FieldInvalidEnum "status 必须是 approved 或 rejected")).

Definition postReviewFeedback (feedback : option string) : goerr + string :=
  match feedback with
  | None => inr ""%string
  | Some text =>
      let value := TrimSpace text in
      if 1000 <? RuneCountInString value
      then inl (EApi (InvalidField "feedback" FieldTooLong "feedback 不能超过 1000 个字符"))
      else inr (json_object [("feedback"%string, json_string value)])
  end.

Record AdminPostReviewResult := mkReviewResult {
  ar_PostID : Z; ar_Status : string; ar_ReviewedAt : option time; ar_RecordIDs : list Z }.

(** [manuals] is not empty when the review succeeds. *)
Definition AdminReviewPost (postID reviewerID : Z) (status : string) (feedback : option string)
    : MT AdminPostReviewResult :=
  let* verdict := lift (postReviewVerdict status) in
  let* raw := lift (postReviewFeedback feedback) in
  let* manuals := ModerationService.ManualReviewPost access
    (ModerationService.mkManualPostReview postID reviewerID verdict raw) in
  let* current := on_error (PostRepository.FindByID postID true)
    (ModerationService.to_api BizPostNotFound "帖子") in
  mret (mkReviewResult postID (Post.Status current)
    (m ← hd_error manuals; ModerationRecord.ReviewedAt m) (map ModerationRecord.ID manuals)).
End service.
