(* ===== verification/CommentService.v ===== *)
(** * The comment service: [internal/service/comment.go], [comment_write.go],
    [comment_view.go], [history_moderation.go] and the comments of [admin_content.go]

    Comments form floors: a root, and replies that point at their root and at the
    comment they answer.  Each method in full: guards and early returns in the code's
    order, every repository call, the moderation inside the transaction. *)

From S2P Require Import Prelude.
From S2P Require Import GoText.
From S2P Require Import Apierr.
From S2P Require Import Effects.
From S2P Require Import Authz.
From S2P Require Import Model.
From S2P Require Import Pagination.
From S2P Require Import AuthRepo.
From S2P Require Import AuthService.
From S2P Require Import Notifications.
From S2P Require Import PostRepo.
From S2P Require Import CommentRepo.
From S2P Require Import Moderation.
From S2P Require Import PostService.
Open Scope Z_scope.

Definition commentReplyPreviewLimit : Z := 2.
Definition maxCommentContentRunes : Z := 2000.

Module CommentService.
Import Comment.

Record CreateCommentInput := mkCreateInput {
  ci_Content : string;
  ci_ParentID : option Z;
  ci_ReplyToUserID : option Z;
  ci_MentionedUserIDs : list Z;
}.
Record UpdateCommentInput := mkUpdateInput {
  ui_Content : string; ui_MentionedUserIDs : list Z }.

Record CommentService := mkCommentService {
  cs_moderator : ContentModerator;
  rootTime : CursorCodec;
  rootHot : CursorCodec;
  replies : CursorCodec;
}.
Definition NewCommentServiceWithCursorSecret (moderator : ContentModerator)
    (cursorSecret : string) : CommentService :=
  mkCommentService moderator
    (NewCursorCodec cursorSecret "comments.roots.time")
    (NewCursorCodec cursorSecret "comments.roots.hot")
    (NewCursorCodec cursorSecret "comments.replies").

(** ** Views: comment_view.go *)
Record CommentAuthorView := mkAuthorView {
  av_ID : Z; av_Username : string; av_AvatarURL : option string; av_IsFollowing : bool }.
Record NamedUser := mkNamedUser { nu_ID : Z; nu_Name : string }.

Inductive CommentItem := mkItem {
  it_ID : Z;
  it_Content : string;
  it_Author : CommentAuthorView;
  it_ReplyTo : option NamedUser;
  it_MentionedUsers : list NamedUser;
  it_LikeCount : Z;
  it_IsLiked : bool;
  it_IsAuthor : bool;
  it_IsEdited : bool;
  it_Moderation : string;
  it_CreatedAt : time;
  it_ReplyCount : Z;
  it_Replies : list CommentItem;
}.

Definition deletedUser : string := "已注销用户".

Definition live_row (relations : CommentRepository.CommentRelations) (userID : Z)
    : option CommentRepository.CommentUserRow :=
  match CommentRepository.Users relations userID with
  | Some u => if bool_decide (CommentRepository.cu_DeletedAt u = None) then Some u else None
  | None => None
  end.

Definition buildCommentAuthor (userID : Z) (relations : CommentRepository.CommentRelations)
    : CommentAuthorView :=
  let following := CommentRepository.Following relations userID in
  match live_row relations userID with
  | None => mkAuthorView userID deletedUser None following
  | Some u => mkAuthorView userID (CommentRepository.cu_Name u) (CommentRepository.cu_AvatarURL u)
                following
  end.

Definition named (relations : CommentRepository.CommentRelations) (userID : Z) : NamedUser :=
  mkNamedUser userID match live_row relations userID with
                     | Some u => CommentRepository.cu_Name u
                     | None => deletedUser
                     end.
Definition buildReplyTo (userID : Z) (relations : CommentRepository.CommentRelations)
    : option NamedUser := Some (named relations userID).
Definition buildMentionedUsers (commentID : Z) (relations : CommentRepository.CommentRelations)
    : list NamedUser := map (named relations) (CommentRepository.Mentions relations commentID).

Definition buildCommentItem (comment : t) (postAuthorID : Z) (isRoot : bool)
    (relations : CommentRepository.CommentRelations) : CommentItem :=
  mkItem (ID comment) (Content comment) (buildCommentAuthor (AuthorID comment) relations)
    (if isRoot then None else buildReplyTo (ReplyToUserID comment) relations)
    (buildMentionedUsers (ID comment) relations) (LikeCount comment)
    (CommentRepository.Liked relations (ID comment)) (AuthorID comment =? postAuthorID)
    (1 <? CommentRepository.Revisions relations (ID comment)) (Moderation comment)
    (CreatedAt comment) (if isRoot then ReplyCount comment else 0) [].

Definition with_replies (item : CommentItem) (items : list CommentItem) : CommentItem :=
  mkItem (it_ID item) (it_Content item) (it_Author item) (it_ReplyTo item)
    (it_MentionedUsers item) (it_LikeCount item) (it_IsLiked item) (it_IsAuthor item)
    (it_IsEdited item) (it_Moderation item) (it_CreatedAt item) (it_ReplyCount item) items.

(** ** Pure helpers of comment_write.go *)
Definition moderationRecordForComment (commentID contentRevision : Z) (result : ModerationResult)
    (now : time) : ModerationRecord.t :=
  ModerationRecord.mk 0 None (Some commentID) None None None None None None (Some contentRevision)
    ModerationSceneText (mr_Provider result) (mr_ProviderJobID result) (mr_Verdict result)
    (mr_Labels result) (mr_Score result) (mr_RawResponse result) None None None now.

Definition validateReplyToUser (provided : option Z) (expected : Z) : goerr + unit :=
  match provided with
  | None => inr tt
  | Some u =>
      if u =? expected then inr tt
      else inl (EApi (InvalidField "reply_to_user_id" FieldConflict
             "reply_to_user_id 必须由回复结构决定"))
  end.

Definition differenceIDs (values existing : list Z) : list Z :=
  filter (fun v => v ∉ existing) values.

Definition commentPreview (content : string) : string :=
  string_of_runes (firstn 100 (runes content)).

Definition notify (recipientID senderID : Z) (type_ : string) (postID commentID : option Z)
    (content : option string) : Notification.t :=
  Notification.mk 0 recipientID senderID type_ postID commentID content false zero_time zero_time.

Definition mentionNotifications (commentID authorID : Z) (content : string)
    (mentionIDs : list Z) : list Notification.t :=
  map (fun m => notify m authorID NotificationTypeMention None (Some commentID)
                  (Some (commentPreview content)))
    (filter (fun m => m <> authorID) mentionIDs).

Definition createCommentNotifications (comment : t) (parent : option t) (postAuthorID : Z)
    (mentionIDs : list Z) : list Notification.t :=
  let preview := Some (commentPreview (Content comment)) in
  match parent with
  | None =>
      if postAuthorID =? AuthorID comment then []
      else [notify postAuthorID (AuthorID comment) NotificationTypeComment
              (Some (PostID comment)) None preview]
  | Some parent =>
      if AuthorID parent =? AuthorID comment then []
      else
        let rootID := match RootID comment with Some r => r | None => ID parent end in
        [notify (AuthorID parent) (AuthorID comment) NotificationTypeReply None (Some rootID)
           preview]
  end ++ mentionNotifications (ID comment) (AuthorID comment) (Content comment) mentionIDs.

(** ** Reading: comment.go *)
Definition ensurePostReadable (post : Post.t) (currentUserID : Z) : goerr + unit :=
  if negb (bool_decide (Post.DeletedAt post = None)) && negb (Post.AuthorID post =? currentUserID)
  then inl (EApi (NotFound BizPostDeleted "帖子"))
  else if negb (bool_decide (Post.Status post = PostStatusApproved)) &&
          negb (Post.AuthorID post =? currentUserID)
  then inl (EApi (NotFound BizPostNotPublished "帖子"))
  else inr tt.

Definition commentVisibleToViewer (comment : t) (currentUserID : Z) : bool :=
  if bool_decide (DeletedAt comment = None) &&
     bool_decide (Moderation comment = ModerationStatusPass) then true
  else if negb (AuthorID comment =? currentUserID) ||
          bool_decide (Moderation comment = ModerationStatusPass) then false
  else bool_decide (DeletedAt comment = None) ||
       bool_decide (DeletedReason comment = Some DeleteReasonModeration).

Definition normalizeCommentSort (value : string) : goerr + string :=
  if bool_decide (value = ""%string) then inr "latest"%string
  else if negb (bool_decide (value = "latest"%string)) && negb (bool_decide (value = "hot"%string))
  then inl (EApi (InvalidField "sort_by" FieldInvalidEnum "sort_by 取值不合法"))
  else inr value.

Record CommentList := mkCommentList {
  cl_Comments : list CommentItem; cl_Pagination : CursorMeta }.

Record HistoryModerationView := mkHistoryModeration {
  hm_Status : string; hm_Verdict : option string; hm_Score : option Z }.
Record CommentHistoryView := mkHistoryView {
  hv_ID : Z; hv_Revision : Z; hv_EditedBy : Z; hv_EditedAt : time; hv_Content : string;
  hv_IsCurrent : bool; hv_Moderation : option HistoryModerationView }.

(** history_moderation.go: the author sees only whether the machine let it pass. *)
Definition HistoryModerationPassed : string := "passed".
Definition HistoryModerationMachineFailed : string := "machine_failed".

Definition history_view (includeDetails : bool) (record : ModerationRecord.t)
    : HistoryModerationView :=
  let status := if bool_decide (ModerationRecord.Verdict record = ModerationVerdictPass)
                then HistoryModerationPassed else HistoryModerationMachineFailed in
  if includeDetails
  then mkHistoryModeration status (Some (ModerationRecord.Verdict record))
         (ModerationRecord.Score record)
  else mkHistoryModeration status None None.

(** The last record of a revision in the list wins. *)
Definition historyModerationByRevision (records : list ModerationRecord.t)
    (includeDetails : bool) (revision : Z) : option HistoryModerationView :=
  history_view includeDetails <$>
    last (filter (fun r => ModerationRecord.ContentRevision r = Some revision) records).

(** ** The service *)
Section service.
Context `{Env} `{Pg} `{Unicode} `{DbClock} (s : CommentService).

Definition commentRepositoryError {A} (err : goerr) : MT A :=
  if is_not_found err then api_error (NotFound BizCommentNotFound "评论") else internal err.
Definition commentHistoryWriteError {A} (err : goerr) : MT A :=
  if IsUniqueViolation err "uq_comment_histories_revision"
  then api_error (Conflict BizConflict "评论版本冲突，请重试") else internal err.

Definition found_comment (commentID : Z) : MT t :=
  on_error (CommentRepository.FindByID commentID) commentRepositoryError.
Definition locked_comment (commentID : Z) : MT t :=
  on_error (CommentRepository.LockByID commentID) commentRepositoryError.
Definition found_post (postID : Z) : MT Post.t :=
  on_error (PostRepository.FindByID postID true) (ModerationService.to_api BizPostNotFound "帖子").

Definition normalizeCommentPayload (rawContent : string) (rawMentionIDs : list Z)
    : MT (string * list Z) :=
  let content := TrimSpace rawContent in
  if bool_decide (content = ""%string)
  then api_error (InvalidField "content" FieldRequired "content 不能为空")
  else if maxCommentContentRunes <? RuneCountInString content
  then api_error (InvalidField "content" FieldTooLong "content 不能超过 2000 个字符")
  else if existsb (fun id => id =? 0) rawMentionIDs
  then api_error (InvalidField "mentioned_user_ids" FieldInvalidFormat "用户 id 必须是正整数")
  else
    let mentionIDs := ModerationService.uniqueIDs rawMentionIDs in
    let* found := on_error (CommentRepository.ActiveUsers mentionIDs) internal in
    if negb (Nat.eqb (length found) (length mentionIDs))
    then api_error (InvalidField "mentioned_user_ids" FieldConflict "包含不存在或已注销的用户")
    else if negb (forallb (fun u => negb (bool_decide (User.Username u = ""%string)) &&
                                    ContainsString content ("@" +:+ User.Username u)) found)
    then api_error (InvalidField "mentioned_user_ids" FieldConflict
           "被提及用户必须以 @昵称 的形式出现在评论正文中")
    else mret (content, mentionIDs).

(** What takes a floor out of sight: its root is deleted or has not passed. *)
Definition require_active_root (rootID : option Z) (resource : string) : MT unit :=
  match rootID with
  | None => mret tt
  | Some r =>
      let* root := found_comment r in
      if CommentRepository.active root then mret tt
      else api_error (NotFound BizCommentNotFound resource)
  end.

(** The parent, the root and the user answered. *)
Definition resolveCommentParent (postID postAuthorID : Z) (input : CreateCommentInput)
    : MT (option t * option Z * Z) :=
  match ci_ParentID input with
  | None =>
      lift (validateReplyToUser (ci_ReplyToUserID input) postAuthorID) ;;;
      mret (None, None, postAuthorID)
  | Some parentID =>
      if parentID =? 0
      then api_error (InvalidField "parent_id" FieldInvalidFormat "parent_id 必须是正整数")
      else
        let* parent := locked_comment parentID in
        if negb (bool_decide (DeletedAt parent = None))
        then api_error (NotFound BizCommentDeleted "父评论")
        else if negb (bool_decide (Moderation parent = ModerationStatusPass))
        then api_error (NotFound BizCommentNotFound "父评论")
        else if negb (PostID parent =? postID)
        then api_error (InvalidField "parent_id" FieldConflict "父评论不属于当前帖子")
        else
          require_active_root (RootID parent) "父评论" ;;;
          lift (validateReplyToUser (ci_ReplyToUserID input) (AuthorID parent)) ;;;
          let rootID := match RootID parent with Some r => r | None => ID parent end in
          mret (Some parent, Some rootID, AuthorID parent)
  end.

Definition moderateComment (commentID contentRevision : Z) (content : string) : MT string :=
  let* result := call_review (cs_moderator s)
    (mkModerationRequest ModerationTargetComment None content) in
  validateModerationResult result ;;;
  let* now := Now in
  on_error (CommentRepository.CreateModerationRecord
    (moderationRecordForComment commentID contentRevision result now)) internal ;;;
  alert_unless_pass ModerationTargetComment commentID result ;;;
  let* now := Now in
  on_error (CommentRepository.ApplyModeration commentID (mr_Verdict result) now)
    commentRepositoryError ;;;
  mret (mr_Verdict result).

Definition commentMutationResult (commentID postAuthorID currentUserID : Z) : MT CommentItem :=
  let* comment := found_comment commentID in
  let* relations := on_error (CommentRepository.LoadRelations [comment] currentUserID) internal in
  mret (buildCommentItem comment postAuthorID (bool_decide (RootID comment = None)) relations).

Definition Create (postID : Z) (input : CreateCommentInput) (authorID : Z) : MT CommentItem :=
  let* payload := normalizeCommentPayload (ci_Content input) (ci_MentionedUserIDs input) in
  let '(content, mentionIDs) := payload in
  let* post := on_error (PostRepository.LockByID postID true)
    (ModerationService.to_api BizPostNotFound "帖子") in
  lift (ensurePostWritable post) ;;;
  let* resolved := resolveCommentParent postID (Post.AuthorID post) input in
  let '(parent, rootID, replyToUserID) := resolved in
  let* now := Now in
  let* comment := on_error (CommentRepository.Create
    (mk 0 postID authorID (ci_ParentID input) rootID replyToUserID content 1
       ModerationStatusPending 0 0 None None None now now)) internal in
  on_error (CommentRepository.ReplaceMentions (ID comment) mentionIDs) internal ;;;
  on_error (CommentRepository.CreateHistory
    (CommentHistory.mk 0 (ID comment) 1 authorID now content)) commentHistoryWriteError ;;;
  let* moderation := moderateComment (ID comment) 1 content in
  (if bool_decide (moderation = ModerationStatusPass)
   then on_error (CommentRepository.CreateNotifications
          (createCommentNotifications comment parent (Post.AuthorID post) mentionIDs)) internal
   else mret tt) ;;;
  commentMutationResult (ID comment) (Post.AuthorID post) authorID.

Definition Update (commentID : Z) (input : UpdateCommentInput) (authorID : Z)
    : MT CommentItem :=
  let* payload := normalizeCommentPayload (ui_Content input) (ui_MentionedUserIDs input) in
  let '(content, mentionIDs) := payload in
  let* comment := locked_comment commentID in
  if negb (AuthorID comment =? authorID)
  then api_error (Forbidden BizNotOwner "只能修改自己的评论")
  else if negb (bool_decide (DeletedAt comment = None)) &&
          negb (bool_decide (DeletedReason comment = Some DeleteReasonModeration))
  then api_error (NotFound BizCommentDeleted "评论")
  else
    let* post := found_post (PostID comment) in
    if negb (bool_decide (Post.DeletedAt post = None))
    then api_error (NotFound BizPostDeleted "帖子")
    else
      let* oldMentionIDs := on_error (CommentRepository.MentionIDs commentID) internal in
      let* now := Now in
      let* revision := on_error (CommentRepository.NextHistoryRevision commentID) internal in
      on_error (CommentRepository.UpdateContent commentID content revision now)
        commentRepositoryError ;;;
      on_error (CommentRepository.ReplaceMentions commentID mentionIDs) internal ;;;
      on_error (CommentRepository.CreateHistory
        (CommentHistory.mk 0 commentID revision authorID now content)) commentHistoryWriteError ;;;
      let* moderation := moderateComment commentID revision content in
      (if bool_decide (moderation = ModerationStatusPass)
       then on_error (CommentRepository.CreateNotifications
              (mentionNotifications commentID authorID content
                 (differenceIDs mentionIDs oldMentionIDs))) internal
       else mret tt) ;;;
      commentMutationResult commentID (Post.AuthorID post) authorID.

Definition Delete (commentID authorID : Z) : MT unit :=
  let* comment := locked_comment commentID in
  if negb (bool_decide (DeletedAt comment = None))
  then api_error (NotFound BizCommentDeleted "评论")
  else if negb (AuthorID comment =? authorID)
  then api_error (Forbidden BizNotOwner "只能删除自己的评论")
  else
    let* post := found_post (PostID comment) in
    if negb (bool_decide (Post.DeletedAt post = None))
    then api_error (NotFound BizPostDeleted "帖子")
    else
      let* now := Now in
      on_error (CommentRepository.SoftDelete commentID DeleteReasonAuthor (Some authorID) now)
        commentRepositoryError.

(** *** Likes *)
Definition interactiveComment (commentID : Z) : MT t :=
  let* comment := found_comment commentID in
  if negb (bool_decide (DeletedAt comment = None))
  then api_error (NotFound BizCommentNotFound "评论")
  else if negb (bool_decide (Moderation comment = ModerationStatusPass))
  then api_error (NotFound BizCommentNotFound "评论")
  else
    require_active_root (RootID comment) "评论" ;;;
    let* post := found_post (PostID comment) in
    if negb (bool_decide (Post.DeletedAt post = None)) ||
       negb (bool_decide (Post.Status post = PostStatusApproved))
    then api_error (Conflict BizPostNotPublished "帖子尚未发布")
    else mret comment.

Definition Like (commentID userID : Z) : MT (bool * Z) :=
  let* comment := interactiveComment commentID in
  let* created := on_error (CommentRepository.Like userID commentID) internal in
  (if (created : bool) && negb (AuthorID comment =? userID)
   then on_error (CommentRepository.CreateNotifications
          [notify (AuthorID comment) userID NotificationTypeLikeComment None
             (Some (ID comment)) None]) internal
   else mret tt) ;;;
  let* count := on_error (CommentRepository.LikeCount commentID) commentRepositoryError in
  mret (true, count).

Definition Unlike (commentID userID : Z) : MT (bool * Z) :=
  interactiveComment commentID ;;;
  on_error (CommentRepository.Unlike userID commentID) internal ;;;
  let* count := on_error (CommentRepository.LikeCount commentID) commentRepositoryError in
  mret (false, count).

(** *** Lists *)
Definition readablePost (postID currentUserID : Z) : MT Post.t :=
  let* post := found_post postID in
  lift (ensurePostReadable post currentUserID) ;;;
  mret post.

Definition commentCursorMeta (codec : CursorCodec) (comments : list t) (limit : Z)
    (hasMore ranked : bool) : MT CursorMeta :=
  match last comments with
  | Some last_ =>
      if hasMore then
        let* token := on_error (Encode codec
          (Cursor.mk (CreatedAt last_) (ID last_)
             (if ranked then Some (LikeCount last_) else None))) internal in
        mret (mkCursorMeta limit (Some token) hasMore)
      else mret (mkCursorMeta limit None hasMore)
  | None => mret (mkCursorMeta limit None hasMore)
  end.

Definition buildCommentList (roots previews : list t) (postAuthorID currentUserID : Z)
    : MT (list CommentItem) :=
  let* relations := on_error (CommentRepository.LoadRelations (roots ++ previews) currentUserID)
    internal in
  mret (map (fun root =>
    with_replies (buildCommentItem root postAuthorID true relations)
      (map (fun p => buildCommentItem p postAuthorID false relations)
         (filter (fun p => RootID p = Some (ID root)) previews))) roots).

Definition List_ (postID currentUserID : Z) (sortBy : string) (request : CursorRequest)
    : MT CommentList :=
  let* post := readablePost postID currentUserID in
  let* sortBy := lift (normalizeCommentSort sortBy) in
  let hot := bool_decide (sortBy = "hot"%string) in
  let codec := if hot then rootHot s else rootTime s in
  let* params := lift (DecodeRequest codec request) in
  if hot && CommentRepository.missing_rank (After params)
  then api_error (InvalidField "cursor" FieldInvalidFormat "cursor 无效或已被篡改")
  else
    let* page := on_error
      (CommentRepository.FindRootPage postID currentUserID sortBy params) internal in
    let '(roots, hasMore) := page in
    let* previews := on_error (CommentRepository.FindReplyPreviews (map ID roots) currentUserID
      commentReplyPreviewLimit) internal in
    let* items := buildCommentList roots previews (Post.AuthorID post) currentUserID in
    let* meta := commentCursorMeta codec roots (cp_Limit params) hasMore hot in
    mret (mkCommentList items meta).

Definition Replies (commentID currentUserID : Z) (request : CursorRequest) : MT CommentList :=
  let* root := found_comment commentID in
  if negb (commentVisibleToViewer root currentUserID)
  then api_error (NotFound BizCommentNotFound "评论")
  else if negb (bool_decide (RootID root = None))
  then api_error (InvalidField "comment_id" FieldConflict "只能查询楼主评论的回复")
  else
    let* post := readablePost (PostID root) currentUserID in
    let* params := lift (DecodeRequest (replies s) request) in
    let* page := on_error (CommentRepository.FindReplyPage (ID root) currentUserID params)
      internal in
    let '(rows, hasMore) := page in
    let* relations := on_error (CommentRepository.LoadRelations rows currentUserID) internal in
    let* meta := commentCursorMeta (replies s) rows (cp_Limit params) hasMore false in
    mret (mkCommentList
      (map (fun r => buildCommentItem r (Post.AuthorID post) false relations) rows) meta).

Definition Histories (commentID userID : Z) (roles : list UserRole)
    : MT (list CommentHistoryView) :=
  let* comment := found_comment commentID in
  let isModerator := HasCapability roles CapReviewContent in
  if negb (AuthorID comment =? userID) && negb isModerator
  then api_error (Forbidden BizNotOwner "只能查看自己的评论编辑历史")
  else
    let* rows := on_error (CommentRepository.ListHistories commentID) internal in
    let* records := on_error (CommentRepository.ListHistoryModeration commentID) internal in
    let views := historyModerationByRevision records isModerator in
    mret (map (fun h => mkHistoryView (CommentHistory.ID h) (CommentHistory.Revision h)
      (CommentHistory.EditedBy h) (CommentHistory.EditedAt h) (CommentHistory.Content h)
      (CommentHistory.Revision h =? CurrentRevision comment) (views (CommentHistory.Revision h)))
      rows).

(** ** Administration: admin_content.go *)
Definition to_comment_api {A} : goerr -> MT A :=
  ModerationService.to_api BizCommentNotFound "评论".

Definition AdminDeleteComment (commentID actorID : Z) : MT Z :=
  let* comment := on_error (CommentRepository.LockByID commentID) to_comment_api in
  if negb (bool_decide (DeletedAt comment = None))
  then api_error (NotFound BizCommentDeleted "评论")
  else
    let* now := Now in
    on_error (CommentRepository.SoftDelete commentID DeleteReasonAdmin (Some actorID) now)
      to_comment_api ;;;
    mret commentID.

Definition isModerationDeletion (deletedAt : option time) (reason : option string) : bool :=
  negb (bool_decide (deletedAt = None)) && bool_decide (reason = Some DeleteReasonModeration).

Definition AdminRestoreComment (commentID actorID : Z) : MT (Z * Z) :=
  let* comment := on_error (CommentRepository.LockByID commentID) to_comment_api in
  if negb (isModerationDeletion (DeletedAt comment) (DeletedReason comment))
  then api_error (Conflict BizContentNotRestorable "只有机审软删除的评论可以恢复")
  else
    let* revision := on_error (CommentRepository.CurrentContentRevision commentID) internal in
    let* now := Now in
    let* record := on_error (CreateRestorationRecord
      (restorationRecord actorID None (Some commentID) revision now)) internal in
    on_error (CommentRepository.Restore commentID) to_comment_api ;;;
    mret (commentID, ModerationRecord.ID record).
End service.
End CommentService.
