(* ===== verification/Floors.v ===== *)
(** * Floors of comments and what is counted of them

    The part of a comment its counters depend on ([CMark]), where a comment may stand,
    and the numbers [danshi_recount_all] (migration 00009) computes: the comments shown
    under a post and the replies shown under a floor.  The lemmas say by how much the
    numbers change when one comment becomes active or inactive, which is what the
    trigger [danshi_sync_comment_counts] writes. *)

From S2P Require Import Prelude.
From S2P Require Import Model.
From S2P Require Import PostRepo.
From S2P Require Import CommentRepo.
Open Scope Z_scope.

(** ** Counting the rows of a table *)
Section count.
Context {A : Type}.
Implicit Types (P Q : A -> bool) (t : gmap Z A).

Definition count P t : Z := Z.of_nat (size (filter (fun kv => P kv.2 = true) t)).

Lemma count_nonneg P t : 0 <= count P t.
Proof. unfold count. lia. Qed.

Lemma count_empty P : count P ∅ = 0.
Proof. unfold count. by rewrite map_filter_empty, map_size_empty. Qed.

Lemma count_insert_new P t k x : t !! k = None -> count P (<[k := x]> t) = count P t + Z.b2z (P x).
Proof.
  intros Hn. unfold count. destruct (P x) eqn:Hp; cbn.
  - rewrite map_filter_insert_True by done. rewrite map_size_insert_None; [lia|].
    apply map_lookup_filter_None. by left.
  - rewrite map_filter_insert_not'; [lia | cbn; congruence |]. intros y Hy. congruence.
Qed.

Lemma count_insert P t k x y :
  t !! k = Some x -> count P (<[k := y]> t) = count P t - Z.b2z (P x) + Z.b2z (P y).
Proof.
  intros Hk. pose proof (lookup_delete_eq t k) as Hd.
  rewrite <- (insert_delete_eq t k y), count_insert_new by done.
  assert (count P t = count P (delete k t) + Z.b2z (P x)) as ->; [|lia].
  by rewrite <- (count_insert_new P (delete k t) k x Hd), insert_delete_id.
Qed.

Lemma count_ext P Q t :
  (forall k x, t !! k = Some x -> P x = Q x) -> count P t = count Q t.
Proof.
  intros He. unfold count. do 2 f_equal. apply map_filter_ext. intros k x Hx. cbn.
  by rewrite (He _ _ Hx).
Qed.

Lemma count_none P t : (forall k x, t !! k = Some x -> P x = false) -> count P t = 0.
Proof.
  intros He. unfold count. assert (filter (fun kv => P kv.2 = true) t = ∅) as ->; [|done].
  apply map_empty. intros k. apply map_lookup_filter_None. right. intros x Hx. cbn.
  by rewrite (He _ _ Hx).
Qed.

Lemma count_split P Q t :
  count P t = count (fun x => P x && Q x) t + count (fun x => P x && negb (Q x)) t.
Proof.
  induction t as [|k x t Hk IH] using map_ind; [by rewrite !count_empty|].
  rewrite !count_insert_new by done. rewrite IH. destruct (P x), (Q x); cbn; lia.
Qed.
End count.

(** ** Marks *)
Record CMark := mkCMark {
  cm_Post : Z;
  cm_Author : Z;
  cm_Parent : option Z;
  cm_Root : option Z;
  cm_Answered : Z;
  cm_Active : bool;
}.
#[global] Instance eta_CMark : Eta CMark := fun x =>
  mkCMark (cm_Post x) (cm_Author x) (cm_Parent x) (cm_Root x) (cm_Answered x) (cm_Active x).

Definition cmark (c : Comment.t) : CMark :=
  mkCMark (Comment.PostID c) (Comment.AuthorID c) (Comment.ParentID c) (Comment.RootID c)
    (Comment.ReplyToUserID c) (CommentRepository.active c).
Definition cmarks (db : DB) : gmap Z CMark := cmark <$> comments db.

(** The floor a comment belongs to: its root's, or its own. *)
Definition floor_of (id : Z) (m : CMark) : Z := default id (cm_Root m).

(** Where a comment stands: a root answers the author of its post; a reply stands on
    the floor of its parent, under the same post, and answers the parent's author; the
    root of a floor is a root. *)
Definition placed (ps : gmap Z Post.t) (ms : gmap Z CMark) (m : CMark) : Prop :=
  (exists p, ps !! cm_Post m = Some p /\
     (cm_Root m = None -> cm_Answered m = Post.AuthorID p)) /\
  match cm_Parent m, cm_Root m with
  | None, None => True
  | Some parent, Some root =>
      (exists mp, ms !! parent = Some mp /\ floor_of parent mp = root /\
         cm_Post mp = cm_Post m /\ cm_Answered m = cm_Author mp) /\
      (exists mr, ms !! root = Some mr /\ cm_Root mr = None /\ cm_Post mr = cm_Post m)
  | _, _ => False
  end.

(** The mark with another activity, and what that changes. *)
Definition set_active (b : bool) (m : CMark) : CMark := m <| cm_Active := b |>.
Definition delta (b : bool) (m : CMark) : Z := Z.b2z b - Z.b2z (cm_Active m).

(** ** What [danshi_recount_all] counts *)
Section numbers.
Implicit Type ms : gmap Z CMark.

Definition root_active ms (r : Z) : bool :=
  match ms !! r with Some m => cm_Active m | None => false end.
(** A comment that is shown: active, and so is the root of its floor. *)
Definition counted ms (m : CMark) : bool :=
  cm_Active m && match cm_Root m with None => true | Some r => root_active ms r end.

Definition shown_comments ms (post : Z) : Z :=
  count (fun m => (cm_Post m =? post) && counted ms m) ms.
Definition shown_replies ms (root : Z) : Z :=
  count (fun m => bool_decide (cm_Root m = Some root) && cm_Active m) ms.

(** ** One comment becomes active or inactive *)
Context (ms : gmap Z CMark) (id : Z) (m : CMark) (Hm : ms !! id = Some m).
Context (Hfloor : forall k x r, ms !! k = Some x -> cm_Root x = Some r ->
  exists mr, ms !! r = Some mr /\ cm_Root mr = None /\ cm_Post mr = cm_Post x).
Context (b : bool).
Abbreviation m' := (set_active b m).

Lemma shown_replies_set r :
  shown_replies (<[id := m']> ms) r =
  shown_replies ms r + if bool_decide (cm_Root m = Some r) then delta b m else 0.
Proof.
  unfold shown_replies. rewrite (count_insert _ _ _ m) by done. unfold delta. cbn.
  case_bool_decide; cbn; lia.
Qed.

Lemma root_active_set r :
  root_active (<[id := m']> ms) r = if decide (r = id) then b else root_active ms r.
Proof.
  unfold root_active. destruct (decide (r = id)) as [->|Hr].
  - by rewrite lookup_insert_eq.
  - by rewrite lookup_insert_ne by congruence.
Qed.

(** A root: its whole floor counts. *)
Lemma shown_comments_set_root post :
  cm_Root m = None ->
  shown_comments (<[id := m']> ms) post =
  shown_comments ms post + if cm_Post m =? post then delta b m * (1 + shown_replies ms id) else 0.
Proof.
  intros Hr. unfold shown_comments. rewrite (count_insert _ _ _ m) by done.
  set (on_floor := fun x : CMark => bool_decide (cm_Root x = Some id)).
  rewrite (count_split _ on_floor ms), (count_split (fun x => (cm_Post x =? post) && counted ms x)
    on_floor ms).
  assert (forall (a : bool) (f : CMark -> bool),
    (forall k x, ms !! k = Some x -> cm_Root x = Some id -> f x = cm_Active x && a) ->
    count (fun x => (cm_Post x =? post) && f x && on_floor x) ms =
    if cm_Post m =? post then Z.b2z a * shown_replies ms id else 0) as Hon.
  { intros a f Hf. unfold shown_replies.
    assert (forall k x, ms !! k = Some x -> on_floor x = true -> cm_Post x = cm_Post m) as Hp.
    { intros k x Hx Hon. apply bool_decide_eq_true in Hon.
      destruct (Hfloor _ _ _ Hx Hon) as (mr & Hmr & _ & <-). congruence. }
    destruct (Z.eqb_spec (cm_Post m) post) as [He|He]; [destruct a|]; cbn [Z.b2z].
    - rewrite Z.mul_1_l. apply count_ext. intros k x Hx. fold (on_floor x).
      destruct (on_floor x) eqn:Hon; [|by rewrite andb_false_r].
      rewrite (Hf k x Hx) by (by apply bool_decide_eq_true in Hon).
      rewrite (Hp _ _ Hx Hon), He, Z.eqb_refl. by destruct (cm_Active x).
    - rewrite Z.mul_0_l. apply count_none. intros k x Hx. destruct (on_floor x) eqn:Hon;
        [|by rewrite andb_false_r].
      rewrite (Hf k x Hx) by (by apply bool_decide_eq_true in Hon). by rewrite !andb_false_r.
    - apply count_none. intros k x Hx. destruct (on_floor x) eqn:Hon; [|by rewrite andb_false_r].
      rewrite (Hp _ _ Hx Hon). by destruct (Z.eqb_spec (cm_Post m) post). }
  rewrite (Hon b (counted (<[id := m']> ms))), (Hon (cm_Active m) (counted ms)).
  - assert (count (fun x => (cm_Post x =? post) && counted (<[id := m']> ms) x && negb (on_floor x)) ms =
            count (fun x => (cm_Post x =? post) && counted ms x && negb (on_floor x)) ms) as ->.
    { apply count_ext. intros k x Hx. unfold counted, on_floor.
      destruct (cm_Root x) as [r|] eqn:Hx'; [|done]. rewrite root_active_set.
      case_decide as Hd; [|done]. rewrite Hd, bool_decide_eq_true_2 by done.
      by rewrite !andb_false_r. }
    unfold delta, counted. cbn. rewrite Hr. destruct (cm_Post m =? post), b, (cm_Active m); cbn; lia.
  - intros k x Hx Hr'. unfold counted. rewrite Hr'. unfold root_active. by rewrite Hm.
  - intros k x Hx Hr'. unfold counted. rewrite Hr', root_active_set. by rewrite decide_True.
Qed.

(** A reply: it counts when its root is active. *)
Lemma shown_comments_set_reply post r :
  cm_Root m = Some r ->
  shown_comments (<[id := m']> ms) post =
  shown_comments ms post +
    if (cm_Post m =? post) && root_active ms r then delta b m else 0.
Proof.
  intros Hr. unfold shown_comments. rewrite (count_insert _ _ _ m) by done.
  assert (forall k x q, ms !! k = Some x -> cm_Root x = Some q -> q <> id) as Hne.
  { intros k x q Hx Hq ->. destruct (Hfloor _ _ _ Hx Hq) as (mr & Hmr & Hn & _). congruence. }
  assert (forall k x, ms !! k = Some x -> counted (<[id := m']> ms) x = counted ms x) as Hc.
  { intros k x Hx. unfold counted. destruct (cm_Root x) as [q|] eqn:Hq; [|done].
    rewrite root_active_set, decide_False; [done|]. by eapply Hne. }
  rewrite (count_ext _ (fun x => (cm_Post x =? post) && counted ms x))
    by (intros k x Hx; by rewrite (Hc _ _ Hx)).
  rewrite (Hc _ _ Hm).
  assert (counted (<[id := m']> ms) m' = b && root_active ms r) as ->.
  { unfold counted. cbn. rewrite Hr, root_active_set, decide_False; [done|]. by eapply Hne. }
  unfold counted, delta. rewrite Hr. cbn.
  destruct (cm_Post m =? post), (root_active ms r), b, (cm_Active m); cbn; lia.
Qed.
End numbers.

(** ** A new comment is inactive: no number changes *)
Lemma shown_replies_new ms id m r :
  ms !! id = None -> cm_Active m = false ->
  shown_replies (<[id := m]> ms) r = shown_replies ms r.
Proof.
  intros Hn Ha. unfold shown_replies. rewrite count_insert_new by done.
  rewrite Ha, andb_false_r. cbn. lia.
Qed.

Lemma shown_comments_new ms id m post :
  ms !! id = None -> cm_Active m = false ->
  (forall k x r, ms !! k = Some x -> cm_Root x = Some r -> is_Some (ms !! r)) ->
  shown_comments (<[id := m]> ms) post = shown_comments ms post.
Proof.
  intros Hn Ha Hfk. unfold shown_comments. rewrite count_insert_new by done.
  unfold counted at 2. rewrite Ha, andb_false_r. cbn. rewrite Z.add_0_r. apply count_ext.
  intros k x Hx. unfold counted. destruct (cm_Root x) as [r|] eqn:Hr; [|done].
  unfold root_active. rewrite lookup_insert_ne; [done|]. intros <-.
  destruct (Hfk _ _ _ Hx Hr) as [? ?]. congruence.
Qed.

(** A comment nobody answers, and a post nobody comments. *)
Lemma shown_replies_none ms r :
  (forall k x, ms !! k = Some x -> cm_Root x <> Some r) -> shown_replies ms r = 0.
Proof.
  intros Hn. apply count_none. intros k x Hx. rewrite bool_decide_eq_false_2; [done|]. by eapply Hn.
Qed.
Lemma shown_comments_none ms post :
  (forall k x, ms !! k = Some x -> cm_Post x <> post) -> shown_comments ms post = 0.
Proof.
  intros Hn. apply count_none. intros k x Hx. destruct (Z.eqb_spec (cm_Post x) post); [|done].
  by destruct (Hn _ _ Hx).
Qed.

Lemma shown_nonneg ms i : 0 <= shown_comments ms i /\ 0 <= shown_replies ms i.
Proof. split; apply count_nonneg. Qed.
