(* ===== verification/PostTables.v ===== *)
(** * The tables of a post: what its publication depends on

    [view] keeps of the tables what the moderation state of the posts is made of:
    the status, current revision and deletion of each post, the images it shows and
    their verdicts, its text verdicts, and its versions.  Most statements leave it
    alone ([unchanged view]); [touches id] says that a computation changes it at one
    post only, up to deleting others. *)

From S2P Require Import Prelude.
From S2P Require Import GoText.
From S2P Require Import Apierr.
From S2P Require Import Effects.
From S2P Require Import Logic.
From S2P Require Import Model.
From S2P Require Import AuthRepo.
From S2P Require Import AuthService.
From S2P Require Import ImageAccess.
From S2P Require Import Notifications.
From S2P Require Import PostRepo.
From S2P Require Import Moderation.
Import PostRepository.
Open Scope Z_scope.

(** ** The view *)
Record Mark := mkMark {
  m_ID : Z; m_Status : string; m_Revision : Z; m_Deleted : bool }.
Definition mark (p : Post.t) : Mark :=
  mkMark (Post.ID p) (Post.Status p) (Post.CurrentRevision p) (negb (undeleted p)).

Definition on_a_post (r : ModerationRecord.t) : Prop := ModerationRecord.PostID r <> None.

Definition marks (db : DB) : gmap Z Mark := mark <$> posts db.
Definition verdicts (db : DB) : gmap Z (Z * string) :=
  (fun a => (ImageAsset.ID a, ImageAsset.Moderation a)) <$> image_assets db.
Definition texts (db : DB) : gmap Z ModerationRecord.t :=
  filter (fun kv => on_a_post kv.2) (moderation_records db).
Definition versions (db : DB) : gmap Z (Z * Z) :=
  (fun h => (PostHistory.PostID h, PostHistory.Revision h)) <$> post_histories db.

Record View := mkView {
  v_marks : gmap Z Mark;
  v_images : gmap (Z * Z) PostImage.t;
  v_verdicts : gmap Z (Z * string);
  v_texts : gmap Z ModerationRecord.t;
  v_versions : gmap Z (Z * Z);
}.
Definition view (db : DB) : View :=
  mkView (marks db) (post_images db) (verdicts db) (texts db) (versions db).

(** ** What the theorems speak about *)
(** The post is shown to everybody, in version [v]. *)
Definition published (db : DB) (id v : Z) : Prop :=
  exists p, posts db !! id = Some p /\ Post.Status p = PostStatusApproved /\
    undeleted p = true /\ Post.CurrentRevision p = v.

Definition shows (db : DB) (id image : Z) : Prop :=
  exists k pi, post_images db !! k = Some pi /\ PostImage.PostID pi = id /\
    PostImage.ImageAssetID pi = image.

(** The last verdict on the text of the version lets it pass. *)
Definition text_passed (db : DB) (id v : Z) : Prop :=
  exists k r, moderation_records db !! k = Some r /\ of_revision id v r = true /\
    ModerationRecord.Verdict r = ModerationVerdictPass /\
    forall k' r', moderation_records db !! k' = Some r' -> of_revision id v r' = true ->
      newer_first r r' = true.

(** No image of the post is waiting for a verdict, for a review, or blocked. *)
Definition image_clear (status : string) : Prop :=
  status <> ModerationStatusPending /\ status <> ModerationStatusReview /\
  status <> ModerationStatusBlock.
Definition images_clear (db : DB) (id : Z) : Prop :=
  forall i a, shows db id i -> image_assets db !! i = Some a ->
    image_clear (ImageAsset.Moderation a).

(** A step publishes what passed both checks, and nothing else. *)
Definition gate (db db' : DB) : Prop :=
  forall id v, published db' id v ->
    (published db id v /\ forall i, shows db' id i <-> shows db id i) \/
    (text_passed db' id v /\ images_clear db' id).

(** The foreign keys [fk_posts_current_revision], [fk_mr_post_revision] (migration
    00017), [post_histories.post_id] and the check [mr_single_target_check], and that
    an approved post has a text that passed. *)
Definition has_version (db : DB) (id v : Z) : Prop :=
  exists k h, post_histories db !! k = Some h /\ PostHistory.PostID h = id /\
    PostHistory.Revision h = v.

(** The identities of image_assets are keys, and start at 1. *)
Definition assets_keyed (db : DB) : Prop :=
  forall k a, image_assets db !! k = Some a -> ImageAsset.ID a = k /\ k <> 0.

Record posts_ok (db : DB) : Prop := {
  ok_posts : keyed Post.ID (posts db);
  ok_assets : assets_keyed db;
  ok_versions : forall id v, has_version db id v -> is_Some (posts db !! id);
  ok_current : forall id p, posts db !! id = Some p -> has_version db id (Post.CurrentRevision p);
  ok_texts : forall k r id, moderation_records db !! k = Some r ->
    ModerationRecord.PostID r = Some id ->
    ModerationRecord.ImageAssetID r = None /\
    exists v, ModerationRecord.ContentRevision r = Some v /\ has_version db id v;
  ok_approved : forall id p, posts db !! id = Some p -> Post.Status p = PostStatusApproved ->
    text_passed db id (Post.CurrentRevision p);
}.

(** ** They depend on the view only *)
Lemma elem_texts db k r :
  texts db !! k = Some r <-> moderation_records db !! k = Some r /\ on_a_post r.
Proof. unfold texts. by rewrite map_lookup_filter_Some. Qed.

Lemma of_revision_spec id v r :
  of_revision id v r = true <->
  ModerationRecord.PostID r = Some id /\ ModerationRecord.ContentRevision r = Some v.
Proof. unfold of_revision. by rewrite andb_true_iff, !bool_decide_eq_true. Qed.

Lemma of_revision_text db k r id v :
  of_revision id v r = true ->
  moderation_records db !! k = Some r <-> texts db !! k = Some r.
Proof.
  intros [Hp _]%of_revision_spec. rewrite elem_texts. unfold on_a_post. naive_solver.
Qed.

Lemma text_passed_texts db id v :
  text_passed db id v <->
  exists k r, texts db !! k = Some r /\ of_revision id v r = true /\
    ModerationRecord.Verdict r = ModerationVerdictPass /\
    forall k' r', texts db !! k' = Some r' -> of_revision id v r' = true ->
      newer_first r r' = true.
Proof.
  unfold text_passed. split; intros (k & r & Hr & Ho & Hv & Hn); exists k, r;
    (split; [by apply (of_revision_text db k r id v)|]); (split; [done|]); (split; [done|]);
    intros k' r' Hr' Ho'; eapply Hn; try done; by apply (of_revision_text db k' r' id v).
Qed.

Lemma mark_lookup db id m :
  marks db !! id = Some m <-> exists p, posts db !! id = Some p /\ m = mark p.
Proof. unfold marks. rewrite lookup_fmap_Some. naive_solver. Qed.

Definition is_published (v : Z) (m : Mark) : Prop :=
  m_Status m = PostStatusApproved /\ m_Deleted m = false /\ m_Revision m = v.

Lemma published_marks db id v :
  published db id v <-> exists m, marks db !! id = Some m /\ is_published v m.
Proof.
  unfold published, is_published. setoid_rewrite mark_lookup. split.
  - intros (p & Hp & Hs & Hd & Hv). exists (mark p). split; [eauto|]. cbn. by rewrite Hd.
  - intros (m & (p & Hp & ->) & Hs & Hd & Hv). exists p. cbn in *.
    by destruct (undeleted p).
Qed.

Lemma has_version_versions db id v :
  has_version db id v <-> exists k, versions db !! k = Some (id, v).
Proof.
  unfold has_version, versions. setoid_rewrite lookup_fmap_Some. naive_solver.
Qed.

Lemma images_clear_verdicts db id :
  images_clear db id <->
  forall i iv, shows db id i -> verdicts db !! i = Some iv -> image_clear (snd iv).
Proof.
  unfold images_clear, verdicts. setoid_rewrite lookup_fmap_Some. naive_solver.
Qed.

(** ** Computations that change the view at the posts of [P] *)
(** What may happen to any post: it can be deleted. *)
Definition mark_le (m0 m : Mark) : Prop :=
  m_ID m = m_ID m0 /\ m_Status m = m_Status m0 /\ m_Revision m = m_Revision m0 /\
  (m_Deleted m0 = true -> m_Deleted m = true).

Definition kept (db : DB) : Prop :=
  keyed Post.ID (posts db) /\ assets_keyed db.

Record touch (P : Z -> Prop) (db db' : DB) : Prop := {
  th_dom : forall k, is_Some (posts db !! k) -> is_Some (posts db' !! k);
  th_marks : forall k m, ~ P k -> marks db' !! k = Some m ->
    exists m0, marks db !! k = Some m0 /\ mark_le m0 m;
  th_images : forall k pi, ~ P (PostImage.PostID pi) ->
    post_images db' !! k = Some pi <-> post_images db !! k = Some pi;
  th_texts : forall k r, texts db !! k = Some r -> texts db' !! k = Some r;
  th_new_texts : forall k r, texts db' !! k = Some r ->
    texts db !! k = Some r \/ exists id, ModerationRecord.PostID r = Some id /\ P id;
  th_versions : forall k hv, versions db !! k = Some hv -> versions db' !! k = Some hv;
  th_new_versions : forall k hv, versions db' !! k = Some hv ->
    versions db !! k = Some hv \/ P (fst hv);
}.

Definition touches (P : Z -> Prop) : relation DB := fun db db' =>
  kept db -> kept db' /\ touch P db db'.

(** Everything outside [P] stays: a fact about each table. *)
#[global] Instance touch_preorder P : PreOrder (touch P).
Proof.
  split.
  - intros db. split; eauto; try done. intros k m _ Hm. exists m. by split_and!.
  - intros db1 db2 db3 [] []. split; eauto.
    + intros k m Hk Hm. destruct (th_marks1 _ _ Hk Hm) as (m2 & Hm2 & E2).
      destruct (th_marks0 _ _ Hk Hm2) as (m1 & Hm1 & E1). exists m1. split; [done|].
      unfold mark_le in *. naive_solver congruence.
    + intros k pi Hk. by rewrite th_images1, th_images0.
    + intros k r Hr. destruct (th_new_texts1 _ _ Hr); eauto.
    + intros k r Hr. destruct (th_new_versions1 _ _ Hr); eauto.
Qed.

#[global] Instance touches_preorder P : PreOrder (touches P).
Proof.
  split.
  - intros db Hk. by split.
  - intros db1 db2 db3 H12 H23 Hk. destruct (H12 Hk) as [Hk2 T12].
    destruct (H23 Hk2) as [Hk3 T23]. split; [done | by etrans].
Qed.

Lemma touch_weaken (P Q : Z -> Prop) db db' :
  (forall id, P id -> Q id) -> touch P db db' -> touch Q db db'.
Proof. intros Hi []. split; naive_solver. Qed.

Lemma touches_weaken (P Q : Z -> Prop) db db' :
  (forall id, P id -> Q id) -> touches P db db' -> touches Q db db'.
Proof. intros Hi Ht Hk. destruct (Ht Hk). split; [done | by eapply touch_weaken]. Qed.

(** Keys are part of the view. *)
Lemma keyed_marks db : keyed Post.ID (posts db) <-> keyed m_ID (marks db).
Proof.
  unfold keyed, marks. setoid_rewrite lookup_fmap_Some. split.
  - intros Hk k m (p & <- & Hp). by apply Hk.
  - intros Hk k p Hp. apply (Hk k (mark p)). eauto.
Qed.
Lemma keyed_verdicts db :
  assets_keyed db <-> forall k iv, verdicts db !! k = Some iv -> fst iv = k /\ k <> 0.
Proof.
  unfold assets_keyed, verdicts. setoid_rewrite lookup_fmap_Some. split.
  - intros Hk k m (p & <- & Hp). by apply Hk.
  - intros Hk k p Hp. apply (Hk k (ImageAsset.ID p, ImageAsset.Moderation p)). eauto.
Qed.

Lemma dom_marks db k : is_Some (posts db !! k) <-> is_Some (marks db !! k).
Proof. unfold marks. by rewrite lookup_fmap, fmap_is_Some. Qed.

Section views.
Context (db db' : DB) (E : view db' = view db).

Lemma view_marks : marks db' = marks db. Proof. by injection E. Qed.
Lemma view_images : post_images db' = post_images db. Proof. by injection E. Qed.
Lemma view_verdicts : verdicts db' = verdicts db. Proof. by injection E. Qed.
Lemma view_texts : texts db' = texts db. Proof. by injection E. Qed.
Lemma view_versions : versions db' = versions db. Proof. by injection E. Qed.

Lemma view_kept : kept db -> kept db'.
Proof. unfold kept. by rewrite !keyed_marks, !keyed_verdicts, view_marks, view_verdicts. Qed.

Lemma view_touches P : touches P db db'.
Proof.
  intros Hk. split; [by apply view_kept|]. split.
  - intros k. by rewrite !dom_marks, view_marks.
  - intros k m _. rewrite view_marks. intros Hm. exists m. by split_and!.
  - intros k pi _. by rewrite view_images.
  - by rewrite view_texts.
  - rewrite view_texts. by left.
  - by rewrite view_versions.
  - rewrite view_versions. by left.
Qed.
End views.

Lemma keeps_touches `{Env} P {R} (m : MT R) : Keeps (unchanged view) m -> Keeps (touches P) m.
Proof. intros Hm tx r tx' E. apply view_touches. by eapply Hm. Qed.

(** ** The invariant and the gate after a change at [P] *)
Lemma touch_has_version P db db' id v :
  touch P db db' -> has_version db id v -> has_version db' id v.
Proof. intros []. rewrite !has_version_versions. naive_solver. Qed.

Lemma touch_has_version_inv P db db' id v :
  touch P db db' -> ~ P id -> has_version db' id v -> has_version db id v.
Proof.
  intros [] Hp. rewrite !has_version_versions. intros [k Hk].
  destruct (th_new_versions0 _ _ Hk); [eauto | done].
Qed.

Lemma touch_text_passed P db db' id v :
  touch P db db' -> ~ P id -> text_passed db id v -> text_passed db' id v.
Proof.
  intros [] Hp. rewrite !text_passed_texts. intros (k & r & Hr & Ho & Hv & Hn).
  exists k, r. split_and!; eauto. intros k' r' Hr' Ho'.
  destruct (th_new_texts0 _ _ Hr') as [Hold | (id' & Hid & HP)]; [eauto|].
  apply of_revision_spec in Ho' as [Hid' _]. rewrite Hid in Hid'. by injection Hid' as ->.
Qed.

Lemma touch_post P db db' id p' :
  touch P db db' -> ~ P id -> posts db' !! id = Some p' ->
  exists p, posts db !! id = Some p /\ Post.Status p' = Post.Status p /\
    Post.CurrentRevision p' = Post.CurrentRevision p /\
    (undeleted p' = true -> undeleted p = true).
Proof.
  intros [] Hp Hp'. destruct (th_marks0 id (mark p')) as (m & Hm & Hle); [done| |].
  { apply mark_lookup. eauto. }
  apply mark_lookup in Hm as (p & Hp0 & ->). exists p. unfold mark_le in Hle. cbn in Hle.
  destruct Hle as (_ & ? & ? & Hd). split_and!; try done. intros Hu. rewrite Hu in Hd.
  destruct (undeleted p); naive_solver.
Qed.

Lemma touch_shows P db db' id i :
  touch P db db' -> ~ P id -> shows db' id i <-> shows db id i.
Proof.
  intros [] Hp. unfold shows. split; intros (k & pi & Hk & Hpi & Hi); exists k, pi;
    (split; [|done]); apply th_images0; by rewrite ?Hpi.
Qed.

Lemma touch_gate P `{!forall id, Decision (P id)} db db' :
  touch P db db' ->
  (forall id v, P id -> published db' id v -> text_passed db' id v /\ images_clear db' id) ->
  gate db db'.
Proof.
  intros T HP id v (p' & Hp' & Hs & Hu & Hv). destruct (decide (P id)) as [Hid|Hid].
  - right. apply HP; [done|]. by exists p'.
  - left. destruct (touch_post _ _ _ _ _ T Hid Hp') as (p & Hp & Es & Er & Eu).
    split; [|intros i; by eapply touch_shows]. exists p. split_and!; [done|congruence|auto|congruence].
Qed.

(** What is left to show of the posts of [P]. *)
Record post_ok (db : DB) (id : Z) : Prop := {
  po_versions : forall v, has_version db id v -> is_Some (posts db !! id);
  po_current : forall p, posts db !! id = Some p -> has_version db id (Post.CurrentRevision p);
  po_texts : forall k r, texts db !! k = Some r -> ModerationRecord.PostID r = Some id ->
    ModerationRecord.ImageAssetID r = None /\
    exists v, ModerationRecord.ContentRevision r = Some v /\ has_version db id v;
  po_approved : forall p, posts db !! id = Some p -> Post.Status p = PostStatusApproved ->
    text_passed db id (Post.CurrentRevision p);
}.

Lemma posts_ok_spec db : posts_ok db <-> kept db /\ forall id, post_ok db id.
Proof.
  split.
  - intros []. split; [by split|]. intros id. split; eauto.
    intros k r [Hr _]%elem_texts. eauto.
  - intros [[] Ho]. split; try done; try (intros; by eapply Ho).
    intros k r id Hr Hid. apply (po_texts _ _ (Ho id) k); [|done].
    apply elem_texts. unfold on_a_post. by rewrite Hid.
Qed.

Lemma touch_post_ok P db db' id : touch P db db' -> ~ P id -> post_ok db id -> post_ok db' id.
Proof.
  intros T Hp []. split.
  - intros v Hv. apply (th_dom _ _ _ T). by eapply po_versions0, touch_has_version_inv.
  - intros p' Hp'. destruct (touch_post _ _ _ _ _ T Hp Hp') as (p & ? & _ & -> & _).
    eapply touch_has_version; eauto.
  - intros k r Hr Hid. destruct (th_new_texts _ _ _ T _ _ Hr) as [Hold | (id' & Hid' & HP)];
      [|by rewrite Hid in Hid'; simplify_eq].
    destruct (po_texts0 _ _ Hold Hid) as (? & v & ? & ?). split; [done|]. exists v.
    split; [done|]. by eapply touch_has_version.
  - intros p' Hp' Hs. destruct (touch_post _ _ _ _ _ T Hp Hp') as (p & ? & Es & -> & _).
    eapply touch_text_passed; [done..|]. apply po_approved0; congruence.
Qed.

Lemma touches_ok P `{!forall id, Decision (P id)} db db' :
  touches P db db' -> posts_ok db -> (forall id, P id -> post_ok db' id) -> posts_ok db'.
Proof.
  rewrite !posts_ok_spec. intros Ht [Hk Ho] HP. destruct (Ht Hk) as [Hk' T]. split; [done|].
  intros id. destruct (decide (P id)); [by apply HP | by eapply touch_post_ok].
Qed.

(** The same view, the same invariant. *)
Lemma view_posts_ok db db' : view db' = view db -> posts_ok db -> posts_ok db'.
Proof.
  intros Hv Ho. by apply (touches_ok (fun _ => False) db); [apply view_touches|..].
Qed.

(** ** Statements that leave the view alone *)
#[export] Hint Resolve keeps_touches : keeps.

Lemma update_where_fmap {A B} (g : A -> B) p f (t : gmap Z A) :
  (forall r, g (f r) = g r) -> g <$> snd (update_where p f t) = g <$> t.
Proof.
  intros Hg. cbn. rewrite <- map_fmap_compose. apply map_fmap_ext. intros k r _. cbn.
  by case_match.
Qed.

Lemma texts_insert (t : gmap Z ModerationRecord.t) id r :
  t !! id = None -> ModerationRecord.PostID r = None ->
  filter (fun kv => on_a_post kv.2) (<[id := r]> t) = filter (fun kv => on_a_post kv.2) t.
Proof.
  intros Hn Hr. apply map_filter_insert_not'; [|intros y Hy; congruence].
  unfold on_a_post. cbn. intros Hne. by apply Hne.
Qed.

Lemma texts_insert_post db id r :
  ModerationRecord.PostID r <> None ->
  texts (db <| moderation_records := <[id := r]> (moderation_records db) |>) =
  <[id := r]> (texts db).
Proof. intros Hr. unfold texts. cbn. by rewrite map_filter_insert_True. Qed.

Lemma insert_record_inr id record db db' :
  insert_record id record db = inr db' ->
  let r := record <| ModerationRecord.ID := id |> in
  moderation_records db !! id = None /\ review_shape r db = true /\
  db' = db <| moderation_records := <[id := r]> (moderation_records db) |>.
Proof.
  unfold insert_record. intros E. repeat case_match; simplify_eq.
  match goal with H : insert_row _ _ _ _ = inr _ |- _ => apply insert_row_inr in H as [? ->] end.
  split_and!; [done | by apply negb_false_iff | done].
Qed.

Section unchanged_view.
Context `{Env}.

Lemma view_asset_update db p f :
  (forall a, ImageAsset.ID (f a) = ImageAsset.ID a /\
             ImageAsset.Moderation (f a) = ImageAsset.Moderation a) ->
  view (db <| image_assets := snd (update_where p f (image_assets db)) |>) = view db.
Proof.
  intros Hf. unfold view, verdicts. cbn -[update_where]. f_equal. apply update_where_fmap.
  intros a. by destruct (Hf a) as [-> ->].
Qed.

Lemma view_post_update db p f :
  (forall r, mark (f r) = mark r) ->
  view (db <| posts := snd (update_where p f (posts db)) |>) = view db.
Proof.
  intros Hf. unfold view, marks. cbn -[update_where]. f_equal. by apply update_where_fmap.
Qed.

Lemma view_retire now db id : view (retire now db id) = view db.
Proof. unfold retire. case_match; [done|]. by apply view_asset_update. Qed.
Lemma view_activate now db id : view (activate now db id) = view db.
Proof. by apply view_asset_update. Qed.
Lemma view_foldl (f : DB -> Z -> DB) l db :
  (forall db id, view (f db id) = view db) -> view (foldl f db l) = view db.
Proof. intros Hf. revert db. induction l; intros db; cbn; [done|]. by rewrite IHl. Qed.

Lemma keeps_First {R} D `{!PreOrder D} (f : DB -> option R) : Keeps D (First f).
Proof. unfold First. solve_keeps. Qed.
#[local] Hint Resolve keeps_First : keeps.

Lemma keeps_view_exec (f : DB -> DB) :
  (forall db, view (f db) = view db) -> Keeps (B := BeforeOp) (A := AfterOp) (unchanged view) (exec f).
Proof. intros Hf. apply (keeps_exec _); exact Hf. Qed.

Lemma keeps_view_record id record :
  ModerationRecord.PostID record = None ->
  forall db db', insert_record id record db = inr db' -> view db' = view db.
Proof.
  intros Hp db db' Ei. apply insert_record_inr in Ei as (Hn & _ & ->).
  unfold view, texts. cbn. by rewrite texts_insert.
Qed.

Lemma keeps_CreateRecord record :
  ModerationRecord.PostID record = None -> Keeps (unchanged view) (CreateRecord record).
Proof.
  intros Hp. unfold CreateRecord. solve_keeps. apply (keeps_stmt _). intros db r db'.
  destruct (insert_record _ _ _) eqn:Ei; [done|]. intros [= <- <-].
  by eapply keeps_view_record.
Qed.

Lemma keeps_CreateMachineRecordIfNew record :
  ModerationRecord.PostID record = None ->
  Keeps (unchanged view) (ModerationRepository.CreateMachineRecordIfNew record).
Proof.
  intros Hp. unfold ModerationRepository.CreateMachineRecordIfNew. solve_keeps.
  apply (keeps_stmt _). intros db r db'. case_match; [by intros [= <- <-]|].
  destruct (insert_record _ _ _) eqn:Ei; [done|]. intros [= <- <-].
  by eapply keeps_view_record.
Qed.

Lemma keeps_DeleteForAsset id : Keeps (unchanged view) (ModerationRepository.DeleteForAsset id).
Proof. by apply keeps_view_exec. Qed.

Context `{Pg} `{DbClock}.

Lemma keeps_DbNow D `{!PreOrder D} : Keeps D DbNow.
Proof. apply (keeps_same _). unfold DbNow. naive_solver. Qed.

Lemma keeps_FindOrCreateTag name : Keeps (unchanged view) (FindOrCreateTag name).
Proof.
  unfold FindOrCreateTag. pose proof (keeps_DbNow (unchanged view)). solve_keeps.
  apply (keeps_stmt _). intros db r db'. case_match; naive_solver.
Qed.

Lemma keeps_SetTagModeration id s d : Keeps (unchanged view) (SetTagModeration id s d).
Proof. unfold SetTagModeration. solve_keeps. by apply keeps_view_exec. Qed.

Lemma keeps_ReplaceTags id tags : Keeps (unchanged view) (ReplaceTags id tags).
Proof.
  unfold ReplaceTags. solve_keeps; [by apply keeps_view_exec|].
  apply (keeps_stmt _). intros db r db'. case_match; naive_solver.
Qed.

Lemma keeps_ReplaceFlavors id ty fs st : Keeps (unchanged view) (ReplaceFlavors id ty fs st).
Proof.
  unfold ReplaceFlavors. solve_keeps; [by apply keeps_view_exec|].
  apply (keeps_stmt _). intros db r db'. case_match; naive_solver.
Qed.

Lemma keeps_LoadSnapshotRelations id : Keeps (unchanged view) (LoadSnapshotRelations id).
Proof. unfold LoadSnapshotRelations. solve_keeps. Qed.

Lemma view_bump f id db : (forall p, mark (f p) = mark p) -> view (bump f id db) = view db.
Proof. apply view_post_update. Qed.

Lemma keeps_likes userID postID :
  Keeps (unchanged view) (Like userID postID) /\ Keeps (unchanged view) (Unlike userID postID) /\
  Keeps (unchanged view) (Favorite userID postID) /\
  Keeps (unchanged view) (Unfavorite userID postID).
Proof.
  unfold Like, Unlike, Favorite, Unfavorite.
  split_and!; solve_keeps; apply (keeps_stmt _); intros db r db';
    repeat case_match; intros [= <- <-]; try done; unfold unchanged;
    by rewrite view_bump.
Qed.

Lemma keeps_IncrementView id : Keeps (unchanged view) (IncrementView id).
Proof.
  unfold IncrementView, found_row, update_posts. solve_keeps. apply (keeps_stmt _).
  intros db r db' [= <- <-]. by apply view_post_update.
Qed.

Lemma keeps_Notification n : Keeps (unchanged view) (NotificationRepository.Create n).
Proof.
  unfold NotificationRepository.Create. solve_keeps. apply (keeps_stmt _).
  intros db r db'. case_match; naive_solver.
Qed.
End unchanged_view.

#[export] Hint Resolve keeps_First keeps_CreateRecord keeps_CreateMachineRecordIfNew
  keeps_DeleteForAsset keeps_DbNow keeps_FindOrCreateTag keeps_SetTagModeration
  keeps_ReplaceTags keeps_ReplaceFlavors keeps_LoadSnapshotRelations keeps_IncrementView
  keeps_Notification : keeps.

(** ** Statements that change it *)
(** The tables but for the images the posts show. *)
Definition core (db : DB) := (marks db, verdicts db, texts db, versions db).

Lemma view_core db db' : view db' = view db -> core db' = core db.
Proof. intros E. unfold core. by injection E as -> _ -> -> ->. Qed.
Lemma keeps_core `{Env} {R} (m : MT R) : Keeps (unchanged view) m -> Keeps (unchanged core) m.
Proof. intros Hm tx r tx' E. apply view_core. by eapply Hm. Qed.

Definition set_posts (p : Post.t -> bool) (f : Post.t -> Post.t) (db : DB) : DB :=
  db <| posts := snd (update_where p f (posts db)) |>.

Lemma set_posts_keyed p f db :
  (forall r, Post.ID (f r) = Post.ID r) -> kept db -> kept (set_posts p f db).
Proof.
  intros Hf [Hp Ha]. split; [|done]. cbn. apply keyed_fmap; [|done].
  intros r. by case_match.
Qed.

Lemma set_posts_lookup id f db :
  kept db -> posts (set_posts (by_id id) f db) !! id = f <$> posts db !! id.
Proof.
  intros [Hp _]. cbn. rewrite lookup_fmap. destruct (posts db !! id) as [p|] eqn:E; [|done].
  cbn. apply Hp in E as E'. unfold by_id. by rewrite E', Z.eqb_refl.
Qed.

(** An update of posts of [P], or one that only deletes. *)
Lemma touches_set_posts (P : Z -> Prop) p f db :
  (forall r, Post.ID (f r) = Post.ID r) ->
  (forall r, p r = true -> P (Post.ID r) \/ mark_le (mark r) (mark (f r))) ->
  touches P db (set_posts p f db).
Proof.
  intros Hf HP Hk. split; [by apply set_posts_keyed|].
  assert (forall k r, posts (set_posts p f db) !! k = Some r <->
            exists r0, posts db !! k = Some r0 /\ r = if p r0 then f r0 else r0) as Hl.
  { intros k r. cbn. rewrite lookup_fmap_Some. naive_solver. }
  split; try (intros; tauto).
  - intros k [r Hr]. eexists. apply Hl. eauto.
  - intros k m Hn (r & (r0 & Hr0 & ->)%Hl & ->)%mark_lookup. exists (mark r0).
    split; [apply mark_lookup; eauto|]. destruct (p r0) eqn:Hp0; [|by split_and!].
    destruct (HP _ Hp0) as [HP0|?]; [|done]. by rewrite (proj1 Hk _ _ Hr0) in HP0.
Qed.

Section statements.
Context `{Env} `{Pg} `{DbClock}.

Lemma update_posts_inr p f (tx : TxD) n tx' :
  update_posts p f tx = (inr n, tx') -> tx_db tx' = set_posts p f (tx_db tx).
Proof. unfold update_posts. intros E. apply stmt_inr in E as (_ & [= _ <-] & _). done. Qed.

Lemma found_row_inr (m : MT Z) tx tx' :
  found_row m tx = (inr tt, tx') -> exists n, m tx = (inr n, tx') /\ n <> 0.
Proof.
  unfold found_row. intros E. run_inv. exists a. split; [done|].
  by apply Z.eqb_neq.
Qed.

Lemma keeps_update_posts (P : Z -> Prop) p f :
  (forall r, Post.ID (f r) = Post.ID r) ->
  (forall r, p r = true -> P (Post.ID r) \/ mark_le (mark r) (mark (f r))) ->
  Keeps (touches P) (update_posts p f).
Proof.
  intros Hf HP. unfold update_posts. apply (keeps_stmt _). intros db r db' [= _ <-].
  by apply touches_set_posts.
Qed.

Lemma keeps_found_row D `{!PreOrder D} (m : MT Z) : Keeps D m -> Keeps D (found_row m).
Proof. intros Hm. unfold found_row. solve_keeps. Qed.

Lemma keeps_SoftDelete P id actor reason now :
  Keeps (touches P) (SoftDelete id actor reason now).
Proof.
  apply (keeps_found_row _), keeps_update_posts; [done|]. intros r _. right. by split_and!.
Qed.

Lemma keeps_UpdateImageModeration P id status :
  Keeps (touches P) (ModerationRepository.UpdateImageModeration id status).
Proof.
  apply (keeps_found_row _), (keeps_stmt _). intros db r db' [= _ <-] [Hp Ha]. split; [split|].
  - done.
  - intros k a Hk. cbn in Hk. apply lookup_fmap_Some in Hk as (a0 & <- & Hk).
    case_match; exact (Ha _ _ Hk).
  - split; eauto; try done. intros k m _ Hm. exists m. by split_and!.
Qed.

(** [CreateHistory]. *)
Lemma CreateHistory_inr h (tx : TxD) tx' :
  CreateHistory h tx = (inr tt, tx') ->
  let hv := (PostHistory.PostID h, PostHistory.Revision h) in
  exists k, versions (tx_db tx) !! k = None /\
    versions (tx_db tx') = <[k := hv]> (versions (tx_db tx)) /\
    marks (tx_db tx') = marks (tx_db tx) /\ post_images (tx_db tx') = post_images (tx_db tx) /\
    verdicts (tx_db tx') = verdicts (tx_db tx) /\ texts (tx_db tx') = texts (tx_db tx).
Proof.
  unfold CreateHistory. intros E. run_inv. apply stmt_inr in E as (_ & E & _).
  match goal with Hs : tx_db _ = tx_db tx |- _ => rewrite Hs in E end.
  case_match; [done|]. destruct (insert_row _ _ _ _) eqn:Ei; [done|].
  apply insert_row_inr in Ei as [Hn ->]. injection E as <-. exists a.
  unfold versions. cbn. rewrite lookup_fmap, Hn, fmap_insert. done.
Qed.

Lemma keeps_CreateHistory h : Keeps (touches (eq (PostHistory.PostID h))) (CreateHistory h).
Proof.
  intros tx [e|[]] tx' E Hk.
  { assert (tx_db tx' = tx_db tx) as ->; [|by split].
    unfold CreateHistory, mbind in E. cbn in E. apply stmt_inl in E as [-> _]. done. }
  apply CreateHistory_inr in E as (k & Hn & Ev & Em & Ei & Ed & Et). split.
  - unfold kept in *. rewrite keyed_marks, keyed_verdicts in *. by rewrite Em, Ed.
  - split; rewrite ?Ei, ?Et; eauto; try done.
    + intros k'. by rewrite !dom_marks, Em.
    + intros k' m _. rewrite Em. intros Hm. exists m. by split_and!.
    + intros k' hv Hv. rewrite Ev. apply lookup_insert_Some. right. split; [congruence|done].
    + intros k' hv. rewrite Ev. intros [[<- <-]|[_ Hv]]%lookup_insert_Some; eauto.
Qed.

(** [CreateRecord] for a text. *)
Record adds_text (id v : Z) (r : ModerationRecord.t) (db db' : DB) : Prop := {
  at_texts : exists k, texts db !! k = None /\ texts db' = <[k := r]> (texts db);
  at_record : of_revision id v r = true /\ ModerationRecord.ImageAssetID r = None;
  at_rest : marks db' = marks db /\ post_images db' = post_images db /\
    verdicts db' = verdicts db /\ versions db' = versions db;
}.

Lemma CreateRecord_inr id v record (tx : TxD) r tx' :
  of_revision id v record = true -> ModerationRecord.ImageAssetID record = None ->
  CreateRecord record tx = (inr r, tx') ->
  adds_text id v r (tx_db tx) (tx_db tx') /\
  ModerationRecord.Verdict r = ModerationRecord.Verdict record.
Proof.
  unfold CreateRecord. intros Ho Hi E. run_inv. apply stmt_inr in E as (_ & E & _).
  match goal with Hs : tx_db _ = tx_db tx |- _ => rewrite Hs in E end.
  destruct (insert_record _ _ _) eqn:Er; [done|]. injection E as <- <-.
  apply insert_record_inr in Er as (Hn & _ & ->). split; [|done].
  split; [|by split|done]. exists a. unfold texts. cbn.
  rewrite map_filter_insert_True; [|by apply of_revision_spec in Ho as [Hp _]; unfold on_a_post; cbn; rewrite Hp].
  split; [|done]. apply map_lookup_filter_None. by left.
Qed.

Lemma insert_text_touches id r db db' :
  (exists k, texts db !! k = None /\ texts db' = <[k := r]> (texts db)) ->
  ModerationRecord.PostID r = Some id ->
  marks db' = marks db /\ post_images db' = post_images db /\ verdicts db' = verdicts db /\
    versions db' = versions db ->
  touches (eq id) db db'.
Proof.
  intros (k & Hn & Et) Hp (Em & Ei & Ed & Ev) Hk. split.
  - unfold kept in *. rewrite keyed_marks, keyed_verdicts in *. by rewrite Em, Ed.
  - split; rewrite ?Ei, ?Ev; eauto; try done.
    + intros k'. by rewrite !dom_marks, Em.
    + intros k' m _. rewrite Em. intros Hm. exists m. by split_and!.
    + intros k' r' Hr. rewrite Et. apply lookup_insert_Some. right. split; [congruence|done].
    + intros k' r'. rewrite Et. intros [[<- <-]|[_ Hr]]%lookup_insert_Some; eauto.
Qed.

Lemma adds_text_touches id v r db db' : adds_text id v r db db' -> touches (eq id) db db'.
Proof.
  intros [Ht [[Hp _]%of_revision_spec _] Hr]. by apply (insert_text_touches id r).
Qed.

(** The added verdict is the last one when there was none, or is next to one that
    says the same. *)
Lemma newer_first_refl r : newer_first r r = true.
Proof. unfold newer_first. rewrite !Z.eqb_refl, Z.leb_refl. by rewrite orb_true_r. Qed.
Lemma newer_first_total r r' : newer_first r r' = true \/ newer_first r' r = true.
Proof. unfold newer_first. lia. Qed.
Lemma newer_first_trans r1 r2 r3 :
  newer_first r1 r2 = true -> newer_first r2 r3 = true -> newer_first r1 r3 = true.
Proof. unfold newer_first. lia. Qed.

Lemma adds_text_passed id v r db db' :
  adds_text id v r db db' -> ModerationRecord.Verdict r = ModerationVerdictPass ->
  (forall k' r', texts db !! k' = Some r' -> of_revision id v r' = false) \/
    text_passed db id v ->
  text_passed db' id v.
Proof.
  intros [(k & Hn & Et) [Ho _] _] Hv Hold. apply text_passed_texts. rewrite Et.
  destruct Hold as [Hnone | (k0 & r0 & Hr0 & Ho0 & Hv0 & Hmax)%text_passed_texts].
  - exists k, r. rewrite lookup_insert_eq. split_and!; try done.
    intros k' r' [[<- <-]|[_ Hr]]%lookup_insert_Some Ho'; [apply newer_first_refl|].
    apply Hnone in Hr. congruence.
  - destruct (newer_first_total r r0) as [Hle|Hle].
    + exists k, r. rewrite lookup_insert_eq. split_and!; try done.
      intros k' r' [[<- <-]|[_ Hr]]%lookup_insert_Some Ho'; [apply newer_first_refl|].
      eapply newer_first_trans; [done|]. by eapply Hmax.
    + exists k0, r0. rewrite lookup_insert_ne by congruence. split_and!; try done.
      intros k' r' [[<- <-]|[_ Hr]]%lookup_insert_Some Ho'; [done|]. by eapply Hmax.
Qed.

Lemma newest_Some p db r :
  newest p db = Some r ->
  p r = true /\ (exists k, moderation_records db !! k = Some r) /\
  forall k' r', moderation_records db !! k' = Some r' -> p r' = true -> newer_first r r' = true.
Proof.
  unfold newest. intros Hh.
  pose proof (sort_by_sorted newer_first newer_first_total newer_first_trans
                (select p (moderation_records db))) as Hs.
  assert (forall x, x ∈ sort_by newer_first (select p (moderation_records db)) <->
            p x = true /\ exists k, moderation_records db !! k = Some x) as Hin
    by (intros x; by rewrite elem_of_sort_by, elem_of_select).
  destruct (sort_by _ _) as [|r0 l]; [done|]. injection Hh as ->.
  destruct (proj1 (Hin r)) as [Hp Hk]; [by left|]. split_and!; try done.
  intros k' r' Hk' Hp'. assert (r' ∈ r :: l) as Hr' by (apply Hin; eauto).
  apply elem_of_cons in Hr' as [->|Hr']; [apply newer_first_refl|].
  apply StronglySorted_inv in Hs as [_ Hs]. by eapply Forall_forall in Hs.
Qed.

Lemma newest_passed id v db r :
  newest (of_revision id v) db = Some r -> ModerationRecord.Verdict r = ModerationVerdictPass ->
  text_passed db id v.
Proof. intros (Ho & [k Hk] & Hn)%newest_Some Hv. exists k, r. eauto. Qed.

Lemma newest_None id v db :
  newest (of_revision id v) db = None ->
  forall k' r', texts db !! k' = Some r' -> of_revision id v r' = false.
Proof.
  intros Hn k' r' [Hr _]%elem_texts. destruct (of_revision id v r') eqn:Ho; [|done].
  assert (r' ∈ sort_by newer_first (select (of_revision id v) (moderation_records db))) as Hin.
  { apply elem_of_sort_by, elem_of_select. eauto. }
  unfold newest in Hn. destruct (sort_by _ _); [|done]. by apply elem_of_nil in Hin.
Qed.
End statements.

#[export] Hint Resolve keeps_core keeps_SoftDelete keeps_UpdateImageModeration
  keeps_found_row : keeps.

(** ** The images of a post *)
Lemma elem_of_where {K A} `{Countable K} (p : A -> bool) (t : gmap K A) r :
  r ∈ where_ p t <-> p r = true /\ exists k, t !! k = Some r.
Proof.
  unfold where_, rows_of. rewrite list_elem_of_filter, list_elem_of_fmap. split.
  - intros [Hp ([k x] & -> & Hk%elem_of_map_to_list)]. eauto.
  - intros [Hp [k Hk]]. split; [done|]. exists (k, r). by rewrite elem_of_map_to_list.
Qed.

Lemma delete_where_lookup {K A} `{Countable K} (p : A -> bool) (t : gmap K A) k r :
  delete_where p t !! k = Some r <-> t !! k = Some r /\ p r = false.
Proof. unfold delete_where. by rewrite map_lookup_filter_Some. Qed.

Lemma insert_rows_lookup {K A} `{Countable K} pkey (key : A -> K) l t t' k r :
  insert_rows pkey key l t = inr t' ->
  t' !! k = Some r <-> t !! k = Some r \/ (r ∈ l /\ key r = k).
Proof.
  revert t. induction l as [|r0 l IH]; intros t; cbn [insert_rows].
  - intros [= <-]. set_solver.
  - destruct (t !! key r0) eqn:Hn; [done|]. intros E. rewrite (IH _ E), lookup_insert_Some.
    rewrite elem_of_cons. naive_solver congruence.
Qed.

Lemma elem_of_image_rows id now ids pi :
  pi ∈ image_rows id now ids -> PostImage.PostID pi = id /\ PostImage.ImageAssetID pi ∈ ids.
Proof.
  unfold image_rows. intros (k & x & -> & Hx)%elem_of_lookup_imap_1. cbn. split; [done|].
  by eapply list_elem_of_lookup_2.
Qed.

(** Both statements of [ReplaceImages] change the images of one post only. *)
Definition other_images (id : Z) (db db' : DB) : Prop :=
  core db' = core db /\
  forall k pi, PostImage.PostID pi <> id ->
    post_images db' !! k = Some pi <-> post_images db !! k = Some pi.

Lemma other_images_touches id db db' : other_images id db db' -> touches (eq id) db db'.
Proof.
  intros [Ec Hi] Hk. injection Ec as Em Ed Et Ev. split.
  - unfold kept in *. rewrite keyed_marks, keyed_verdicts in *. by rewrite Em, Ed.
  - split; rewrite ?Et, ?Ev; eauto; try done.
    + intros k'. by rewrite !dom_marks, Em.
    + intros k' m _. rewrite Em. intros Hm. exists m. by split_and!.
Qed.

#[global] Instance other_images_preorder id : PreOrder (other_images id).
Proof.
  split.
  - intros db. by split.
  - intros db1 db2 db3 [E12 H12] [E23 H23]. split; [congruence|].
    intros k pi Hk. by rewrite H23, H12.
Qed.

Lemma delete_images_view now id db :
  view (delete_images now id db) =
  view (db <| post_images := delete_where (fun pi => PostImage.PostID pi =? id)
                               (post_images db) |>).
Proof. unfold delete_images. apply view_foldl. intros. apply view_retire. Qed.

Lemma delete_images_other now id db : other_images id db (delete_images now id db).
Proof.
  pose proof (delete_images_view now id db) as E. split; [exact (view_core _ _ E)|].
  intros k pi Hk. rewrite (view_images _ _ E). cbn. rewrite delete_where_lookup.
  rewrite Z.eqb_neq. tauto.
Qed.

Lemma delete_images_shows now id db i : ~ shows (delete_images now id db) id i.
Proof.
  intros (k & pi & Hk & Hp & _). rewrite (view_images _ _ (delete_images_view now id db)) in Hk.
  apply delete_where_lookup in Hk as [_ Hk]. lia.
Qed.

Lemma insert_images_inr created now id ids db db' :
  insert_images created now id ids db = inr (tt, db') ->
  other_images id db db' /\ forall i, shows db' id i -> shows db id i \/ i ∈ ids.
Proof.
  unfold insert_images. case_match; [done|]. destruct (insert_rows _ _ _ _) as [|t] eqn:Ei; [done|].
  intros [= <-]. set (db1 := db <| post_images := t |>).
  pose proof (view_foldl (activate now) ids db1 (fun d i => view_activate now d i)) as E.
  assert (forall k pi, t !! k = Some pi <->
            post_images db !! k = Some pi \/ (pi ∈ image_rows id created ids /\ image_key pi = k))
    as Ht by (intros; by eapply insert_rows_lookup).
  split; [split|].
  - exact (view_core _ _ E).
  - intros k pi Hk. rewrite (view_images _ _ E). cbn. rewrite Ht.
    split; [|by left]. intros [?|[Hin _]]; [done|]. by apply elem_of_image_rows in Hin as [? _].
  - intros i (k & pi & Hk & Hp & <-). rewrite (view_images _ _ E) in Hk. cbn in Hk.
    apply Ht in Hk as [Hk|[Hin _]]; [left; by exists k, pi|].
    right. by apply elem_of_image_rows in Hin as [_ ?].
Qed.

Section images.
Context `{Env} `{Pg} `{DbClock}.

Lemma keeps_ReplaceImages_other id ids : Keeps (other_images id) (ReplaceImages id ids).
Proof.
  unfold ReplaceImages. pose proof (keeps_DbNow (other_images id)). solve_keeps.
  - apply (keeps_exec _). intros db. apply delete_images_other.
  - apply (keeps_stmt _). intros db [] db' E. by eapply insert_images_inr.
Qed.

Lemma keeps_ReplaceImages id ids : Keeps (touches (eq id)) (ReplaceImages id ids).
Proof.
  intros tx r tx' E. apply other_images_touches. by eapply keeps_ReplaceImages_other.
Qed.

Lemma keeps_core_ReplaceImages id ids : Keeps (unchanged core) (ReplaceImages id ids).
Proof. intros tx r tx' E. by eapply keeps_ReplaceImages_other. Qed.

Lemma ReplaceImages_shows id ids (tx : TxD) tx' :
  ReplaceImages id ids tx = (inr tt, tx') -> forall i, shows (tx_db tx') id i -> i ∈ ids.
Proof.
  unfold ReplaceImages. intros E. apply mbind_inr in E as (now & s1 & E1 & E).
  run_inv; intros i Hs.
  - match goal with Hd : tx_db _ = delete_images _ _ _ |- _ => rewrite Hd in Hs end.
    by apply delete_images_shows in Hs.
  - apply stmt_inr in E as (_ & E & _). apply insert_images_inr in E as [_ Hi].
    apply Hi in Hs as [Hs|Hs]; [|done].
    repeat match goal with Hd : tx_db ?s = _ |- _ => rewrite Hd in Hs end.
    by apply delete_images_shows in Hs.
Qed.

(** ** ReconcilePendingPosts *)
(** What an [UPDATE] of the statuses does: nothing but statuses of undecided posts,
    and whom it approves has passed. *)
Record decides (db db' : DB) : Prop := {
  dc_rest : post_images db' = post_images db /\ verdicts db' = verdicts db /\
    texts db' = texts db /\ versions db' = versions db;
  dc_dom : forall k, is_Some (posts db !! k) <-> is_Some (posts db' !! k);
  dc_posts : forall k p', posts db' !! k = Some p' ->
    exists p, posts db !! k = Some p /\ Post.ID p' = Post.ID p /\
      Post.CurrentRevision p' = Post.CurrentRevision p /\
      (p' = p \/ Post.Status p' <> PostStatusApproved \/
       text_passed db' (Post.ID p) (Post.CurrentRevision p) /\ images_clear db' (Post.ID p));
}.

Lemma same_tables db db' :
  post_images db' = post_images db -> verdicts db' = verdicts db -> texts db' = texts db ->
  (forall id v, text_passed db' id v <-> text_passed db id v) /\
  (forall id, images_clear db' id <-> images_clear db id).
Proof.
  intros Ei Ed Et. split; intros.
  - by rewrite !text_passed_texts, Et.
  - rewrite !images_clear_verdicts. unfold shows. by rewrite Ei, Ed.
Qed.

#[global] Instance decides_preorder : PreOrder decides.
Proof.
  split.
  - intros db. split; [by split_and!|done|]. intros k p Hp. exists p. split_and!; auto.
  - intros db1 db2 db3 [(Ei & Ed & Et & Ev) D12 H12] [(Ei' & Ed' & Et' & Ev') D23 H23].
    destruct (same_tables _ _ Ei' Ed' Et') as [Htp Hic].
    split; [split_and!; congruence | by intros k; rewrite D12, D23 |].
    intros k p3 Hp3. destruct (H23 _ _ Hp3) as (p2 & Hp2 & I23 & R23 & C23).
    destruct (H12 _ _ Hp2) as (p1 & Hp1 & I12 & R12 & C12). exists p1. rewrite I23, R23.
    split_and!; try done. rewrite I12, R12 in C23. rewrite Htp, Hic in *.
    destruct C23 as [->|?]; tauto.
Qed.

Lemma to_approve_passed db p :
  ModerationRepository.to_approve db p = true ->
  text_passed db (Post.ID p) (Post.CurrentRevision p) /\ images_clear db (Post.ID p).
Proof.
  unfold ModerationRepository.to_approve. intros [Hi Ht]%andb_true_iff.
  apply bool_decide_eq_true in Ht. unfold ModerationRepository.text_verdict in Ht. split.
  - destruct (newest _ db) eqn:Hn; [|done]. cbn in Ht. eapply newest_passed; [done|congruence].
  - intros i a (k & pi & Hk & Hp & Hpi) Ha.
    assert (ImageAsset.Moderation a = ModerationStatusPass) as ->; [|done].
    destruct (decide (ImageAsset.Moderation a = ModerationStatusPass)) as [?|Hne]; [done|].
    apply negb_true_iff, not_true_iff_false in Hi. destruct Hi.
    unfold ModerationRepository.image_with. apply existsb_exists. exists pi. split.
    + apply list_elem_of_In. unfold rows_of. apply list_elem_of_fmap. exists (k, pi).
      by rewrite elem_of_map_to_list.
    + rewrite Hp, Z.eqb_refl, Hpi, Ha. by rewrite bool_decide_eq_false_2.
Qed.

Lemma keeps_decide_posts ids p status :
  (forall db r, p db r = true -> status = PostStatusApproved ->
     text_passed db (Post.ID r) (Post.CurrentRevision r) /\ images_clear db (Post.ID r)) ->
  Keeps decides (ModerationRepository.decide_posts ids p status).
Proof.
  intros Hp. unfold ModerationRepository.decide_posts. apply (keeps_stmt _).
  intros db n db' [= _ <-]. split; [done| |].
  - intros k. cbn. by rewrite lookup_fmap, fmap_is_Some.
  - intros k p'. cbn. intros (p0 & <- & Hp0)%lookup_fmap_Some. exists p0. split; [done|].
    destruct (_ && p db p0) eqn:Hu; [|by auto]. split_and!; try done. right.
    destruct (decide (status = PostStatusApproved)) as [Hs|Hs]; [|by left].
    right. apply andb_true_iff in Hu as [_ Hu]. exact (Hp _ _ Hu Hs).
Qed.

Lemma keeps_ReconcilePendingPosts ids :
  Keeps decides (ModerationRepository.ReconcilePendingPosts ids).
Proof.
  unfold ModerationRepository.ReconcilePendingPosts. solve_keeps; apply keeps_decide_posts.
  - done.
  - intros db r Hr _. by apply to_approve_passed.
Qed.
End images.
#[export] Hint Resolve keeps_ReplaceImages keeps_core_ReplaceImages
  keeps_ReconcilePendingPosts : keeps.
