(* ===== verification/PostProps.v ===== *)
(** * Steps of the post and moderation services

    [sound m]: a successful run of [m] keeps [posts_ok], and publishes only what
    passed ([gate]).  How such steps compose, and what the services' helpers leave
    alone. *)

From S2P Require Import Prelude.
From S2P Require Import GoText.
From S2P Require Import Apierr.
From S2P Require Import Effects.
From S2P Require Import Logic.
From S2P Require Import Model.
From S2P Require Import AuthRepo.
From S2P Require Import AuthService.
From S2P Require Import ImageAccess.
From S2P Require Import Notifications.
From S2P Require Import Money.
From S2P Require Import PostValidation.
From S2P Require Import PostRepo.
From S2P Require Import Json.
From S2P Require Import Moderation.
From S2P Require Import PostService.
From S2P Require Import PostTables.
Open Scope Z_scope.

(** ** Composing steps *)
Definition nobody (_ : Z) : Prop := False.

(** A step at [P] that leaves nothing published there, then one behind the gate. *)
Lemma gate_after_touch P `{!forall id, Decision (P id)} db db1 db' :
  touch P db db1 -> (forall id v, P id -> ~ published db1 id v) -> gate db1 db' -> gate db db'.
Proof.
  intros T Hn G id v Hp. destruct (G _ _ Hp) as [[H1 Hs]|?]; [left|by right].
  destruct (decide (P id)) as [Hid|Hid]; [by apply Hn in H1|].
  destruct H1 as (p1 & Hp1 & E1 & U1 & V1).
  destruct (touch_post _ _ _ _ _ T Hid Hp1) as (p & Hp0 & Es & Er & Eu). split.
  - exists p. split_and!; [done|congruence|auto|congruence].
  - intros i. rewrite Hs. by eapply touch_shows.
Qed.

Lemma view_published db db' : view db' = view db ->
  forall id v, published db' id v <-> published db id v.
Proof. intros E id v. by rewrite !published_marks, (view_marks _ _ E). Qed.

Lemma gate_before_view db db1 db' : gate db db1 -> view db' = view db1 -> gate db db'.
Proof.
  intros G E id v Hp. rewrite (view_published _ _ E) in Hp.
  destruct (same_tables _ _ (view_images _ _ E) (view_verdicts _ _ E) (view_texts _ _ E))
    as [Ht Hi].
  destruct (G _ _ Hp) as [[H1 Hs]|[? ?]]; [left|right].
  - split; [done|]. intros i. rewrite <- Hs. unfold shows. by rewrite (view_images _ _ E).
  - by rewrite Ht, Hi.
Qed.

Lemma decides_gate db db' : kept db -> decides db db' -> gate db db'.
Proof.
  intros [Hk _] [(Ei & _) _ Hd] id v (p' & Hp' & Hs & Hu & Hv).
  destruct (Hd _ _ Hp') as (p & Hp & _ & Er & [->|[?|Hj]]); [left|done|right].
  - split; [by exists p|]. intros i. unfold shows. by rewrite Ei.
  - rewrite (Hk _ _ Hp) in Hj. by rewrite <- Hv, Er.
Qed.

Lemma decides_ok db db' : posts_ok db -> decides db db' -> posts_ok db'.
Proof.
  rewrite !posts_ok_spec. intros [[Hp Ha] Ho] D.
  pose proof D as [(Ei & Ed & Et & Ev) Hdom Hd].
  destruct (same_tables _ _ Ei Ed Et) as [Htp _].
  assert (forall id v, has_version db' id v <-> has_version db id v) as Hv
    by (intros; by rewrite !has_version_versions, Ev).
  split; [split|].
  - intros k p' Hp'. destruct (Hd _ _ Hp') as (p & Hk & -> & _). by apply Hp.
  - by rewrite keyed_verdicts, Ed, <- keyed_verdicts.
  - intros id. destruct (Ho id). split.
    + intros v. rewrite Hv. rewrite <- Hdom. apply po_versions.
    + intros p' Hp'. destruct (Hd _ _ Hp') as (p & Hk & _ & -> & _). rewrite Hv. auto.
    + rewrite Et. setoid_rewrite Hv. done.
    + intros p' Hp' Hs. destruct (Hd _ _ Hp') as (p & Hk & _ & Er & [->|[?|[Hj _]]]).
      * rewrite Htp. auto.
      * done.
      * rewrite (Hp _ _ Hk) in Hj. by rewrite Er.
Qed.

(** ** Operations *)
Definition sound {R} (m : MT R) : Prop := forall tx r tx',
  m tx = (inr r, tx') -> posts_ok (tx_db tx) ->
  posts_ok (tx_db tx') /\ gate (tx_db tx) (tx_db tx').

Lemma nobody_dec id : Decision (nobody id).
Proof. right. intros []. Defined.
#[export] Existing Instance nobody_dec.

(** Touching no post is sound. *)
Lemma keeps_sound {R} (m : MT R) : Keeps (touches nobody) m -> sound m.
Proof.
  intros Hm tx r tx' E Ho. specialize (Hm _ _ _ E). split.
  - by apply (touches_ok nobody (tx_db tx)).
  - apply (touch_gate nobody); [|by intros id v []]. apply Hm. by apply posts_ok_spec in Ho as [].
Qed.

(** An image access controller writes no table of the posts; both of the code's do. *)
Class AccessOk (access : ImageAccessController) :=
  access_view : forall asset source public purge,
    Keeps (unchanged view) (Apply access asset source public purge).

#[global] Instance discard_ok : AccessOk DiscardAccess.
Proof. intros a r p q. cbn. solve_keeps. Qed.

#[global] Instance durable_ok `{Env} : AccessOk DurableAccess.
Proof.
  intros a r p q. cbn. unfold DurableImageAccess_Apply, ImageAccessOutbox.Enqueue.
  solve_keeps. apply (keeps_stmt _). intros db n db'. unfold ImageAccessOutbox.enqueue.
  repeat case_match; naive_solver.
Qed.

#[export] Hint Resolve access_view : keeps.
#[export] Hint Extern 1 (ModerationRecord.PostID _ = None) => reflexivity : keeps.

Section service.
Context `{Env} `{Pg} `{Unicode} `{DbClock} `{Decimal}.

Lemma keeps_call_review D `{!PreOrder D} m req : Keeps D (call_review m req).
Proof. apply (keeps_same _). unfold call_review. naive_solver. Qed.
Lemma keeps_Alert D `{!PreOrder D} a : Keeps D (Alert a).
Proof. unfold Alert. solve_keeps. Qed.
Lemma keeps_to_api D `{!PreOrder D} {R} code res e :
  Keeps D (ModerationService.to_api (A := R) code res e).
Proof. unfold ModerationService.to_api. solve_keeps. Qed.
Lemma keeps_validateModerationResult D `{!PreOrder D} r : Keeps D (validateModerationResult r).
Proof. unfold validateModerationResult. solve_keeps. Qed.
#[local] Hint Resolve keeps_call_review keeps_Alert keeps_to_api keeps_validateModerationResult
  : keeps.

Lemma keeps_postRepositoryError D `{!PreOrder D} {R} e :
  Keeps D (postRepositoryError (A := R) e).
Proof. unfold postRepositoryError. solve_keeps. Qed.
Lemma keeps_historyWriteError D `{!PreOrder D} {R} e : Keeps D (historyWriteError (A := R) e).
Proof. unfold historyWriteError. solve_keeps. Qed.
Lemma keeps_dictionaryError D `{!PreOrder D} {R} r e :
  Keeps D (dictionaryError (A := R) r e).
Proof. unfold dictionaryError. solve_keeps. Qed.
#[local] Hint Resolve keeps_postRepositoryError keeps_historyWriteError keeps_dictionaryError
  : keeps.

(** Queries of the repositories. *)
Lemma keeps_queries D `{!PreOrder D} :
  (forall ids, Keeps D (PostRepository.LockImagesByIDs ids)) /\
  (forall ids, Keeps D (PostRepository.ImageIDsWithoutUndeletedPostReferences ids)) /\
  (forall ids, Keeps D (PostRepository.LatestImageModerationByAssetIDs ids)) /\
  (forall urls, Keeps D (PostRepository.FindImagesByURLs urls)) /\
  (forall names, Keeps D (PostRepository.FindActiveFlavorsByNames names)).
Proof.
  unfold PostRepository.LockImagesByIDs, PostRepository.ImageIDsWithoutUndeletedPostReferences,
    PostRepository.LatestImageModerationByAssetIDs, PostRepository.FindImagesByURLs,
    PostRepository.FindActiveFlavorsByNames.
  split_and!; solve_keeps.
Qed.

Lemma keeps_PostImageIDs D `{!PreOrder D} id : Keeps D (PostRepository.PostImageIDs id).
Proof. apply keeps_query; apply _. Qed.

Section images.
Context (access : ImageAccessController) `{!AccessOk access} (P : Z -> Prop).

Lemma keeps_applyImageAccess asset r v :
  Keeps (unchanged view) (ModerationService.applyImageAccess access asset r v).
Proof. unfold ModerationService.applyImageAccess. solve_keeps. Qed.
#[local] Hint Resolve keeps_applyImageAccess : keeps.

Lemma keeps_block_images id actor assets now ids :
  Keeps (touches P) (block_images access id actor assets now ids).
Proof.
  induction ids as [|i ids IH]; cbn [block_images]; [solve_keeps|].
  unfold applyAdminPostDeleteImage, ModerationRepository.CreateAdministrativeRecord. solve_keeps.
Qed.

Lemma keeps_deletePost post actor reason now :
  Keeps (touches P) (deletePostWithHistoryAndImages access post actor reason now).
Proof.
  unfold deletePostWithHistoryAndImages. pose proof (keeps_queries (touches P)) as (? & ? & ? & ? & ?).
  pose proof (keeps_PostImageIDs (touches P)). pose proof keeps_block_images. solve_keeps.
Qed.

Lemma keeps_restore_images id actor latest now assets :
  Keeps (touches P) (restore_images access id actor latest now assets).
Proof.
  induction assets as [|a assets IH]; cbn [restore_images]; [solve_keeps|].
  unfold applyAdminPostRestoreImage, ModerationRepository.CreateAdministrativeRecord. solve_keeps.
Qed.

Lemma keeps_restoreAdminPostDeleteImages id actor assets now :
  Keeps (touches P) (restoreAdminPostDeleteImages access id actor assets now).
Proof.
  unfold restoreAdminPostDeleteImages.
  pose proof (keeps_queries (touches P)) as (? & ? & ? & ? & ?).
  pose proof keeps_restore_images. solve_keeps.
Qed.
End images.
#[local] Hint Resolve keeps_applyImageAccess keeps_deletePost keeps_restoreAdminPostDeleteImages
  : keeps.
End service.

#[export] Hint Resolve keeps_call_review keeps_Alert keeps_to_api keeps_validateModerationResult
  keeps_postRepositoryError keeps_historyWriteError keeps_dictionaryError keeps_applyImageAccess
  keeps_deletePost keeps_restoreAdminPostDeleteImages : keeps.

Section throws.
Context `{Env}.

(** Error handlers never return. *)
Definition throws {R} (m : MT R) : Prop := forall tx r tx', m tx <> (inr r, tx').

Lemma throws_to_api {R} code res e : throws (ModerationService.to_api (A := R) code res e).
Proof. intros tx r tx'. cbn. done. Qed.
Lemma throws_postRepositoryError {R} e : throws (postRepositoryError (A := R) e).
Proof. intros tx r tx'. unfold postRepositoryError. by case_match. Qed.
Lemma throws_historyWriteError {R} e : throws (historyWriteError (A := R) e).
Proof. intros tx r tx'. unfold historyWriteError. by case_match. Qed.
End throws.

Ltac dismiss :=
  match goal with
  | E : ModerationService.to_api _ _ _ _ = (inr _, _) |- _ => by apply throws_to_api in E
  | E : postRepositoryError _ _ = (inr _, _) |- _ => by apply throws_postRepositoryError in E
  | E : historyWriteError _ _ = (inr _, _) |- _ => by apply throws_historyWriteError in E
  end.
Ltac post_inv := repeat (first [dismiss | run_inv_step]);
  repeat match goal with u : () |- _ => destruct u end.

(** What a run whose code keeps [D] did to the tables. *)
Ltac keeps_run D E :=
  match type of E with ?m _ = (_, _) =>
    let K := fresh "K" in assert (Keeps D m) as K by solve_keeps; apply K in E; clear K
  end.
