(* ===== verification/PostOps.v ===== *)
(** * The operations on posts and images, statement by statement

    [PostWrites D]: the writing statements of the post and moderation repositories keep
    the relation [D]; then so does every operation of the post and moderation services. *)

From S2P Require Import Prelude.
From S2P Require Import GoText.
From S2P Require Import Apierr.
From S2P Require Import Effects.
From S2P Require Import Logic.
From S2P Require Import Model.
From S2P Require Import AuthRepo.
From S2P Require Import AuthService.
From S2P Require Import ImageAccess.
From S2P Require Import Notifications.
From S2P Require Import Money.
From S2P Require Import PostValidation.
From S2P Require Import PostRepo.
From S2P Require Import Moderation.
From S2P Require Import PostService.
From S2P Require Import PostTables.
From S2P Require Import PostProps.
Open Scope Z_scope.

Class PostWrites `{Env} `{Pg} `{DbClock} (access : ImageAccessController) (D : relation DB) := {
  pw_record : forall r, Keeps D (CreateRecord r);
  pw_machine : forall r, Keeps D (ModerationRepository.CreateMachineRecordIfNew r);
  pw_retries : forall id, Keeps D (ModerationRepository.DeleteForAsset id);
  pw_image : forall id status, Keeps D (ModerationRepository.UpdateImageModeration id status);
  pw_decide : forall ids p status, Keeps D (ModerationRepository.decide_posts ids p status);
  pw_create : forall post, Keeps D (PostRepository.Create post);
  pw_content : forall id res status now v,
    Keeps D (PostRepository.UpdateContent id (versionFields res status now v));
  pw_status : forall id status, Keeps D (PostRepository.UpdateStatus id status);
  pw_delete : forall id actor reason now, Keeps D (PostRepository.SoftDelete id actor reason now);
  pw_restore : forall id, Keeps D (PostRepository.Restore id);
  pw_version : forall h, Keeps D (PostRepository.CreateHistory h);
  pw_tag : forall name, Keeps D (PostRepository.FindOrCreateTag name);
  pw_tag_moderation : forall id status at_, Keeps D (PostRepository.SetTagModeration id status at_);
  pw_tags : forall id tags, Keeps D (PostRepository.ReplaceTags id tags);
  pw_flavors : forall id ty fs st, Keeps D (PostRepository.ReplaceFlavors id ty fs st);
  pw_images : forall id ids, Keeps D (PostRepository.ReplaceImages id ids);
  pw_notification : forall n, Keeps D (NotificationRepository.Create n);
  pw_like : forall user id, Keeps D (PostRepository.Like user id);
  pw_unlike : forall user id, Keeps D (PostRepository.Unlike user id);
  pw_favorite : forall user id, Keeps D (PostRepository.Favorite user id);
  pw_unfavorite : forall user id, Keeps D (PostRepository.Unfavorite user id);
  pw_access : forall a r p q, Keeps D (Apply access a r p q);
}.
#[export] Hint Resolve pw_record pw_machine pw_retries pw_image pw_decide pw_create pw_content
  pw_status pw_delete pw_restore pw_version pw_tag pw_tag_moderation pw_tags pw_flavors pw_images
  pw_notification pw_like pw_unlike pw_favorite pw_unfavorite pw_access : keeps.

Section decisions.
Context `{Env} `{Pg} `{Unicode} `{DbClock} `{Decimal}.
Context (access : ImageAccessController) (D : relation DB) `{!PreOrder D} `{!PostWrites access D}.

Lemma ops_reads :
  (forall id deleted, Keeps D (PostRepository.LockByID id deleted)) /\
  (forall id, Keeps D (PostRepository.PostImageIDs id)) /\
  (forall id deleted, Keeps D (PostRepository.FindByID id deleted)) /\
  (forall id rev, Keeps D (PostRepository.FindHistory id rev)) /\
  (forall n author old, Keeps D (resolvePostPayload n author old)) /\
  (forall snap why, Keeps D (updateInputFromSnapshot snap why)).
Proof.
  pose proof (keeps_queries D) as (? & ? & ? & ? & ?).
  unfold PostRepository.LockByID, PostRepository.PostImageIDs, PostRepository.FindByID,
    PostRepository.FindHistory, resolvePostPayload, resolveCanteen, resolveCuisine, checkWindow,
    updateInputFromSnapshot, PostRepository.FindActiveCanteenByCode,
    PostRepository.FindActiveWindow, PostRepository.FindActiveCuisineByName,
    PostRepository.FindActiveCanteenByID, PostRepository.FindActiveCuisineByID.
  split_and!; solve_keeps.
Qed.

Lemma ops_applyImageAccess asset r v :
  Keeps D (ModerationService.applyImageAccess access asset r v) /\
  Keeps D (ModerationService.reconcileImageAccess access asset r).
Proof.
  unfold ModerationService.applyImageAccess, ModerationService.reconcileImageAccess.
  split; solve_keeps.
Qed.

Lemma ops_images id actor now :
  (forall assets ids, Keeps D (block_images access id actor assets now ids)) /\
  (forall assets, Keeps D (restoreAdminPostDeleteImages access id actor assets now)) /\
  (forall post reason, Keeps D (deletePostWithHistoryAndImages access post actor reason now)).
Proof.
  pose proof (keeps_queries D) as (? & ? & ? & ? & ?).
  pose proof ops_reads as (_ & ? & _).
  pose proof (fun a r v => proj1 (ops_applyImageAccess a r v)).
  assert (forall i assets ids, Keeps D (block_images access i actor assets now ids)) as Hb.
  { intros i assets ids. induction ids; cbn [block_images]; [solve_keeps|].
    unfold applyAdminPostDeleteImage, ModerationRepository.CreateAdministrativeRecord. solve_keeps. }
  assert (forall latest assets, Keeps D (restore_images access id actor latest now assets)).
  { intros latest assets. induction assets; cbn [restore_images]; [solve_keeps|].
    unfold applyAdminPostRestoreImage, ModerationRepository.CreateAdministrativeRecord. solve_keeps. }
  unfold restoreAdminPostDeleteImages, deletePostWithHistoryAndImages.
  split_and!; [apply Hb | solve_keeps..].
Qed.

Lemma ops_manual :
  (forall input snap now pending,
     Keeps D (ModerationService.manual_records input snap now pending)) /\
  (forall ids status, Keeps D (ModerationService.update_images ids status)) /\
  (forall snap v records, Keeps D (ModerationService.access_images access snap v records)) /\
  (forall v records, Keeps D (ModerationService.alertPostManualBlock v records)) /\
  (forall assets, Keeps D (ModerationService.validatePostReviewAssets assets)).
Proof.
  pose proof (fun a r v => proj1 (ops_applyImageAccess a r v)). split_and!.
  - intros. induction pending; cbn [ModerationService.manual_records]; [solve_keeps|].
    unfold ModerationRepository.CreateManualRecord. solve_keeps.
  - intros. induction ids; cbn [ModerationService.update_images]; solve_keeps.
  - intros. induction records; cbn [ModerationService.access_images]; solve_keeps.
  - intros. induction records as [|[]]; cbn [ModerationService.alertPostManualBlock]; solve_keeps.
  - intros. induction assets; cbn [ModerationService.validatePostReviewAssets]; solve_keeps.
Qed.

Lemma ops_decisions :
  (forall ids, Keeps D (ModerationRepository.ReconcilePendingPosts ids)) /\
  (forall callback job, Keeps D (ModerationService.applyImageResult access callback job)) /\
  (forall input, Keeps D (ModerationService.ManualReviewPost access input)).
Proof.
  pose proof (fun a r v => proj1 (ops_applyImageAccess a r v)).
  pose proof (fun a r => proj2 (ops_applyImageAccess a r ""%string)).
  assert (forall ids, Keeps D (ModerationRepository.ReconcilePendingPosts ids))
    by (intros; unfold ModerationRepository.ReconcilePendingPosts; solve_keeps).
  split_and!; [done| |].
  - intros. unfold ModerationService.applyImageResult, ModerationService.reconcileDuplicateImageResult,
      ModerationRepository.LockPendingPostsForImage, ModerationRepository.LockImagesForPosts,
      ModerationRepository.FindMachineRecordByProviderJobID. solve_keeps.
  - intros input. unfold ModerationService.ManualReviewPost,
      ModerationService.lockPostReviewSnapshot, ModerationService.createPostManualRecords,
      ModerationService.applyPostManualVerdict, ModerationRepository.LockPostForReview,
      ModerationRepository.LockImagesForPost, ModerationRepository.LatestPostModeration,
      ModerationRepository.LockPendingReviewRecordsForPost,
      ModerationRepository.PendingPostIDsForImages.
    pose proof ops_manual as (? & ? & ? & ? & ?). solve_keeps.
Qed.
End decisions.

Section operations.
Context `{Env} `{Pg} `{Unicode} `{DbClock} `{Decimal}.
Context (s : PostService) (D : relation DB) `{!PreOrder D} `{!PostWrites (ps_imageAccess s) D}.

Lemma ops_alert_unless_pass t id r : Keeps D (alert_unless_pass t id r).
Proof. unfold alert_unless_pass. solve_keeps. Qed.
Lemma ops_aggregate v l : Keeps D (aggregatePostModeration v l).
Proof. unfold aggregatePostModeration. solve_keeps. Qed.
#[local] Hint Resolve ops_alert_unless_pass ops_aggregate : keeps.

Lemma ops_edit :
  (forall id res, Keeps D (applyPostRelations s id res)) /\
  (forall post rev editor why at_, Keeps D (appendPostHistory post rev editor why at_)) /\
  (forall id rev res, Keeps D (finishModeration s id rev res)).
Proof.
  unfold applyPostRelations, appendPostHistory, finishModeration,
    PostRepository.CreateModerationRecord.
  assert (forall names, Keeps D (replaceTags s names)).
  { intros names. induction names; cbn [replaceTags]; [solve_keeps|].
    unfold moderateTag, PostRepository.CreateModerationRecord. solve_keeps. }
  split_and!; solve_keeps.
Qed.

Lemma ops_writes :
  (forall input author, Keeps D (Create s input author)) /\
  (forall id input author, Keeps D (Update s id input author)) /\
  (forall id author, Keeps D (Delete s id author)) /\
  (forall id rev why author, Keeps D (RestoreHistory s id rev why author)).
Proof.
  pose proof (ops_reads D) as (? & ? & ? & ? & ? & ?). pose proof ops_edit as (? & ? & ?).
  pose proof (keeps_queries D) as (? & ? & ? & ? & ?).
  pose proof (fun id actor now assets => proj1 (proj2 (ops_images (ps_imageAccess s) D id actor now)) assets).
  pose proof (fun actor now => proj2 (proj2 (ops_images (ps_imageAccess s) D 0 actor now))).
  unfold Create, Update, Delete, RestoreHistory, replacePostContentVersion, owned_undeleted,
    restoreDeletedSnapshotImages, reviewRestoredPost, PostRepository.NextHistoryRevision,
    PostRepository.LatestPostModerationForRevision.
  assert (forall id, Keeps (B := BeforeOp) (A := AfterOp) D (stmt (fun db =>
      let r := PostRepository.next_revision id db in
      if r <? 2 ^ 31 then inr (r, db) else inl (EPg "22003" "")))).
  { intros id. apply (keeps_stmt _). intros db r db'. cbn zeta. case_match; [|done]. by intros [= _ <-]. }
  split_and!; solve_keeps.
Qed.

Lemma ops_interactions id user :
  Keeps D (Like id user) /\ Keeps D (Unlike id user) /\
  Keeps D (Favorite id user) /\ Keeps D (Unfavorite id user).
Proof.
  pose proof (ops_reads D) as (_ & _ & ? & _).
  unfold Like, Unlike, Favorite, Unfavorite, postForWrite, PostRepository.Counters.
  split_and!; solve_keeps.
Qed.

Lemma ops_admin id actor :
  Keeps D (AdminDeletePost s id actor) /\ Keeps D (AdminRestorePost s id actor) /\
  (forall status feedback, Keeps D (AdminReviewPost s id actor status feedback)).
Proof.
  pose proof (ops_reads D) as (? & ? & ? & ? & ? & ?). pose proof (ops_decisions (ps_imageAccess s) D) as (_ & _ & ?).
  pose proof (keeps_queries D) as (? & ? & ? & ? & ?).
  pose proof (fun i a now assets => proj1 (proj2 (ops_images (ps_imageAccess s) D i a now)) assets).
  pose proof (fun a now => proj2 (proj2 (ops_images (ps_imageAccess s) D 0 a now))).
  unfold AdminDeletePost, AdminRestorePost, AdminReviewPost, lockApprovedPostImages,
    PostRepository.CurrentContentRevision, CreateRestorationRecord.
  split_and!; solve_keeps.
Qed.
End operations.
