(* ===== verification/Counters.v ===== *)
(** * The counters of posts and comments, and what is only appended to

    [counters_ok]: the counters the triggers keep on posts and comments are the numbers
    [danshi_recount_all] computes, and comments stand in floors.  [ledger]: from one
    state to another, moderation records, versions of posts and versions of comments
    are only appended to, and the counters stay right. *)

From S2P Require Import Prelude.
From S2P Require Import GoText.
From S2P Require Import Apierr.
From S2P Require Import Effects.
From S2P Require Import Logic.
From S2P Require Import Model.
From S2P Require Import AuthRepo.
From S2P Require Import Notifications.
From S2P Require Import PostRepo.
From S2P Require Import CommentRepo.
From S2P Require Import Floors.
From S2P Require Import PostTables.
Open Scope Z_scope.

(** ** Rows of a (user, object) table about one object *)
Definition holders {A} (id : Z) (t : gmap (Z * Z) A) : Z :=
  Z.of_nat (size (filter (fun kv => kv.1.2 = id) t)).

Lemma holders_insert {A} (id user id' : Z) (x : A) (t : gmap (Z * Z) A) :
  t !! (user, id') = None ->
  holders id (<[(user, id') := x]> t) = holders id t + if decide (id' = id) then 1 else 0.
Proof.
  intros Hn. unfold holders. case_decide as He.
  - rewrite map_filter_insert_True by done. rewrite map_size_insert_None; [lia|].
    apply map_lookup_filter_None. by left.
  - rewrite map_filter_insert_not'; [lia|done|]. intros y Hy. congruence.
Qed.

Lemma holders_delete {A} (id user id' : Z) (t : gmap (Z * Z) A) :
  is_Some (t !! (user, id')) ->
  holders id (delete (user, id') t) = holders id t - if decide (id' = id) then 1 else 0.
Proof.
  intros [x Hx]. rewrite <- (insert_delete_id t (user, id') x Hx) at 2.
  rewrite holders_insert by apply lookup_delete_eq. case_decide; lia.
Qed.

Lemma holders_none {A} (id : Z) (t : gmap (Z * Z) A) :
  (forall user, t !! (user, id) = None) -> holders id t = 0.
Proof.
  intros Hn. unfold holders.
  assert (filter (fun kv : Z * Z * A => kv.1.2 = id) t = ∅) as ->; [|done].
  apply map_empty. intros [u i]. apply map_lookup_filter_None. right. intros x Hx Hi.
  cbn in Hi. subst i. by rewrite Hn in Hx.
Qed.

Lemma holders_nonneg {A} (id : Z) (t : gmap (Z * Z) A) : 0 <= holders id t.
Proof. unfold holders. lia. Qed.

Lemma fk_insert {A} (S : Z -> Prop) (user id : Z) (x : A) (t : gmap (Z * Z) A) :
  (forall u i, is_Some (t !! (u, i)) -> S i) -> S id ->
  forall u i, is_Some (<[(user, id) := x]> t !! (u, i)) -> S i.
Proof. intros Ht Hid u i [Hk|[_ Hi]]%lookup_insert_is_Some; [by simplify_eq | eauto]. Qed.
Lemma fk_delete {A} (S : Z -> Prop) (user id : Z) (t : gmap (Z * Z) A) :
  (forall u i, is_Some (t !! (u, i)) -> S i) ->
  forall u i, is_Some (delete (user, id) t !! (u, i)) -> S i.
Proof. intros Ht u i [_ Hi]%lookup_delete_is_Some. eauto. Qed.

(** ** The recount *)
(** [danshi_recount_all]: every counter is computed anew. *)
Definition recount_post (db : DB) (p : Post.t) : Post.t :=
  p <| Post.LikeCount := holders (Post.ID p) (post_likes db) |>
    <| Post.FavoriteCount := holders (Post.ID p) (favorites db) |>
    <| Post.CommentCount := shown_comments (cmarks db) (Post.ID p) |>.
Definition recount_comment (db : DB) (c : Comment.t) : Comment.t :=
  c <| Comment.LikeCount := holders (Comment.ID c) (comment_likes db) |>
    <| Comment.ReplyCount := shown_replies (cmarks db) (Comment.ID c) |>.
Definition recount (db : DB) : DB :=
  db <| posts := recount_post db <$> posts db |>
     <| comments := recount_comment db <$> comments db |>.

(** Keys, foreign keys and floors. *)
Record floors_ok (db : DB) : Prop := {
  fo_posts : keyed Post.ID (posts db);
  fo_likes : forall user id, is_Some (post_likes db !! (user, id)) -> is_Some (posts db !! id);
  fo_favorites : forall user id, is_Some (favorites db !! (user, id)) -> is_Some (posts db !! id);
  fo_comments : keyed Comment.ID (comments db);
  fo_comment_likes : forall user id,
    is_Some (comment_likes db !! (user, id)) -> is_Some (comments db !! id);
  fo_placed : forall id m, cmarks db !! id = Some m -> placed (posts db) (cmarks db) m;
}.

Record counters_ok (db : DB) : Prop := {
  ct_floors : floors_ok db;
  ct_posts : forall id p, posts db !! id = Some p ->
    Post.LikeCount p = holders id (post_likes db) /\
    Post.FavoriteCount p = holders id (favorites db) /\
    Post.CommentCount p = shown_comments (cmarks db) id;
  ct_comments : forall id c, comments db !! id = Some c ->
    Comment.LikeCount c = holders id (comment_likes db) /\
    Comment.ReplyCount c = shown_replies (cmarks db) id;
}.

Lemma fmap_id_iff {A} (f : A -> A) (t : gmap Z A) :
  f <$> t = t <-> forall k x, t !! k = Some x -> f x = x.
Proof.
  split.
  - intros E k x Hx. assert ((f <$> t) !! k = t !! k) as Hk by (by rewrite E).
    rewrite lookup_fmap, Hx in Hk. cbn in Hk. congruence.
  - intros Hf. apply map_eq. intros k. rewrite lookup_fmap.
    destruct (t !! k) as [x|] eqn:Hx; [|done]. cbn. by rewrite (Hf k).
Qed.

(** The counters are right exactly when recounting changes nothing. *)
Lemma counters_recount db : counters_ok db <-> floors_ok db /\ recount db = db.
Proof.
  assert (recount db = db <-> recount_post db <$> posts db = posts db /\
          recount_comment db <$> comments db = comments db) as Hr.
  { split.
    - intros E. split; [apply (f_equal posts) in E|apply (f_equal comments) in E]; exact E.
    - intros [E1 E2]. unfold recount. rewrite E1, E2. by destruct db. }
  rewrite Hr, !fmap_id_iff. split.
  - intros [Hf Hp Hc]. split_and!; [done| |].
    + intros id p Hpi. destruct (Hp _ _ Hpi) as (E1 & E2 & E3). unfold recount_post.
      rewrite (fo_posts _ Hf _ _ Hpi). rewrite <- E1, <- E2, <- E3. by destruct p.
    + intros id c Hci. destruct (Hc _ _ Hci) as (E1 & E2). unfold recount_comment.
      rewrite (fo_comments _ Hf _ _ Hci). rewrite <- E1, <- E2. by destruct c.
  - intros (Hf & Hp & Hc). split; [done| |].
    + intros id p Hpi. pose proof (Hp _ _ Hpi) as E. pose proof (fo_posts _ Hf _ _ Hpi) as Hid.
      unfold recount_post in E. rewrite Hid in E. rewrite <- E. by cbn.
    + intros id c Hci. pose proof (Hc _ _ Hci) as E. pose proof (fo_comments _ Hf _ _ Hci) as Hid.
      unfold recount_comment in E. rewrite Hid in E. rewrite <- E. by cbn.
Qed.

(** ** What they depend on *)
Definition counts (p : Post.t) : Z * Z * (Z * Z * Z) :=
  (Post.ID p, Post.AuthorID p, (Post.LikeCount p, Post.FavoriteCount p, Post.CommentCount p)).
Definition ccounts (c : Comment.t) : CMark * (Z * Z * Z) :=
  (cmark c, (Comment.ID c, Comment.LikeCount c, Comment.ReplyCount c)).
Definition tally (db : DB) :=
  (counts <$> posts db, post_likes db, favorites db, ccounts <$> comments db, comment_likes db).

Lemma placed_posts ps ps' ms m :
  (forall id p, ps !! id = Some p ->
     exists p', ps' !! id = Some p' /\ Post.AuthorID p' = Post.AuthorID p) ->
  placed ps ms m -> placed ps' ms m.
Proof.
  intros Hps [(p & Hp & Ha) Hf]. split; [|done]. destruct (Hps _ _ Hp) as (p' & Hp' & E).
  exists p'. by rewrite E.
Qed.

Lemma fmap_back {A B} (f : A -> B) (t t' : gmap Z A) :
  f <$> t' = f <$> t ->
  forall k x', t' !! k = Some x' -> exists x, t !! k = Some x /\ f x = f x'.
Proof.
  intros E k x' Hx'. assert ((f <$> t) !! k = Some (f x')) as Hk
    by (by rewrite <- E, lookup_fmap, Hx').
  apply lookup_fmap_Some in Hk as (x & ? & ?). by exists x.
Qed.
Lemma fmap_dom {A B} (f : A -> B) (t t' : gmap Z A) :
  f <$> t' = f <$> t -> forall k, is_Some (t !! k) -> is_Some (t' !! k).
Proof.
  intros E k [x Hx]. destruct (fmap_back f t' t (eq_sym E) _ _ Hx) as (x' & -> & _). by eexists.
Qed.

Lemma cmarks_tally db db' : ccounts <$> comments db' = ccounts <$> comments db -> cmarks db' = cmarks db.
Proof.
  intros E. apply (f_equal (fmap fst)) in E. rewrite <- !map_fmap_compose in E. exact E.
Qed.

Lemma tally_counters db db' : tally db' = tally db -> counters_ok db -> counters_ok db'.
Proof.
  intros E [[Hk Hl Hf Hkc Hcl Hpl] Hp Hc]. injection E as Ep El Ef Ec Ecl.
  pose proof (cmarks_tally _ _ Ec) as Em. split; [split|..].
  - intros id p' Hp'. destruct (fmap_back _ _ _ Ep _ _ Hp') as (p & Hpi & Eq).
    injection Eq as <- _ _ _ _. by apply Hk.
  - rewrite El. intros u i Hi. by eapply fmap_dom, Hl.
  - rewrite Ef. intros u i Hi. by eapply fmap_dom, Hf.
  - intros id c' Hc'. destruct (fmap_back _ _ _ Ec _ _ Hc') as (c & Hci & Eq).
    injection Eq as _ _ _ _ _ _ <- _ _. by apply Hkc.
  - rewrite Ecl. intros u i Hi. by eapply fmap_dom, Hcl.
  - rewrite Em. intros id m Hm. eapply placed_posts; [|by eapply Hpl].
    intros i p Hpi. destruct (fmap_back _ _ _ (eq_sym Ep) _ _ Hpi) as (p' & ? & Eq).
    exists p'. by injection Eq.
  - intros id p' Hp'. destruct (fmap_back _ _ _ Ep _ _ Hp') as (p & Hpi & Eq).
    injection Eq as _ _ <- <- <-. rewrite El, Ef, Em. by apply Hp.
  - intros id c' Hc'. destruct (fmap_back _ _ _ Ec _ _ Hc') as (c & Hci & Eq).
    injection Eq as _ _ _ _ _ _ _ <- <-. rewrite Ecl, Em. by apply Hc.
Qed.

(** ** The relation *)
Record ledger (db db' : DB) : Prop := {
  lg_records : moderation_records db ⊆ moderation_records db';
  lg_versions : post_histories db ⊆ post_histories db';
  lg_comment_versions : comment_histories db ⊆ comment_histories db';
  lg_counters : counters_ok db -> counters_ok db';
}.

#[global] Instance ledger_preorder : PreOrder ledger.
Proof.
  split.
  - by split.
  - intros db1 db2 db3 [] []. split; [by etrans | by etrans | by etrans | auto].
Qed.

Lemma ledger_same db db' :
  moderation_records db ⊆ moderation_records db' -> post_histories db ⊆ post_histories db' ->
  comment_histories db ⊆ comment_histories db' -> tally db' = tally db -> ledger db db'.
Proof. intros Hr Hh Hch E. split; [done..|]. by apply tally_counters. Qed.

(** What a comment says, and its verdict. *)
Definition ccore (c : Comment.t) : Z * Z * string * string :=
  (Comment.ID c, Comment.CurrentRevision c, Comment.Content c, Comment.Moderation c).
Definition ccores (db : DB) : gmap Z (Z * Z * string * string) := ccore <$> comments db.

(** Statements on other tables. *)
Definition entries (db : DB) :=
  (moderation_records db, post_histories db, comment_histories db, tally db, ccores db).
Lemma ledger_entries db db' : entries db' = entries db -> ledger db db'.
Proof.
  intros E. injection E as Er Eh Ech E1 E2 E3 E4 E5 _.
  apply ledger_same; [by rewrite Er|by rewrite Eh|by rewrite Ech|]. unfold tally. congruence.
Qed.

Lemma keeps_entries `{Env} {R} (m : MT R) : Keeps (unchanged entries) m -> Keeps ledger m.
Proof. intros Hm tx r tx' E. apply ledger_entries. by eapply Hm. Qed.
#[export] Hint Resolve keeps_entries : keeps.

(** ** The posts and the counters *)
Lemma bump_lookup f id db :
  keyed Post.ID (posts db) ->
  forall i, posts (PostRepository.bump f id db) !! i =
            (if decide (i = id) then f else fun p => p) <$> posts db !! i.
Proof.
  intros Hk i. cbn. rewrite lookup_fmap. destruct (posts db !! i) as [p|] eqn:Hp; [|done]. cbn.
  unfold PostRepository.by_id. rewrite (Hk _ _ Hp).
  by destruct (decide (i = id)), (Z.eqb_spec i id).
Qed.

Lemma bump_dom f id db :
  keyed Post.ID (posts db) ->
  forall i, is_Some (posts db !! i) -> is_Some (posts (PostRepository.bump f id db) !! i).
Proof. intros Hk i Hi. rewrite bump_lookup by done. by apply fmap_is_Some. Qed.

Lemma bump_authors f id db :
  (forall p, Post.AuthorID (f p) = Post.AuthorID p) -> keyed Post.ID (posts db) ->
  forall i p, posts db !! i = Some p -> exists p',
    posts (PostRepository.bump f id db) !! i = Some p' /\ Post.AuthorID p' = Post.AuthorID p.
Proof.
  intros Hf Hk i p Hp. rewrite bump_lookup, Hp by done. cbn. eexists. split; [done|].
  case_decide; [apply Hf | done].
Qed.

(** ** Statements posts and comments share *)
Lemma ledger_insert_record id record db db' :
  insert_record id record db = inr db' -> ledger db db'.
Proof.
  intros (Hn & _ & ->)%insert_record_inr. apply ledger_same; [|done..].
  cbn. by apply insert_subseteq.
Qed.

Section shared_statements.
Context `{Env}.

Lemma keeps_entries_exec (f : DB -> DB) :
  (forall db, entries (f db) = entries db) ->
  Keeps (B := BeforeOp) (A := AfterOp) (unchanged entries) (exec f).
Proof. intros Hf. apply (keeps_exec _). exact Hf. Qed.

Lemma ledger_CreateRecord record : Keeps ledger (CreateRecord record).
Proof.
  unfold CreateRecord. solve_keeps. apply (keeps_stmt _). intros db r db'.
  destruct (insert_record _ _ _) eqn:Ei; [done|]. intros [= _ <-].
  by eapply ledger_insert_record.
Qed.

Lemma entries_Notification n : Keeps (unchanged entries) (NotificationRepository.Create n).
Proof.
  unfold NotificationRepository.Create. solve_keeps. apply (keeps_stmt _).
  intros db r db'. case_match; naive_solver.
Qed.

End shared_statements.
#[export] Hint Resolve ledger_CreateRecord entries_Notification : keeps.
