(* ===== verification/CommentLedger.v ===== *)
(** * The counters of comments: every statement of the comment repository keeps them

    The trigger [danshi_sync_comment_counts] writes the difference of the recount when
    one comment becomes active or inactive. *)

From S2P Require Import Prelude.
From S2P Require Import GoText.
From S2P Require Import Apierr.
From S2P Require Import Effects.
From S2P Require Import Logic.
From S2P Require Import Model.
From S2P Require Import AuthRepo.
From S2P Require Import PostRepo.
From S2P Require Import CommentRepo.
From S2P Require Import Floors.
From S2P Require Import PostTables.
From S2P Require Import Counters.
Import Comment.
Import CommentRepository.
Open Scope Z_scope.

(** ** Marks under a write *)
(** Places only look at the other columns. *)
Definition same_place (m m' : CMark) : Prop := m' = set_active (cm_Active m') m.

Lemma same_place_columns m m' :
  same_place m m' -> cm_Root m' = cm_Root m /\ cm_Post m' = cm_Post m /\ cm_Author m' = cm_Author m.
Proof. intros E. by rewrite E. Qed.

Lemma placed_step ps (ms ms' : gmap Z CMark) x :
  (forall k m, ms !! k = Some m -> exists m', ms' !! k = Some m' /\ same_place m m') ->
  placed ps ms x -> placed ps ms' x.
Proof.
  intros Hms [Hp Hf]. split; [done|]. unfold floor_of in *.
  destruct (cm_Parent x) as [parent|], (cm_Root x) as [root|]; try done.
  destruct Hf as [(mp & Hmp & E1 & E2 & E3) (mr & Hmr & E4 & E5)].
  destruct (Hms _ _ Hmp) as (mp' & Hmp' & (R1 & P1 & A1)%same_place_columns).
  destruct (Hms _ _ Hmr) as (mr' & Hmr' & (R2 & P2 & A2)%same_place_columns).
  split; [exists mp' | exists mr']; split_and!; congruence.
Qed.

Lemma placed_self ps ms b x : placed ps ms x -> placed ps ms (set_active b x).
Proof. done. Qed.

Lemma set_active_self m : set_active (cm_Active m) m = m.
Proof. by destruct m. Qed.

Lemma place_insert (ms : gmap Z CMark) (id : Z) m b :
  ms !! id = Some m ->
  forall k x, ms !! k = Some x ->
    exists x', <[id := set_active b m]> ms !! k = Some x' /\ same_place x x'.
Proof.
  intros Hm k x Hx. destruct (decide (k = id)) as [->|Hk].
  - rewrite lookup_insert_eq. eexists. split; [done|]. by simplify_eq.
  - rewrite lookup_insert_ne by done. exists x. split; [done|]. unfold same_place.
    by rewrite set_active_self.
Qed.

Lemma floors_of_placed ps ms :
  (forall k x, ms !! k = Some x -> placed ps ms x) ->
  forall k x r, ms !! k = Some x -> cm_Root x = Some r ->
    exists mr, ms !! r = Some mr /\ cm_Root mr = None /\ cm_Post mr = cm_Post x.
Proof.
  intros Hp k x r Hx Hr. destruct (Hp _ _ Hx) as [_ Hf]. rewrite Hr in Hf.
  destruct (cm_Parent x); [|done]. by destruct Hf.
Qed.

(** ** A comment becomes active or inactive *)
Section sync.
Context (db db' : DB) (id : Z) (m : CMark) (b : bool).
Context (Hc : counters_ok db) (Hm : cmarks db !! id = Some m).
Context (Hms : cmarks db' = <[id := set_active b m]> (cmarks db)).
Context (Hl : post_likes db' = post_likes db) (Hf : favorites db' = favorites db)
  (Hcl : comment_likes db' = comment_likes db).
(** The posts and the comments after, row by row. *)
Context (Hposts : forall i p, posts db !! i = Some p -> exists p', posts db' !! i = Some p' /\
    Post.AuthorID p' = Post.AuthorID p).
Context (Hposts' : forall i p', posts db' !! i = Some p' -> exists p, posts db !! i = Some p /\
    Post.ID p' = Post.ID p /\ Post.LikeCount p' = Post.LikeCount p /\
    Post.FavoriteCount p' = Post.FavoriteCount p /\
    Post.CommentCount p' = Post.CommentCount p +
      (shown_comments (cmarks db') i - shown_comments (cmarks db) i)).
Context (Hcomments : forall k, is_Some (comments db !! k) -> is_Some (comments db' !! k)).
Context (Hcomments' : forall k x', comments db' !! k = Some x' -> exists x, comments db !! k = Some x /\
    ID x' = ID x /\ Comment.LikeCount x' = Comment.LikeCount x /\
    ReplyCount x' = ReplyCount x + (shown_replies (cmarks db') k - shown_replies (cmarks db) k)).

Lemma counters_step : counters_ok db'.
Proof.
  destruct Hc as [[Fk Fl Ff Fkc Fcl Fpl] Cp Cc]. split; [split|..].
  - intros i p' Hp'. destruct (Hposts' _ _ Hp') as (p & Hp & -> & _). by apply Fk.
  - rewrite Hl. intros u i Hi. destruct (Fl _ _ Hi) as [p Hp].
    by destruct (Hposts _ _ Hp) as (p' & -> & _).
  - rewrite Hf. intros u i Hi. destruct (Ff _ _ Hi) as [p Hp].
    by destruct (Hposts _ _ Hp) as (p' & -> & _).
  - intros k x' Hx'. destruct (Hcomments' _ _ Hx') as (x & Hx & -> & _). by apply Fkc.
  - rewrite Hcl. eauto.
  - intros k x Hx. apply (placed_posts (posts db)); [exact Hposts|]. rewrite Hms in Hx |- *.
    apply (placed_step _ (cmarks db)); [by apply place_insert|].
    apply lookup_insert_Some in Hx as [[<- <-]|[_ Hx]]; [apply placed_self|]; by eapply Fpl.
  - intros i p' Hp'. destruct (Hposts' _ _ Hp') as (p & Hp & _ & -> & -> & ->).
    destruct (Cp _ _ Hp) as (-> & -> & ->). rewrite Hl, Hf. split_and!; [done..|lia].
  - intros k x' Hx'. destruct (Hcomments' _ _ Hx') as (x & Hx & _ & -> & ->).
    destruct (Cc _ _ Hx) as [-> ->]. rewrite Hcl. split; [done|lia].
Qed.
End sync.

(** *** The two branches of the trigger *)
Lemma marks_insert id c db :
  cmarks (db <| comments := <[id := c]> (comments db) |>) = <[id := cmark c]> (cmarks db).
Proof. unfold cmarks. cbn. by rewrite fmap_insert. Qed.

Lemma marks_replies d r (t : gmap Z Comment.t) : cmark <$> alter (add_replies d) r t = cmark <$> t.
Proof.
  apply map_eq. intros k. rewrite !lookup_fmap. destruct (decide (k = r)) as [->|Hk].
  - rewrite lookup_alter_eq. by destruct (t !! r).
  - by rewrite lookup_alter_ne by congruence.
Qed.

Section branches.
Context (db : DB) (id : Z) (c c' : t).
Context (Hc : counters_ok db) (Hid : comments db !! id = Some c).
Context (Hmark : cmark c' = set_active (active c') (cmark c)).
Context (Hcounts : ID c' = ID c /\ Comment.LikeCount c' = Comment.LikeCount c /\
  ReplyCount c' = ReplyCount c).

Abbreviation db1 := (db <| comments := <[id := c']> (comments db) |>).
Abbreviation ms := (cmarks db).
Abbreviation d := (Z.b2z (active c') - Z.b2z (active c)).

Lemma sync_mark : cmarks db !! id = Some (cmark c).
Proof. unfold cmarks. by rewrite lookup_fmap, Hid. Qed.
Lemma sync_marks : cmarks db1 = <[id := set_active (active c') (cmark c)]> ms.
Proof. by rewrite marks_insert, Hmark. Qed.

Lemma sync_columns : PostID c' = PostID c /\ RootID c' = RootID c.
Proof. by injection Hmark. Qed.

Lemma sync_floors : forall k x r, ms !! k = Some x -> cm_Root x = Some r ->
  exists mr, ms !! r = Some mr /\ cm_Root mr = None /\ cm_Post mr = cm_Post x.
Proof. eapply floors_of_placed. by apply (fo_placed _ (ct_floors _ Hc)). Qed.

(** Bumping a post's count of comments by what the recount says. *)
Lemma bump_comments dbx e post :
  posts dbx = posts db ->
  (forall i, shown_comments (<[id := set_active (active c') (cmark c)]> ms) i =
             shown_comments ms i + if post =? i then e else 0) ->
  forall i p', posts (PostRepository.bump (add_comments e) post dbx) !! i = Some p' ->
  exists p, posts db !! i = Some p /\
    Post.ID p' = Post.ID p /\ Post.LikeCount p' = Post.LikeCount p /\
    Post.FavoriteCount p' = Post.FavoriteCount p /\
    Post.CommentCount p' = Post.CommentCount p +
      (shown_comments (<[id := set_active (active c') (cmark c)]> ms) i - shown_comments ms i).
Proof.
  intros Hp He i p' Hp'.
  rewrite bump_lookup in Hp' by (rewrite Hp; apply (fo_posts _ (ct_floors _ Hc))).
  rewrite Hp in Hp'. apply fmap_Some in Hp' as (p & Hpi & ->). exists p.
  pose proof (proj1 (shown_nonneg (<[id := set_active (active c') (cmark c)]> ms) i)) as Hn.
  destruct (ct_posts _ Hc _ _ Hpi) as (_ & _ & Ecc). rewrite (He i) in Hn |- *.
  split; [done|]. case_decide as Hd.
  - rewrite Hd, Z.eqb_refl in *. cbn. split_and!; [done..|]. lia.
  - destruct (Z.eqb_spec post i) as [E|_]; [by rewrite E in Hd|]. split_and!; [done..|]. lia.
Qed.

Lemma bump_keeps_posts dbx e post :
  posts dbx = posts db -> forall i p, posts db !! i = Some p ->
  exists p', posts (PostRepository.bump (add_comments e) post dbx) !! i = Some p' /\
    Post.AuthorID p' = Post.AuthorID p.
Proof.
  intros E i p Hp. apply bump_authors; [done| |by rewrite E].
  rewrite E. apply (fo_posts _ (ct_floors _ Hc)).
Qed.

(** The rows of the comments when no reply count moves. *)
Lemma sync_root_rows k x' :
  RootID c = None -> <[id := c']> (comments db) !! k = Some x' -> exists x,
    comments db !! k = Some x /\ ID x' = ID x /\ Comment.LikeCount x' = Comment.LikeCount x /\
    ReplyCount x' = ReplyCount x +
      (shown_replies (<[id := set_active (active c') (cmark c)]> ms) k - shown_replies ms k).
Proof.
  intros Hr Hx'. rewrite (shown_replies_set _ _ _ sync_mark).
  rewrite bool_decide_eq_false_2 by (cbn; by rewrite Hr). destruct Hcounts as (E1 & E2 & E3).
  apply lookup_insert_Some in Hx' as [[<- <-]|[_ Hx']]; [exists c | exists x']; split_and!;
    try done; lia.
Qed.

Lemma sync_root_ok :
  RootID c = None ->
  counters_ok (PostRepository.bump (add_comments (d * (1 + ReplyCount c'))) (PostID c') db1).
Proof.
  intros Hr. eapply (counters_step db _ id (cmark c) (active c') Hc sync_mark); try done.
  - apply sync_marks.
  - by apply bump_keeps_posts.
  - change (cmarks (PostRepository.bump _ _ db1)) with (cmarks db1). rewrite sync_marks.
    intros i p'. apply bump_comments; [done|]. intros j.
    rewrite (shown_comments_set_root _ _ _ sync_mark sync_floors) by done. unfold delta. cbn.
    destruct sync_columns as [-> _]. destruct Hcounts as (_ & _ & ->).
    by rewrite (proj2 (ct_comments _ Hc _ _ Hid)).
  - intros k Hk. cbn. apply lookup_insert_is_Some'. by right.
  - change (cmarks (PostRepository.bump _ _ db1)) with (cmarks db1). rewrite sync_marks.
    intros k x'. by apply sync_root_rows.
Qed.

(** *** Replies *)
Context (r : Z) (Hr : RootID c = Some r).
Abbreviation db2 := (db1 <| comments := alter (add_replies d) r (comments db1) |>).

Lemma reply_root_differs : r <> id.
Proof.
  intros ->. destruct (sync_floors _ _ _ sync_mark Hr) as (mr & Hmr & Hn & _).
  rewrite sync_mark in Hmr. injection Hmr as <-. cbn in Hn. congruence.
Qed.

Lemma sync_marks_reply : cmarks db2 = <[id := set_active (active c') (cmark c)]> ms.
Proof. rewrite <- sync_marks. unfold cmarks. cbn. apply marks_replies. Qed.

Lemma sync_reply_rows k x' :
  comments db2 !! k = Some x' -> exists x,
    comments db !! k = Some x /\ ID x' = ID x /\ Comment.LikeCount x' = Comment.LikeCount x /\
    ReplyCount x' = ReplyCount x +
      (shown_replies (<[id := set_active (active c') (cmark c)]> ms) k - shown_replies ms k).
Proof.
  intros Hx'. cbn in Hx'. rewrite (shown_replies_set _ _ _ sync_mark). unfold delta. cbn.
  rewrite Hr. destruct Hcounts as (E1 & E2 & E3).
  destruct (decide (k = r)) as [->|Hk].
  - rewrite lookup_alter_eq, lookup_insert_ne in Hx' by (apply not_eq_sym, reply_root_differs).
    apply fmap_Some in Hx' as (x & Hx & ->). exists x. split; [done|].
    rewrite bool_decide_eq_true_2 by done. cbn. split_and!; try done.
    pose proof (proj2 (shown_nonneg (<[id := set_active (active c') (cmark c)]> ms) r)) as Hn.
    rewrite (shown_replies_set _ _ _ sync_mark) in Hn. cbn in Hn. unfold delta in Hn. cbn in Hn.
    rewrite Hr, bool_decide_eq_true_2 in Hn by done.
    rewrite (proj2 (ct_comments _ Hc _ _ Hx)). lia.
  - rewrite bool_decide_eq_false_2 by congruence. rewrite lookup_alter_ne in Hx' by done.
    apply lookup_insert_Some in Hx' as [[<- <-]|[_ Hx']]; [exists c | exists x']; split_and!;
      try done; lia.
Qed.

Lemma sync_reply_root :
  exists root, comments db2 !! r = Some root /\ active root = root_active ms r.
Proof.
  destruct (sync_floors _ _ _ sync_mark Hr) as (mr & Hmr & _). unfold root_active. rewrite Hmr.
  unfold cmarks in Hmr. rewrite lookup_fmap in Hmr. apply fmap_Some in Hmr as (x & Hx & ->).
  exists (add_replies d x). split; [|done]. cbn. rewrite lookup_alter_eq, lookup_insert_ne
    by (apply not_eq_sym, reply_root_differs). by rewrite Hx.
Qed.

Lemma sync_reply_ok (bumped : bool) :
  bumped = root_active ms r ->
  counters_ok (if bumped then PostRepository.bump (add_comments d) (PostID c') db2 else db2).
Proof.
  intros Hb.
  assert (forall i, shown_comments (<[id := set_active (active c') (cmark c)]> ms) i =
    shown_comments ms i + if PostID c' =? i then if bumped then d else 0 else 0) as Hs.
  { intros i. rewrite (shown_comments_set_reply _ _ _ sync_mark sync_floors _ _ r) by done.
    rewrite <- Hb. destruct sync_columns as [-> _]. unfold delta. cbn.
    by destruct (PostID c =? i), bumped. }
  assert (forall k, is_Some (comments db !! k) -> is_Some (comments db2 !! k)) as Hdom.
  { intros k Hk. cbn. apply lookup_alter_is_Some, lookup_insert_is_Some'. by right. }
  destruct bumped.
  - eapply (counters_step db _ id (cmark c) (active c') Hc sync_mark); try done.
    + apply sync_marks_reply.
    + by apply bump_keeps_posts.
    + change (cmarks (PostRepository.bump _ _ db2)) with (cmarks db2). rewrite sync_marks_reply.
      intros i p'. by apply bump_comments.
    + change (cmarks (PostRepository.bump _ _ db2)) with (cmarks db2). rewrite sync_marks_reply.
      intros k x'. apply sync_reply_rows.
  - eapply (counters_step db _ id (cmark c) (active c') Hc sync_mark); try done.
    + apply sync_marks_reply.
    + intros i p Hp. by exists p.
    + rewrite sync_marks_reply. intros i p' Hp'. exists p'. split_and!; try done.
      rewrite Hs. destruct (PostID c' =? i); lia.
    + rewrite sync_marks_reply. intros k x'. apply sync_reply_rows.
Qed.
End branches.

(** ** The trigger as a whole *)
(** An update that leaves the place and the counters of a comment alone. *)
Definition in_place (f : t -> t) : Prop :=
  forall c, cmark (f c) = set_active (active (f c)) (cmark c) /\
    ID (f c) = ID c /\ Comment.LikeCount (f c) = Comment.LikeCount c /\
    ReplyCount (f c) = ReplyCount c.

Lemma counters_sync db id c f :
  counters_ok db -> comments db !! id = Some c -> in_place f ->
  counters_ok (sync_counts (active c) (active (f c)) (f c)
    (db <| comments := <[id := f c]> (comments db) |>)).
Proof.
  intros Hc Hid Hf. destruct (Hf c) as [Hmark Hcounts]. unfold sync_counts. cbv zeta.
  destruct (Z.eqb_spec (Z.b2z (active (f c)) - Z.b2z (active c)) 0) as [Hd|Hd].
  - apply (tally_counters db); [|done]. unfold tally. cbn. do 2 f_equal.
    apply map_eq. intros k. rewrite !lookup_fmap. destruct (decide (k = id)) as [->|Hk];
      [|by rewrite lookup_insert_ne by congruence].
    rewrite lookup_insert_eq, Hid. cbn. unfold ccounts. destruct Hcounts as (-> & -> & ->).
    rewrite Hmark. replace (active (f c)) with (cm_Active (cmark c)); [by rewrite set_active_self|].
    cbn. by destruct (active c), (active (f c)).
  - destruct (sync_columns c (f c) Hmark) as [_ ->]. destruct (RootID c) as [r|] eqn:Hr.
    + destruct (sync_reply_root db id c (f c) Hc Hid r Hr) as (root & -> & Ea).
      apply (sync_reply_ok db id c (f c) Hc Hid Hmark Hcounts r Hr (active root) Ea).
    + by apply (sync_root_ok db id c (f c)).
Qed.

Lemma sync_counts_frame was now_active c db :
  moderation_records (sync_counts was now_active c db) = moderation_records db /\
  post_histories (sync_counts was now_active c db) = post_histories db /\
  comment_histories (sync_counts was now_active c db) = comment_histories db.
Proof. unfold sync_counts. by repeat case_match. Qed.

(** A row the trigger does not fire on keeps its activity. *)
Lemma untriggered (c c' : t) :
  bool_decide (DeletedAt c = DeletedAt c' /\ Moderation c = Moderation c') = true ->
  active c' = active c.
Proof. intros [E1 E2]%bool_decide_eq_true. unfold active. by rewrite E1, E2. Qed.

Lemma sync_counts_same b c db : sync_counts b b c db = db.
Proof. unfold sync_counts. by rewrite Z.sub_diag. Qed.

Lemma ledger_update_comment id p f db :
  in_place f -> ledger db (snd (update_comment id p f db)).
Proof.
  intros Hf. unfold update_comment. destruct (comments db !! id) as [c|] eqn:Hid; [|done].
  destruct (p c); [|done]. cbn.
  assert ((if bool_decide (DeletedAt c = DeletedAt (f c) /\ Moderation c = Moderation (f c))
           then db <| comments := <[id := f c]> (comments db) |>
           else sync_counts (active c) (active (f c)) (f c)
                  (db <| comments := <[id := f c]> (comments db) |>)) =
          sync_counts (active c) (active (f c)) (f c)
            (db <| comments := <[id := f c]> (comments db) |>)) as ->.
  { destruct (bool_decide _) eqn:Hb; [|done]. by rewrite (untriggered _ _ Hb), sync_counts_same. }
  destruct (sync_counts_frame (active c) (active (f c)) (f c)
    (db <| comments := <[id := f c]> (comments db) |>)) as (E1 & E2 & E3).
  split; [by rewrite E1|by rewrite E2|by rewrite E3|]. intros Hc. by apply counters_sync.
Qed.

(** ** A new comment *)
Lemma counters_create db id c :
  counters_ok db -> comments db !! id = None -> ID c = id -> active c = false ->
  Comment.LikeCount c = 0 -> ReplyCount c = 0 ->
  placed (posts db) (cmarks db) (cmark c) ->
  counters_ok (db <| comments := <[id := c]> (comments db) |>).
Proof.
  intros [[Fk Fl Ff Fkc Fcl Fpl] Cp Cc] Hn Hid Ha Hl Hrc Hp.
  assert (cmarks db !! id = None) as Hn' by (unfold cmarks; by rewrite lookup_fmap, Hn).
  assert (forall k x r, cmarks db !! k = Some x -> cm_Root x = Some r -> is_Some (cmarks db !! r))
    as Hfk.
  { intros k x r Hx Hr. destruct (floors_of_placed _ _ Fpl _ _ _ Hx Hr) as (mr & -> & _). by eexists. }
  assert (forall x, placed (posts db) (cmarks db) x ->
    placed (posts db) (<[id := cmark c]> (cmarks db)) x) as Hpl.
  { intros x. apply placed_step. intros k m Hm. exists m. split; [|apply eq_sym, set_active_self].
    rewrite lookup_insert_ne; [done|]. congruence. }
  split; [split|..]; try done.
  - intros k x Hx. cbn in Hx.
    apply lookup_insert_Some in Hx as [[<- <-]|[_ Hx]]; [done | by apply Fkc].
  - intros u i Hi. cbn. apply lookup_insert_is_Some'. right. by eapply Fcl.
  - rewrite marks_insert. intros k x [[<- <-]|[_ Hx]]%lookup_insert_Some; apply Hpl; [done | eauto].
  - rewrite marks_insert. intros i p Hpi. rewrite shown_comments_new by done. by apply Cp.
  - rewrite marks_insert. intros k x Hx. cbn in Hx.
    apply lookup_insert_Some in Hx as [[<- <-]|[_ Hx]].
    + rewrite shown_replies_new, Hl, Hrc by done. cbn. rewrite holders_none, shown_replies_none; [done| |].
      * intros k x Hx Hr. destruct (Hfk _ _ _ Hx Hr) as [? ?]. congruence.
      * intros u. apply eq_None_not_Some. intros Hi. destruct (Fcl _ _ Hi). congruence.
    + rewrite shown_replies_new by done. by apply Cc.
Qed.

(** ** Statements *)
Section statements.
Context `{Env} `{DbClock}.

Lemma ledger_UpdateRow id p f : in_place f -> Keeps ledger (UpdateRow id p f).
Proof.
  intros Hf. apply (keeps_found_row _), (keeps_stmt _). intros db n db' [= E].
  pose proof (ledger_update_comment id p f db Hf) as Hl. by rewrite E in Hl.
Qed.

Lemma ledger_comment_UpdateContent id content v now : Keeps ledger (UpdateContent id content v now).
Proof. by apply ledger_UpdateRow. Qed.
Lemma ledger_comment_ApplyModeration id verdict now : Keeps ledger (ApplyModeration id verdict now).
Proof.
  apply ledger_UpdateRow. intros c. unfold moderated. by case_bool_decide.
Qed.
Lemma ledger_comment_SoftDelete id reason actor now : Keeps ledger (SoftDelete id reason actor now).
Proof. by apply ledger_UpdateRow. Qed.
Lemma ledger_comment_Restore id : Keeps ledger (Restore id).
Proof. by apply ledger_UpdateRow. Qed.

Lemma ledger_comment_version h : Keeps ledger (CreateHistory h).
Proof.
  unfold CreateHistory. solve_keeps. apply (keeps_stmt _). intros db r db'.
  case_match; [done|]. destruct (insert_row _ _ _ _) eqn:Ei; [done|].
  apply insert_row_inr in Ei as [Hn ->]. intros [= _ <-]. apply ledger_same; [done|done| |done].
  cbn. by apply insert_subseteq.
Qed.

Lemma ledger_comment_revision id : Keeps ledger (NextHistoryRevision id).
Proof.
  apply (keeps_stmt _). intros db r db'. cbn zeta. case_match; [|done]. by intros [= _ <-].
Qed.

Lemma entries_ReplaceMentions id ids : Keeps (unchanged entries) (ReplaceMentions id ids).
Proof.
  unfold ReplaceMentions. solve_keeps; [by apply keeps_entries_exec|].
  apply (keeps_stmt _). intros db r db'. case_match; naive_solver.
Qed.

Lemma keeps_next_ids D `{!PreOrder D} {A} (l : list A) : Keeps D (next_ids l).
Proof. induction l; cbn [next_ids]; solve_keeps. Qed.

Lemma entries_CreateNotifications ns : Keeps (unchanged entries) (CreateNotifications ns).
Proof.
  unfold CreateNotifications. pose proof (fun l => keeps_next_ids (unchanged entries) (A := Notification.t) l).
  solve_keeps. apply (keeps_stmt _). intros db r db'. case_match; naive_solver.
Qed.

(** *** Likes *)
Lemma counters_comment_likes id e likes db :
  counters_ok db ->
  (forall u i, is_Some (likes !! (u, i)) -> is_Some (comments db !! i)) ->
  (forall i, holders i likes = holders i (comment_likes db) + if decide (i = id) then e else 0) ->
  counters_ok (db <| comment_likes := likes |>
                  <| comments := alter (add_likes e) id (comments db) |>).
Proof.
  intros [[Fk Fl Ff Fkc Fcl Fpl] Cp Cc] Hl He.
  assert (cmark <$> alter (add_likes e) id (comments db) = cmark <$> comments db) as Em.
  { apply map_eq. intros k. rewrite !lookup_fmap. destruct (decide (k = id)) as [->|Hk].
    - rewrite lookup_alter_eq. by destruct (comments db !! id).
    - by rewrite lookup_alter_ne by congruence. }
  assert (forall k x', alter (add_likes e) id (comments db) !! k = Some x' -> exists x,
    comments db !! k = Some x /\ x' = if decide (k = id) then add_likes e x else x) as Hback.
  { intros k x'. case_decide as Hk; [rewrite Hk, lookup_alter_eq|by rewrite lookup_alter_ne by congruence; eauto].
    intros (x & Hx & ->)%fmap_Some. eauto. }
  split; [split|..]; try done.
  - intros k x' Hx'. destruct (Hback _ _ Hx') as (x & Hx & ->).
    pose proof (Fkc _ _ Hx) as Hid. by destruct (decide (k = id)).
  - intros u i Hi. cbn. apply lookup_alter_is_Some. by eapply Hl.
  - unfold cmarks. cbn. rewrite Em. apply Fpl.
  - unfold cmarks. cbn. rewrite Em. apply Cp.
  - intros k x' Hx'. destruct (Hback _ _ Hx') as (x & Hx & ->). unfold cmarks. cbn. rewrite Em, He.
    destruct (Cc _ _ Hx) as [El Er]. pose proof (holders_nonneg k likes) as Hn. rewrite He in Hn.
    case_decide; cbn; split; [lia|done|lia|done].
Qed.

Lemma ledger_comment_Like user id : Keeps ledger (Like user id).
Proof.
  unfold Like. solve_keeps. apply (keeps_stmt _). intros db r db'.
  destruct (comment_likes db !! (user, id)) as [x|] eqn:Hx; [by intros [= _ <-]|].
  case_bool_decide as Hi; [|done]. cbn. intros [= _ <-]. split; [done..|]. intros Hc.
  apply counters_comment_likes; [done| |].
  - apply fk_insert; [apply (fo_comment_likes _ (ct_floors _ Hc)) | done].
  - intros i. rewrite holders_insert by done. by destruct (decide (id = i)), (decide (i = id)).
Qed.

Lemma ledger_comment_Unlike user id : Keeps ledger (Unlike user id).
Proof.
  unfold Unlike. apply (keeps_exec _). intros db.
  destruct (comment_likes db !! (user, id)) as [x|] eqn:Hx; [|done]. split; [done..|]. intros Hc.
  apply counters_comment_likes; [done| |].
  - apply fk_delete. apply (fo_comment_likes _ (ct_floors _ Hc)).
  - intros i. rewrite holders_delete by (by eexists).
    destruct (decide (id = i)), (decide (i = id)); try congruence; lia.
Qed.
End statements.

#[export] Hint Resolve ledger_comment_UpdateContent ledger_comment_ApplyModeration ledger_comment_SoftDelete ledger_comment_Restore
  ledger_comment_version ledger_comment_revision entries_ReplaceMentions entries_CreateNotifications
  ledger_comment_Like ledger_comment_Unlike : keeps.
