(* ===== verification/CommentOps.v ===== *)
(** * The operations of the comment service, statement by statement

    [CommentWrites D]: the writing statements of the comment repository keep the
    relation [D]; then so do the operations of the service.  The posts' [view] and the
    [ledger] are two such relations; a new comment keeps the ledger because the service
    puts it in its place ([resolve_placed]). *)

From S2P Require Import Prelude.
From S2P Require Import GoText.
From S2P Require Import Apierr.
From S2P Require Import Effects.
From S2P Require Import Logic.
From S2P Require Import Model.
From S2P Require Import Pagination.
From S2P Require Import AuthRepo.
From S2P Require Import AuthService.
From S2P Require Import Notifications.
From S2P Require Import PostRepo.
From S2P Require Import CommentRepo.
From S2P Require Import Moderation.
From S2P Require Import PostService.
From S2P Require Import CommentService.
From S2P Require Import PostTables.
From S2P Require Import PostProps.
From S2P Require Import Floors.
From S2P Require Import Counters.
From S2P Require Import CommentLedger.
Import CommentService.
Open Scope Z_scope.

(** ** What only reads *)
Section reads.
Context `{Env} `{Pg} `{Unicode} `{DbClock} (s : CommentService).

Lemma neutral_query_row {R} (f : DB -> option R) : Neutral (First f).
Proof. unfold First. solve_neutral. Qed.
Lemma neutral_to_api {R} code res e : Neutral (ModerationService.to_api (A := R) code res e).
Proof. unfold ModerationService.to_api. solve_neutral. Qed.
Lemma neutral_call_review m req : Neutral (call_review m req).
Proof. intros tx r tx'. unfold call_review. naive_solver. Qed.
Lemma neutral_moderation_result r : Neutral (validateModerationResult r).
Proof. unfold validateModerationResult. solve_neutral. Qed.
Lemma neutral_Alert a : Neutral (Alert a).
Proof. unfold Alert. solve_neutral. Qed.
Lemma neutral_commentRepositoryError {R} e : Neutral (commentRepositoryError (A := R) e).
Proof. unfold commentRepositoryError. solve_neutral. Qed.
Lemma neutral_commentHistoryWriteError {R} e : Neutral (commentHistoryWriteError (A := R) e).
Proof. unfold commentHistoryWriteError. solve_neutral. Qed.
#[local] Hint Resolve neutral_query_row neutral_to_api neutral_call_review
  neutral_moderation_result neutral_Alert neutral_commentRepositoryError
  neutral_commentHistoryWriteError : neutral.

Lemma neutral_finds id :
  Neutral (found_comment id) /\ Neutral (locked_comment id) /\ Neutral (found_post id) /\
  (forall deleted, Neutral (PostRepository.LockByID id deleted)) /\
  Neutral (CommentRepository.LockByID id).
Proof.
  unfold found_comment, locked_comment, found_post, CommentRepository.FindByID,
    CommentRepository.LockByID, PostRepository.FindByID, PostRepository.LockByID.
  split_and!; solve_neutral.
Qed.
Lemma neutral_found_comment id : Neutral (found_comment id).
Proof. apply neutral_finds. Qed.
Lemma neutral_locked_comment id : Neutral (locked_comment id).
Proof. apply neutral_finds. Qed.
Lemma neutral_found_post id : Neutral (found_post id).
Proof. apply neutral_finds. Qed.
Lemma neutral_LockPost id deleted : Neutral (PostRepository.LockByID id deleted).
Proof. apply neutral_finds. Qed.
Lemma neutral_LockComment id : Neutral (CommentRepository.LockByID id).
Proof. apply neutral_finds. Qed.
#[local] Hint Resolve neutral_found_comment neutral_locked_comment neutral_found_post
  neutral_LockPost neutral_LockComment : neutral.

Lemma neutral_require_active_root root res : Neutral (require_active_root root res).
Proof. unfold require_active_root. solve_neutral. Qed.
#[local] Hint Resolve neutral_require_active_root : neutral.

Lemma neutral_resolveCommentParent post author input :
  Neutral (resolveCommentParent post author input).
Proof. unfold resolveCommentParent. solve_neutral. Qed.

Lemma neutral_normalizeCommentPayload content ids : Neutral (normalizeCommentPayload content ids).
Proof.
  unfold normalizeCommentPayload, CommentRepository.ActiveUsers. solve_neutral.
Qed.

Lemma neutral_LoadRelations cs viewer : Neutral (CommentRepository.LoadRelations cs viewer).
Proof.
  unfold CommentRepository.LoadRelations, CommentRepository.loadCommentMentions,
    CommentRepository.loadCommentUsers, CommentRepository.loadCommentRevisions,
    CommentRepository.loadCommentLikes, CommentRepository.loadCommentFollows.
  solve_neutral.
Qed.
#[local] Hint Resolve neutral_LoadRelations : neutral.

Lemma neutral_commentMutationResult id author viewer :
  Neutral (commentMutationResult id author viewer).
Proof. unfold commentMutationResult. solve_neutral. Qed.

Lemma neutral_interactiveComment id : Neutral (interactiveComment id).
Proof. unfold interactiveComment. solve_neutral. Qed.

Lemma neutral_columns id :
  Neutral (CommentRepository.LikeCount id) /\ Neutral (CommentRepository.MentionIDs id) /\
  Neutral (CommentRepository.CurrentContentRevision id).
Proof.
  unfold CommentRepository.LikeCount, CommentRepository.MentionIDs,
    CommentRepository.CurrentContentRevision.
  split_and!; solve_neutral.
Qed.
Lemma neutral_LikeCount id : Neutral (CommentRepository.LikeCount id).
Proof. apply neutral_columns. Qed.
Lemma neutral_MentionIDs id : Neutral (CommentRepository.MentionIDs id).
Proof. apply neutral_columns. Qed.
Lemma neutral_CurrentContentRevision id : Neutral (CommentRepository.CurrentContentRevision id).
Proof. apply neutral_columns. Qed.

Lemma neutral_alert_unless_pass t id r : Neutral (alert_unless_pass t id r).
Proof. unfold alert_unless_pass. solve_neutral. Qed.
End reads.

#[export] Hint Resolve neutral_query_row neutral_to_api neutral_call_review
  neutral_moderation_result neutral_Alert neutral_commentRepositoryError
  neutral_commentHistoryWriteError neutral_found_comment neutral_locked_comment neutral_found_post
  neutral_LockPost neutral_LockComment neutral_require_active_root neutral_resolveCommentParent
  neutral_normalizeCommentPayload neutral_LoadRelations neutral_commentMutationResult
  neutral_interactiveComment neutral_LikeCount neutral_MentionIDs neutral_CurrentContentRevision
  neutral_alert_unless_pass : neutral.

(** Reading keeps everything. *)
Lemma keeps_neutral `{Env} D `{!PreOrder D} {R} (m : MT R) : Neutral m -> Keeps D m.
Proof. intros Hm. apply (keeps_same _). intros tx r tx' E. by apply Hm in E. Qed.
#[export] Hint Extern 3 (Keeps _ _) =>
  (apply (keeps_neutral _); solve [eauto 2 with neutral]) : keeps.

(** ** What writes *)
(** A machine verdict on a comment, or its restoration. *)
Definition on_comment (r : ModerationRecord.t) : Prop :=
  ModerationRecord.PostID r = None /\ is_Some (ModerationRecord.CommentID r).

Class CommentWrites `{Env} `{DbClock} (D : relation DB) := {
  cw_content : forall id content v now, Keeps D (CommentRepository.UpdateContent id content v now);
  cw_moderation : forall id verdict now, Keeps D (CommentRepository.ApplyModeration id verdict now);
  cw_delete : forall id reason actor now, Keeps D (CommentRepository.SoftDelete id reason actor now);
  cw_restore : forall id, Keeps D (CommentRepository.Restore id);
  cw_version : forall h, Keeps D (CommentRepository.CreateHistory h);
  cw_revision : forall id, Keeps D (CommentRepository.NextHistoryRevision id);
  cw_mentions : forall id ids, Keeps D (CommentRepository.ReplaceMentions id ids);
  cw_notifications : forall ns, Keeps D (CommentRepository.CreateNotifications ns);
  cw_like : forall user id, Keeps D (CommentRepository.Like user id);
  cw_unlike : forall user id, Keeps D (CommentRepository.Unlike user id);
  cw_record : forall r, on_comment r -> Keeps D (CreateRecord r);
}.
#[export] Hint Resolve cw_content cw_moderation cw_delete cw_restore cw_version cw_revision
  cw_mentions cw_notifications cw_like cw_unlike cw_record : keeps.
#[export] Hint Extern 1 (on_comment _) => (split; [reflexivity | by eexists]) : keeps.

#[global] Instance ledger_writes_comments `{Env} `{DbClock} : CommentWrites ledger.
Proof. split; eauto with keeps. Qed.

Lemma view_sync_counts was now c db : view (CommentRepository.sync_counts was now c db) = view db.
Proof.
  assert (forall e p d, view (PostRepository.bump (CommentRepository.add_comments e) p d) = view d)
    as Hb by (intros; by apply view_bump).
  unfold CommentRepository.sync_counts. repeat case_match; rewrite ?Hb; done.
Qed.

Lemma view_update_comment id p f db :
  view (snd (CommentRepository.update_comment id p f db)) = view db.
Proof.
  unfold CommentRepository.update_comment. repeat case_match; cbn; [done| |done|done].
  by rewrite view_sync_counts.
Qed.

#[global] Instance view_writes_comments `{Env} `{DbClock} : CommentWrites (unchanged view).
Proof.
  assert (forall id p f, Keeps (unchanged view) (CommentRepository.UpdateRow id p f)) as Hu.
  { intros id p f. apply (keeps_found_row _), (keeps_stmt _). intros db n db' [= E].
    pose proof (view_update_comment id p f db) as V. by rewrite E in V. }
  split; intros; try apply Hu.
  - unfold CommentRepository.CreateHistory. solve_keeps. apply (keeps_stmt _). intros db r db'.
    repeat case_match; naive_solver.
  - unfold CommentRepository.NextHistoryRevision. apply (keeps_stmt _). intros db r db'. cbn zeta.
    case_match; naive_solver.
  - unfold CommentRepository.ReplaceMentions. solve_keeps; [by apply keeps_view_exec|].
    apply (keeps_stmt _). intros db r db'. case_match; naive_solver.
  - unfold CommentRepository.CreateNotifications.
    pose proof (fun l => keeps_next_ids (unchanged view) (A := Notification.t) l). solve_keeps.
    apply (keeps_stmt _). intros db r db'. case_match; naive_solver.
  - unfold CommentRepository.Like. solve_keeps. apply (keeps_stmt _). intros db r db'.
    repeat case_match; naive_solver.
  - unfold CommentRepository.Unlike. apply keeps_view_exec. intros db. by case_match.
  - apply keeps_CreateRecord. by destruct H1.
Qed.

(** ** The operations *)
Section operations.
Context `{Env} `{Pg} `{Unicode} `{DbClock} (s : CommentService).
Context (D : relation DB) `{!PreOrder D} `{!CommentWrites D}.

Lemma keeps_moderateComment id v content : Keeps D (moderateComment s id v content).
Proof.
  unfold moderateComment, CommentRepository.CreateModerationRecord. solve_keeps.
Qed.
#[local] Hint Resolve keeps_moderateComment : keeps.

Lemma keeps_Update id input author : Keeps D (Update s id input author).
Proof. unfold Update. solve_keeps. Qed.
Lemma keeps_Delete id author : Keeps D (Delete id author).
Proof. unfold Delete. solve_keeps. Qed.
Lemma keeps_Like id user : Keeps D (Like id user).
Proof. unfold Like. solve_keeps. Qed.
Lemma keeps_Unlike id user : Keeps D (Unlike id user).
Proof. unfold Unlike. solve_keeps. Qed.
Lemma keeps_AdminDeleteComment id actor : Keeps D (AdminDeleteComment id actor).
Proof. unfold AdminDeleteComment, to_comment_api. solve_keeps. Qed.
Lemma keeps_AdminRestoreComment id actor : Keeps D (AdminRestoreComment id actor).
Proof. unfold AdminRestoreComment, to_comment_api, CreateRestorationRecord. solve_keeps. Qed.
End operations.

(** ** A new comment *)
Section inversions.
Context `{Env} `{Pg} `{Unicode} `{DbClock}.

(** An error handler that only throws. *)
Lemma caught {R} (m : MT R) (f : goerr -> MT R) tx r tx' :
  (forall e, throws (f e)) -> on_error m f tx = (inr r, tx') -> m tx = (inr r, tx').
Proof.
  intros Hf E. apply on_error_inr in E as [E|(e & tx1 & _ & E)]; [done|]. by apply Hf in E.
Qed.
Lemma throws_internal {R} e : throws (internal (R := R) e).
Proof. intros tx r tx'. apply internal_inr. Qed.
Lemma throws_commentRepositoryError {R} e : throws (commentRepositoryError (A := R) e).
Proof. intros tx r tx'. unfold commentRepositoryError. by case_match. Qed.
Lemma throws_commentHistoryWriteError {R} e : throws (commentHistoryWriteError (A := R) e).
Proof. intros tx r tx'. unfold commentHistoryWriteError. by case_match. Qed.

Lemma First_row {R} (f : DB -> option R) (tx : TxD) r tx' :
  First f tx = (inr r, tx') -> f (tx_db tx) = Some r.
Proof.
  unfold First. intros E. apply mbind_inr in E as (o & s1 & [-> _]%query_inr & E).
  destruct (f (tx_db tx)); [|done]. by apply mret_inr in E as [-> _].
Qed.

Lemma found_comment_row id (tx : TxD) c tx' :
  found_comment id tx = (inr c, tx') -> comments (tx_db tx) !! id = Some c.
Proof. intros E%caught; [by apply First_row in E|]. apply throws_commentRepositoryError. Qed.
Lemma locked_comment_row id (tx : TxD) c tx' :
  locked_comment id tx = (inr c, tx') -> comments (tx_db tx) !! id = Some c.
Proof. intros E%caught; [by apply First_row in E|]. apply throws_commentRepositoryError. Qed.

Lemma locked_post_row id deleted (tx : TxD) p tx' :
  keyed Post.ID (posts (tx_db tx)) ->
  on_error (PostRepository.LockByID id deleted) (ModerationService.to_api BizPostNotFound "帖子") tx
    = (inr p, tx') -> posts (tx_db tx) !! id = Some p.
Proof.
  intros Hk E%caught; [|apply throws_to_api]. apply First_row in E.
  apply first_Some in E as [Hp [k Hkp]]. unfold PostRepository.by_id in Hp.
  assert (k = id) as <- by (rewrite <- (Hk _ _ Hkp); lia). done.
Qed.
End inversions.

Section create.
Context `{Env} `{Pg} `{Unicode} `{DbClock} (s : CommentService).

(** Where the comment will stand: what [resolveCommentParent] found. *)
Definition stands (post author : Z) (parent root : option Z) (answered : Z) (db : DB) : Prop :=
  counters_ok db -> placed (posts db) (cmarks db) (mkCMark post author parent root answered false).

Lemma require_active_root_inr root res (tx : TxD) tx' :
  require_active_root root res tx = (inr tt, tx') -> tx_db tx' = tx_db tx.
Proof. intros E. by apply neutral_require_active_root in E. Qed.

Lemma resolve_placed post p author input (tx : TxD) parent root answered tx' :
  posts (tx_db tx) !! post = Some p ->
  resolveCommentParent post (Post.AuthorID p) input tx = (inr (parent, root, answered), tx') ->
  stands post author (ci_ParentID input) root answered (tx_db tx).
Proof.
  intros Hp E Hc. unfold resolveCommentParent in E. split; [exists p; cbn; split; [done|]|].
  - destruct (ci_ParentID input) as [pid|]; [destruct (pid =? 0)|]; run_inv; by simplify_eq.
  - destruct (ci_ParentID input) as [pid|] eqn:Hpid; cbn; [|by run_inv; simplify_eq].
    destruct (pid =? 0); [done|]. apply mbind_inr in E as (c & s1 & E1 & E).
    apply locked_comment_row in E1 as Hrow. pose proof (ct_floors _ Hc) as Hf.
    assert (cmarks (tx_db tx) !! pid = Some (cmark c)) as Hm
      by (unfold cmarks; by rewrite lookup_fmap, Hrow).
    destruct (bool_decide (Comment.DeletedAt c = None)); [|done].
    destruct (bool_decide (Comment.Moderation c = _)); [|done]. cbn in E.
    destruct (Z.eqb_spec (Comment.PostID c) post) as [Epost|]; [|done]. cbn in E.
    apply mbind_inr in E as ([] & s2 & _ & E). apply mbind_inr in E as ([] & s3 & _ & E).
    apply mret_inr in E as [E _]. injection E as _ <- <-. split.
    + exists (cmark c). split_and!; [done| |done|done]. unfold floor_of. cbn.
      destruct (Comment.RootID c); [done|]. cbn. by rewrite (fo_comments _ Hf _ _ Hrow).
    + destruct (Comment.RootID c) as [r|] eqn:Hr.
      * destruct (floors_of_placed _ _ (fo_placed _ Hf) _ _ r Hm Hr) as (mr & Hmr & Hn & Hpr).
        exists mr. split_and!; [done|done|by rewrite Hpr].
      * exists (cmark c). rewrite (fo_comments _ Hf _ _ Hrow). by split_and!.
Qed.

(** The new row: not active, so the trigger does nothing. *)
Lemma ledger_new_comment post author parent root answered content now :
  KeepsIf (stands post author parent root answered) ledger
    (CommentRepository.Create (Comment.mk 0 post author parent root answered content 1
       ModerationStatusPending 0 0 None None None now now)).
Proof.
  unfold CommentRepository.Create. eapply (keeps_if_read _ _ _ (fun _ _ => True)); [|done|].
  { apply neutral_NextID. }
  intros id. apply (keeps_if_bind _ _); [|intros; solve_keeps].
  apply (keeps_if_stmt _ _). intros db r db' [Hs _].
  destruct (insert_row _ _ _ _) eqn:Ei; [done|]. apply insert_row_inr in Ei as [Hn ->].
  intros [= _ <-]. split; [done..|]. intros Hc. apply counters_create; try done. by apply Hs.
Qed.

Lemma ledger_CreateComment post input author : Keeps ledger (Create s post input author).
Proof.
  unfold Create. apply (keeps_bind _); [solve_keeps|]. intros [content mentionIDs].
  apply keeps_if.
  apply (keeps_if_read _ _ _ (fun p db => counters_ok db -> posts db !! post = Some p)); [solve_neutral| |].
  { intros tx p tx' _ E Hc. eapply locked_post_row; [|exact E]. apply (fo_posts _ (ct_floors _ Hc)). }
  intros p. eapply (keeps_if_read _ _ _ (fun _ _ => True)); [solve_neutral|done|]. intros _.
  eapply (keeps_if_read _ _ _ (fun r db =>
    stands post author (ci_ParentID input) (snd (fst r)) (snd r) db)); [solve_neutral| |].
  { intros tx [[parent root] answered] tx' [[_ Hp] _] E Hc. eapply resolve_placed; [|exact E|done]. auto. }
  intros [[parent root] answered].
  eapply (keeps_if_read _ _ _ (fun _ _ => True)); [solve_neutral|done|]. intros now.
  apply (keeps_if_bind _ _).
  - apply (keeps_if_on_error _ _); [|intros; solve_keeps].
    intros tx r tx' [[_ Hs] _] E. cbn in Hs. by eapply ledger_new_comment.
  - pose proof (keeps_moderateComment s ledger). intros c. solve_keeps.
Qed.

Lemma view_CreateComment post input author : Keeps (unchanged view) (Create s post input author).
Proof.
  assert (forall c, Keeps (unchanged view) (CommentRepository.Create c)) as Hc.
  { intros c. unfold CommentRepository.Create. solve_keeps. apply (keeps_stmt _). intros db r db'.
    case_match; [done|]. intros [= _ <-]. unfold unchanged. by rewrite view_sync_counts. }
  pose proof (keeps_moderateComment s (unchanged view)). unfold Create. solve_keeps.
Qed.
End create.
