(* ===== verification/UserOps.v ===== *)
(** * The operations on users, statement by statement

    [UserWrites D]: the writing statements keep the relation [D]; then so do the
    operations of the user service and the verdicts on usernames. *)

From S2P Require Import Prelude.
From S2P Require Import GoText.
From S2P Require Import Apierr.
From S2P Require Import Effects.
From S2P Require Import Logic.
From S2P Require Import Model.
From S2P Require Import AuthRepo.
From S2P Require Import AuthService.
From S2P Require Import Notifications.
From S2P Require Import PostRepo.
From S2P Require Import CommentRepo.
From S2P Require Import UserRepo.
From S2P Require Import Moderation.
From S2P Require Import UserService.
From S2P Require Import SingleReview.
From S2P Require Import PostTables.
From S2P Require Import PostProps.
From S2P Require Import Floors.
From S2P Require Import Counters.
From S2P Require Import CommentLedger.
From S2P Require Import CommentOps.
Import UserService.
Open Scope Z_scope.

(** ** What only reads *)
Section reads.
Context `{Env} `{Pg} `{Unicode} `{DbClock}.

Lemma neutral_userNotFoundError {R} e : Neutral (userNotFoundError (A := R) e).
Proof. unfold userNotFoundError. solve_neutral. Qed.
Lemma neutral_profile_error {R} e : Neutral (profile_error (A := R) e).
Proof. unfold profile_error. pose proof (@neutral_userNotFoundError R). solve_neutral. Qed.
Lemma neutral_DbNow : Neutral DbNow.
Proof. intros tx r tx'. unfold DbNow. naive_solver. Qed.
#[local] Hint Resolve neutral_userNotFoundError neutral_profile_error neutral_DbNow : neutral.

Lemma neutral_LockUser id : Neutral (UserRepository.LockByID id).
Proof. unfold UserRepository.LockByID. solve_neutral. Qed.
Lemma neutral_FindUser id : Neutral (UserDomain.FindByID id).
Proof. unfold UserDomain.FindByID. solve_neutral. Qed.
Lemma neutral_UsernameRevision id : Neutral (UserDomain.UsernameRevision id).
Proof. unfold UserDomain.UsernameRevision. solve_neutral. Qed.
Lemma neutral_HasRecentUsernameChange id : Neutral (UserDomain.HasRecentUsernameChange id).
Proof. unfold UserDomain.HasRecentUsernameChange. solve_neutral. Qed.
Lemma neutral_FindProfile id viewer : Neutral (UserDomain.FindProfile id viewer).
Proof. unfold UserDomain.FindProfile. solve_neutral. Qed.
Lemma neutral_FollowerCount id : Neutral (UserDomain.FollowerCount id).
Proof. unfold UserDomain.FollowerCount. solve_neutral. Qed.
Lemma neutral_FindRoles id : Neutral (UserRepository.FindRoles id).
Proof. unfold UserRepository.FindRoles. solve_neutral. Qed.
Lemma neutral_images ids urls :
  Neutral (PostRepository.LockImagesByIDs ids) /\ Neutral (PostRepository.FindImagesByURLs urls).
Proof.
  unfold PostRepository.LockImagesByIDs, PostRepository.FindImagesByURLs. split; solve_neutral.
Qed.
Lemma neutral_LockImagesByIDs ids : Neutral (PostRepository.LockImagesByIDs ids).
Proof. by apply (neutral_images ids []). Qed.
Lemma neutral_FindImagesByURLs urls : Neutral (PostRepository.FindImagesByURLs urls).
Proof. by apply (neutral_images [] urls). Qed.
#[local] Hint Resolve neutral_LockUser neutral_FindUser neutral_UsernameRevision
  neutral_HasRecentUsernameChange neutral_FindProfile neutral_FollowerCount neutral_FindRoles
  neutral_LockImagesByIDs neutral_FindImagesByURLs : neutral.

Lemma neutral_ensureUser id : Neutral (ensureUser id).
Proof. unfold ensureUser. solve_neutral. Qed.
Lemma neutral_Profile id viewer : Neutral (Profile id viewer).
Proof. unfold Profile. solve_neutral. Qed.
Lemma neutral_followResult id b : Neutral (followResult id b).
Proof. unfold followResult. solve_neutral. Qed.
Lemma neutral_resolveAvatar user url : Neutral (resolveAvatar user url).
Proof. unfold resolveAvatar. solve_neutral. Qed.
End reads.

#[export] Hint Resolve neutral_userNotFoundError neutral_profile_error neutral_DbNow
  neutral_LockUser neutral_FindUser neutral_UsernameRevision neutral_HasRecentUsernameChange
  neutral_FindProfile neutral_FollowerCount neutral_FindRoles neutral_LockImagesByIDs
  neutral_FindImagesByURLs neutral_ensureUser neutral_Profile neutral_followResult
  neutral_resolveAvatar : neutral.

(** ** What writes *)
Class UserWrites `{Env} `{Pg} `{DbClock} (D : relation DB) := {
  uw_profile : forall id fields, Keeps D (UserDomain.UpdateProfile id fields);
  uw_claim : forall id name now, Keeps D (UserRepository.ClaimUsername id name now);
  uw_delete : forall id now, Keeps D (UserDomain.SoftDelete id now);
  uw_revoke : forall id now, Keeps D (SessionRepository.RevokeAll id now);
  uw_follow : forall a b, Keeps D (UserDomain.Follow a b);
  uw_unfollow : forall a b, Keeps D (UserDomain.Unfollow a b);
  uw_notification : forall n, Keeps D (NotificationRepository.Create n);
  uw_record : forall r, ModerationRecord.PostID r = None ->
    ModerationRecord.CommentID r = None -> Keeps D (CreateRecord r);
}.
#[export] Hint Resolve uw_profile uw_claim uw_delete uw_revoke uw_follow uw_unfollow
  uw_notification uw_record : keeps.

(** Tables a write to users can reach: itself, the claims, the audit, the lifecycle
    status of images, the sessions and the follows. *)
Record user_writes (db db' : DB) : Prop := {
  ur_images : forall F (proj : DB -> F),
    (forall now d i, proj (activate now d i) = proj d) ->
    (forall now d i, proj (retire now d i) = proj d) ->
    (forall d t, proj (d <| users := t |>) = proj d) ->
    (forall d t, proj (d <| user_name_claims := t |>) = proj d) ->
    (forall d t, proj (d <| user_name_change_records := t |>) = proj d) ->
    proj db' = proj db;
}.

Lemma insert_change_writes record db db' :
  UserDomain.insert_change record db = inr db' ->
  exists t, db' = db <| user_name_change_records := t |>.
Proof.
  unfold UserDomain.insert_change. cbv zeta. case_match; [done|].
  destruct (insert_row _ _ _ _); [done|]. intros [= <-]. eauto.
Qed.

Section profile.
Context `{Env} `{Pg} `{DbClock}.

Lemma audit_writes id now old new db db' F (proj : DB -> F) :
  (forall d t, proj (d <| user_name_change_records := t |>) = proj d) ->
  UserDomain.audit id now old new db = inr db' -> proj db' = proj db.
Proof.
  intros Hp. unfold UserDomain.audit. case_bool_decide; [by intros [= <-]|].
  intros (t & ->)%insert_change_writes. apply Hp.
Qed.

Lemma update_user_writes f claim_id change_id at_ now id db n db' :
  UserDomain.update_user f claim_id change_id at_ now id db = inr (n, db') -> user_writes db db'.
Proof.
  intros E. split. intros F proj Ha Hr Hu Hcl Hch. unfold UserDomain.update_user in E.
  destruct (users db !! id) as [u|]; [|by injection E as _ <-].
  destruct (UserRepository.live u); cbn in E; [|by injection E as _ <-].
  destruct (_ && exists_row _ _); [done|]. set (new := UserDomain.set_fields f at_ u) in *.
  set (db1 := if bool_decide (UserDomain.pf_avatar f <> None) then _ else _) in E.
  assert (proj db1 = proj db) as E1.
  { unfold db1, UserDomain.activate_avatar. repeat case_match; rewrite ?Ha; apply Hu. }
  clearbody db1.
  destruct (if bool_decide (UserDomain.pf_name f <> None) then _ else _) as [|db2] eqn:E2; [done|].
  assert (proj db2 = proj db1) as E12.
  { destruct (bool_decide _); [|by injection E2 as <-]. unfold UserDomain.claim_name in E2.
    destruct (UserRepository.claim_holder _ _) as [c|].
    - destruct (UsernameClaim.UserID c =? _); [|done]. by eapply audit_writes.
    - destruct (insert_row _ _ _ _) as [|claims]; [done|]. rewrite <- (Hcl db1 claims).
      by eapply audit_writes. }
  injection E as _ <-. rewrite <- E1, <- E12. unfold UserDomain.retire_avatar.
  repeat case_match; rewrite ?Hr; done.
Qed.

Lemma keeps_UpdateProfile {F} (proj : DB -> F) id fields :
  (forall now d i, proj (activate now d i) = proj d) ->
  (forall now d i, proj (retire now d i) = proj d) ->
  (forall d t, proj (d <| users := t |>) = proj d) ->
  (forall d t, proj (d <| user_name_claims := t |>) = proj d) ->
  (forall d t, proj (d <| user_name_change_records := t |>) = proj d) ->
  Keeps (unchanged proj) (UserDomain.UpdateProfile id fields).
Proof.
  intros. unfold UserDomain.UpdateProfile. pose proof (keeps_DbNow (unchanged proj)).
  destruct (UserDomain.is_empty fields); [solve_keeps|].
  do 4 (apply (keeps_bind _); [solve_keeps|intros ?]). apply (keeps_found_row _).
  apply (keeps_stmt _). intros db n db' E. by apply update_user_writes in E as [E]; apply E.
Qed.

(** A relation that only looks at other tables. *)
Lemma user_writes_unchanged {F} (proj : DB -> F) :
  (forall now d i, proj (activate now d i) = proj d) ->
  (forall now d i, proj (retire now d i) = proj d) ->
  (forall d t, proj (d <| users := t |>) = proj d) ->
  (forall d t, proj (d <| user_name_claims := t |>) = proj d) ->
  (forall d t, proj (d <| user_name_change_records := t |>) = proj d) ->
  (forall d t, proj (d <| user_sessions := t |>) = proj d) ->
  (forall d t, proj (d <| follows := t |>) = proj d) ->
  (forall d t, proj (d <| notifications := t |>) = proj d) ->
  (forall id r db db', ModerationRecord.PostID r = None -> ModerationRecord.CommentID r = None ->
     insert_record id r db = inr db' -> proj db' = proj db) ->
  UserWrites (unchanged proj).
Proof.
  intros Ha Hr Hu Hcl Hch Hs Hf Hn Hrec.
  assert (forall f, (forall db, proj (f db) = proj db) ->
    Keeps (B := BeforeOp) (A := AfterOp) (unchanged proj) (exec f)) as Hexec
    by (intros f Hp; apply (keeps_exec _); exact Hp).
  split.
  - intros id fields. by apply keeps_UpdateProfile.
  - intros id name now. unfold UserRepository.ClaimUsername. solve_keeps.
    apply (keeps_stmt _). intros db r db' E.
    repeat case_match; simplify_eq; unfold unchanged; rewrite ?Hcl; done.
  - intros id now. apply (keeps_found_row _), (keeps_stmt _). intros db n db' [= _ <-]. apply Hu.
  - intros id now. apply Hexec. intros db. apply Hs.
  - intros a b. unfold UserDomain.Follow. pose proof (keeps_DbNow (unchanged proj)). solve_keeps.
    apply (keeps_stmt _). intros db r db' E.
    repeat case_match; simplify_eq; unfold unchanged; rewrite ?Hf; done.
  - intros a b. apply Hexec. intros db. apply Hf.
  - intros n. unfold NotificationRepository.Create. solve_keeps. apply (keeps_stmt _).
    intros db r db' E. case_match; simplify_eq. apply Hn.
  - intros r Hp Hc. unfold CreateRecord. solve_keeps. apply (keeps_stmt _). intros db x db'.
    destruct (insert_record _ _ _) eqn:Ei; [done|]. intros [= _ <-]. by eapply Hrec.
Qed.
End profile.

#[global] Instance view_writes_users `{Env} `{Pg} `{DbClock} : UserWrites (unchanged view).
Proof.
  apply user_writes_unchanged; try done.
  - intros. apply view_activate.
  - intros. apply view_retire.
  - intros. by eapply keeps_view_record.
Qed.

(** Relations every statement on the tables [entries] does not mention keeps. *)
Lemma entries_writes_users `{Env} `{Pg} `{DbClock} (D : relation DB) :
  (forall R (m : MT R), Keeps (unchanged entries) m -> Keeps D m) ->
  (forall r, Keeps D (CreateRecord r)) -> UserWrites D.
Proof.
  intros HD Hrec.
  assert (forall now d i, entries (retire now d i) = entries d) as Hr
    by (intros; unfold retire; by case_match).
  split; intros; try apply Hrec; apply HD.
  - by apply keeps_UpdateProfile.
  - unfold UserRepository.ClaimUsername. solve_keeps. apply (keeps_stmt _).
    intros db r db'. repeat case_match; naive_solver.
  - apply (keeps_found_row _), (keeps_stmt _). by intros db n db' [= _ <-].
  - by apply keeps_entries_exec.
  - unfold UserDomain.Follow. pose proof (keeps_DbNow (unchanged entries)). solve_keeps.
    apply (keeps_stmt _). intros db r db'. repeat case_match; naive_solver.
  - by apply keeps_entries_exec.
  - apply entries_Notification.
Qed.

#[global] Instance ledger_writes_users `{Env} `{Pg} `{DbClock} : UserWrites ledger.
Proof. apply entries_writes_users; [intros; by apply keeps_entries | apply ledger_CreateRecord]. Qed.

(** ** The operations on users *)
Section operations.
Context `{Env} `{Pg} `{Unicode} `{DbClock} (s : UserService).
Context (D : relation DB) `{!PreOrder D} `{!UserWrites D}.

Lemma keeps_claimUsername id name : Keeps D (claimUsername id name).
Proof. unfold claimUsername. solve_keeps. Qed.
#[local] Hint Resolve keeps_claimUsername : keeps.

Lemma keeps_applyManualUsernameVerdict original verdict :
  Keeps D (applyManualUsernameVerdict original verdict).
Proof. unfold applyManualUsernameVerdict. solve_keeps. Qed.

Lemma keeps_DeleteUser id viewer : Keeps D (Delete id viewer).
Proof. unfold Delete. solve_keeps. Qed.
Lemma keeps_Follow id viewer : Keeps D (Follow id viewer).
Proof. unfold Follow. solve_keeps. Qed.
Lemma keeps_Unfollow id viewer : Keeps D (Unfollow id viewer).
Proof. unfold Unfollow. solve_keeps. Qed.

Lemma keeps_reviewUserField id field content : Keeps D (reviewUserField s id field content).
Proof.
  unfold reviewUserField, UserDomain.CreateModerationRecord.
  apply (keeps_bind _); [solve_keeps|intros r]. apply (keeps_bind _); [solve_keeps|intros []].
  apply (keeps_bind _); [solve_keeps|intros now]. cbv zeta. apply keeps_if.
  eapply (keeps_if_read _ _ _ (fun rec _ =>
    ModerationRecord.PostID rec = None /\ ModerationRecord.CommentID rec = None)).
  - destruct (bool_decide _); solve_neutral.
  - intros tx rec tx' _ E. destruct (bool_decide _).
    + apply mbind_inr in E as (v & s1 & _ & E). by apply mret_inr in E as [<- _].
    + by apply mret_inr in E as [<- _].
  - intros rec. apply (keeps_if_bind _ _).
    + apply (keeps_if_on_error _ _); [|intros; solve_keeps].
      apply (keeps_if_pure (fun _ => True)). intros [Hp Hc]. by apply uw_record.
    + intros rec'. solve_keeps.
Qed.
#[local] Hint Resolve keeps_reviewUserField : keeps.

Lemma keeps_review_name id name : Keeps D (review_name s id name).
Proof. unfold review_name. solve_keeps. Qed.
Lemma keeps_moderate_fields id l : Keeps D (moderate_fields s id l).
Proof. induction l as [|[]]; cbn [moderate_fields]; solve_keeps. Qed.
#[local] Hint Resolve keeps_review_name keeps_moderate_fields : keeps.

Lemma keeps_UpdateUser id viewer input : Keeps D (Update s id viewer input).
Proof. unfold Update, with_avatar. solve_keeps. Qed.
End operations.
