(* ===== verification/ReviewOps.v ===== *)
(** * The review of one verdict, statement by statement

    [ReviewWrites D]: what [ManualReview] writes keeps the relation [D]; then so does
    [ManualReview].  It never decides a post: a record of a post is refused, and an
    image record is only taken when no waiting post shows the image. *)

From S2P Require Import Prelude.
From S2P Require Import GoText.
From S2P Require Import Apierr.
From S2P Require Import Effects.
From S2P Require Import Logic.
From S2P Require Import Model.
From S2P Require Import AuthRepo.
From S2P Require Import AuthService.
From S2P Require Import PostRepo.
From S2P Require Import CommentRepo.
From S2P Require Import Moderation.
From S2P Require Import UserService.
From S2P Require Import SingleReview.
From S2P Require Import PostTables.
From S2P Require Import PostProps.
From S2P Require Import Counters.
From S2P Require Import CommentLedger.
From S2P Require Import CommentOps.
From S2P Require Import UserOps.
Import SingleReviewRepository.
Import SingleReviewService.
Open Scope Z_scope.

Class ReviewWrites `{Env} (access : ImageAccessController) (D : relation DB) := {
  rw_image : forall id status, Keeps D (ModerationRepository.UpdateImageModeration id status);
  rw_tag : forall id verdict, Keeps D (applyManualTagVerdict id verdict);
  rw_record : forall r, ModerationRecord.PostID r = None -> Keeps D (CreateRecord r);
  rw_access : forall a r p q, Keeps D (Apply access a r p q);
}.
#[export] Hint Resolve rw_image rw_tag rw_record rw_access : keeps.

Section reads.
Context `{Env} `{Pg} `{DbClock}.

Lemma neutral_FindRecordForReview id : Neutral (FindRecordForReview id).
Proof. unfold FindRecordForReview. solve_neutral. Qed.
Lemma neutral_LockRecordForReview id : Neutral (LockRecordForReview id).
Proof. unfold LockRecordForReview. solve_neutral. Qed.
Lemma neutral_IsCurrentContentRevision r : Neutral (IsCurrentContentRevision r).
Proof. unfold IsCurrentContentRevision. solve_neutral. Qed.
Lemma neutral_LockManualTarget r : Neutral (LockManualTarget r).
Proof. unfold LockManualTarget. solve_neutral. Qed.
Lemma neutral_pending ids : Neutral (ModerationRepository.PendingPostIDsForImages ids).
Proof. unfold ModerationRepository.PendingPostIDsForImages. solve_neutral. Qed.
#[local] Hint Resolve neutral_FindRecordForReview neutral_LockRecordForReview
  neutral_IsCurrentContentRevision neutral_LockManualTarget neutral_pending : neutral.

Lemma neutral_lock_target r : Neutral (lock_target r).
Proof.
  unfold lock_target, ModerationRepository.LockPendingPostsForImage,
    ModerationRepository.LockImagesForPosts. solve_neutral.
Qed.
Lemma neutral_validateSingleReviewScope r : Neutral (validateSingleReviewScope r).
Proof. unfold validateSingleReviewScope. solve_neutral. Qed.
End reads.
#[export] Hint Resolve neutral_FindRecordForReview neutral_LockRecordForReview
  neutral_IsCurrentContentRevision neutral_lock_target neutral_validateSingleReviewScope : neutral.

(** ** What is known before the first write *)
Section review.
Context `{Env} `{Pg} `{Unicode} `{DbClock}.

(** No waiting post shows the image of the record. *)
Definition no_post_waits (r : ModerationRecord.t) (db : DB) : Prop :=
  ModerationRecord.PostID r = None /\
  forall image, ModerationRecord.ImageAssetID r = Some image ->
    ModerationRepository.awaiting_ids [image] db = [].

Lemma scope_inr r (tx : TxD) tx' :
  validateSingleReviewScope r tx = (inr tt, tx') -> no_post_waits r (tx_db tx).
Proof.
  unfold validateSingleReviewScope, no_post_waits. intros E.
  destruct (ModerationRecord.PostID r) as [p|]; [done|]. cbn in E. split; [done|].
  intros image Hi. rewrite Hi in E. apply mbind_inr in E as (ids & s1 & E1 & E).
  apply caught in E1; [|apply throws_internal].
  apply query_inr in E1 as [-> _]. by destruct (ModerationRepository.awaiting_ids _ _).
Qed.

Lemma lock_target_inr r (tx : TxD) locked tx' :
  no_post_waits r (tx_db tx) -> lock_target r tx = (inr locked, tx') ->
  ModerationRecord.ImageAssetID r <> None -> fst locked = [].
Proof.
  intros [_ Hw] E Hi. unfold lock_target in E.
  destruct (ModerationRecord.ImageAssetID r) as [image|] eqn:Hr; [|done].
  apply mbind_inr in E as (ids & s1 & E1 & E). apply mbind_inr in E as (assets & s2 & _ & E).
  apply mret_inr in E as [<- _]. cbn. apply query_inr in E1 as [-> _]. by apply Hw.
Qed.

Context (access : ImageAccessController) (D : relation DB) `{!PreOrder D}.
Context `{!CommentWrites D} `{!UserWrites D} `{!ReviewWrites access D}.

Lemma keeps_apply_verdict original record locked verdict :
  ModerationRecord.PostID original = None ->
  (ModerationRecord.ImageAssetID original <> None -> fst locked = []) ->
  Keeps D (apply_verdict access original record locked verdict).
Proof.
  intros Hp Hl. unfold apply_verdict.
  destruct (ModerationRecord.ImageAssetID original) as [image|] eqn:Hi.
  - unfold applyManualImageVerdict, ModerationService.applyImageAccess. rewrite Hl by done.
    cbn [ModerationRepository.ReconcilePendingPosts]. solve_keeps.
  - pose proof (keeps_applyManualUsernameVerdict D original verdict).
    case_match; [done|]. unfold ApplyManualTextVerdict, applyManualCommentVerdict. rewrite Hp.
    solve_keeps.
Qed.

Lemma review_record_row id (tx : TxD) r tx' :
  on_error (FindRecordForReview id) (ModerationService.to_api BizNotFound "审核记录") tx
    = (inr r, tx') -> moderation_records (tx_db tx) !! id = Some r.
Proof. intros E%caught; [by apply First_row in E | apply throws_to_api]. Qed.

(** The shape of a successful review. *)
Lemma ManualReview_inr input (tx : TxD) record tx' :
  ManualReview access input tx = (inr record, tx') ->
  exists snap locked now s8 s9 s10,
    moderation_records (tx_db tx) !! mi_MachineRecordID input = Some snap /\
    ModerationRecord.PostID snap = None /\
    (ModerationRecord.ImageAssetID snap <> None -> fst locked = []) /\
    tx_db s8 = tx_db tx /\ CreateRecord (manual_record snap input now) s8 = (inr record, s9) /\
    apply_verdict access snap record locked (mi_Verdict input) s9 = (inr tt, s10) /\
    tx_db tx' = tx_db s10.
Proof.
  intros E. unfold ManualReview in E.
  apply mbind_inr in E as ([] & s1 & [_ <-]%lift_inr & E).
  apply mbind_inr in E as (snap & s2 & E2 & E). pose proof (review_record_row _ _ _ _ E2) as Hs.
  reads E2. apply mbind_inr in E as ([] & s3 & [_ <-]%lift_inr & E).
  apply mbind_inr in E as ([] & s4 & E4 & E). pose proof (scope_inr _ _ _ E4) as Hw. reads E4.
  apply mbind_inr in E as (locked & s5 & E5 & E). apply caught in E5; [|apply throws_internal].
  rewrite <- E4 in Hw. pose proof (lock_target_inr _ _ _ _ Hw E5) as Hl. reads E5.
  apply mbind_inr in E as (original & s6 & E6 & E).
  pose proof (review_record_row _ _ _ _ E6) as Hs'. reads E6.
  rewrite E5, E4, E2, Hs in Hs'. injection Hs' as <-. destruct Hw as [Hp _].
  apply mbind_inr in E as ([] & s7 & [_ <-]%lift_inr & E).
  apply mbind_inr in E as (now & s8 & (_ & E8 & _)%Now_inr & E).
  apply mbind_inr in E as (rec & s9 & E9 & E).
  apply caught in E9; [|intros e t r1 t' E1; case_match; [done|by apply internal_inr in E1]].
  apply mbind_inr in E as ([] & s10 & E10 & E). apply mbind_inr in E as ([] & s11 & E11 & E).
  apply mret_inr in E as [-> <-].
  exists snap, locked, now, s8, s9, s10. split_and!; try done; [congruence|].
  destruct (negb _); [by reads E11|by apply mret_inr in E11 as [_ ->]].
Qed.

Lemma keeps_ManualReview input : Keeps D (ManualReview access input).
Proof.
  unfold ManualReview. apply (keeps_bind _); [solve_keeps|intros []]. apply keeps_if.
  apply (keeps_if_read _ _ _ (fun snap db =>
    moderation_records db !! mi_MachineRecordID input = Some snap)); [solve_neutral| |].
  { intros tx snap tx' _. apply review_record_row. }
  intros snap. eapply (keeps_if_read _ _ _ (fun _ _ => True)); [solve_neutral|done|intros []].
  apply (keeps_if_read _ _ _ (fun _ => no_post_waits snap)); [solve_neutral| |].
  { intros tx [] tx' _. apply scope_inr. }
  intros []. apply (keeps_if_read _ _ _ (fun locked _ =>
    ModerationRecord.ImageAssetID snap <> None -> fst locked = [])); [solve_neutral| |].
  { intros tx locked tx' [_ Hw] E%caught; [by eapply lock_target_inr | apply throws_internal]. }
  intros locked. apply (keeps_if_read _ _ _ (fun original _ =>
    original = snap /\ ModerationRecord.PostID snap = None)); [solve_neutral| |].
  { intros tx original tx' [[[[_ Hs] _] [Hp _]] _] E. apply review_record_row in E.
    split; [congruence | done]. }
  intros original. eapply (keeps_if_read _ _ _ (fun _ _ => True)); [solve_neutral|done|intros []].
  eapply (keeps_if_read _ _ _ (fun _ _ => True)); [solve_neutral|done|intros now].
  intros tx r tx' [[[[_ Hl] [-> Hp]] _] _]. revert r tx'.
  enough (Keeps D (let* record := on_error
      (ModerationRepository.CreateManualRecord (manual_record snap input now))
      (fun err => if IsUniqueViolation err "uq_mr_supersedes"
                  then api_error (Conflict BizConflict "该机器审核记录已经复核")
                  else internal err) in
    apply_verdict access snap record locked (mi_Verdict input) ;;;
    (if negb (bool_decide (mi_Verdict input = ModerationVerdictPass))
     then Alert (ModerationService.manualReviewAlert snap (mi_Verdict input) record)
     else mret tt) ;;;
    mret record)) as Hk by (intros r tx'; apply Hk).
  pose proof (fun record => keeps_apply_verdict snap record locked (mi_Verdict input) Hp Hl).
  assert (Keeps D (ModerationRepository.CreateManualRecord (manual_record snap input now)))
    by (by apply rw_record).
  solve_keeps.
Qed.

Lemma keeps_AdminManualReview input : Keeps D (AdminManualReview access input).
Proof. pose proof keeps_ManualReview. unfold AdminManualReview. solve_keeps. Qed.
End review.
