(* ===== verification/PostEdits.v ===== *)
(** * Edits of a post: [Create], [Update], [Delete], [RestoreHistory], the interactions *)

From S2P Require Import Prelude.
From S2P Require Import GoText.
From S2P Require Import Apierr.
From S2P Require Import Effects.
From S2P Require Import Logic.
From S2P Require Import Model.
From S2P Require Import AuthRepo.
From S2P Require Import AuthService.
From S2P Require Import ImageAccess.
From S2P Require Import Notifications.
From S2P Require Import Money.
From S2P Require Import PostValidation.
From S2P Require Import PostRepo.
From S2P Require Import Json.
From S2P Require Import Moderation.
From S2P Require Import PostService.
From S2P Require Import PostTables.
From S2P Require Import PostProps.
Open Scope Z_scope.
Section service.
Context `{Env} `{Pg} `{Unicode} `{DbClock} `{Decimal}.
Context (s : PostService) `{!AccessOk (ps_imageAccess s)}.

Lemma Delete_sound id actor : sound (Delete s id actor).
Proof.
  apply keeps_sound. unfold Delete, PostRepository.LockByID, owned_undeleted. solve_keeps.
Qed.

Lemma AdminDeletePost_sound id actor : sound (AdminDeletePost s id actor).
Proof. apply keeps_sound. unfold AdminDeletePost, PostRepository.LockByID. solve_keeps. Qed.

Lemma interactions_sound id user :
  sound (Like id user) /\ sound (Unlike id user) /\ sound (Favorite id user) /\
  sound (Unfavorite id user).
Proof.
  pose proof (keeps_likes user id) as (? & ? & ? & ?).
  unfold Like, Unlike, Favorite, Unfavorite, postForWrite, PostRepository.FindByID,
    PostRepository.Counters.
  split_and!; apply keeps_sound; solve_keeps.
Qed.

(** ** An edit of one post *)
(** What is left to show when only post [id] was touched, now at version [v]. *)
Lemma edit_sound id v db db' p' :
  touches (eq id) db db' -> posts_ok db ->
  posts db' !! id = Some p' -> Post.CurrentRevision p' = v -> has_version db' id v ->
  (forall k r, texts db' !! k = Some r -> texts db !! k = Some r \/
     ModerationRecord.ImageAssetID r = None /\
     exists v', of_revision id v' r = true /\ has_version db' id v') ->
  (Post.Status p' = PostStatusApproved -> text_passed db' id v) ->
  (Post.Status p' = PostStatusApproved -> PostRepository.undeleted p' = true -> images_clear db' id) ->
  posts_ok db' /\ gate db db'.
Proof.
  intros T Ho Hp' Hv Hhv Ht Htp Hic.
  assert (kept db) as Hk by (by apply posts_ok_spec in Ho as []).
  destruct (T Hk) as [Hk' T']. split.
  - apply (touches_ok (eq id) db); [done..|]. intros ? <-. split.
    + intros _ _. by eexists.
    + intros p Hp. rewrite Hp' in Hp. injection Hp as <-. by rewrite Hv.
    + intros k r Hr Hid. destruct (Ht _ _ Hr) as [Hold|(Hi & v' & Hr' & Hv')].
      * apply posts_ok_spec in Ho as [_ Ho].
        destruct (po_texts _ _ (Ho id) _ _ Hold Hid) as (? & v' & ? & ?).
        split; [done|]. exists v'. split; [done|]. by eapply touch_has_version.
      * split; [done|]. apply of_revision_spec in Hr' as [_ Hr']. eauto.
    + intros p Hp. rewrite Hp' in Hp. injection Hp as <-. rewrite Hv. auto.
  - apply (touch_gate (eq id)); [done|]. intros ? v' <- (p & Hp & Hs & Hu & Hr).
    rewrite Hp' in Hp. injection Hp as <-. rewrite <- Hr, Hv. auto.
Qed.

(** The state of an edit after its relations and its version are stored. *)
Record edited (db0 : DB) (id v : Z) (res : resolvedPostPayload) (db : DB) : Prop := {
  ed_touches : touches (eq id) db0 db;
  ed_texts : texts db = texts db0;
  ed_version : has_version db id v;
  ed_post : exists p, posts db !! id = Some p /\ Post.CurrentRevision p = v;
  ed_images : forall i, shows db id i -> i ∈ map ImageAsset.ID (rp_ImageAssets res);
  ed_assets : forall a, a ∈ rp_ImageAssets res ->
    verdicts db !! ImageAsset.ID a = Some (ImageAsset.ID a, ImageAsset.Moderation a);
}.

Definition all_clear (res : resolvedPostPayload) : Prop :=
  forall a, a ∈ rp_ImageAssets res -> image_clear (ImageAsset.Moderation a).

Lemma edited_clear db0 id v res db : edited db0 id v res db -> all_clear res -> images_clear db id.
Proof.
  intros [] Hc. apply images_clear_verdicts. intros i iv Hs Hi.
  apply ed_images0, list_elem_of_fmap in Hs as (a & -> & Ha).
  rewrite (ed_assets0 _ Ha) in Hi. injection Hi as <-. by apply Hc.
Qed.

Lemma imagesContain_false images status a :
  imagesContainModeration images status = false -> a ∈ images -> ImageAsset.Moderation a <> status.
Proof.
  unfold imagesContainModeration. intros Hf Ha Hs. apply not_true_iff_false in Hf. apply Hf.
  apply existsb_exists. exists a. split; [by apply list_elem_of_In | by apply bool_decide_eq_true].
Qed.

Lemma aggregate_approved verdict images tx tx' :
  aggregatePostModeration verdict images tx = (inr PostStatusApproved, tx') ->
  verdict = ModerationVerdictPass /\
  forall a, a ∈ images -> image_clear (ImageAsset.Moderation a).
Proof.
  unfold aggregatePostModeration. intros E. run_inv.
  repeat match goal with Hb : _ || _ = false |- _ => apply orb_false_iff in Hb as [? ?] end.
  match goal with Hb : negb _ = false |- _ => apply negb_false_iff, bool_decide_eq_true in Hb end.
  split; [done|]. intros a Ha. split_and!; by eapply imagesContain_false.
Qed.

Lemma neutral_aggregate verdict images : Neutral (aggregatePostModeration verdict images).
Proof. unfold aggregatePostModeration. solve_neutral. Qed.

Lemma alert_unless_pass_db target id result (tx : TxD) r tx' :
  alert_unless_pass target id result tx = (r, tx') -> tx_db tx' = tx_db tx.
Proof.
  revert tx r tx'. change (Neutral (alert_unless_pass target id result)).
  unfold alert_unless_pass, Alert. solve_neutral.
Qed.

Lemma neutral_validateModerationResult result : Neutral (validateModerationResult result).
Proof. unfold validateModerationResult. solve_neutral. Qed.

(** What the moderation of the text leaves. *)
Lemma finishModeration_inr id v res (tx : TxD) status tx' :
  finishModeration s id v res tx = (inr status, tx') ->
  (status <> PostStatusApproved /\ tx_db tx' = tx_db tx) \/
  exists r, adds_text id v r (tx_db tx) (tx_db tx') /\
    (status = PostStatusApproved ->
     ModerationRecord.Verdict r = ModerationVerdictPass /\ all_clear res).
Proof.
  unfold finishModeration. destruct (negb _); [intros [= <- <-]; by left|].
  unfold call_review, PostRepository.CreateModerationRecord. intros E. run_inv. right.
  match goal with Hr : CreateRecord _ ?s0 = _, Hd : tx_db ?s0 = _ |- _ =>
    apply (CreateRecord_inr id v) in Hr as [Hat Hv];
      [rewrite Hd in Hat | by apply of_revision_spec | done] end.
  match goal with Ha : alert_unless_pass _ _ _ _ = _ |- _ => apply alert_unless_pass_db in Ha end.
  match goal with Ha : validateModerationResult _ _ = _ |- _ =>
    apply neutral_validateModerationResult in Ha end.
  pose proof (neutral_aggregate _ _ _ _ _ E) as Ea.
  match type of Hat with adds_text _ _ ?r ?db1 ?db2 =>
    exists r; replace (tx_db tx') with db2 by congruence; replace (tx_db s0) with db1 by congruence
  end.
  split; [done|]. intros ->. apply aggregate_approved in E as [Hp Hc].
  split; [by rewrite Hv | exact Hc].
Qed.

Lemma marks_post db db' id p :
  marks db' = marks db -> posts db !! id = Some p ->
  exists p', posts db' !! id = Some p' /\ mark p' = mark p.
Proof.
  intros E Hp. destruct (proj1 (mark_lookup db' id (mark p))) as (p' & ? & ?); [|by exists p'].
  rewrite E. apply mark_lookup. eauto.
Qed.

Lemma UpdateStatus_inr id status (tx : TxD) tx' :
  PostRepository.UpdateStatus id status tx = (inr tt, tx') ->
  tx_db tx' = set_posts (PostRepository.by_id id) (fun p => p <| Post.Status := status |>) (tx_db tx).
Proof.
  unfold PostRepository.UpdateStatus. intros E. run_inv. by eapply update_posts_inr.
Qed.

Lemma touches_status id status db :
  touches (eq id) db
    (set_posts (PostRepository.by_id id) (fun p => p <| Post.Status := status |>) db).
Proof. apply touches_set_posts; [done|]. intros r Hr. left. symmetry. by apply Z.eqb_eq. Qed.

(** What moderation leaves of an edit. *)
Lemma finish_frame id v res (tx : TxD) status tx1 :
  finishModeration s id v res tx = (inr status, tx1) ->
  let db := tx_db tx in let db1 := tx_db tx1 in
  touches (eq id) db db1 /\ marks db1 = marks db /\ post_images db1 = post_images db /\
  verdicts db1 = verdicts db /\ versions db1 = versions db /\
  forall k r, texts db1 !! k = Some r -> texts db !! k = Some r \/
    ModerationRecord.ImageAssetID r = None /\ of_revision id v r = true.
Proof.
  intros [[_ ->]|(r & Hat & _)]%finishModeration_inr; [by split_and!; auto|].
  split; [by eapply adds_text_touches|]. destruct Hat as [(k1 & _ & Et) [? ?] (? & ? & ? & ?)].
  split_and!; try done. intros k r'. rewrite Et, lookup_insert_Some.
  intros [[<- <-]|[_ ?]]; auto.
Qed.

(** The last two steps of [Create], [Update] and of a [RestoreHistory] under review. *)
Lemma finish_sound db0 id v res (tx : TxD) status tx1 tx2 :
  posts_ok db0 -> edited db0 id v res (tx_db tx) ->
  (forall k r, texts db0 !! k = Some r -> of_revision id v r = false) ->
  finishModeration s id v res tx = (inr status, tx1) ->
  PostRepository.UpdateStatus id status tx1 = (inr tt, tx2) ->
  posts_ok (tx_db tx2) /\ gate db0 (tx_db tx2).
Proof.
  intros Ho Ed Hnone E1 E2%UpdateStatus_inr. pose proof Ed as [T Et Hv (p & Hp & Hr) _ _].
  destruct (finish_frame _ _ _ _ _ _ E1) as (T1 & Em & Ei & Edd & Ev & Hnew).
  apply finishModeration_inr in E1. rewrite E2.
  set (f := fun p : Post.t => p <| Post.Status := status |>).
  destruct (marks_post _ _ id p Em Hp) as (p1 & Hp1 & Emk). injection Emk as _ _ Er _.
  assert (kept (tx_db tx1)) as Hk1 by (apply T1, T; by apply posts_ok_spec in Ho as []).
  destruct (same_tables (tx_db tx1) (set_posts (PostRepository.by_id id) f (tx_db tx1)))
    as [Htp Hic]; [done..|].
  assert (has_version (set_posts (PostRepository.by_id id) f (tx_db tx1)) id v) as Hv2.
  { apply has_version_versions. rewrite has_version_versions, <- Ev in Hv. exact Hv. }
  apply (edit_sound id v db0 _ (f p1)); try done.
  - etrans; [exact T|]. etrans; [exact T1 | apply touches_status].
  - by rewrite set_posts_lookup, Hp1.
  - cbn. congruence.
  - intros k r Hkr. rewrite <- Et. destruct (Hnew k r Hkr) as [?|[? ?]]; eauto.
  - rewrite Htp. intros Hs. destruct E1 as [[? _]|(r1 & Hat & Hok)]; [done|].
    eapply adds_text_passed; [done|by apply Hok|left]. by rewrite Et.
  - rewrite Hic. intros Hs _. destruct E1 as [[? _]|(r1 & _ & Hok)]; [done|].
    pose proof (edited_clear _ _ _ _ _ Ed (proj2 (Hok Hs))) as Hc.
    apply images_clear_verdicts. unfold shows. rewrite Ei, Edd. by apply images_clear_verdicts.
Qed.

(** ** Resolving the payload, storing its relations *)
Lemma neutral_dictionaryError {R} r e : Neutral (dictionaryError (A := R) r e).
Proof. unfold dictionaryError. solve_neutral. Qed.
Lemma neutral_First {R} (f : DB -> option R) : Neutral (First f).
Proof. unfold First. solve_neutral. Qed.
#[local] Hint Resolve neutral_dictionaryError neutral_First : neutral.

Lemma neutral_postRepositoryError {R} e : Neutral (postRepositoryError (A := R) e).
Proof. unfold postRepositoryError. solve_neutral. Qed.
#[local] Hint Resolve neutral_postRepositoryError : neutral.

Lemma neutral_resolve n : Neutral (resolveCanteen n) /\ Neutral (resolveCuisine n) /\
  (forall c, Neutral (checkWindow n c)) /\
  (forall names, Neutral (PostRepository.FindActiveFlavorsByNames names)) /\
  (forall urls, Neutral (PostRepository.FindImagesByURLs urls)).
Proof.
  unfold resolveCanteen, resolveCuisine, checkWindow, PostRepository.FindActiveFlavorsByNames,
    PostRepository.FindImagesByURLs, PostRepository.FindActiveCanteenByCode,
    PostRepository.FindActiveWindow, PostRepository.FindActiveCuisineByName.
  split_and!; solve_neutral.
Qed.

Lemma orderImages_sub index urls assets author ordered :
  orderImages index urls assets author = inr ordered -> forall a, a ∈ ordered -> a ∈ assets.
Proof.
  revert index ordered. induction urls as [|u urls IH]; cbn [orderImages]; intros index ordered E a Ha.
  - injection E as <-. by apply elem_of_nil in Ha.
  - destruct (last _) as [a0|] eqn:Hl; [|done]. repeat (case_match; [done|]).
    simplify_eq. apply elem_of_cons in Ha as [->|Ha]; [|by eapply IH].
    apply last_Some_elem_of, list_elem_of_filter in Hl as [_ Hl]. done.
Qed.

Lemma LockImagesByIDs_inr ids (tx : TxD) l tx' :
  PostRepository.LockImagesByIDs ids tx = (inr l, tx') ->
  tx_db tx' = tx_db tx /\
  forall a, a ∈ l -> exists k, image_assets (tx_db tx) !! k = Some a.
Proof.
  unfold PostRepository.LockImagesByIDs. intros E. run_inv; split; try done; intros a Ha.
  - by apply elem_of_nil in Ha.
  - subst l. unfold PostRepository.assets_in in Ha. apply elem_of_select in Ha as [_ Ha]. done.
Qed.

Lemma resolvePostPayload_inr n author old (tx : TxD) res tx' :
  resolvePostPayload n author old tx = (inr res, tx') ->
  tx_db tx' = tx_db tx /\ rp_ImageIDs res = map ImageAsset.ID (rp_ImageAssets res) /\
  forall a, a ∈ rp_ImageAssets res -> exists k, image_assets (tx_db tx) !! k = Some a.
Proof.
  destruct (neutral_resolve n) as (N1 & N2 & N3 & N4 & N5).
  unfold resolvePostPayload. intros E. run_inv.
  repeat match goal with
  | Hr : resolveCanteen _ _ = _ |- _ => apply N1 in Hr
  | Hr : checkWindow _ _ _ = _ |- _ => apply N3 in Hr
  | Hr : resolveCuisine _ _ = _ |- _ => apply N2 in Hr
  | Hr : PostRepository.FindActiveFlavorsByNames _ _ = _ |- _ => apply N4 in Hr
  | Hr : PostRepository.FindImagesByURLs _ _ = _ |- _ => apply N5 in Hr
  | Hr : PostRepository.LockImagesByIDs _ ?t = _ |- _ => apply LockImagesByIDs_inr in Hr as [? Hin]
  end.
  match goal with Hv : validateAndOrderImages _ _ _ = _ |- _ =>
    unfold validateAndOrderImages in Hv; destruct (orderImages _ _ _ _) eqn:Ho in Hv; [done|];
    injection Hv as <- end.
  cbn. split; [congruence|]. split; [done|]. intros x Hx.
  eapply orderImages_sub in Hx; [|done].
  replace (tx_db tx) with (tx_db s5) by congruence. by apply Hin.
Qed.

Lemma keeps_replaceTags names : Keeps (unchanged view) (replaceTags s names).
Proof.
  induction names as [|n names IH]; cbn [replaceTags]; [solve_keeps|].
  unfold moderateTag, alert_unless_pass, PostRepository.CreateModerationRecord. solve_keeps.
Qed.
#[local] Hint Resolve keeps_replaceTags : keeps.

Lemma keeps_applyPostRelations id res :
  Keeps (touches (eq id)) (applyPostRelations s id res) /\
  Keeps (unchanged core) (applyPostRelations s id res).
Proof. unfold applyPostRelations. split; solve_keeps. Qed.

Lemma applyPostRelations_inr id res (tx : TxD) res' tx' :
  applyPostRelations s id res tx = (inr res', tx') ->
  touches (eq id) (tx_db tx) (tx_db tx') /\ core (tx_db tx') = core (tx_db tx) /\
  (forall i, shows (tx_db tx') id i -> i ∈ rp_ImageIDs res) /\
  rp_ImageAssets res' = rp_ImageAssets res /\ rp_ImageIDs res' = rp_ImageIDs res.
Proof.
  intros E. destruct (keeps_applyPostRelations id res) as [K1 K2].
  split; [by eapply K1|]. split; [by eapply K2|]. unfold applyPostRelations in E. run_inv.
  split; [|done]. match goal with Hr : PostRepository.ReplaceImages _ _ _ = (inr ?u, _) |- _ =>
    destruct u; exact (ReplaceImages_shows _ _ _ _ Hr) end.
Qed.

(** The version of the edit is stored. *)
Lemma appendPostHistory_inr post rev editor reason at_ (tx : TxD) tx' :
  appendPostHistory post rev editor reason at_ tx = (inr tt, tx') ->
  touches (eq (Post.ID post)) (tx_db tx) (tx_db tx') /\
  has_version (tx_db tx') (Post.ID post) rev /\
  marks (tx_db tx') = marks (tx_db tx) /\ post_images (tx_db tx') = post_images (tx_db tx) /\
  verdicts (tx_db tx') = verdicts (tx_db tx) /\ texts (tx_db tx') = texts (tx_db tx).
Proof.
  unfold appendPostHistory. intros E. run_inv.
  match goal with Hl : PostRepository.LoadSnapshotRelations _ _ = _ |- _ =>
    apply (keeps_LoadSnapshotRelations _) in Hl as Hv; unfold unchanged in Hv end.
  pose proof (keeps_CreateHistory _ _ _ _ E) as T. cbn in T.
  apply CreateHistory_inr in E as (k & _ & Ev & Em & Ei & Ed & Et). cbn in Ev.
  rewrite (view_marks _ _ Hv) in Em. rewrite (view_images _ _ Hv) in Ei.
  rewrite (view_verdicts _ _ Hv) in Ed. rewrite (view_texts _ _ Hv) in Et.
  split; [etrans; [by apply view_touches | exact T]|]. split; [|done].
  apply has_version_versions. exists k. rewrite Ev. by rewrite lookup_insert_eq.
Qed.

Lemma assets_verdicts db (l : list ImageAsset.t) :
  kept db -> (forall a, a ∈ l -> exists k, image_assets db !! k = Some a) ->
  forall a, a ∈ l ->
    verdicts db !! ImageAsset.ID a = Some (ImageAsset.ID a, ImageAsset.Moderation a).
Proof.
  intros [_ Hk] Hl a Ha. destruct (Hl _ Ha) as [k Hka]. destruct (Hk _ _ Hka) as [-> _].
  unfold verdicts. rewrite lookup_fmap, Hka. cbn. by destruct (Hk _ _ Hka) as [-> _].
Qed.

(** From the moment the post points at version [v] to the end of an edit: its
    relations, its version, its moderation and its status. *)
Lemma edit_tail_sound db0 id v res res' resm post editor reason at_ (tx tx1 tx2 tx3 tx4 : TxD) status :
  posts_ok db0 -> Post.ID post = id ->
  touches (eq id) db0 (tx_db tx) -> texts (tx_db tx) = texts db0 ->
  verdicts (tx_db tx) = verdicts db0 ->
  (exists p, posts (tx_db tx) !! id = Some p /\ Post.CurrentRevision p = v) ->
  rp_ImageIDs res = map ImageAsset.ID (rp_ImageAssets res) ->
  (forall a, a ∈ rp_ImageAssets res -> exists k, image_assets db0 !! k = Some a) ->
  (forall k r, texts db0 !! k = Some r -> of_revision id v r = false) ->
  applyPostRelations s id res tx = (inr res', tx1) ->
  appendPostHistory post v editor reason at_ tx1 = (inr tt, tx2) ->
  rp_ImageAssets resm = rp_ImageAssets res ->
  finishModeration s id v resm tx2 = (inr status, tx3) ->
  PostRepository.UpdateStatus id status tx3 = (inr tt, tx4) ->
  posts_ok (tx_db tx4) /\ gate db0 (tx_db tx4).
Proof.
  intros Ho Hid T0 Et0 Ed0 (p & Hp & Hv) Hids Has Hnone E1 E2 Hrm E3 E4.
  apply applyPostRelations_inr in E1 as (T1 & Ec & Hsh & _ & _).
  injection Ec as Em1 Ed1 Et1 _.
  apply appendPostHistory_inr in E2 as (T2 & Hv2 & Em2 & Ei2 & Ed2 & Et2). rewrite Hid in T2, Hv2.
  eapply (finish_sound db0 id v resm); [done| |done|exact E3|exact E4]. split.
  - etrans; [exact T0|]. by etrans.
  - congruence.
  - done.
  - destruct (marks_post (tx_db tx) (tx_db tx2) id p) as (p2 & Hp2 & Emk); [congruence|done|].
    injection Emk as _ _ Er _. exists p2. split; [done|congruence].
  - intros i Hi. rewrite Hrm, <- Hids. apply Hsh. unfold shows in *. by rewrite <- Ei2.
  - rewrite Hrm, Ed2, Ed1, Ed0. apply assets_verdicts; [|done]. by apply posts_ok_spec in Ho as [].
Qed.

Lemma PostRepository_Create_inr post (tx : TxD) p tx' :
  PostRepository.Create post tx = (inr p, tx') ->
  posts (tx_db tx) !! Post.ID p = None /\
  tx_db tx' = (tx_db tx) <| posts := <[Post.ID p := p]> (posts (tx_db tx)) |> /\
  Post.CurrentRevision p = Post.CurrentRevision post.
Proof.
  unfold PostRepository.Create. intros E. run_inv.
  match goal with Hs : stmt _ _ = _ |- _ => apply stmt_inr in Hs as (_ & Hs & _) end.
  replace (tx_db s1) with (tx_db tx) in E2 by congruence.
  destruct (insert_row _ _ _ _) eqn:Ei; [done|]. apply insert_row_inr in Ei as [Hn ->].
  injection E2 as <-. done.
Qed.

Lemma touches_insert p db :
  posts db !! Post.ID p = None ->
  touches (eq (Post.ID p)) db (db <| posts := <[Post.ID p := p]> (posts db) |>).
Proof.
  intros Hn [Hp Ha]. split; [split; [by apply keyed_insert|done]|]. split; try (intros; tauto).
  - intros k Hk. cbn. apply lookup_insert_is_Some'. by right.
  - intros k m Hne Hm. exists m. split; [|by split_and!]. unfold marks in *. cbn in Hm.
    by rewrite fmap_insert, lookup_insert_ne in Hm.
Qed.

Lemma Create_sound input author : sound (Create s input author).
Proof.
  intros tx r tx' E Ho. unfold Create in E. post_inv. rename a1 into post.
  apply resolvePostPayload_inr in E1 as (Edb & Hids & Has).
  apply PostRepository_Create_inr in E2 as (Hn & E2 & Hrev).
  rewrite Edb in E2, Hn. pose proof (touches_insert post (tx_db s0) Hn) as T.
  apply (edit_tail_sound (tx_db s0) (Post.ID post) 1 a0 a2 a2 post author None (Post.CreatedAt post)
    s2 s3 s4 s5 tx' a4); try done; try (by rewrite E2).
  - exists post. rewrite E2. cbn. rewrite lookup_insert_eq. split; [done|]. rewrite Hrev.
    unfold newPostModel. by destruct (budgetColumns _).
  - intros k t Hk. destruct (of_revision _ 1 t) eqn:Hr; [|done]. exfalso.
    apply of_revision_spec in Hr as [Hp _]. apply posts_ok_spec in Ho as [_ Ho].
    destruct (po_texts _ _ (Ho _) _ _ Hk Hp) as (_ & v & _ & Hv).
    destruct (po_versions _ _ (Ho _) _ Hv). congruence.
  - by apply applyPostRelations_inr in E3 as (_ & _ & _ & ? & _).
Qed.

(** The row an edit locks, and the version it will write. *)
Lemma First_Some {R} (f : DB -> option R) (tx : TxD) r tx' :
  First f tx = (inr r, tx') -> tx_db tx' = tx_db tx /\ f (tx_db tx) = Some r.
Proof. unfold First. intros E. run_inv. split; congruence. Qed.

Lemma lock_post_inr id deleted (tx : TxD) p tx' :
  kept (tx_db tx) -> PostRepository.LockByID id deleted tx = (inr p, tx') ->
  tx_db tx' = tx_db tx /\ posts (tx_db tx) !! id = Some p /\ Post.ID p = id.
Proof.
  intros [Hk _] (-> & Hf)%First_Some. apply first_Some in Hf as [[Hid _]%andb_true_iff [k Hp]].
  apply Z.eqb_eq in Hid. split; [done|]. by rewrite <- Hid, (Hk _ _ Hp).
Qed.

Lemma le_foldr_max x l : x ∈ l -> x <= foldr Z.max 0 l.
Proof.
  induction l as [|y l IH]; cbn; [by intros ?%elem_of_nil|].
  intros [->|?%IH]%elem_of_cons; lia.
Qed.

Lemma next_revision_new id db : ~ has_version db id (PostRepository.next_revision id db).
Proof.
  intros (k & h & Hk & Hp & Hr).
  assert (PostHistory.Revision h <= foldr Z.max 0 (map PostHistory.Revision
    (select (PostRepository.of_post id) (post_histories db)))) as Hle.
  { apply le_foldr_max, list_elem_of_fmap. exists h. split; [done|].
    apply elem_of_select. split; [by apply Z.eqb_eq | eauto]. }
  unfold PostRepository.next_revision in Hr. lia.
Qed.

Lemma NextHistoryRevision_inr id (tx : TxD) v tx' :
  PostRepository.NextHistoryRevision id tx = (inr v, tx') ->
  tx_db tx' = tx_db tx /\ ~ has_version (tx_db tx) id v.
Proof.
  unfold PostRepository.NextHistoryRevision. intros (_ & E & _)%stmt_inr.
  case_match; [|done]. injection E as <- <-. split; [done|]. apply next_revision_new.
Qed.

Lemma no_version_no_text db id v :
  posts_ok db -> ~ has_version db id v ->
  forall k r, texts db !! k = Some r -> of_revision id v r = false.
Proof.
  intros [_ Ho]%posts_ok_spec Hn k r Hk. destruct (of_revision id v r) eqn:Hr; [|done].
  apply of_revision_spec in Hr as [Hp Hr]. destruct Hn.
  destruct (po_texts _ _ (Ho _) _ _ Hk Hp) as (_ & v' & Hv' & ?). congruence.
Qed.

Lemma versionFields_fields res status now v p :
  Post.ID (versionFields res status now v p) = Post.ID p /\
  Post.CurrentRevision (versionFields res status now v p) = v /\
  Post.Status (versionFields res status now v p) = status /\
  PostRepository.undeleted (versionFields res status now v p) = PostRepository.undeleted p.
Proof. unfold versionFields, contentFields. by destruct (budgetColumns _). Qed.

(** [UpdateContent] of the locked post. *)
Lemma UpdateContent_inr id res status now v p (tx : TxD) tx' :
  kept (tx_db tx) -> posts (tx_db tx) !! id = Some p ->
  PostRepository.UpdateContent id (versionFields res status now v) tx = (inr tt, tx') ->
  let f := versionFields res status now v in
  tx_db tx' = set_posts (PostRepository.by_id id) f (tx_db tx) /\
  touches (eq id) (tx_db tx) (tx_db tx') /\ posts (tx_db tx') !! id = Some (f p).
Proof.
  intros Hk Hp (n & E & _)%found_row_inr. apply update_posts_inr in E. rewrite E.
  split; [done|]. split.
  - apply touches_set_posts.
    + intros r. apply versionFields_fields.
    + intros r Hr. left. symmetry. by apply Z.eqb_eq.
  - by rewrite set_posts_lookup, Hp.
Qed.

Lemma Update_sound id input author : sound (Update s id input author).
Proof.
  intros tx r tx' E Ho. unfold Update, replacePostContentVersion, owned_undeleted in E. post_inv.
  assert (kept (tx_db tx)) as Hk by (by apply posts_ok_spec in Ho as []).
  apply lock_post_inr in E0 as (Ea & Hp & Hid); [|done]. rewrite Hid in *.
  apply query_inr in E3 as (_ & Eb & _).
  apply resolvePostPayload_inr in E4 as (Ec & Hids & Has).
  apply NextHistoryRevision_inr in E9 as (Ed & Hno).
  assert (tx_db s9 = tx_db tx) as E9 by congruence.
  replace (tx_db s5) with (tx_db tx) in Hno by congruence.
  replace (tx_db s3) with (tx_db tx) in Has by congruence.
  apply (UpdateContent_inr id _ _ _ _ a) in E10 as (Eu & Tu & Hpu); [|by rewrite E9..].
  rewrite E9 in Eu, Tu.
  match type of E12 with appendPostHistory ?p _ ?e ?why ?t _ = _ =>
    apply (edit_tail_sound (tx_db tx) id a8 a3 a10 a3 p e why t s10 s11 s6 s7 tx' a6)
  end; try done; try (by rewrite Eu).
  - eexists. split; [exact Hpu|]. apply versionFields_fields.
  - by apply no_version_no_text.
Qed.

(** ** Restoring a version *)
Lemma touch_nobody_texts db db' : touch nobody db db' -> texts db' = texts db.
Proof.
  intros []. apply map_eq. intros k. apply option_eq. intros r. split; [|apply th_texts].
  intros Hr. destruct (th_new_texts _ _ Hr) as [?|(? & _ & [])]. done.
Qed.

Lemma Restore_inr id p (tx : TxD) tx' :
  kept (tx_db tx) -> posts (tx_db tx) !! id = Some p ->
  PostRepository.Restore id tx = (inr tt, tx') ->
  touches (eq id) (tx_db tx) (tx_db tx') /\ post_images (tx_db tx') = post_images (tx_db tx) /\
  verdicts (tx_db tx') = verdicts (tx_db tx) /\ texts (tx_db tx') = texts (tx_db tx) /\
  exists p', posts (tx_db tx') !! id = Some p' /\
    Post.CurrentRevision p' = Post.CurrentRevision p /\ Post.Status p' = Post.Status p.
Proof.
  intros [Hk _] Hp (n & E & _)%found_row_inr. apply update_posts_inr in E. rewrite E.
  split; [|split_and!; try done].
  - apply touches_set_posts; [done|]. intros r [Hr _]%andb_true_iff. left. symmetry. by apply Z.eqb_eq.
  - cbn. rewrite lookup_fmap, Hp. cbn. eexists. split; [done|]. by case_match.
Qed.

Lemma restore_edited db0 id v res res' deleted status now p0 (tx1 tx2 tx3 tx4 : TxD) :
  kept db0 -> posts db0 !! id = Some p0 -> has_version db0 id v ->
  touches nobody db0 (tx_db tx1) ->
  rp_ImageIDs res = map ImageAsset.ID (rp_ImageAssets res) ->
  (forall a, a ∈ rp_ImageAssets res -> exists k, image_assets (tx_db tx1) !! k = Some a) ->
  PostRepository.UpdateContent id (versionFields res status now v) tx1 = (inr tt, tx2) ->
  applyPostRelations s id res tx2 = (inr res', tx3) ->
  (if deleted : bool then on_error (PostRepository.Restore id) postRepositoryError
   else mret tt) tx3 = (inr tt, tx4) ->
  edited db0 id v res' (tx_db tx4) /\ rp_ImageAssets res' = rp_ImageAssets res /\
  exists p4, posts (tx_db tx4) !! id = Some p4 /\ Post.CurrentRevision p4 = v /\
    Post.Status p4 = status.
Proof.
  intros Hk0 Hp0 Hv T1 Hids Has E2 E3 E4. destruct (T1 Hk0) as [Hk1 N1].
  destruct (th_dom _ _ _ N1 id) as [p1 Hp1]; [by eexists|].
  apply (UpdateContent_inr id _ _ _ _ p1) in E2 as (Eu & T2 & Hp2); [|done..].
  cbn in Hp2. destruct (versionFields_fields res status now v p1) as (_ & Hr2 & Hs2 & _).
  revert Hr2 Hs2 Hp2. generalize (versionFields res status now v p1). intros p2 Hr2 Hs2 Hp2.
  apply applyPostRelations_inr in E3 as (T3 & Ec & Hsh & Hra & _). injection Ec as Em3 Ed3 Et3 _.
  destruct (marks_post _ _ _ _ Em3 Hp2) as (p3 & Hp3 & Emk). injection Emk as _ Es3 Er3 _.
  assert (touches (eq id) db0 (tx_db tx3)) as T03.
  { etrans; [by eapply touches_weaken, T1|]. by etrans. }
  assert (touches (eq id) (tx_db tx3) (tx_db tx4) /\
    post_images (tx_db tx4) = post_images (tx_db tx3) /\
    verdicts (tx_db tx4) = verdicts (tx_db tx3) /\ texts (tx_db tx4) = texts (tx_db tx3) /\
    exists p4, posts (tx_db tx4) !! id = Some p4 /\
      Post.CurrentRevision p4 = Post.CurrentRevision p3 /\ Post.Status p4 = Post.Status p3)
    as (T4 & Ei4 & Ed4 & Et4 & p4 & Hp4 & Er4 & Es4).
  { destruct deleted; cbn beta iota in E4; post_inv.
    - apply Restore_inr; [by apply T03|done|done].
    - split_and!; eauto; reflexivity. }
  assert (verdicts (tx_db tx2) = verdicts (tx_db tx1) /\ texts (tx_db tx2) = texts (tx_db tx1))
    as [Ed2 Et2] by (by rewrite Eu).
  split; [split|split; [done|]].
  - by etrans.
  - rewrite Et4, Et3, Et2. by apply touch_nobody_texts.
  - eapply touch_has_version; [|done]. by apply (transitivity T03 T4).
  - exists p4. split; [done|congruence].
  - intros i Hi. rewrite Hra, <- Hids. apply Hsh. unfold shows in *. by rewrite <- Ei4.
  - rewrite Hra, Ed4, Ed3, Ed2. by apply assets_verdicts.
  - exists p4. split_and!; congruence.
Qed.

Lemma neutral_updateInputFromSnapshot snap why : Neutral (updateInputFromSnapshot snap why).
Proof.
  unfold updateInputFromSnapshot, PostRepository.FindActiveCanteenByID,
    PostRepository.FindActiveCuisineByID. solve_neutral.
Qed.

Lemma keeps_restoreDeletedSnapshotImages id actor urls old :
  Keeps (touches nobody) (restoreDeletedSnapshotImages s id actor urls old).
Proof.
  unfold restoreDeletedSnapshotImages.
  pose proof (keeps_queries (touches nobody)) as (? & ? & ? & ? & ?). solve_keeps.
Qed.

Lemma First_inl {R} (f : DB -> option R) (tx : TxD) e tx' :
  First f tx = (inl e, tx') ->
  tx_db tx' = tx_db tx /\ (tx_aborted tx' = true \/ f (tx_db tx) = None).
Proof.
  intros [E | (r & s1 & E1 & E)]%mbind_inl.
  - apply stmt_inl in E as [? ?]. auto.
  - apply query_inr in E1 as (-> & Edb & _). destruct (f (tx_db tx)); [done|].
    injection E as _ <-. auto.
Qed.

(** The source verdict of a version: [None] when there is none, unless the
    transaction has failed already. *)
Lemma source_inr id rev (tx : TxD) source tx' :
  on_error
    (let* r := PostRepository.LatestPostModerationForRevision id rev in mret (Some r))
    (fun err => if is_not_found err then mret None else internal err) tx = (inr source, tx') ->
  tx_db tx' = tx_db tx /\
  (tx_aborted tx' = true \/ newest (of_revision id rev) (tx_db tx) = source).
Proof.
  unfold PostRepository.LatestPostModerationForRevision.
  intros [E | (e & s1 & E1 & E)]%on_error_inr.
  - apply mbind_inr in E as (r & s1 & (Edb & Hn)%First_Some & [= <- <-]). auto.
  - apply mbind_inl in E1 as [E1 | (? & ? & _ & [=])]. apply First_inl in E1 as [Edb Hn].
    destruct (is_not_found _); [|by apply internal_inr in E]. injection E as <- <-. auto.
Qed.

Lemma updateInput_aborted snap why (tx : TxD) r tx' :
  updateInputFromSnapshot snap why tx = (inr r, tx') -> tx_aborted tx = true ->
  tx_aborted tx' = true.
Proof.
  unfold updateInputFromSnapshot, PostRepository.FindActiveCanteenByID,
    PostRepository.FindActiveCuisineByID, dictionaryError, First. intros E Ha.
  repeat first
    [ match goal with Hq : query _ _ = (inr _, _) |- _ =>
        apply stmt_inr in Hq as (? & _ & ? & _) end
    | dismiss | run_inv_step ]; congruence.
Qed.

(** The two phases of [RestoreHistory]: reading, and writing the post. *)
Record restore_reads id rev (db : DB) source res status (tx1 : TxD) : Prop := {
  rr_post : is_Some (posts db !! id);
  rr_version : has_version db id rev;
  rr_source : newest (of_revision id rev) db = source;
  rr_touches : touches nobody db (tx_db tx1);
  rr_ids : rp_ImageIDs res = map ImageAsset.ID (rp_ImageAssets res);
  rr_assets : forall a, a ∈ rp_ImageAssets res ->
    exists k, image_assets (tx_db tx1) !! k = Some a;
  rr_status : forall v, source = Some v -> exists t t',
    aggregatePostModeration (ModerationRecord.Verdict v) (rp_ImageAssets res) t = (inr status, t');
}.

Record restore_writes id rev source res status (tx1 tx' : TxD) : Prop := {
  rw_run : exists res' (deleted : bool) now tx2 tx3 tx4,
    PostRepository.UpdateContent id (versionFields res status now rev) tx1 = (inr tt, tx2) /\
    applyPostRelations s id res tx2 = (inr res', tx3) /\
    (if deleted then on_error (PostRepository.Restore id) postRepositoryError
     else mret tt) tx3 = (inr tt, tx4) /\
    match source : option ModerationRecord.t with
    | Some _ => tx' = tx4
    | None => exists final, reviewRestoredPost s id rev res' tx4 = (inr final, tx')
    end;
}.

Lemma RestoreHistory_phases id rev why author (tx : TxD) r tx' :
  posts_ok (tx_db tx) -> RestoreHistory s id rev why author tx = (inr r, tx') ->
  exists source res status tx1,
    restore_reads id rev (tx_db tx) source res status tx1 /\
    restore_writes id rev source res status tx1 tx'.
Proof.
  intros Ho E. unfold RestoreHistory in E.
  apply mbind_inr in E as (p0 & s0 & E0 & E). destruct (negb _); [done|].
  apply mbind_inr in E as (h & s1 & E1 & E).
  apply mbind_inr in E as (source & s2 & E2%source_inr & E).
  apply mbind_inr in E as (input & s3 & E3 & E).
  apply mbind_inr in E as (n & ? & [= En <-] & E).
  apply mbind_inr in E as (old & s4 & E4 & E).
  apply mbind_inr in E as ([] & s5 & E5 & E).
  apply mbind_inr in E as (res & s6 & E6%resolvePostPayload_inr & E).
  apply mbind_inr in E as (status & s7 & E7 & E).
  apply mbind_inr in E as (now & s8 & E8 & E).
  apply mbind_inr in E as ([] & s9 & E9 & E).
  apply mbind_inr in E as (res' & s10 & E10 & E).
  apply mbind_inr in E as ([] & s11 & E11 & E).
  apply mbind_inr in E as (final & s12 & E12 & [= <- <-]).
  assert (kept (tx_db tx)) as Hk by (by apply posts_ok_spec in Ho as []).
  apply on_error_inr in E0 as [E0 | (? & ? & _ & E0)]; [|dismiss].
  apply lock_post_inr in E0 as (D0 & Hp0 & _); [|done].
  apply on_error_inr in E1 as [E1 | (e & ? & _ & E1)];
    [|destruct (is_not_found e); [done | by apply internal_inr in E1]].
  apply First_Some in E1 as (D1 & E1).
  apply first_Some in E1 as [[Hid%Z.eqb_eq Hrev%Z.eqb_eq]%andb_true_iff [k Hh]].
  destruct E2 as [D2 Hsrc]. pose proof (neutral_updateInputFromSnapshot _ _ _ _ _ E3) as D3.
  apply on_error_inr in E4 as [E4 | (? & ? & _ & E4)]; [|by apply internal_inr in E4].
  apply stmt_inr in E4 as (Hab & [= _ D4] & _).
  assert (newest (of_revision id rev) (tx_db tx) = source) as Hsource.
  { destruct Hsrc as [Ha|Hn]; [|by rewrite <- D0, <- D1].
    apply (updateInput_aborted _ _ _ _ _ E3) in Ha. congruence. }
  assert (touches nobody (tx_db tx) (tx_db s5)) as T.
  { replace (tx_db tx) with (tx_db s4) by congruence.
    destruct (negb _); [by eapply keeps_restoreDeletedSnapshotImages | by injection E5 as <-]. }
  destruct E6 as (D6 & Hids & Has).
  assert (tx_db s7 = tx_db s6) as D7.
  { destruct source; [by eapply neutral_aggregate | by injection E7 as _ <-]. }
  exists source, res, status, s8. injection E8 as _ <-. cbn. split; split.
  - by eexists.
  - exists k, h. split_and!; congruence.
  - done.
  - cbn. by rewrite D7, D6.
  - done.
  - cbn. by rewrite D7, D6.
  - intros v ->. eauto.
  - apply on_error_inr in E9 as [E9 | (? & ? & _ & E9)]; [|dismiss].
    apply on_error_inr in E10 as [E10 | (? & ? & _ & E10)]; [|by apply internal_inr in E10].
    exists res', (negb (bool_decide (Post.DeletedAt p0 = None))), now, s9, s10, s11.
    split_and!; try done. destruct source; [by injection E12 as _ <- | by exists final].
Qed.

Lemma RestoreHistory_sound id rev why author : sound (RestoreHistory s id rev why author).
Proof.
  intros tx r tx' E Ho.
  destruct (RestoreHistory_phases _ _ _ _ _ _ _ Ho E)
    as (source & res & status & tx1 & [[p0 Hp0] Hv Hs T Hids Has Hst] & [W]).
  destruct W as (res' & deleted & now & tx2 & tx3 & tx4 & E1 & E2 & E3 & E4).
  destruct (restore_edited (tx_db tx) id rev res res' deleted status now p0 tx1 tx2 tx3 tx4)
    as (Ed & Hra & p4 & Hp4 & Hr4 & Hs4); try done.
  { by apply posts_ok_spec in Ho as []. }
  destruct source as [v|].
  - subst tx'. destruct (Hst v eq_refl) as (t & t' & Hag).
    pose proof Ed as [T4 Et4 Hv4 _ _ _].
    apply (edit_sound id rev (tx_db tx) (tx_db tx4) p4); try done.
    + rewrite Et4. by left.
    + rewrite Hs4. intros ->. apply aggregate_approved in Hag as [Hpass _].
      apply newest_passed in Hs; [|done]. rewrite text_passed_texts, Et4, <- text_passed_texts. done.
    + rewrite Hs4. intros -> _. apply aggregate_approved in Hag as [_ Hc].
      eapply edited_clear; [done|]. intros a. rewrite Hra. apply Hc.
  - destruct E4 as [final E4]. clear E3. unfold reviewRestoredPost in E4. post_inv.
    eapply (finish_sound (tx_db tx)); [done|done| |done|done]. by apply newest_None.
Qed.
End service.

