(* ===== verification/PostReviews.v ===== *)
(** * Decisions on posts: image verdicts, reviews, administration *)

From S2P Require Import Prelude.
From S2P Require Import GoText.
From S2P Require Import Apierr.
From S2P Require Import Effects.
From S2P Require Import Logic.
From S2P Require Import Model.
From S2P Require Import AuthRepo.
From S2P Require Import AuthService.
From S2P Require Import ImageAccess.
From S2P Require Import Notifications.
From S2P Require Import Money.
From S2P Require Import PostValidation.
From S2P Require Import PostRepo.
From S2P Require Import Json.
From S2P Require Import Moderation.
From S2P Require Import PostService.
From S2P Require Import PostTables.
From S2P Require Import PostProps.
From S2P Require Import PostEdits.
Open Scope Z_scope.
Section service.
Context `{Env} `{Pg} `{Unicode} `{DbClock} `{Decimal}.
Context (s : PostService) `{!AccessOk (ps_imageAccess s)}.

(** ** Administration *)
Lemma elem_of_uniqueSortedIDs ids id : id ∈ uniqueSortedIDs ids <-> id <> 0 /\ id ∈ ids.
Proof.
  unfold uniqueSortedIDs. by rewrite elem_of_sort_by, elem_of_remove_dups, list_elem_of_filter.
Qed.

Lemma elem_of_image_ids db id i : i ∈ PostRepository.image_ids id db <-> shows db id i.
Proof.
  unfold PostRepository.image_ids, PostRepository.images_of, where_, rows_of, shows.
  rewrite list_elem_of_fmap. setoid_rewrite elem_of_sort_by. setoid_rewrite list_elem_of_filter.
  setoid_rewrite list_elem_of_fmap. setoid_rewrite Z.eqb_eq. split.
  - intros (pi & -> & Hp & [k pi'] & -> & Hk%elem_of_map_to_list). cbn in *. eauto.
  - intros (k & pi & Hk & Hp & <-). exists pi. split; [done|]. split; [done|].
    exists (k, pi). by rewrite elem_of_map_to_list.
Qed.

Lemma LockImagesByIDs_exact ids (tx : TxD) l tx' :
  PostRepository.LockImagesByIDs ids tx = (inr l, tx') ->
  tx_db tx' = tx_db tx /\ l = PostRepository.assets_in (uniqueSortedIDs ids) (tx_db tx).
Proof.
  unfold PostRepository.LockImagesByIDs. intros E. run_inv; [|by split].
  split; [done|]. symmetry. by apply select_nil.
Qed.

Lemma lockApprovedPostImages_inr id (tx : TxD) tx' :
  kept (tx_db tx) -> lockApprovedPostImages id tx = (inr true, tx') ->
  tx_db tx' = tx_db tx /\ images_clear (tx_db tx) id.
Proof.
  intros [_ Hk] E. unfold lockApprovedPostImages in E.
  apply mbind_inr in E as (ids & s1 & (-> & D1 & _)%query_inr & E).
  apply mbind_inr in E as (l & s2 & (D2 & ->)%LockImagesByIDs_exact & E).
  injection E as Hall <-. split; [congruence|]. intros i a Hs Ha.
  rewrite forallb_forall in Hall. specialize (Hall a).
  rewrite bool_decide_eq_true in Hall. rewrite Hall; [done|]. apply list_elem_of_In, elem_of_select.
  rewrite D1. split; [|eauto]. apply bool_decide_eq_true.
  destruct (Hk _ _ Ha) as [-> Hne]. apply elem_of_uniqueSortedIDs. split; [done|].
  by apply elem_of_image_ids.
Qed.

Lemma CurrentContentRevision_inr id p (tx : TxD) v tx' :
  kept (tx_db tx) -> posts (tx_db tx) !! id = Some p ->
  PostRepository.CurrentContentRevision id tx = (inr v, tx') ->
  tx_db tx' = tx_db tx /\ v = Post.CurrentRevision p.
Proof.
  intros [Hk _] Hp. unfold PostRepository.CurrentContentRevision. intros E. run_inv.
  split; [done|]. rewrite (first_unique _ _ id p) in *; [by simplify_eq/=|done| |].
  - apply Z.eqb_eq. by apply Hk.
  - intros k' r' Hk' Hid%Z.eqb_eq. by rewrite <- Hid, (Hk _ _ Hk').
Qed.

(** The administrator's verdict and the restoration, of a post that passes. *)
Lemma restore_tail_sound db0 id p1 record (tx1 tx2 tx3 : TxD) r :
  posts_ok db0 -> touches nobody db0 (tx_db tx1) -> posts (tx_db tx1) !! id = Some p1 ->
  (Post.Status p1 = PostStatusApproved -> images_clear (tx_db tx1) id) ->
  of_revision id (Post.CurrentRevision p1) record = true ->
  ModerationRecord.ImageAssetID record = None ->
  ModerationRecord.Verdict record = ModerationVerdictPass ->
  CreateRecord record tx1 = (inr r, tx2) -> PostRepository.Restore id tx2 = (inr tt, tx3) ->
  posts_ok (tx_db tx3) /\ gate db0 (tx_db tx3).
Proof.
  intros Ho T1 Hp1 Hic Hrec Hri Hrv E2 E3.
  assert (posts_ok (tx_db tx1)) as Ho1 by (by apply (touches_ok nobody db0)).
  destruct (CreateRecord_inr _ _ _ _ _ _ Hrec Hri E2) as [Hat Hv2].
  pose proof (adds_text_touches _ _ _ _ _ Hat) as T2.
  pose proof Hat as [(k2 & _ & Et2) [Hr2 Hi2] (Em2 & Eim2 & Ed2 & Ev2)].
  destruct (marks_post _ _ _ _ Em2 Hp1) as (p2 & Hp2 & Emk). injection Emk as _ Es2 Er2 _.
  assert (kept (tx_db tx2)) as Hk2 by (apply T2; by apply posts_ok_spec in Ho1 as []).
  apply (Restore_inr id p2) in E3 as (T3 & Eim3 & Ed3 & Et3 & p3 & Hp3 & Er3 & Es3); [|done..].
  pose proof (ok_current _ Ho1 _ _ Hp1) as Hcur.
  assert (has_version (tx_db tx3) id (Post.CurrentRevision p1)) as Hv3.
  { eapply touch_has_version; [by apply T3|]. rewrite has_version_versions, Ev2.
    by apply has_version_versions. }
  apply (edit_sound id (Post.CurrentRevision p1) db0 (tx_db tx3) p3); try done.
  - etrans; [by eapply touches_weaken, T1|]. by etrans.
  - congruence.
  - intros k x. rewrite Et3, Et2, lookup_insert_Some.
    rewrite <- (touch_nobody_texts db0 (tx_db tx1)) by (apply T1; by apply posts_ok_spec in Ho as []).
    intros [[<- <-]|[_ ?]]; [right; eauto | by left].
  - intros Hs. rewrite text_passed_texts, Et3, <- text_passed_texts.
    eapply adds_text_passed; [done|congruence|right]. apply (ok_approved _ Ho1); [done|congruence].
  - intros Hs _. apply images_clear_verdicts. unfold shows. rewrite Eim3, Eim2, Ed3, Ed2.
    apply images_clear_verdicts, Hic. congruence.
Qed.

Lemma AdminRestorePost_sound id actor : sound (AdminRestorePost s id actor).
Proof.
  intros tx r tx' E Ho. unfold AdminRestorePost in E.
  assert (kept (tx_db tx)) as Hk by (by apply posts_ok_spec in Ho as []).
  apply mbind_inr in E as (p0 & s0 & E0 & E). do 2 (case_match; [done|]).
  apply mbind_inr in E as (ids & s1 & E1 & E). apply mbind_inr in E as (l & s2 & E2 & E).
  apply mbind_inr in E as (now & s3 & (_ & D3 & _)%Now_inr & E).
  apply mbind_inr in E as ([] & s4 & E4 & E). apply mbind_inr in E as ([] & s5 & E5 & E).
  apply on_error_inr in E0 as [E0 | (? & ? & _ & E0)]; [|dismiss].
  apply on_error_inr in E1 as [E1 | (? & ? & _ & E1)]; [|by apply internal_inr in E1].
  apply on_error_inr in E2 as [E2 | (? & ? & _ & E2)]; [|by apply internal_inr in E2].
  apply on_error_inr in E4 as [E4 | (? & ? & _ & E4)]; [|by apply internal_inr in E4].
  apply lock_post_inr in E0 as (D0 & Hp0 & _); [|done].
  apply query_inr in E1 as (_ & D1 & _). apply LockImagesByIDs_exact in E2 as (D2 & _).
  assert (touches nobody (tx_db tx) (tx_db s4)) as T.
  { replace (tx_db tx) with (tx_db s3) by congruence.
    exact (keeps_restoreAdminPostDeleteImages _ _ _ _ _ _ _ _ _ E4). }
  destruct (T Hk) as [Hk4 N].
  destruct (th_dom _ _ _ N id) as [p1 Hp1]; [by eexists|].
  destruct (touch_post _ _ _ _ _ N (fun f => f) Hp1) as (p0' & Hp0' & Es & Er & _).
  rewrite Hp0 in Hp0'. injection Hp0' as <-.
  assert (tx_db s5 = tx_db s4 /\
    (Post.Status p1 = PostStatusApproved -> images_clear (tx_db s4) id)) as [D5 Hic].
  { rewrite Es. case_bool_decide; [|by injection E5 as <-]. post_inv.
    match goal with Hl : lockApprovedPostImages _ _ = _ |- _ =>
      by apply lockApprovedPostImages_inr in Hl as [??] end. }
  clear E5. post_inv. match goal with Hc : PostRepository.CurrentContentRevision _ _ = _ |- _ =>
    apply (CurrentContentRevision_inr id p1) in Hc as [D6 ->]; [|by rewrite D5..] end.
  unfold CreateRestorationRecord in *.
  match goal with Hr : CreateRecord ?rec ?t = (inr ?x, ?t') |- _ =>
    apply (restore_tail_sound (tx_db tx) id p1 rec t t' tx' x); try done;
    [ replace (tx_db t) with (tx_db s4) by congruence; done ..
    | by apply of_revision_spec ] end.
Qed.

(** ** Verdicts of machines and of administrators *)
(** Changes that publish nothing, the decision, and changes behind it. *)
Lemma view_ok db db' : view db' = view db -> posts_ok db -> posts_ok db'.
Proof. intros E Ho. apply (touches_ok nobody db); [by apply view_touches|done|]. by intros id []. Qed.

Lemma decided_sound P `{!forall id, Decision (P id)} db db1 db2 db3 :
  posts_ok db -> touches P db db1 -> (forall id, P id -> post_ok db1 id) ->
  (forall id v, P id -> ~ published db1 id v) ->
  decides db1 db2 -> view db3 = view db2 -> posts_ok db3 /\ gate db db3.
Proof.
  intros Ho T HP Hn D E. assert (posts_ok db1) as Ho1 by (by apply (touches_ok P db)).
  assert (kept db1) as Hk1 by (by apply posts_ok_spec in Ho1 as []). split.
  - eapply view_ok; [done|]. by eapply decides_ok.
  - eapply gate_before_view; [|done]. eapply (gate_after_touch P); [|done|by apply decides_gate].
    apply T. by apply posts_ok_spec in Ho as [].
Qed.

Section reviews.
Context (access : ImageAccessController) `{!AccessOk access}.

Lemma keeps_reconcileImageAccess asset r :
  Keeps (unchanged view) (ModerationService.reconcileImageAccess access asset r).
Proof. unfold ModerationService.reconcileImageAccess. solve_keeps. Qed.
#[local] Hint Resolve keeps_reconcileImageAccess : keeps.

Lemma keeps_duplicate callback asset :
  Keeps (unchanged view) (ModerationService.reconcileDuplicateImageResult access callback asset).
Proof.
  unfold ModerationService.reconcileDuplicateImageResult,
    ModerationRepository.FindMachineRecordByProviderJobID. solve_keeps.
Qed.

Lemma applyImageResult_sound callback job :
  sound (ModerationService.applyImageResult access callback job).
Proof.
  intros tx r tx' E Ho. unfold ModerationService.applyImageResult in E.
  apply mbind_inr in E as (u & s0 & [_ <-]%lift_inr & E).
  apply mbind_inr in E as (ids & s1 & E1 & E). apply mbind_inr in E as (assets & s2 & E2 & E).
  apply mbind_inr in E as (asset & s3 & [_ <-]%lift_inr & E).
  apply mbind_inr in E as (now & s3 & (_ & D3 & _)%Now_inr & E).
  apply mbind_inr in E as (created & s4 & E4 & E).
  unfold ModerationRepository.LockPendingPostsForImage in E1.
  unfold ModerationRepository.LockImagesForPosts in E2.
  keeps_run (unchanged view) E1. keeps_run (unchanged view) E2. keeps_run (unchanged view) E4.
  assert (view (tx_db s4) = view (tx_db tx)) as V by (unfold unchanged in *; congruence).
  destruct created as [record|].
  - apply mbind_inr in E as ([] & s5 & E5 & E). apply mbind_inr in E as (tr & s6 & E6 & E).
    apply on_error_inr in E5 as [E5 | (? & ? & _ & E5)]; [|dismiss].
    apply on_error_inr in E6 as [E6 | (? & ? & _ & E6)]; [|by apply internal_inr in E6].
    apply (keeps_UpdateImageModeration nobody) in E5.
    apply keeps_ReconcilePendingPosts in E6. keeps_run (unchanged view) E.
    apply (decided_sound nobody _ (tx_db s5) (tx_db s6)); try done;
      try (by intros ? []); try (by intros ? ? []).
    etrans; [by apply view_touches | done].
  - apply keeps_duplicate in E. split; [eapply view_ok; [|done]|]; unfold unchanged in *.
    + congruence.
    + apply (gate_before_view _ (tx_db tx)); [|congruence].
      intros id v Hp. by left.
Qed.

(** *** The manual records *)
(** A record with the target and the version of one that is there. *)
Definition about (db : DB) (r : ModerationRecord.t) : Prop :=
  exists k o, texts db !! k = Some o /\
    ModerationRecord.PostID r = ModerationRecord.PostID o /\
    ModerationRecord.ContentRevision r = ModerationRecord.ContentRevision o /\
    ModerationRecord.ImageAssetID r = ModerationRecord.ImageAssetID o.

Record manual (id : Z) (db db' : DB) : Prop := {
  mn_touches : touches (eq id) db db';
  mn_rest : marks db' = marks db /\ versions db' = versions db;
  mn_texts : forall k r, texts db' !! k = Some r -> about db r;
}.

Lemma view_manual id db db' : view db' = view db -> manual id db db'.
Proof.
  intros E. split; [by apply view_touches | by split; [apply view_marks | apply view_versions] |].
  intros k r. rewrite (view_texts _ _ E). intros Hr. by exists k, r.
Qed.

#[local] Instance manual_preorder id : PreOrder (manual id).
Proof.
  split.
  - intros db. by apply view_manual.
  - intros db1 db2 db3 [T12 [Em Ev] X12] [T23 [Em' Ev'] X23].
    split; [by etrans | split; congruence |]. intros k r Hr.
    destruct (X23 _ _ Hr) as (k2 & o2 & Ho2 & Ep2 & Er2 & Ei2).
    destruct (X12 _ _ Ho2) as (k1 & o1 & Ho1 & Ep1 & Er1 & Ei1).
    exists k1, o1. split_and!; congruence.
Qed.

Lemma keeps_view_manual id {R} (m : MT R) : Keeps (unchanged view) m -> Keeps (manual id) m.
Proof. intros Hm tx r tx' E. apply view_manual. by eapply Hm. Qed.
#[local] Hint Resolve keeps_view_manual : keeps.

Definition about_post (id : Z) (o : ModerationRecord.t) : Prop :=
  ModerationRecord.PostID o = None \/ ModerationRecord.PostID o = Some id.

(** [danshi_check_moderation_review]. *)
Lemma review_shape_about db r :
  review_shape r db = true -> ModerationRecord.SupersedesID r <> None ->
  ModerationRecord.PostID r <> None -> about db r.
Proof.
  unfold review_shape. destruct (ModerationRecord.SupersedesID r) as [k|]; [|done].
  intros [_ Hs]%andb_true_iff _ Hp. destruct (moderation_records db !! k) as [o|] eqn:Ho; [|done].
  repeat match goal with Hb : _ && _ = true |- _ => apply andb_true_iff in Hb as [Hb ?] end.
  repeat match goal with Hb : bool_decide _ = true |- _ => apply bool_decide_eq_true in Hb end.
  exists k, o. split; [|done]. apply elem_texts. split; [done|]. unfold on_a_post. congruence.
Qed.

Lemma keeps_CreateManualRecord id o input now :
  about_post id o ->
  Keeps (manual id)
    (ModerationRepository.CreateManualRecord (ModerationService.postManualRecord o input now)).
Proof.
  intros [Hn|Hp]; [apply keeps_view_manual, keeps_CreateRecord; exact Hn|].
  unfold ModerationRepository.CreateManualRecord, CreateRecord. solve_keeps.
  apply (keeps_stmt _). intros db x db'. destruct (insert_record _ _ _) eqn:Ei; [done|].
  intros [= _ <-]. apply insert_record_inr in Ei as (Hfresh & Hs & ->).
  match type of Hs with review_shape ?x _ = true => set (r := x) in * end.
  assert (ModerationRecord.PostID r = Some id) as Hr by exact Hp.
  pose proof (texts_insert_post db a r) as Et. rewrite Hr in Et. specialize (Et ltac:(done)).
  split; [|by split|].
  - apply (insert_text_touches id r); [|done|done]. exists a. split; [|exact Et].
    apply map_lookup_filter_None. by left.
  - intros k x'. rewrite Et. intros [[<- <-]|[_ Hx]]%lookup_insert_Some; [|by exists k, x'].
    apply review_shape_about in Hs; [done|done|]. by rewrite Hr.
Qed.

Lemma keeps_manual_records id input snap now pending :
  Forall (about_post id) pending ->
  Keeps (manual id) (ModerationService.manual_records input snap now pending).
Proof.
  induction 1 as [|o pending Ho _ IH]; cbn [ModerationService.manual_records]; [solve_keeps|].
  pose proof (keeps_CreateManualRecord id o input now Ho). solve_keeps.
Qed.

Lemma keeps_update_images ids status :
  Keeps (touches nobody) (ModerationService.update_images ids status).
Proof. induction ids; cbn [ModerationService.update_images]; solve_keeps. Qed.

Lemma keeps_access_images snap verdict records :
  Keeps (unchanged view) (ModerationService.access_images access snap verdict records).
Proof.
  pose proof (keeps_applyImageAccess access).
  induction records; cbn [ModerationService.access_images]; solve_keeps.
Qed.

Lemma keeps_alerts verdict records :
  Keeps (unchanged view) (ModerationService.alertPostManualBlock verdict records).
Proof. induction records as [|[]]; cbn [ModerationService.alertPostManualBlock]; solve_keeps. Qed.
#[local] Hint Resolve keeps_update_images keeps_access_images keeps_alerts : keeps.

Lemma neutral_validatePostReviewAssets assets :
  Neutral (ModerationService.validatePostReviewAssets assets).
Proof. induction assets; cbn [ModerationService.validatePostReviewAssets]; solve_neutral. Qed.

(** What the locked snapshot says of the post. *)
Lemma lockPostReviewSnapshot_inr id (tx : TxD) snap tx' :
  posts_ok (tx_db tx) ->
  ModerationService.lockPostReviewSnapshot id tx = (inr snap, tx') ->
  tx_db tx' = tx_db tx /\ Forall (about_post id) (ModerationService.rs_pending snap) /\
  forall p, posts (tx_db tx) !! id = Some p -> Post.Status p <> PostStatusApproved.
Proof.
  intros Ho. unfold ModerationService.lockPostReviewSnapshot,
    ModerationRepository.LockPostForReview, ModerationRepository.LockImagesForPost,
    ModerationRepository.LatestPostModeration,
    ModerationRepository.LockPendingReviewRecordsForPost. intros E. post_inv.
  repeat match goal with
  | Hf : First _ _ = _ |- _ => apply First_Some in Hf as [? Hf]
  | Hf : ModerationService.validatePostReviewAssets _ _ = _ |- _ =>
      apply neutral_validatePostReviewAssets in Hf
  end.
  split; [congruence|]. cbn. split.
  - apply Forall_forall. intros r. subst. replace (tx_db s3) with (tx_db tx) by congruence.
    intros [[_ Hon]%andb_true_iff [k Hr]]%elem_of_select. unfold about_post.
    destruct (ModerationRecord.PostID r) as [p|] eqn:Hp; [right|by left].
    unfold ModerationRepository.on_post in Hon. rewrite Hp in Hon.
    apply orb_true_iff in Hon as [Hon|(pi & _ & [_ Hi]%andb_true_iff)%existsb_exists].
    + by apply bool_decide_eq_true in Hon.
    + apply bool_decide_eq_true in Hi. destruct (ok_texts _ Ho _ _ _ Hr Hp). congruence.
  - intros p Hp Hs. rewrite (first_unique _ _ id p) in E0; [|done|..].
    + injection E0 as <-. by rewrite Hs in Heqb0.
    + apply Z.eqb_eq. by apply (ok_posts _ Ho).
    + intros k r Hk Hid%Z.eqb_eq. by rewrite <- Hid, (ok_posts _ Ho _ _ Hk).
Qed.

(** The review of a post that is not approved: the records, then the decision. *)
Lemma manual_not_published id db db' :
  posts_ok db -> manual id db db' ->
  (forall p, posts db !! id = Some p -> Post.Status p <> PostStatusApproved) ->
  (forall v, ~ published db' id v) /\ post_ok db' id.
Proof.
  intros Ho [T [Em Ev] X] Hn.
  assert (forall p, posts db' !! id = Some p -> exists p0, posts db !! id = Some p0 /\ mark p0 = mark p)
    as Hback by (intros p Hp; by eapply marks_post).
  assert (forall v, has_version db' id v <-> has_version db id v) as Hv
    by (intros v; by rewrite !has_version_versions, Ev).
  pose proof (proj2 (proj1 (posts_ok_spec db) Ho) id) as [P1 P2 P3 P4]. split; [|split].
  - intros v (p & Hp & Hs & _). destruct (Hback _ Hp) as (p0 & Hp0 & Emk).
    injection Emk as _ Es _ _. apply (Hn _ Hp0). congruence.
  - intros v. rewrite Hv, dom_marks, Em, <- dom_marks. apply P1.
  - intros p Hp. destruct (Hback _ Hp) as (p0 & Hp0 & Emk). injection Emk as _ _ Er _.
    rewrite Hv, <- Er. by apply P2.
  - intros k r Hr Hid. destruct (X _ _ Hr) as (k0 & o & Ho0 & Ep & Er & Ei).
    rewrite Er, Ei. setoid_rewrite Hv. apply (P3 k0 o Ho0). congruence.
  - intros p Hp Hs. destruct (Hback _ Hp) as (p0 & Hp0 & Emk). injection Emk as _ Es _ _.
    destruct (Hn _ Hp0). congruence.
Qed.

Lemma ManualReviewPost_sound input : sound (ModerationService.ManualReviewPost access input).
Proof.
  intros tx r tx' E Ho. unfold ModerationService.ManualReviewPost in E.
  apply mbind_inr in E as (? & s0 & [_ <-]%lift_inr & E).
  apply mbind_inr in E as (snap & s1 & E1 & E).
  apply mbind_inr in E as ([recs ids] & s2 & E2 & E). apply mbind_inr in E as ([] & s3 & E3 & E).
  apply lockPostReviewSnapshot_inr in E1 as (D1 & Hab & Hst); [|done].
  set (id := ModerationService.mp_PostID input) in *.
  pose proof (fun now => keeps_manual_records id input snap now _ Hab) as KM.
  unfold ModerationService.createPostManualRecords in E2. keeps_run (manual id) E2.
  rewrite D1 in E2. destruct (manual_not_published _ _ _ Ho E2 Hst) as [Hnp Hok].
  unfold ModerationService.applyPostManualVerdict,
    ModerationRepository.PendingPostIDsForImages in E3.
  apply mbind_inr in E3 as ([] & t1 & F1 & E3). apply mbind_inr in E3 as (pids & t2 & F2 & E3).
  apply mbind_inr in E3 as (tr & t3 & F3 & E3).
  apply keeps_update_images in F1. keeps_run (unchanged view) F2. keeps_run decides F3.
  keeps_run (unchanged view) E3. keeps_run (unchanged view) E.
  assert (touches nobody (tx_db s2) (tx_db t2)) as T.
  { etrans; [exact F1 | apply view_touches; exact F2]. }
  assert (kept (tx_db s2)) as Hk by (apply E2; by apply posts_ok_spec in Ho as []).
  destruct (T Hk) as [_ N].
  apply (decided_sound (eq id) _ (tx_db t2) (tx_db t3)); try done.
  - etrans; [apply E2 | by eapply touches_weaken, T].
  - intros ? <-. exact (touch_post_ok nobody _ _ _ N (fun f => f) Hok).
  - intros ? v <- (p & Hp & Hs & Hu & Hv).
    destruct (touch_post _ _ _ _ _ N (fun f => f) Hp) as (p2 & Hp2 & Es & Er & Eu).
    apply (Hnp v). exists p2. split_and!; [done|congruence|auto|congruence].
  - unfold unchanged in *. congruence.
Qed.

End reviews.

Lemma AdminReviewPost_sound id reviewer status feedback :
  sound (AdminReviewPost s id reviewer status feedback).
Proof.
  intros tx r tx' E Ho. unfold AdminReviewPost in E.
  apply mbind_inr in E as (v & ? & [_ <-]%lift_inr & E).
  apply mbind_inr in E as (raw & ? & [_ <-]%lift_inr & E).
  apply mbind_inr in E as (manuals & s1 & E1 & E). apply ManualReviewPost_sound in E1; [|done..].
  destruct (E1 Ho) as [Ho1 G]. unfold PostRepository.FindByID in E. keeps_run (unchanged view) E.
  split; [by eapply view_ok | by eapply gate_before_view].
Qed.
End service.
