(* ===== verification/PostGate.v ===== *)
(** * What publishes a post

    Every operation of the post, comment, user and moderation services, as units of
    work, and the theorems over all of them. *)

From S2P Require Import Prelude.
From S2P Require Import GoText.
From S2P Require Import Apierr.
From S2P Require Import Effects.
From S2P Require Import Logic.
From S2P Require Import Model.
From S2P Require Import AuthRepo.
From S2P Require Import AuthService.
From S2P Require Import ImageAccess.
From S2P Require Import Notifications.
From S2P Require Import Money.
From S2P Require Import PostValidation.
From S2P Require Import PostRepo.
From S2P Require Import Json.
From S2P Require Import Moderation.
From S2P Require Import UserService.
From S2P Require Import SingleReview.
From S2P Require Import PostService.
From S2P Require Import CommentService.
From S2P Require Import PostTables.
From S2P Require Import PostProps.
From S2P Require Import PostEdits.
From S2P Require Import PostReviews.
From S2P Require Import CommentOps.
From S2P Require Import UserOps.
From S2P Require Import ReviewOps.
Open Scope Z_scope.

(** ** The operations of the services *)
Record Services := mkServices {
  sv_posts : PostService;
  sv_comments : CommentService.CommentService;
  sv_users : UserService;
}.

Section process.
Context `{Env} `{Pg} `{Unicode} `{DbClock} `{Decimal}.
Context (sv : Services).
Abbreviation s := (sv_posts sv).
Abbreviation access := (ps_imageAccess s).
Context `{!AccessOk access}.

Inductive PostOp :=
| OpCreate (input : CreatePostInput) (author : Z)
| OpUpdate (id : Z) (input : UpdatePostInput) (author : Z)
| OpDelete (id author : Z)
| OpRestoreHistory (id revision : Z) (reason : option string) (author : Z)
| OpLike (id user : Z)
| OpUnlike (id user : Z)
| OpFavorite (id user : Z)
| OpUnfavorite (id user : Z)
| OpAdminDelete (id actor : Z)
| OpAdminRestore (id actor : Z)
| OpAdminReview (id reviewer : Z) (status : string) (feedback : option string)
| OpImageCallback (callback : ImageModerationCallback)
| OpImageResult (callback : ImageModerationCallback)
| OpManualReview (input : SingleReviewService.ManualReviewInput)
| OpCommentCreate (post : Z) (input : CommentService.CreateCommentInput) (author : Z)
| OpCommentUpdate (id : Z) (input : CommentService.UpdateCommentInput) (author : Z)
| OpCommentDelete (id author : Z)
| OpCommentLike (id user : Z)
| OpCommentUnlike (id user : Z)
| OpAdminDeleteComment (id actor : Z)
| OpAdminRestoreComment (id actor : Z)
| OpUserUpdate (id viewer : Z) (input : UpdateUserInput)
| OpUserDelete (id viewer : Z)
| OpFollow (target user : Z)
| OpUnfollow (target user : Z).

Definition discard {R} (m : MT R) : MT unit := let* _ := m in mret tt.

Definition run_op (op : PostOp) : MT unit :=
  match op with
  | OpCreate input author => discard (Create s input author)
  | OpUpdate id input author => discard (Update s id input author)
  | OpDelete id author => Delete s id author
  | OpRestoreHistory id revision reason author =>
      discard (RestoreHistory s id revision reason author)
  | OpLike id user => discard (Like id user)
  | OpUnlike id user => discard (Unlike id user)
  | OpFavorite id user => discard (Favorite id user)
  | OpUnfavorite id user => discard (Unfavorite id user)
  | OpAdminDelete id actor => discard (AdminDeletePost s id actor)
  | OpAdminRestore id actor => discard (AdminRestorePost s id actor)
  | OpAdminReview id reviewer status feedback =>
      discard (AdminReviewPost s id reviewer status feedback)
  | OpImageCallback callback =>
      discard (ModerationService.ApplyImageCallback (ps_imageAccess s) callback)
  | OpImageResult callback =>
      discard (ModerationService.ApplyImageResult (ps_imageAccess s) callback)
  | OpManualReview input => discard (SingleReviewService.AdminManualReview access input)
  | OpCommentCreate post input author =>
      discard (CommentService.Create (sv_comments sv) post input author)
  | OpCommentUpdate id input author =>
      discard (CommentService.Update (sv_comments sv) id input author)
  | OpCommentDelete id author => CommentService.Delete id author
  | OpCommentLike id user => discard (CommentService.Like id user)
  | OpCommentUnlike id user => discard (CommentService.Unlike id user)
  | OpAdminDeleteComment id actor => discard (CommentService.AdminDeleteComment id actor)
  | OpAdminRestoreComment id actor => discard (CommentService.AdminRestoreComment id actor)
  | OpUserUpdate id viewer input => discard (UserService.Update (sv_users sv) id viewer input)
  | OpUserDelete id viewer => discard (UserService.Delete id viewer)
  | OpFollow target user => discard (UserService.Follow target user)
  | OpUnfollow target user => discard (UserService.Unfollow target user)
  end.

Lemma discard_sound {R} (m : MT R) : sound m -> sound (discard m).
Proof. intros Hm tx [] tx' E. unfold discard in E. run_inv. by eapply Hm. Qed.

Lemma view_sound {R} (m : MT R) : Keeps (unchanged view) m -> sound m.
Proof. intros Hm. apply keeps_sound. by apply keeps_touches. Qed.

#[local] Instance touches_comments : CommentWrites (touches nobody).
Proof. split; intros; by apply keeps_touches, view_writes_comments. Qed.
#[local] Instance touches_users : UserWrites (touches nobody).
Proof. split; intros; by apply keeps_touches, view_writes_users. Qed.
#[local] Instance touches_reviews : ReviewWrites access (touches nobody).
Proof.
  split; intros.
  - by apply keeps_UpdateImageModeration.
  - apply keeps_touches. unfold SingleReviewRepository.applyManualTagVerdict. solve_keeps.
    by apply keeps_view_exec.
  - by apply keeps_touches, keeps_CreateRecord.
  - by apply keeps_touches, access_view.
Qed.

Lemma run_op_sound op : sound (run_op op).
Proof.
  destruct op; cbn [run_op]; try apply discard_sound.
  - by apply PostEdits.Create_sound.
  - by apply PostEdits.Update_sound.
  - by apply PostEdits.Delete_sound.
  - by apply RestoreHistory_sound.
  - by apply (interactions_sound id user).
  - by apply (interactions_sound id user).
  - by apply (interactions_sound id user).
  - by apply (interactions_sound id user).
  - by apply AdminDeletePost_sound.
  - by apply AdminRestorePost_sound.
  - by apply AdminReviewPost_sound.
  - by apply applyImageResult_sound.
  - by apply applyImageResult_sound.
  - apply keeps_sound. by apply (keeps_AdminManualReview _ _).
  - by apply view_sound, view_CreateComment.
  - by apply view_sound, (keeps_Update _ _).
  - by apply view_sound, (keeps_Delete _).
  - by apply view_sound, (keeps_Like _).
  - by apply view_sound, (keeps_Unlike _).
  - by apply view_sound, (keeps_AdminDeleteComment _).
  - by apply view_sound, (keeps_AdminRestoreComment _).
  - by apply view_sound, (keeps_UpdateUser _ _).
  - by apply view_sound, (keeps_DeleteUser _).
  - by apply view_sound, (keeps_Follow _).
  - by apply view_sound, (keeps_Unfollow _).
Qed.

(** A unit of work, committed or rolled back. *)
Lemma keeps_interp_before op : Keeps (unchanged view) (interp_before op).
Proof.
  destruct op as [sid now]. cbn. unfold SessionRepository.Touch. solve_keeps.
  by apply keeps_view_exec.
Qed.

Context {X : Type}.
Abbreviation WorldD := (World DB X).

Lemma unit_of_work_sound op (w : WorldD) r w' :
  RunInTx interp_before (run_op op) w = (r, w') -> posts_ok (w_db w) ->
  posts_ok (w_db w') /\ gate (w_db w) (w_db w').
Proof.
  intros E Ho. apply RunInTx_cases in E
    as [(e & _ & -> & _) | (v & tx & tx1 & _ & E1 & E2 & _ & -> & _)].
  - split; [done|]. intros id u Hp. by left.
  - destruct (run_op_sound _ _ _ _ E1 Ho) as [Ho1 G]. cbn in G.
    assert (view (tx_db tx1) = view (tx_db tx)) as V.
    { eapply (keeps_run_before (unchanged view)) in E2; [exact E2|]. apply keeps_interp_before. }
    split; [by eapply view_ok | by eapply gate_before_view].
Qed.

(** The process between units of work: an operation, or anything that touches no
    post (the rest of the service, an upload, a purge). *)
Inductive post_step : WorldD -> WorldD -> Prop :=
| step_op op r w w' :
    RunInTx interp_before (run_op op) w = (r, w') -> post_step w w'
| step_other w w' :
    touches nobody (w_db w) (w_db w') -> post_step w w'.

(** C2: The publication gate.  Whatever an operation of the post, comment, user
    and moderation services does (creating, editing, deleting and restoring posts,
    versions and comments, interactions, profiles and follows, administrators'
    deletions, restorations and reviews of posts and of single records, the verdicts of
    image providers), committed or rolled back: a post that is public afterwards was
    public before in the same version with the same images, or the last verdict on the
    text of its current version lets it pass and none of its images is pending, in
    review or blocked. *)
Theorem publication_gate op (w : WorldD) r w' :
  posts_ok (w_db w) -> RunInTx interp_before (run_op op) w = (r, w') ->
  gate (w_db w) (w_db w').
Proof. intros Ho E. by eapply unit_of_work_sound. Qed.

(** C4: The operations of the post, comment, user and moderation services keep the
    tables of the posts consistent: over any sequence of their units of work,
    interleaved with steps that touch no post, every post points at a version that is
    stored, every text verdict names a stored version of its post and nothing else (the
    deferred foreign keys of migration 00017 and the single-target check never fail at
    commit), and the text of the current version of every approved post has passed.
    Two operations that touch posts are outside this sequence, because they break the
    last part: approving a dictionary suggestion that has a source post
    ([DictionaryApproval.approval_leaves_version_unjudged]) and renaming or merging a
    tag ([AdminTagsProps.tag_change_stops_review]). *)
Theorem posts_ok_invariant (w w' : WorldD) :
  rtc post_step w w' -> posts_ok (w_db w) -> posts_ok (w_db w').
Proof.
  induction 1 as [|w w1 w2 Hs _ IH]; [done|]. intros Ho. apply IH.
  destruct Hs as [op r w w1 E | w w1 T]; [by eapply unit_of_work_sound|].
  apply (touches_ok nobody (w_db w)); [done..|]. by intros id [].
Qed.
End process.
