(* ===== verification/PostLedger.v ===== *)
(** * What no operation takes back, and the counters

    Every statement of the post, moderation, comment and user services keeps the
    [ledger] of [Counters]: records and versions are only appended to, and the counters
    of posts and comments are those of a full recount. *)

From S2P Require Import Prelude.
From S2P Require Import GoText.
From S2P Require Import Apierr.
From S2P Require Import Effects.
From S2P Require Import Logic.
From S2P Require Import Model.
From S2P Require Import AuthRepo.
From S2P Require Import AuthService.
From S2P Require Import ImageAccess.
From S2P Require Import Notifications.
From S2P Require Import Money.
From S2P Require Import PostValidation.
From S2P Require Import PostRepo.
From S2P Require Import Moderation.
From S2P Require Import SingleReview.
From S2P Require Import PostService.
From S2P Require Import PostTables.
From S2P Require Import PostProps.
From S2P Require Import Floors.
From S2P Require Import Counters.
From S2P Require Import PostReviews.
From S2P Require Import CommentLedger.
From S2P Require Import CommentOps.
From S2P Require Import UserOps.
From S2P Require Import ReviewOps.
From S2P Require Import PostOps.
From S2P Require Import PostGate.
Open Scope Z_scope.

(** ** Tables the ledger does not mention *)
Lemma entries_set_posts p f db :
  (forall r, counts (f r) = counts r) -> entries (set_posts p f db) = entries db.
Proof.
  intros Hf. unfold entries, tally, set_posts. cbn -[update_where]. do 6 f_equal.
  by apply update_where_fmap.
Qed.

Lemma entries_foldl (f : DB -> Z -> DB) l db :
  (forall db id, entries (f db id) = entries db) -> entries (foldl f db l) = entries db.
Proof. intros Hf. revert db. induction l; intros db; cbn; [done|]. by rewrite IHl. Qed.
Lemma entries_retire now db id : entries (retire now db id) = entries db.
Proof. unfold retire. by case_match. Qed.

(** ** Statements *)
Section statements.
Context `{Env}.

Lemma ledger_CreateMachineRecordIfNew record :
  Keeps ledger (ModerationRepository.CreateMachineRecordIfNew record).
Proof.
  unfold ModerationRepository.CreateMachineRecordIfNew. solve_keeps. apply (keeps_stmt _).
  intros db r db'. case_match; [by intros [= _ <-]|].
  destruct (insert_record _ _ _) eqn:Ei; [done|]. intros [= _ <-].
  by eapply ledger_insert_record.
Qed.

Lemma entries_DeleteForAsset id : Keeps (unchanged entries) (ModerationRepository.DeleteForAsset id).
Proof. by apply keeps_entries_exec. Qed.

Context `{Pg} `{DbClock}.
Import PostRepository.

Lemma entries_update_posts p f :
  (forall r, counts (f r) = counts r) -> Keeps (unchanged entries) (update_posts p f).
Proof.
  intros Hf. unfold update_posts. apply (keeps_stmt _). intros db r db' [= _ <-].
  by apply entries_set_posts.
Qed.

Lemma entries_UpdateContent id res status now v :
  Keeps (unchanged entries) (UpdateContent id (versionFields res status now v)).
Proof.
  apply (keeps_found_row _), entries_update_posts. intros p.
  unfold versionFields, contentFields. by destruct (budgetColumns _).
Qed.
Lemma entries_UpdateStatus id status : Keeps (unchanged entries) (UpdateStatus id status).
Proof.
  unfold UpdateStatus. apply (keeps_bind _); [by apply entries_update_posts | solve_keeps].
Qed.
Lemma entries_SoftDelete id actor reason now :
  Keeps (unchanged entries) (SoftDelete id actor reason now).
Proof. by apply (keeps_found_row _), entries_update_posts. Qed.
Lemma entries_Restore id : Keeps (unchanged entries) (Restore id).
Proof. by apply (keeps_found_row _), entries_update_posts. Qed.

Lemma entries_decide_posts ids p status :
  Keeps (unchanged entries) (ModerationRepository.decide_posts ids p status).
Proof.
  unfold ModerationRepository.decide_posts. apply (keeps_stmt _). intros db n db' [= _ <-].
  by apply (entries_set_posts _ _ db).
Qed.

Lemma entries_UpdateImageModeration id status :
  Keeps (unchanged entries) (ModerationRepository.UpdateImageModeration id status).
Proof. apply (keeps_found_row _), (keeps_stmt _). by intros db r db' [= _ <-]. Qed.

Lemma ledger_CreateHistory h : Keeps ledger (CreateHistory h).
Proof.
  unfold CreateHistory. solve_keeps. apply (keeps_stmt _). intros db r db'.
  case_match; [done|]. destruct (insert_row _ _ _ _) eqn:Ei; [done|].
  apply insert_row_inr in Ei as [Hn ->]. intros [= _ <-]. apply ledger_same; [done| |done..].
  cbn. by apply insert_subseteq.
Qed.

(** A new post has no rows yet, and its counters are zero. *)
Lemma ledger_Create post : Keeps ledger (Create post).
Proof.
  unfold Create. solve_keeps. apply (keeps_stmt _). intros db r db'.
  match goal with |- context [insert_row _ ?k ?p _] => set (post' := p); set (id := k) end.
  destruct (insert_row _ _ _ _) eqn:Ei; [done|].
  apply insert_row_inr in Ei as [Hn ->]. intros [= _ <-]. split; [done..|].
  intros [[Hk Hl Hf Hkc Hcl Hpl] Hp Hc]. split; [split|..]; try done; cbn.
  - by apply keyed_insert.
  - intros u i Hi. apply lookup_insert_is_Some'. right. eauto.
  - intros u i Hi. apply lookup_insert_is_Some'. right. eauto.
  - intros k m Hm. apply (placed_posts (posts db)); [|by eapply Hpl].
    intros i p Hpi. exists p. split; [|done]. rewrite lookup_insert_ne; [done|]. congruence.
  - intros i p [[<- <-]|[Hne Hpi]]%lookup_insert_Some; [|by apply Hp]. cbn.
    rewrite !holders_none, shown_comments_none; [done|..].
    + intros k m Hm E. destruct (Hpl _ _ Hm) as [(p & Hpi & _) _]. congruence.
    + intros u. apply eq_None_not_Some. intros [? ?]%Hf. congruence.
    + intros u. apply eq_None_not_Some. intros [? ?]%Hl. congruence.
Qed.

Lemma entries_FindOrCreateTag name : Keeps (unchanged entries) (FindOrCreateTag name).
Proof.
  unfold FindOrCreateTag. pose proof (keeps_DbNow (unchanged entries)). solve_keeps.
  apply (keeps_stmt _). intros db r db'. case_match; naive_solver.
Qed.
Lemma entries_SetTagModeration id status at_ :
  Keeps (unchanged entries) (SetTagModeration id status at_).
Proof. unfold SetTagModeration. solve_keeps. by apply keeps_entries_exec. Qed.
Lemma entries_ReplaceTags id tags : Keeps (unchanged entries) (ReplaceTags id tags).
Proof.
  unfold ReplaceTags. solve_keeps; [by apply keeps_entries_exec|].
  apply (keeps_stmt _). intros db r db'. case_match; naive_solver.
Qed.
Lemma entries_ReplaceFlavors id ty fs st : Keeps (unchanged entries) (ReplaceFlavors id ty fs st).
Proof.
  unfold ReplaceFlavors. solve_keeps; [by apply keeps_entries_exec|].
  apply (keeps_stmt _). intros db r db'. case_match; naive_solver.
Qed.
Lemma entries_ReplaceImages id ids : Keeps (unchanged entries) (ReplaceImages id ids).
Proof.
  unfold ReplaceImages. pose proof (keeps_DbNow (unchanged entries)). solve_keeps.
  - apply keeps_entries_exec. intros db. unfold delete_images.
    rewrite entries_foldl; [done|]. intros. apply entries_retire.
  - apply (keeps_stmt _). intros db r db'. unfold insert_images. case_match; [done|].
    destruct (insert_rows _ _ _ _); [done|]. intros [= _ <-]. unfold unchanged.
    by rewrite entries_foldl.
Qed.
Lemma entries_LoadSnapshotRelations id : Keeps (unchanged entries) (LoadSnapshotRelations id).
Proof. unfold LoadSnapshotRelations. solve_keeps. Qed.
(** *** Likes and favourites: the row and its counter together *)
(** A table of rows and the counter of a post that goes with it; the other table and
    its counter do not move. *)
Lemma counters_bump f id db likes favs :
  (forall p, Post.ID (f p) = Post.ID p /\ Post.AuthorID (f p) = Post.AuthorID p /\
     Post.CommentCount (f p) = Post.CommentCount p) -> counters_ok db ->
  (forall u i, is_Some (likes !! (u, i)) -> is_Some (posts db !! i)) ->
  (forall u i, is_Some (favs !! (u, i)) -> is_Some (posts db !! i)) ->
  (forall p, Post.LikeCount p = holders (Post.ID p) (post_likes db) ->
     Post.FavoriteCount p = holders (Post.ID p) (favorites db) ->
     Post.ID p = id ->
     Post.LikeCount (f p) = holders id likes /\ Post.FavoriteCount (f p) = holders id favs) ->
  (forall i, i <> id -> holders i likes = holders i (post_likes db) /\
     holders i favs = holders i (favorites db)) ->
  counters_ok (bump f id (db <| post_likes := likes |> <| favorites := favs |>)).
Proof.
  intros Hsame [[Hk _ _ Hkc Hcl Hpl] He Hc] Hl Hf Hat Hother.
  pose proof (bump_lookup f id db Hk) as Hb.
  assert (forall i p', posts (bump f id db) !! i = Some p' -> exists p, posts db !! i = Some p /\
    Post.ID p = i /\ p' = (if decide (i = id) then f p else p)) as Hback.
  { intros i p' Hp'. rewrite Hb in Hp'. apply fmap_Some in Hp' as (p & Hp & ->). exists p.
    split_and!; [done|by apply Hk|by case_decide]. }
  split; [split|..].
  - intros i p' Hp'. destruct (Hback _ _ Hp') as (p & _ & Hi & ->).
    case_decide; by rewrite ?(proj1 (Hsame p)).
  - intros u i Hi. eapply (bump_dom f id db); [done|by eapply Hl].
  - intros u i Hi. eapply (bump_dom f id db); [done|by eapply Hf].
  - exact Hkc.
  - exact Hcl.
  - intros k m Hm. apply (placed_posts (posts db)); [|by eapply Hpl].
    apply (bump_authors f id db); [|done]. intros p. by destruct (Hsame p) as (_ & ? & _).
  - intros i p' Hp'. destruct (Hback _ _ Hp') as (p & Hp & Hi & ->).
    destruct (He _ _ Hp) as (E1 & E2 & E3). destruct (Hsame p) as (_ & _ & Ecc).
    change (cmarks _) with (cmarks db). case_decide as Hd; cbn.
    + rewrite Hd in *. rewrite Ecc, E3. destruct (Hat p); by rewrite ?Hi.
    + destruct (Hother _ Hd) as [-> ->]. done.
  - exact Hc.
Qed.

(** The four updates. *)
Section updates.
Context (user id : Z) (db : DB) (Hc : counters_ok db).

Lemma counters_liked x :
  post_likes db !! (user, id) = None -> is_Some (posts db !! id) ->
  counters_ok (bump liked id (db <| post_likes := <[(user, id) := x]> (post_likes db) |>)).
Proof.
  intros Hn Hp. pose proof Hc as [[_ Hl Hf _ _ _] _ _].
  apply (counters_bump liked id db (<[(user, id) := x]> (post_likes db)) (favorites db)); try done.
  - by apply fk_insert.
  - intros p El Ef <-. cbn. rewrite holders_insert, decide_True by done. lia.
  - intros i Hi. rewrite holders_insert, decide_False by done. lia.
Qed.

Lemma counters_unliked :
  is_Some (post_likes db !! (user, id)) ->
  counters_ok (bump unliked id (db <| post_likes := delete (user, id) (post_likes db) |>)).
Proof.
  intros Hs. pose proof Hc as [[_ Hl Hf _ _ _] _ _].
  apply (counters_bump unliked id db (delete (user, id) (post_likes db)) (favorites db)); try done.
  - by apply fk_delete.
  - intros p El Ef <-. pose proof (holders_nonneg (Post.ID p) (delete (user, Post.ID p) (post_likes db))).
    rewrite holders_delete, decide_True in * by done. cbn. lia.
  - intros i Hi. rewrite holders_delete, decide_False by done. lia.
Qed.

Lemma counters_favorited x :
  favorites db !! (user, id) = None -> is_Some (posts db !! id) ->
  counters_ok (bump favorited id (db <| favorites := <[(user, id) := x]> (favorites db) |>)).
Proof.
  intros Hn Hp. pose proof Hc as [[_ Hl Hf _ _ _] _ _].
  apply (counters_bump favorited id db (post_likes db) (<[(user, id) := x]> (favorites db))); try done.
  - by apply fk_insert.
  - intros p El Ef <-. cbn. rewrite holders_insert, decide_True by done. lia.
  - intros i Hi. rewrite holders_insert, decide_False by done. lia.
Qed.

Lemma counters_unfavorited :
  is_Some (favorites db !! (user, id)) ->
  counters_ok (bump unfavorited id (db <| favorites := delete (user, id) (favorites db) |>)).
Proof.
  intros Hs. pose proof Hc as [[_ Hl Hf _ _ _] _ _].
  apply (counters_bump unfavorited id db (post_likes db) (delete (user, id) (favorites db))); try done.
  - by apply fk_delete.
  - intros p El Ef <-. pose proof (holders_nonneg (Post.ID p) (delete (user, Post.ID p) (favorites db))).
    rewrite holders_delete, decide_True in * by done. cbn. lia.
  - intros i Hi. rewrite holders_delete, decide_False by done. lia.
Qed.
End updates.

Lemma ledger_likes user id :
  Keeps ledger (Like user id) /\ Keeps ledger (Unlike user id) /\
  Keeps ledger (Favorite user id) /\ Keeps ledger (Unfavorite user id).
Proof.
  unfold Like, Unlike, Favorite, Unfavorite, has_post.
  split_and!; solve_keeps; apply (keeps_stmt _); intros db r db';
    repeat case_match; intros [= _ <-]; try done;
    repeat match goal with Hp : negb _ = false |- _ =>
      apply negb_false_iff, bool_decide_eq_true in Hp end;
    (split; [done..|]; intros Hc).
  - by apply counters_liked.
  - by apply counters_unliked.
  - by apply counters_favorited.
  - by apply counters_unfavorited.
Qed.
End statements.

#[export] Hint Resolve ledger_CreateRecord ledger_CreateMachineRecordIfNew entries_DeleteForAsset
  entries_UpdateContent entries_UpdateStatus entries_SoftDelete entries_Restore
  entries_decide_posts entries_UpdateImageModeration ledger_CreateHistory ledger_Create
  entries_FindOrCreateTag entries_SetTagModeration entries_ReplaceTags entries_ReplaceFlavors
  entries_ReplaceImages entries_LoadSnapshotRelations entries_Notification : keeps.

(** ** The operations *)
Class AccessLedger (access : ImageAccessController) :=
  access_ledger : forall asset source public purge,
    Keeps ledger (Apply access asset source public purge).

#[global] Instance discard_ledger : AccessLedger DiscardAccess.
Proof. intros a r p q. cbn. solve_keeps. Qed.
#[global] Instance durable_ledger `{Env} : AccessLedger DurableAccess.
Proof.
  intros a r p q. cbn. unfold DurableImageAccess_Apply, ImageAccessOutbox.Enqueue.
  solve_keeps. apply (keeps_stmt _). intros db n db' E. apply ledger_entries.
  unfold ImageAccessOutbox.enqueue in E. repeat case_match; naive_solver.
Qed.
#[export] Hint Resolve access_ledger : keeps.

#[global] Instance ledger_posts `{Env} `{Pg} `{DbClock} access `{!AccessLedger access} :
  PostWrites access ledger.
Proof.
  split; intros; try (by apply access_ledger); try (by apply (ledger_likes user id)); solve_keeps.
Qed.

Section process.
Context `{Env} `{Pg} `{Unicode} `{DbClock} `{Decimal}.
Context (sv : Services).
Abbreviation access := (ps_imageAccess (sv_posts sv)).
Context `{!AccessLedger access}.

#[local] Instance ledger_reviews : ReviewWrites access ledger.
Proof.
  split; intros; try solve_keeps. unfold SingleReviewRepository.applyManualTagVerdict.
  solve_keeps. apply keeps_entries. by apply keeps_entries_exec.
Qed.

Lemma run_op_ledger op : Keeps ledger (run_op sv op).
Proof.
  pose proof (ops_writes (sv_posts sv) ledger) as (? & ? & ? & ?).
  pose proof (ops_decisions access ledger) as (_ & ? & _).
  pose proof (keeps_AdminManualReview access ledger).
  pose proof (ledger_CreateComment (sv_comments sv)). pose proof (keeps_Update (sv_comments sv) ledger).
  pose proof (keeps_Delete ledger). pose proof (keeps_Like ledger). pose proof (keeps_Unlike ledger).
  pose proof (keeps_AdminDeleteComment ledger). pose proof (keeps_AdminRestoreComment ledger).
  pose proof (keeps_UpdateUser (sv_users sv) ledger). pose proof (keeps_DeleteUser ledger).
  pose proof (keeps_Follow ledger). pose proof (keeps_Unfollow ledger).
  destruct op; cbn [run_op]; unfold discard, ModerationService.ApplyImageCallback,
    ModerationService.ApplyImageResult;
    try pose proof (ops_interactions ledger id user) as (? & ? & ? & ?);
    try pose proof (ops_admin (sv_posts sv) ledger id actor) as (? & ? & ?);
    try pose proof (ops_admin (sv_posts sv) ledger id reviewer) as (? & ? & ?); solve_keeps.
Qed.

Lemma ledger_interp_before op : Keeps ledger (interp_before op).
Proof.
  destruct op as [sid now]. cbn. unfold SessionRepository.Touch. apply keeps_entries.
  by apply keeps_entries_exec.
Qed.

Context {X : Type}.

(** C7: Whatever an operation does, committed or rolled back: no moderation record, no
    stored version of a post and no stored version of a comment is changed or removed
    (operations only append), and the counters of posts and comments stay right when
    they were. *)
Theorem ledger_kept op (w : World DB X) r w' :
  RunInTx interp_before (run_op sv op) w = (r, w') -> ledger (w_db w) (w_db w').
Proof.
  intros E. apply (keeps_RunInTx _ _ _ _ _ _ ledger_interp_before (run_op_ledger op) E).
Qed.

(** A unit of work, committed or rolled back. *)
Definition unit_step (w w' : World DB X) : Prop :=
  exists op r, RunInTx interp_before (run_op sv op) w = (r, w').

(** C9: The counters the triggers keep one row at a time are those a full recount
    computes: from tables whose comments stand in floors and on which
    [danshi_recount_all] changes nothing, every sequence of units of work leads to such
    tables.  So every post counts its likes, its favourites and the comments shown under
    it, and every comment its likes and the replies shown on its floor, however
    comments are created, reviewed, deleted and restored. *)
Theorem recount_changes_nothing (w w' : World DB X) :
  rtc unit_step w w' -> floors_ok (w_db w) -> recount (w_db w) = w_db w ->
  floors_ok (w_db w') /\ recount (w_db w') = w_db w'.
Proof.
  intros Hs Hf Hr. apply counters_recount.
  assert (counters_ok (w_db w)) as Hc by (by apply counters_recount). clear Hf Hr.
  induction Hs as [w|w w1 w2 (op & r & E) _ IH]; [done|]. apply IH.
  pose proof (keeps_RunInTx _ _ _ _ _ _ ledger_interp_before (run_op_ledger op) E) as L.
  by apply L.
Qed.
End process.

(** ** An image verdict is applied once *)
Section callbacks.
Context `{Env} `{Pg} `{Unicode} `{DbClock} `{Decimal}.
Context (access : ImageAccessController) `{!AccessOk access} `{!AccessLedger access}.

(** The provider's task has its record. *)
Definition recorded (provider job : string) (db : DB) : Prop :=
  exists k r, moderation_records db !! k = Some r /\ same_job provider (Some job) r = true.

Lemma recorded_row provider job db :
  recorded provider job db <->
  exists_row (same_job provider (Some job)) (moderation_records db) = true.
Proof. by rewrite exists_row_true. Qed.

Lemma CreateMachineRecordIfNew_inr record job (tx : TxD) created tx' :
  ModerationRecord.ProviderJobID record = Some job ->
  ModerationRepository.CreateMachineRecordIfNew record tx = (inr created, tx') ->
  recorded (ModerationRecord.Provider record) job (tx_db tx') /\
  (recorded (ModerationRecord.Provider record) job (tx_db tx) -> created = None).
Proof.
  intros Hj E. unfold ModerationRepository.CreateMachineRecordIfNew in E.
  apply mbind_inr in E as (id & s1 & (_ & D1 & _)%NextID_inr & E).
  apply stmt_inr in E as (_ & E & _). rewrite D1, Hj in E.
  rewrite !recorded_row. destruct (exists_row (same_job _ _) (moderation_records (tx_db tx))) eqn:Hx.
  - destruct (review_shape _ _) eqn:Hs; cbn [andb] in E.
    + injection E as <- <-. done.
    + unfold insert_record in E. cbv zeta in E. by rewrite Hs in E.
  - rewrite andb_false_r in E. split; [|done].
    destruct (insert_record _ _ _) eqn:Ei; [done|]. injection E as _ <-.
    apply insert_record_inr in Ei as (_ & _ & ->). apply exists_row_true. cbn.
    exists id. eexists. split; [apply lookup_insert_eq|]. unfold same_job. cbn. rewrite Hj.
    by rewrite !bool_decide_eq_true_2.
Qed.

(** The shape of a run of [applyImageResult]. *)
Lemma applyImageResult_inr callback (tx : TxD) r tx' :
  ModerationService.ApplyImageCallback access callback tx = (inr r, tx') ->
  recorded (cb_Provider callback) (cb_ProviderJobID callback) (tx_db tx') /\
  (recorded (cb_Provider callback) (cb_ProviderJobID callback) (tx_db tx) ->
   Duplicate r = true /\ view (tx_db tx') = view (tx_db tx)).
Proof.
  unfold ModerationService.ApplyImageCallback, ModerationService.applyImageResult. intros E.
  apply mbind_inr in E as ([] & s0 & [Hval <-]%lift_inr & E).
  apply mbind_inr in E as (ids & s1 & E1 & E). apply mbind_inr in E as (assets & s2 & E2 & E).
  apply mbind_inr in E as (asset & s3 & [_ <-]%lift_inr & E).
  apply mbind_inr in E as (now & s3 & (_ & D3 & _)%Now_inr & E).
  apply mbind_inr in E as (created & s4 & E4 & E).
  unfold ModerationRepository.LockPendingPostsForImage in E1.
  unfold ModerationRepository.LockImagesForPosts in E2.
  keeps_run (unchanged (fun db : DB => db)) E1. keeps_run (unchanged (fun db : DB => db)) E2.
  assert (tx_db s3 = tx_db tx) as D by (unfold unchanged in *; congruence).
  assert (ModerationRecord.ProviderJobID (ModerationService.imageModerationRecord callback now) =
          Some (cb_ProviderJobID callback)) as Hj.
  { cbn. destruct (decide (cb_ProviderJobID callback = ""%string)) as [Hj|Hj];
      [exfalso | by rewrite bool_decide_eq_false_2].
    unfold ModerationService.validateImageCallback in Hval. rewrite Hj in Hval.
    destruct (_ || _); by vm_compute in Hval. }
  apply on_error_inr in E4 as [E4 | (? & ? & _ & E4)]; [|by apply internal_inr in E4].
  pose proof (keeps_CreateMachineRecordIfNew (ModerationService.imageModerationRecord callback now)
    eq_refl _ _ _ E4) as V4.
  apply (CreateMachineRecordIfNew_inr _ _ _ _ _ Hj) in E4 as [Hrec Hdup]. rewrite D in Hdup, V4.
  assert (moderation_records (tx_db s4) ⊆ moderation_records (tx_db tx')) as Hsub.
  { clear Hdup. pose proof (fun a x v => proj1 (ops_applyImageAccess access ledger a x v)).
    pose proof (fun a x => proj2 (ops_applyImageAccess access ledger a x ""%string)).
    pose proof (ops_decisions access ledger) as (? & _ & _).
    destruct created; [|unfold ModerationService.reconcileDuplicateImageResult,
      ModerationRepository.FindMachineRecordByProviderJobID in E]; keeps_run ledger E; apply E. }
  split.
  - destruct Hrec as (k & rec & Hk & Hs). exists k, rec. split; [|done]. by eapply lookup_weaken.
  - intros Hold. rewrite (Hdup Hold) in E. pose proof (keeps_duplicate access callback asset _ _ _ E) as V.
    split; [|unfold unchanged in *; congruence].
    unfold ModerationService.reconcileDuplicateImageResult in E. run_inv; done.
Qed.

(** C23: A provider's task is applied once.  After a callback for it succeeded, and
    whatever happens to the database in between (records are only appended), every
    later successful callback for the same provider and task, whatever its verdict, is
    reported as a duplicate and changes no post, no image's verdict and no text
    verdict. *)
Theorem image_callback_once first again (tx0 tx1 tx2 tx3 : TxD) r1 r2 :
  ModerationService.ApplyImageCallback access first tx0 = (inr r1, tx1) ->
  moderation_records (tx_db tx1) ⊆ moderation_records (tx_db tx2) ->
  cb_Provider again = cb_Provider first -> cb_ProviderJobID again = cb_ProviderJobID first ->
  ModerationService.ApplyImageCallback access again tx2 = (inr r2, tx3) ->
  Duplicate r2 = true /\ view (tx_db tx3) = view (tx_db tx2).
Proof.
  intros E1 Hsub Hp Hj E2. apply applyImageResult_inr in E1 as [(k & r & Hk & Hs) _].
  apply applyImageResult_inr in E2 as [_ Hdup]. apply Hdup. rewrite Hp, Hj. exists k, r.
  split; [by eapply lookup_weaken | done].
Qed.
End callbacks.
