(* ===== verification/CommentGate.v ===== *)
(** * What a comment shows has been judged

    [comments_ok]: every comment says what the version it points at says, and carries
    the verdict of a record on that version.  [spares S]: what a computation did to
    comments outside [S] and to the records and versions; every operation but those on
    comments spares them all. *)

From S2P Require Import Prelude.
From S2P Require Import GoText.
From S2P Require Import Apierr.
From S2P Require Import Effects.
From S2P Require Import Logic.
From S2P Require Import Model.
From S2P Require Import AuthRepo.
From S2P Require Import AuthService.
From S2P Require Import ImageAccess.
From S2P Require Import Notifications.
From S2P Require Import Money.
From S2P Require Import PostRepo.
From S2P Require Import CommentRepo.
From S2P Require Import UserRepo.
From S2P Require Import Moderation.
From S2P Require Import UserService.
From S2P Require Import SingleReview.
From S2P Require Import PostService.
From S2P Require Import CommentService.
From S2P Require Import PostTables.
From S2P Require Import PostProps.
From S2P Require Import Counters.
From S2P Require Import CommentLedger.
From S2P Require Import CommentOps.
From S2P Require Import UserOps.
From S2P Require Import ReviewOps.
From S2P Require Import PostOps.
From S2P Require Import PostGate.
From S2P Require Import PostLedger.
Open Scope Z_scope.

(** ** The invariant *)
(** A stored version of a comment. *)
Definition stored (db : DB) (id v : Z) (content : string) : Prop :=
  exists k h, comment_histories db !! k = Some h /\ CommentHistory.CommentID h = id /\
    CommentHistory.Revision h = v /\ CommentHistory.Content h = content.

(** A record, of a machine or of an administrator, with a verdict on a version. *)
Definition judged (db : DB) (id v : Z) (verdict : string) : Prop :=
  exists k r, moderation_records db !! k = Some r /\ ModerationRecord.CommentID r = Some id /\
    ModerationRecord.ContentRevision r = Some v /\ ModerationRecord.Verdict r = verdict.

Definition backed (db : DB) (k : Z) (c : Z * Z * string * string) : Prop :=
  let '(id, v, content, verdict) := c in
  id = k /\ stored db id v content /\ judged db id v verdict.

(** The unique index [uq_comment_histories_revision]. *)
Definition versions_unique (db : DB) : Prop :=
  forall k k' h h', comment_histories db !! k = Some h -> comment_histories db !! k' = Some h' ->
    CommentHistory.CommentID h = CommentHistory.CommentID h' ->
    CommentHistory.Revision h = CommentHistory.Revision h' -> k = k'.

Record comments_ok (db : DB) : Prop := {
  co_unique : versions_unique db;
  co_backed : forall k c, ccores db !! k = Some c -> backed db k c;
}.

(** What it says of a comment. *)
Lemma comments_ok_row db id c :
  comments_ok db -> comments db !! id = Some c ->
  Comment.ID c = id /\ stored db id (Comment.CurrentRevision c) (Comment.Content c) /\
  judged db id (Comment.CurrentRevision c) (Comment.Moderation c).
Proof.
  intros [_ Hb] Hc. assert (ccores db !! id = Some (ccore c)) as Hcc
    by (unfold ccores; by rewrite lookup_fmap, Hc).
  destruct (Hb _ _ Hcc) as (-> & Hs & Hj). done.
Qed.

(** The version a comment points at says one thing. *)
Lemma stored_one db id v content content' :
  versions_unique db -> stored db id v content -> stored db id v content' -> content = content'.
Proof.
  intros Hu (k & h & Hk & Hid & Hv & <-) (k' & h' & Hk' & Hid' & Hv' & <-).
  assert (k = k') as <- by (eapply Hu; eauto; congruence). congruence.
Qed.

(** ** What spares the comments outside [S] *)
Record spares (S : Z -> Prop) (db db' : DB) : Prop := {
  sp_records : moderation_records db ⊆ moderation_records db';
  sp_versions : comment_histories db ⊆ comment_histories db';
  sp_unique : versions_unique db -> versions_unique db';
  sp_others : forall k, ~ S k -> ccores db' !! k = ccores db !! k;
}.

#[global] Instance spares_preorder S : PreOrder (spares S).
Proof.
  split; [by split|]. intros db1 db2 db3 [] []. split; [by etrans|by etrans|auto|].
  intros k Hk. rewrite sp_others1 by done. by apply sp_others0.
Qed.

Lemma stored_mono db db' id v content :
  comment_histories db ⊆ comment_histories db' -> stored db id v content -> stored db' id v content.
Proof. intros Hs (k & h & Hk & Hh). exists k, h. split; [by eapply lookup_weaken | done]. Qed.
Lemma judged_mono db db' id v verdict :
  moderation_records db ⊆ moderation_records db' -> judged db id v verdict -> judged db' id v verdict.
Proof. intros Hs (k & h & Hk & Hh). exists k, h. split; [by eapply lookup_weaken | done]. Qed.

Lemma spares_backed S db db' k c : spares S db db' -> backed db k c -> backed db' k c.
Proof.
  intros [Hr Hv _ _]. destruct c as [[[id v] content] verdict]. intros (-> & Hs & Hj).
  split_and!; [done|by eapply stored_mono|by eapply judged_mono].
Qed.

Lemma spares_ok S `{!forall k, Decision (S k)} db db' :
  spares S db db' -> comments_ok db ->
  (forall k c, S k -> ccores db' !! k = Some c -> backed db' k c) -> comments_ok db'.
Proof.
  intros Hs [Hu Hb] Hnew. split; [by apply Hs|]. intros k c Hc.
  destruct (decide (S k)) as [Hk|Hk]; [by apply Hnew|].
  rewrite (sp_others _ _ _ Hs) in Hc by done. by eapply spares_backed, Hb.
Qed.

Lemma spares_nobody_ok db db' : spares nobody db db' -> comments_ok db -> comments_ok db'.
Proof. intros Hs Ho. apply (spares_ok nobody db); [done|done|]. by intros k c []. Qed.

Lemma spares_weaken (S S' : Z -> Prop) db db' :
  (forall k, S k -> S' k) -> spares S db db' -> spares S' db db'.
Proof. intros Hi []. split; [done..|]. eauto. Qed.

Lemma spares_same S db db' :
  moderation_records db ⊆ moderation_records db' ->
  comment_histories db' = comment_histories db -> ccores db' = ccores db -> spares S db db'.
Proof.
  intros Hr Hh Hc. split; [done|by rewrite Hh| |by rewrite Hc].
  unfold versions_unique. by rewrite Hh.
Qed.
Lemma spares_entries S db db' : entries db' = entries db -> spares S db db'.
Proof. intros E. injection E as Er _ Eh _ _ _ _ _ Ec. apply spares_same; [by rewrite Er|done..]. Qed.

Lemma keeps_spares_entries `{Env} S {R} (m : MT R) :
  Keeps (unchanged entries) m -> Keeps (spares S) m.
Proof. intros Hm tx r tx' E. apply spares_entries. by eapply Hm. Qed.
#[export] Hint Resolve keeps_spares_entries : keeps.

Lemma spares_insert_record S id record db db' :
  insert_record id record db = inr db' -> spares S db db'.
Proof.
  intros (Hn & _ & ->)%insert_record_inr. apply spares_same; [|done..].
  cbn. by apply insert_subseteq.
Qed.

(** ** The other services *)
Section others.
Context `{Env}.

Lemma spares_CreateRecord S record : Keeps (spares S) (CreateRecord record).
Proof.
  unfold CreateRecord. solve_keeps. apply (keeps_stmt _). intros db r db'.
  destruct (insert_record _ _ _) eqn:Ei; [done|]. intros [= _ <-]. by eapply spares_insert_record.
Qed.

Context `{Pg} `{DbClock}.

Lemma spares_likes S user id :
  Keeps (spares S) (PostRepository.Like user id) /\ Keeps (spares S) (PostRepository.Unlike user id) /\
  Keeps (spares S) (PostRepository.Favorite user id) /\
  Keeps (spares S) (PostRepository.Unfavorite user id).
Proof.
  unfold PostRepository.Like, PostRepository.Unlike, PostRepository.Favorite,
    PostRepository.Unfavorite, PostRepository.has_post.
  split_and!; solve_keeps; apply (keeps_stmt _); intros db r db';
    repeat case_match; intros [= _ <-]; done.
Qed.

Class AccessSpares (access : ImageAccessController) :=
  access_spares : forall S a r p q, Keeps (spares S) (Apply access a r p q).

#[global] Instance spares_posts access `{!AccessSpares access} S : PostWrites access (spares S).
Proof.
  split; intros; try (by apply access_spares); try (by apply (spares_likes S user id)).
  1: apply spares_CreateRecord.
  all: try solve [solve_keeps].
  - unfold ModerationRepository.CreateMachineRecordIfNew. solve_keeps. apply (keeps_stmt _).
    intros db x db'. case_match; [by intros [= _ <-]|].
    destruct (insert_record _ _ _) eqn:Ei; [done|]. intros [= _ <-]. by eapply spares_insert_record.
  - unfold PostRepository.Create. solve_keeps. apply (keeps_stmt _). intros db x db'.
    case_match; [done|]. by intros [= _ <-].
  - unfold PostRepository.CreateHistory. solve_keeps. apply (keeps_stmt _). intros db x db'.
    repeat case_match; try done. by intros [= _ <-].
Qed.

#[global] Instance spares_users S : UserWrites (spares S).
Proof.
  apply entries_writes_users; [intros; by apply keeps_spares_entries | apply spares_CreateRecord].
Qed.
End others.

#[global] Instance discard_spares : AccessSpares DiscardAccess.
Proof. intros S a r p q. cbn. solve_keeps. Qed.
#[global] Instance durable_spares `{Env} : AccessSpares DurableAccess.
Proof.
  intros S a r p q. cbn. unfold DurableImageAccess_Apply, ImageAccessOutbox.Enqueue.
  solve_keeps. apply (keeps_stmt _). intros db n db' E. apply spares_entries.
  unfold ImageAccessOutbox.enqueue in E. repeat case_match; naive_solver.
Qed.

(** ** Writes to comments *)
Lemma cores_sync was now c db : ccores (CommentRepository.sync_counts was now c db) = ccores db.
Proof.
  assert (forall d r (t : gmap Z Comment.t),
    ccore <$> alter (CommentRepository.add_replies d) r t = ccore <$> t) as Ha.
  { intros d r t. apply map_eq. intros k. rewrite !lookup_fmap.
    destruct (decide (k = r)) as [->|Hk]; [rewrite lookup_alter_eq; by destruct (t !! r)|].
    by rewrite lookup_alter_ne by congruence. }
  unfold CommentRepository.sync_counts, ccores. repeat case_match; cbn; rewrite ?Ha; done.
Qed.

Lemma cores_insert id c db :
  ccores (db <| comments := <[id := c]> (comments db) |>) = <[id := ccore c]> (ccores db).
Proof. unfold ccores. cbn. by rewrite fmap_insert. Qed.

(** An [UPDATE] that wrote: the row, and no version or record. *)
Lemma update_comment_writes id p f db n db' :
  CommentRepository.update_comment id p f db = (n, db') ->
  comment_histories db' = comment_histories db /\
  moderation_records db' = moderation_records db /\
  (n = 0 /\ db' = db \/
   exists c, comments db !! id = Some c /\ p c = true /\
     ccores db' = <[id := ccore (f c)]> (ccores db)).
Proof.
  unfold CommentRepository.update_comment. destruct (comments db !! id) as [c|] eqn:Hc;
    [|intros [= <- <-]; by auto].
  destruct (p c) eqn:Hp; [|intros [= <- <-]; by auto]. intros [= _ <-].
  destruct (sync_counts_frame (CommentRepository.active c) (CommentRepository.active (f c)) (f c)
    (db <| comments := <[id := f c]> (comments db) |>)) as (E1 & _ & E3).
  destruct (bool_decide _); (split_and!; [done|done|]); right; exists c;
    by rewrite ?cores_sync, cores_insert.
Qed.

Section statements.
Context `{Env} `{DbClock}.
Import CommentRepository.

(** A successful [UPDATE] of one comment. *)
Lemma UpdateRow_inr id p f (tx : TxD) r tx' :
  UpdateRow id p f tx = (inr r, tx') ->
  exists c, comments (tx_db tx) !! id = Some c /\ p c = true /\
    ccores (tx_db tx') = <[id := ccore (f c)]> (ccores (tx_db tx)) /\
    spares (eq id) (tx_db tx) (tx_db tx').
Proof.
  unfold UpdateRow, PostRepository.found_row. intros E.
  apply mbind_inr in E as (n & s1 & E1 & E). apply stmt_inr in E1 as (_ & [= E1] & _).
  apply update_comment_writes in E1 as (Eh & Er & [[-> _]|(c & Hc & Hp & Ec)]); [done|].
  destruct (n =? 0); [done|]. apply mret_inr in E as [_ <-]. exists c. split_and!; [done..|].
  split; [by rewrite Er|by rewrite Eh| |].
  - unfold versions_unique. by rewrite Eh.
  - intros k Hk. by rewrite Ec, lookup_insert_ne.
Qed.

(** One that leaves what a comment says and its verdict alone. *)
Lemma spares_UpdateRow S id p f :
  (forall c, ccore (f c) = ccore c) -> Keeps (spares S) (UpdateRow id p f).
Proof.
  intros Hf. apply (keeps_found_row _), (keeps_stmt _). intros db n db' [= E].
  apply update_comment_writes in E as (Eh & Er & Hc). apply spares_same; [by rewrite Er|done|].
  destruct Hc as [[_ ->]|(c & Hc & _ & ->)]; [done|]. rewrite Hf. apply insert_id.
  unfold ccores. by rewrite lookup_fmap, Hc.
Qed.

Lemma spares_comment_Like S user id : Keeps (spares S) (Like user id).
Proof.
  unfold Like. solve_keeps. apply (keeps_stmt _). intros db r db'.
  case_match; [by intros [= _ <-]|]. case_match; [done|]. intros [= _ <-].
  apply spares_same; [done..|]. unfold ccores. cbn. apply map_eq. intros k. rewrite !lookup_fmap.
  destruct (decide (k = id)) as [->|Hk]; [|by rewrite lookup_alter_ne by congruence].
  rewrite lookup_alter_eq. by destruct (comments db !! id).
Qed.
Lemma spares_comment_Unlike S user id : Keeps (spares S) (Unlike user id).
Proof.
  unfold Unlike. apply (keeps_exec _). intros db. case_match; [|done].
  apply spares_same; [done..|]. unfold ccores. cbn. apply map_eq. intros k. rewrite !lookup_fmap.
  destruct (decide (k = id)) as [->|Hk]; [|by rewrite lookup_alter_ne by congruence].
  rewrite lookup_alter_eq. by destruct (comments db !! id).
Qed.

(** *** Versions *)
Lemma spares_comment_version S h : Keeps (spares S) (CreateHistory h).
Proof.
  unfold CreateHistory. solve_keeps. apply (keeps_stmt _). intros db r db'.
  destruct (exists_row _ _) eqn:Hx; [done|].
  destruct (insert_row _ _ _ _) eqn:Ei; [done|].
  apply insert_row_inr in Ei as [Hn ->]. intros [= _ <-]. split; [done| | |done].
  - cbn. by apply insert_subseteq.
  - intros Hu k1 k2 h1 h2. cbn. intros H1 H2 Ec Ev.
    rewrite exists_row_false in Hx.
    assert (forall k h', comment_histories db !! k = Some h' ->
      CommentHistory.CommentID h' = CommentHistory.CommentID h ->
      CommentHistory.Revision h' = CommentHistory.Revision h -> False) as Hno.
    { intros k h' Hk E1 E2. specialize (Hx k h' Hk). unfold of_comment in Hx. lia. }
    apply lookup_insert_Some in H1 as [[<- <-]|[? H1]], H2 as [[<- <-]|[? H2]] ||
      apply lookup_insert_Some in H2 as [[<- <-]|[? H2]]; try done.
    + exfalso. by eapply (Hno _ _ H2).
    + exfalso. by eapply (Hno _ _ H1).
    + by eapply Hu.
Qed.

Lemma CreateHistory_stored h (tx : TxD) r tx' :
  CreateHistory h tx = (inr r, tx') ->
  stored (tx_db tx') (CommentHistory.CommentID h) (CommentHistory.Revision h)
    (CommentHistory.Content h) /\ ccores (tx_db tx') = ccores (tx_db tx).
Proof.
  unfold CreateHistory. intros E. apply mbind_inr in E as (id & s1 & (_ & Ed & _)%NextID_inr & E).
  apply stmt_inr in E as (_ & E & _). rewrite Ed in E. destruct (exists_row _ _); [done|].
  destruct (insert_row _ _ _ _) eqn:Ei; [done|]. apply insert_row_inr in Ei as [_ ->].
  injection E as _ <-. split; [|done]. exists id. eexists. split; [apply lookup_insert_eq|done].
Qed.

Lemma CreateRecord_judged record id v (tx : TxD) r tx' :
  ModerationRecord.CommentID record = Some id -> ModerationRecord.ContentRevision record = Some v ->
  CreateRecord record tx = (inr r, tx') ->
  judged (tx_db tx') id v (ModerationRecord.Verdict record) /\
  ccores (tx_db tx') = ccores (tx_db tx).
Proof.
  intros Hid Hv E. unfold CreateRecord in E.
  apply mbind_inr in E as (k & s1 & (_ & Ed & _)%NextID_inr & E).
  apply stmt_inr in E as (_ & E & _). rewrite Ed in E.
  destruct (insert_record _ _ _) eqn:Ei; [done|]. injection E as _ <-.
  apply insert_record_inr in Ei as (_ & _ & ->). split; [|done].
  exists k. eexists. split; [apply lookup_insert_eq|done].
Qed.
End statements.
#[export] Hint Resolve spares_comment_Like spares_comment_Unlike spares_comment_version : keeps.

(** ** The operations on comments *)
Lemma judged_ok db db' id v content verdict :
  comments_ok db -> spares (eq id) db db' -> ccores db' !! id = Some (id, v, content, verdict) ->
  stored db' id v content -> judged db' id v verdict -> comments_ok db'.
Proof.
  intros Ho Hs Hc Hst Hj. apply (spares_ok (eq id) db); [done|done|].
  intros k c <- Hk. rewrite Hc in Hk. injection Hk as <-. by split_and!.
Qed.

(** A successful run keeps the invariant. *)
Definition holds_comments {R} (m : MT R) : Prop := forall tx r tx',
  m tx = (inr r, tx') -> comments_ok (tx_db tx) -> comments_ok (tx_db tx').

Section operations.
Context `{Env} `{Pg} `{Unicode} `{DbClock} (s : CommentService.CommentService).
Import CommentService.

Lemma spares_holds {R} (m : MT R) : Keeps (spares nobody) m -> holds_comments m.
Proof. intros Hm tx r tx' E. apply spares_nobody_ok. by eapply Hm. Qed.

Lemma moderateComment_inr id v content (tx : TxD) verdict tx' :
  moderateComment s id v content tx = (inr verdict, tx') ->
  spares (eq id) (tx_db tx) (tx_db tx') /\ judged (tx_db tx') id v verdict /\
  exists cid rev text old, ccores (tx_db tx) !! id = Some (cid, rev, text, old) /\
    ccores (tx_db tx') = <[id := (cid, rev, text, verdict)]> (ccores (tx_db tx)).
Proof.
  intros E. unfold moderateComment in E.
  apply mbind_inr in E as (result & s1 & E1 & E). reads E1.
  apply mbind_inr in E as ([] & s2 & E2 & E). reads E2.
  apply mbind_inr in E as (now & s3 & (_ & E3 & _)%Now_inr & E).
  apply mbind_inr in E as (r & s4 & E4 & E). apply caught in E4; [|apply throws_internal].
  apply mbind_inr in E as ([] & s5 & E5 & E). reads E5.
  apply mbind_inr in E as (now' & s6 & (_ & E6 & _)%Now_inr & E).
  apply mbind_inr in E as ([] & s7 & E7 & E). apply caught in E7; [|apply throws_commentRepositoryError].
  apply mret_inr in E as [<- <-].
  pose proof (spares_CreateRecord (eq id) _ _ _ _ E4) as S4.
  apply (CreateRecord_judged _ id v) in E4 as [Hj Hc4]; [|done..].
  apply UpdateRow_inr in E7 as (c & Hc & _ & Hc7 & S7).
  rewrite E6, E5 in Hc, Hc7, S7. rewrite Hc4, E3, E2, E1 in Hc7. rewrite E3, E2, E1 in S4.
  split_and!; [by etrans| |].
  - eapply judged_mono; [apply S7|exact Hj].
  - exists (Comment.ID c), (Comment.CurrentRevision c), (Comment.Content c), (Comment.Moderation c).
    split.
    + rewrite <- E1, <- E2, <- E3, <- Hc4. unfold ccores. by rewrite lookup_fmap, Hc.
    + rewrite Hc7. f_equal. unfold ccore, CommentRepository.moderated. by case_bool_decide.
Qed.

Lemma Update_holds id input author : holds_comments (Update s id input author).
Proof.
  intros tx r tx' E Ho. unfold Update in E.
  apply mbind_inr in E as ([content ids] & s1 & E1 & E). reads E1.
  apply mbind_inr in E as (c & s2 & E2 & E). reads E2.
  destruct (negb _); [done|]. destruct (negb _ && negb _); [done|].
  apply mbind_inr in E as (p & s3 & E3 & E). reads E3.
  destruct (negb _); [done|].
  apply mbind_inr in E as (old & s4 & E4 & E). apply caught in E4; [|apply throws_internal].
  reads E4.
  apply mbind_inr in E as (now & s5 & (_ & E5 & _)%Now_inr & E).
  apply mbind_inr in E as (v & s6 & E6 & E). apply caught in E6; [|apply throws_internal].
  apply mbind_inr in E as ([] & s7 & E7 & E). apply caught in E7; [|apply throws_commentRepositoryError].
  apply mbind_inr in E as ([] & s8 & E8 & E). apply caught in E8; [|apply throws_internal].
  apply mbind_inr in E as ([] & s9 & E9 & E). apply caught in E9; [|apply throws_commentHistoryWriteError].
  apply mbind_inr in E as (verdict & s10 & E10 & E).
  assert (tx_db s6 = tx_db tx) as D6.
  { apply stmt_inr in E6 as (_ & E6 & _). cbn zeta in E6.
    destruct (CommentRepository.next_revision _ _ <? _); [|done]. injection E6 as _ E6. congruence. }
  apply UpdateRow_inr in E7 as (c0 & Hc0 & _ & Hc7 & S7). rewrite D6 in Hc0, Hc7, S7.
  pose proof (entries_ReplaceMentions id ids _ _ _ E8) as En8.
  pose proof (spares_entries (eq id) _ _ En8) as S8. injection En8 as _ _ _ _ _ _ _ _ Hc8.
  pose proof (spares_comment_version (eq id) _ _ _ _ E9) as S9.
  apply CreateHistory_stored in E9 as [Hst Hc9]. cbn in Hst.
  apply moderateComment_inr in E10 as (S10 & Hj & cid & rev & text & mo & Hold & Hc10).
  assert (spares (eq id) (tx_db tx) (tx_db s10)) as Sp
    by (etrans; [exact S7|etrans; [exact S8|etrans; [exact S9|exact S10]]]).
  assert (comments_ok (tx_db s10)) as Hok.
  { apply (judged_ok (tx_db tx) _ id v content verdict Ho Sp).
    - rewrite Hc10. rewrite lookup_insert_eq. rewrite Hc9, Hc8, Hc7, lookup_insert_eq in Hold.
      destruct (comments_ok_row _ _ _ Ho Hc0) as [Hid _]. unfold ccore in Hold. cbn in Hold.
      congruence.
    - eapply stored_mono; [apply S10|exact Hst].
    - exact Hj. }
  revert Hok. apply spares_nobody_ok.
  match type of E with ?m _ = _ => assert (Keeps (spares nobody) m) as K by solve_keeps end.
  by apply K in E.
Qed.
Lemma new_comment_inr c0 (tx : TxD) c tx' :
  CommentRepository.active c0 = false -> CommentRepository.Create c0 tx = (inr c, tx') ->
  comments (tx_db tx) !! Comment.ID c = None /\ spares (eq (Comment.ID c)) (tx_db tx) (tx_db tx') /\
  ccores (tx_db tx') = <[Comment.ID c := (Comment.ID c, Comment.CurrentRevision c0,
    Comment.Content c0, Comment.Moderation c0)]> (ccores (tx_db tx)).
Proof.
  intros Ha E. unfold CommentRepository.Create in E.
  apply mbind_inr in E as (id & s1 & (_ & E1 & _)%NextID_inr & E).
  apply mbind_inr in E as ([] & s2 & E2 & E). apply mret_inr in E as [<- <-]. cbn.
  apply stmt_inr in E2 as (_ & E2 & _). rewrite E1 in E2.
  destruct (insert_row _ _ _ _) eqn:Ei; [done|]. apply insert_row_inr in Ei as [Hn ->].
  match type of E2 with inr (_, CommentRepository.sync_counts ?w ?n ?k ?d) = _ =>
    destruct (sync_counts_frame w n k d) as (Er & _ & Eh);
    assert (ccores (CommentRepository.sync_counts w n k d) = <[id := (id,
      Comment.CurrentRevision c0, Comment.Content c0, Comment.Moderation c0)]> (ccores (tx_db tx)))
      as Ec by (by rewrite cores_sync, cores_insert) end.
  injection E2 as <-. split_and!; [done| |done]. split.
  - by rewrite Er.
  - by rewrite Eh.
  - unfold versions_unique. by rewrite Eh.
  - intros k Hk. by rewrite Ec, lookup_insert_ne.
Qed.

Lemma Create_holds post input author : holds_comments (Create s post input author).
Proof.
  intros tx r tx' E Ho. unfold Create in E.
  apply mbind_inr in E as ([content ids] & s1 & E1 & E). reads E1.
  apply mbind_inr in E as (p & s2 & E2 & E). reads E2.
  apply mbind_inr in E as ([] & s3 & E3 & E). reads E3.
  apply mbind_inr in E as ([[parent root] answered] & s4 & E4 & E). reads E4.
  apply mbind_inr in E as (now & s5 & (_ & E5 & _)%Now_inr & E).
  apply mbind_inr in E as (c & s6 & E6 & E). apply caught in E6; [|apply throws_internal].
  apply mbind_inr in E as ([] & s7 & E7 & E). apply caught in E7; [|apply throws_internal].
  apply mbind_inr in E as ([] & s8 & E8 & E). apply caught in E8; [|apply throws_commentHistoryWriteError].
  apply mbind_inr in E as (verdict & s9 & E9 & E).
  apply new_comment_inr in E6 as (_ & S6 & Hc6); [|done].
  rewrite E5, E4, E3, E2, E1 in Hc6, S6. cbn in Hc6.
  pose proof (entries_ReplaceMentions _ ids _ _ _ E7) as En7.
  pose proof (spares_entries (eq (Comment.ID c)) _ _ En7) as S7. injection En7 as _ _ _ _ _ _ _ _ Hc7.
  pose proof (spares_comment_version (eq (Comment.ID c)) _ _ _ _ E8) as S8.
  apply CreateHistory_stored in E8 as [Hst Hc8]. cbn in Hst.
  apply moderateComment_inr in E9 as (S9 & Hj & cid & rev & text & mo & Hold & Hc9).
  assert (comments_ok (tx_db s9)) as Hok.
  { apply (judged_ok (tx_db tx) _ (Comment.ID c) 1 content verdict Ho).
    - etrans; [exact S6|etrans; [exact S7|etrans; [exact S8|exact S9]]].
    - rewrite Hc9, lookup_insert_eq. rewrite Hc8, Hc7, Hc6, lookup_insert_eq in Hold. congruence.
    - eapply stored_mono; [apply S9|exact Hst].
    - exact Hj. }
  revert Hok. apply spares_nobody_ok.
  match type of E with ?m _ = _ => assert (Keeps (spares nobody) m) as K by solve_keeps end.
  by apply K in E.
Qed.

(** What neither writes a text nor a verdict. *)
Lemma quiet_holds id user :
  holds_comments (Delete id user) /\ holds_comments (Like id user) /\
  holds_comments (Unlike id user) /\ holds_comments (AdminDeleteComment id user).
Proof.
  assert (forall reason actor now, Keeps (spares nobody)
    (CommentRepository.SoftDelete id reason actor now)) as Hd
    by (intros; by apply spares_UpdateRow).
  unfold Delete, Like, Unlike, AdminDeleteComment, to_comment_api.
  split_and!; apply spares_holds; solve_keeps.
Qed.

(** The administrator's own record is the verdict. *)
Lemma AdminRestoreComment_holds id actor : holds_comments (AdminRestoreComment id actor).
Proof.
  intros tx r tx' E Ho. unfold AdminRestoreComment, to_comment_api in E.
  apply mbind_inr in E as (c & s1 & E1 & E). reads E1.
  destruct (negb _); [done|].
  apply mbind_inr in E as (v & s2 & E2 & E). apply caught in E2; [|apply throws_internal].
  assert (Comment.CurrentRevision <$> comments (tx_db s1) !! id = Some v) as Hv.
  { unfold CommentRepository.CurrentContentRevision in E2.
    apply mbind_inr in E2 as (o & s9 & [-> _]%query_inr & E2). by destruct (_ <$> _); run_inv. }
  reads E2. apply mbind_inr in E as (now & s3 & (_ & E3 & _)%Now_inr & E).
  apply mbind_inr in E as (record & s4 & E4 & E). apply caught in E4; [|apply throws_internal].
  apply mbind_inr in E as ([] & s5 & E5 & E). apply caught in E5; [|apply throws_to_api].
  apply mret_inr in E as [_ <-].
  pose proof (spares_CreateRecord (eq id) _ _ _ _ E4) as S4.
  apply (CreateRecord_judged _ id v) in E4 as [Hj Hc4]; [|done..].
  apply UpdateRow_inr in E5 as (c0 & Hc0 & _ & Hc5 & S5).
  rewrite E3, E2, E1 in S4, Hc4. rewrite E1 in Hv.
  apply fmap_Some in Hv as (c1 & Hc1 & ->). destruct (comments_ok_row _ _ _ Ho Hc1) as (Hid & Hst & _).
  assert (ccore c0 = ccore c1) as Ecore.
  { assert (ccores (tx_db s4) !! id = Some (ccore c0)) as H0' by (unfold ccores; by rewrite lookup_fmap, Hc0).
    rewrite Hc4 in H0'. unfold ccores in H0'. rewrite lookup_fmap, Hc1 in H0'. cbn in H0'. congruence. }
  assert (spares (eq id) (tx_db tx) (tx_db s5)) as Sp by (by etrans).
  apply (judged_ok (tx_db tx) _ id (Comment.CurrentRevision c1) (Comment.Content c1)
    ModerationVerdictPass Ho Sp).
  - rewrite Hc5, lookup_insert_eq. unfold ccore in Ecore |- *. cbn. injection Ecore as -> -> -> _.
    by rewrite Hid.
  - rewrite <- Hid. eapply stored_mono; [apply Sp|]. by rewrite Hid.
  - eapply judged_mono; [apply S5|exact Hj].
Qed.
End operations.

(** ** The review of one verdict *)
Section review.
Context `{Env} `{Pg} `{Unicode} `{DbClock}.
Context (access : ImageAccessController) `{!AccessSpares access}.
Import SingleReviewRepository.
Import SingleReviewService.

(** A verdict on the text of a comment is applied to its current version only. *)
Lemma text_verdict_holds original verdict record (tx0 tx : TxD) tx' :
  comments_ok (tx_db tx0) -> spares nobody (tx_db tx0) (tx_db tx) ->
  ModerationRecord.PostID original = None ->
  (forall id v, ModerationRecord.CommentID original = Some id ->
     ModerationRecord.ContentRevision original = Some v ->
     judged (tx_db tx) id v (ModerationRecord.Verdict record)) ->
  verdict = ModerationRecord.Verdict record ->
  ApplyManualTextVerdict original verdict tx = (inr tt, tx') -> comments_ok (tx_db tx').
Proof.
  intros Ho S0 Hp Hj -> E. pose proof (spares_nobody_ok _ _ S0 Ho) as Hok.
  unfold ApplyManualTextVerdict in E. apply mbind_inr in E as (current & s1 & E1 & E).
  assert (tx_db s1 = tx_db tx) as D1 by (by reads E1).
  destruct current; [|by apply mret_inr in E as [_ <-]; rewrite D1]. cbn in E. rewrite Hp in E.
  destruct (ModerationRecord.CommentID original) as [id|] eqn:Hid.
  - unfold applyManualCommentVerdict in E. apply mbind_inr in E as (now & s2 & (_ & D2 & _)%Now_inr & E).
    apply UpdateRow_inr in E as (c & Hc & _ & Hc' & S). rewrite D2, D1 in Hc, Hc', S.
    unfold IsCurrentContentRevision in E1.
    destruct (ModerationRecord.ContentRevision original) as [v|] eqn:Hv.
    + rewrite Hp, Hid in E1. apply query_inr in E1 as [Ev _]. rewrite Hc in Ev. cbn in Ev.
      symmetry in Ev. apply Z.eqb_eq in Ev.
      destruct (comments_ok_row _ _ _ Hok Hc) as (HidC & Hst & _).
      apply (judged_ok (tx_db tx) _ id v (Comment.Content c) (ModerationRecord.Verdict record)
        Hok S).
      * rewrite Hc', lookup_insert_eq. unfold ccore, CommentRepository.moderated.
        rewrite <- Ev, <- HidC. by case_bool_decide.
      * rewrite <- Ev. eapply stored_mono; [apply S|exact Hst].
      * eapply judged_mono; [apply S|]. by apply Hj.
    + apply mret_inr in E1 as [E1 _]. rewrite Hp, Hid in E1. by rewrite andb_false_r in E1 ||
        (rewrite bool_decide_eq_true_2 in E1 by done; by rewrite bool_decide_eq_false_2 in E1).
  - revert Hok. apply spares_nobody_ok. rewrite <- D1.
    match type of E with ?m _ = _ => assert (Keeps (spares nobody) m) as K end; [|by apply K in E].
    destruct (ModerationRecord.TagID original); [|destruct (ModerationRecord.UserID original); solve_keeps].
    unfold applyManualTagVerdict. solve_keeps. apply keeps_spares_entries. by apply keeps_entries_exec.
Qed.

Lemma image_verdict_spares image locked record verdict :
  Keeps (spares nobody) (applyManualImageVerdict access image [] locked record verdict).
Proof.
  unfold applyManualImageVerdict, ModerationService.applyImageAccess.
  cbn [ModerationRepository.ReconcilePendingPosts]. solve_keeps.
Qed.

Lemma ManualReview_holds input : holds_comments (ManualReview access input).
Proof.
  intros tx r tx' E Ho.
  apply ManualReview_inr in E as (snap & locked & now & s8 & s9 & s10 & _ & Hp & Hl & D8 & E9 & E10 & ->).
  pose proof (spares_CreateRecord nobody _ _ _ _ E9) as S9. rewrite D8 in S9. unfold apply_verdict in E10.
  destruct (ModerationRecord.ImageAssetID snap) as [image|] eqn:Hi.
  - rewrite Hl in E10 by done. apply caught in E10; [|apply throws_internal].
    apply image_verdict_spares in E10. revert Ho. apply spares_nobody_ok. by etrans.
  - destruct (on_username snap).
    + apply (keeps_applyManualUsernameVerdict (spares nobody)) in E10.
      revert Ho. apply spares_nobody_ok. by etrans.
    + apply caught in E10; [|apply throws_internal].
      eapply (text_verdict_holds snap _ (manual_record snap input now) tx); try done.
      intros id v Hid Hv.
      by apply (CreateRecord_judged (manual_record snap input now) id v) in E9 as [Hj _].
Qed.
(** *** What the verdict does to the comment *)
Lemma sync_row was now c db id (c' : Comment.t) :
  comments db !! id = Some c' -> exists replies,
  comments (CommentRepository.sync_counts was now c db) !! id = Some (c' <| Comment.ReplyCount := replies |>).
Proof.
  intros Hc. assert (exists replies, comments db !! id = Some (c' <| Comment.ReplyCount := replies |>))
    as Hsame by (exists (Comment.ReplyCount c'); rewrite Hc; by destruct c').
  unfold CommentRepository.sync_counts. destruct (_ =? 0); [exact Hsame|].
  destruct (Comment.RootID c) as [r|]; [|exact Hsame]. set (table := alter _ _ _).
  assert (exists replies, table !! id = Some (c' <| Comment.ReplyCount := replies |>)) as Ht.
  { unfold table. destruct (decide (r = id)) as [->|Hne].
    - rewrite lookup_alter_eq, Hc. cbn. by eexists.
    - rewrite lookup_alter_ne by done. exact Hsame. }
  repeat case_match; exact Ht.
Qed.

Lemma UpdateRow_row id p f (tx : TxD) r tx' c :
  CommentRepository.UpdateRow id p f tx = (inr r, tx') -> comments (tx_db tx) !! id = Some c ->
  exists replies, comments (tx_db tx') !! id = Some ((f c) <| Comment.ReplyCount := replies |>).
Proof.
  unfold CommentRepository.UpdateRow, PostRepository.found_row. intros E Hc.
  apply mbind_inr in E as (n & s1 & E1 & E). apply stmt_inr in E1 as (_ & [= E1] & _).
  assert (comments (tx_db tx') = comments (tx_db s1) /\ n <> 0) as [Et Hn].
  { destruct (Z.eqb_spec n 0); [done|]. by apply mret_inr in E as [_ <-]. }
  unfold CommentRepository.update_comment in E1. rewrite Hc in E1. rewrite Et.
  destruct (p c); injection E1 as <- <-; [|done].
  assert (<[id := f c]> (comments (tx_db tx)) !! id = Some (f c)) as Hf by apply lookup_insert_eq.
  destruct (bool_decide _); [|by apply sync_row].
  exists (Comment.ReplyCount (f c)). cbn. rewrite Hf. by destruct (f c).
Qed.

(** What a single review does to a comment.  A verdict on the current version sets
    the comment's status, and a pass shows it: a deletion is undone, whoever deleted it,
    its author and an administrator included; a block deletes it in the name of the
    review.  A verdict on a version that has been edited since leaves the row as it is. *)
Theorem single_review_of_comment input (tx : TxD) record tx' original id v c :
  moderation_records (tx_db tx) !! mi_MachineRecordID input = Some original ->
  ModerationRecord.ImageAssetID original = None -> ModerationRecord.UserID original = None ->
  ModerationRecord.CommentID original = Some id ->
  ModerationRecord.ContentRevision original = Some v ->
  comments (tx_db tx) !! id = Some c ->
  ManualReview access input tx = (inr record, tx') ->
  if Comment.CurrentRevision c =? v
  then exists now replies, comments (tx_db tx') !! id = Some
         ((CommentRepository.moderated (mi_Verdict input) now c) <| Comment.ReplyCount := replies |>)
  else comments (tx_db tx') !! id = Some c.
Proof.
  intros Ho Hi Hu Hid Hv Hc E.
  apply ManualReview_inr in E as (snap & locked & now & s8 & s9 & s10 & Hs & Hp & _ & D8 & E9 & E10 & ->).
  rewrite Ho in Hs. injection Hs as <-. unfold apply_verdict, on_username in E10.
  rewrite Hi, Hu in E10. cbn in E10. apply caught in E10; [|apply throws_internal].
  assert (comments (tx_db s9) = comments (tx_db tx)) as D9.
  { rewrite <- D8. unfold CreateRecord in E9. apply mbind_inr in E9 as (k & s1 & (_ & Dk & _)%NextID_inr & E9).
    apply stmt_inr in E9 as (_ & E9 & _). rewrite Dk in E9. destruct (insert_record _ _ _) eqn:Ei; [done|].
    injection E9 as _ <-. by apply insert_record_inr in Ei as (_ & _ & ->). }
  unfold ApplyManualTextVerdict in E10. apply mbind_inr in E10 as (current & s1 & E1 & E10).
  unfold IsCurrentContentRevision in E1. rewrite Hv, Hp, Hid in E1.
  apply query_inr in E1 as (-> & D1 & _). rewrite D9, Hc in E10. cbn in E10.
  destruct (Comment.CurrentRevision c =? v); cbn in E10.
  - rewrite Hp, Hid in E10. unfold applyManualCommentVerdict in E10.
    apply mbind_inr in E10 as (at_ & s2 & (_ & D2 & _)%Now_inr & E10).
    exists at_. eapply UpdateRow_row; [exact E10|]. by rewrite D2, D1, D9.
  - apply mret_inr in E10 as [_ <-]. by rewrite D1, D9.
Qed.
End review.

(** ** All operations *)
Section process.
Context `{Env} `{Pg} `{Unicode} `{DbClock} `{Decimal}.
Context (sv : Services).
Abbreviation access := (ps_imageAccess (sv_posts sv)).
Context `{!AccessSpares access}.

Lemma holds_discard {R} (m : MT R) : holds_comments m -> holds_comments (discard m).
Proof. intros Hm tx [] tx' E. unfold discard in E. run_inv. by eapply Hm. Qed.

Lemma run_op_comments op : holds_comments (run_op sv op).
Proof.
  pose proof (ops_writes (sv_posts sv) (spares nobody)) as (? & ? & ? & ?).
  pose proof (ops_decisions access (spares nobody)) as (_ & ? & _).
  destruct op; cbn [run_op]; unfold ModerationService.ApplyImageCallback,
    ModerationService.ApplyImageResult; try apply holds_discard;
    try pose proof (ops_interactions (spares nobody) id user) as (? & ? & ? & ?);
    try pose proof (ops_admin (sv_posts sv) (spares nobody) id actor) as (? & ? & ?);
    try pose proof (ops_admin (sv_posts sv) (spares nobody) id reviewer) as (? & ? & ?);
    try (apply spares_holds; solve [solve_keeps]).
  - intros tx r tx' E. unfold SingleReviewService.AdminManualReview in E.
    apply mbind_inr in E as (record & s1 & E1 & E). destruct (_ record) as [target id].
    apply mret_inr in E as [_ <-]. by eapply ManualReview_holds.
  - by apply Create_holds.
  - by apply Update_holds.
  - by apply (quiet_holds id author).
  - by apply (quiet_holds id actor).
  - by apply AdminRestoreComment_holds.
  - by apply spares_holds, (keeps_UpdateUser _ _).
  - by apply spares_holds, (keeps_DeleteUser _).
  - by apply spares_holds, (keeps_Follow _).
  - by apply spares_holds, (keeps_Unfollow _).
Qed.

Lemma spares_interp_before op : Keeps (spares nobody) (interp_before op).
Proof.
  destruct op as [sid now]. cbn. unfold SessionRepository.Touch. apply keeps_spares_entries.
  by apply keeps_entries_exec.
Qed.

Context {X : Type}.

Lemma unit_of_work_comments op (w : World DB X) r w' :
  RunInTx interp_before (run_op sv op) w = (r, w') -> comments_ok (w_db w) -> comments_ok (w_db w').
Proof.
  intros E Ho. apply RunInTx_cases in E
    as [(e & _ & -> & _) | (v & tx & tx1 & _ & E1 & E2 & _ & -> & _)]; [done|].
  pose proof (run_op_comments op _ _ _ E1 Ho) as Ho1. revert Ho1. apply spares_nobody_ok.
  eapply (keeps_run_before (spares nobody)) in E2; [exact E2|]. apply spares_interp_before.
Qed.

(** C8: What a comment shows has been judged.  Over any sequence of units of work of the
    post, comment, user and moderation services, every comment says exactly what one
    stored version says (the version it points at), and its status is the verdict of a
    moderation record on that very version: no comment is shown as passed whose current
    text no review let pass, whatever is edited, deleted, restored or reviewed late. *)
Theorem comments_reviewed (w w' : World DB X) :
  rtc (unit_step sv) w w' -> comments_ok (w_db w) -> comments_ok (w_db w').
Proof.
  induction 1 as [|w w1 w2 (op & r & E) _ IH]; [done|]. intros Ho. apply IH.
  by eapply unit_of_work_comments.
Qed.
End process.
