(* ===== verification/CommentReads.v ===== *)
(** * What readers of comments see

    The lists of comments ([List], [Replies]): every item is a comment of the floor it is
    listed under, as it is stored; somebody else's comments are listed only with a verdict
    that passed the very text that is shown. *)

From S2P Require Import Prelude.
From S2P Require Import GoText.
From S2P Require Import Apierr.
From S2P Require Import Effects.
From S2P Require Import Logic.
From S2P Require Import Model.
From S2P Require Import Pagination.
From S2P Require Import AuthRepo.
From S2P Require Import AuthService.
From S2P Require Import PostRepo.
From S2P Require Import CommentRepo.
From S2P Require Import Moderation.
From S2P Require Import PostService.
From S2P Require Import CommentService.
From S2P Require Import PostTables.
From S2P Require Import PostProps.
From S2P Require Import PostReviews.
From S2P Require Import Counters.
From S2P Require Import CommentLedger.
From S2P Require Import CommentOps.
From S2P Require Import CommentGate.
Import CommentService.
Open Scope Z_scope.

(** ** Rows and pages *)
(** A review let the text of the comment pass. *)
Definition reviewed (db : DB) (c : Comment.t) : Prop :=
  CommentRepository.active c = true /\
  stored db (Comment.ID c) (Comment.CurrentRevision c) (Comment.Content c) /\
  judged db (Comment.ID c) (Comment.CurrentRevision c) ModerationVerdictPass.

(** A row a list may show: of the floor, visible, and reviewed for all but its author. *)
Record may_show (db : DB) (viewer : Z) (floor : option Z) (c : Comment.t) : Prop := {
  ms_row : comments db !! Comment.ID c = Some c;
  ms_floor : Comment.RootID c = floor;
  ms_visible : CommentRepository.visible_to viewer c = true;
  ms_reviewed : Comment.AuthorID c <> viewer -> reviewed db c;
}.

(** An item says what its row says. *)
Record tells (db : DB) (viewer : Z) (floor : option Z) (item : CommentItem) (c : Comment.t)
    : Prop := {
  sh_row : may_show db viewer floor c;
  sh_id : it_ID item = Comment.ID c;
  sh_content : it_Content item = Comment.Content c;
  sh_status : it_Moderation item = Comment.Moderation c;
  sh_likes : it_LikeCount item = Comment.LikeCount c;
}.

Lemma visible_row db viewer c k :
  comments_ok db -> comments db !! k = Some c -> CommentRepository.visible_to viewer c = true ->
  may_show db viewer (Comment.RootID c) c.
Proof.
  intros Ho Hk Hv. destruct (comments_ok_row _ _ _ Ho Hk) as (<- & Hs & Hj).
  split; [done..|]. intros Hne.
  assert (CommentRepository.active c = true) as Ha.
  { revert Hv. unfold CommentRepository.visible_to.
    rewrite (proj2 (Z.eqb_neq _ _) Hne). cbn [andb]. by rewrite orb_false_r. }
  split_and!; [done..|]. apply andb_true_iff in Ha as [_ Hm].
  apply bool_decide_eq_true in Hm. by rewrite Hm in Hj.
Qed.

Lemma build_tells db viewer c author root relations :
  may_show db viewer (Comment.RootID c) c ->
  tells db viewer (Comment.RootID c) (buildCommentItem c author root relations) c.
Proof. by split. Qed.

Lemma elem_of_cut limit (rows : list Comment.t) c :
  c ∈ fst (CommentRepository.cut limit rows) -> c ∈ rows.
Proof.
  unfold CommentRepository.cut.
  assert (forall n (l : list Comment.t), c ∈ firstn n l -> c ∈ l) as Hf.
  { intros n l. rewrite <- (take_drop n l) at 2. intros. apply elem_of_app. by left. }
  destruct (_ <? _); cbn; eauto.
Qed.

Lemma length_cut limit (rows : list Comment.t) :
  0 <= limit -> Z.of_nat (length (fst (CommentRepository.cut limit rows))) <= limit.
Proof.
  intros Hl. unfold CommentRepository.cut. destruct (Z.ltb_spec limit (Z.of_nat (length
    (firstn (Z.to_nat (limit + 1)) rows)))); cbn; [|lia]. rewrite length_take. lia.
Qed.

(** The replies previewed under each root. *)
Lemma elem_of_rev {A} (x : A) l : x ∈ rev l <-> x ∈ l.
Proof. rewrite rev_alt. apply elem_of_reverse. Qed.

Lemma preview_floor viewer limit db root c :
  c ∈ CommentRepository.preview viewer limit db root ->
  Comment.RootID c = Some root /\ CommentRepository.visible_to viewer c = true /\
  exists k, comments db !! k = Some c.
Proof.
  unfold CommentRepository.preview. rewrite elem_of_rev. intros Hc.
  assert (c ∈ rev (sort_by CommentRepository.oldest_first
    (select (CommentRepository.replies_of root viewer) (comments db)))) as Hc'.
  { rewrite <- (take_drop (Z.to_nat limit)). apply elem_of_app. by left. }
  rewrite elem_of_rev, elem_of_sort_by in Hc'. apply elem_of_select in Hc' as [Hp Hk].
  apply andb_true_iff in Hp as [Hr Hv]. by apply bool_decide_eq_true in Hr.
Qed.

Lemma length_preview viewer limit db root :
  0 <= limit -> Z.of_nat (length (CommentRepository.preview viewer limit db root)) <= limit.
Proof. intros. unfold CommentRepository.preview. rewrite length_rev, length_take. lia. Qed.

Lemma filter_none {A} (P : A -> Prop) `{!forall x, Decision (P x)} (l : list A) :
  (forall x, x ∈ l -> ~ P x) -> filter P l = [].
Proof.
  induction l as [|x l IH]; intros Hl; [done|]. rewrite filter_cons, decide_False.
  - apply IH. intros y Hy. apply Hl. by right.
  - apply Hl. by left.
Qed.
Lemma filter_every {A} (P : A -> Prop) `{!forall x, Decision (P x)} (l : list A) :
  (forall x, x ∈ l -> P x) -> filter P l = l.
Proof.
  induction l as [|x l IH]; intros Hl; [done|]. rewrite filter_cons, decide_True, IH; [done| |].
  - intros y Hy. apply Hl. by right.
  - apply Hl. by left.
Qed.

(** The previews of the roots, told apart again: those of one root. *)
Lemma previews_of_root viewer limit db ids root :
  NoDup ids -> root ∈ ids ->
  filter (fun p => Comment.RootID p = Some root)
    (flat_map (CommentRepository.preview viewer limit db) ids) =
  CommentRepository.preview viewer limit db root.
Proof.
  assert (forall r, r <> root -> filter (fun p => Comment.RootID p = Some root)
    (CommentRepository.preview viewer limit db r) = []) as Hother.
  { intros r Hr. apply filter_none. intros c (Hc & _)%preview_floor. congruence. }
  assert (filter (fun p => Comment.RootID p = Some root)
    (CommentRepository.preview viewer limit db root) =
    CommentRepository.preview viewer limit db root) as Hown.
  { apply filter_every. intros c (Hc & _)%preview_floor. done. }
  induction ids as [|r ids IH]; [by intros _ ?%elem_of_nil|].
  intros [Hn Hd]%NoDup_cons Hin. cbn. rewrite filter_app.
  destruct (decide (r = root)) as [->|Hr].
  - rewrite Hown. enough (filter (fun p => Comment.RootID p = Some root)
      (flat_map (CommentRepository.preview viewer limit db) ids) = []) as -> by apply app_nil_r.
    clear IH Hd Hin. induction ids as [|r ids IH]; [done|]. cbn. rewrite filter_app.
    apply not_elem_of_cons in Hn as [Hr Hn]. by rewrite Hother, IH.
  - apply elem_of_cons in Hin as [?|Hin]; [done|]. by rewrite Hother, IH.
Qed.

(** ** The lists *)
Section service.
Context `{Env} `{Pg} `{Unicode} `{DbClock} (s : CommentService).

Lemma readablePost_inr post viewer (tx : TxD) p tx' :
  readablePost post viewer tx = (inr p, tx') -> tx_db tx' = tx_db tx.
Proof. unfold readablePost. intros E. by reads E. Qed.

(** The items are the roots of the page, each with the previews of its floor. *)
Lemma buildCommentList_inr roots previews author viewer (tx : TxD) items tx' :
  buildCommentList roots previews author viewer tx = (inr items, tx') ->
  exists relations, items = map (fun root =>
    with_replies (buildCommentItem root author true relations)
      (map (fun p => buildCommentItem p author false relations)
         (filter (fun p => Comment.RootID p = Some (Comment.ID root)) previews))) roots.
Proof.
  unfold buildCommentList. intros E. apply mbind_inr in E as (relations & s1 & _ & E).
  apply mret_inr in E as [<- _]. by exists relations.
Qed.

Lemma roots_shown post viewer sortBy params (tx : TxD) roots more tx' :
  comments_ok (tx_db tx) ->
  CommentRepository.FindRootPage post viewer sortBy params tx = (inr (roots, more), tx') ->
  tx_db tx' = tx_db tx /\
  forall c, c ∈ roots -> may_show (tx_db tx) viewer None c /\ Comment.PostID c = post.
Proof.
  intros Ho E.
  assert (forall p q (rows : list Comment.t), rows = sort_by q (select (fun c =>
      CommentRepository.roots_of post viewer c && p c) (comments (tx_db tx))) ->
    forall c, c ∈ fst (CommentRepository.cut (cp_Limit params) rows) ->
      may_show (tx_db tx) viewer None c /\ Comment.PostID c = post) as Hrows.
  { intros p q rows -> c Hc%elem_of_cut. rewrite elem_of_sort_by in Hc.
    apply elem_of_select in Hc as [Hc [k Hk]]. apply andb_true_iff in Hc as [Hc _].
    unfold CommentRepository.roots_of in Hc. apply andb_true_iff in Hc as [Hc Hv].
    apply andb_true_iff in Hc as [Hp Hr]. apply bool_decide_eq_true in Hr.
    split; [|lia]. rewrite <- Hr. by eapply visible_row. }
  unfold CommentRepository.FindRootPage in E.
  destruct (bool_decide (sortBy = "hot"%string)); [destruct (CommentRepository.missing_rank _); [done|]|];
    apply query_inr in E as [E [D _]]; (split; [done|]); intros c Hc;
    (eapply Hrows; [reflexivity|]); rewrite <- E; exact Hc.
Qed.

Lemma previews_shown ids viewer limit (tx : TxD) previews tx' :
  CommentRepository.FindReplyPreviews ids viewer limit tx = (inr previews, tx') -> 0 < limit ->
  tx_db tx' = tx_db tx /\
  previews = flat_map (CommentRepository.preview viewer limit (tx_db tx)) (uniqueSortedIDs ids).
Proof.
  unfold CommentRepository.FindReplyPreviews. intros E Hl. destruct (uniqueSortedIDs ids); [by run_inv|].
  destruct (Z.leb_spec limit 0); [lia|]. by apply query_inr in E as [-> [D _]].
Qed.

(** The previews of one root, whether it is asked for or not. *)
Lemma previews_filtered viewer limit db ids root c :
  c ∈ filter (fun p => Comment.RootID p = Some root)
        (flat_map (CommentRepository.preview viewer limit db) (uniqueSortedIDs ids)) ->
  c ∈ CommentRepository.preview viewer limit db root.
Proof.
  intros [Hr Hc]%list_elem_of_filter. apply list_elem_of_In, in_flat_map in Hc as (r & _ & Hc).
  apply list_elem_of_In in Hc. destruct (preview_floor _ _ _ _ _ Hc) as [Hr' _]. congruence.
Qed.

Lemma NoDup_uniqueSortedIDs ids : NoDup (uniqueSortedIDs ids).
Proof. apply NoDup_sort_by, NoDup_remove_dups. Qed.

Lemma length_previews viewer limit db ids root :
  0 <= limit -> Z.of_nat (length (filter (fun p => Comment.RootID p = Some root)
    (flat_map (CommentRepository.preview viewer limit db) (uniqueSortedIDs ids)))) <= limit.
Proof.
  intros Hl. destruct (decide (root ∈ uniqueSortedIDs ids)) as [Hin|Hout].
  - rewrite previews_of_root; [by apply length_preview|apply NoDup_uniqueSortedIDs|done].
  - rewrite filter_none; [done|]. intros c Hc Hr.
    apply list_elem_of_In, in_flat_map in Hc as (r & Hrin & Hc).
    apply list_elem_of_In in Hc. destruct (preview_floor _ _ _ _ _ Hc) as [Hr' _].
    apply Hout, list_elem_of_In. congruence.
Qed.

(** A root as listed, with at most two replies of its floor. *)
Record listed (db : DB) (post viewer : Z) (item : CommentItem) : Prop := {
  li_root : exists c, tells db viewer None item c /\ Comment.PostID c = post;
  li_replies : Forall (fun r => exists c, tells db viewer (Some (it_ID item)) r c) (it_Replies item);
  li_bound : Z.of_nat (length (it_Replies item)) <= commentReplyPreviewLimit;
}.

(** C10: The list of the comments of a post shows every reader only what they may see.
    Each item is a comment of the post without a parent, each reply under it (at most
    two) one of its floor, with the text, status and likes of the stored row.  What
    somebody else wrote is listed only while it is active, and then a review let exactly
    the text that is shown pass; one's own comments are also listed while a review
    holds them back. *)
Theorem list_shows_reviewed post viewer sortBy request (tx : TxD) l tx' :
  comments_ok (tx_db tx) -> List_ s post viewer sortBy request tx = (inr l, tx') ->
  Forall (listed (tx_db tx) post viewer) (cl_Comments l).
Proof.
  intros Ho E. unfold List_ in E.
  apply mbind_inr in E as (p & s1 & E1%readablePost_inr & E).
  apply mbind_inr in E as (sort & s2 & [_ <-]%lift_inr & E).
  apply mbind_inr in E as (params & s2 & [_ <-]%lift_inr & E). destruct (_ && _); [done|].
  apply mbind_inr in E as ([roots more] & s3 & E3 & E). apply caught in E3; [|apply throws_internal].
  rewrite <- E1 in Ho |- *. eapply roots_shown in E3 as [D3 Hroots]; [|exact Ho].
  apply mbind_inr in E as (previews & s4 & E4 & E). apply caught in E4; [|apply throws_internal].
  apply previews_shown in E4 as [_ ->]; [|done]. rewrite D3 in E. clear D3.
  apply mbind_inr in E as (items & s5 & [relations ->]%buildCommentList_inr & E).
  apply mbind_inr in E as (meta & s6 & _ & E). apply mret_inr in E as [<- _]. cbn.
  apply Forall_map, Forall_forall. intros c Hc. destruct (Hroots c Hc) as [Hm Hp].
  split; cbn.
  - exists c. split; [|done]. by split.
  - apply Forall_map, Forall_forall. intros r Hr%previews_filtered%preview_floor.
    destruct Hr as (Hr & Hv & k & Hk). exists r. rewrite <- Hr.
    apply build_tells. by eapply visible_row.
  - rewrite length_map. by apply length_previews.
Qed.
End service.
