(* ===== verification/Bystanders.v ===== *)
(** * What most statements leave alone

    Most statements of the services touch neither who has an account, nor the usernames
    with their books, nor the dictionaries, nor bans and roles.  A relation between tables that holds when
    these are unchanged and that the few statements which do change them keep
    ([Bystander]) is kept by every operation of the post, comment, user and moderation
    services and by the auth service.  The usernames and the dictionaries are such
    relations. *)

From S2P Require Import Prelude.
From S2P Require Import GoText.
From S2P Require Import Apierr.
From S2P Require Import Effects.
From S2P Require Import Logic.
From S2P Require Import Model.
From S2P Require Import Validation.
From S2P Require Import Digest.
From S2P Require Import AuthRepo.
From S2P Require Import AuthService.
From S2P Require Import AuthHandler.
From S2P Require Import AuthTables.
From S2P Require Import AuthCodes.
From S2P Require Import ImageAccess.
From S2P Require Import Notifications.
From S2P Require Import Money.
From S2P Require Import PostRepo.
From S2P Require Import CommentRepo.
From S2P Require Import UserRepo.
From S2P Require Import Moderation.
From S2P Require Import UserService.
From S2P Require Import SingleReview.
From S2P Require Import PostService.
From S2P Require Import CommentService.
From S2P Require Import PostTables.
From S2P Require Import PostProps.
From S2P Require Import Counters.
From S2P Require Import CommentLedger.
From S2P Require Import CommentOps.
From S2P Require Import UserOps.
From S2P Require Import ReviewOps.
From S2P Require Import PostOps.
From S2P Require Import PostGate.
From S2P Require Import PostLedger.
Open Scope Z_scope.


(** ** The view *)
(** Who bears which name; deleted users keep theirs. *)
Definition bearers (db : DB) : gmap Z (Z * string) :=
  (fun u => (User.ID u, User.Username u)) <$> users db.

Definition people (db : DB) :=
  (bearers db, user_name_claims db, user_name_change_records db).

(** Which posts there are, and the tables of the dictionaries. *)
Definition post_ids (db : DB) : gmap Z unit := (fun _ => tt) <$> posts db.
Definition dictionaries (db : DB) :=
  (flavors db, cuisines db, canteens db, canteen_windows db, dictionary_suggestions db).

(** Who is banned, who holds which role, and the records of both. *)
Definition sanction (u : User.t) : Z * bool * option time * option string * option Z :=
  (User.ID u, User.BanIsPermanent u, User.BannedUntil u, User.BanReason u, User.BannedBy u).
Definition sanctions (db : DB) := sanction <$> users db.
Definition offices (db : DB) :=
  (sanctions db, user_roles db, user_ban_records db, user_role_records db).

Definition surroundings (db : DB) := (people db, post_ids db, dictionaries db, offices db).

Class Bystander `{Env} `{Pg} (D : relation DB) := {
  by_preorder :: PreOrder D;
  by_quiet : forall db db', surroundings db' = surroundings db -> D db db';
  by_insert_user : forall user cid db r db',
    UserRepository.insert_user user cid db = inr (r, db') -> D db db';
  by_update_user : forall f claim_id change_id at_ now id db n db',
    UserDomain.update_user f claim_id change_id at_ now id db = inr (n, db') -> D db db';
  by_claim : forall id name now, Keeps D (UserRepository.ClaimUsername id name now);
  by_insert_post : forall id post db, posts db !! id = None ->
    D db (db <| posts := <[id := post]> (posts db) |>);
}.

(** An update that leaves identities and names alone. *)
Lemma bearers_update p f db :
  (forall u, User.ID (f u) = User.ID u /\ User.Username (f u) = User.Username u /\
     User.BanIsPermanent (f u) = User.BanIsPermanent u /\
     User.BannedUntil (f u) = User.BannedUntil u /\ User.BanReason (f u) = User.BanReason u /\
     User.BannedBy (f u) = User.BannedBy u) ->
  surroundings (db <| users := snd (update_where p f (users db)) |>) = surroundings db.
Proof.
  intros Hf. unfold surroundings, people, bearers, offices, sanctions. cbn -[update_where].
  rewrite (update_where_fmap (fun u => (User.ID u, User.Username u))),
    (update_where_fmap sanction); [done|intros u; unfold sanction; destruct (Hf u) as (? & ? & ? & ? & ? & ?); cbn; congruence..].
Qed.

(** Posts change; none comes or goes. *)
Lemma posts_update p f db :
  surroundings (db <| posts := snd (update_where p f (posts db)) |>) = surroundings db.
Proof.
  unfold surroundings, post_ids. cbn -[update_where]. do 3 f_equal. by apply update_where_fmap.
Qed.

Lemma surroundings_bump f id db : surroundings (PostRepository.bump f id db) = surroundings db.
Proof. apply (posts_update _ _ db). Qed.

Lemma quiet_images db :
  (forall now i, surroundings (activate now db i) = surroundings db) /\
  (forall now i, surroundings (retire now db i) = surroundings db).
Proof. split; intros; unfold activate, retire; by repeat case_match. Qed.

(** A controller of the images' access that is quiet. *)
Class QuietAccess `{Env} `{Pg} (access : ImageAccessController) :=
  access_quiet : forall a r p q, Keeps (unchanged surroundings) (Apply access a r p q).

(** ** The statements *)
Section quiet.
Context `{Env} `{Pg} `{DbClock}.
Context (D : relation DB) `{!Bystander D}.

Lemma keeps_quiet {R} (m : MT R) : Keeps (unchanged surroundings) m -> Keeps D m.
Proof. intros Hm tx r tx' E. apply by_quiet. by eapply Hm. Qed.

Lemma keeps_quiet_exec (f : DB -> DB) :
  (forall db, surroundings (f db) = surroundings db) -> Keeps (B := BeforeOp) (A := AfterOp) D (exec f).
Proof. intros Hf. apply keeps_quiet. by apply (keeps_exec _). Qed.

(** A statement that cases on the tables and writes others. *)
Ltac quiet := apply (keeps_stmt _); intros ? ? ?; repeat case_match; intros; simplify_eq;
  apply by_quiet; rewrite ?surroundings_bump; done.

Lemma quiet_CreateRecord r : Keeps D (CreateRecord r).
Proof.
  unfold CreateRecord. solve_keeps. apply (keeps_stmt _). intros db x db'.
  destruct (insert_record _ _ _) eqn:Ei; [done|]. intros [= _ <-].
  apply insert_record_inr in Ei as (_ & _ & ->). by apply by_quiet.
Qed.

Lemma quiet_RevokeAll id now : Keeps D (SessionRepository.RevokeAll id now).
Proof. by apply keeps_quiet_exec. Qed.

#[global] Instance quiet_users : UserWrites D.
Proof.
  split; intros; try apply quiet_CreateRecord.
  - unfold UserDomain.UpdateProfile. pose proof (keeps_DbNow D).
    destruct (UserDomain.is_empty fields); [solve_keeps|].
    do 4 (apply (keeps_bind _); [solve_keeps|intros ?]). apply (keeps_found_row _).
    apply (keeps_stmt _). intros db n db'. apply by_update_user.
  - apply by_claim.
  - apply (keeps_found_row _), (keeps_stmt _). intros db n db' [= _ <-]. apply by_quiet.
    by apply (bearers_update _ _ db).
  - apply quiet_RevokeAll.
  - unfold UserDomain.Follow. pose proof (keeps_DbNow D). solve_keeps. quiet.
  - by apply keeps_quiet_exec.
  - unfold NotificationRepository.Create. solve_keeps. quiet.
Qed.

Lemma surroundings_sync was now c db :
  surroundings (CommentRepository.sync_counts was now c db) = surroundings db.
Proof.
  unfold CommentRepository.sync_counts. repeat case_match; rewrite ?surroundings_bump; done.
Qed.

#[global] Instance quiet_comments : CommentWrites D.
Proof.
  assert (forall id p f, Keeps D (CommentRepository.UpdateRow id p f)) as Hu.
  { intros id p f. apply (keeps_found_row _), (keeps_stmt _). intros db n db' [= E].
    apply by_quiet. unfold CommentRepository.update_comment in E.
    repeat case_match; simplify_eq; rewrite ?surroundings_sync; done. }
  split; intros; try apply Hu; try apply quiet_CreateRecord.
  - unfold CommentRepository.CreateHistory. solve_keeps. quiet.
  - unfold CommentRepository.NextHistoryRevision. apply (keeps_stmt _). intros db r db'. cbn zeta.
    case_match; [|done]. by intros [= _ <-].
  - unfold CommentRepository.ReplaceMentions. solve_keeps; [by apply keeps_quiet_exec|]. quiet.
  - unfold CommentRepository.CreateNotifications.
    pose proof (fun l => keeps_next_ids D (A := Notification.t) l). solve_keeps. quiet.
  - unfold CommentRepository.Like. solve_keeps. quiet.
  - unfold CommentRepository.Unlike. apply keeps_quiet_exec. intros db. by case_match.
Qed.

Lemma quiet_CreateComment `{Unicode} s post input author :
  Keeps D (CommentService.Create s post input author).
Proof.
  assert (forall c, Keeps D (CommentRepository.Create c)) as Hc.
  { intros c. unfold CommentRepository.Create. solve_keeps. apply (keeps_stmt _). intros db r db'.
    case_match; [done|]. intros [= _ <-]. apply by_quiet. by rewrite surroundings_sync. }
  pose proof (keeps_moderateComment s D). unfold CommentService.Create. solve_keeps.
Qed.

Lemma surroundings_foldl (f : DB -> Z -> DB) l db :
  (forall db id, surroundings (f db id) = surroundings db) -> surroundings (foldl f db l) = surroundings db.
Proof. intros Hf. revert db. induction l; intros db; cbn; [done|]. by rewrite IHl. Qed.

Lemma quiet_update_posts p f : Keeps D (PostRepository.update_posts p f).
Proof.
  unfold PostRepository.update_posts. apply (keeps_stmt _). intros db r db' [= _ <-].
  apply by_quiet, posts_update.
Qed.
Lemma quiet_found_posts p f :
  Keeps D (PostRepository.found_row (PostRepository.update_posts p f)).
Proof. apply (keeps_found_row _), quiet_update_posts. Qed.

Lemma quiet_ReplaceImages id ids : Keeps D (PostRepository.ReplaceImages id ids).
Proof.
  unfold PostRepository.ReplaceImages. pose proof (keeps_DbNow D). solve_keeps.
  - apply keeps_quiet_exec. intros db. unfold PostRepository.delete_images.
    rewrite surroundings_foldl; [done|]. intros. by apply quiet_images.
  - apply (keeps_stmt _). intros db r db'. unfold PostRepository.insert_images.
    case_match; [done|]. destruct (insert_rows _ _ _ _); [done|]. intros [= _ <-].
    apply by_quiet. rewrite surroundings_foldl; [done|]. intros. by apply quiet_images.
Qed.

Lemma quiet_Apply access `{!QuietAccess access} a r p q : Keeps D (Apply access a r p q).
Proof. apply keeps_quiet, access_quiet. Qed.

#[global] Instance quiet_posts access `{!QuietAccess access} : PostWrites access D.
Proof.
  split; intros; try apply quiet_CreateRecord; try (by apply quiet_Apply);
    try apply quiet_found_posts; try apply quiet_ReplaceImages.
  - unfold ModerationRepository.CreateMachineRecordIfNew. solve_keeps. apply (keeps_stmt _).
    intros db x db'. case_match; [by intros [= _ <-]|].
    destruct (insert_record _ _ _) eqn:Ei; [done|]. intros [= _ <-].
    apply insert_record_inr in Ei as (_ & _ & ->). by apply by_quiet.
  - by apply keeps_quiet_exec.
  - apply (keeps_found_row _), (keeps_stmt _). intros db r db' [= _ <-]. by apply by_quiet.
  - apply (keeps_stmt _). intros db r db' [= _ <-]. apply by_quiet, posts_update.
  - unfold PostRepository.Create. solve_keeps. apply (keeps_stmt _). intros db r db'.
    destruct (insert_row _ _ _ _) as [|t] eqn:Hi; [done|]. intros [= _ <-].
    apply insert_row_inr in Hi as [Hn ->]. by apply by_insert_post.
  - unfold PostRepository.UpdateStatus.
    apply (keeps_bind _); [by apply quiet_update_posts | solve_keeps].
  - unfold PostRepository.CreateHistory. solve_keeps. quiet.
  - unfold PostRepository.FindOrCreateTag. pose proof (keeps_DbNow D). solve_keeps. quiet.
  - unfold PostRepository.SetTagModeration. solve_keeps. by apply keeps_quiet_exec.
  - unfold PostRepository.ReplaceTags. solve_keeps; [by apply keeps_quiet_exec|]. quiet.
  - unfold PostRepository.ReplaceFlavors. solve_keeps; [by apply keeps_quiet_exec|]. quiet.
  - solve_keeps.
  - unfold PostRepository.Like. solve_keeps. quiet.
  - unfold PostRepository.Unlike. apply keeps_quiet_exec. intros db.
    case_match; rewrite ?surroundings_bump; done.
  - unfold PostRepository.Favorite. solve_keeps. quiet.
  - unfold PostRepository.Unfavorite. apply keeps_quiet_exec. intros db.
    case_match; rewrite ?surroundings_bump; done.
Qed.

#[global] Instance quiet_reviews access `{!QuietAccess access} : ReviewWrites access D.
Proof.
  pose proof (quiet_posts access). split; intros; try (by apply quiet_CreateRecord);
    try (by apply quiet_Apply).
  - by apply pw_image.
  - unfold SingleReviewRepository.applyManualTagVerdict. solve_keeps. by apply keeps_quiet_exec.
Qed.
End quiet.

#[global] Instance discard_quiet `{Env} `{Pg} : QuietAccess DiscardAccess.
Proof. intros a r p q. cbn. solve_keeps. Qed.
#[global] Instance durable_quiet `{Env} `{Pg} : QuietAccess DurableAccess.
Proof.
  intros a r p q. cbn. unfold DurableImageAccess_Apply, ImageAccessOutbox.Enqueue.
  solve_keeps. apply (keeps_stmt _). intros db n db' E. unfold unchanged.
  unfold ImageAccessOutbox.enqueue in E. repeat case_match; naive_solver.
Qed.

(** ** The operations on posts, comments and users *)
Section process.
Context `{Env} `{Pg} `{Unicode} `{DbClock} `{Decimal}.
Context (sv : Services).
Abbreviation access := (ps_imageAccess (sv_posts sv)).
Context `{!QuietAccess access} (D : relation DB) `{!Bystander D}.

Lemma run_op_bystander op : Keeps D (run_op sv op).
Proof.
  pose proof (ops_writes (sv_posts sv) D) as (? & ? & ? & ?).
  pose proof (ops_decisions access D) as (_ & ? & _).
  pose proof (keeps_AdminManualReview access D).
  pose proof (keeps_Update (sv_comments sv) D).
  pose proof (keeps_Delete D). pose proof (keeps_Like D). pose proof (keeps_Unlike D).
  pose proof (keeps_AdminDeleteComment D). pose proof (keeps_AdminRestoreComment D).
  pose proof (keeps_UpdateUser (sv_users sv) D). pose proof (keeps_DeleteUser D).
  pose proof (keeps_Follow D). pose proof (keeps_Unfollow D).
  pose proof (quiet_CreateComment D (sv_comments sv)).
  destruct op; cbn [run_op]; unfold discard, ModerationService.ApplyImageCallback,
    ModerationService.ApplyImageResult;
    try pose proof (ops_interactions D id user) as (? & ? & ? & ?);
    try pose proof (ops_admin (sv_posts sv) D id actor) as (? & ? & ?);
    try pose proof (ops_admin (sv_posts sv) D id reviewer) as (? & ? & ?); solve_keeps.
Qed.

Lemma quiet_before op : Keeps D (interp_before op).
Proof.
  destruct op as [sid now]. cbn. unfold SessionRepository.Touch. by apply keeps_quiet_exec.
Qed.
End process.

(** ** The auth service *)
Section auth.
Context `{Env} `{Pg} `{Unicode} `{Mail} `{JWT} `{Bcrypt}.
Context (h : AuthService) (D : relation DB) `{!Bystander D}.
Context (Hqueue : forall q, deliveries h = Some q -> QueueFrame surroundings q).

Lemma quiet_UpdatePassword id hash : Keeps D (UserRepository.UpdatePassword id hash).
Proof.
  unfold UserRepository.UpdatePassword. solve_keeps. apply (keeps_stmt _). intros db n db' [= _ <-].
  apply by_quiet. by apply (bearers_update _ _ db).
Qed.
Lemma quiet_UserRecord r : Keeps D (UserRepository.CreateModerationRecord r).
Proof.
  unfold UserRepository.CreateModerationRecord. solve_keeps. apply (keeps_stmt _). intros db u db'.
  destruct (insert_row _ _ _ _); [done|]. intros [= _ <-]. by apply by_quiet.
Qed.
Lemma quiet_UserCreate user : Keeps D (UserRepository.Create user).
Proof.
  unfold UserRepository.Create. solve_keeps. apply (keeps_stmt _). intros db r db'.
  apply by_insert_user.
Qed.
Lemma quiet_LockOrCreate email purpose now :
  Keeps D (VerificationCodeRepository.LockOrCreate email purpose now).
Proof.
  unfold VerificationCodeRepository.LockOrCreate. solve_keeps. apply (keeps_stmt _). intros db u db'.
  repeat case_match; intros; simplify_eq; by apply by_quiet.
Qed.
Lemma quiet_SaveState c now : Keeps D (VerificationCodeRepository.SaveState c now).
Proof. unfold VerificationCodeRepository.SaveState. solve_keeps; by apply keeps_quiet_exec. Qed.

Lemma quiet_SessionCreate session : Keeps D (SessionRepository.Create session).
Proof.
  unfold SessionRepository.Create. solve_keeps. apply (keeps_stmt _). intros db u db'.
  repeat case_match; intros; simplify_eq; by apply by_quiet.
Qed.
Lemma quiet_SetRefreshDigest id d : Keeps D (SessionRepository.SetRefreshDigest id d).
Proof.
  unfold SessionRepository.SetRefreshDigest. apply (keeps_stmt _). intros db u db'.
  repeat case_match; intros; simplify_eq; by apply by_quiet.
Qed.
Lemma quiet_Revoke user id now : Keeps D (SessionRepository.Revoke user id now).
Proof.
  unfold SessionRepository.Revoke. solve_keeps. apply (keeps_stmt _). intros db n db' [= _ <-].
  by apply by_quiet.
Qed.
#[local] Hint Resolve quiet_UpdatePassword quiet_UserRecord quiet_LockOrCreate quiet_SaveState
  quiet_SessionCreate quiet_SetRefreshDigest quiet_Revoke quiet_UserCreate quiet_RevokeAll
  by_claim quiet_before : keeps.

Lemma quiet_enqueue challenge email purpose digest code now :
  Keeps D (enqueueVerificationEmail h challenge email purpose digest code now).
Proof.
  unfold enqueueVerificationEmail. repeat case_match; try apply (keeps_api_error _).
  apply (keeps_bind _); [|solve_keeps].
  apply (keeps_on_error _); [|intros; apply (keeps_internal _)].
  apply (keeps_quiet _). by eapply Hqueue.
Qed.
#[local] Hint Resolve quiet_enqueue : keeps.

Lemma quiet_hash_password p : Keeps D (hash_password p).
Proof. apply (keeps_same _). intros tx r tx'. by intros [= _ <-]. Qed.
#[local] Hint Resolve quiet_hash_password : keeps.

Lemma quiet_auth_reads :
  (forall u, Keeps D (userView u)) /\
  (forall uid sid typ now ttl, Keeps D (sign h uid sid typ now ttl)) /\
  Keeps D randomDigest /\ Keeps D generateVerificationCode /\
  (forall token typ, Keeps D (parse_claims h token typ)) /\
  (forall R e, Keeps D (sessionLookupError (A := R) e)) /\
  (forall R (f : DB -> option R), Keeps D (First f)) /\
  (forall m, Keeps D m -> Keeps D (lookup_user m)) /\
  (forall m, Keeps D m -> Keeps D (found_or_invalid_code m)) /\
  (forall id, Keeps D (findLoginUser h id)) /\
  (forall purpose email code, Keeps D (consumeVerification h purpose email code)).
Proof.
  assert (forall R (f : DB -> option R), Keeps D (First f)) by (intros; unfold First; solve_keeps).
  assert (forall R e, Keeps D (sessionLookupError (A := R) e))
    by (intros; unfold sessionLookupError; solve_keeps).
  unfold userView, sign, randomDigest, generateVerificationCode, parse_claims, lookup_user,
    found_or_invalid_code, findLoginUser, consumeVerification, UserRepository.FindByEmail,
    UserRepository.FindByUsername, VerificationCodeRepository.LockExisting.
  split_and!; solve_keeps.
Qed.

Lemma quiet_service db0 : ServiceInv h (D db0).
Proof.
  pose proof quiet_auth_reads as (? & ? & ? & ? & ? & ? & ? & ? & ? & ? & ?).
  assert (forall R (m : MT R), Keeps D m -> Inv (D db0) m any) as Hc.
  { intros R m Hm tx r tx' E Hp. split; [|done]. etrans; [exact Hp | by eapply Hm]. }
  assert (forall user client now, Keeps D (issueSession h user client now))
    by (intros; unfold issueSession; solve_keeps).
  split; intros; apply Hc.
  - unfold SendVerificationCode, UserRepository.FindByEmail. solve_keeps.
  - unfold SendPasswordResetCode, UserRepository.FindByEmail, UserRepository.LockByID. solve_keeps.
  - unfold ResetPassword, UserRepository.FindByEmail, UserRepository.LockByID. solve_keeps.
  - unfold Register, validateModerationResult, UserRepository.FindByEmail. solve_keeps.
  - unfold Login, UserRepository.LockByID. solve_keeps.
  - unfold Refresh, SessionRepository.FindRefreshIdentity, deferSessionTouch. solve_keeps.
  - unfold Authenticate, SessionRepository.FindActiveIdentity, deferSessionTouch. solve_keeps.
  - unfold CurrentUser. solve_keeps.
  - unfold Logout. solve_keeps.
  - unfold LogoutAll. solve_keeps.
  - unfold Sessions, SessionRepository.ListActive. solve_keeps.
  - unfold KickSession. solve_keeps.
  - apply quiet_before.
  Unshelve. all: apply _.
Qed.
End auth.

(** ** The system *)
Section system.
Context `{Env} `{Pg} `{Unicode} `{DbClock} `{Decimal} `{Mail} `{JWT} `{Bcrypt}.
Context (h : AuthService) (sv : Services).
Context `{!QuietAccess (ps_imageAccess (sv_posts sv))}.
Context (Hqueue : forall q, deliveries h = Some q -> QueueFrame surroundings q).
Context {X : Type} (ia : AfterOp -> World DB X -> World DB X * option string).
Context (Hia : forall op w w' p, ia op w = (w', p) -> w_db w' = w_db w).
Abbreviation WorldD := (World DB X).

(** A request to the auth service, or a unit of work of the others. *)
Inductive system_step : WorldD -> WorldD -> Prop :=
| step_auth w w' : auth_step h ia w w' -> system_step w w'
| step_unit w w' : unit_step sv w w' -> system_step w w'.

Lemma system_step_bystander D `{!Bystander D} (w w' : WorldD) :
  system_step w w' -> D (w_db w) (w_db w').
Proof.
  intros [? ? Ha|? ? (op & r & E)].
  - apply (inv_reachable h (D (w_db w0)) (quiet_service h D Hqueue _) ia Hia w0 w'0); [|done].
    by apply rtc_once.
  - exact (keeps_RunInTx _ _ _ _ _ _ (quiet_before D) (run_op_bystander sv D op) E).
Qed.
End system.
