(* ===== verification/Names.v ===== *)
(** * Usernames

    A name belongs to the user who first held it: [user_name_claims] is only appended to,
    a name (without regard to case) has one claim, and whoever bears a name holds its
    claim.  Two changes of one user's name are 720 hours apart.  Kept by every statement
    of the auth, user, post, comment and moderation services ([names]), and so by any
    interleaving of their units of work. *)

From S2P Require Import Prelude.
From S2P Require Import GoText.
From S2P Require Import Apierr.
From S2P Require Import Effects.
From S2P Require Import Logic.
From S2P Require Import Model.
From S2P Require Import Validation.
From S2P Require Import Digest.
From S2P Require Import AuthRepo.
From S2P Require Import AuthService.
From S2P Require Import AuthHandler.
From S2P Require Import AuthTables.
From S2P Require Import AuthCodes.
From S2P Require Import ImageAccess.
From S2P Require Import Notifications.
From S2P Require Import Money.
From S2P Require Import PostRepo.
From S2P Require Import CommentRepo.
From S2P Require Import UserRepo.
From S2P Require Import Moderation.
From S2P Require Import UserService.
From S2P Require Import SingleReview.
From S2P Require Import PostService.
From S2P Require Import CommentService.
From S2P Require Import PostTables.
From S2P Require Import PostProps.
From S2P Require Import Counters.
From S2P Require Import CommentLedger.
From S2P Require Import CommentOps.
From S2P Require Import UserOps.
From S2P Require Import ReviewOps.
From S2P Require Import PostOps.
From S2P Require Import PostGate.
From S2P Require Import PostLedger.
From S2P Require Import Bystanders.
Open Scope Z_scope.

(** ** The invariant *)
Section invariant.
Context `{Pg}.

(** [name]'s claim is [id]'s. *)
Definition claimed (db : DB) (id : Z) (name : string) : Prop :=
  exists k c, user_name_claims db !! k = Some c /\ UsernameClaim.UserID c = id /\
    UserRepository.fold_name (UsernameClaim.Username c) = UserRepository.fold_name name.

(** The two tables the triggers write. *)
Record book_ok (db : DB) : Prop := {
  bk_claims : unique_on all_rows claim_key (user_name_claims db);
  bk_apart : forall k k' r r', user_name_change_records db !! k = Some r ->
    user_name_change_records db !! k' = Some r' -> k <> k' ->
    UsernameChangeRecord.UserID r = UsernameChangeRecord.UserID r' ->
    UserDomain.username_cooldown <=
      Z.abs (UsernameChangeRecord.ChangedAt r - UsernameChangeRecord.ChangedAt r');
}.

Record names_ok (db : DB) : Prop := {
  nm_book : book_ok db;
  nm_users : forall k b, bearers db !! k = Some b -> fst b = k;
  nm_held : forall k b, bearers db !! k = Some b -> claimed db k (snd b);
}.

(** What a computation did to the tables, and to the invariant. *)
Record booked (db db' : DB) : Prop := {
  bk_claims_kept : user_name_claims db ⊆ user_name_claims db';
  bk_changes_kept : user_name_change_records db ⊆ user_name_change_records db';
  bk_ok : book_ok db -> book_ok db';
}.
(** Since [db], a change of the user's name was recorded. *)
Definition change_recorded (db db' : DB) (id : Z) : Prop :=
  exists k r, user_name_change_records db' !! k = Some r /\
    user_name_change_records db !! k = None /\ UsernameChangeRecord.UserID r = id.

Record names (db db' : DB) : Prop := {
  nm_booked : booked db db';
  nm_ok : names_ok db -> names_ok db';
  nm_follow : names_ok db -> forall k b, bearers db !! k = Some b ->
    exists b', bearers db' !! k = Some b' /\ (snd b' = snd b \/ change_recorded db db' k);
}.

#[global] Instance booked_preorder : PreOrder booked.
Proof.
  split; [by split|]. intros db1 db2 db3 [] []. split; [by etrans|by etrans|auto].
Qed.
#[global] Instance names_preorder : PreOrder names.
Proof.
  split; [split; by eauto|]. intros db1 db2 db3 [B1 O1 F1] [B2 O2 F2]. split; [by etrans|auto|].
  intros Ho k b Hb. destruct (F1 Ho k b Hb) as (b2 & Hb2 & C1).
  destruct (F2 (O1 Ho) k b2 Hb2) as (b3 & Hb3 & C2). exists b3. split; [done|].
  destruct C2 as [->|(i & r & Hi & Hn & Hu)].
  - destruct C1 as [->|(i & r & Hi & Hn & Hu)]; [by left|]. right. exists i, r.
    split_and!; [|done..]. eapply lookup_weaken; [exact Hi|apply B2].
  - right. exists i, r. split_and!; [done| |done].
    eapply lookup_weaken_None; [exact Hn|apply B1].
Qed.

Lemma claimed_mono db db' id name :
  user_name_claims db ⊆ user_name_claims db' -> claimed db id name -> claimed db' id name.
Proof. intros Hs (k & c & Hk & Hc). exists k, c. split; [by eapply lookup_weaken|done]. Qed.

Lemma names_bearers db db' : booked db db' -> bearers db' = bearers db -> names db db'.
Proof.
  intros Hb E. split; [done| |].
  - intros [H1 H2 H3]. rewrite <- E in H2, H3.
    split; [by apply Hb|done|]. intros k b Hk. eapply claimed_mono; [apply Hb|]. by apply H3.
  - intros _ k b Hk. exists b. rewrite E. auto.
Qed.

Lemma booked_same db db' :
  user_name_claims db' = user_name_claims db ->
  user_name_change_records db' = user_name_change_records db -> booked db db'.
Proof.
  intros Ec Er. split; [by rewrite Ec|by rewrite Er|].
  intros [H1 H2]. split; [by rewrite Ec|by rewrite Er].
Qed.

Lemma names_people db db' : people db' = people db -> names db db'.
Proof.
  unfold people. intros [= Eb Ec Er]. apply names_bearers; [by apply booked_same|done].
Qed.

Lemma names_if db db' : booked db db' -> (names_ok db -> names db db') -> names db db'.
Proof. intros Hb Hn. split; [done|..]; intros Ho; by apply Hn. Qed.

(** Somebody takes a name whose claim is theirs. *)
Lemma names_bear db db' id name :
  booked db db' -> bearers db' = <[id := (id, name)]> (bearers db) -> claimed db' id name ->
  (forall b, bearers db !! id = Some b -> name = snd b \/ change_recorded db db' id) ->
  names db db'.
Proof.
  intros Hb E Hc Hr. split; [done| |].
  - intros [H1 H2 H3]. split; [by apply Hb|..]; rewrite E.
    + intros k b [[<- <-]|[_ Hk]]%lookup_insert_Some; [done|by apply H2].
    + intros k b [[<- <-]|[_ Hk]]%lookup_insert_Some; [done|].
      eapply claimed_mono; [apply Hb|]. by apply H3.
  - intros _ k b Hk. rewrite E. destruct (decide (id = k)) as [<-|Hne].
    + rewrite lookup_insert_eq. exists (id, name). auto.
    + rewrite lookup_insert_ne by done. eauto.
Qed.

(** A name is one user's. *)
Lemma claimed_one db id id' name name' :
  book_ok db -> claimed db id name -> claimed db id' name' ->
  UserRepository.fold_name name = UserRepository.fold_name name' -> id = id'.
Proof.
  intros Ho (k & c & Hk & <- & Hn) (k' & c' & Hk' & <- & Hn') E.
  assert (k = k') as <- by (eapply (bk_claims _ Ho); eauto; unfold claim_key; congruence).
  congruence.
Qed.

(** ** Claims *)
Lemma claim_holder_claimed db name c :
  UserRepository.claim_holder name db = Some c -> claimed db (UsernameClaim.UserID c) name.
Proof.
  intros [Hn [k Hk]]%first_Some. apply bool_decide_eq_true in Hn. by exists k, c.
Qed.

(** A free name is claimed. *)
Lemma booked_claim db k c :
  UserRepository.claim_holder (UsernameClaim.Username c) db = None ->
  user_name_claims db !! k = None ->
  booked db (db <| user_name_claims := <[k := c]> (user_name_claims db) |>) /\
  claimed (db <| user_name_claims := <[k := c]> (user_name_claims db) |>)
    (UsernameClaim.UserID c) (UsernameClaim.Username c).
Proof.
  intros Hn Hk. split; [|exists k, c; cbn; by rewrite lookup_insert_eq].
  split; [by apply insert_subseteq|done|]. intros [H1 H2]. split; [|done].
  apply unique_insert; [done|]. intros k' c' Hk' E. unfold UserRepository.claim_holder in Hn.
  rewrite first_None in Hn. apply Hn in Hk'. rewrite bool_decide_eq_false in Hk'.
  by unfold claim_key in E.
Qed.

(** ** Changes *)
Lemma booked_change record db db' :
  UserDomain.insert_change record db = inr db' ->
  booked db db' /\ bearers db' = bearers db /\ user_name_claims db' = user_name_claims db /\
  change_recorded db db' (UsernameChangeRecord.UserID record).
Proof.
  unfold UserDomain.insert_change. cbv zeta. destruct (exists_row _ _) eqn:Hx; [done|].
  destruct (insert_row _ _ _ _) eqn:Ei; [done|]. apply insert_row_inr in Ei as [Hn ->].
  intros [= <-]. split; [|split_and!; [done..|]]; cycle 1.
  { eexists _, record. cbn. split_and!; [apply lookup_insert_eq|done..]. }
  split; [done|by apply insert_subseteq|]. intros [H1 H2]. split; [done|]. cbn. rewrite exists_row_false in Hx.
  assert (forall k r, user_name_change_records db !! k = Some r ->
    UsernameChangeRecord.UserID r = UsernameChangeRecord.UserID record ->
    UserDomain.username_cooldown <= Z.abs (UsernameChangeRecord.ChangedAt r -
      UsernameChangeRecord.ChangedAt record)) as Hnew.
  { intros k r Hk E. specialize (Hx k r Hk). unfold UserDomain.change_of in Hx. lia. }
  intros k k' r r' [[<- <-]|[? Hr]]%lookup_insert_Some [[<- <-]|[? Hr']]%lookup_insert_Some Hne E.
  - done.
  - specialize (Hnew _ _ Hr' ltac:(congruence)). lia.
  - by eapply Hnew.
  - by eapply H2.
Qed.

(** The trigger on an update of a name. *)
Lemma booked_audit change_id now old new db db' :
  UserDomain.audit change_id now old new db = inr db' ->
  booked db db' /\ bearers db' = bearers db /\ user_name_claims db' = user_name_claims db /\
  (User.Username new = User.Username old \/ change_recorded db db' (User.ID new)).
Proof.
  unfold UserDomain.audit. case_bool_decide; [intros [= <-]; split_and!; [done..|by left]|].
  intros (? & ? & ? & ?)%booked_change. by auto.
Qed.

Lemma booked_claim_name claim_id change_id now old new db db' :
  UserDomain.claim_name claim_id change_id now old new db = inr db' ->
  booked db db' /\ bearers db' = bearers db /\ claimed db' (User.ID new) (User.Username new) /\
  (User.Username new = User.Username old \/ change_recorded db db' (User.ID new)).
Proof.
  unfold UserDomain.claim_name. destruct (UserRepository.claim_holder _ _) as [c|] eqn:Hc.
  - destruct (Z.eqb_spec (UsernameClaim.UserID c) (User.ID new)) as [Eid|]; [|done].
    intros (Hb & E & Ec & Hr)%booked_audit. split_and!; [exact Hb|exact E| |exact Hr].
    apply claim_holder_claimed in Hc. unfold claimed. by rewrite Ec, <- Eid.
  - destruct (insert_row _ _ _ _) as [|claims] eqn:Ei; [done|].
    apply insert_row_inr in Ei as [Hn ->]. intros (Hb & E & Ec & Hr)%booked_audit.
    destruct (booked_claim db claim_id (UsernameClaim.mk claim_id (User.ID new) (User.Username new)
      (User.CreatedAt new)) Hc Hn) as [Hb' Hcl].
    split_and!; [by etrans|exact E| |exact Hr]. unfold claimed in *. by rewrite Ec.
Qed.
End invariant.

(** ** The statements that write names *)
Lemma people_images db :
  (forall now i, people (activate now db i) = people db) /\
  (forall now i, people (retire now db i) = people db).
Proof. split; intros; unfold activate, retire; by repeat case_match. Qed.

Lemma bearers_insert db k u :
  bearers (db <| users := <[k := u]> (users db) |>) =
  <[k := (User.ID u, User.Username u)]> (bearers db).
Proof. unfold bearers. cbn. by rewrite fmap_insert. Qed.

Section statements.
Context `{Env} `{Pg} `{DbClock}.

Lemma names_insert_user user cid db r db' :
  UserRepository.insert_user user cid db = inr (r, db') -> names db db'.
Proof.
  unfold UserRepository.insert_user. destruct (exists_row _ _); [done|].
  destruct (exists_row _ _); [done|]. destruct (insert_row "users_pkey" _ _ _) as [|t] eqn:Ht; [done|].
  apply insert_row_inr in Ht as [Hfree ->]. set (db1 := db <| users := _ |>).
  assert (bearers db !! User.ID user = None) as Hnew by (unfold bearers; by rewrite lookup_fmap, Hfree).
  assert (booked db db1) as B1 by (by apply booked_same).
  assert (bearers db1 = <[User.ID user := (User.ID user, User.Username user)]> (bearers db)) as E1
    by apply bearers_insert.
  destruct (UserRepository.claim_holder _ db1) as [c|] eqn:Hc.
  - destruct (Z.eqb_spec (UsernameClaim.UserID c) (User.ID user)) as [Hu|]; [|done].
    intros [= _ <-]. apply (names_bear db db1 (User.ID user) (User.Username user) B1 E1);
      [|congruence]. rewrite <- Hu. by apply claim_holder_claimed.
  - destruct (insert_row "user_name_claims_pkey" _ _ _) as [|t] eqn:Ht; [done|].
    apply insert_row_inr in Ht as [Hn ->]. intros [= _ <-].
    destruct (booked_claim db1 cid (UsernameClaim.mk cid (User.ID user) (User.Username user)
      (User.CreatedAt user)) Hc Hn) as [B2 Hcl].
    eapply names_bear; [by etrans|exact E1|exact Hcl|congruence].
Qed.

Lemma names_ClaimUsername id name now : Keeps names (UserRepository.ClaimUsername id name now).
Proof.
  unfold UserRepository.ClaimUsername. solve_keeps. apply (keeps_stmt _). intros db r db'.
  destruct (UserRepository.claim_holder name db) eqn:Hc; [by intros [= _ <-]|].
  destruct (insert_row _ _ _ _) as [|t] eqn:Ht; [done|]. apply insert_row_inr in Ht as [Hn ->].
  intros [= _ <-]. apply names_bearers; [|done]. by apply booked_claim.
Qed.

Lemma names_update_user f claim_id change_id at_ now id db n db' :
  UserDomain.update_user f claim_id change_id at_ now id db = inr (n, db') -> names db db'.
Proof.
  intros E. unfold UserDomain.update_user in E.
  destruct (users db !! id) as [u|] eqn:Hu; [|by injection E as _ <-].
  destruct (UserRepository.live u); cbn in E; [|by injection E as _ <-].
  destruct (_ && exists_row _ _); [done|]. set (new := UserDomain.set_fields f at_ u) in *.
  set (db1 := if bool_decide (UserDomain.pf_avatar f <> None) then _ else _) in E.
  assert (people db1 = people (db <| users := <[id := new]> (users db) |>)) as P1.
  { unfold db1, UserDomain.activate_avatar. by repeat case_match. }
  clearbody db1. unfold people in P1. injection P1 as E1 Ec Er. rewrite bearers_insert in E1.
  assert (booked db db1) as B1 by (by apply booked_same).
  destruct (if bool_decide (UserDomain.pf_name f <> None) then _ else _) as [|db2] eqn:E2; [done|].
  assert (bearers db !! id = Some (User.ID u, User.Username u)) as Hb
    by (unfold bearers; by rewrite lookup_fmap, Hu).
  assert (names db db2) as N2.
  { destruct (bool_decide (UserDomain.pf_name f <> None)) eqn:Hf.
    - apply booked_claim_name in E2 as (B2 & E2 & Hc & Hr). apply names_if; [by etrans|]. intros Ho.
      apply (nm_users _ Ho) in Hb. cbn in Hb. subst id.
      apply (names_bear _ _ (User.ID u) (User.Username new)); [by etrans|by rewrite E2|done|].
      intros b Hb'. unfold bearers in Hb'. rewrite lookup_fmap, Hu in Hb'. injection Hb' as <-.
      unfold change_recorded in *. rewrite Er in Hr. exact Hr.
    - injection E2 as <-. apply names_bearers; [done|]. rewrite E1. apply insert_id. rewrite Hb.
      apply bool_decide_eq_false in Hf. unfold new, UserDomain.set_fields. cbn.
      destruct (UserDomain.pf_name f); [by destruct Hf|done]. }
  injection E as _ <-. etrans; [exact N2|]. apply names_people.
  unfold UserDomain.retire_avatar, retire. by repeat case_match.
Qed.

#[global] Instance names_bystander : Bystander names.
Proof.
  split.
  - apply _.
  - intros db db' E. apply names_people. unfold surroundings in E. congruence.
  - apply names_insert_user.
  - apply names_update_user.
  - apply names_ClaimUsername.
  - intros id post db _. by apply names_people.
Qed.
End statements.

(** ** The guarantees *)
Section guarantees.
Context `{Env} `{Pg} `{Unicode} `{DbClock} `{Decimal} `{Mail} `{JWT} `{Bcrypt}.
Context (h : AuthService) (sv : Services).
Context `{!QuietAccess (ps_imageAccess (sv_posts sv))}.
Context (Hqueue : forall q, deliveries h = Some q -> QueueFrame surroundings q).
Context {X : Type} (ia : AfterOp -> World DB X -> World DB X * option string).
Context (Hia : forall op w w' p, ia op w = (w', p) -> w_db w' = w_db w).
Abbreviation WorldD := (World DB X).
Abbreviation name_step := (system_step h sv ia).

Lemma names_steps (w w' : WorldD) : rtc name_step w w' -> names (w_db w) (w_db w').
Proof.
  induction 1 as [|w w1 w2 Hs _ IH]; [done|]. etrans; [|exact IH].
  exact (system_step_bystander h sv Hqueue ia Hia names _ _ Hs).
Qed.

(** C13: A username is never passed on.  Over any interleaving of requests to the auth
    service (registrations included) with units of work of the others (profile updates,
    manual verdicts on names, deletions of accounts): whoever bears a name at one time,
    nobody else bears it, in whatever case, at any later time - not even when the first
    bearer has changed it or deleted the account. *)
Theorem username_never_reassigned (w w1 w2 : WorldD) k1 u1 k2 u2 :
  names_ok (w_db w) -> rtc name_step w w1 -> rtc name_step w1 w2 ->
  users (w_db w1) !! k1 = Some u1 -> users (w_db w2) !! k2 = Some u2 ->
  UserRepository.fold_name (User.Username u1) = UserRepository.fold_name (User.Username u2) ->
  k1 = k2.
Proof.
  intros Ho S1%names_steps S2%names_steps Hu1 Hu2 E.
  apply S1 in Ho. pose proof (nm_ok _ _ S2 Ho) as Ho2.
  assert (claimed (w_db w1) k1 (User.Username u1)) as C1.
  { apply (nm_held _ Ho _ (User.ID u1, User.Username u1)). unfold bearers. by rewrite lookup_fmap, Hu1. }
  assert (claimed (w_db w2) k2 (User.Username u2)) as C2.
  { apply (nm_held _ Ho2 _ (User.ID u2, User.Username u2)). unfold bearers. by rewrite lookup_fmap, Hu2. }
  eapply claimed_one; [apply Ho2| |exact C2|exact E]. eapply claimed_mono; [apply S2|exact C1].
Qed.

(** Names change rarely, and on record.  Whatever requests and units of work
    interleave: no account disappears, a user whose name is another one afterwards has a
    change recorded in between, recorded changes are neither altered nor removed, and any
    two of one user are at least 720 hours apart. *)
Theorem username_changes_apart (w w' : WorldD) :
  rtc name_step w w' -> names_ok (w_db w) ->
  (forall k u, users (w_db w) !! k = Some u -> exists u', users (w_db w') !! k = Some u' /\
     (User.Username u' = User.Username u \/ change_recorded (w_db w) (w_db w') k)) /\
  user_name_change_records (w_db w) ⊆ user_name_change_records (w_db w') /\
  forall k k' r r', user_name_change_records (w_db w') !! k = Some r ->
    user_name_change_records (w_db w') !! k' = Some r' -> k <> k' ->
    UsernameChangeRecord.UserID r = UsernameChangeRecord.UserID r' ->
    UserDomain.username_cooldown <=
      Z.abs (UsernameChangeRecord.ChangedAt r - UsernameChangeRecord.ChangedAt r').
Proof.
  intros Hs%names_steps Ho. split_and!; [|apply Hs|exact (bk_apart _ (nm_book _ (nm_ok _ _ Hs Ho)))].
  intros k u Hu. destruct (nm_follow _ _ Hs Ho k (User.ID u, User.Username u)) as ([i n] & Hb & Hr).
  { unfold bearers. by rewrite lookup_fmap, Hu. }
  unfold bearers in Hb. rewrite lookup_fmap in Hb.
  apply fmap_Some in Hb as (u' & Hu' & [= -> ->]). by exists u'.
Qed.
End guarantees.
