(* ===== verification/PostExamples.v ===== *)
(** * Posts: runs of the model

    The parameters at concrete values, the hypotheses of the theorems on posts met,
    and two behaviours the runs show. *)

From S2P Require Import Prelude.
From S2P Require Import GoText.
From S2P Require Import Apierr.
From S2P Require Import Effects.
From S2P Require Import Logic.
From S2P Require Import Model.
From S2P Require Import AuthRepo.
From S2P Require Import AuthService.
From S2P Require Import Money.
From S2P Require Import PostValidation.
From S2P Require Import PostRepo.
From S2P Require Import CommentRepo.
From S2P Require Import Moderation.
From S2P Require Import UserService.
From S2P Require Import CommentService.
From S2P Require Import Counters.
From S2P Require Import PostService.
From S2P Require Import PostTables.
From S2P Require Import PostProps.
From S2P Require Import PostGate.
From S2P Require Import PostLedger.
From S2P Require Import Concrete.
Open Scope Z_scope.

(** ** Parameters *)
#[export] Instance db_clock0 : DbClock := fun k => start_time + Z.of_nat k * Second.

#[export] Instance decimal0 : Decimal := {|
  decimal := Z;
  NewFromString := literal_value;
  IsNegative d := d <? 0;
  Exponent _ := -2;
  Round2 d := d;
  StringFixed2 := fixed2;
  to_column d := d;
  of_column a := a;
|}.

Definition posts0 : PostService := mkPostService moderator0 DurableAccess.
Definition comments0 : CommentService.CommentService :=
  CommentService.NewCommentServiceWithCursorSecret moderator0 "secret".
Definition users0 : UserService := NewUserServiceWithCursorSecret moderator0 "secret".
Definition services0 : Services := mkServices posts0 comments0 users0.

(** ** A post with an image a machine wants reviewed *)
Definition image0 (moderation : string) : ImageAsset.t :=
  ImageAsset.mk 10 (Some 1) ImagePurposePost "posts/1.jpg" "https://img/1.jpg" "image/jpeg" (Some 9)
    ImageStatusReady moderation start_time start_time.
Definition bob : User.t :=
  User.mk 2 "bob@example.com" "h:password2" "bob" None None None None false None None None
    None start_time start_time.
Definition db_image : DB := empty_db
  <| users := {[ 1 := alice; 2 := bob ]} |>
  <| image_assets := {[ 10 := image0 ModerationStatusReview ]} |>.
Definition w_image : World DB unit := mkWorld db_image (mkCtr 0 0 0 0 100) tt.

Definition payload0 : PostPayload :=
  mkPostPayload "noodles" "second floor" PostCategoryFood (Some ShareTypeRecommend) None None None
    (Some 1250) [] ["spicy"] ["https://img/1.jpg"] None None.
Definition unit_of_work (op : PostOp) (w : World DB unit) : (goerr + unit) * World DB unit :=
  RunInTx interp_before (run_op services0 op) w.

Definition w_created : World DB unit :=
  snd (unit_of_work (OpCreate (mkCreatePostInput payload0 PostTypeShare None) 1) w_image).
Definition post0 : Z := 101.

Example created : fst (unit_of_work (OpCreate (mkCreatePostInput payload0 PostTypeShare None) 1) w_image)
  = inr tt.
Proof. vm_compute. reflexivity. Qed.
Example created_post : Post.Status <$> posts (w_db w_created) !! post0 = Some PostStatusPending.
Proof. vm_compute. reflexivity. Qed.

(** *** The author deletes and restores: the image is published without its review *)
Definition w_deleted : World DB unit := snd (unit_of_work (OpDelete post0 1) w_created).
Definition w_restored : World DB unit :=
  snd (unit_of_work (OpRestoreHistory post0 1 None 1) w_deleted).
Definition verdict_of (w : World DB unit) : option string :=
  ImageAsset.Moderation <$> image_assets (w_db w) !! 10.

(** A post whose image the machine wants reviewed waits ([pending]).  When its author
    deletes it, [applyAdminPostDeleteImage] writes [block] over [review]; restoring the
    version, [restoreAdminPostDeleteImages] reverses that block to [pass], and the post
    is public although nobody reviewed the image. *)
Theorem delete_restore_skips_review :
  verdict_of w_created = Some ModerationStatusReview /\
  verdict_of w_deleted = Some ModerationStatusBlock /\
  verdict_of w_restored = Some ModerationStatusPass /\
  published (w_db w_restored) post0 1 /\
  exists_row (fun r => bool_decide (ModerationRecord.Provider r = ModerationProviderManual))
    (moderation_records (w_db w_restored)) = false.
Proof.
  split_and!; try (vm_compute; reflexivity).
  destruct (posts (w_db w_restored) !! post0) as [p|] eqn:Hp; [|by vm_compute in Hp].
  exists p. split; [exact Hp|]. vm_compute in Hp. injection Hp as <-. by split_and!.
Qed.

(** *** A taken-down tag is a client's mistake, but answers 500 *)
Definition db_tag : DB := db_image
  <| tags := {[ 7 := Tag.mk 7 "spicy" start_time start_time ModerationStatusBlock (Some start_time) ]} |>.

(** [replaceTags] fails with 409 [content_rejected], which [Create] wraps with
    [apierr.Internal] like any failure of [applyPostRelations]. *)
Theorem blocked_tag_is_internal_error :
  fst (RunInTx interp_before
      (replaceTags posts0 (pp_Tags payload0)) (mkWorld db_tag (mkCtr 0 0 0 0 100) tt))
    = inl (EApi (Conflict BizContentRejected "包含已下架标签")) /\
  fst (unit_of_work (OpCreate (mkCreatePostInput payload0 PostTypeShare None) 1)
         (mkWorld db_tag (mkCtr 0 0 0 0 100) tt))
    = inl (EApi (Internal (env_rand 0 8) (EApi (Conflict BizContentRejected "包含已下架标签")))).
Proof. split; vm_compute; reflexivity. Qed.

(** *** An administrator restores what an administrator took down *)
Definition w_taken_down : World DB unit := snd (unit_of_work (OpAdminDelete post0 2) w_created).
Definition w_put_back : World DB unit := snd (unit_of_work (OpAdminRestore post0 2) w_taken_down).

Theorem admin_restore_accepts_admin_deletion :
  (Post.DeletedReason <$> posts (w_db w_taken_down) !! post0) = Some (Some DeleteReasonAdmin) /\
  fst (unit_of_work (OpAdminRestore post0 2) w_taken_down) = inr tt /\
  (PostRepository.undeleted <$> posts (w_db w_put_back) !! post0) = Some true.
Proof. split_and!; vm_compute; reflexivity. Qed.

(** ** The theorems at work *)
Lemma images0_ok m : assets_keyed (db_image <| image_assets := {[ 10 := image0 m ]} |>).
Proof. intros k a Ha. cbn in Ha. apply lookup_singleton_Some in Ha as [<- <-]. by split. Qed.

Lemma w_image_ok : posts_ok (w_db w_image).
Proof.
  split; cbn.
  - by intros k p Hp.
  - apply images0_ok.
  - intros id v (k & h & Hh & _). by cbn in Hh.
  - by intros id p Hp.
  - by intros k r id Hr.
  - by intros id p Hp.
Qed.

Lemma unit_run op w : RunInTx interp_before (run_op services0 op) w =
  (fst (unit_of_work op w), snd (unit_of_work op w)).
Proof. apply surjective_pairing. Qed.

Lemma w_deleted_ok : posts_ok (w_db w_deleted).
Proof.
  eapply (unit_of_work_sound services0); [apply unit_run|].
  eapply (unit_of_work_sound services0); [apply unit_run | exact w_image_ok].
Qed.

Lemma publication_gate_witness :
  posts_ok (w_db w_deleted) /\ gate (w_db w_deleted) (w_db w_restored).
Proof.
  split; [exact w_deleted_ok|]. eapply (publication_gate services0); [exact w_deleted_ok|apply unit_run].
Defined.

Lemma posts_ok_invariant_witness :
  rtc (post_step services0) w_image w_restored /\ posts_ok (w_db w_restored).
Proof.
  assert (rtc (post_step services0) w_image w_restored) as Hr.
  { eapply rtc_l; [eapply step_op, unit_run|]. eapply rtc_l; [eapply step_op, unit_run|].
    eapply rtc_once, step_op, unit_run. }
  split; [exact Hr|]. apply (posts_ok_invariant services0 w_image w_restored Hr w_image_ok).
Defined.

Definition w_liked : World DB unit := snd (unit_of_work (OpLike post0 2) w_restored).

Lemma ledger_kept_witness :
  unit_of_work (OpLike post0 2) w_restored = (inr tt, w_liked) /\
  ledger (w_db w_restored) (w_db w_liked) /\
  Post.LikeCount <$> posts (w_db w_liked) !! post0 = Some 1.
Proof.
  split; [vm_compute; reflexivity|]. split; [|vm_compute; reflexivity].
  exact (ledger_kept services0 (OpLike post0 2) w_restored _ _ (unit_run _ _)).
Defined.

(** The provider reports on the image, then delivers the report again with another
    verdict: the second changes nothing. *)
Definition callback0 (verdict : string) : ImageModerationCallback :=
  mkCallback 10 "posts/1.jpg" "tencent" "job-1" verdict [] None "{}".
Definition reported (verdict : string) (tx : TxD) :=
  ModerationService.ApplyImageCallback DurableAccess (callback0 verdict) tx.
Definition tx_created : TxD := begin_tx false w_created.
Definition tx_reported := snd (reported ModerationVerdictPass tx_created).
Definition tx_again := snd (reported ModerationVerdictBlock tx_reported).

Lemma first_report :
  reported ModerationVerdictPass tx_created = (inr (mkApplyResult false 1 0), tx_reported).
Proof. vm_compute. reflexivity. Qed.
Lemma second_report :
  reported ModerationVerdictBlock tx_reported = (inr (mkApplyResult true 0 0), tx_again).
Proof. vm_compute. reflexivity. Qed.

Lemma image_callback_once_witness :
  published (tx_db tx_reported) post0 1 /\ view (tx_db tx_again) = view (tx_db tx_reported).
Proof.
  split.
  - destruct (posts (tx_db tx_reported) !! post0) as [p|] eqn:Hp; [|by vm_compute in Hp].
    exists p. split; [exact Hp|]. vm_compute in Hp. injection Hp as <-. by split_and!.
  - exact (proj2 (image_callback_once DurableAccess (callback0 ModerationVerdictPass)
      (callback0 ModerationVerdictBlock) tx_created tx_reported tx_reported tx_again _ _
      first_report (reflexivity _) eq_refl eq_refl second_report)).
Defined.

(** The decimal library as integers of hundredths. *)
Lemma parse_digits_nonneg acc s v : 0 <= acc -> parse_digits acc s = Some v -> 0 <= v.
Proof.
  revert acc. induction s as [|c s IH]; intros acc Ha Hv; cbn in Hv; [by injection Hv as <-|].
  case_match eqn:Hd; [|done]. eapply IH; [|exact Hv]. unfold is_digit, in_range in Hd. lia.
Qed.

#[export] Instance decimal0_ok : DecimalOk.
Proof.
  split; [|done]. intros s v _ Hv. exists v. cbn. split_and!; [done| |lia|done].
  unfold literal_value in Hv. destruct (Cut s ".") as [[i f] dot].
  destruct (parse_digits 0 i) as [a|] eqn:Hi; [|done].
  destruct (parse_digits 0 f) as [b|] eqn:Hf; [|done]. injection Hv as <-.
  apply parse_digits_nonneg in Hi, Hf; [|lia..].
  pose proof (Z.pow_nonneg 10 (2 - len f) ltac:(lia)). apply Z.ltb_ge. nia.
Qed.

Lemma money_roundtrip_witness : String_ 1250 = "12.50"%string /\ Parse "12.50" = inr 1250.
Proof. split; [vm_compute; reflexivity|]. exact (money_roundtrip 1250 ltac:(lia)). Defined.
