(* ===== verification/CommentExamples.v ===== *)
(** * Comments, single reviews and names: runs of the model

    A comment a machine wants reviewed is deleted by its author and comes back with the
    review; a name that was given up stays taken.  The hypotheses of the theorems on
    comments, counters and names met. *)

From S2P Require Import Prelude.
From S2P Require Import GoText.
From S2P Require Import Apierr.
From S2P Require Import Effects.
From S2P Require Import Logic.
From S2P Require Import Model.
From S2P Require Import Validation.
From S2P Require Import Digest.
From S2P Require Import Pagination.
From S2P Require Import AuthRepo.
From S2P Require Import AuthService.
From S2P Require Import AuthHandler.
From S2P Require Import AuthTables.
From S2P Require Import AuthCodes.
From S2P Require Import EmailOutbox.
From S2P Require Import EmailProps.
From S2P Require Import ImageAccess.
From S2P Require Import Money.
From S2P Require Import PostValidation.
From S2P Require Import PostRepo.
From S2P Require Import CommentRepo.
From S2P Require Import UserRepo.
From S2P Require Import Moderation.
From S2P Require Import UserService.
From S2P Require Import SingleReview.
From S2P Require Import PostService.
From S2P Require Import CommentService.
From S2P Require Import PostTables.
From S2P Require Import PostProps.
From S2P Require Import Counters.
From S2P Require Import PostGate.
From S2P Require Import PostLedger.
From S2P Require Import CommentGate.
From S2P Require Import CommentReads.
From S2P Require Import Bystanders.
From S2P Require Import Names.
From S2P Require Import Concrete.
From S2P Require Import PostExamples.
Open Scope Z_scope.

(** ** A moderator that wants to look at advertisements *)
Definition moderator1 : ContentModerator := mkContentModerator (fun _ q =>
  inr (mkModerationResult "provider" None
    (if ContainsString (mq_Text q) "buy" then ModerationVerdictReview else ModerationVerdictPass)
    [] None "{}")).
Definition comments1 : CommentService.CommentService :=
  CommentService.NewCommentServiceWithCursorSecret moderator1 "secret".
Definition services1 : Services := mkServices posts0 comments1 users0.

Definition unit1 (op : PostOp) (w : World DB unit) : (goerr + unit) * World DB unit :=
  RunInTx interp_before (run_op services1 op) w.
Definition after (op : PostOp) (w : World DB unit) : World DB unit := snd (unit1 op w).

Definition w_shown : World DB unit := after (OpRestoreHistory post0 1 None 1)
  (after (OpDelete post0 1)
    (after (OpCreate (mkCreatePostInput payload0 PostTypeShare None) 1) w_image)).

Definition says (content : string) (parent : option Z) : CommentService.CreateCommentInput :=
  CommentService.mkCreateInput content parent None [].
Definition w_c1 : World DB unit := after (OpCommentCreate post0 (says "nice" None) 2) w_shown.
Definition w_c2 : World DB unit := after (OpCommentCreate post0 (says "buy mine" None) 2) w_c1.

Definition comment_of (w : World DB unit) (id : Z) : option (string * option string) :=
  (fun c => (Comment.Moderation c, Comment.DeletedReason c)) <$> comments (w_db w) !! id.

Lemma unit1_run op w : RunInTx interp_before (run_op services1 op) w = (fst (unit1 op w), after op w).
Proof. apply surjective_pairing. Qed.
Lemma unit1_step op w : unit_step services1 w (after op w).
Proof. eexists op, _. apply unit1_run. Qed.

(** *** The author deletes a comment that waits for review; the review brings it back *)
Definition w_gone : World DB unit := after (OpCommentDelete 115 2) w_c2.
Definition pass_117 : SingleReviewService.ManualReviewInput :=
  SingleReviewService.mkManualReview 117 1 ModerationVerdictPass [] None "".
Definition w_back : World DB unit := after (OpManualReview pass_117) w_gone.

(** A comment waits for review, its author deletes it; when the review lets the text
    pass, [ApplyModeration] clears the author's deletion with its own, and the comment
    the author took back is public. *)
Theorem deleted_comment_comes_back :
  comment_of w_c2 115 = Some (ModerationStatusReview, None) /\
  comment_of w_gone 115 = Some (ModerationStatusReview, Some DeleteReasonAuthor) /\
  fst (unit1 (OpManualReview pass_117) w_gone) = inr tt /\
  comment_of w_back 115 = Some (ModerationStatusPass, None) /\
  (CommentRepository.active <$> comments (w_db w_back) !! 115) = Some true.
Proof. split_and!; vm_compute; reflexivity. Qed.

(** ** The theorems at work *)
(** *** Comments *)
Lemma no_comments_ok db : comments db = ∅ -> comment_histories db = ∅ -> comments_ok db.
Proof.
  intros Hc Hh. split; [intros k k' h h'; by rewrite Hh|].
  intros k c. unfold ccores. by rewrite Hc.
Qed.

Lemma run_back : rtc (unit_step services1) w_shown w_back.
Proof.
  eapply rtc_l; [apply unit1_step|]. eapply rtc_l; [apply unit1_step|].
  eapply rtc_l; [apply unit1_step|]. apply rtc_once, unit1_step.
Qed.

Lemma comments_reviewed_witness :
  comments_ok (w_db w_shown) /\ rtc (unit_step services1) w_shown w_back /\
  comments_ok (w_db w_back).
Proof.
  assert (comments_ok (w_db w_shown)) as Ho by (apply no_comments_ok; by vm_compute).
  split_and!; [exact Ho|exact run_back|]. exact (comments_reviewed services1 _ _ run_back Ho).
Defined.

(** *** Counters *)
Lemma image_floors : floors_ok (w_db w_image).
Proof.
  split; cbn; [by intros k p Hp|by intros ? ? [? Hx]|by intros ? ? [? Hx]|by intros k c Hc|
    by intros ? ? [? Hx]|by intros id m Hm].
Qed.
Lemma image_counted : recount (w_db w_image) = w_db w_image.
Proof. vm_compute. reflexivity. Qed.

Lemma run_image : rtc (unit_step services1) w_image w_back.
Proof.
  eapply rtc_l; [apply unit1_step|]. eapply rtc_l; [apply unit1_step|].
  eapply rtc_l; [apply unit1_step|]. exact run_back.
Qed.

Lemma recount_changes_nothing_witness :
  rtc (unit_step services1) w_image w_back /\ recount (w_db w_back) = w_db w_back /\
  (Post.CommentCount <$> posts (w_db w_c2) !! post0) = Some 1 /\
  (Post.CommentCount <$> posts (w_db w_back) !! post0) = Some 2.
Proof.
  split; [exact run_image|]. split; [|split; vm_compute; reflexivity].
  exact (proj2 (recount_changes_nothing services1 _ _ run_image image_floors image_counted)).
Defined.

(** *** Reading *)
Definition read_comments (viewer : Z) (w : World DB unit) :=
  CommentService.List_ comments1 post0 viewer "latest" (mkCursorRequest "" 10) (begin_tx false w).
Definition read0 := read_comments 1 w_c2.
Definition list0 : CommentService.CommentList := match fst read0 with
  | inr l => l
  | inl _ => CommentService.mkCommentList [] (mkCursorMeta 0 None false)
  end.

Lemma read0_run : read0 = (inr list0, snd read0).
Proof. vm_compute. reflexivity. Qed.

Lemma ok_after (w w' : World DB unit) : rtc (unit_step services1) w w' -> comments_ok (w_db w) -> comments_ok (w_db w').
Proof.
  induction 1 as [|w w1 w2 (op & r & E) _ IH]; [done|]. intros Ho. apply IH.
  exact (unit_of_work_comments services1 op w r w1 E Ho).
Qed.

(** The author of the post reads one comment of two: the other waits for review. *)
Lemma list_shows_reviewed_witness :
  map CommentService.it_Content (CommentService.cl_Comments list0) = ["nice"%string] /\
  Forall (listed (w_db w_c2) post0 1) (CommentService.cl_Comments list0).
Proof.
  split; [vm_compute; reflexivity|].
  assert (comments_ok (w_db w_c2)) as Ho.
  { apply (ok_after w_shown); [|apply no_comments_ok; by vm_compute].
    eapply rtc_l; [apply unit1_step|]. apply rtc_once, unit1_step. }
  exact (list_shows_reviewed comments1 post0 1 "latest" (mkCursorRequest "" 10)
    (begin_tx false w_c2) list0 (snd read0) Ho read0_run).
Defined.

(** *** A single review *)
Definition tx_gone : TxD := begin_tx false w_gone.
Definition reviewed0 := SingleReviewService.ManualReview DurableAccess pass_117 tx_gone.
Definition verdict0 : option ModerationRecord.t :=
  match fst reviewed0 with inr r => Some r | inl _ => None end.
Definition gone0 : option Comment.t := comments (tx_db tx_gone) !! 115.
Definition machine0 : option ModerationRecord.t := moderation_records (tx_db tx_gone) !! 117.

Lemma single_review_of_comment_witness :
  match machine0, gone0, verdict0 with
  | Some original, Some c, Some record =>
      Comment.DeletedReason c = Some DeleteReasonAuthor /\
      if Comment.CurrentRevision c =? 1
      then exists now replies, comments (tx_db (snd reviewed0)) !! 115 = Some
             ((CommentRepository.moderated (SingleReviewService.mi_Verdict pass_117) now c)
                <| Comment.ReplyCount := replies |>)
      else comments (tx_db (snd reviewed0)) !! 115 = Some c
  | _, _, _ => False
  end.
Proof.
  destruct machine0 as [original|] eqn:Ho; [|by vm_compute in Ho].
  destruct gone0 as [c|] eqn:Hc; [|by vm_compute in Hc].
  destruct verdict0 as [record|] eqn:Hv; [|by vm_compute in Hv].
  assert (reviewed0 = (inr record, snd reviewed0)) as E.
  { unfold verdict0 in Hv. destruct reviewed0 as [[e|r] tx']; [done|]. by injection Hv as ->. }
  assert (Comment.DeletedReason c = Some DeleteReasonAuthor) as Hr.
  { vm_compute in Hc. by injection Hc as <-. }
  split; [exact Hr|]. clear Hr.
  assert (ModerationRecord.ImageAssetID original = None /\ ModerationRecord.UserID original = None /\
    ModerationRecord.CommentID original = Some 115 /\ ModerationRecord.ContentRevision original = Some 1)
    as (Hi & Hu & Hid & Hrev)
    by (vm_compute in Ho; injection Ho as <-; repeat split; reflexivity).
  exact (single_review_of_comment DurableAccess pass_117 tx_gone record (snd reviewed0)
    original 115 1 c Ho Hi Hu Hid Hrev Hc E).
Defined.

(** *** Names *)
Definition db_named : DB := db_image <| user_name_claims :=
  {[ 90 := UsernameClaim.mk 90 1 "alice" start_time; 91 := UsernameClaim.mk 91 2 "bob" start_time ]} |>.
Definition w_named : World DB unit := mkWorld db_named (mkCtr 0 0 0 0 100) tt.
Definition called (name : string) : UpdateUserInput :=
  mkUpdateUser (Some (Some name)) None None None.
Definition w_renamed : World DB unit := after (OpUserUpdate 1 1 (called "Alicia")) w_named.
Definition w_wanted : World DB unit := after (OpUserUpdate 2 2 (called "ALICE")) w_renamed.
Definition name_of (w : World DB unit) (id : Z) : option string := User.Username <$> users (w_db w) !! id.

(** Bob may not have the name Alice gave up, and Alice not yet another. *)
Example names_refused :
  name_of w_renamed 1 = Some "Alicia"%string /\
  fst (unit1 (OpUserUpdate 2 2 (called "ALICE")) w_renamed) = inl (EApi username_taken) /\
  fst (unit1 (OpUserUpdate 1 1 (called "Ally")) w_renamed) = inl (EApi usernameChangeLimitedError).
Proof. split_and!; vm_compute; reflexivity. Qed.

Lemma queue0_surroundings q : deliveries h0 = Some q -> QueueFrame surroundings q.
Proof. intros ->%queue0 challenge email purpose digest code now. by apply Enqueue_frame. Qed.

Abbreviation story := (rtc (system_step (X := unit) h0 services1 ia0)).

Lemma story_unit op w : story w (after op w).
Proof. apply rtc_once, step_unit, unit1_step. Qed.

Lemma named_ok : names_ok (w_db w_named).
Proof.
  assert (forall k b, bearers (w_db w_named) !! k = Some b -> k = 1 /\ b = (1, "alice"%string) \/
    k = 2 /\ b = (2, "bob"%string)) as Hb.
  { intros k b Hk. change (bearers (w_db w_named)) with
      (<[1 := (1, "alice"%string)]> {[2 := (2, "bob"%string)]} : gmap Z (Z * string)) in Hk.
    apply lookup_insert_Some in Hk as [[<- <-]|[_ Hk]]; [by left|].
    apply lookup_singleton_Some in Hk as [<- <-]. by right. }
  split.
  - split; [|by intros k k' r r' Hr].
    intros k k' c c' Hc Hc' _ _. cbn in Hc, Hc'.
    apply lookup_insert_Some in Hc as [[<- <-]|[_ Hc]], Hc' as [[<- <-]|[_ Hc']] || idtac; try done.
    all: try (apply lookup_singleton_Some in Hc as [<- <-]).
    all: try (apply lookup_singleton_Some in Hc' as [<- <-]); done.
  - intros k b [[-> ->]|[-> ->]]%Hb; done.
  - intros k b [[-> ->]|[-> ->]]%Hb; [exists 90|exists 91]; eexists; by split_and!.
Qed.

Definition bearer (w : World DB unit) : option User.t := users (w_db w) !! 1.

Lemma username_never_reassigned_witness :
  name_of w_renamed 1 = Some "Alicia"%string /\ name_of w_wanted 1 = Some "Alicia"%string /\ 1 = 1.
Proof.
  split; [vm_compute; reflexivity|]. split; [vm_compute; reflexivity|].
  destruct (bearer w_renamed) as [u1|] eqn:H1; [|by vm_compute in H1].
  destruct (bearer w_wanted) as [u2|] eqn:H2; [|by vm_compute in H2].
  assert (User.Username u1 = "Alicia"%string) as E1 by (vm_compute in H1; injection H1 as <-; reflexivity).
  assert (User.Username u2 = "Alicia"%string) as E2 by (vm_compute in H2; injection H2 as <-; reflexivity).
  exact (username_never_reassigned h0 services1 queue0_surroundings ia0 ia0_db w_named w_renamed w_wanted
    1 u1 1 u2 named_ok (story_unit _ _) (story_unit _ _) H1 H2
    (f_equal UserRepository.fold_name (eq_trans E1 (eq_sym E2)))).
Defined.

Lemma username_changes_apart_witness :
  story w_named w_renamed /\ change_recorded (w_db w_named) (w_db w_renamed) 1.
Proof.
  split; [exact (story_unit _ _)|].
  destruct (proj1 (username_changes_apart h0 services1 queue0_surroundings ia0 ia0_db w_named w_renamed
    (story_unit _ _) named_ok) 1 alice eq_refl) as (u & Hu & [E|R]); [exfalso|exact R].
  vm_compute in Hu. injection Hu as <-. vm_compute in E. discriminate E.
Defined.
