(* ===== verification/DictionaryRepo.v ===== *)
(** * The dictionaries: [internal/repository/dictionary.go]

    Flavours, cuisines, canteens and their windows, and the suggestions of new entries.
    The code's functions over any dictionary type are functions over the class
    [Dictionary], whose four instances say what the schema (migration 00001) makes of a
    table: unique indexes, widths, foreign keys, cascades.  The CHECKs and foreign keys
    of [dictionary_suggestions] are [suggestion_error].  [WHERE id = ?] is the lookup by
    primary key. *)

From S2P Require Import Prelude.
From S2P Require Import GoText.
From S2P Require Import Apierr.
From S2P Require Import Effects.
From S2P Require Import Model.
From S2P Require Import Pagination.
From S2P Require Import AuthRepo.
From S2P Require Import PostRepo.
Open Scope Z_scope.

(** [v = btrim(v) AND btrim(v) <> '']. *)
Definition trimmed (v : string) : bool :=
  match String.list_ascii_of_string v with
  | [] => false
  | c :: l => negb (bool_decide (c = " "%char)) &&
              negb (bool_decide (List.last l c = " "%char))
  end.
Definition only_spaces (v : string) : bool :=
  forallb (fun c => bool_decide (c = " "%char)) (String.list_ascii_of_string v).

Definition IsSQLState (err : goerr) (states : list string) : bool :=
  match as_pg err with
  | Some (code, _) => bool_decide (code ∈ states)
  | None => false
  end.

Definition is_already_exists (err : goerr) : bool := err_is ErrAlreadyExistsText err.

(** ** Any of the four dictionaries *)
(** A column of an [UPDATE]: a key of the map the code builds. *)
Inductive Column :=
| ColName (v : string)
| ColCampus (v : string)
| ColFloor (v : option string)
| ColSortOrder (v : Z)
| ColIsActive (v : bool).

Class Dictionary (T : Type) := {
  d_table : DB -> gmap Z T;
  d_store : gmap Z T -> DB -> DB;
  d_pkey : string;
  d_ID : T -> Z;
  d_Name : T -> string;
  d_IsActive : T -> bool;
  d_CreatedAt : T -> time;
  d_numbered : Z -> T -> T;                 (* the identity *)
  d_stamped : time -> T -> T;               (* [CreatedAt] and [UpdatedAt] *)
  d_touched : time -> T -> T;               (* [UpdatedAt] *)
  d_assign : Column -> T -> T;
  d_fixed : T -> Z * string;                (* what no column writes: parent, code *)
  d_width : string -> bool;                 (* of the name *)
  d_valid : T -> option string;             (* SQLSTATE of a width or a CHECK *)
  d_clash : T -> T -> bool;                 (* a unique index holds both *)
  d_parent : T -> DB -> bool;               (* the row's own foreign key *)
  d_referenced : Z -> DB -> bool;           (* ON DELETE RESTRICT *)
  d_cascade : Z -> DB -> DB;                (* ON DELETE CASCADE *)
}.

(** What a table's accessors promise: the laws the theorems on any dictionary use. *)
Class DictionaryLaws (T : Type) `{Dictionary T} := {
  dl_store : forall t db, d_table (d_store t db) = t;
  dl_numbered : forall id r, d_ID (d_numbered id r) = id;
  dl_stamped : forall now r, d_ID (d_stamped now r) = d_ID r;
  dl_touched : forall now r, d_ID (d_touched now r) = d_ID r;
  dl_assign : forall c r, d_ID (d_assign c r) = d_ID r;
  dl_fixed : forall c r, d_fixed (d_assign c r) = d_fixed r;
  dl_fixed_touched : forall now r, d_fixed (d_touched now r) = d_fixed r;
  dl_width : forall r, d_valid r = None -> d_width (d_Name r) = true;
  dl_name : forall id now r, d_Name (d_stamped now (d_numbered id r)) = d_Name r;
  dl_clash : forall a b, d_clash a b = d_clash b a;
  dl_parent : forall r t db, d_parent r (d_store t db) = d_parent r db;
  dl_active : forall id now r, d_IsActive (d_stamped now (d_numbered id r)) = d_IsActive r;
}.

Section generic.
Context (T : Type) `{Dictionary T}.

(** The constraint a new or changed row violates. *)
Definition row_error (item : T) (db : DB) : option goerr :=
  match d_valid item with
  | Some state => Some (EPg state "")
  | None =>
      if exists_row (fun r => negb (d_ID r =? d_ID item) && d_clash item r) (d_table db)
      then Some (EPg "23505" "")
      else if negb (d_parent item db) then Some (EPg "23503" "")
      else None
  end.

Definition put (itemID : Z) (item : T) (db : DB) : DB :=
  d_store (<[itemID := item]> (d_table db)) db.

Definition insert_item (item : T) (db : DB) : goerr + T * DB :=
  match row_error item db with
  | Some err => inl err
  | None =>
      match d_table db !! d_ID item with
      | Some _ => inl (unique_violation d_pkey)
      | None => inr (item, put (d_ID item) item db)
      end
  end.

Section ops.
Context `{Env}.

Definition DictionaryByID (itemID : Z) : MT T := First (fun db => d_table db !! itemID).

(** ** The administrators' list *)
Definition newest_first (a b : T) : bool :=
  (d_CreatedAt b <? d_CreatedAt a) ||
  (d_CreatedAt a =? d_CreatedAt b) && (d_ID b <=? d_ID a).
Definition after_cursor (after : option Cursor.t) (r : T) : bool :=
  match after with
  | None => true
  | Some k =>
      (d_CreatedAt r <? Cursor.CreatedAt k) ||
      (d_CreatedAt r =? Cursor.CreatedAt k) && (d_ID r <? Cursor.ID k)
  end.
Definition listed (isActive : option bool) (r : T) : bool :=
  match isActive with None => true | Some b => Bool.eqb (d_IsActive r) b end.

Definition FindDictionaryCursorPage (isActive : option bool) (params : CursorParams)
    : MT (list T * bool) :=
  let* items := query (fun db => firstn (Z.to_nat (cp_Limit params + 1))
    (sort_by newest_first
       (select (fun r => listed isActive r && after_cursor (After params) r) (d_table db)))) in
  let hasMore := cp_Limit params <? Z.of_nat (length items) in
  mret (if hasMore then firstn (Z.to_nat (cp_Limit params)) items else items, hasMore).

(** ** Writes *)
Definition CreateDictionary (item : T) : MT T :=
  let* id := NextID in
  stmt (insert_item (d_numbered id item)).

Definition assign_all (fields : list Column) (r : T) : T :=
  foldl (fun r c => d_assign c r) r fields.

Definition update_item (itemID : Z) (f : T -> T) (db : DB) : goerr + Z * DB :=
  match d_table db !! itemID with
  | None => inr (0, db)
  | Some r =>
      match row_error (f r) db with
      | Some err => inl err
      | None => inr (1, put itemID (f r) db)
      end
  end.

Definition UpdateDictionary (itemID : Z) (fields : list Column) : MT unit :=
  let* now := Now in
  PostRepository.found_row (stmt (update_item itemID
    (fun r => d_touched now (assign_all fields r)))).

Definition remove (itemID : Z) (db : DB) : DB :=
  let db := d_cascade itemID db in d_store (delete itemID (d_table db)) db.

Definition delete_item (itemID : Z) (db : DB) : goerr + Z * DB :=
  match d_table db !! itemID with
  | None => inr (0, db)
  | Some _ =>
      if d_referenced itemID db then inl (EPg "23503" "") else inr (1, remove itemID db)
  end.

Definition DeleteDictionary (itemID : Z) : MT unit :=
  PostRepository.found_row (stmt (delete_item itemID)).

(** [Clauses(OnConflict{DoNothing: true}).Create(item)]: whether a row was written. *)
Definition insert_or_nothing (item : T) (db : DB) : goerr + bool * DB :=
  match row_error item db with
  | Some (EPg "23505" _) => inr (false, db)
  | Some err => inl err
  | None =>
      match d_table db !! d_ID item with
      | Some _ => inr (false, db)
      | None => inr (true, put (d_ID item) item db)
      end
  end.

(** The shape of the four [FindOrCreate] methods: [stored] is the [SELECT] after the
    conflict. *)
Definition find_or_create (item : T) (stored : MT T) : MT T :=
  let* now := Now in
  let* id := NextID in
  let item := d_stamped now (d_numbered id item) in
  let* created := stmt (insert_or_nothing item) in
  if (created : bool) then mret item else stored.

Definition by_name (name : string) : MT T :=
  First (fun db => first (fun r => bool_decide (d_Name r = name)) (d_table db)).
End ops.
End generic.

(** ** The four tables *)
(** Suggestions and posts that refer to an entry. *)
Definition resulted (proj : DictionarySuggestion.t -> option Z) (id : Z) (db : DB) : bool :=
  exists_row (fun s => bool_decide (proj s = Some id)) (dictionary_suggestions db).
Definition posted (proj : Post.t -> option Z) (id : Z) (db : DB) : bool :=
  exists_row (fun p => bool_decide (proj p = Some id)) (posts db).

Definition varchar (n : Z) (v : string) : bool := RuneCountInString v <=? n.
Definition column_state (widths checks : bool) : option string :=
  if negb widths then Some "22001"%string else if negb checks then Some "23514"%string else None.

Section flavors.
Import Flavor.
#[export] Instance flavor_dictionary : Dictionary Flavor.t := {
  d_table := flavors;
  d_store := fun t db => db <| flavors := t |>;
  d_pkey := "flavors_pkey";
  d_ID := ID;
  d_Name := Name;
  d_IsActive := IsActive;
  d_CreatedAt := CreatedAt;
  d_numbered := fun id r => r <| ID := id |>;
  d_stamped := fun now r => r <| CreatedAt := now |> <| UpdatedAt := now |>;
  d_touched := fun now r => r <| UpdatedAt := now |>;
  d_assign := fun c r => match c with
    | ColName v => r <| Name := v |>
    | ColSortOrder v => r <| SortOrder := v |>
    | ColIsActive v => r <| IsActive := v |>
    | ColCampus _ | ColFloor _ => r
    end;
  d_fixed := fun _ => (0, ""%string);
  d_width := varchar 50;
  d_valid := fun r => column_state (varchar 50 (Name r)) (trimmed (Name r));
  d_clash := fun a b => bool_decide (Name a = Name b);
  d_parent := fun _ _ => true;
  d_referenced := fun id db =>
    existsb (fun pf => PostFlavor.FlavorID pf =? id) (rows_of (post_flavors db)) ||
    resulted DictionarySuggestion.ResultingFlavorID id db;
  d_cascade := fun _ db => db;
}.
End flavors.

Section cuisines.
Import Cuisine.
#[export] Instance cuisine_dictionary : Dictionary Cuisine.t := {
  d_table := cuisines;
  d_store := fun t db => db <| cuisines := t |>;
  d_pkey := "cuisines_pkey";
  d_ID := ID;
  d_Name := Name;
  d_IsActive := IsActive;
  d_CreatedAt := CreatedAt;
  d_numbered := fun id r => r <| ID := id |>;
  d_stamped := fun now r => r <| CreatedAt := now |> <| UpdatedAt := now |>;
  d_touched := fun now r => r <| UpdatedAt := now |>;
  d_assign := fun c r => match c with
    | ColName v => r <| Name := v |>
    | ColSortOrder v => r <| SortOrder := v |>
    | ColIsActive v => r <| IsActive := v |>
    | ColCampus _ | ColFloor _ => r
    end;
  d_fixed := fun _ => (0, ""%string);
  d_width := varchar 50;
  d_valid := fun r => column_state (varchar 50 (Name r)) (trimmed (Name r));
  d_clash := fun a b => bool_decide (Name a = Name b);
  d_parent := fun _ _ => true;
  d_referenced := fun id db =>
    posted Post.CuisineID id db || resulted DictionarySuggestion.ResultingCuisineID id db;
  d_cascade := fun _ db => db;
}.
End cuisines.

Section windows.
Import CanteenWindow.
Definition window_referenced (id : Z) (db : DB) : bool :=
  posted Post.CanteenWindowID id db || resulted DictionarySuggestion.ResultingWindowID id db.

#[export] Instance window_dictionary : Dictionary CanteenWindow.t := {
  d_table := canteen_windows;
  d_store := fun t db => db <| canteen_windows := t |>;
  d_pkey := "canteen_windows_pkey";
  d_ID := ID;
  d_Name := Name;
  d_IsActive := IsActive;
  d_CreatedAt := CreatedAt;
  d_numbered := fun id r => r <| ID := id |>;
  d_stamped := fun now r => r <| CreatedAt := now |> <| UpdatedAt := now |>;
  d_touched := fun now r => r <| UpdatedAt := now |>;
  d_assign := fun c r => match c with
    | ColName v => r <| Name := v |>
    | ColFloor v => r <| Floor := v |>
    | ColSortOrder v => r <| SortOrder := v |>
    | ColIsActive v => r <| IsActive := v |>
    | ColCampus _ => r
    end;
  d_fixed := fun r => (CanteenID r, ""%string);
  d_width := varchar 100;
  d_valid := fun r => column_state
    (varchar 100 (Name r) && match Floor r with Some f => varchar 20 f | None => true end)
    (trimmed (Name r) && match Floor r with Some f => trimmed f | None => true end);
  d_clash := fun a b =>
    (CanteenID a =? CanteenID b) && bool_decide (Floor a = Floor b) &&
    bool_decide (Name a = Name b);
  d_parent := fun r db => bool_decide (is_Some (canteens db !! CanteenID r));
  d_referenced := window_referenced;
  d_cascade := fun _ db => db;
}.
End windows.

Section canteens.
Import Canteen.
Definition windows_of (canteenID : Z) (w : CanteenWindow.t) : bool :=
  CanteenWindow.CanteenID w =? canteenID.

#[export] Instance canteen_dictionary : Dictionary Canteen.t := {
  d_table := canteens;
  d_store := fun t db => db <| canteens := t |>;
  d_pkey := "canteens_pkey";
  d_ID := ID;
  d_Name := Name;
  d_IsActive := IsActive;
  d_CreatedAt := CreatedAt;
  d_numbered := fun id r => r <| ID := id |>;
  d_stamped := fun now r => r <| CreatedAt := now |> <| UpdatedAt := now |>;
  d_touched := fun now r => r <| UpdatedAt := now |>;
  d_assign := fun c r => match c with
    | ColName v => r <| Name := v |>
    | ColCampus v => r <| Campus := v |>
    | ColSortOrder v => r <| SortOrder := v |>
    | ColIsActive v => r <| IsActive := v |>
    | ColFloor _ => r
    end;
  d_fixed := fun r => (0, Code r);
  d_width := varchar 100;
  d_valid := fun r => column_state
    (varchar 64 (Code r) && varchar 100 (Name r) && varchar 50 (Campus r))
    (trimmed (Code r) && trimmed (Name r) && trimmed (Campus r));
  d_clash := fun a b => bool_decide (Code a = Code b) || bool_decide (Name a = Name b);
  d_parent := fun _ _ => true;
  d_referenced := fun id db =>
    posted Post.CanteenID id db ||
    resulted DictionarySuggestion.ParentCanteenID id db ||
    resulted DictionarySuggestion.ResultingCanteenID id db ||
    existsb (fun w => window_referenced (CanteenWindow.ID w) db)
      (select (windows_of id) (canteen_windows db));
  d_cascade := fun id db => db <| canteen_windows :=
    filter (fun kv => windows_of id (snd kv) = false) (canteen_windows db) |>;
}.
End canteens.

(** ** Suggestions: the CHECKs and foreign keys of the table *)
Section suggestions.
Import DictionarySuggestion.

Definition is_set {A} (o : option A) : bool := match o with Some _ => true | None => false end.

Definition results (s : t) : list (string * option Z) :=
  [(SuggestionKindFlavor, ResultingFlavorID s); (SuggestionKindCuisine, ResultingCuisineID s);
   (SuggestionKindCanteen, ResultingCanteenID s);
   (SuggestionKindCanteenWindow, ResultingWindowID s)].

Definition kinds : list string :=
  [SuggestionKindFlavor; SuggestionKindCuisine; SuggestionKindCanteen;
   SuggestionKindCanteenWindow].
Definition stances : list string := [FlavorStanceHas; FlavorStancePrefer; FlavorStanceAvoid].

(** [ds_kind_check], [ds_flavor_stance_check], [ds_flavor_stance_enum_check]. *)
Definition kind_check (s : t) : bool :=
  bool_decide (Kind s ∈ kinds) &&
  Bool.eqb (bool_decide (Kind s = SuggestionKindFlavor)) (is_set (FlavorStance s)) &&
  match FlavorStance s with Some v => bool_decide (v ∈ stances) | None => true end.

(** [ds_parent_canteen_check], [ds_no_self_parent_check]. *)
Definition parent_check (s : t) : bool :=
  (if bool_decide (Kind s = SuggestionKindCanteenWindow)
   then (is_set (ParentCanteenID s) || is_set (ParentSuggestionID s)) &&
        (negb (bool_decide (Status s = SuggestionStatusApproved)) || is_set (ParentCanteenID s))
   else negb (is_set (ParentCanteenID s)) && negb (is_set (ParentSuggestionID s))) &&
  negb (bool_decide (ParentSuggestionID s = Some (ID s))).

(** [ds_status_check], [ds_review_fields_check], [ds_reject_note_check]. *)
Definition review_check (s : t) : bool :=
  (if bool_decide (Status s = SuggestionStatusPending)
   then negb (is_set (ReviewerID s)) && negb (is_set (ReviewedAt s))
   else (bool_decide (Status s = SuggestionStatusApproved) ||
         bool_decide (Status s = SuggestionStatusRejected)) &&
        is_set (ReviewerID s) && is_set (ReviewedAt s)) &&
  (negb (bool_decide (Status s = SuggestionStatusRejected)) ||
   negb (only_spaces (default ""%string (ReviewNote s)))).

(** [ds_resulting_check]. *)
Definition resulting_check (s : t) : bool :=
  if bool_decide (Status s = SuggestionStatusApproved)
  then forallb (fun r => Bool.eqb (is_set (snd r)) (bool_decide (fst r = Kind s))) (results s)
  else forallb (fun r => negb (is_set (snd r))) (results s).

Definition checks (s : t) : bool :=
  trimmed (ProposedName s) && kind_check s && parent_check s && review_check s &&
  resulting_check s.

(** A foreign key: a set value refers to a row. *)
Definition refers {A} (o : option Z) (table : gmap Z A) (p : A -> bool) : bool :=
  match o with
  | None => true
  | Some id => match table !! id with Some r => p r | None => false end
  end.
Definition exists_ {A} (_ : A) : bool := true.

Definition foreign_keys (s : t) (db : DB) : bool :=
  refers (Some (ProposerID s)) (users db) exists_ &&
  refers (PostID s) (posts db) exists_ &&
  refers (ReviewerID s) (users db) exists_ &&
  refers (ParentCanteenID s) (canteens db) exists_ &&
  refers (ParentSuggestionID s) (dictionary_suggestions db) (fun p =>
    bool_decide (Kind p = SuggestionKindCanteen) &&
    (negb (is_set (ParentCanteenID s)) ||
     bool_decide (ResultingCanteenID p = ParentCanteenID s))) &&
  refers (ResultingFlavorID s) (flavors db) exists_ &&
  refers (ResultingCuisineID s) (cuisines db) exists_ &&
  refers (ResultingCanteenID s) (canteens db) exists_ &&
  (negb (is_set (ParentCanteenID s)) ||
   refers (ResultingWindowID s) (canteen_windows db)
     (fun w => bool_decide (ParentCanteenID s = Some (CanteenWindow.CanteenID w)))).

Definition suggestion_error (s : t) (db : DB) : option goerr :=
  if negb (varchar 100 (ProposedName s)) then Some (EPg "22001" "")
  else if negb (checks s) then Some (EPg "23514" "")
  else if negb (foreign_keys s db) then Some (EPg "23503" "")
  else None.
End suggestions.

(** ** DictionaryRepository *)
Module DictionaryRepository.
Import DictionarySuggestion.

Record SuggestionRecord := mkSuggestionRecord {
  sg_Suggestion : t;
  sg_ProposerName : string;
  sg_ProposerDeletedAt : option time;
}.

Definition with_proposer (db : DB) (s : t) : option SuggestionRecord :=
  u ← users db !! ProposerID s;
  Some (mkSuggestionRecord s (User.Username u) (User.DeletedAt u)).

Definition put_suggestion (suggestionID : Z) (s : t) (db : DB) : DB :=
  db <| dictionary_suggestions := <[suggestionID := s]> (dictionary_suggestions db) |>.

Section ops.
Context `{Env}.

Definition CreateSuggestion (value : t) : MT t :=
  let* id := NextID in
  let value := value <| ID := id |> in
  stmt (fun db =>
    match suggestion_error value db with
    | Some err => inl err
    | None =>
        match dictionary_suggestions db !! id with
        | Some _ => inl (unique_violation "dictionary_suggestions_pkey")
        | None => inr (value, put_suggestion id value db)
        end
    end).

Definition FindSuggestionByID (suggestionID : Z) : MT t :=
  First (fun db => dictionary_suggestions db !! suggestionID).
Definition LockSuggestionByID (suggestionID : Z) : MT t :=
  First (fun db => dictionary_suggestions db !! suggestionID).

Definition FindSuggestionRecordByID (suggestionID : Z) : MT SuggestionRecord :=
  let* r := query (fun db =>
    s ← dictionary_suggestions db !! suggestionID; with_proposer db s) in
  match r with Some v => mret v | None => throw ErrNotFound end.

(** [findSuggestionPage]: the total is counted before the join. *)
Definition findSuggestionPage (p : t -> bool) (params : Params) (order : t -> t -> bool)
    : MT (list SuggestionRecord * Meta) :=
  let* total := query (fun db => Z.of_nat (length (select p (dictionary_suggestions db)))) in
  let* rows := query (fun db => page_rows params
    (omap (with_proposer db) (sort_by order (select p (dictionary_suggestions db))))) in
  mret (rows, NewMeta params total).

Definition latest_first (a b : t) : bool :=
  (CreatedAt b <? CreatedAt a) || (CreatedAt a =? CreatedAt b) && (ID b <=? ID a).
Definition FindMinePage (proposerID : Z) (params : Params)
    : MT (list SuggestionRecord * Meta) :=
  findSuggestionPage (fun s => ProposerID s =? proposerID) params latest_first.

(** [ORDER BY kind, created_at, id]. *)
Definition by_kind (a b : t) : bool :=
  if bool_decide (Kind a = Kind b)
  then (CreatedAt a <? CreatedAt b) || (CreatedAt a =? CreatedAt b) && (ID a <=? ID b)
  else String.leb (Kind a) (Kind b).
Definition FindPendingPage (kind : option string) (params : Params)
    : MT (list SuggestionRecord * Meta) :=
  findSuggestionPage (fun s =>
    bool_decide (Status s = SuggestionStatusPending) &&
    match kind with None => true | Some k => bool_decide (Kind s = k) end) params by_kind.

(** One [UPDATE ... WHERE id = ? AND status = 'pending']; the trigger
    [danshi_check_suggestion_transition] only concerns rows that are not pending. *)
Definition review_row (suggestionID : Z) (fields : t -> t) (now : time) (db : DB)
    : goerr + Z * DB :=
  match dictionary_suggestions db !! suggestionID with
  | None => inr (0, db)
  | Some s =>
      if negb (bool_decide (Status s = SuggestionStatusPending)) then inr (0, db)
      else
        let s' := (fields s) <| UpdatedAt := now |> in
        match suggestion_error s' db with
        | Some err => inl err
        | None => inr (1, put_suggestion suggestionID s' db)
        end
  end.

Definition ReviewSuggestion (suggestionID : Z) (fields : t -> t) : MT unit :=
  let* now := Now in
  PostRepository.found_row (stmt (review_row suggestionID fields now)).

(** ** Reuse or create an entry *)
Definition FindOrCreateFlavor (name : string) (sortOrder : Z) : MT Flavor.t :=
  find_or_create Flavor.t (Flavor.mk 0 name sortOrder true zero_time zero_time)
    (by_name Flavor.t name).

Definition FindOrCreateCuisine (name : string) (sortOrder : Z) : MT Cuisine.t :=
  find_or_create Cuisine.t (Cuisine.mk 0 name sortOrder true zero_time zero_time)
    (by_name Cuisine.t name).

Definition FindOrCreateCanteen (name code campus : string) (sortOrder : Z) : MT Canteen.t :=
  find_or_create Canteen.t (Canteen.mk 0 code name campus sortOrder true zero_time zero_time)
    (on_error (by_name Canteen.t name) (fun err =>
       if is_not_found err then throw ErrAlreadyExists else throw err)).

Definition FindCanteenByName (name : string) : MT Canteen.t := by_name Canteen.t name.

Definition FindOrCreateWindow (canteenID : Z) (name : string) (floor : option string)
    (sortOrder : Z) : MT CanteenWindow.t :=
  find_or_create CanteenWindow.t
    (CanteenWindow.mk 0 canteenID name floor sortOrder true zero_time zero_time)
    (First (fun db => first (fun w =>
       (CanteenWindow.CanteenID w =? canteenID) && bool_decide (CanteenWindow.Floor w = floor) &&
       bool_decide (CanteenWindow.Name w = name)) (canteen_windows db))).

(** [INSERT ... ON CONFLICT (post_id, flavor_id) DO UPDATE SET stance, post_type], with
    the CHECKs and the foreign keys of [post_flavors]. *)
Definition UpsertPostFlavor (postID : Z) (postType : string) (flavorID : Z) (stance : string)
    : MT unit :=
  stmt (fun db =>
    if negb (bool_decide (stance ∈ stances) &&
             Bool.eqb (bool_decide (postType = PostTypeShare))
               (bool_decide (stance = FlavorStanceHas)))
    then inl (EPg "23514" "")
    else if negb (refers (Some flavorID) (flavors db) exists_ &&
                  refers (Some postID) (posts db)
                    (fun p => bool_decide (Post.PostType p = postType)))
    then inl (EPg "23503" "")
    else inr (tt, db <| post_flavors :=
      <[(postID, flavorID) := PostFlavor.mk postID flavorID stance postType]>
        (post_flavors db) |>)).
End ops.
End DictionaryRepository.

(** ** The laws hold of the four tables *)
Lemma column_state_width a b : column_state a b = None -> a = true.
Proof. by destruct a. Qed.
Lemma column_state_check a b : column_state a b = None -> b = true.
Proof. by destruct a, b. Qed.

Lemma bool_decide_sym {A} `{EqDecision A} (x y : A) : bool_decide (x = y) = bool_decide (y = x).
Proof. by apply bool_decide_ext. Qed.

#[export] Instance flavor_laws : DictionaryLaws Flavor.t.
Proof.
  split; try done; try (by intros []).
  - intros r Hr. by apply column_state_width in Hr.
  - intros a b. apply bool_decide_sym.
Qed.
#[export] Instance cuisine_laws : DictionaryLaws Cuisine.t.
Proof.
  split; try done; try (by intros []).
  - intros r Hr. by apply column_state_width in Hr.
  - intros a b. apply bool_decide_sym.
Qed.
#[export] Instance canteen_laws : DictionaryLaws Canteen.t.
Proof.
  split; try done; try (by intros []).
  - intros r Hr%column_state_width. by apply andb_true_iff in Hr as [[_ Hr]%andb_true_iff _].
  - intros a b. cbn. by rewrite (bool_decide_sym (Canteen.Code a)), (bool_decide_sym (Canteen.Name a)).
Qed.
#[export] Instance window_laws : DictionaryLaws CanteenWindow.t.
Proof.
  split; try done; try (by intros []).
  - intros r Hr%column_state_width. by apply andb_true_iff in Hr as [Hr _].
  - intros a b. cbn. by rewrite Z.eqb_sym, (bool_decide_sym (CanteenWindow.Floor a)),
      (bool_decide_sym (CanteenWindow.Name a)).
Qed.
