(* ===== verification/DictionaryService.v ===== *)
(** * The dictionary service: [internal/service/dictionary.go], [dictionary_crud.go]

    Users suggest entries, administrators approve or reject them, and maintain the four
    dictionaries.  Each method in full: guards and early returns in the code's order,
    every repository call; a map of columns is a function on the row (suggestions,
    posts) or a list of columns (dictionaries). *)

From S2P Require Import Prelude.
From S2P Require Import GoText.
From S2P Require Import Apierr.
From S2P Require Import Effects.
From S2P Require Import Model.
From S2P Require Import Validation.
From S2P Require Import Pagination.
From S2P Require Import AuthRepo.
From S2P Require Import AuthService.
From S2P Require Import Money.
From S2P Require Import PostValidation.
From S2P Require Import PostRepo.
From S2P Require Import UserRepo.
From S2P Require Import PostService.
From S2P Require Import DictionaryRepo.
Open Scope Z_scope.

Module DictionaryService.
Import DictionaryRepository.
Module DS := DictionarySuggestion.

(** ** Inputs and answers *)
Record CreateSuggestionInput := mkCreateSuggestion {
  cs_Kind : string;
  cs_ProposedName : string;
  cs_PostID : option Z;
  cs_FlavorStance : option string;
  cs_ParentCanteenCode : option string;
  cs_ParentSuggestionID : option Z;
}.

Record ApproveSuggestionInput := mkApprove {
  ap_ExistingItemID : option Z;
  ap_Code : option string;
  ap_Campus : option string;
  ap_Floor : option string;
  ap_SortOrder : Z;
  ap_ReviewNote : option string;
}.
#[global] Instance eta_ApproveSuggestionInput : Eta ApproveSuggestionInput := fun x =>
  mkApprove (ap_ExistingItemID x) (ap_Code x) (ap_Campus x) (ap_Floor x) (ap_SortOrder x)
    (ap_ReviewNote x).

Record SuggestionProposer := mkProposer { sp_ID : Z; sp_Name : string }.

Record SuggestionView := mkSuggestionView {
  sv_ID : Z;
  sv_Kind : string;
  sv_ProposedName : string;
  sv_Proposer : SuggestionProposer;
  sv_PostID : option Z;
  sv_FlavorStance : option string;
  sv_ParentCanteenID : option Z;
  sv_ParentSuggestionID : option Z;
  sv_Status : string;
  sv_ReviewerID : option Z;
  sv_ReviewedAt : option time;
  sv_ReviewNote : option string;
  sv_ResultingFlavorID : option Z;
  sv_ResultingCuisineID : option Z;
  sv_ResultingCanteenID : option Z;
  sv_ResultingWindowID : option Z;
  sv_CreatedAt : time;
  sv_UpdatedAt : time;
}.

Record SuggestionList := mkSuggestionList {
  sl_Suggestions : list SuggestionView; sl_Pagination : Meta }.

Record CreateDictionaryItemInput := mkCreateItem {
  ci_Name : string; ci_SortOrder : Z; ci_IsActive : option bool }.
Record UpdateDictionaryItemInput := mkUpdateItem {
  ui_Name : option string; ui_SortOrder : option Z; ui_IsActive : option bool }.
Record CreateCanteenInput := mkCreateCanteen {
  cc_Code : string; cc_Name : string; cc_Campus : string; cc_SortOrder : Z;
  cc_IsActive : option bool }.
Record UpdateCanteenInput := mkUpdateCanteen {
  uc_CodeSet : bool; uc_Name : option string; uc_Campus : option string;
  uc_SortOrder : option Z; uc_IsActive : option bool }.
Record CreateCanteenWindowInput := mkCreateWindow {
  cw_Name : string; cw_Floor : option string; cw_SortOrder : Z; cw_IsActive : option bool }.
Record UpdateCanteenWindowInput := mkUpdateWindow {
  uw_CanteenIDSet : bool; uw_Name : option string; uw_Floor : option string;
  uw_FloorSet : bool; uw_SortOrder : option Z; uw_IsActive : option bool }.

Record DictionaryItemView := mkItemView {
  iv_ID : Z; iv_Name : string; iv_SortOrder : Z; iv_IsActive : bool;
  iv_CreatedAt : time; iv_UpdatedAt : time }.
Record DictionaryCanteenView := mkCanteenView {
  dc_ID : Z; dc_Code : string; dc_Name : string; dc_Campus : string; dc_SortOrder : Z;
  dc_IsActive : bool; dc_CreatedAt : time; dc_UpdatedAt : time }.
Record DictionaryWindowView := mkWindowView {
  dw_ID : Z; dw_CanteenID : Z; dw_Name : string; dw_Floor : option string;
  dw_SortOrder : Z; dw_IsActive : bool; dw_CreatedAt : time; dw_UpdatedAt : time }.

Record DictionaryDeleteResult := mkDeleteResult { dr_ID : Z }.
Record DictionaryListInput := mkListInput {
  li_IsActive : option bool; li_Pagination : CursorRequest }.
Record DictionaryList (V : Type) := mkDictionaryList {
  dl_Items : list V; dl_Pagination : CursorMeta }.
Arguments mkDictionaryList {V} _ _.
Definition DictionaryItemList := DictionaryList DictionaryItemView.
Definition DictionaryCanteenList := DictionaryList DictionaryCanteenView.
Definition DictionaryWindowList := DictionaryList DictionaryWindowView.

Record DictionaryService := mkDictionaryService {
  flavorCursor : CursorCodec;
  cuisineCursor : CursorCodec;
  canteenCursor : CursorCodec;
  windowCursor : CursorCodec;
}.

Definition NewDictionaryServiceWithCursorSecret (cursorSecret : string) : DictionaryService :=
  mkDictionaryService (NewCursorCodec cursorSecret "admin-flavors")
    (NewCursorCodec cursorSecret "admin-cuisines")
    (NewCursorCodec cursorSecret "admin-canteens")
    (NewCursorCodec cursorSecret "admin-canteen-windows").

(** ** Pure helpers *)
Definition invalid {A} (field : string) (code : FieldCode) (message : string) : goerr + A :=
  inl (EApi (InvalidField field code message)).

Definition parseSuggestionKind (raw : string) (optional : bool) : goerr + option string :=
  let raw := TrimSpace raw in
  if bool_decide (raw = ""%string) && optional then inr None
  else if negb (bool_decide (raw ∈ kinds))
  then invalid "kind" FieldInvalidEnum "kind 取值不合法"
  else inr (Some raw).

Definition requiredDictionaryText (raw field : string) (limit : Z) : goerr + string :=
  let value := TrimSpace raw in
  if bool_decide (value = ""%string) then invalid field FieldRequired (field +:+ " 不能为空")
  else if limit <? RuneCountInString value
  then invalid field FieldTooLong (field +:+ " 不能超过 " +:+ FormatInt limit +:+ " 个字符")
  else inr value.

Definition optional_text (value : option string) (field : string) (limit : Z)
    : goerr + option string :=
  match value with
  | None => inr None
  | Some raw => let? v := requiredDictionaryText raw field limit in inr (Some v)
  end.

Definition normalizeFloor (value : option string) : goerr + option string :=
  match value with
  | None => inr None
  | Some raw =>
      let floor := TrimSpace raw in
      if bool_decide (floor = ""%string) then inr None
      else if 20 <? RuneCountInString floor
      then invalid "floor" FieldTooLong "floor 不能超过 20 个字符"
      else inr (Some floor)
  end.

(** The floor is treated as in [normalizeFloor]. *)
Definition normalizeApproveSuggestion (input : ApproveSuggestionInput)
    : goerr + ApproveSuggestionInput :=
  let? code := optional_text (ap_Code input) "code" 64 in
  let? campus := optional_text (ap_Campus input) "campus" 50 in
  let? floor := normalizeFloor (ap_Floor input) in
  let note := match ap_ReviewNote input with
              | None => None
              | Some raw => let value := TrimSpace raw in
                            if bool_decide (value = ""%string) then None else Some value
              end in
  inr (input <| ap_Code := code |> <| ap_Campus := campus |> <| ap_Floor := floor |>
             <| ap_ReviewNote := note |>).

Definition validFlavorStance (value : string) : bool := bool_decide (value ∈ stances).

Definition stanceMatchesPostType (stance postType : string) : bool :=
  bool_decide (postType = PostTypeShare) && bool_decide (stance = FlavorStanceHas) ||
  bool_decide (postType = PostTypeSeeking) &&
    (bool_decide (stance = FlavorStancePrefer) || bool_decide (stance = FlavorStanceAvoid)).

Definition suggestionView (row : SuggestionRecord) : SuggestionView :=
  let s := sg_Suggestion row in
  let name := match sg_ProposerDeletedAt row with
              | Some _ => "已注销用户"%string
              | None => sg_ProposerName row
              end in
  mkSuggestionView (DS.ID s) (DS.Kind s) (DS.ProposedName s) (mkProposer (DS.ProposerID s) name)
    (DS.PostID s) (DS.FlavorStance s) (DS.ParentCanteenID s) (DS.ParentSuggestionID s)
    (DS.Status s) (DS.ReviewerID s) (DS.ReviewedAt s) (DS.ReviewNote s)
    (DS.ResultingFlavorID s) (DS.ResultingCuisineID s) (DS.ResultingCanteenID s)
    (DS.ResultingWindowID s) (DS.CreatedAt s) (DS.UpdatedAt s).

(** The column of a result, by the name the code uses. *)
Definition setSuggestionResult (s : DS.t) (field : string) (resultID : Z) : DS.t :=
  if bool_decide (field = "resulting_flavor_id"%string)
  then s <| DS.ResultingFlavorID := Some resultID |>
  else if bool_decide (field = "resulting_cuisine_id"%string)
  then s <| DS.ResultingCuisineID := Some resultID |>
  else if bool_decide (field = "resulting_canteen_id"%string)
  then s <| DS.ResultingCanteenID := Some resultID |>
  else if bool_decide (field = "resulting_window_id"%string)
  then s <| DS.ResultingWindowID := Some resultID |>
  else s.

Definition defaultActive (value : option bool) : bool := default true value.

Definition addDictionaryPatchFields (fields : list Column) (sortOrder : option Z)
    (isActive : option bool) : list Column :=
  fields ++ match sortOrder with Some v => [ColSortOrder v] | None => [] end
         ++ match isActive with Some v => [ColIsActive v] | None => [] end.

(** [len(fields) == 0]. *)
Definition some_field (fields : list Column) : goerr + list Column :=
  match fields with
  | [] => invalid "body" FieldRequired "至少提供一个可更新字段"
  | _ => inr fields
  end.

Definition text_column (value : option string) (field : string) (limit : Z)
    (column : string -> Column) : goerr + list Column :=
  let? v := optional_text value field limit in
  inr match v with Some v => [column v] | None => [] end.

Definition dictionaryItemFields (input : UpdateDictionaryItemInput) (nameLimit : Z)
    : goerr + list Column :=
  let? name := text_column (ui_Name input) "name" nameLimit ColName in
  some_field (addDictionaryPatchFields name (ui_SortOrder input) (ui_IsActive input)).

Definition canteen_fields (input : UpdateCanteenInput) : goerr + list Column :=
  if uc_CodeSet input
  then invalid "code" FieldConflict "餐厅 code 是稳定标识，不可修改"
  else
    let? name := text_column (uc_Name input) "name" 100 ColName in
    let? campus := text_column (uc_Campus input) "campus" 50 ColCampus in
    some_field (addDictionaryPatchFields (name ++ campus) (uc_SortOrder input)
      (uc_IsActive input)).

Definition window_fields (input : UpdateCanteenWindowInput) : goerr + list Column :=
  if uw_CanteenIDSet input
  then invalid "canteen_id" FieldConflict "窗口所属餐厅不可修改"
  else
    let? name := text_column (uw_Name input) "name" 100 ColName in
    let? floor := (if uw_FloorSet input
                   then let? v := normalizeFloor (uw_Floor input) in inr [ColFloor v]
                   else inr []) in
    some_field (addDictionaryPatchFields (name ++ floor) (uw_SortOrder input)
      (uw_IsActive input)).

Definition dictionaryItemView (id : Z) (name : string) (sortOrder : Z) (isActive : bool)
    (createdAt updatedAt : time) : DictionaryItemView :=
  mkItemView id name sortOrder isActive createdAt updatedAt.
Definition flavor_view (f : Flavor.t) : DictionaryItemView :=
  dictionaryItemView (Flavor.ID f) (Flavor.Name f) (Flavor.SortOrder f) (Flavor.IsActive f)
    (Flavor.CreatedAt f) (Flavor.UpdatedAt f).
Definition cuisine_view (c : Cuisine.t) : DictionaryItemView :=
  dictionaryItemView (Cuisine.ID c) (Cuisine.Name c) (Cuisine.SortOrder c) (Cuisine.IsActive c)
    (Cuisine.CreatedAt c) (Cuisine.UpdatedAt c).
Definition dictionaryCanteenView (c : Canteen.t) : DictionaryCanteenView :=
  mkCanteenView (Canteen.ID c) (Canteen.Code c) (Canteen.Name c) (Canteen.Campus c)
    (Canteen.SortOrder c) (Canteen.IsActive c) (Canteen.CreatedAt c) (Canteen.UpdatedAt c).
Definition dictionaryWindowView (w : CanteenWindow.t) : DictionaryWindowView :=
  mkWindowView (CanteenWindow.ID w) (CanteenWindow.CanteenID w) (CanteenWindow.Name w)
    (CanteenWindow.Floor w) (CanteenWindow.SortOrder w) (CanteenWindow.IsActive w)
    (CanteenWindow.CreatedAt w) (CanteenWindow.UpdatedAt w).

Section service.
Context `{Env} `{Pg} `{Unicode} `{DbClock} `{Decimal}.

(** ** Errors *)
Definition suggestionRepositoryError {A} (err : goerr) : MT A :=
  if is_not_found err then api_error (NotFound BizSuggestionNotFound "词条提议") else internal err.

Definition already_exists {A} : MT A :=
  api_error (Conflict BizAlreadyExists "同名或同标识词表项已存在").
Definition exists_already (err : goerr) : bool :=
  is_already_exists err || IsSQLState err ["23505"%string].

Definition dictionaryWriteError {A} (err : goerr) : MT A :=
  if exists_already err then already_exists else internal err.

Definition suggestionReviewError {A} (err : goerr) : MT A :=
  if is_not_found err || IsSQLState err ["23001"%string]
  then api_error (Conflict BizSuggestionClosed "提议已是终态，不可再变更")
  else dictionaryWriteError err.

Definition dictionaryMutationError {A} (resource : string) (err : goerr) : MT A :=
  if is_not_found err then api_error (NotFound BizDictItemNotFound resource)
  else if exists_already err then already_exists
  else internal err.

Definition dictionaryDeleteError {A} (resource : string) (err : goerr) : MT A :=
  if is_not_found err then api_error (NotFound BizDictItemNotFound resource)
  else if IsSQLState err ["23503"; "23001"]%string
  then api_error (Conflict BizDictItemInUse "该词条已被引用，只能停用")
  else internal err.

(** ** Submitting *)
Definition validateSuggestionPost (postID : option Z) (proposerID : Z) : MT (option Post.t) :=
  match postID with
  | None => mret None
  | Some id =>
      if id =? 0
      then api_error (InvalidField "post_id" FieldInvalidFormat "post_id 必须是正整数")
      else
        let absent := fun _ => api_error (NotFound BizPostNotFound "来源帖子") in
        let* post := on_error (PostRepository.FindByID id true) absent in
        if negb (bool_decide (Post.DeletedAt post = None))
        then api_error (NotFound BizPostNotFound "来源帖子")
        else if negb (Post.AuthorID post =? proposerID)
        then api_error (Forbidden BizNotOwner "只能为自己的帖子提交词条建议")
        else mret (Some post)
  end.

Definition suggested_stance (kind : string) (input : option string) : goerr + option string :=
  if bool_decide (kind = SuggestionKindFlavor) then
    match input with
    | None => invalid "flavor_stance" FieldRequired "口味提议必须指定 flavor_stance"
    | Some raw =>
        let stance := TrimSpace raw in
        if negb (validFlavorStance stance)
        then invalid "flavor_stance" FieldInvalidEnum "flavor_stance 取值不合法"
        else inr (Some stance)
    end
  else match input with
       | Some _ => invalid "flavor_stance" FieldConflict "仅口味提议可指定 flavor_stance"
       | None => inr None
       end.

Definition resolveSubmittedCanteen (canteenCode : option string) : MT (option Z) :=
  match canteenCode with
  | None => mret None
  | Some raw =>
      let code := TrimSpace raw in
      if bool_decide (code = ""%string)
      then api_error (InvalidField "parent_canteen_code" FieldRequired
             "parent_canteen_code 不能为空")
      else
        let* canteen := on_error (PostRepository.FindActiveCanteenByCode code)
          (dictionaryError "父餐厅编码") in
        mret (Some (Canteen.ID canteen))
  end.

(** The functions that follow write [result.ParentCanteenID]: it is their result. *)
Definition applyApprovedSubmittedParent (requestedCanteenID : option Z) (parent : DS.t)
    : MT (option Z) :=
  match DS.ResultingCanteenID parent with
  | None => internal (ENew "已批准餐厅提议缺少 resulting_canteen_id")
  | Some resulting =>
      match requestedCanteenID with
      | Some requested =>
          if negb (requested =? resulting)
          then api_error (InvalidField "parent_canteen_code" FieldConflict
                 "parent_canteen_code 与父提议产出不一致")
          else mret (Some resulting)
      | None => mret (Some resulting)
      end
  end.

Definition applySubmittedParentSuggestion (input : CreateSuggestionInput) (proposerID : Z)
    (parentCanteenID : option Z) : MT (option Z) :=
  match cs_ParentSuggestionID input with
  | None => mret parentCanteenID
  | Some id =>
      if id =? 0
      then api_error (InvalidField "parent_suggestion_id" FieldInvalidFormat
             "parent_suggestion_id 必须是正整数")
      else
        let* parent := on_error (FindSuggestionByID id)
          (fun _ => api_error (NotFound BizSuggestionNotFound "父餐厅提议")) in
        if negb (bool_decide (DS.Kind parent = SuggestionKindCanteen)) ||
           negb (DS.ProposerID parent =? proposerID)
        then api_error (NotFound BizSuggestionNotFound "父餐厅提议")
        else if bool_decide (DS.Status parent = SuggestionStatusRejected)
        then api_error (Conflict BizSuggestionClosed "父餐厅提议已被驳回")
        else if bool_decide (DS.Status parent = SuggestionStatusPending)
        then match parentCanteenID with
             | Some _ => api_error (InvalidField "parent_canteen_code" FieldConflict
                           "父餐厅提议待审时不能提前指定 parent_canteen_code")
             | None => mret None
             end
        else if bool_decide (DS.Status parent = SuggestionStatusApproved)
        then applyApprovedSubmittedParent parentCanteenID parent
        else internal (ENew "未知父餐厅提议状态")
  end.

Definition new_suggestion (kind name : string) (input : CreateSuggestionInput)
    (stance : option string) (parentCanteenID : option Z) : DS.t :=
  DS.mk 0 kind name 0 (cs_PostID input) stance parentCanteenID (cs_ParentSuggestionID input)
    "" None None None None None None None zero_time zero_time.

Definition normalizeSuggestion (input : CreateSuggestionInput) (proposerID : Z) : MT DS.t :=
  let* parsed := lift (parseSuggestionKind (cs_Kind input) false) in
  let kind := default ""%string parsed in
  let* name := lift (requiredDictionaryText (cs_ProposedName input) "proposed_name" 100) in
  let* post := validateSuggestionPost (cs_PostID input) proposerID in
  let* stance := lift (suggested_stance kind (cs_FlavorStance input)) in
  let mismatch := match post, stance with
                  | Some p, Some v => negb (stanceMatchesPostType v (Post.PostType p))
                  | _, _ => false
                  end in
  if mismatch
  then api_error (InvalidField "flavor_stance" FieldConflict "flavor_stance 与来源帖子类型不匹配")
  else if negb (bool_decide (kind = SuggestionKindCanteenWindow))
  then if is_set (cs_ParentCanteenCode input) || is_set (cs_ParentSuggestionID input)
       then api_error (InvalidField "parent_canteen_code" FieldConflict "仅窗口提议可指定父餐厅")
       else mret (new_suggestion kind name input stance None)
  else if negb (is_set (cs_ParentCanteenCode input)) &&
          negb (is_set (cs_ParentSuggestionID input))
  then api_error (InvalidField "parent_canteen_code" FieldRequired
         "窗口提议必须指定父餐厅编码或餐厅提议")
  else
    let* submitted := resolveSubmittedCanteen (cs_ParentCanteenCode input) in
    let* parentCanteenID := applySubmittedParentSuggestion input proposerID submitted in
    mret (new_suggestion kind name input stance parentCanteenID).

Definition CreateSuggestion (input : CreateSuggestionInput) (proposerID : Z)
    : MT SuggestionView :=
  let* normalized := normalizeSuggestion input proposerID in
  let* now := Now in
  let suggestion := DS.mk 0 (DS.Kind normalized) (DS.ProposedName normalized) proposerID
    (DS.PostID normalized) (DS.FlavorStance normalized) (DS.ParentCanteenID normalized)
    (DS.ParentSuggestionID normalized) SuggestionStatusPending None None None None None None
    None now now in
  let* suggestion := on_error (DictionaryRepository.CreateSuggestion suggestion)
    dictionaryWriteError in
  let* user := on_error (UserDomain.FindByID proposerID) internal in
  mret (suggestionView (mkSuggestionRecord suggestion (User.Username user) None)).

(** ** Lists of suggestions *)
Definition suggestionList (found : MT (list SuggestionRecord * Meta)) : MT SuggestionList :=
  let* page := on_error found internal in
  mret (mkSuggestionList (map suggestionView (fst page)) (snd page)).

Definition Mine (proposerID : Z) (params : Params) : MT SuggestionList :=
  suggestionList (FindMinePage proposerID params).

Definition Pending (kind : string) (params : Params) : MT SuggestionList :=
  let* parsed := lift (parseSuggestionKind kind true) in
  suggestionList (FindPendingPage parsed params).

(** ** Approving *)
Definition resolveApprovedParentSuggestion (parentSuggestionID : Z)
    (currentCanteenID : option Z) : MT (option Z) :=
  let absent := fun _ => api_error (NotFound BizSuggestionNotFound "父餐厅提议") in
  let* parent := on_error (LockSuggestionByID parentSuggestionID) absent in
  if negb (bool_decide (DS.Kind parent = SuggestionKindCanteen))
  then api_error (NotFound BizSuggestionNotFound "父餐厅提议")
  else if bool_decide (DS.Status parent = SuggestionStatusPending)
  then api_error (Conflict BizSuggestionParentPending "必须先批准父餐厅提议")
  else if negb (bool_decide (DS.Status parent = SuggestionStatusApproved)) ||
          negb (is_set (DS.ResultingCanteenID parent))
  then api_error (Conflict BizSuggestionClosed "父餐厅提议未获批准")
  else if is_set currentCanteenID &&
          negb (bool_decide (currentCanteenID = DS.ResultingCanteenID parent))
  then api_error (Conflict BizConflict "窗口提议的父餐厅与父提议产出不一致")
  else mret (DS.ResultingCanteenID parent).

Definition resolveApprovalParent (suggestion : DS.t) : MT (option Z) :=
  if negb (bool_decide (DS.Kind suggestion = SuggestionKindCanteenWindow)) then mret None
  else
    let* parentID := (match DS.ParentSuggestionID suggestion with
                      | Some id => resolveApprovedParentSuggestion id (DS.ParentCanteenID suggestion)
                      | None => mret (DS.ParentCanteenID suggestion)
                      end) in
    match parentID with
    | None => api_error (Conflict BizSuggestionParentPending "窗口提议尚未落实父餐厅")
    | Some id =>
        let absent := fun _ => api_error (NotFound BizDictItemNotFound "父餐厅") in
        let* canteen := on_error (DictionaryByID Canteen.t id) absent in
        if negb (Canteen.IsActive canteen)
        then api_error (NotFound BizDictItemNotFound "父餐厅")
        else mret (Some id)
    end.

Definition lockSourcePost (suggestion : DS.t) : MT (option Post.t) :=
  match DS.PostID suggestion with
  | None => mret None
  | Some id =>
      let* post := on_error (PostRepository.LockByID id true) postRepositoryError in
      mret (if bool_decide (Post.DeletedAt post = None) then Some post else None)
  end.

(** [activeFlavorResult] and its three siblings. *)
Definition active_result {T} `{Dictionary T} (field message : string) (found : MT T)
    : MT (Z * string) :=
  let* item := on_error found dictionaryWriteError in
  if negb (d_IsActive item) then api_error (Conflict BizDictItemNotFound message)
  else mret (d_ID item, field).
Definition activeFlavorResult : MT Flavor.t -> MT (Z * string) :=
  active_result "resulting_flavor_id" "同名口味已停用，请先启用".
Definition activeCuisineResult : MT Cuisine.t -> MT (Z * string) :=
  active_result "resulting_cuisine_id" "同名菜系已停用，请先启用".
Definition activeCanteenResult : MT Canteen.t -> MT (Z * string) :=
  active_result "resulting_canteen_id" "同名餐厅已停用，请先启用".
Definition activeWindowResult : MT CanteenWindow.t -> MT (Z * string) :=
  active_result "resulting_window_id" "同名窗口已停用，请先启用".

(** A branch of [approveExistingItem]. *)
Definition existing_result {T} `{Dictionary T} (resource field name : string)
    (fits : T -> bool) (itemID : Z) : MT (Z * string) :=
  let absent := fun _ => api_error (NotFound BizDictItemNotFound resource) in
  let* item := on_error (DictionaryByID T itemID) absent in
  if negb (d_IsActive item) || negb (bool_decide (d_Name item = name)) || negb (fits item)
  then api_error (NotFound BizDictItemNotFound resource)
  else mret (d_ID item, field).

Definition approveExistingItem (suggestion : DS.t) (parentCanteenID : option Z) (itemID : Z)
    : MT (Z * string) :=
  let kind := DS.Kind suggestion in
  let name := DS.ProposedName suggestion in
  if itemID =? 0
  then api_error (InvalidField "existing_item_id" FieldInvalidFormat
         "existing_item_id 必须是正整数")
  else if bool_decide (kind = SuggestionKindFlavor)
  then existing_result (T := Flavor.t) "口味" "resulting_flavor_id" name (fun _ => true) itemID
  else if bool_decide (kind = SuggestionKindCuisine)
  then existing_result (T := Cuisine.t) "菜系" "resulting_cuisine_id" name (fun _ => true) itemID
  else if bool_decide (kind = SuggestionKindCanteen)
  then existing_result (T := Canteen.t) "餐厅" "resulting_canteen_id" name (fun _ => true) itemID
  else if bool_decide (kind = SuggestionKindCanteenWindow)
  then existing_result (T := CanteenWindow.t) "窗口" "resulting_window_id" name
         (fun w => bool_decide (parentCanteenID = Some (CanteenWindow.CanteenID w))) itemID
  else internal (ENew "未知词条提议 kind").

Definition approve_canteen (name : string) (input : ApproveSuggestionInput)
    : MT (Z * string) :=
  let* found := attempt (FindCanteenByName name) in
  match found with
  | inr existing => activeCanteenResult (mret existing)
  | inl err =>
      if negb (is_not_found err) then internal err
      else match ap_Code input with
           | None => api_error (InvalidField "code" FieldRequired "新餐厅必须指定 code")
           | Some code =>
               match ap_Campus input with
               | None => api_error (InvalidField "campus" FieldRequired "新餐厅必须指定 campus")
               | Some campus =>
                   activeCanteenResult (FindOrCreateCanteen name code campus (ap_SortOrder input))
               end
           end
  end.

Definition approveDictionaryItem (suggestion : DS.t) (parentCanteenID : option Z)
    (input : ApproveSuggestionInput) : MT (Z * string) :=
  let kind := DS.Kind suggestion in
  let name := DS.ProposedName suggestion in
  match ap_ExistingItemID input with
  | Some itemID => approveExistingItem suggestion parentCanteenID itemID
  | None =>
      if bool_decide (kind = SuggestionKindFlavor)
      then activeFlavorResult (FindOrCreateFlavor name (ap_SortOrder input))
      else if bool_decide (kind = SuggestionKindCuisine)
      then activeCuisineResult (FindOrCreateCuisine name (ap_SortOrder input))
      else if bool_decide (kind = SuggestionKindCanteen)
      then approve_canteen name input
      else if bool_decide (kind = SuggestionKindCanteenWindow)
      then match parentCanteenID with
           | None => api_error (Conflict BizSuggestionParentPending "窗口提议尚未落实父餐厅")
           | Some canteenID =>
               activeWindowResult
                 (FindOrCreateWindow canteenID name (ap_Floor input) (ap_SortOrder input))
           end
      else internal (ENew "未知词条提议 kind")
  end.

(** The columns a kind writes to the post: in the map and in the struct alike. *)
Definition bind_columns (kind : string) (resultID : Z) (parentCanteenID : option Z)
    (p : Post.t) : Post.t :=
  if bool_decide (kind = SuggestionKindCuisine) then p <| Post.CuisineID := Some resultID |>
  else if bool_decide (kind = SuggestionKindCanteen)
  then p <| Post.CanteenID := Some resultID |> <| Post.CanteenWindowID := None |>
  else if bool_decide (kind = SuggestionKindCanteenWindow)
  then p <| Post.CanteenID := parentCanteenID |> <| Post.CanteenWindowID := Some resultID |>
  else p.

Definition bind_flavor (suggestion : DS.t) (post : Post.t) (resultID : Z) : MT unit :=
  match DS.FlavorStance suggestion with
  | None => api_error (Conflict BizConflict "口味立场与来源帖子类型不匹配")
  | Some stance =>
      if negb (stanceMatchesPostType stance (Post.PostType post))
      then api_error (Conflict BizConflict "口味立场与来源帖子类型不匹配")
      else on_error (UpsertPostFlavor (Post.ID post) (Post.PostType post) resultID stance)
             dictionaryWriteError
  end.

Definition bindSuggestionToPost (suggestion : DS.t) (post : Post.t) (resultID : Z)
    (parentCanteenID : option Z) (reviewerID : Z) (now : time) : MT unit :=
  let kind := DS.Kind suggestion in
  let* revision := on_error (PostRepository.NextHistoryRevision (Post.ID post)) internal in
  (if bool_decide (kind = SuggestionKindFlavor) then bind_flavor suggestion post resultID
   else if bool_decide (kind = SuggestionKindCanteenWindow) && negb (is_set parentCanteenID)
   then internal (ENew "批准窗口提议缺少父餐厅")
   else mret tt) ;;;
  let fields := fun p => (bind_columns kind resultID parentCanteenID p)
    <| Post.CurrentRevision := revision |> <| Post.UpdatedAt := now |> in
  on_error (PostRepository.UpdateContent (Post.ID post) fields) postRepositoryError ;;;
  let post := fields post in
  let* relations := on_error (PostRepository.LoadSnapshotRelations (Post.ID post)) internal in
  let reason := ("词条提议 #" +:+ FormatInt (DS.ID suggestion) +:+ " 审批回绑")%string in
  on_error (PostRepository.CreateHistory (PostHistory.mk 0 (Post.ID post) revision reviewerID now
    (snapshotFromCurrent post relations) (Some reason))) historyWriteError.

Definition suggestionRecord (suggestion : DS.t) : MT SuggestionRecord :=
  on_error (FindSuggestionRecordByID (DS.ID suggestion)) suggestionRepositoryError.

(** The map of columns [Approve] writes. *)
Definition approved_fields (kind : string) (parentCanteenID : option Z) (reviewerID : Z)
    (now : time) (note : option string) (resultField : string) (resultID : Z) (s : DS.t)
    : DS.t :=
  let s := setSuggestionResult
    (s <| DS.Status := SuggestionStatusApproved |> <| DS.ReviewerID := Some reviewerID |>
       <| DS.ReviewedAt := Some now |> <| DS.ReviewNote := note |>) resultField resultID in
  if bool_decide (kind = SuggestionKindCanteenWindow)
  then s <| DS.ParentCanteenID := parentCanteenID |> else s.

Definition closed {A} : MT A :=
  api_error (Conflict BizSuggestionClosed "提议已处理，不可重复审核").

Definition Approve (suggestionID reviewerID : Z) (input : ApproveSuggestionInput)
    : MT SuggestionView :=
  let* suggestion := on_error (LockSuggestionByID suggestionID) suggestionRepositoryError in
  if negb (bool_decide (DS.Status suggestion = SuggestionStatusPending)) then closed
  else
    let* input := lift (normalizeApproveSuggestion input) in
    let* parentCanteenID := resolveApprovalParent suggestion in
    let* post := lockSourcePost suggestion in
    let* result := approveDictionaryItem suggestion parentCanteenID input in
    let '(resultID, resultField) := result in
    let* now := Now in
    let fields := approved_fields (DS.Kind suggestion) parentCanteenID reviewerID now
      (ap_ReviewNote input) resultField resultID in
    on_error (ReviewSuggestion (DS.ID suggestion) fields) suggestionReviewError ;;;
    match post with
    | Some post => bindSuggestionToPost suggestion post resultID parentCanteenID reviewerID now
    | None => mret tt
    end ;;;
    let suggestion := (fields suggestion) <| DS.UpdatedAt := now |> in
    let* record := suggestionRecord suggestion in
    mret (suggestionView record).

(** ** Rejecting *)
Definition rejected_fields (reviewerID : Z) (now : time) (note : string) (s : DS.t) : DS.t :=
  s <| DS.Status := SuggestionStatusRejected |> <| DS.ReviewerID := Some reviewerID |>
    <| DS.ReviewedAt := Some now |> <| DS.ReviewNote := Some note |>.

Definition Reject (suggestionID reviewerID : Z) (reviewNote : string) : MT SuggestionView :=
  let* suggestion := on_error (LockSuggestionByID suggestionID) suggestionRepositoryError in
  if negb (bool_decide (DS.Status suggestion = SuggestionStatusPending)) then closed
  else
    let note := TrimSpace reviewNote in
    if bool_decide (note = ""%string)
    then api_error (InvalidField "review_note" FieldRequired "review_note 不能为空")
    else
      let* now := Now in
      let fields := rejected_fields reviewerID now note in
      on_error (ReviewSuggestion suggestionID fields) suggestionReviewError ;;;
      let suggestion := (fields suggestion) <| DS.UpdatedAt := now |> in
      let* record := suggestionRecord suggestion in
      mret (suggestionView record).

(** ** The administrators' lists *)
Definition dictionaryCursorMeta (codec : CursorCodec) (limit : Z) (hasMore : bool)
    (createdAt : time) (id : Z) : MT CursorMeta :=
  if negb hasMore then mret (mkCursorMeta limit None hasMore)
  else
    let* token := on_error (Encode codec (Cursor.mk createdAt id None)) internal in
    mret (mkCursorMeta limit (Some token) hasMore).

(** The body the four lists share. *)
Definition list_items {T V} `{Dictionary T} (codec : CursorCodec) (view : T -> V)
    (input : DictionaryListInput) : MT (DictionaryList V) :=
  let* params := lift (DecodeRequest codec (li_Pagination input)) in
  let* page := on_error (FindDictionaryCursorPage T (li_IsActive input) params) internal in
  let '(rows, hasMore) := page in
  let '(createdAt, id) := match last rows with
                          | Some r => (d_CreatedAt r, d_ID r)
                          | None => (zero_time, 0)
                          end in
  let* meta := dictionaryCursorMeta codec (cp_Limit params) hasMore createdAt id in
  mret (mkDictionaryList (map view rows) meta).

Definition ListFlavors (s : DictionaryService) : DictionaryListInput -> MT DictionaryItemList :=
  list_items (flavorCursor s) flavor_view.
Definition ListCuisines (s : DictionaryService) : DictionaryListInput -> MT DictionaryItemList :=
  list_items (cuisineCursor s) cuisine_view.
Definition ListCanteens (s : DictionaryService)
    : DictionaryListInput -> MT DictionaryCanteenList :=
  list_items (canteenCursor s) dictionaryCanteenView.
Definition ListWindows (s : DictionaryService) : DictionaryListInput -> MT DictionaryWindowList :=
  list_items (windowCursor s) dictionaryWindowView.

(** ** Maintaining the dictionaries *)
Definition create_item {T V} `{Dictionary T} (resource : string) (view : T -> V) (item : T)
    : MT V :=
  let* item := on_error (CreateDictionary T item) (dictionaryMutationError resource) in
  mret (view item).

Definition update_item_fields {T V} `{Dictionary T} (resource : string) (view : T -> V)
    (itemID : Z) (fields : goerr + list Column) : MT V :=
  let* fields := lift fields in
  on_error (UpdateDictionary T itemID fields) (dictionaryMutationError resource) ;;;
  let* item := on_error (DictionaryByID T itemID) (dictionaryMutationError resource) in
  mret (view item).

Definition delete_entry (T : Type) `{Dictionary T} (resource : string) (itemID : Z)
    : MT DictionaryDeleteResult :=
  on_error (DeleteDictionary T itemID) (dictionaryDeleteError resource) ;;;
  mret (mkDeleteResult itemID).

Definition CreateFlavor (input : CreateDictionaryItemInput) : MT DictionaryItemView :=
  let* name := lift (requiredDictionaryText (ci_Name input) "name" 50) in
  let* now := Now in
  create_item "口味" flavor_view
    (Flavor.mk 0 name (ci_SortOrder input) (defaultActive (ci_IsActive input)) now now).
Definition UpdateFlavor (itemID : Z) (input : UpdateDictionaryItemInput)
    : MT DictionaryItemView :=
  update_item_fields "口味" flavor_view itemID (dictionaryItemFields input 50).
Definition EnableFlavor (itemID : Z) : MT DictionaryItemView :=
  UpdateFlavor itemID (mkUpdateItem None None (Some true)).
Definition DeleteFlavor (itemID : Z) : MT DictionaryDeleteResult :=
  delete_entry Flavor.t "口味" itemID.

Definition CreateCuisine (input : CreateDictionaryItemInput) : MT DictionaryItemView :=
  let* name := lift (requiredDictionaryText (ci_Name input) "name" 50) in
  let* now := Now in
  create_item "菜系" cuisine_view
    (Cuisine.mk 0 name (ci_SortOrder input) (defaultActive (ci_IsActive input)) now now).
Definition UpdateCuisine (itemID : Z) (input : UpdateDictionaryItemInput)
    : MT DictionaryItemView :=
  update_item_fields "菜系" cuisine_view itemID (dictionaryItemFields input 50).
Definition EnableCuisine (itemID : Z) : MT DictionaryItemView :=
  UpdateCuisine itemID (mkUpdateItem None None (Some true)).
Definition DeleteCuisine (itemID : Z) : MT DictionaryDeleteResult :=
  delete_entry Cuisine.t "菜系" itemID.

Definition CreateCanteen (input : CreateCanteenInput) : MT DictionaryCanteenView :=
  let* code := lift (requiredDictionaryText (cc_Code input) "code" 64) in
  let* name := lift (requiredDictionaryText (cc_Name input) "name" 100) in
  let* campus := lift (requiredDictionaryText (cc_Campus input) "campus" 50) in
  let* now := Now in
  create_item "餐厅" dictionaryCanteenView
    (Canteen.mk 0 code name campus (cc_SortOrder input) (defaultActive (cc_IsActive input))
       now now).
Definition UpdateCanteen (itemID : Z) (input : UpdateCanteenInput)
    : MT DictionaryCanteenView :=
  update_item_fields "餐厅" dictionaryCanteenView itemID (canteen_fields input).
Definition EnableCanteen (itemID : Z) : MT DictionaryCanteenView :=
  UpdateCanteen itemID (mkUpdateCanteen false None None None (Some true)).
Definition DeleteCanteen (itemID : Z) : MT DictionaryDeleteResult :=
  delete_entry Canteen.t "餐厅" itemID.

Definition CreateWindow (canteenID : Z) (input : CreateCanteenWindowInput)
    : MT DictionaryWindowView :=
  on_error (DictionaryByID Canteen.t canteenID) (dictionaryMutationError "餐厅") ;;;
  let* name := lift (requiredDictionaryText (cw_Name input) "name" 100) in
  let* floor := lift (normalizeFloor (cw_Floor input)) in
  let* now := Now in
  create_item "窗口" dictionaryWindowView
    (CanteenWindow.mk 0 canteenID name floor (cw_SortOrder input)
       (defaultActive (cw_IsActive input)) now now).
Definition UpdateWindow (itemID : Z) (input : UpdateCanteenWindowInput)
    : MT DictionaryWindowView :=
  update_item_fields "窗口" dictionaryWindowView itemID (window_fields input).
Definition EnableWindow (itemID : Z) : MT DictionaryWindowView :=
  UpdateWindow itemID (mkUpdateWindow false None None false None (Some true)).
Definition DeleteWindow (itemID : Z) : MT DictionaryDeleteResult :=
  delete_entry CanteenWindow.t "窗口" itemID.
End service.
End DictionaryService.
