(* ===== verification/DictionaryWrites.v ===== *)
(** * What the dictionary service writes

    [dict_write]: one statement of the service that changes a table, as a step relation.
    Every operation, successful or failed, performs a sequence of such steps
    ([writes_run_dict]); the invariants of the dictionaries are proved by induction on
    them. *)

From S2P Require Import Prelude.
From S2P Require Import GoText.
From S2P Require Import Apierr.
From S2P Require Import Effects.
From S2P Require Import Logic.
From S2P Require Import Model.
From S2P Require Import Pagination.
From S2P Require Import AuthRepo.
From S2P Require Import AuthService.
From S2P Require Import Money.
From S2P Require Import PostRepo.
From S2P Require Import UserRepo.
From S2P Require Import CommentOps.
From S2P Require Import PostService.
From S2P Require Import PostEdits.
From S2P Require Import DictionaryRepo.
From S2P Require Import DictionaryService.
Import DictionaryRepository DictionaryService.
Open Scope Z_scope.

(** ** One of the four tables *)
Inductive Known : forall T : Type, Dictionary T -> Prop :=
| known_flavors : Known Flavor.t flavor_dictionary
| known_cuisines : Known Cuisine.t cuisine_dictionary
| known_canteens : Known Canteen.t canteen_dictionary
| known_windows : Known CanteenWindow.t window_dictionary.
Existing Class Known.
#[export] Existing Instances known_flavors known_cuisines known_canteens known_windows.

(** ** Steps *)
(** What a review leaves of a suggestion. *)
Definition proposal (s : DS.t) :=
  (DS.ID s, DS.Kind s, DS.ProposedName s, DS.ProposerID s, DS.PostID s, DS.FlavorStance s,
   DS.ParentSuggestionID s, DS.CreatedAt s).

(** The review of a pending suggestion, as one change of its row. *)
Record reviewed_as (s s' : DS.t) : Prop := {
  rv_pending : DS.Status s = SuggestionStatusPending;
  rv_proposal : proposal s' = proposal s;
  rv_closed : DS.Status s' = SuggestionStatusApproved \/ DS.Status s' = SuggestionStatusRejected;
}.

(** The columns of a post that a binding may write. *)
Definition unbound (p : Post.t) : Post.t :=
  p <| Post.CanteenID := None |> <| Post.CanteenWindowID := None |> <| Post.CuisineID := None |>
    <| Post.CurrentRevision := 0 |> <| Post.UpdatedAt := 0 |>.
Definition binds (f : Post.t -> Post.t) : Prop := forall p, unbound (f p) = unbound p.

Definition posts_updated (id : Z) (f : Post.t -> Post.t) (db : DB) : DB :=
  db <| posts := snd (update_where (PostRepository.by_id id) f (posts db)) |>.

Inductive dict_write (db : DB) : DB -> Prop :=
| write_insert (T : Type) (D : Dictionary T) (item : T) :
    Known T D -> d_table db !! d_ID item = None -> row_error T item db = None ->
    dict_write db (put T (d_ID item) item db)
| write_update (T : Type) (D : Dictionary T) id (r : T) fields now :
    let r' := d_touched now (assign_all T fields r) in
    Known T D -> d_table db !! id = Some r -> row_error T r' db = None ->
    dict_write db (put T id r' db)
| write_delete (T : Type) (D : Dictionary T) id :
    Known T D -> is_Some (d_table (T := T) db !! id) -> d_referenced (T := T) id db = false ->
    dict_write db (remove T id db)
| write_suggest id s :
    dictionary_suggestions db !! id = None -> DS.ID s = id ->
    DS.Status s = SuggestionStatusPending -> suggestion_error s db = None ->
    dict_write db (put_suggestion id s db)
| write_review id s s' :
    dictionary_suggestions db !! id = Some s -> reviewed_as s s' ->
    suggestion_error s' db = None ->
    dict_write db (put_suggestion id s' db)
| write_post id f : binds f -> dict_write db (posts_updated id f db)
| write_post_flavor pf t :
    dict_write db (db <| post_flavors := <[pf := t]> (post_flavors db) |>)
| write_version id h :
    post_histories db !! id = None ->
    dict_write db (db <| post_histories := <[id := h]> (post_histories db) |>).

Abbreviation writes := (rtc dict_write).

(** ** The statements *)
Section statements.
Context `{Env}.
Abbreviation KeepsW := (Keeps (B := BeforeOp) (A := AfterOp) writes).

Lemma keeps_writes {R} (f : DB -> goerr + R * DB) :
  (forall db r db', f db = inr (r, db') -> db' = db \/ dict_write db db') -> KeepsW (stmt f).
Proof.
  intros Hf. apply (keeps_stmt _). intros db r db' E.
  destruct (Hf _ _ _ E) as [->|?]; [done | by apply rtc_once].
Qed.

Lemma writes_found_row (m : MT Z) : KeepsW m -> KeepsW (PostRepository.found_row m).
Proof. intros. unfold PostRepository.found_row. solve_keeps. Qed.

Section any.
Context {T : Type} {D : Dictionary T} `{!Known T D}.
Implicit Types (item : T).

Lemma writes_CreateDictionary item : KeepsW (CreateDictionary T item).
Proof.
  unfold CreateDictionary. solve_keeps. apply keeps_writes. intros db r db'.
  unfold insert_item. destruct (row_error _ _ _) eqn:He; [done|].
  destruct (d_table db !! _) eqn:Hn; [done|]. intros [= <- <-]. right. by apply write_insert.
Qed.

Lemma writes_UpdateDictionary id fields : KeepsW (UpdateDictionary T id fields).
Proof.
  unfold UpdateDictionary. apply (keeps_bind _); [solve_keeps|]. intros now.
  apply writes_found_row, keeps_writes. intros db r db'. unfold update_item.
  destruct (d_table db !! id) as [item|] eqn:Hi; [|intros [= _ <-]; by left].
  destruct (row_error _ _ _) eqn:He; [done|]. intros [= _ <-]. right.
  by eapply write_update.
Qed.

Lemma writes_DeleteDictionary id : KeepsW (DeleteDictionary T id).
Proof.
  apply writes_found_row, keeps_writes. intros db r db'. unfold delete_item.
  destruct (d_table db !! id) as [item|] eqn:Hi; [|intros [= _ <-]; by left].
  destruct (d_referenced _ _) eqn:Hr; [done|]. intros [= _ <-]. right.
  apply (write_delete db T D id); [done | by exists item | done].
Qed.

Lemma writes_find_or_create item stored :
  KeepsW stored -> KeepsW (find_or_create T item stored).
Proof.
  intros Hs. unfold find_or_create. solve_keeps. apply keeps_writes. intros db r db'.
  unfold insert_or_nothing. destruct (row_error _ _ _) as [err|] eqn:He.
  - repeat case_match; intros; simplify_eq; by left.
  - destruct (d_table db !! _) eqn:Hn; intros [= _ <-]; [by left|]. right. by apply write_insert.
Qed.

Lemma writes_by_name name : KeepsW (by_name T name).
Proof. unfold by_name. solve_keeps. Qed.
Lemma writes_DictionaryByID id : KeepsW (DictionaryByID T id).
Proof. unfold DictionaryByID. solve_keeps. Qed.
Lemma writes_FindDictionaryCursorPage active params :
  KeepsW (FindDictionaryCursorPage T active params).
Proof. unfold FindDictionaryCursorPage. solve_keeps. Qed.
End any.

Lemma writes_CreateSuggestion s :
  DS.Status s = SuggestionStatusPending -> KeepsW (DictionaryRepository.CreateSuggestion s).
Proof.
  intros Hs. unfold DictionaryRepository.CreateSuggestion. solve_keeps. apply keeps_writes.
  intros db r db'. destruct (suggestion_error _ _) eqn:He; [done|].
  destruct (_ !! _) eqn:Hn; [done|]. intros [= _ <-]. right. by apply write_suggest.
Qed.

Lemma writes_ReviewSuggestion id fields :
  (forall s now, DS.Status s = SuggestionStatusPending ->
     reviewed_as s ((fields s) <| DS.UpdatedAt := now |>)) ->
  KeepsW (ReviewSuggestion id fields).
Proof.
  intros Hf. unfold ReviewSuggestion. apply (keeps_bind _); [solve_keeps|]. intros now.
  apply writes_found_row, keeps_writes. intros db r db'. unfold review_row.
  destruct (_ !! _) as [s|] eqn:Hs; [|intros [= _ <-]; by left].
  destruct (bool_decide _) eqn:Hp; cbn [negb]; [|intros [= _ <-]; by left].
  apply bool_decide_eq_true in Hp. cbv zeta. destruct (suggestion_error _ _) eqn:He; [done|].
  intros [= _ <-]. right. eapply write_review; eauto.
Qed.

Lemma writes_UpdateContent id f : binds f -> KeepsW (PostRepository.UpdateContent id f).
Proof.
  intros Hf. apply writes_found_row. unfold PostRepository.update_posts. apply keeps_writes.
  intros db r db' [= _ <-]. right. by apply (write_post db id f).
Qed.

Lemma writes_UpsertPostFlavor id ty f st : KeepsW (UpsertPostFlavor id ty f st).
Proof.
  unfold UpsertPostFlavor. apply keeps_writes. intros db r db'. repeat case_match; try done.
  intros [= _ <-]. right. apply write_post_flavor.
Qed.

Lemma writes_CreateHistory h : KeepsW (PostRepository.CreateHistory h).
Proof.
  unfold PostRepository.CreateHistory. solve_keeps. apply keeps_writes. intros db r db'.
  case_match; [done|]. destruct (insert_row _ _ _ _) as [|t] eqn:Ei; [done|].
  apply insert_row_inr in Ei as [Hn ->]. intros [= _ <-]. right. by apply write_version.
Qed.
End statements.

#[export] Hint Resolve writes_CreateDictionary writes_UpdateDictionary writes_DeleteDictionary
  writes_by_name writes_DictionaryByID writes_FindDictionaryCursorPage
  writes_UpsertPostFlavor writes_CreateHistory : keeps.

(** ** The operations *)
Inductive DictOp :=
| OpSuggest (input : CreateSuggestionInput) (proposer : Z)
| OpApprove (id reviewer : Z) (input : ApproveSuggestionInput)
| OpReject (id reviewer : Z) (note : string)
| OpCreateFlavor (input : CreateDictionaryItemInput)
| OpUpdateFlavor (id : Z) (input : UpdateDictionaryItemInput)
| OpEnableFlavor (id : Z)
| OpDeleteFlavor (id : Z)
| OpCreateCuisine (input : CreateDictionaryItemInput)
| OpUpdateCuisine (id : Z) (input : UpdateDictionaryItemInput)
| OpEnableCuisine (id : Z)
| OpDeleteCuisine (id : Z)
| OpCreateCanteen (input : CreateCanteenInput)
| OpUpdateCanteen (id : Z) (input : UpdateCanteenInput)
| OpEnableCanteen (id : Z)
| OpDeleteCanteen (id : Z)
| OpCreateWindow (canteen : Z) (input : CreateCanteenWindowInput)
| OpUpdateWindow (id : Z) (input : UpdateCanteenWindowInput)
| OpEnableWindow (id : Z)
| OpDeleteWindow (id : Z).

Section operations.
Context `{Env} `{Pg} `{Unicode} `{DbClock} `{Decimal}.
Definition ignore {R} (m : MT R) : MT unit := let* _ := m in mret tt.

Definition run_dict (op : DictOp) : MT unit :=
  match op with
  | OpSuggest input proposer => ignore (CreateSuggestion input proposer)
  | OpApprove id reviewer input => ignore (Approve id reviewer input)
  | OpReject id reviewer note => ignore (Reject id reviewer note)
  | OpCreateFlavor input => ignore (CreateFlavor input)
  | OpUpdateFlavor id input => ignore (UpdateFlavor id input)
  | OpEnableFlavor id => ignore (EnableFlavor id)
  | OpDeleteFlavor id => ignore (DeleteFlavor id)
  | OpCreateCuisine input => ignore (CreateCuisine input)
  | OpUpdateCuisine id input => ignore (UpdateCuisine id input)
  | OpEnableCuisine id => ignore (EnableCuisine id)
  | OpDeleteCuisine id => ignore (DeleteCuisine id)
  | OpCreateCanteen input => ignore (CreateCanteen input)
  | OpUpdateCanteen id input => ignore (UpdateCanteen id input)
  | OpEnableCanteen id => ignore (EnableCanteen id)
  | OpDeleteCanteen id => ignore (DeleteCanteen id)
  | OpCreateWindow canteen input => ignore (CreateWindow canteen input)
  | OpUpdateWindow id input => ignore (UpdateWindow id input)
  | OpEnableWindow id => ignore (EnableWindow id)
  | OpDeleteWindow id => ignore (DeleteWindow id)
  end.

(** What only throws. *)
Lemma neutral_suggestionRepositoryError {R} e : Neutral (suggestionRepositoryError (A := R) e).
Proof. unfold suggestionRepositoryError. solve_neutral. Qed.
Lemma neutral_already_exists {R} : Neutral (already_exists (A := R)).
Proof. unfold already_exists. solve_neutral. Qed.
#[local] Hint Resolve neutral_already_exists : neutral.
Lemma neutral_dictionaryWriteError {R} e : Neutral (dictionaryWriteError (A := R) e).
Proof. unfold dictionaryWriteError. solve_neutral. Qed.
#[local] Hint Resolve neutral_dictionaryWriteError : neutral.
Lemma neutral_suggestionReviewError {R} e : Neutral (suggestionReviewError (A := R) e).
Proof. unfold suggestionReviewError. solve_neutral. Qed.
Lemma neutral_dictionaryMutationError {R} r e : Neutral (dictionaryMutationError (A := R) r e).
Proof. unfold dictionaryMutationError. solve_neutral. Qed.
Lemma neutral_dictionaryDeleteError {R} r e : Neutral (dictionaryDeleteError (A := R) r e).
Proof. unfold dictionaryDeleteError. solve_neutral. Qed.
Lemma neutral_historyWriteError {R} e : Neutral (historyWriteError (A := R) e).
Proof. unfold historyWriteError. solve_neutral. Qed.
Lemma neutral_closed {R} : Neutral (closed (A := R)).
Proof. unfold closed. solve_neutral. Qed.
End operations.

#[export] Hint Resolve neutral_suggestionRepositoryError neutral_already_exists
  neutral_dictionaryWriteError neutral_suggestionReviewError neutral_dictionaryMutationError
  neutral_dictionaryDeleteError neutral_dictionaryError neutral_postRepositoryError
  neutral_historyWriteError neutral_closed : neutral.

(** Reading the request, the suggestion, its parent and its post. *)
Section reads.
Context `{Env} `{Pg} `{Unicode} `{DbClock} `{Decimal}.

Lemma neutral_normalizeSuggestion input proposer : Neutral (normalizeSuggestion input proposer).
Proof.
  unfold normalizeSuggestion, validateSuggestionPost, resolveSubmittedCanteen,
    applySubmittedParentSuggestion, applyApprovedSubmittedParent, FindSuggestionByID,
    PostRepository.FindActiveCanteenByCode, PostRepository.FindByID.
  solve_neutral.
Qed.
Lemma neutral_resolveApprovalParent s : Neutral (resolveApprovalParent s).
Proof.
  unfold resolveApprovalParent, resolveApprovedParentSuggestion, LockSuggestionByID,
    DictionaryByID.
  solve_neutral.
Qed.
Lemma neutral_lockSourcePost s : Neutral (lockSourcePost s).
Proof. unfold lockSourcePost, PostRepository.LockByID. solve_neutral. Qed.
Lemma neutral_suggestionRecord s : Neutral (suggestionRecord s).
Proof. unfold suggestionRecord, FindSuggestionRecordByID. solve_neutral. Qed.
Lemma neutral_LockSuggestionByID id : Neutral (LockSuggestionByID id).
Proof. unfold LockSuggestionByID. solve_neutral. Qed.
Lemma neutral_DictionaryByID T `{Dictionary T} id : Neutral (DictionaryByID T id).
Proof. unfold DictionaryByID. solve_neutral. Qed.
Lemma neutral_LoadSnapshotRelations id : Neutral (PostRepository.LoadSnapshotRelations id).
Proof. unfold PostRepository.LoadSnapshotRelations. solve_neutral. Qed.
Lemma neutral_NextHistoryRevision id : Neutral (PostRepository.NextHistoryRevision id).
Proof.
  intros tx r tx' E. unfold PostRepository.NextHistoryRevision, stmt in E.
  repeat case_match; simplify_eq/=; done.
Qed.
Lemma neutral_FindUserByID id : Neutral (UserDomain.FindByID id).
Proof. unfold UserDomain.FindByID. solve_neutral. Qed.
End reads.

#[export] Hint Resolve neutral_First neutral_normalizeSuggestion neutral_resolveApprovalParent
  neutral_lockSourcePost neutral_suggestionRecord neutral_LockSuggestionByID
  neutral_DictionaryByID neutral_LoadSnapshotRelations neutral_NextHistoryRevision
  neutral_FindUserByID : neutral.

(** Every operation is a sequence of steps. *)
Section steps.
Context `{Env} `{Pg} `{Unicode} `{DbClock} `{Decimal}.
Abbreviation KeepsW := (Keeps (B := BeforeOp) (A := AfterOp) writes).

Lemma writes_find_or_create_entry :
  (forall name sort, KeepsW (FindOrCreateFlavor name sort)) /\
  (forall name sort, KeepsW (FindOrCreateCuisine name sort)) /\
  (forall name code campus sort, KeepsW (FindOrCreateCanteen name code campus sort)) /\
  (forall canteen name floor sort, KeepsW (FindOrCreateWindow canteen name floor sort)).
Proof.
  split_and!; intros; apply (writes_find_or_create _ _); try apply (writes_by_name _).
  all: solve_keeps.
Qed.

Lemma writes_approveDictionaryItem s parent input : KeepsW (approveDictionaryItem s parent input).
Proof.
  destruct writes_find_or_create_entry as (? & ? & ? & ?).
  assert (forall name input, KeepsW (approve_canteen name input)).
  { intros. unfold approve_canteen, activeCanteenResult, active_result, FindCanteenByName.
    solve_keeps. }
  assert (forall T `{Dictionary T} resource field name fits id,
    KeepsW (existing_result (T := T) resource field name fits id)).
  { intros. unfold existing_result. solve_keeps. }
  unfold approveDictionaryItem, approveExistingItem, activeFlavorResult, activeCuisineResult,
    activeWindowResult, active_result.
  solve_keeps.
Qed.

Lemma binds_columns kind result parent revision now :
  binds (fun p => (bind_columns kind result parent p)
    <| Post.CurrentRevision := revision |> <| Post.UpdatedAt := now |>).
Proof. intros p. unfold bind_columns. by repeat case_match. Qed.

Lemma writes_bindSuggestionToPost s post result parent reviewer now :
  KeepsW (bindSuggestionToPost s post result parent reviewer now).
Proof.
  pose proof (fun id kind result parent revision now =>
    writes_UpdateContent id _ (binds_columns kind result parent revision now)).
  unfold bindSuggestionToPost, bind_flavor. solve_keeps.
Qed.

Lemma approved_review kind parent reviewer now note field result s t :
  DS.Status s = SuggestionStatusPending ->
  reviewed_as s ((approved_fields kind parent reviewer now note field result s)
    <| DS.UpdatedAt := t |>).
Proof.
  intros Hs. unfold approved_fields, setSuggestionResult.
  repeat case_bool_decide; split; try done; by left.
Qed.

Lemma rejected_review reviewer now note s t :
  DS.Status s = SuggestionStatusPending ->
  reviewed_as s ((rejected_fields reviewer now note s) <| DS.UpdatedAt := t |>).
Proof. intros Hs. split; try done. by right. Qed.

Lemma writes_reviews :
  (forall id reviewer input, KeepsW (Approve id reviewer input)) /\
  (forall id reviewer note, KeepsW (Reject id reviewer note)).
Proof.
  pose proof writes_approveDictionaryItem. pose proof writes_bindSuggestionToPost.
  pose proof (fun id kind parent reviewer now note field result => writes_ReviewSuggestion id
    (approved_fields kind parent reviewer now note field result)
    (approved_review kind parent reviewer now note field result)).
  pose proof (fun id reviewer now note => writes_ReviewSuggestion id
    (rejected_fields reviewer now note) (rejected_review reviewer now note)).
  unfold Approve, Reject. split; solve_keeps.
Qed.

Lemma writes_entries {T V} (D : Dictionary T) `{!Known T D} resource (view : T -> V) :
  (forall item, KeepsW (create_item resource view item)) /\
  (forall id fields, KeepsW (update_item_fields resource view id fields)) /\
  (forall id, KeepsW (delete_entry T resource id)).
Proof.
  unfold create_item, update_item_fields, delete_entry. split_and!; solve_keeps.
Qed.

(** Every operation, whether it succeeds or fails, is a sequence of steps. *)
Lemma writes_run_dict op : KeepsW (run_dict op).
Proof.
  destruct writes_reviews. pose proof (fun s => writes_CreateSuggestion s).
  pose proof (writes_entries flavor_dictionary "口味" flavor_view) as (? & ? & ?).
  pose proof (writes_entries cuisine_dictionary "菜系" cuisine_view) as (? & ? & ?).
  pose proof (writes_entries canteen_dictionary "餐厅" dictionaryCanteenView) as (? & ? & ?).
  pose proof (writes_entries window_dictionary "窗口" dictionaryWindowView) as (? & ? & ?).
  destruct op; cbn [run_dict]; unfold ignore, CreateSuggestion, CreateFlavor, EnableFlavor,
    UpdateFlavor, DeleteFlavor, CreateCuisine, EnableCuisine, UpdateCuisine, DeleteCuisine,
    CreateCanteen, EnableCanteen, UpdateCanteen, DeleteCanteen, CreateWindow, EnableWindow,
    UpdateWindow, DeleteWindow; solve_keeps.
Qed.
End steps.
