(* ===== verification/DictionaryProps.v ===== *)
(** * The dictionaries stay consistent

    [dict_ok]: every row satisfies the constraints of its table, and every suggestion the
    CHECKs and foreign keys of its own.  Steps of the service, and anything that leaves
    the dictionaries alone, keep it; a suggestion moves as the state machine [move]
    says. *)

From S2P Require Import Prelude.
From S2P Require Import GoText.
From S2P Require Import Apierr.
From S2P Require Import Effects.
From S2P Require Import Logic.
From S2P Require Import Model.
From S2P Require Import AuthRepo.
From S2P Require Import PostRepo.
From S2P Require Import PostService.
From S2P Require Import DictionaryRepo.
From S2P Require Import DictionaryService.
From S2P Require Import DictionaryWrites.
Import DictionaryRepository DictionaryService.
Open Scope Z_scope.

(** ** One table *)
Section table.
Context {T : Type} {D : Dictionary T} `{!DictionaryLaws T}.
Implicit Types (db : DB) (r item : T).

(** Nothing else of the table is in conflict with the row. *)
Record row_ok (item : T) (db : DB) : Prop := {
  ro_valid : d_valid item = None;
  ro_unique : forall k r, d_table db !! k = Some r -> d_ID r <> d_ID item ->
    d_clash item r = false;
  ro_parent : d_parent item db = true;
}.

Lemma row_error_None item db : row_error T item db = None <-> row_ok item db.
Proof.
  unfold row_error. destruct (d_valid item) eqn:Hv; [split; [done|intros []; congruence]|].
  destruct (exists_row _ _) eqn:He.
  - split; [done|]. intros [_ Hu _]. apply exists_row_true in He as (k & r & Hk & Hp).
    apply andb_true_iff in Hp as [Hn Hc]. apply negb_true_iff, Z.eqb_neq in Hn.
    rewrite (Hu _ _ Hk Hn) in Hc. done.
  - rewrite exists_row_false in He. destruct (d_parent item db) eqn:Hp; cbn.
    + split; [|done]. intros _. split; [done| |done]. intros k r Hk Hn.
      specialize (He _ _ Hk). apply andb_false_iff in He as [He|He]; [|done].
      apply negb_false_iff, Z.eqb_eq in He. done.
    + split; [done|]. intros []. congruence.
Qed.

(** Every row of the table satisfies its constraints. *)
Definition table_ok db : Prop :=
  forall k r, d_table db !! k = Some r -> d_ID r = k /\ row_ok r db.

Lemma table_ok_put id item db :
  table_ok db -> d_ID item = id -> row_ok item db -> table_ok (put T id item db).
Proof.
  intros Ht Hid [Hv Hu Hp] k r. unfold put. rewrite dl_store. intros Hk.
  assert (d_ID r = k /\ d_valid r = None /\ d_parent r db = true) as (Hrk & Hrv & Hrp).
  { apply lookup_insert_Some in Hk as [[<- <-]|[_ Hk]]; [done|].
    by destruct (Ht _ _ Hk) as [? []]. }
  split; [done|]. split; [done| |by rewrite dl_parent].
  rewrite dl_store. intros k' r' Hk' Hn.
  apply lookup_insert_Some in Hk' as [[<- <-]|[Hne' Hk']];
    apply lookup_insert_Some in Hk as [[<- <-]|[Hne Hk]]; [done| | |].
  - rewrite dl_clash. eapply Hu; [done|congruence].
  - by eapply Hu.
  - destruct (Ht _ _ Hk) as [_ [_ Hu' _]]. by eapply Hu'.
Qed.

(** Fewer rows, other tables that still hold the parents. *)
Lemma table_ok_sub db db' :
  table_ok db -> (forall k r, d_table db' !! k = Some r -> d_table db !! k = Some r) ->
  (forall k r, d_table db' !! k = Some r -> d_parent r db = true -> d_parent r db' = true) ->
  table_ok db'.
Proof.
  intros Ht Hs Hp k r Hk. destruct (Ht _ _ (Hs _ _ Hk)) as [Hid [Hv Hu Hpar]].
  split; [done|]. split; [done| |by eapply Hp]. intros k' r' Hk'. by eapply Hu, Hs.
Qed.
End table.
Arguments table_ok T {_} _.

(** ** All tables *)
Record dict_ok (db : DB) : Prop := {
  do_flavors : table_ok Flavor.t db;
  do_cuisines : table_ok Cuisine.t db;
  do_canteens : table_ok Canteen.t db;
  do_windows : table_ok CanteenWindow.t db;
  do_suggestions : forall k s, dictionary_suggestions db !! k = Some s ->
    DS.ID s = k /\ suggestion_error s db = None;
}.

(** What the suggestions refer to is still there. *)
Record extends (db db' : DB) : Prop := {
  ex_users : forall k, is_Some (users db !! k) -> is_Some (users db' !! k);
  ex_posts : forall k, is_Some (posts db !! k) -> is_Some (posts db' !! k);
  ex_flavors : forall k, is_Some (flavors db !! k) -> is_Some (flavors db' !! k);
  ex_cuisines : forall k, is_Some (cuisines db !! k) -> is_Some (cuisines db' !! k);
  ex_canteens : forall k, is_Some (canteens db !! k) -> is_Some (canteens db' !! k);
  ex_windows : forall k w, canteen_windows db !! k = Some w ->
    exists w', canteen_windows db' !! k = Some w' /\
      CanteenWindow.CanteenID w' = CanteenWindow.CanteenID w;
  ex_suggestions : forall k s, dictionary_suggestions db !! k = Some s ->
    exists s', dictionary_suggestions db' !! k = Some s' /\ DS.Kind s' = DS.Kind s /\
      (DS.ResultingCanteenID s = None \/ DS.ResultingCanteenID s' = DS.ResultingCanteenID s);
}.

Lemma refers_exists {A} o (t : gmap Z A) :
  refers o t exists_ = true <-> (forall id, o = Some id -> is_Some (t !! id)).
Proof.
  unfold refers. destruct o as [id|]; [|naive_solver].
  destruct (t !! id) eqn:E; cbn; split; try done.
  - intros _ i [= <-]. by rewrite E.
  - intros Hi. destruct (Hi id eq_refl) as [? ?]. congruence.
Qed.

Lemma refers_some {A} o (t : gmap Z A) p :
  refers o t p = true <-> (forall id, o = Some id -> exists r, t !! id = Some r /\ p r = true).
Proof.
  unfold refers. destruct o as [id|]; [|naive_solver].
  destruct (t !! id) as [r|] eqn:E; split; try done.
  - intros Hp i [= <-]. eauto.
  - intros Hi. destruct (Hi id eq_refl) as (? & ? & ?). congruence.
  - intros Hi. destruct (Hi id eq_refl) as (? & ? & ?). congruence.
Qed.

(** The foreign keys of a suggestion, one by one. *)
Record keys_ok (s : DS.t) (db : DB) : Prop := {
  ko_proposer : is_Some (users db !! DS.ProposerID s);
  ko_post : forall id, DS.PostID s = Some id -> is_Some (posts db !! id);
  ko_reviewer : forall id, DS.ReviewerID s = Some id -> is_Some (users db !! id);
  ko_canteen : forall id, DS.ParentCanteenID s = Some id -> is_Some (canteens db !! id);
  ko_parent : forall id, DS.ParentSuggestionID s = Some id ->
    exists p, dictionary_suggestions db !! id = Some p /\ DS.Kind p = SuggestionKindCanteen /\
      (DS.ParentCanteenID s <> None -> DS.ResultingCanteenID p = DS.ParentCanteenID s);
  ko_flavor : forall id, DS.ResultingFlavorID s = Some id -> is_Some (flavors db !! id);
  ko_cuisine : forall id, DS.ResultingCuisineID s = Some id -> is_Some (cuisines db !! id);
  ko_result : forall id, DS.ResultingCanteenID s = Some id -> is_Some (canteens db !! id);
  ko_window : forall id c, DS.ResultingWindowID s = Some id -> DS.ParentCanteenID s = Some c ->
    exists w, canteen_windows db !! id = Some w /\ CanteenWindow.CanteenID w = c;
}.

Lemma foreign_keys_spec s db : foreign_keys s db = true <-> keys_ok s db.
Proof.
  unfold foreign_keys. rewrite !andb_true_iff, orb_true_iff, !refers_exists, !refers_some.
  split.
  - intros ((((((((H1 & H2) & H3) & H4) & H5) & H6) & H7) & H8) & H9).
    split; try done; [by apply H1| |].
    + intros id Hid. destruct (H5 _ Hid) as (p & Hp & Hb). exists p.
      apply andb_true_iff in Hb as [Hk%bool_decide_eq_true Hb]. split_and!; [done..|].
      intros Hn. apply orb_true_iff in Hb as [Hb|Hb%bool_decide_eq_true]; [|done].
      by destruct (DS.ParentCanteenID s).
    + intros id c Hw Hc. destruct H9 as [H9|H9]; [by rewrite Hc in H9|].
      destruct (H9 _ Hw) as (w & Hl & Hb%bool_decide_eq_true). exists w. naive_solver.
  - intros []. split_and!; try done; [by intros id [= <-]| |].
    + intros id Hid. destruct (ko_parent0 _ Hid) as (p & Hp & Hk & Hr). exists p.
      split; [done|]. rewrite andb_true_iff, orb_true_iff, !bool_decide_eq_true. split; [done|].
      destruct (DS.ParentCanteenID s); [right; by apply Hr | by left].
    + destruct (DS.ParentCanteenID s) as [c|]; [right|by left]. intros id Hw.
      destruct (ko_window0 _ _ Hw eq_refl) as (w & Hl & <-). exists w.
      by rewrite bool_decide_eq_true.
Qed.

Lemma suggestion_error_None s db :
  suggestion_error s db = None <->
  varchar 100 (DS.ProposedName s) = true /\ checks s = true /\ keys_ok s db.
Proof.
  rewrite <- foreign_keys_spec. unfold suggestion_error.
  destruct (varchar _ _), (checks s), (foreign_keys s db); naive_solver.
Qed.

Lemma keys_ok_extends s db db' : extends db db' -> keys_ok s db -> keys_ok s db'.
Proof.
  intros [] []. split; eauto.
  - intros id Hid. destruct (ko_parent0 _ Hid) as (p & Hp & Hk & Hr).
    destruct (ex_suggestions0 _ _ Hp) as (p' & Hp' & Hk' & Hr'). exists p'.
    split_and!; [done|congruence|]. intros Hn. specialize (Hr Hn).
    destruct Hr' as [Hr'|Hr']; congruence.
  - intros id c Hw Hc. destruct (ko_window0 _ _ Hw Hc) as (w & Hl & <-).
    destruct (ex_windows0 _ _ Hl) as (w' & ? & ?). eauto.
Qed.

Lemma extends_refl db : extends db db.
Proof. split; eauto. Qed.

Lemma suggestions_extend db db' :
  extends db db' -> dictionary_suggestions db' = dictionary_suggestions db ->
  (forall k s, dictionary_suggestions db !! k = Some s ->
    DS.ID s = k /\ suggestion_error s db = None) ->
  forall k s, dictionary_suggestions db' !! k = Some s ->
    DS.ID s = k /\ suggestion_error s db' = None.
Proof.
  intros He Hd Hs k s. rewrite Hd. intros [Hid Hse]%Hs. split; [done|].
  apply suggestion_error_None in Hse as (? & ? & ?). apply suggestion_error_None.
  split_and!; [done..|]. by eapply keys_ok_extends.
Qed.

(** ** A row is written *)
Ltac other_table Ht :=
  apply (table_ok_sub _ _ Ht); [done | intros ? ? _; try done].

Lemma put_extends {T} (D : Dictionary T) (K : Known T D) id (item : T) db :
  (forall r, d_table db !! id = Some r -> d_fixed r = d_fixed item) ->
  extends db (put T id item db).
Proof.
  intros Hw. destruct K; split; cbn; try done;
    try (by intros k Hk; apply lookup_insert_is_Some'; right);
    try (by intros k w ?; exists w); try (by intros k s ?; eauto 6).
  intros k w Hk. destruct (decide (k = id)) as [->|Hn].
  - exists item. rewrite lookup_insert_eq. split; [done|].
    specialize (Hw _ Hk). cbn in Hw. congruence.
  - exists w. by rewrite lookup_insert_ne.
Qed.

Lemma dict_ok_put {T} (D : Dictionary T) (K : Known T D) id (item : T) db :
  d_ID item = id -> row_error T item db = None ->
  (forall r, d_table db !! id = Some r -> d_fixed r = d_fixed item) ->
  dict_ok db -> dict_ok (put T id item db).
Proof.
  intros Hid Hr He%(put_extends D K id item db) [Hf Hcu Hca Hw Hs].
  assert (table_ok T (put T id item db)) as Ht.
  { destruct K; apply row_error_None in Hr; by apply table_ok_put. }
  destruct K; split; try exact Ht;
    try solve [other_table Hf]; try solve [other_table Hcu]; try solve [other_table Hca];
    try solve [other_table Hw]; try by apply (suggestions_extend db).
  other_table Hw. cbn. rewrite !bool_decide_eq_true.
  intros Hc. apply lookup_insert_is_Some'. by right.
Qed.

Section fixed.
Context {T : Type} {D : Dictionary T} `{!DictionaryLaws T}.
Lemma assign_all_fixed fields (r : T) :
  d_ID (assign_all T fields r) = d_ID r /\ d_fixed (assign_all T fields r) = d_fixed r.
Proof.
  unfold assign_all. revert r. induction fields as [|c l IH]; intros r; cbn; [done|].
  destruct (IH (d_assign c r)) as [-> ->]. by rewrite dl_assign, dl_fixed.
Qed.
Lemma update_fixed fields now (r : T) :
  d_ID (d_touched now (assign_all T fields r)) = d_ID r /\
  d_fixed (d_touched now (assign_all T fields r)) = d_fixed r.
Proof. rewrite dl_touched, dl_fixed_touched. apply assign_all_fixed. Qed.
End fixed.

(** ** A row is deleted *)
Lemma not_resulted proj id db k s :
  resulted proj id db = false -> dictionary_suggestions db !! k = Some s -> proj s <> Some id.
Proof.
  unfold resulted. rewrite exists_row_false. intros Hn Hk. apply Hn in Hk.
  by apply bool_decide_eq_false in Hk.
Qed.

Lemma lookup_kept {A} (t : gmap Z A) id o :
  o <> Some id -> (forall i, o = Some i -> is_Some (t !! i)) ->
  forall i, o = Some i -> is_Some (delete id t !! i).
Proof. intros Hn Hi i Ho. rewrite lookup_delete_ne by congruence. by apply Hi. Qed.

Lemma keys_ok_remove {T} (D : Dictionary T) (K : Known T D) id db k s :
  d_referenced (T := T) id db = false -> dictionary_suggestions db !! k = Some s ->
  keys_ok s db -> keys_ok s (remove T id db).
Proof.
  intros Hr Hk []. destruct K; cbn in Hr; unfold window_referenced in Hr; repeat rewrite orb_false_iff in Hr;
    destruct_and?; split; try done; cbn.
  - apply lookup_kept; [|done]. by eapply not_resulted.
  - apply lookup_kept; [|done]. by eapply not_resulted.
  - apply lookup_kept; [|done]. by eapply not_resulted.
  - apply lookup_kept; [|done]. by eapply not_resulted.
  - intros w c Hw Hc. destruct (ko_window0 _ _ Hw Hc) as (r & Hl & Hrc). exists r.
    split; [|done]. apply map_lookup_filter_Some. split; [done|]. cbn. apply Z.eqb_neq.
    rewrite Hrc. intros ->. revert Hc. by eapply not_resulted.
  - intros w c Hw Hc. destruct (ko_window0 _ _ Hw Hc) as (r & Hl & Hrc). exists r.
    split; [|done]. rewrite lookup_delete_ne; [done|]. intros ->. revert Hw.
    by eapply not_resulted.
Qed.

Lemma dict_ok_remove {T} (D : Dictionary T) (K : Known T D) id db :
  d_referenced (T := T) id db = false -> dict_ok db -> dict_ok (remove T id db).
Proof.
  intros Hr [Hf Hcu Hca Hw Hs].
  assert (forall k s, dictionary_suggestions (remove T id db) !! k = Some s ->
    DS.ID s = k /\ suggestion_error s (remove T id db) = None) as Hs'.
  { assert (dictionary_suggestions (remove T id db) = dictionary_suggestions db) as Hd
      by (by destruct K).
    intros k s. rewrite Hd. intros Hk. destruct (Hs _ _ Hk) as [Hid He]. split; [done|].
    apply suggestion_error_None in He as (? & ? & ?). apply suggestion_error_None.
    split_and!; [done..|]. by eapply keys_ok_remove. }
  destruct K; (split; [..|exact Hs']);
    try solve [other_table Hf]; try solve [other_table Hcu]; try solve [other_table Hca];
    try solve [other_table Hw].
  - apply (table_ok_sub _ _ Hf); [|done]. intros k r. cbn. by intros [_ ?]%lookup_delete_Some.
  - apply (table_ok_sub _ _ Hcu); [|done]. intros k r. cbn. by intros [_ ?]%lookup_delete_Some.
  - apply (table_ok_sub _ _ Hca); [|done]. intros k r. cbn. by intros [_ ?]%lookup_delete_Some.
  - apply (table_ok_sub _ _ Hw); cbn; intros k r Hk; apply map_lookup_filter_Some in Hk as [Hk Hn];
      [done|]. cbn in Hn. apply Z.eqb_neq in Hn.
    rewrite !bool_decide_eq_true. by rewrite lookup_delete_ne.
  - apply (table_ok_sub _ _ Hw); cbn; [|done]. intros k r. by intros [_ ?]%lookup_delete_Some.
Qed.

(** ** Suggestions and posts are written *)
Lemma checks_pending s :
  checks s = true -> DS.Status s <> SuggestionStatusApproved -> DS.ResultingCanteenID s = None.
Proof.
  unfold checks. rewrite !andb_true_iff. intros [_ Hr] Hs. unfold resulting_check in Hr.
  rewrite bool_decide_eq_false_2 in Hr by done. cbn in Hr.
  rewrite !andb_true_iff in Hr. destruct Hr as (_ & _ & Hc & _).
  by destruct (DS.ResultingCanteenID s).
Qed.

Lemma put_suggestion_extends id s db :
  (forall s0, dictionary_suggestions db !! id = Some s0 ->
     DS.Kind s = DS.Kind s0 /\ DS.ResultingCanteenID s0 = None) ->
  extends db (put_suggestion id s db).
Proof.
  intros Hk. split; cbn; eauto. intros k s0 Hs0. destruct (decide (k = id)) as [->|Hn].
  - exists s. rewrite lookup_insert_eq. naive_solver.
  - exists s0. rewrite lookup_insert_ne by done. eauto.
Qed.

Lemma dict_ok_extends db db' :
  extends db db' -> flavors db' = flavors db -> cuisines db' = cuisines db ->
  canteens db' = canteens db -> canteen_windows db' = canteen_windows db ->
  (forall k s, dictionary_suggestions db' !! k = Some s ->
     dictionary_suggestions db !! k = Some s \/ DS.ID s = k /\ suggestion_error s db = None) ->
  dict_ok db -> dict_ok db'.
Proof.
  intros He Ef Ecu Eca Ew Hnew [Hf Hcu Hca Hw Hs].
  assert (forall T (D : Dictionary T), Known T D -> table_ok T db -> table_ok T db') as Ht.
  { intros T D K Ht.
    apply (table_ok_sub _ _ Ht); intros k r; destruct K; cbn; rewrite ?Ef, ?Ecu, ?Eca, ?Ew; done. }
  split; [by apply (Ht _ _ _)..|].
  intros k s Hk. assert (DS.ID s = k /\ suggestion_error s db = None) as [Hid Hse].
  { destruct (Hnew _ _ Hk) as [?%Hs|?]; done. }
  split; [done|]. apply suggestion_error_None in Hse as (? & ? & ?). apply suggestion_error_None.
  split_and!; [done..|]. by eapply keys_ok_extends.
Qed.

Lemma dict_ok_suggestion id s db :
  DS.ID s = id -> suggestion_error s db = None ->
  (forall s0, dictionary_suggestions db !! id = Some s0 ->
     DS.Kind s = DS.Kind s0 /\ DS.Status s0 = SuggestionStatusPending) ->
  dict_ok db -> dict_ok (put_suggestion id s db).
Proof.
  intros Hid He Hk Ho. apply (dict_ok_extends db); try done.
  - apply put_suggestion_extends. intros s0 Hs0. destruct (Hk _ Hs0) as [HK Hp]. split; [done|].
    destruct (do_suggestions _ Ho _ _ Hs0) as [_ Hc].
    apply suggestion_error_None in Hc as (_ & Hc & _). apply checks_pending; [done|].
    by rewrite Hp.
  - intros k s0 Hs0. cbn in Hs0. apply lookup_insert_Some in Hs0 as [[<- <-]|[_ ?]]; [by right|by left].
Qed.

(** Every step keeps the constraints. *)
Lemma dict_write_ok db db' : dict_write db db' -> dict_ok db -> dict_ok db'.
Proof.
  intros [T D item K Hn He | T D id r fields now r' K Hr He | T D id K _ Hr
    | id s Hn Hid Hp He | id s s' Hs Hr He | id f Hf | pf t | id h Hn] Ho.
  - apply dict_ok_put; try done. intros r Hr. congruence.
  - assert (DictionaryLaws T) by (destruct K; apply _).
    destruct (update_fixed fields now r) as [Hi Hx]. apply dict_ok_put; try done.
    + subst r'. rewrite Hi. destruct Ho, K; by eapply do_flavors0 || eapply do_cuisines0 ||
        eapply do_canteens0 || eapply do_windows0.
    + intros r0 Hr0. assert (r0 = r) as -> by congruence. by subst r'.
  - by apply dict_ok_remove.
  - apply dict_ok_suggestion; try done. intros s0 Hs0. congruence.
  - destruct Hr as [Hp Hpr _]. pose proof Hpr as Hpr'. unfold proposal in Hpr'. simplify_eq.
    destruct (do_suggestions _ Ho _ _ Hs) as [Hid _].
    apply dict_ok_suggestion; try done; [congruence|]. intros s0 Hs0.
    assert (s0 = s) as -> by congruence. done.
  - apply (dict_ok_extends db); try done; [|by left]. split; cbn; eauto.
    intros k. rewrite lookup_fmap, fmap_is_Some. done.
  - apply (dict_ok_extends db); try done; [|by left]. split; cbn; eauto.
  - apply (dict_ok_extends db); try done; [|by left]. split; cbn; eauto.
Qed.

(** ** The life of a suggestion *)
Inductive move : option DS.t -> option DS.t -> Prop :=
| suggested s : DS.Status s = SuggestionStatusPending -> move None (Some s)
| decided s s' : reviewed_as s s' -> move (Some s) (Some s').

Lemma dict_write_moves db db' k :
  dict_write db db' ->
  rtc move (dictionary_suggestions db !! k) (dictionary_suggestions db' !! k).
Proof.
  intros [T D item K _ _ | T D id r fields now r' K _ _ | T D id K _ _
    | id s Hn Hid Hp He | id s s' Hs Hr He | id f Hf | pf t | id h Hn]; try done.
  1-3: by destruct K.
  - cbn. destruct (decide (k = id)) as [->|Hne]; [|by rewrite lookup_insert_ne].
    rewrite Hn, lookup_insert_eq. apply rtc_once. by constructor.
  - cbn. destruct (decide (k = id)) as [->|Hne]; [|by rewrite lookup_insert_ne].
    rewrite Hs, lookup_insert_eq. apply rtc_once. by constructor.
Qed.

(** A decided suggestion moves no further. *)
Lemma move_final o o' s :
  rtc move o o' -> o = Some s -> DS.Status s <> SuggestionStatusPending -> o' = Some s.
Proof.
  intros Hm. revert s. induction Hm as [|o o1 o' Hs _ IH]; intros s -> Hd; [done|].
  inversion Hs as [|? s' Hr]; subst. by destruct Hr.
Qed.

(** What was proposed never changes. *)
Lemma move_proposal o o' s :
  rtc move o o' -> o = Some s ->
  exists s', o' = Some s' /\ proposal s' = proposal s /\
    (s' = s \/ reviewed_as s s').
Proof.
  intros Hm. destruct Hm as [|o o1 o' Hs Hm]; intros ->; [by exists s; eauto|].
  inversion Hs as [|? s' Hr]; subst.
  assert (o' = Some s') as ->.
  { eapply move_final; [done..|]. destruct Hr as [_ _ [->| ->]]; done. }
  exists s'. split; [done|]. destruct Hr as [? Hp ?]. split; [done|]. by right.
Qed.
