(* ===== verification/DictionarySystem.v ===== *)
(** * The dictionaries in the whole system

    Units of work of the dictionary service interleaved with everything else
    ([whole_step]): the constraints of the dictionaries hold in every state
    ([dictionary_integrity]), and a suggestion is decided at most once
    ([suggestion_decided_once]). *)

From S2P Require Import Prelude.
From S2P Require Import GoText.
From S2P Require Import Apierr.
From S2P Require Import Effects.
From S2P Require Import Logic.
From S2P Require Import Model.
From S2P Require Import Validation.
From S2P Require Import Digest.
From S2P Require Import AuthRepo.
From S2P Require Import AuthService.
From S2P Require Import AuthHandler.
From S2P Require Import AuthCodes.
From S2P Require Import Money.
From S2P Require Import PostRepo.
From S2P Require Import UserRepo.
From S2P Require Import PostService.
From S2P Require Import PostTables.
From S2P Require Import CommentOps.
From S2P Require Import PostGate.
From S2P Require Import Bystanders.
From S2P Require Import DictionaryRepo.
From S2P Require Import DictionaryService.
From S2P Require Import DictionaryWrites.
From S2P Require Import DictionaryProps.
Import DictionaryRepository DictionaryService.
Open Scope Z_scope.

(** ** What everybody keeps *)
Record dict_kept (db db' : DB) : Prop := {
  dk_ok : dict_ok db -> dict_ok db';
  dk_moves : forall k,
    rtc move (dictionary_suggestions db !! k) (dictionary_suggestions db' !! k);
}.

#[export] Instance dict_kept_preorder : PreOrder dict_kept.
Proof.
  split; [intros db; split; [done|intros k; done]|].
  intros db1 db2 db3 [O1 M1] [O2 M2]. split; [by auto|]. intros k. etrans; [apply M1|apply M2].
Qed.

Lemma dict_write_kept db db' : dict_write db db' -> dict_kept db db'.
Proof. intros W. split; [by apply dict_write_ok | intros k; by apply dict_write_moves]. Qed.

Lemma writes_kept db db' : writes db db' -> dict_kept db db'.
Proof. induction 1; [done|]. etrans; [by apply dict_write_kept|done]. Qed.

(** The dictionaries are left alone; accounts and posts may come, none goes. *)
Lemma kept_beside db db' :
  dictionaries db' = dictionaries db ->
  (forall k, is_Some (users db !! k) -> is_Some (users db' !! k)) ->
  (forall k, is_Some (posts db !! k) -> is_Some (posts db' !! k)) ->
  dict_kept db db'.
Proof.
  unfold dictionaries. intros [= Ef Ecu Eca Ew Es] Hu Hp. split; [|by rewrite Es].
  apply dict_ok_extends; try done; [|intros k s; rewrite Es; by left].
  split; rewrite ?Ef, ?Ecu, ?Eca, ?Ew, ?Es; eauto.
Qed.

Section bystander.
Context `{Env} `{Pg} `{DbClock}.

Lemma lookup_same {A B} (f : A -> B) (t t' : gmap Z A) k :
  f <$> t' = f <$> t -> is_Some (t !! k) -> is_Some (t' !! k).
Proof. intros E. rewrite <- !(fmap_is_Some f), <- !lookup_fmap. by rewrite E. Qed.

Lemma kept_quiet db db' : surroundings db' = surroundings db -> dict_kept db db'.
Proof.
  unfold surroundings, people, post_ids. intros E.
  apply kept_beside; [congruence|intros k..].
  - apply (lookup_same (fun u => (User.ID u, User.Username u))). unfold bearers in E. congruence.
  - apply (lookup_same (fun _ => tt)). congruence.
Qed.

Lemma kept_insert {A} k (x : A) (t : gmap Z A) i : is_Some (t !! i) -> is_Some (<[k := x]> t !! i).
Proof. intros Hi. apply lookup_insert_is_Some'. by right. Qed.

(** Claims and changes of names are written, nothing the dictionaries know. *)
Lemma claim_name_beside claim_id change_id now old new db db' :
  UserDomain.claim_name claim_id change_id now old new db = inr db' ->
  users db' = users db /\ posts db' = posts db /\ dictionaries db' = dictionaries db.
Proof.
  assert (forall db db', UserDomain.audit change_id now old new db = inr db' ->
    users db' = users db /\ posts db' = posts db /\ dictionaries db' = dictionaries db) as Ha.
  { unfold UserDomain.audit, UserDomain.insert_change. intros d d'. cbv zeta.
    repeat case_match; intros; simplify_eq; done. }
  unfold UserDomain.claim_name. repeat case_match; try done; intros E%Ha; done.
Qed.

Lemma kept_update_user f claim_id change_id at_ now id db n db' :
  UserDomain.update_user f claim_id change_id at_ now id db = inr (n, db') -> dict_kept db db'.
Proof.
  intros E. unfold UserDomain.update_user in E.
  destruct (users db !! id) as [u|] eqn:Hu; [|by injection E as _ <-].
  destruct (UserRepository.live u); cbn in E; [|by injection E as _ <-].
  destruct (_ && exists_row _ _); [done|]. set (new := UserDomain.set_fields f at_ u) in *.
  set (db0 := db <| users := <[id := new]> (users db) |>) in E.
  assert (dict_kept db db0) as K0 by (apply kept_beside; [done|intros k; apply kept_insert|done]).
  set (db1 := if bool_decide (UserDomain.pf_avatar f <> None) then _ else _) in E.
  assert (dict_kept db0 db1) as K1.
  { apply kept_quiet. unfold db1, UserDomain.activate_avatar.
    repeat case_match; rewrite ?(proj1 (quiet_images _)); done. }
  destruct (if bool_decide (UserDomain.pf_name f <> None) then _ else _) as [|db2] eqn:E2; [done|].
  assert (dict_kept db1 db2) as K2.
  { destruct (bool_decide (UserDomain.pf_name f <> None)); [|by injection E2 as <-].
    apply claim_name_beside in E2 as (Eu & Ep & Ed). apply kept_beside; [done|intros k; by rewrite ?Eu, ?Ep..]. }
  injection E as _ <-. do 2 (etrans; [eassumption|]). etrans; [exact K2|]. apply kept_quiet.
  unfold UserDomain.retire_avatar. repeat case_match; rewrite ?(proj2 (quiet_images _)); done.
Qed.

#[export] Instance kept_bystander : Bystander dict_kept.
Proof.
  split.
  - apply _.
  - apply kept_quiet.
  - intros user cid db r db' E. unfold UserRepository.insert_user in E.
    destruct (exists_row _ _); [done|]. destruct (exists_row _ _); [done|].
    destruct (insert_row "users_pkey" _ _ _) as [|t] eqn:Ht; [done|].
    apply insert_row_inr in Ht as [_ ->].
    repeat case_match; simplify_eq; (apply kept_beside; [done|intros k; apply kept_insert|done]).
  - apply kept_update_user.
  - intros id name now. unfold UserRepository.ClaimUsername. solve_keeps. apply (keeps_stmt _).
    intros db r db' E. repeat case_match; simplify_eq; by apply kept_beside.
  - intros id post db _. apply kept_beside; [done|done|]. intros k. apply kept_insert.
Qed.
End bystander.

(** ** What an approval leaves *)
(** What an approved suggestion produced: one entry, of its kind; a window in the canteen
    it names, which is the one its parent suggestion was approved with. *)
Definition produced (db : DB) (s : DS.t) : Prop :=
  let with_result (kind : string) (result : option Z) (P : Z -> Prop) :=
    DS.Kind s = kind -> exists id, result = Some id /\ P id in
  with_result SuggestionKindFlavor (DS.ResultingFlavorID s) (fun id => is_Some (flavors db !! id)) /\
  with_result SuggestionKindCuisine (DS.ResultingCuisineID s)
    (fun id => is_Some (cuisines db !! id)) /\
  with_result SuggestionKindCanteen (DS.ResultingCanteenID s)
    (fun id => is_Some (canteens db !! id)) /\
  with_result SuggestionKindCanteenWindow (DS.ResultingWindowID s) (fun id =>
    exists w, canteen_windows db !! id = Some w /\
      DS.ParentCanteenID s = Some (CanteenWindow.CanteenID w) /\
      is_Some (canteens db !! CanteenWindow.CanteenID w) /\
      forall p, DS.ParentSuggestionID s = Some p ->
        exists parent, dictionary_suggestions db !! p = Some parent /\
          DS.Kind parent = SuggestionKindCanteen /\
          DS.Status parent = SuggestionStatusApproved /\
          DS.ResultingCanteenID parent = DS.ParentCanteenID s).

Lemma is_set_true {A} (o : option A) : is_set o = true <-> exists a, o = Some a.
Proof. destruct o; naive_solver. Qed.

Lemma checks_approved s :
  checks s = true -> DS.Status s = SuggestionStatusApproved ->
  forall kind result, (kind, result) ∈ results s ->
    is_set result = bool_decide (kind = DS.Kind s).
Proof.
  unfold checks. rewrite !andb_true_iff. intros [_ Hr] Hs kind result Hin.
  unfold resulting_check in Hr. rewrite bool_decide_eq_true_2 in Hr by done.
  rewrite forallb_forall in Hr. apply list_elem_of_In in Hin. apply Hr in Hin. cbn in Hin.
  by apply Bool.eqb_prop in Hin.
Qed.

Lemma checks_window s :
  checks s = true -> DS.Status s = SuggestionStatusApproved ->
  DS.Kind s = SuggestionKindCanteenWindow -> exists c, DS.ParentCanteenID s = Some c.
Proof.
  unfold checks. rewrite !andb_true_iff. intros ((((_ & _) & Hp) & _) & _) Hs Hk.
  unfold parent_check in Hp. rewrite (bool_decide_eq_true_2 _ Hk) in Hp.
  rewrite (bool_decide_eq_true_2 _ Hs) in Hp. cbn in Hp.
  apply andb_true_iff in Hp as [[_ Hp]%andb_true_iff _]. by apply is_set_true.
Qed.

Ltac in_results := unfold results; rewrite !elem_of_cons; tauto.

Lemma approved_produced db k s :
  dict_ok db -> dictionary_suggestions db !! k = Some s ->
  DS.Status s = SuggestionStatusApproved -> produced db s.
Proof.
  intros Ho Hk Hs. destruct (do_suggestions _ Ho _ _ Hk) as [_ He].
  apply suggestion_error_None in He as (_ & Hc & []).
  assert (forall kind result, (kind, result) ∈ results s -> DS.Kind s = kind ->
    exists id, result = Some id) as Hr.
  { intros kind result Hin HK. apply is_set_true.
    rewrite (checks_approved s Hc Hs _ _ Hin). by apply bool_decide_eq_true. }
  unfold produced. split_and!; intros HK.
  - destruct (Hr (DS.Kind s) (DS.ResultingFlavorID s)) as [id Hid]; [rewrite HK; in_results|done|]. eauto.
  - destruct (Hr (DS.Kind s) (DS.ResultingCuisineID s)) as [id Hid]; [rewrite HK; in_results|done|]. eauto.
  - destruct (Hr (DS.Kind s) (DS.ResultingCanteenID s)) as [id Hid]; [rewrite HK; in_results|done|]. eauto.
  - destruct (Hr (DS.Kind s) (DS.ResultingWindowID s)) as [id Hid]; [rewrite HK; in_results|done|].
    exists id. split; [done|]. destruct (checks_window s Hc Hs HK) as [c Hpc].
    destruct (ko_window _ _ Hid Hpc) as (w & Hw & <-). exists w. split_and!; [done..|by apply ko_canteen|].
    intros p Hp. destruct (ko_parent _ Hp) as (parent & Hpar & Hkind & Hres). exists parent.
    rewrite Hpc in Hres |- *. specialize (Hres ltac:(done)). split_and!; try done.
    destruct (do_suggestions _ Ho _ _ Hpar) as [_ Hep].
    apply suggestion_error_None in Hep as (_ & Hcp & _).
    destruct (decide (DS.Status parent = SuggestionStatusApproved)) as [|Hn]; [done|].
    apply checks_pending in Hn; [congruence|done].
Qed.

(** ** The theorems *)
Section system.
Context `{Env} `{Pg} `{Unicode} `{DbClock} `{Decimal} `{Mail} `{JWT} `{Bcrypt}.
Context (h : AuthService) (sv : Services).
Context `{!QuietAccess (ps_imageAccess (sv_posts sv))}.
Context (Hqueue : forall q, deliveries h = Some q -> QueueFrame surroundings q).
Context {X : Type} (ia : AfterOp -> World DB X -> World DB X * option string).
Context (Hia : forall op w w' p, ia op w = (w', p) -> w_db w' = w_db w).
Abbreviation WorldD := (World DB X).

(** A request to the auth service, or a unit of work: of the other services, or of the
    dictionary service. *)
Inductive whole_step : WorldD -> WorldD -> Prop :=
| step_others w w' : system_step h sv ia w w' -> whole_step w w'
| step_dictionary op r w w' :
    RunInTx interp_before (run_dict op) w = (r, w') -> whole_step w w'.

Lemma whole_step_kept (w w' : WorldD) : rtc whole_step w w' -> dict_kept (w_db w) (w_db w').
Proof.
  induction 1 as [|w w1 w2 Hs _ IH]; [done|]. etrans; [|exact IH].
  destruct Hs as [w w1 Hs | op r w w1 E].
  - exact (system_step_bystander h sv Hqueue ia Hia dict_kept _ _ Hs).
  - apply (keeps_RunInTx dict_kept _ _ _ _ _ (quiet_before dict_kept)) in E; [done|].
    intros tx r' tx' Er. apply writes_kept. by eapply writes_run_dict.
Qed.

(** C14: A suggestion is decided once.  Whatever requests and units of work interleave
    (of the dictionary service and of all the others): a suggestion never disappears, what
    was proposed never changes, and its row changes at most once, from pending to approved
    or to rejected; a decided suggestion stays exactly as it is. *)
Theorem suggestion_decided_once (w w' : WorldD) k s :
  rtc whole_step w w' -> dictionary_suggestions (w_db w) !! k = Some s ->
  exists s', dictionary_suggestions (w_db w') !! k = Some s' /\ proposal s' = proposal s /\
    (s' = s \/ reviewed_as s s').
Proof. intros Hs%whole_step_kept Hk. exact (move_proposal _ _ _ (dk_moves _ _ Hs k) Hk). Qed.

(** C15: The dictionaries stay consistent.  Over any interleaving of requests and units of
    work, deletions of entries and of accounts included, every constraint of the five
    tables holds again afterwards: names (and codes) are unique, windows belong to
    canteens, suggestions satisfy their CHECKs and refer to rows that exist.  So every
    approved suggestion has one result, an existing entry of its kind; a window is in the
    canteen its suggestion names, and the canteen's own suggestion was approved before. *)
Theorem dictionary_integrity (w w' : WorldD) :
  rtc whole_step w w' -> dict_ok (w_db w) ->
  dict_ok (w_db w') /\
  forall k s, dictionary_suggestions (w_db w') !! k = Some s ->
    DS.Status s = SuggestionStatusApproved -> produced (w_db w') s.
Proof.
  intros Hs%whole_step_kept Ho%(dk_ok _ _ Hs). split; [done|].
  intros k s. by apply approved_produced.
Qed.
End system.
