(* ===== verification/DictionaryApproval.v ===== *)
(** * What approving a suggestion does

    The run of [Approve], step by step: the entry that is reused or created
    ([approve_effect]), the version of the source post it writes
    ([approval_leaves_version_unjudged]), and the suggestions that no administrator can
    approve ([long_name_never_approved]). *)

From S2P Require Import Prelude.
From S2P Require Import GoText.
From S2P Require Import Apierr.
From S2P Require Import Effects.
From S2P Require Import Logic.
From S2P Require Import Model.
From S2P Require Import AuthRepo.
From S2P Require Import AuthService.
From S2P Require Import Money.
From S2P Require Import PostValidation.
From S2P Require Import PostRepo.
From S2P Require Import UserRepo.
From S2P Require Import Moderation.
From S2P Require Import PostService.
From S2P Require Import PostTables.
From S2P Require Import PostProps.
From S2P Require Import PostEdits.
From S2P Require Import CommentOps.
From S2P Require Import DictionaryRepo.
From S2P Require Import DictionaryService.
From S2P Require Import DictionaryWrites.
From S2P Require Import DictionaryProps.
Import DictionaryRepository DictionaryService.
Open Scope Z_scope.

(** ** Reusing or creating an entry *)
(** At most one entry more, none changed. *)
Inductive entering (db : DB) : DB -> Prop :=
| reused : entering db db
| created (T : Type) (D : Dictionary T) (item : T) :
    Known T D -> d_table db !! d_ID item = None -> row_error T item db = None ->
    entering db (put T (d_ID item) item db).

Section entries.
Context `{Env} `{Pg} `{Unicode} `{DbClock} `{Decimal}.

(** An entry of the table, under its own key. *)
Definition entry {T} `{Dictionary T} (P : T -> Prop) (db : DB) (r : T) : Prop :=
  d_table db !! d_ID r = Some r /\ P r.

Lemma find_or_create_entry {T} (D : Dictionary T) (K : Known T D) `{!DictionaryLaws T}
    (P : T -> Prop) item stored tx r tx' :
  find_or_create T item stored tx = (inr r, tx') ->
  (forall id now, P (d_stamped now (d_numbered id item))) ->
  (forall tx0 r tx1, stored tx0 = (inr r, tx1) -> table_ok T (tx_db tx0) ->
     tx_db tx1 = tx_db tx0 /\ entry P (tx_db tx0) r) ->
  table_ok T (tx_db tx) ->
  entering (tx_db tx) (tx_db tx') /\ entry P (tx_db tx') r.
Proof.
  intros E Hnew Hst Ht. unfold find_or_create in E.
  apply mbind_inr in E as (now & tx1 & (_ & Hd1 & _)%Now_inr & E).
  apply mbind_inr in E as (id & tx2 & (_ & Hd2 & _)%NextID_inr & E).
  apply mbind_inr in E as (added & tx3 & Es & E).
  apply stmt_inr in Es as (_ & Es & _). rewrite Hd2, Hd1 in Es. unfold insert_or_nothing in Es.
  destruct (row_error _ _ _) as [err|] eqn:He.
  - assert (added = false /\ tx_db tx3 = tx_db tx) as [-> Hdb]
      by (repeat case_match; by simplify_eq).
    rewrite <- Hdb in Ht |- *. destruct (Hst _ _ _ E Ht) as [-> Hr]. by split; [constructor|].
  - destruct (d_table _ !! _) eqn:Hd; injection Es as <- Hdb.
    + rewrite Hdb in Ht |- *. destruct (Hst _ _ _ E Ht) as [-> Hr]. by split; [constructor|].
    + apply mret_inr in E as [<- <-]. rewrite <- Hdb. split; [by apply created|].
      split; [|apply Hnew]. unfold put. by rewrite dl_store, lookup_insert_eq.
Qed.

(** The [SELECT] by name. *)
Lemma by_name_entry {T} `{!Dictionary T} name tx r tx' :
  by_name T name tx = (inr r, tx') -> table_ok T (tx_db tx) ->
  tx_db tx' = tx_db tx /\ entry (fun r => d_Name r = name) (tx_db tx) r.
Proof.
  unfold by_name. intros [-> Hf]%First_Some Ht. split; [done|].
  apply first_Some in Hf as [Hn [k Hk]]. apply bool_decide_eq_true in Hn.
  destruct (Ht _ _ Hk) as [<- _]. by split.
Qed.

(** ** The result of an approval *)
Definition usable {T} `{Dictionary T} (name : string) (fits : T -> Prop) (db : DB) (id : Z) : Prop :=
  exists r : T, d_table db !! id = Some r /\ d_IsActive r = true /\ d_Name r = name /\ fits r.

(** The entry a suggestion is approved with, and the column it goes to. *)
Definition landed (s : DS.t) (parent : option Z) (db : DB) (result : Z * string) : Prop :=
  let '(id, field) := result in
  let name := DS.ProposedName s in
  let as_kind kind column (P : Prop) := DS.Kind s = kind /\ field = column /\ P in
  as_kind SuggestionKindFlavor "resulting_flavor_id"%string
    (usable (T := Flavor.t) name (fun _ => True) db id) \/
  as_kind SuggestionKindCuisine "resulting_cuisine_id"%string
    (usable (T := Cuisine.t) name (fun _ => True) db id) \/
  as_kind SuggestionKindCanteen "resulting_canteen_id"%string
    (usable (T := Canteen.t) name (fun _ => True) db id) \/
  as_kind SuggestionKindCanteenWindow "resulting_window_id"%string
    (usable (T := CanteenWindow.t) name
       (fun w => parent = Some (CanteenWindow.CanteenID w)) db id).

Lemma active_result_inr {T} `{Dictionary T} field message (found : MT T) tx result tx' :
  active_result field message found tx = (inr result, tx') ->
  exists item tx1, found tx = (inr item, tx1) /\ tx_db tx' = tx_db tx1 /\
    d_IsActive item = true /\ result = (d_ID item, field).
Proof.
  unfold active_result. intros E. apply mbind_inr in E as (item & tx1 & E1 & E).
  destruct (d_IsActive item) eqn:Ha; [|done]. apply mret_inr in E as [<- <-].
  apply on_error_inr in E1 as [E1|(e & tx0 & _ & Ee)]; [by eauto 10|].
  unfold dictionaryWriteError in Ee. by repeat case_match.
Qed.

Lemma existing_result_inr {T} (D : Dictionary T) resource field name fits id
    tx result tx' :
  existing_result (T := T) resource field name fits id tx = (inr result, tx') ->
  table_ok T (tx_db tx) ->
  tx_db tx' = tx_db tx /\ exists k, result = (k, field) /\
    usable (T := T) name (fun r => fits r = true) (tx_db tx) k.
Proof.
  unfold existing_result. intros E Ht. apply mbind_inr in E as (item & tx1 & E1 & E).
  apply on_error_inr in E1 as [[Hd Hi]%First_Some|(? & ? & _ & E1)]; [|done].
  case_match eqn:Hc; [done|]. apply mret_inr in E as [<- <-]. split; [done|].
  rewrite !orb_false_iff, !negb_false_iff, bool_decide_eq_true in Hc.
  destruct Hc as [[Ha Hn] Hf]. destruct (Ht _ _ Hi) as [Hid _].
  exists (d_ID item). split; [done|]. exists item. by rewrite Hid.
Qed.

(** An entry that is reused or created, and active. *)
Lemma active_created {T} (D : Dictionary T) (K : Known T D) `{!DictionaryLaws T}
    field message name (fits : T -> Prop) item stored tx result tx' :
  active_result field message (find_or_create T item stored) tx = (inr result, tx') ->
  d_Name item = name -> (forall id now, fits (d_stamped now (d_numbered id item))) ->
  (forall tx0 r tx1, stored tx0 = (inr r, tx1) -> table_ok T (tx_db tx0) ->
     tx_db tx1 = tx_db tx0 /\ entry (fun r => d_Name r = name /\ fits r) (tx_db tx0) r) ->
  table_ok T (tx_db tx) ->
  entering (tx_db tx) (tx_db tx') /\ exists id, result = (id, field) /\
    usable (T := T) name fits (tx_db tx') id.
Proof.
  intros (r & tx1 & E & -> & Ha & ->)%active_result_inr Hn Hf Hst Ht.
  apply (find_or_create_entry D K (fun r => d_Name r = name /\ fits r)) in E
    as [He [Hr [Hrn Hrf]]]; [|intros; rewrite dl_name; by auto|done|done].
  split; [done|]. exists (d_ID r). split; [done|]. by exists r.
Qed.

Lemma by_name_stored {T} `{!Dictionary T} name (tx0 : TxD) r tx1 :
  by_name T name tx0 = (inr r, tx1) -> table_ok T (tx_db tx0) ->
  tx_db tx1 = tx_db tx0 /\ entry (fun r => d_Name r = name /\ True) (tx_db tx0) r.
Proof. intros E Ht. destruct (by_name_entry _ _ _ _ E Ht) as [? [? ?]]. by repeat split. Qed.

Lemma approve_canteen_inr name input tx result tx' :
  approve_canteen name input tx = (inr result, tx') -> dict_ok (tx_db tx) ->
  entering (tx_db tx) (tx_db tx') /\ exists id, result = (id, "resulting_canteen_id"%string) /\
    usable (T := Canteen.t) name (fun _ => True) (tx_db tx') id.
Proof.
  intros E Ho. pose proof (do_canteens _ Ho) as Ht. unfold approve_canteen in E.
  apply mbind_inr in E as (found & tx1 & E1%attempt_inr & E).
  assert (tx_db tx1 = tx_db tx) as Hd.
  { unfold FindCanteenByName, by_name in E1. by reads E1. }
  destruct found as [e|canteen].
  - destruct (is_not_found e); cbn [negb] in E; [|by apply internal_inr in E].
    destruct (ap_Code input) as [code|]; [|done]. destruct (ap_Campus input) as [campus|]; [|done].
    rewrite <- Hd in Ht |- *. eapply (active_created _ known_canteens _ _ name (fun _ => True)) in E; [exact E|done|done| |done].
    intros tx0 r tx2 [E0|(? & ? & _ & E0)]%on_error_inr; [by apply by_name_stored|].
    by destruct (is_not_found _).
  - unfold activeCanteenResult in E. apply active_result_inr in E as (r & tx2 & E & -> & Ha & ->).
    apply mret_inr in E as [<- <-].
    destruct (by_name_stored _ _ _ _ E1 Ht) as [_ [Hc [Hn _]]]. rewrite Hd.
    split; [constructor|]. exists (d_ID canteen). split; [done|]. by exists canteen.
Qed.

Lemma approveDictionaryItem_inr s parent input tx result tx' :
  approveDictionaryItem s parent input tx = (inr result, tx') -> dict_ok (tx_db tx) ->
  entering (tx_db tx) (tx_db tx') /\ landed s parent (tx_db tx') result.
Proof.
  intros E Ho. pose proof Ho as [Hf Hcu Hca Hw _].
  unfold approveDictionaryItem in E. destruct (ap_ExistingItemID input) as [itemID|].
  - unfold approveExistingItem in E. destruct (itemID =? 0); [done|].
    repeat case_bool_decide; try (by apply internal_inr in E);
      (eapply existing_result_inr in E as (-> & k & -> & Hu); [|done]); (split; [constructor|]);
      unfold landed.
    + left. split_and!; [done..|]. destruct Hu as (r & ? & ? & ? & _). by exists r.
    + right; left. split_and!; [done..|]. destruct Hu as (r & ? & ? & ? & _). by exists r.
    + right; right; left. split_and!; [done..|]. destruct Hu as (r & ? & ? & ? & _). by exists r.
    + right; right; right. split_and!; [done..|]. destruct Hu as (r & ? & ? & ? & Hc).
      apply bool_decide_eq_true in Hc. by exists r.
  - repeat case_bool_decide; [..|by apply internal_inr in E].
    + eapply (active_created _ known_flavors _ _ _ (fun _ => True)) in E as [? (id & -> & Hu)];
        [|done|done|by apply by_name_stored|done].
      split; [done|]. by left.
    + eapply (active_created _ known_cuisines _ _ _ (fun _ => True)) in E as [? (id & -> & Hu)];
        [|done|done|by apply by_name_stored|done].
      split; [done|]. right. by left.
    + apply approve_canteen_inr in E as [? (id & -> & Hu)]; [|done]. split; [done|]. right; right.
      by left.
    + destruct parent as [c|]; [|done].
      eapply (active_created _ known_windows _ _ (DS.ProposedName s)
        (fun w => Some c = Some (CanteenWindow.CanteenID w)))
        in E as [? (id & -> & Hu)]; [|done|done| |done].
      * split; [done|]. right; right; right. by split_and!.
      * intros tx0 r tx1 [-> Hr]%First_Some Ht. split; [done|].
        apply first_Some in Hr as [Hr [k Hk]]. destruct (Ht _ _ Hk) as [<- _].
        rewrite !andb_true_iff, !bool_decide_eq_true, Z.eqb_eq in Hr. split; [done|]. naive_solver.
Qed.
End entries.

(** ** The steps of [Approve] *)
Section approving.
Context `{Env} `{Pg} `{Unicode} `{DbClock} `{Decimal}.

(** The canteen of a window, locked: it exists and is open. *)
Definition open_canteen (db : DB) (c : Z) : Prop :=
  exists canteen, canteens db !! c = Some canteen /\ Canteen.IsActive canteen = true.

Lemma resolveApprovalParent_inr s (tx : TxD) parent tx' :
  resolveApprovalParent s tx = (inr parent, tx') ->
  tx_db tx' = tx_db tx /\
  (DS.Kind s = SuggestionKindCanteenWindow ->
     exists c, parent = Some c /\ open_canteen (tx_db tx) c).
Proof.
  intros E. assert (tx_db tx' = tx_db tx) as Hd by (by reads E). split; [done|]. intros Hk.
  unfold resolveApprovalParent in E. rewrite bool_decide_eq_true_2 in E by done. cbn [negb] in E.
  apply mbind_inr in E as (p & tx1 & E1 & E).
  assert (tx_db tx1 = tx_db tx) as Hd1.
  { unfold resolveApprovedParentSuggestion, LockSuggestionByID in E1. by reads E1. }
  destruct p as [c|]; [|done]. apply mbind_inr in E as (canteen & tx2 & E2 & E).
  destruct (Canteen.IsActive canteen) eqn:Ha; [|done]. apply mret_inr in E as [<- _].
  apply on_error_inr in E2 as [[_ Hc]%First_Some|(? & ? & _ & E2)]; [|done].
  rewrite Hd1 in Hc. by exists c; split; [|exists canteen].
Qed.

(** The source post an approval writes to: the suggestion's, unless it was deleted. *)
Definition source_post (s : DS.t) (db : DB) (post : option Post.t) : Prop :=
  match DS.PostID s with
  | None => post = None
  | Some id => exists p,
      first (fun p => PostRepository.by_id id p && true) (posts db) = Some p /\
      post = if PostRepository.undeleted p then Some p else None
  end.

Lemma lockSourcePost_inr s (tx : TxD) post tx' :
  lockSourcePost s tx = (inr post, tx') ->
  tx_db tx' = tx_db tx /\ source_post s (tx_db tx) post.
Proof.
  unfold lockSourcePost, source_post. destruct (DS.PostID s) as [id|].
  - intros E. apply mbind_inr in E as (p & tx1 & E1 & [<- <-]%mret_inr).
    apply on_error_inr in E1 as [[Hd Hp]%First_Some|(? & ? & _ & E1)]; [by split; [|exists p]|].
    unfold postRepositoryError in E1. by repeat case_match.
  - by intros [<- <-]%mret_inr.
Qed.

Lemma ReviewSuggestion_inr id fields (tx : TxD) tx' :
  ReviewSuggestion id fields tx = (inr tt, tx') ->
  exists s now, dictionary_suggestions (tx_db tx) !! id = Some s /\
    let s' := (fields s) <| DS.UpdatedAt := now |> in
    suggestion_error s' (tx_db tx) = None /\ tx_db tx' = put_suggestion id s' (tx_db tx).
Proof.
  unfold ReviewSuggestion. intros E.
  apply mbind_inr in E as (now & tx1 & (_ & Hd & _)%Now_inr & (n & E & Hn)%found_row_inr).
  apply stmt_inr in E as (_ & E & _). unfold review_row in E. rewrite Hd in E.
  destruct (_ !! id) as [s|]; [|by injection E as <-].
  destruct (bool_decide _); cbn [negb] in E; [|by injection E as <-].
  destruct (suggestion_error _ _) eqn:He; [done|]. injection E as _ E. by exists s, now.
Qed.

(** The columns the binding writes. *)
Definition bound_fields (kind : string) (result : Z) (parent : option Z) (revision : Z)
    (now : time) (p : Post.t) : Post.t :=
  (bind_columns kind result parent p)
    <| Post.CurrentRevision := revision |> <| Post.UpdatedAt := now |>.

(** What a snapshot reads beside the post. *)
Definition relations_at (id : Z) (db : DB) : PostRepository.SnapshotRelations :=
  PostRepository.mkRelations (map Tag.Name (PostRepository.tag_rows id db))
    (map (fun fl => PostRepository.mkFlavorRow (Flavor.Name (fst fl)) (snd fl))
       (PostRepository.flavor_links id db))
    (omap (fun pi => ImageAsset.PublicURL <$> image_assets db !! PostImage.ImageAssetID pi)
       (PostRepository.images_of id db)).

Lemma LoadSnapshotRelations_inr id (tx : TxD) relations tx' :
  PostRepository.LoadSnapshotRelations id tx = (inr relations, tx') ->
  tx_db tx' = tx_db tx /\ relations = relations_at id (tx_db tx).
Proof.
  unfold PostRepository.LoadSnapshotRelations. intros E.
  apply mbind_inr in E as (ts & tx1 & (-> & D1 & _)%query_inr & E).
  apply mbind_inr in E as (fs & tx2 & (-> & D2 & _)%query_inr & E).
  apply mbind_inr in E as (ims & tx3 & (-> & D3 & _)%query_inr & E).
  apply mret_inr in E as [<- <-]. by rewrite D3, D2, D1.
Qed.

(** The flavours of the posts: a suggested flavour gets its stance, no other changes. *)
Definition flavors_bound (s : DS.t) (p : Post.t) (result : Z)
    (old new : gmap (Z * Z) PostFlavor.t) : Prop :=
  (DS.Kind s = SuggestionKindFlavor -> exists stance, DS.FlavorStance s = Some stance /\
     new = <[(Post.ID p, result) := PostFlavor.mk (Post.ID p) result stance (Post.PostType p)]> old) /\
  (DS.Kind s <> SuggestionKindFlavor -> new = old).

(** What the binding leaves: a version more, which the post shows. *)
Definition bound (s : DS.t) (p : Post.t) (result : Z) (parent : option Z) (reviewer : Z)
    (now : time) (db db' : DB) : Prop :=
  exists revision k h flavored,
    revision = PostRepository.next_revision (Post.ID p) db /\
    post_histories db !! k = None /\
    PostHistory.PostID h = Post.ID p /\ PostHistory.Revision h = revision /\
    PostHistory.EditedBy h = reviewer /\
    PostHistory.Snapshot h = snapshotFromCurrent
      (bound_fields (DS.Kind s) result parent revision now p) (relations_at (Post.ID p) db') /\
    flavors_bound s p result (post_flavors db) flavored /\
    db' = (set_posts (PostRepository.by_id (Post.ID p)) 
        (bound_fields (DS.Kind s) result parent revision now) db)
      <| post_flavors := flavored |>
      <| post_histories := <[k := h]> (post_histories db) |>.

Lemma bind_columns_ID kind result parent p :
  Post.ID (bind_columns kind result parent p) = Post.ID p.
Proof. unfold bind_columns. by repeat case_match. Qed.

Lemma bindSuggestionToPost_inr s p result parent reviewer now (tx : TxD) tx' :
  bindSuggestionToPost s p result parent reviewer now tx = (inr tt, tx') ->
  bound s p result parent reviewer now (tx_db tx) (tx_db tx').
Proof.
  intros E. unfold bindSuggestionToPost in E.
  apply mbind_inr in E as (revision & tx1 & E1 & E).
  apply on_error_inr in E1 as [E1|(? & ? & _ & E1)]; [|by apply internal_inr in E1].
  apply stmt_inr in E1 as (_ & E1 & _). cbv zeta in E1. destruct (_ <? 2 ^ 31); [|done].
  injection E1 as <- Hd1.
  apply mbind_inr in E as ([] & tx2 & E2 & E).
  assert (exists flavored, flavors_bound s p result (post_flavors (tx_db tx)) flavored /\
    tx_db tx2 = (tx_db tx) <| post_flavors := flavored |>) as (flavored & Hf & Hd2).
  { destruct (decide (DS.Kind s = SuggestionKindFlavor)) as [Hk|Hk];
      [rewrite (bool_decide_eq_true_2 _ Hk) in E2|rewrite (bool_decide_eq_false_2 _ Hk) in E2].
    - unfold bind_flavor in E2. destruct (DS.FlavorStance s) as [stance|] eqn:Hst; [|done].
      destruct (stanceMatchesPostType _ _); [|done].
      apply on_error_inr in E2 as [E2|(? & ? & _ & E2)];
        [|unfold dictionaryWriteError in E2; by repeat case_match].
      apply stmt_inr in E2 as (_ & E2 & _). repeat case_match; try done.
      injection E2 as E2. rewrite <- E2, <- Hd1. eexists. split; [|done]. split; [|done].
      intros _. by exists stance.
    - exists (post_flavors (tx_db tx)). split; [done|].
      assert (tx_db tx2 = tx_db tx1) as -> by (by reads E2). rewrite <- Hd1. by destruct (tx_db tx). }
  apply mbind_inr in E as ([] & tx3 & E3 & E).
  apply on_error_inr in E3 as [(n & E3 & _)%found_row_inr|(? & ? & _ & E3)];
    [|unfold postRepositoryError in E3; by repeat case_match].
  apply update_posts_inr in E3. apply mbind_inr in E as (relations & tx4 & E4 & E).
  apply on_error_inr in E4 as [[Hd4 ->]%LoadSnapshotRelations_inr|(? & ? & _ & E4)];
    [|by apply internal_inr in E4].
  apply on_error_inr in E as [E|(? & ? & _ & E)];
    [|unfold historyWriteError in E; by repeat case_match].
  apply mbind_inr in E as (k & tx5 & (_ & Hd5 & _)%NextID_inr & E).
  apply stmt_inr in E as (_ & E & _). destruct (exists_row _ _); [done|].
  destruct (insert_row _ _ _ _) as [|t] eqn:Ei; [done|]. apply insert_row_inr in Ei as [Hn ->].
  injection E as E. rewrite Hd5, Hd4, E3, Hd2 in *.
  exists (PostRepository.next_revision (Post.ID p) (tx_db tx)), k. eexists. exists flavored.
  split_and!; [| | | | | | |by rewrite <- E];
    [done|exact Hn|apply bind_columns_ID|done|done| |done].
  cbn. rewrite bind_columns_ID. by rewrite <- E.
Qed.

(** What a successful approval did. *)
Record approval (id reviewer : Z) (input : ApproveSuggestionInput) (db db' : DB) (v : SuggestionView)
    (s s' : DS.t) (parent : option Z) (post : option Post.t) (result : Z * string) (db1 : DB)
    : Prop := {
  av_found : dictionary_suggestions db !! id = Some s;
  av_pending : DS.Status s = SuggestionStatusPending;
  av_parent : DS.Kind s = SuggestionKindCanteenWindow ->
    exists c, parent = Some c /\ open_canteen db c;
  av_source : source_post s db post;
  av_entered : entering db db1;
  av_landed : landed s parent db1 result;
  av_row : exists now note t, s' = (approved_fields (DS.Kind s) parent reviewer now note
    (snd result) (fst result) s) <| DS.UpdatedAt := t |>;
  av_checked : suggestion_error s' db1 = None;
  av_tables : match post with
    | None => db' = put_suggestion id s' db1
    | Some p => exists now,
        bound s p (fst result) parent reviewer now (put_suggestion id s' db1) db'
    end;
  av_view : exists name deleted, v = suggestionView (mkSuggestionRecord s' name deleted);
}.

(** Beside the dictionaries, the new entry changes nothing. *)
Lemma entering_suggestions db db' :
  entering db db' -> dictionary_suggestions db' = dictionary_suggestions db.
Proof. intros [|T D item K _ _]; [done|]. by destruct K. Qed.
Lemma entering_posts db db' : entering db db' -> posts db' = posts db.
Proof. intros [|T D item K _ _]; [done|]. by destruct K. Qed.
Lemma entering_histories db db' : entering db db' -> post_histories db' = post_histories db.
Proof. intros [|T D item K _ _]; [done|]. by destruct K. Qed.
Lemma entering_records db db' : entering db db' -> moderation_records db' = moderation_records db.
Proof. intros [|T D item K _ _]; [done|]. by destruct K. Qed.

Lemma approved_fields_ID kind parent reviewer now note field result s :
  DS.ID (approved_fields kind parent reviewer now note field result s) = DS.ID s.
Proof. unfold approved_fields, setSuggestionResult. by repeat case_bool_decide. Qed.

Lemma suggestionRecord_inr s (tx : TxD) record tx' :
  suggestionRecord s tx = (inr record, tx') ->
  exists row name deleted, dictionary_suggestions (tx_db tx) !! DS.ID s = Some row /\
    record = mkSuggestionRecord row name deleted.
Proof.
  unfold suggestionRecord, FindSuggestionRecordByID. intros E.
  apply on_error_inr in E as [E|(? & ? & _ & E)];
    [|unfold suggestionRepositoryError in E; by repeat case_match].
  apply mbind_inr in E as (o & tx1 & (-> & _)%query_inr & E).
  destruct (dictionary_suggestions _ !! _) as [row|] eqn:Hr; [|done]. cbn in E.
  unfold with_proposer in E. destruct (users _ !! _) as [u|]; [|done].
  apply mret_inr in E as [<- _]. by eexists row, _, _.
Qed.

Lemma Approve_inr id reviewer input (tx : TxD) v tx' :
  Approve id reviewer input tx = (inr v, tx') -> dict_ok (tx_db tx) ->
  exists s s' parent post result db1,
    approval id reviewer input (tx_db tx) (tx_db tx') v s s' parent post result db1.
Proof.
  intros E Ho. unfold Approve in E. apply mbind_inr in E as (s & tx1 & E1 & E).
  apply on_error_inr in E1 as [[Hd1 Hs]%First_Some|(? & ? & _ & E1)];
    [|unfold suggestionRepositoryError in E1; by repeat case_match].
  destruct (do_suggestions _ Ho _ _ Hs) as [Hid _].
  destruct (bool_decide _) eqn:Hp; cbn [negb] in E; [|done]. apply bool_decide_eq_true in Hp.
  apply mbind_inr in E as (input' & tx2 & [_ <-]%lift_inr & E).
  apply mbind_inr in E as (parent & tx3 & [Hd3 Hpar]%resolveApprovalParent_inr & E).
  apply mbind_inr in E as (post & tx4 & [Hd4 Hpost]%lockSourcePost_inr & E).
  apply mbind_inr in E as ([result field] & tx5 & E5 & E).
  apply approveDictionaryItem_inr in E5 as [He Hl]; [|by rewrite Hd4, Hd3, Hd1].
  apply mbind_inr in E as (now & tx6 & (_ & Hd6 & _)%Now_inr & E).
  apply mbind_inr in E as ([] & tx7 & E7 & E).
  apply on_error_inr in E7 as [E7|(? & ? & _ & E7)];
    [|unfold suggestionReviewError, dictionaryWriteError in E7; by repeat case_match].
  apply ReviewSuggestion_inr in E7 as (s0 & t & Hs0 & Hc & Hd7). cbv zeta in Hc, Hd7.
  apply mbind_inr in E as ([] & tx8 & E8 & E).
  apply mbind_inr in E as (record & tx9 & E9 & E).
  apply mret_inr in E as [<- <-].
  assert (tx_db tx9 = tx_db tx8) as Hd9 by (by reads E9).
  rewrite Hd4, Hd3, Hd1, ?Hd6, Hid in *.
  rewrite (entering_suggestions _ _ He), Hs in Hs0. injection Hs0 as <-.
  set (s' := _ <| DS.UpdatedAt := t |>) in Hc, Hd7.
  exists s, s', parent, post, (result, field), (tx_db tx5). split; try done.
  - by exists now, (ap_ReviewNote input'), t.
  - rewrite Hd9. destruct post as [p|]; [|apply mret_inr in E8 as [_ <-]; done].
    apply bindSuggestionToPost_inr in E8. exists now. by rewrite <- Hd7.
  - assert (dictionary_suggestions (tx_db tx8) !! id = Some s') as Hs'.
    { assert (dictionary_suggestions (tx_db tx8) = dictionary_suggestions (tx_db tx7)) as ->.
      { destruct post as [p|]; [|by apply mret_inr in E8 as [_ <-]].
        apply bindSuggestionToPost_inr in E8 as (? & ? & ? & ? & _ & _ & _ & _ & _ & _ & _ & ->). done. }
      rewrite Hd7. apply lookup_insert_eq. }
    apply suggestionRecord_inr in E9 as (row & name & deleted & Hrow & ->). cbn in Hrow.
    rewrite approved_fields_ID, Hid, Hs' in Hrow. injection Hrow as <-. by exists name, deleted.
Qed.

Lemma entering_open db db' c : entering db db' -> open_canteen db c -> open_canteen db' c.
Proof.
  intros [|T D item K Hn _] (canteen & Hc & Ha); [by exists canteen|]. exists canteen.
  split; [|done]. destruct K; try done. cbn in *.
  rewrite lookup_insert_ne; [done|]. congruence.
Qed.

(** The four dictionaries. *)
Definition entries_of (db : DB) := (flavors db, cuisines db, canteens db, canteen_windows db).

(** The suggestion refers to an active entry of the proposed name, in the column of its
    kind; a window to one in an open canteen. *)
Definition approved_entry (s : DS.t) (db : DB) : Prop :=
  let name := DS.ProposedName s in
  (DS.Kind s = SuggestionKindFlavor -> exists i, DS.ResultingFlavorID s = Some i /\
     usable (T := Flavor.t) name (fun _ => True) db i) /\
  (DS.Kind s = SuggestionKindCuisine -> exists i, DS.ResultingCuisineID s = Some i /\
     usable (T := Cuisine.t) name (fun _ => True) db i) /\
  (DS.Kind s = SuggestionKindCanteen -> exists i, DS.ResultingCanteenID s = Some i /\
     usable (T := Canteen.t) name (fun _ => True) db i) /\
  (DS.Kind s = SuggestionKindCanteenWindow -> exists i c, DS.ResultingWindowID s = Some i /\
     DS.ParentCanteenID s = Some c /\ open_canteen db c /\
     usable (T := CanteenWindow.t) name (fun w => CanteenWindow.CanteenID w = c) db i).

(** Tables with the same dictionaries. *)
Lemma approved_entry_same s db db' :
  entries_of db' = entries_of db -> approved_entry s db -> approved_entry s db'.
Proof.
  unfold entries_of, approved_entry, usable, open_canteen. cbn.
  by intros [= -> -> -> ->].
Qed.

Lemma landed_entry s parent reviewer now note result field t db0 db :
  landed s parent db (result, field) -> entering db0 db ->
  (DS.Kind s = SuggestionKindCanteenWindow -> exists c, parent = Some c /\ open_canteen db0 c) ->
  approved_entry ((approved_fields (DS.Kind s) parent reviewer now note field result s)
    <| DS.UpdatedAt := t |>) db.
Proof.
  intros Hl He Hp. unfold approved_fields, setSuggestionResult.
  destruct Hl as [(Hk & -> & Hu)|[(Hk & -> & Hu)|[(Hk & -> & Hu)|(Hk & -> & Hu)]]];
    repeat case_bool_decide; try congruence; unfold approved_entry; cbn; rewrite Hk;
    split_and!; try done; intros _.
  1-6: by exists result.
  destruct (Hp Hk) as (c & -> & Hc). exists result, c. split_and!; [done..| |].
  - by eapply entering_open.
  - destruct Hu as (w & ? & ? & ? & [= ->]). by exists w.
Qed.

(** The tables after the approval, seen from the dictionaries. *)
Lemma approval_dictionaries id reviewer input db db' v s s' parent post result db1 :
  approval id reviewer input db db' v s s' parent post result db1 ->
  entries_of db' = entries_of db1 /\
  dictionary_suggestions db' = <[id := s']> (dictionary_suggestions db).
Proof.
  intros []. rewrite <- (entering_suggestions _ _ av_entered0).
  destruct post as [p|]; [|by rewrite av_tables0].
  by destruct av_tables0 as (now & ? & ? & ? & ? & _ & _ & _ & _ & _ & _ & _ & ->).
Qed.

(** A successful approval.  The suggestion was pending; its row is now approved by this
    administrator with the proposal unchanged, and refers to an active entry of its kind with the
    proposed name (a window: in the canteen of the suggestion, which is open).  At most
    one entry was created, none was changed, no other suggestion was touched, and the
    answer is the stored row. *)
Theorem approve_effect id reviewer input (tx : TxD) v tx' :
  Approve id reviewer input tx = (inr v, tx') -> dict_ok (tx_db tx) ->
  exists s s', dictionary_suggestions (tx_db tx) !! id = Some s /\
    DS.Status s = SuggestionStatusPending /\
    dictionary_suggestions (tx_db tx') = <[id := s']> (dictionary_suggestions (tx_db tx)) /\
    proposal s' = proposal s /\ DS.Status s' = SuggestionStatusApproved /\
    DS.ReviewerID s' = Some reviewer /\ approved_entry s' (tx_db tx') /\
    (exists db1, entering (tx_db tx) db1 /\ entries_of (tx_db tx') = entries_of db1) /\
    exists name deleted, v = suggestionView (mkSuggestionRecord s' name deleted).
Proof.
  intros E Ho. destruct (Approve_inr _ _ _ _ _ _ E Ho) as (s & s' & parent & post & [result field] & db1 & HA).
  destruct (approval_dictionaries _ _ _ _ _ _ _ _ _ _ _ _ HA) as [He Hs].
  destruct HA as [Hf Hp Hpar _ Hen Hl (now & note & t & ->) _ _ Hv]. cbn [fst snd] in *.
  exists s. eexists. split_and!; [done|done|exact Hs|..|by exists db1|exact Hv].
  - by apply (approved_review (DS.Kind s) parent reviewer now note field result s t).
  - unfold approved_fields, setSuggestionResult. by repeat case_bool_decide.
  - unfold approved_fields, setSuggestionResult. by repeat case_bool_decide.
  - eapply approved_entry_same; [exact He|]. by eapply landed_entry.
Qed.

(** ** The version of the source post *)
Lemma source_post_found s id p db post :
  keyed Post.ID (posts db) -> DS.PostID s = Some id -> posts db !! id = Some p ->
  PostRepository.undeleted p = true -> source_post s db post -> post = Some p.
Proof.
  intros Hk Hs Hp Hu. unfold source_post. rewrite Hs. intros (q & Hq & ->).
  apply first_Some in Hq as [[Hid _]%andb_true_iff [k Hq]]. apply Z.eqb_eq in Hid.
  assert (k = id) as -> by (rewrite <- Hid; symmetry; by apply Hk).
  assert (q = p) as -> by congruence. by rewrite Hu.
Qed.

Lemma unjudged_newest id v db :
  posts_ok db -> ~ has_version db id v -> newest (of_revision id v) db = None.
Proof.
  intros Ho Hn. destruct (newest _ db) as [r|] eqn:Hr; [|done]. exfalso. apply Hn.
  apply newest_Some in Hr as (Hof & [k Hk] & _). apply of_revision_spec in Hof as [Hp Hv].
  destruct (ok_texts _ Ho _ _ _ Hk Hp) as (_ & v' & Hv' & Hh). congruence.
Qed.

(** The post shows the entry the suggestion refers to, in the columns of its kind, and
    keeps the other columns a binding may write; a flavour is linked to the post with the
    stance of the suggestion, and no other link of any post changes. *)
Record entry_bound (s : DS.t) (p p' : Post.t) (db db' : DB) : Prop := {
  eb_cuisine : DS.Kind s = SuggestionKindCuisine ->
    Post.CuisineID p' = DS.ResultingCuisineID s /\
    Post.CanteenID p' = Post.CanteenID p /\ Post.CanteenWindowID p' = Post.CanteenWindowID p;
  eb_canteen : DS.Kind s = SuggestionKindCanteen ->
    Post.CanteenID p' = DS.ResultingCanteenID s /\ Post.CanteenWindowID p' = None /\
    Post.CuisineID p' = Post.CuisineID p;
  eb_window : DS.Kind s = SuggestionKindCanteenWindow ->
    Post.CanteenID p' = DS.ParentCanteenID s /\
    Post.CanteenWindowID p' = DS.ResultingWindowID s /\ Post.CuisineID p' = Post.CuisineID p;
  eb_flavor : DS.Kind s = SuggestionKindFlavor ->
    Post.CanteenID p' = Post.CanteenID p /\ Post.CanteenWindowID p' = Post.CanteenWindowID p /\
    Post.CuisineID p' = Post.CuisineID p /\
    exists i stance, DS.ResultingFlavorID s = Some i /\ DS.FlavorStance s = Some stance /\
      post_flavors db' =
        <[(Post.ID p, i) := PostFlavor.mk (Post.ID p) i stance (Post.PostType p)]> (post_flavors db);
  eb_links : DS.Kind s <> SuggestionKindFlavor -> post_flavors db' = post_flavors db;
}.

Lemma bound_entry s parent reviewer now note t result field db0 p revision now' db db' :
  landed s parent db0 (result, field) ->
  flavors_bound s p result (post_flavors db) (post_flavors db') ->
  entry_bound ((approved_fields (DS.Kind s) parent reviewer now note field result s)
      <| DS.UpdatedAt := t |>) p (bound_fields (DS.Kind s) result parent revision now' p) db db'.
Proof.
  intros Hl [Hf Hnf]. unfold approved_fields, setSuggestionResult, bound_fields, bind_columns.
  destruct Hl as [(Hk & -> & _)|[(Hk & -> & _)|[(Hk & -> & _)|(Hk & -> & _)]]];
    rewrite Hk in *; repeat case_bool_decide; try discriminate; split; cbn; rewrite ?Hk;
    try discriminate; try done; intros _; try (by apply Hnf).
  destruct (Hf eq_refl) as (stance & ? & ?). split_and!; [done..|]. by exists result, stance.
Qed.

Lemma update_by_id id f (t : gmap Z Post.t) p : keyed Post.ID t -> t !! id = Some p ->
  snd (update_where (PostRepository.by_id id) f t) = <[id := f p]> t.
Proof.
  intros Hk Hp. apply map_eq. intros k. rewrite update_where_lookup.
  unfold PostRepository.by_id. destruct (decide (k = id)) as [->|Hne].
  - rewrite lookup_insert_eq, Hp. cbn. by rewrite (Hk _ _ Hp), Z.eqb_refl.
  - rewrite lookup_insert_ne by done. destruct (t !! k) as [q|] eqn:Hq; [|done]. cbn.
    rewrite (Hk _ _ Hq). by rewrite (proj2 (Z.eqb_neq k id)).
Qed.

Lemma entering_links db db' : entering db db' -> post_flavors db' = post_flavors db.
Proof. intros [|T D item K _ _]; [done|]. by destruct K. Qed.

(** What an approval makes of the post of the suggestion. *)
Lemma approval_post id reviewer input (tx : TxD) v tx' s postID p :
  Approve id reviewer input tx = (inr v, tx') -> dict_ok (tx_db tx) -> posts_ok (tx_db tx) ->
  dictionary_suggestions (tx_db tx) !! id = Some s -> DS.PostID s = Some postID ->
  posts (tx_db tx) !! postID = Some p -> PostRepository.undeleted p = true ->
  exists s' p' k h,
    dictionary_suggestions (tx_db tx') !! id = Some s' /\ proposal s' = proposal s /\
    approved_entry s' (tx_db tx') /\ entry_bound s' p p' (tx_db tx) (tx_db tx') /\
    posts (tx_db tx') = <[postID := p']> (posts (tx_db tx)) /\
    unbound p' = unbound p /\ Post.Status p' = Post.Status p /\
    Post.CurrentRevision p' = PostRepository.next_revision postID (tx_db tx) /\
    post_histories (tx_db tx) !! k = None /\
    post_histories (tx_db tx') = <[k := h]> (post_histories (tx_db tx)) /\
    PostHistory.PostID h = postID /\ PostHistory.Revision h = Post.CurrentRevision p' /\
    PostHistory.EditedBy h = reviewer /\
    PostHistory.Snapshot h = snapshotFromCurrent p' (relations_at postID (tx_db tx')) /\
    moderation_records (tx_db tx') = moderation_records (tx_db tx).
Proof.
  intros E Ho Hok Hs Hpid Hp Hu.
  destruct (Approve_inr _ _ _ _ _ _ E Ho) as (s0 & s' & parent & post & [result field] & db1 & HA).
  destruct (approval_dictionaries _ _ _ _ _ _ _ _ _ _ _ _ HA) as [Hent Hsug].
  destruct HA as [Hs0 Hpend Hpar Hsrc Hen Hl (now0 & note & t & Hrow) _ Ht _]. cbn [fst snd] in *.
  rewrite Hs in Hs0. injection Hs0 as <-.
  rewrite (source_post_found _ _ _ _ _ (ok_posts _ Hok) Hpid Hp Hu Hsrc) in Ht.
  destruct Ht as (now & rev & k & h & flavored & Hrev & Hk & Hhp & Hhr & Hby & Hsnap & Hfl & Hdb).
  assert (Post.ID p = postID) as Hid by (by apply (ok_posts _ Hok)). rewrite Hid in *.
  pose proof (entering_histories _ _ Hen) as Hh. pose proof (entering_posts _ _ Hen) as Hps.
  exists s', (bound_fields (DS.Kind s) result parent rev now p), k, h.
  assert (post_flavors (tx_db tx') = flavored) as Hf' by (by rewrite Hdb).
  cbn in Hfl, Hk, Hrev. rewrite (entering_links _ _ Hen) in Hfl. rewrite Hh in Hk.
  split_and!; try done.
  - rewrite Hsug. apply lookup_insert_eq.
  - rewrite Hrow. by apply rv_proposal, approved_review.
  - rewrite Hrow. eapply approved_entry_same; [exact Hent|]. by eapply landed_entry.
  - rewrite Hrow. eapply bound_entry; [done|]. by rewrite Hf'.
  - rewrite Hdb. unfold set_posts. cbn -[update_where]. rewrite Hps.
    by apply update_by_id, Hp; apply (ok_posts _ Hok).
  - apply binds_columns.
  - unfold bound_fields, bind_columns. by repeat case_match.
  - rewrite Hrev. unfold PostRepository.next_revision. cbn. by rewrite Hh.
  - rewrite Hdb. cbn. by rewrite Hh.
  - rewrite Hdb. cbn. by rewrite (entering_records _ _ Hen).
Qed.

(** C16: An approval binds the post of the suggestion to the entry and leaves it with a
    version nobody judged.  The post shows the entry the approved suggestion refers to (an
    active entry with the proposed name) in the columns of its kind ([entry_bound]), or is
    linked to the flavour with the stance of the suggestion; the other columns and every
    other post are as before.  What the post now shows is stored as a new version by this
    administrator and is its current one; no moderation record is about that version.  An
    approved post therefore shows what no moderation saw ([posts_ok] no longer holds), and a
    post that waits for a verdict can no longer be approved by the verdicts on its images, as
    [ReconcilePendingPosts] asks for a text verdict on the current version. *)
Theorem approval_leaves_version_unjudged id reviewer input (tx : TxD) v tx' s postID p :
  Approve id reviewer input tx = (inr v, tx') -> dict_ok (tx_db tx) -> posts_ok (tx_db tx) ->
  dictionary_suggestions (tx_db tx) !! id = Some s -> DS.PostID s = Some postID ->
  posts (tx_db tx) !! postID = Some p -> PostRepository.undeleted p = true ->
  exists s' p',
    (dictionary_suggestions (tx_db tx') !! id = Some s' /\ proposal s' = proposal s /\
     approved_entry s' (tx_db tx') /\ entry_bound s' p p' (tx_db tx) (tx_db tx')) /\
    posts (tx_db tx') = <[postID := p']> (posts (tx_db tx)) /\
    unbound p' = unbound p /\ Post.Status p' = Post.Status p /\
    ~ has_version (tx_db tx) postID (Post.CurrentRevision p') /\
    (exists k h, post_histories (tx_db tx) !! k = None /\
       post_histories (tx_db tx') = <[k := h]> (post_histories (tx_db tx)) /\
       PostHistory.PostID h = postID /\ PostHistory.Revision h = Post.CurrentRevision p' /\
       PostHistory.EditedBy h = reviewer /\
       PostHistory.Snapshot h = snapshotFromCurrent p' (relations_at postID (tx_db tx'))) /\
    ModerationRepository.text_verdict p' (tx_db tx') = None /\
    ModerationRepository.to_approve (tx_db tx') p' = false /\
    (Post.Status p = PostStatusApproved -> ~ posts_ok (tx_db tx')).
Proof.
  intros E Ho Hok Hs Hpid Hp Hu.
  destruct (approval_post _ _ _ _ _ _ _ _ _ E Ho Hok Hs Hpid Hp Hu) as
    (s' & p' & k & h & Hs' & Hprop & Hen & Heb & Hps & Hub & Hst & Hcur & Hk & Hh & Hhp & Hhr &
     Hby & Hsnap & Hm).
  assert (Post.ID p = postID) as Hid by (by apply (ok_posts _ Hok)).
  assert (Post.ID p' = postID) as Hid'.
  { rewrite <- Hid. by apply (f_equal Post.ID) in Hub. }
  assert (~ has_version (tx_db tx) postID (Post.CurrentRevision p')) as Hnew.
  { rewrite Hcur. apply next_revision_new. }
  assert (ModerationRepository.text_verdict p' (tx_db tx') = None) as Hv.
  { unfold ModerationRepository.text_verdict. rewrite Hid'.
    replace (newest _ _) with (newest (of_revision postID (Post.CurrentRevision p')) (tx_db tx))
      by (unfold newest; by rewrite Hm).
    by rewrite unjudged_newest. }
  exists s', p'. split_and!; try done.
  - by exists k, h.
  - unfold ModerationRepository.to_approve. rewrite Hv. apply andb_false_r.
  - intros Ha Hok'. rewrite <- Hst in Ha.
    destruct (ok_approved _ Hok' postID p') as (k' & r & Hr & Hof & _ & _); [|done|].
    { by rewrite Hps, lookup_insert_eq. }
    rewrite Hm in Hr. apply of_revision_spec in Hof as [Hpo Hvo].
    destruct (ok_texts _ Hok _ _ _ Hr Hpo) as (_ & v' & Hv' & Hh'). congruence.
Qed.

(** ** Names no dictionary can hold *)
Lemma entering_ok db db' : entering db db' -> dict_ok db -> dict_ok db'.
Proof. intros [|T D item K Hn He]; [done|]. eapply dict_write_ok. by apply write_insert. Qed.

Lemma usable_width {T} (D : Dictionary T) `{!DictionaryLaws T} name fits db id :
  table_ok T db -> usable (T := T) name fits db id -> d_width name = true.
Proof.
  intros Ht (r & Hr & _ & <- & _). destruct (Ht _ _ Hr) as [_ [Hv _ _]]. by apply dl_width.
Qed.

(** A suggestion of a flavour or a cuisine whose name is longer than the 50 characters
    of its dictionary can never be approved, by anybody, with any input (an existing entry
    included); such a suggestion is accepted when it is submitted, with up to 100. *)
Theorem long_name_never_approved id reviewer input (tx : TxD) s r tx' :
  dict_ok (tx_db tx) -> dictionary_suggestions (tx_db tx) !! id = Some s ->
  DS.Kind s = SuggestionKindFlavor \/ DS.Kind s = SuggestionKindCuisine ->
  varchar 50 (DS.ProposedName s) = false ->
  Approve id reviewer input tx = (r, tx') -> exists err, r = inl err.
Proof.
  intros Ho Hs Hk Hlong E. destruct r as [err|v]; [by exists err|]. exfalso.
  destruct (Approve_inr _ _ _ _ _ _ E Ho) as (s0 & s' & parent & post & [result field] & db1 & HA).
  destruct HA as [Hs0 _ _ _ Hen Hl _ _ _ _]. rewrite Hs in Hs0. injection Hs0 as <-.
  destruct (entering_ok _ _ Hen Ho) as [Hf Hcu _ _ _].
  destruct Hl as [(_ & _ & Hu)|[(_ & _ & Hu)|[(Hk' & _)|(Hk' & _)]]].
  - apply usable_width in Hu; [|apply _|done]. cbn in Hu. congruence.
  - apply usable_width in Hu; [|apply _|done]. cbn in Hu. congruence.
  - rewrite Hk' in Hk. by destruct Hk.
  - rewrite Hk' in Hk. by destruct Hk.
Qed.
End approving.
