(* ===== verification/DictionaryExamples.v ===== *)
(** * The dictionaries: runs of the model

    A flavour suggested for a post and approved, a canteen and a window suggested
    together, a name too long for its dictionary.  The hypotheses of the theorems on the
    dictionaries met. *)

From S2P Require Import Prelude.
From S2P Require Import GoText.
From S2P Require Import Apierr.
From S2P Require Import Effects.
From S2P Require Import Logic.
From S2P Require Import Model.
From S2P Require Import Validation.
From S2P Require Import Digest.
From S2P Require Import AuthRepo.
From S2P Require Import AuthService.
From S2P Require Import AuthHandler.
From S2P Require Import AuthTables.
From S2P Require Import AuthCodes.
From S2P Require Import Money.
From S2P Require Import PostValidation.
From S2P Require Import PostRepo.
From S2P Require Import UserRepo.
From S2P Require Import Moderation.
From S2P Require Import PostService.
From S2P Require Import CommentService.
From S2P Require Import PostTables.
From S2P Require Import PostProps.
From S2P Require Import PostGate.
From S2P Require Import Bystanders.
From S2P Require Import Names.
From S2P Require Import DictionaryRepo.
From S2P Require Import DictionaryService.
From S2P Require Import DictionaryWrites.
From S2P Require Import DictionaryProps.
From S2P Require Import DictionarySystem.
From S2P Require Import DictionaryApproval.
From S2P Require Import Concrete.
From S2P Require Import PostExamples.
From S2P Require Import CommentExamples.
Import DictionaryRepository DictionaryService.
Open Scope Z_scope.

Definition dict_unit (op : DictOp) (w : World DB unit) : (goerr + unit) * World DB unit :=
  RunInTx interp_before (run_dict op) w.
Definition then_ (w : World DB unit) (op : DictOp) : World DB unit := snd (dict_unit op w).

Definition suggests (kind name : string) (post : option Z) (stance : option string)
    (parent : option Z) : DictOp :=
  OpSuggest (mkCreateSuggestion kind name post stance None parent) 1.
Definition plain : ApproveSuggestionInput := mkApprove None None None None 5 None.
Definition suggestion_of (w : World DB unit) (id : Z) : option (string * string * option Z) :=
  (fun s => (DS.ProposedName s, DS.Status s, DS.ReviewerID s)) <$>
    dictionary_suggestions (w_db w) !! id.

(** ** A flavour for a post *)
Definition w_suggested : World DB unit :=
  then_ w_shown (suggests SuggestionKindFlavor " sour " (Some post0) (Some FlavorStanceHas) None).
Definition tx_suggested : TxD := begin_tx false w_suggested.
Definition approved0 := Approve 111 2 plain tx_suggested.
Definition w_approved : World DB unit := then_ w_suggested (OpApprove 111 2 plain).

(** The post was approved and stays so; it now shows version 2, nobody's judgement. *)
Example flavour_approved :
  suggestion_of w_suggested 111 = Some ("sour"%string, SuggestionStatusPending, None) /\
  suggestion_of w_approved 111 = Some ("sour"%string, SuggestionStatusApproved, Some 2) /\
  (fun p => (Post.Status p, Post.CurrentRevision p)) <$> posts (w_db w_shown) !! post0
    = Some (PostStatusApproved, 1) /\
  (fun p => (Post.Status p, Post.CurrentRevision p)) <$> posts (w_db w_approved) !! post0
    = Some (PostStatusApproved, 2) /\
  fst (dict_unit (OpApprove 111 1 plain) w_approved) = fst (dict_unit (OpReject 111 1 "no") w_approved).
Proof. split_and!; vm_compute; reflexivity. Qed.

(** ** A canteen and its window *)
Definition w_window : World DB unit :=
  then_ (then_ w_approved (suggests SuggestionKindCanteen "North" None None None))
    (suggests SuggestionKindCanteenWindow "Grill" None None (Some 114)).
Definition placed : ApproveSuggestionInput :=
  mkApprove None (Some "north"%string) (Some "Main"%string) None 1 None.
Definition w_canteen : World DB unit := then_ w_window (OpApprove 114 2 placed).
Definition w_placed : World DB unit := then_ w_canteen (OpApprove 115 2 plain).

Example window_after_canteen :
  fst (dict_unit (OpApprove 115 2 plain) w_window)
    = inl (EApi (Conflict BizSuggestionParentPending "必须先批准父餐厅提议")) /\
  suggestion_of w_placed 114 = Some ("North"%string, SuggestionStatusApproved, Some 2) /\
  suggestion_of w_placed 115 = Some ("Grill"%string, SuggestionStatusApproved, Some 2) /\
  fst (dict_unit (OpDeleteCanteen 116) w_placed)
    = inl (EApi (Conflict BizDictItemInUse "该词条已被引用，只能停用")).
Proof. split_and!; vm_compute; reflexivity. Qed.

(** ** The theorems at work *)
(** States are unfolded before the runs that lead to them. *)
#[local] Strategy 100 [then_].
#[local] Strategy 100 [after].
Abbreviation whole := (rtc (whole_step (X := unit) h0 services1 ia0)).

Lemma whole_unit op w : whole w (after op w).
Proof. apply rtc_once, step_others, step_unit, unit1_step. Qed.
Lemma whole_dict op w : whole w (then_ w op).
Proof. eapply rtc_once, (step_dictionary _ _ _ op). apply surjective_pairing. Qed.

Lemma image_dict_ok : dict_ok (w_db w_image).
Proof. split; try (intros k r Hk; cbn in Hk; by rewrite lookup_empty in Hk). Qed.

Lemma whole_ok (w w' : World DB unit) : whole w w' -> dict_ok (w_db w) -> dict_ok (w_db w').
Proof.
  intros Hs. exact (dk_ok _ _ (whole_step_kept h0 services1 queue0_surroundings ia0 ia0_db _ _ Hs)).
Qed.

Lemma run_shown : whole w_image w_shown.
Proof. etrans; [apply whole_unit|]. etrans; [apply whole_unit|]. apply whole_unit. Qed.
Lemma run_approved : whole w_suggested w_approved.
Proof. apply whole_dict. Qed.
Lemma run_suggested : whole w_image w_suggested.
Proof. etrans; [apply run_shown | apply whole_dict]. Qed.
Lemma run_placed : whole w_image w_placed.
Proof.
  etrans; [apply run_suggested|]. etrans; [apply run_approved|].
  etrans; [apply whole_dict|]. etrans; [apply whole_dict|].
  etrans; [apply whole_dict|]. apply whole_dict.
Qed.

Definition suggestion111 (w : World DB unit) : option DS.t :=
  dictionary_suggestions (w_db w) !! 111.

Lemma suggestion_decided_once_witness :
  match suggestion111 w_suggested, suggestion111 w_placed with
  | Some s, Some s' => DS.Status s' = SuggestionStatusApproved /\ proposal s' = proposal s
  | _, _ => False
  end.
Proof.
  destruct (suggestion111 w_suggested) as [s|] eqn:Hs; [|by vm_compute in Hs].
  assert (whole w_suggested w_placed) as Hr.
  { etrans; [apply run_approved|]. etrans; [apply whole_dict|]. etrans; [apply whole_dict|].
    etrans; [apply whole_dict|]. apply whole_dict. }
  destruct (suggestion_decided_once h0 services1 queue0_surroundings ia0 ia0_db _ _ 111 s Hr Hs)
    as (s' & Hs' & Hp & _).
  change (suggestion111 w_placed = Some s') in Hs'. rewrite Hs'. split; [|exact Hp].
  vm_compute in Hs'. by injection Hs' as <-.
Defined.

Lemma dictionary_integrity_witness :
  dict_ok (w_db w_image) /\ whole w_image w_placed /\ dict_ok (w_db w_placed) /\
  Canteen.Name <$> canteens (w_db w_placed) !! 116 = Some "North"%string.
Proof.
  split; [exact image_dict_ok|]. split; [exact run_placed|].
  split; [|vm_compute; reflexivity].
  exact (proj1 (dictionary_integrity h0 services1 queue0_surroundings ia0 ia0_db _ _ run_placed
    image_dict_ok)).
Defined.

Definition view0 : option SuggestionView :=
  match fst approved0 with inr v => Some v | inl _ => None end.

Lemma approved0_run v : view0 = Some v -> approved0 = (inr v, snd approved0).
Proof. unfold view0. destruct approved0 as [[e|v'] tx']; [done|]. by intros [= ->]. Qed.

Lemma approve_effect_witness :
  match view0 with
  | Some v => exists s s', dictionary_suggestions (tx_db tx_suggested) !! 111 = Some s /\
      dictionary_suggestions (tx_db (snd approved0)) =
        <[111 := s']> (dictionary_suggestions (tx_db tx_suggested)) /\
      approved_entry s' (tx_db (snd approved0))
  | None => False
  end.
Proof.
  destruct view0 as [v|] eqn:Hv; [|by vm_compute in Hv].
  destruct (approve_effect 111 2 plain tx_suggested v (snd approved0) (approved0_run v Hv)
    (whole_ok _ _ run_suggested image_dict_ok)) as (s & s' & Hs & _ & Hs' & _ & _ & _ & He & _).
  exists s, s'. exact (conj Hs (conj Hs' He)).
Defined.


Lemma suggested_posts_ok : posts_ok (w_db w_suggested).
Proof.
  assert (posts_ok (w_db w_shown)) as Ho.
  { repeat (eapply (unit_of_work_sound services1); [apply unit1_run|]). exact w_image_ok. }
  assert (view (w_db w_suggested) = view (w_db w_shown)) as Hv by (vm_compute; reflexivity).
  apply (view_posts_ok _ _ Hv), Ho.
Qed.

Definition source0 : option Post.t := posts (tx_db tx_suggested) !! post0.

Lemma approval_leaves_version_unjudged_witness :
  (Post.Status <$> source0) = Some PostStatusApproved /\
  exists s' p', dictionary_suggestions (tx_db (snd approved0)) !! 111 = Some s' /\
    (exists i, DS.ResultingFlavorID s' = Some i /\
       is_Some (post_flavors (tx_db (snd approved0)) !! (post0, i))) /\
    posts (tx_db (snd approved0)) !! post0 = Some p' /\
    ModerationRepository.text_verdict p' (tx_db (snd approved0)) = None /\
    ~ posts_ok (tx_db (snd approved0)).
Proof.
  split; [vm_compute; reflexivity|].
  destruct view0 as [v|] eqn:Hv; [|by vm_compute in Hv].
  destruct (suggestion111 w_suggested) as [s|] eqn:Hs; [|by vm_compute in Hs].
  destruct source0 as [p|] eqn:Hp; [|by vm_compute in Hp].
  assert (DS.PostID s = Some post0 /\ DS.Kind s = SuggestionKindFlavor) as [Hpost Hk]
    by (vm_compute in Hs; injection Hs as <-; split; reflexivity).
  assert (Post.ID p = post0) as Hid by (vm_compute in Hp; injection Hp as <-; reflexivity).
  assert (PostRepository.undeleted p = true /\ Post.Status p = PostStatusApproved) as [Hu Ha]
    by (vm_compute in Hp; injection Hp as <-; split; reflexivity).
  destruct (approval_leaves_version_unjudged 111 2 plain tx_suggested v (snd approved0) s post0 p
    (approved0_run v Hv) (whole_ok _ _ run_suggested image_dict_ok) suggested_posts_ok
    Hs Hpost Hp Hu)
    as (s' & p' & (Hs' & Hprop & _ & Heb) & Hps & _ & _ & _ & _ & Hn & _ & Hb).
  exists s', p'. split; [exact Hs'|].
  assert (DS.Kind s' = SuggestionKindFlavor) as Hk'
    by (unfold proposal in Hprop; rewrite <- Hk; congruence).
  destruct (eb_flavor _ _ _ _ _ Heb Hk') as (_ & _ & _ & i & stance & Hi & _ & Hl).
  split; [exists i; rewrite Hl, Hid; split; [exact Hi|eexists; apply lookup_insert_eq]|].
  split; [rewrite Hps; apply lookup_insert_eq|]. exact (conj Hn (Hb Ha)).
Defined.

(** ** A name of 51 letters *)
Definition long_name : string := string_of (repeat 97 51).
Definition w_long : World DB unit :=
  then_ w_shown (suggests SuggestionKindCuisine long_name None None None).

Example long_name_accepted :
  suggestion_of w_long 111 = Some (long_name, SuggestionStatusPending, None) /\
  match fst (dict_unit (OpApprove 111 2 plain) w_long) with
  | inl (EApi e) => Status e = 500
  | _ => False
  end.
Proof. split; vm_compute; reflexivity. Qed.

Lemma long_name_never_approved_witness :
  exists err, fst (Approve 111 2 plain (begin_tx false w_long)) = inl err.
Proof.
  destruct (suggestion111 w_long) as [s|] eqn:Hs; [|by vm_compute in Hs].
  assert (DS.Kind s = SuggestionKindCuisine /\ varchar 50 (DS.ProposedName s) = false) as [Hk Hn]
    by (vm_compute in Hs; injection Hs as <-; split; vm_compute; reflexivity).
  assert (whole w_image w_long) as Hr by (etrans; [apply run_shown | apply whole_dict]).
  destruct (long_name_never_approved 111 2 plain (begin_tx false w_long) s
    (fst (Approve 111 2 plain (begin_tx false w_long)))
    (snd (Approve 111 2 plain (begin_tx false w_long))) (whole_ok _ _ Hr image_dict_ok) Hs
    (or_intror Hk) Hn (surjective_pairing _)) as [err Herr].
  exists err. exact Herr.
Defined.
