(* ===== verification/ImageRetry.v ===== *)
(** * Submitting images for review again: the retry queue

    The image moderation port ([internal/service/moderation_ports.go]),
    [internal/repository/image_moderation_retry.go] (module
    [ImageModerationRetryRepository]) and
    [internal/service/image_moderation_retry_worker.go] (module
    [ImageModerationRetryWorker]).  An upload whose first submission failed leaves a row
    here; the worker claims due rows under leases, submits the images outside any
    transaction, and deletes, reschedules or dead-letters the row, fenced by the lease
    token.

    As for image access, the claims of a batch are different rows and are taken one
    after the other. *)

From S2P Require Import Prelude.
From S2P Require Import GoText.
From S2P Require Import Apierr.
From S2P Require Import Effects.
From S2P Require Import Logic.
From S2P Require Import Model.
From S2P Require Import Digest.
From S2P Require Import AuthRepo.
From S2P Require Import AuthService.
From S2P Require Import ImageAccess.
From S2P Require Import PostRepo.
From S2P Require Import Moderation.
Open Scope Z_scope.

(** ** internal/service/moderation_ports.go *)
Record ImageModerationRequest := mkImageRequest { ir_ImageAssetID : Z; ir_ObjectKey : string }.
Record ImageModerationSubmission := mkImageSubmission {
  is_Provider : string;
  is_ProviderJobID : option string;
  is_Immediate : option ImageModerationCallback;
}.

(** The [k]-th call of the provider. *)
Record ImageModerator := mkImageModerator {
  SubmitImage : nat -> ImageModerationRequest -> goerr + ImageModerationSubmission }.

Definition DirectPassImageModerator : ImageModerator := mkImageModerator (fun _ request =>
  inr (mkImageSubmission "dev_allow" None
    (Some (mkCallback (ir_ImageAssetID request) (ir_ObjectKey request) "dev_allow" ""
             ModerationVerdictPass [] None "")))).

Definition UnavailableImageModerator : ImageModerator := mkImageModerator (fun _ _ =>
  inl (EApi (WithCause (ServiceUnavailable "图片审核暂时不可用，请稍后再试")
               (ENew "image moderation provider is not configured")))).

(** ** internal/repository/image_moderation_retry.go *)
Module ImageModerationRetryRepository.
Section ops.
Context `{Env} `{Pg}.
Import ImageModerationRetry.

Record Claim := mkClaim { cl_row : t; ObjectKey : string; Moderation : string }.

Definition first_retry (imageAssetID : Z) (nextAttemptAt : time) (errorCode : string)
    (now : time) : t :=
  mk imageAssetID ImageModerationRetryPending 1 (Some nextAttemptAt) None None errorCode None
    now now.

(** [ON CONFLICT (image_asset_id) DO NOTHING], and the foreign key. *)
Definition enqueue (imageAssetID : Z) (nextAttemptAt : time) (errorCode : string) (now : time)
    (db : DB) : goerr + unit * DB :=
  match image_moderation_retries db !! imageAssetID with
  | Some _ => inr (tt, db)
  | None =>
      match image_assets db !! imageAssetID with
      | None => inl (EPg "23503" "image_moderation_retries_image_asset_id_fkey")
      | Some _ => inr (tt, db <| image_moderation_retries :=
          <[imageAssetID := first_retry imageAssetID nextAttemptAt errorCode now]>
            (image_moderation_retries db) |>)
      end
  end.
Definition Enqueue (imageAssetID : Z) (nextAttemptAt : time) (errorCode : string) (now : time)
    : MT unit := stmt (enqueue imageAssetID nextAttemptAt errorCode now).

Definition is_pending (r : t) : bool := bool_decide (State r = ImageModerationRetryPending).

Definition due (now : time) (r : t) : bool :=
  is_pending r &&
  match NextAttemptAt r with Some n => n <=? now | None => false end &&
  match LeaseUntil r with Some u => u <=? now | None => true end.

(** [ORDER BY next_attempt_at, image_asset_id]. *)
Definition next_at (r : t) : Z := match NextAttemptAt r with Some n => n | None => 0 end.
Definition earlier (a b : t) : bool :=
  (next_at a <? next_at b) ||
  (next_at a =? next_at b) && (ImageAssetID a <=? ImageAssetID b).

Definition leased (token : string) (until now : time) (r : t) : t :=
  r <| LeaseToken := Some token |> <| LeaseUntil := Some until |> <| UpdatedAt := now |>.

Definition candidates (now : time) (limit : nat) (db : DB) : list t :=
  firstn limit (sort_by earlier (select (due now) (image_moderation_retries db))).

Definition in_ids (l : list t) (r : t) : bool :=
  bool_decide (ImageAssetID r ∈ map ImageAssetID l).

Definition claim_of (db : DB) (r : t) : option Claim :=
  asset ← image_assets db !! ImageAssetID r;
  Some (mkClaim r (ImageAsset.ObjectKey asset) (ImageAsset.Moderation asset)).

Definition claim_due (now until : time) (token : string) (limit : nat) (db : DB)
    : list Claim * DB :=
  let cs := candidates now limit db in
  (omap (claim_of db) (sort_by earlier (map (leased token until now) cs)),
   db <| image_moderation_retries :=
     (fun r => if in_ids cs r then leased token until now r else r) <$>
       image_moderation_retries db |>).

Definition ClaimDue (now leaseUntil : time) (leaseToken : string) (limit : Z)
    : MT (list Claim) :=
  if (limit <=? 0) || (100 <? limit)
  then throw (ENew "image moderation retry claim limit must be between 1 and 100")
  else stmt (fun db => inr (claim_due now leaseUntil leaseToken (Z.to_nat limit) db)).

(** [image_asset_id = ? AND state = 'pending' AND lease_token = ?]. *)
Definition owned_row (claim : Claim) (r : t) : bool :=
  bool_decide (ImageAssetID r = ImageAssetID (cl_row claim)) && is_pending r &&
  bool_decide (LeaseToken r = Some (valueOrEmpty (LeaseToken (cl_row claim)))).

Definition update_claim (claim : Claim) (f : t -> t) : MT bool :=
  let* affected := stmt (fun db =>
    let '(n, rows) := update_where (owned_row claim) f (image_moderation_retries db) in
    inr (n, db <| image_moderation_retries := rows |>)) in
  mret (affected =? 1).

Definition rescheduled (attempts : Z) (nextAttemptAt : time) (errorCode : string) (now : time)
    (r : t) : t :=
  r <| Attempts := attempts |> <| NextAttemptAt := Some nextAttemptAt |>
    <| LeaseToken := None |> <| LeaseUntil := None |> <| LastErrorCode := errorCode |>
    <| UpdatedAt := now |>.
Definition RescheduleClaim (claim : Claim) (attempts : Z) (nextAttemptAt : time)
    (errorCode : string) (now : time) : MT bool :=
  update_claim claim (rescheduled attempts nextAttemptAt errorCode now).

Definition dead_lettered (attempts : Z) (now : time) (r : t) : t :=
  r <| State := ImageModerationRetryDeadLetter |> <| Attempts := attempts |>
    <| NextAttemptAt := None |> <| LeaseToken := None |> <| LeaseUntil := None |>
    <| LastErrorCode := "submit_exhausted"%string |> <| DeadLetteredAt := Some now |>
    <| UpdatedAt := now |>.
Definition DeadLetterClaim (claim : Claim) (attempts : Z) (now : time) : MT bool :=
  update_claim claim (dead_lettered attempts now).

Definition DeleteClaim (claim : Claim) : MT bool :=
  let* affected := stmt (fun db =>
    inr (Z.of_nat (length (select (owned_row claim) (image_moderation_retries db))),
         db <| image_moderation_retries :=
           delete_where (owned_row claim) (image_moderation_retries db) |>)) in
  mret (affected =? 1).

(** [GROUP BY state]: a state without rows has no entry. *)
Definition in_state (state : string) (db : DB) : Z :=
  Z.of_nat (length (where_ (fun r => bool_decide (State r = state))
                      (image_moderation_retries db))).
Definition count_by_state (db : DB) : gmap string Z :=
  list_to_map (map (fun r => (State r, in_state (State r) db))
                 (rows_of (image_moderation_retries db))).
Definition CountByState : MT (gmap string Z) := query count_by_state.
End ops.
End ImageModerationRetryRepository.

(** ** internal/service/image_moderation_retry_worker.go *)
Module ImageModerationRetryWorker.
Import ImageModerationRetryRepository.

Definition defaultImageModerationRetryBatchSize : Z := 4.
Definition defaultImageModerationRetryLease : duration := 45 * Second.
Definition defaultImageModerationRetryMaxAttempts : Z := 8.
Definition defaultImageModerationRetryBaseBackoff : duration := 30 * Second.
Definition defaultImageModerationRetryMaximumBackoff : duration := 30 * Minute.

(** The submit timeout only bounds the provider's call. *)
Record Options := mkOptions {
  BatchSize : Z;
  LeaseDuration : duration;
  MaxAttempts : Z;
  BaseBackoff : duration;
  MaxBackoff : duration;
}.

Definition withImageModerationRetryDefaults (o : Options) : Options :=
  let base := if BaseBackoff o <=? 0 then defaultImageModerationRetryBaseBackoff
              else BaseBackoff o in
  mkOptions
    (if (BatchSize o <=? 0) || (100 <? BatchSize o) then defaultImageModerationRetryBatchSize
     else BatchSize o)
    (if LeaseDuration o <=? 0 then defaultImageModerationRetryLease else LeaseDuration o)
    (if MaxAttempts o <=? 1 then defaultImageModerationRetryMaxAttempts else MaxAttempts o)
    base
    (if MaxBackoff o <? base then defaultImageModerationRetryMaximumBackoff else MaxBackoff o).

(** The applier is the moderation service, given by its image access controller. *)
Record Worker := mkWorker {
  moderator : ImageModerator; applier : ImageAccessController; options : Options }.
Definition NewImageModerationRetryWorker (m : ImageModerator) (a : ImageAccessController)
    (o : Options) : Worker := mkWorker m a (withImageModerationRetryDefaults o).

Definition imageModerationRetryBackoff (attempt : Z) (base maximum : duration) : duration :=
  ImageAccessWorker.retryBackoff attempt base maximum.
Definition initialImageModerationRetryAt (now : time) : time :=
  time_Add now defaultImageModerationRetryBaseBackoff.

Inductive Outcome := Rescheduled | Submitted | Concluded | Dead | Superseded.

Record Result := mkResult {
  Claimed : Z; nSubmitted : Z; nConcluded : Z; nRescheduled : Z; nDeadLettered : Z;
  nSuperseded : Z }.
#[global] Instance eta_Result : Eta Result := fun x =>
  mkResult (Claimed x) (nSubmitted x) (nConcluded x) (nRescheduled x) (nDeadLettered x)
    (nSuperseded x).

(** [submission.ProviderJobID == nil || strings.TrimSpace(...) == ""]. *)
Definition blank (s : string) : bool := bool_decide (TrimSpace s = ""%string).
Definition no_job (submission : ImageModerationSubmission) : bool :=
  match is_ProviderJobID submission with Some job => blank job | None => true end.

Section worker.
Context `{Env} `{Pg} `{Unicode} `{DbClock} `{!Interference DB}.
Import ImageModerationRetry.

Abbreviation W := (M (World DB (list ImageModerationRequest))).

Definition inTx {R} (fn : MT R) : W R := InTx interp_before fn.

(** One call of the provider, and its entry in the log. *)
Definition submit (m : ImageModerator) (request : ImageModerationRequest)
    : W (goerr + ImageModerationSubmission) := fun w =>
  (inr (SubmitImage m (length (w_ext w)) request), w <| w_ext := w_ext w ++ [request] |>).

Definition newImageModerationRetryLeaseToken : W string :=
  let* raw := RandReadW 16 in
  match raw with
  | Some b => mret (hex_encode b)
  | None => throw (ENew "crypto/rand")
  end.

Context (w : Worker).

(** [err], or [imageModerationRetrySuperseded] when no row was the claim's. *)
Definition fenced (write : MT bool) (outcome : Outcome) : W Outcome :=
  let* updated := inTx write in
  mret (if updated then outcome else Superseded).

Definition deleteClaim (claim : Claim) (outcome : Outcome) : W Outcome :=
  fenced (DeleteClaim claim) outcome.

(** [w.now()] is an argument inside the transaction's closure of the dead letter, and
    read before the transaction of the reschedule. *)
Definition failed (claim : Claim) (errorCode : string) : W Outcome :=
  let attempts := Attempts (cl_row claim) + 1 in
  if MaxAttempts (options w) <=? attempts then
    fenced (let* now := Now in DeadLetterClaim claim attempts now) Dead
  else
    let* now := NowW in
    let next := time_Add now (imageModerationRetryBackoff attempts
                  (BaseBackoff (options w)) (MaxBackoff (options w))) in
    fenced (RescheduleClaim claim attempts next errorCode now) Rescheduled.

(** The claim's identity replaces the callback's. *)
Definition callback_for (claim : Claim) (callback : ImageModerationCallback)
    : ImageModerationCallback :=
  mkCallback (ImageAssetID (cl_row claim)) (ObjectKey claim) (cb_Provider callback)
    (cb_ProviderJobID callback) (cb_Verdict callback) (cb_Labels callback) (cb_Score callback)
    (cb_RawResponse callback).

Definition applyImmediate (claim : Claim) (callback : ImageModerationCallback) : W Outcome :=
  let* _ := inTx (ModerationService.ApplyImageResult (applier w) (callback_for claim callback)) in
  mret Concluded.

Definition processClaim (claim : Claim) : W Outcome :=
  if negb (bool_decide (Moderation claim = ModerationStatusPending))
  then deleteClaim claim Superseded
  else
    let* answer := submit (moderator w)
      (mkImageRequest (ImageAssetID (cl_row claim)) (ObjectKey claim)) in
    match answer with
    | inl _ => failed claim "submit_failed"
    | inr submission =>
        match is_Immediate submission with
        | Some callback => applyImmediate claim callback
        | None =>
            if blank (is_Provider submission) || no_job submission
            then failed claim "invalid_submission"
            else deleteClaim claim Submitted
        end
    end.

(** An error comes with the outcome [Rescheduled]. *)
Definition count (o : Outcome) (r : Result) : Result :=
  match o with
  | Submitted => r <| nSubmitted := nSubmitted r + 1 |>
  | Concluded => r <| nConcluded := nConcluded r + 1 |>
  | Dead => r <| nDeadLettered := nDeadLettered r + 1 |>
  | Superseded => r <| nSuperseded := nSuperseded r + 1 |>
  | Rescheduled => r <| nRescheduled := nRescheduled r + 1 |>
  end.

Fixpoint process_all (claims : list Claim) (r : Result) (errs : list goerr)
    : W (Result * list goerr) :=
  match claims with
  | [] => mret (r, errs)
  | claim :: claims' =>
      let* o := attempt (processClaim claim) in
      match o with
      | inl err => process_all claims' (count Rescheduled r) (errs ++ [err])
      | inr outcome => process_all claims' (count outcome r) errs
      end
  end.

Definition RunBatch : W (Result * list goerr) :=
  let* now := NowW in
  let* token := newImageModerationRetryLeaseToken in
  let* claims := inTx (ClaimDue now (time_Add now (LeaseDuration (options w))) token
                         (BatchSize (options w))) in
  process_all claims (mkResult (Z.of_nat (length claims)) 0 0 0 0 0) [].
End worker.
End ImageModerationRetryWorker.
