(* ===== verification/ImageRetryProps.v ===== *)
(** * The retry queue of image moderation: constraints, turns, budget

    The constraints of migration 00016 and the attempt budget are an invariant of the
    worker; a turn without an immediate verdict moves the row as the pure function
    [turn_row] says; turns without an error are bounded; and a turn that fails, as with an
    immediate verdict that the moderation service refuses, is not counted at all. *)

From S2P Require Import Prelude.
From S2P Require Import GoText.
From S2P Require Import Apierr.
From S2P Require Import Effects.
From S2P Require Import Logic.
From S2P Require Import Model.
From S2P Require Import Digest.
From S2P Require Import AuthRepo.
From S2P Require Import AuthService.
From S2P Require Import ImageAccess.
From S2P Require Import PostRepo.
From S2P Require Import Moderation.
From S2P Require Import PostTables.
From S2P Require Import ImageRetry.
Open Scope Z_scope.
Import ImageModerationRetryRepository ImageModerationRetryWorker.
Import ImageModerationRetry.

Abbreviation retries := image_moderation_retries.

(** ** The checks of migration 00016, and the budget *)
Definition retry_states : list string :=
  [ImageModerationRetryPending; ImageModerationRetryDeadLetter].
Definition retry_codes : list string :=
  ["submit_failed"; "invalid_submission"; "submit_exhausted"]%string.

Record retry_ok (budget : Z) (r : t) : Prop := {
  ret_state : State r ∈ retry_states;
  ret_attempts : 0 < Attempts r;
  ret_lease_pair : LeaseToken r = None <-> LeaseUntil r = None;
  ret_lease_length : forall l, LeaseToken r = Some l -> (16 <= String.length l <= 64)%nat;
  ret_code : LastErrorCode r ∈ retry_codes;
  ret_next : State r = ImageModerationRetryDeadLetter <-> NextAttemptAt r = None;
  ret_dead : State r = ImageModerationRetryDeadLetter <-> DeadLetteredAt r <> None;
  ret_lease : State r <> ImageModerationRetryPending -> LeaseToken r = None;
  ret_budget : State r = ImageModerationRetryPending -> Attempts r < budget;
}.

Definition retries_ok (budget : Z) (db : DB) : Prop :=
  keyed ImageAssetID (retries db) /\ forall k r, retries db !! k = Some r -> retry_ok budget r.

Lemma first_retry_ok budget id next code now :
  1 < budget -> code ∈ retry_codes -> retry_ok budget (first_retry id next code now).
Proof. intros Hb Hc. split; try done; cbn; [in_list|lia..]. Qed.

Lemma lease_ok budget token until now r :
  (16 <= String.length token <= 64)%nat -> is_pending r = true -> retry_ok budget r ->
  retry_ok budget (leased token until now r).
Proof.
  intros Ht Hp Hr. apply bool_decide_eq_true in Hp. destruct Hr. split; try done.
  by intros l [= <-].
Qed.

Lemma rescheduled_ok budget attempts next code now r :
  0 < attempts < budget -> code ∈ retry_codes -> is_pending r = true -> retry_ok budget r ->
  retry_ok budget (rescheduled attempts next code now r).
Proof.
  intros Ha Hc Hp Hr. apply bool_decide_eq_true in Hp. destruct Hr.
  split; cbn; try done; try lia. rewrite Hp. by split.
Qed.

Lemma retry_buried_ok budget attempts now r :
  0 < attempts -> retry_ok budget r -> retry_ok budget (dead_lettered attempts now r).
Proof. intros Ha Hr. destruct Hr. split; try done; try in_list. Qed.

Lemma withDefaults_budget o : 1 < MaxAttempts (withImageModerationRetryDefaults o).
Proof. cbn. case_match; [done|lia]. Qed.

Lemma owned_pending claim r : owned_row claim r = true -> is_pending r = true.
Proof. unfold owned_row. by rewrite !andb_true_iff; intros [[_ ?] _]. Qed.

Lemma retry_owned_id claim r : owned_row claim r = true -> ImageAssetID r = ImageAssetID (cl_row claim).
Proof. unfold owned_row. rewrite !andb_true_iff, !bool_decide_eq_true. by intros [[? _] _]. Qed.

Lemma select_due_ok budget now limit db r :
  retries_ok budget db -> r ∈ candidates now limit db ->
  retry_ok budget r /\ is_pending r = true.
Proof.
  intros [_ Hok] Hr. apply elem_of_take in Hr as (i & Hr & _).
  apply list_elem_of_lookup_2, elem_of_sort_by, elem_of_select in Hr as [Hd [k Hk]].
  split; [by eapply Hok|]. unfold due in Hd. rewrite !andb_true_iff in Hd. by destruct_and?.
Qed.

Lemma retry_in_ids now limit db k r : keyed ImageAssetID (retries db) ->
  retries db !! k = Some r -> in_ids (candidates now limit db) r = true ->
  r ∈ candidates now limit db.
Proof.
  intros Hk Hr Hin. unfold in_ids in Hin. apply bool_decide_eq_true in Hin.
  apply list_elem_of_fmap in Hin as (r' & Hid & Hin). pose proof Hin as Hin'.
  apply elem_of_take in Hin as (i & Hin & _).
  apply list_elem_of_lookup_2, elem_of_sort_by, elem_of_select in Hin as [_ [k' Hk']].
  rewrite (Hk _ _ Hr), (Hk _ _ Hk') in Hid. by simplify_eq.
Qed.

(** ** The statements keep the constraints *)
(** What the statements of the moderation service do to the queue: rows go. *)
Definition fewer_retries (db db' : DB) : Prop := retries db' ⊆ retries db.
#[export] Instance fewer_preorder : PreOrder fewer_retries.
Proof. split; unfold fewer_retries; [by intros x|]. intros x y z. by transitivity (retries y). Qed.

Lemma fewer_ok budget db db' : fewer_retries db db' -> retries_ok budget db -> retries_ok budget db'.
Proof.
  intros Hf [Hk Hr]. split; [intros k r H|intros k r H]; apply (lookup_weaken _ _ _ _ H) in Hf.
  - by apply Hk.
  - by eapply Hr.
Qed.

(** An image access controller that leaves the queue alone. *)
Class RetryFree `{Env} (access : ImageAccessController) :=
  access_retries : forall a r p q, Keeps (unchanged retries) (Apply access a r p q).

#[export] Instance discard_retry_free `{Env} : RetryFree DiscardAccess.
Proof. intros a r p q. cbn. solve_keeps. Qed.
#[export] Instance durable_retry_free `{Env} : RetryFree DurableAccess.
Proof.
  intros a r p q. cbn. unfold DurableImageAccess_Apply, ImageAccessOutbox.Enqueue.
  solve_keeps. apply (keeps_stmt _). intros db n db' E. unfold unchanged.
  unfold ImageAccessOutbox.enqueue in E. repeat case_match; naive_solver.
Qed.

Section verdicts.
Context `{Env} `{Pg} `{Unicode} `{DbClock} (access : ImageAccessController) `{!RetryFree access}.

Lemma fewer_same {R} (m : MT R) : Keeps (unchanged retries) m -> Keeps fewer_retries m.
Proof. intros Hm tx r tx' E. apply Hm in E. unfold fewer_retries. by rewrite E. Qed.

Lemma fewer_DeleteForAsset id : Keeps fewer_retries (ModerationRepository.DeleteForAsset id).
Proof. apply (keeps_exec _). intros db. apply map_filter_subseteq. Qed.

Lemma fewer_machine r : Keeps fewer_retries (ModerationRepository.CreateMachineRecordIfNew r).
Proof.
  apply fewer_same. unfold ModerationRepository.CreateMachineRecordIfNew. solve_keeps.
  apply (keeps_stmt _). intros db x db'. case_match; [by intros [= _ <-]|].
  destruct (insert_record _ _ _) eqn:Ei; [done|]. intros [= _ <-].
  by apply insert_record_inr in Ei as (_ & _ & ->).
Qed.
Lemma fewer_image id st : Keeps fewer_retries (ModerationRepository.UpdateImageModeration id st).
Proof.
  apply fewer_same. unfold ModerationRepository.UpdateImageModeration.
  apply (keeps_found_row _), (keeps_stmt _). by intros db n db' [= _ <-].
Qed.
Lemma fewer_reconcile ids : Keeps fewer_retries (ModerationRepository.ReconcilePendingPosts ids).
Proof.
  apply fewer_same. unfold ModerationRepository.ReconcilePendingPosts,
    ModerationRepository.decide_posts. solve_keeps; apply (keeps_stmt _); by intros db n db' [= _ <-].
Qed.
Lemma fewer_access a r p q : Keeps fewer_retries (Apply access a r p q).
Proof. apply fewer_same, access_retries. Qed.
#[local] Hint Resolve fewer_DeleteForAsset fewer_machine fewer_image fewer_reconcile fewer_access : keeps.

Lemma fewer_applyImageResult callback job :
  Keeps fewer_retries (ModerationService.applyImageResult access callback job).
Proof.
  unfold ModerationService.applyImageResult, ModerationService.reconcileDuplicateImageResult,
    ModerationService.applyImageAccess, ModerationService.reconcileImageAccess,
    ModerationRepository.LockPendingPostsForImage, ModerationRepository.LockImagesForPosts,
    ModerationRepository.FindMachineRecordByProviderJobID.
  solve_keeps.
Qed.

(** [m] ends with the image's row deleted. *)
Abbreviation retries_keyed db := (keyed ImageAssetID (retries db)).

Lemma fewer_keyed db db' : fewer_retries db db' -> retries_keyed db -> retries_keyed db'.
Proof. intros Hf Hk k r Hr. apply Hk. by eapply lookup_weaken. Qed.

Definition Cleared (id : Z) {R} (m : MT R) : Prop :=
  forall tx r tx', m tx = (inr r, tx') -> retries_keyed (tx_db tx) ->
    retries (tx_db tx') !! id = None.

Lemma cleared_after {R Q} id (m : MT R) (k : R -> MT Q) :
  Keeps fewer_retries m -> (forall a, Cleared id (k a)) -> Cleared id (mbind m k).
Proof.
  intros Hm Hk tx r tx' E Ht. apply mbind_inr in E as (a & tx1 & E1 & E).
  eapply Hk; [exact E|]. eapply fewer_keyed; [|exact Ht]. by eapply Hm.
Qed.

Lemma cleared_last {R} id (x : R) :
  Cleared id (on_error (ModerationRepository.DeleteForAsset id) internal ;;; mret x).
Proof.
  intros tx r tx' E Hk. apply mbind_inr in E as (? & tx1 & E & [= _ <-]).
  apply on_error_inr in E as [E | (? & ? & _ & E)]; [|by apply internal_inr in E].
  apply exec_inr in E as (-> & _). cbn. unfold delete_where. rewrite map_lookup_filter.
  destruct (retries (tx_db tx) !! id) as [y|] eqn:Hy; [|done]. cbn.
  by rewrite option_guard_False; [|rewrite (Hk _ _ Hy), Z.eqb_refl].
Qed.

(** A result that was applied, new or not, leaves no retry of its image. *)
Lemma cleared_applyImageResult callback job :
  Cleared (cb_ImageAssetID callback) (ModerationService.applyImageResult access callback job).
Proof.
  unfold ModerationService.applyImageResult.
  repeat (apply cleared_after;
    [unfold ModerationRepository.LockPendingPostsForImage, ModerationRepository.LockImagesForPosts;
     solve_keeps | intros ?]).
  destruct a4 as [record|].
  - unfold ModerationService.applyImageAccess.
    repeat first [apply cleared_last | apply cleared_after; [solve_keeps | intros ?]].
  - unfold ModerationService.reconcileDuplicateImageResult.
    apply cleared_after; [unfold ModerationRepository.FindMachineRecordByProviderJobID; solve_keeps|].
    intros existing. case_match; [by intros tx r tx' [=]|].
    unfold ModerationService.reconcileImageAccess.
    repeat first [apply cleared_last | apply cleared_after; [solve_keeps | intros ?]].
Qed.
End verdicts.

Section statements.
Context `{Env} `{Pg} (budget : Z).
Abbreviation Ok := (retries_ok budget).

Lemma update_claim_ok claim f :
  (forall r, ImageAssetID (f r) = ImageAssetID r) ->
  (forall r, is_pending r = true -> retry_ok budget r -> retry_ok budget (f r)) ->
  Inv Ok (update_claim claim f) any.
Proof.
  intros Hid Hf. unfold update_claim. apply (inv_bind _ _ _ any); [|intros a _; by apply inv_mret].
  apply inv_stmt. intros db n db' [Hk Hr] E. cbn [update_where] in E. injection E as _ <-.
  split; [|done]. split; cbn.
  - apply keyed_fmap; [|done]. intros r. by case_match.
  - intros k r (r0 & <- & Hr0)%lookup_fmap_Some. case_match eqn:Ho; [|by eapply Hr].
    apply Hf; [by eapply owned_pending|by eapply Hr].
Qed.

Lemma DeleteClaim_ok claim : Inv Ok (DeleteClaim claim) any.
Proof.
  unfold DeleteClaim. apply (inv_bind _ _ _ any); [|intros a _; by apply inv_mret].
  apply inv_stmt. intros db n db' Hok [= _ <-]. split; [|done]. revert Hok.
  apply fewer_ok. apply map_filter_subseteq.
Qed.

Lemma ClaimDue_ok now until token limit :
  (16 <= String.length token <= 64)%nat ->
  Inv Ok (ClaimDue now until token limit)
    (fun claims => Forall (fun c => retry_ok budget (cl_row c)) claims).
Proof.
  intros Ht. unfold ClaimDue. case_match; [apply inv_throw|].
  apply inv_stmt. intros db claims db' Hok [= <- <-]. pose proof Hok as [Hk Hr]. split; [split|].
  - apply keyed_fmap; [|done]. intros r. by case_match.
  - cbn. intros k r (r0 & <- & Hr0)%lookup_fmap_Some. case_match eqn:Hin; [|by eapply Hr].
    apply (retry_in_ids _ _ _ _ _ Hk Hr0) in Hin. eapply select_due_ok in Hin as [? ?]; [|done].
    by apply lease_ok.
  - apply Forall_forall. intros c (r' & Hr' & Hc)%list_elem_of_omap. apply elem_of_sort_by in Hr'.
    apply list_elem_of_fmap in Hr' as (r & -> & Hin).
    assert (cl_row c = leased token until now r) as ->.
    { unfold claim_of in Hc. by destruct (image_assets db !! _); simplify_eq/=. }
    eapply select_due_ok in Hin as [? ?]; [|done]. by apply lease_ok.
Qed.
End statements.

Lemma keeps_inv `{Env} {R} (I : DB -> Prop) (m : MT R) : Keeps (preserves I) m -> Inv I m any.
Proof. intros Hm tx r tx' E Ht. split; [by eapply Hm | done]. Qed.

(** ** A batch *)
Section batch.
Context `{EnvOk} `{Pg} `{Unicode} `{DbClock} `{!Interference DB}.
Context (wk : Worker) `{!RetryFree (applier wk)}.
Abbreviation budget := (MaxAttempts (options wk)).
Abbreviation Ok := (retries_ok budget).
Context (Hothers : forall k db, Ok db -> Ok (others k db)).

Lemma invw_retryTx {R} (fn : MT R) phi : Inv Ok fn phi -> InvW (X := list ImageModerationRequest) Ok (inTx fn) phi.
Proof.
  apply invw_InTx; [done|]. intros [sid now]. apply inv_exec. intros db Hdb. exact Hdb.
Qed.

Lemma invw_fenced fn o : Inv Ok fn any -> InvW Ok (fenced fn o) any.
Proof.
  intros Hf. apply (invw_bind _ _ _ any); [by apply invw_retryTx|]. intros b _. by apply invw_mret.
Qed.

Lemma invw_deleteClaim claim o : InvW Ok (deleteClaim claim o) any.
Proof. apply invw_fenced, DeleteClaim_ok. Qed.

Lemma invw_failed claim code : code ∈ retry_codes -> retry_ok budget (cl_row claim) ->
  InvW Ok (failed wk claim code) any.
Proof.
  intros Hc Hr. pose proof (ret_attempts _ _ Hr). unfold failed.
  destruct (Z.leb_spec (MaxAttempts (options wk)) (Attempts (cl_row claim) + 1)).
  - apply invw_fenced. apply (inv_bind _ _ _ any); [apply inv_Now|]. intros now _.
    apply update_claim_ok; [done|]. intros r _. apply retry_buried_ok. lia.
  - apply (invw_bind _ _ _ any); [apply invw_NowW|]. intros now _.
    apply invw_fenced, update_claim_ok; [done|]. intros r. apply rescheduled_ok; [lia|done].
Qed.

Lemma invw_processClaim claim : retry_ok budget (cl_row claim) ->
  InvW Ok (processClaim wk claim) any.
Proof.
  intros Hr. unfold processClaim. case_match; [apply invw_deleteClaim|].
  apply (invw_bind _ _ _ any); [apply invw_same; by intros w r w' [= <- <-]|].
  intros [e|s] _; [apply invw_failed; [in_list|done]|].
  destruct (is_Immediate s) as [cb|].
  - apply (invw_bind _ _ _ any); [|intros a _; by apply invw_mret].
    apply invw_retryTx, keeps_inv. intros tx r tx' E. unfold preserves. apply fewer_ok.
    by eapply fewer_applyImageResult.
  - case_match; [apply invw_failed; [in_list|done] | apply invw_deleteClaim].
Qed.

Lemma invw_process_all claims : Forall (fun c => retry_ok budget (cl_row c)) claims ->
  forall r errs, InvW Ok (process_all wk claims r errs) any.
Proof.
  induction 1 as [|claim claims Hc _ IH]; intros r errs; cbn [process_all]; [by apply invw_mret|].
  apply (invw_bind _ _ _ any).
  - intros w o w' E Hw. 
    destruct (invw_attempt _ _ _ (invw_processClaim _ Hc) _ _ _ E Hw). done.
  - intros [e|o] _; apply IH.
Qed.

(** the constraints of the retry queue and the attempt budget are an invariant of a
    batch.  If the other processes keep them between the worker's transactions,
    [RunBatch] keeps every check of migration 00016 (states, attempts, lease pairs and
    lengths, error codes, [next_attempt_at] exactly for pending rows, [dead_lettered_at]
    exactly for dead ones, no lease on these) and pending rows stay below the budget,
    whatever the provider answers and wherever the batch stops. *)
Theorem retry_batch_invariant (w w' : World DB (list ImageModerationRequest)) r :
  RunBatch wk w = (r, w') -> Ok (w_db w) -> Ok (w_db w').
Proof.
  intros E Hdb. unfold RunBatch in E. unfold mbind at 1, NowW in E. cbn beta iota in E.
  unfold mbind at 1, newImageModerationRetryLeaseToken, RandReadW, mbind at 1 in E. cbn in E.
  destruct (env_rand (c_rand (w_ctr w)) 16) as [b|] eqn:Hb; [|by injection E as <- <-].
  assert (16 <= String.length (hex_encode b) <= 64)%nat as Hlen.
  { rewrite hex_encode_length. apply rand_length in Hb. lia. }
  refine (proj1 (invw_bind Ok _ _ _ any _ _ _ _ _ E Hdb)).
  - by apply invw_retryTx, ClaimDue_ok.
  - intros claims Hclaims. by apply invw_process_all.
Qed.
End batch.

(** ** What a turn makes of the row *)
(** The decision, as a function of the claim, the provider's answer and the clock; [None]
    is a row deleted.  Immediate verdicts are not its business. *)
Definition failed_row (o : Options) (code : string) (now : time) (r : t) : Outcome * option t :=
  let attempts := Attempts r + 1 in
  if MaxAttempts o <=? attempts then (Dead, Some (dead_lettered attempts now r))
  else (Rescheduled, Some (rescheduled attempts
          (now + imageModerationRetryBackoff attempts (BaseBackoff o) (MaxBackoff o)) code now r)).

Definition accepted (s : ImageModerationSubmission) : bool :=
  negb (blank (is_Provider s) || no_job s).

Definition turn_row (o : Options) (moderation : string)
    (answer : goerr + ImageModerationSubmission) (now : time) (r : t) : Outcome * option t :=
  if negb (bool_decide (moderation = ModerationStatusPending)) then (Superseded, None)
  else match answer with
  | inl _ => failed_row o "submit_failed" now r
  | inr s => if accepted s then (Submitted, None) else failed_row o "invalid_submission" now r
  end.

Lemma InTx_runs `{Faultless} {A B X R} `{!Interference DB} interp (fn : M (Tx DB B A) R)
    (w : World DB X) v tx :
  fn (begin_tx false (interfere w)) = (inr v, tx) -> tx_before tx = [] -> tx_aborted tx = false ->
  InTx interp fn w = (inr v, committed (interfere w) tx).
Proof.
  intros E Hb Ha. unfold InTx, RunInTx. rewrite faultless_begin, E.
  unfold BeforeCommitQueue_Run. rewrite Hb. cbn [run_before mret]. unfold commit_error. cbn.
  by rewrite Ha, faultless_commit.
Qed.

Section turn.
Context `{Faultless} `{Pg} `{Unicode} `{DbClock} `{!Interference DB}.
Context (Hquiet : forall k db, retries (others k db) = retries db).
Context (wk : Worker).
Abbreviation WorldR := (World DB (list ImageModerationRequest)).

(** The claim is a copy of the row of [id], leased under a token. *)
Record holds (id : Z) (claim : Claim) (w : WorldR) : Prop := {
  h_keyed : keyed ImageAssetID (retries (w_db w));
  h_row : retries (w_db w) !! id = Some (cl_row claim);
  h_pending : is_pending (cl_row claim) = true;
  h_leased : LeaseToken (cl_row claim) <> None;
}.

Lemma holds_id id claim w : holds id claim w -> ImageAssetID (cl_row claim) = id.
Proof. intros Hh. by apply (h_keyed _ _ _ Hh), h_row. Qed.

Lemma holds_owned id claim w : holds id claim w -> owned_row claim (cl_row claim) = true.
Proof.
  intros Hh. unfold owned_row. rewrite (h_pending _ _ _ Hh).
  destruct (LeaseToken (cl_row claim)) eqn:Hl; [|by apply (h_leased _ _ _ Hh) in Hl].
  by rewrite !bool_decide_eq_true_2.
Qed.

(** A fenced transaction that finds its row. *)
Definition leaves (w : WorldR) (id : Z) (row : option t) (r : goerr + Outcome) (o : Outcome)
    (w' : WorldR) : Prop :=
  r = inr o /\ w_ext w' = w_ext w /\
  retries (w_db w') = partial_alter (fun _ => row) id (retries (w_db w)).

Lemma fenced_leaves id row fn o w :
  (forall tx : TxD, tx_aborted tx = false -> retries (tx_db tx) = retries (w_db w) ->
     c_now (tx_ctr tx) = c_now (w_ctr w) -> exists tx', fn tx = (inr true, tx') /\ tx_aborted tx' = false /\
       tx_before tx' = tx_before tx /\
       retries (tx_db tx') = partial_alter (fun _ => row) id (retries (tx_db tx))) ->
  exists r w', fenced fn o w = (r, w') /\ leaves w id row r o w'.
Proof.
  intros Hfn. destruct (Hfn (begin_tx false (interfere w))) as (tx & E & Ha & Hb & Hr);
    [done|by cbn|done|].
  unfold fenced, inTx, mbind. rewrite (InTx_runs _ _ _ _ _ E) by done. do 2 eexists.
  split; [reflexivity|]. split; [done|]. split; [done|]. cbn. rewrite Hr. cbn. by rewrite Hquiet.
Qed.

Lemma update_claim_runs id claim f w (tx : TxD) :
  holds id claim w -> tx_aborted tx = false -> retries (tx_db tx) = retries (w_db w) ->
  exists tx', update_claim claim f tx = (inr true, tx') /\ tx_aborted tx' = false /\
    tx_before tx' = tx_before tx /\
    retries (tx_db tx') = partial_alter (fun _ => Some (f (cl_row claim))) id (retries (tx_db tx)).
Proof.
  intros Hh Ha Hr. pose proof (holds_id _ _ _ Hh) as Hid. pose proof (holds_owned _ _ _ Hh) as Ho.
  destruct Hh as [Hk Hrow _ _]. rewrite <- Hr in Hk, Hrow.
  destruct (update_where (owned_row claim) f (retries (tx_db tx))) as [n rows] eqn:E.
  pose proof (update_fenced ImageAssetID _ _ _ id _ _ Hk
    (fun r Hr => eq_trans (retry_owned_id _ _ Hr) Hid) E) as [(-> & r & Hr' & _ & ->)|(_ & _ & Hno)].
  - rewrite Hrow in Hr'. injection Hr' as <-. unfold update_claim, mbind.
    erewrite stmt_ok; [|done|by rewrite E]. eexists. split; [reflexivity|]. done.
  - by rewrite (Hno _ Hrow) in Ho.
Qed.

Lemma DeleteClaim_runs id claim w (tx : TxD) :
  holds id claim w -> tx_aborted tx = false -> retries (tx_db tx) = retries (w_db w) ->
  exists tx', DeleteClaim claim tx = (inr true, tx') /\ tx_aborted tx' = false /\
    tx_before tx' = tx_before tx /\
    retries (tx_db tx') = partial_alter (fun _ => None) id (retries (tx_db tx)).
Proof.
  intros Hh Ha Hr. pose proof (holds_id _ _ _ Hh) as Hid. pose proof (holds_owned _ _ _ Hh) as Ho.
  destruct Hh as [Hk Hrow _ _]. rewrite <- Hr in Hk, Hrow.
  unfold DeleteClaim, mbind. erewrite stmt_ok; [|done|reflexivity].
  rewrite (select_one ImageAssetID _ _ id (cl_row claim)); [|done| |done|done].
  2:{ intros r Hr'. by rewrite (retry_owned_id _ _ Hr'). }
  eexists. split; [reflexivity|]. split; [done|]. split; [done|]. cbn.
  apply map_eq. intros k. unfold delete_where. rewrite map_lookup_filter.
  destruct (decide (k = id)) as [->|Hne].
  - rewrite lookup_partial_alter_eq, Hrow. cbn. by rewrite Ho.
  - rewrite lookup_partial_alter_ne by done.
    destruct (retries (tx_db tx) !! k) as [r|] eqn:Hk'; [|done]. cbn.
    rewrite option_guard_True; [done|]. destruct (owned_row claim r) eqn:Hr'; [|done].
    apply retry_owned_id in Hr'. rewrite (Hk _ _ Hk') in Hr'. congruence.
Qed.

Definition request_of (claim : Claim) : ImageModerationRequest :=
  mkImageRequest (ImageAssetID (cl_row claim)) (ObjectKey claim).
Definition answer_in (w : WorldR) (claim : Claim) : goerr + ImageModerationSubmission :=
  SubmitImage (moderator wk) (length (w_ext w)) (request_of claim).
Definition asks (claim : Claim) : bool :=
  bool_decide (Moderation claim = ModerationStatusPending).

Lemma failed_leaves id claim code w o row : holds id claim w ->
  failed_row (options wk) code (env_now (c_now (w_ctr w))) (cl_row claim) = (o, row) ->
  exists r w', failed wk claim code w = (r, w') /\ leaves w id row r o w'.
Proof.
  intros Hh. unfold failed, failed_row. destruct (Z.leb_spec (MaxAttempts (options wk))
    (Attempts (cl_row claim) + 1)) as [Hm|Hm]; intros [= <- <-].
  - apply fenced_leaves. intros tx Ha Hr Hn. rewrite mbind_Now, Hn.
    exact (update_claim_runs id claim _ w (tick tx) Hh Ha Hr).
  - unfold mbind at 1. cbn beta iota.
    destruct (fenced_leaves id (Some (rescheduled (Attempts (cl_row claim) + 1)
      (env_now (c_now (w_ctr w)) + imageModerationRetryBackoff (Attempts (cl_row claim) + 1)
         (BaseBackoff (options wk)) (MaxBackoff (options wk))) code
      (env_now (c_now (w_ctr w))) (cl_row claim)))
      (RescheduleClaim claim (Attempts (cl_row claim) + 1)
        (time_Add (env_now (c_now (w_ctr w))) (imageModerationRetryBackoff (Attempts (cl_row claim) + 1)
         (BaseBackoff (options wk)) (MaxBackoff (options wk)))) code (env_now (c_now (w_ctr w))))
      Rescheduled (snd (NowW w))) as (r & w' & E & Hl); [|by exists r, w'].
    intros tx Ha Hr _. by apply (update_claim_runs id claim _ w).
Qed.

(** what a turn of the retry worker makes of its row.  Without faults, and while
    nobody else writes the queue, the worker asks the provider exactly when the image is
    still unjudged; a row whose submission is accepted, or whose image is judged already,
    is deleted; a refused or unusable submission reschedules it with the attempt counted
    and the exponential delay, or dead-letters it once the budget is used up; no other
    row changes and the reported outcome is that one. *)
Theorem retry_turn_effect id claim (w : WorldR) o row :
  holds id claim w ->
  (asks claim = true -> forall s, answer_in w claim = inr s -> is_Immediate s = None) ->
  turn_row (options wk) (Moderation claim) (answer_in w claim) (env_now (c_now (w_ctr w)))
    (cl_row claim) = (o, row) ->
  exists w', processClaim wk claim w = (inr o, w') /\
    retries (w_db w') = partial_alter (fun _ => row) id (retries (w_db w)) /\
    w_ext w' = w_ext w ++ (if asks claim then [request_of claim] else []).
Proof.
  intros Hh Himm E. unfold turn_row in E. unfold processClaim, asks in *.
  destruct (bool_decide (Moderation claim = ModerationStatusPending)) eqn:Hp; cbn [negb] in *.
  - unfold mbind, submit. cbn beta iota. fold (request_of claim). fold (answer_in w claim).
    set (w1 := w <| w_ext := w_ext w ++ [request_of claim] |>).
    assert (holds id claim w1) as Hh1 by (by destruct Hh).
    assert (forall m : M WorldR Outcome, (exists r w', m w1 = (r, w') /\ leaves w1 id row r o w') ->
      exists w', m w1 = (inr o, w') /\
        retries (w_db w') = partial_alter (fun _ => row) id (retries (w_db w)) /\
        w_ext w' = w_ext w ++ [request_of claim]) as Hdone.
    { intros m (r & w' & Em & -> & Hx & Hr). by exists w'. }
    destruct (answer_in w claim) as [e|s] eqn:Ha.
    + apply Hdone. by apply failed_leaves.
    + rewrite (Himm eq_refl s eq_refl). unfold accepted in E.
      destruct (blank (is_Provider s) || no_job s); cbn [negb] in E.
      * apply Hdone. by apply failed_leaves.
      * injection E as <- <-. apply Hdone. apply fenced_leaves. intros tx Ht Hr _.
        by apply (DeleteClaim_runs id claim w).
  - injection E as <- <-. rewrite app_nil_r.
    destruct (fenced_leaves id None (DeleteClaim claim) Superseded w) as (r & w' & Er & -> & Hx & Hr).
    { intros tx Ht Hr _. by apply (DeleteClaim_runs id claim w). }
    by exists w'.
Qed.
End turn.

(** ** The budget *)
Lemma backoff_loop_le fuel index attempt delay maximum :
  ImageAccessWorker.backoff_loop fuel index attempt delay maximum <= maximum.
Proof.
  revert index delay. induction fuel as [|fuel IH]; intros index delay; cbn; [lia|].
  case_match; [|lia]. case_match; [lia|]. apply IH.
Qed.

Lemma retry_delay_le attempt base maximum :
  imageModerationRetryBackoff attempt base maximum <= maximum.
Proof. apply backoff_loop_le. Qed.

Section budget.
Context `{Env} `{Pg} `{Unicode} `{DbClock} `{!Interference DB}.
Context (Hquiet : forall k db, retries (others k db) = retries db).
Context (wk : Worker) `{!RetryFree (applier wk)}.
Abbreviation WorldR := (World DB (list ImageModerationRequest)).

(** A transaction of the worker, seen from the queue. *)
Lemma retryTx_cases {R} (fn : MT R) (w : WorldR) r w' :
  inTx fn w = (r, w') ->
  (exists e, r = inl e /\ retries (w_db w') = retries (w_db w)) \/
  (exists v tx, r = inr v /\ fn (begin_tx false (interfere w)) = (inr v, tx) /\
     retries (w_db w') = retries (tx_db tx)).
Proof.
  intros E. unfold inTx in E.
  apply InTx_cases in E as [(e & -> & Hdb & _) | (v & tx & tx1 & -> & Hf & Hb & Hdb & _)].
  - left. exists e. split; [done|]. rewrite Hdb. apply Hquiet.
  - right. exists v, tx. split_and!; try done. rewrite Hdb.
    refine (keeps_run_before (unchanged retries) interp_before _ _ _ _ _ Hb).
    intros [sid now]. cbn. by apply (keeps_exec _).
Qed.

Lemma fenced_cases (fn : MT bool) o (w : WorldR) r w' :
  fenced fn o w = (r, w') ->
  (exists e, r = inl e /\ retries (w_db w') = retries (w_db w)) \/
  (exists b tx o', r = inr o' /\ fn (begin_tx false (interfere w)) = (inr b, tx) /\
     retries (w_db w') = retries (tx_db tx)).
Proof.
  unfold fenced, mbind. intros E. destruct (inTx fn w) as [x w1] eqn:Et.
  apply retryTx_cases in Et as [(e & -> & Hr)|(v & tx & -> & Hf & Hr)]; injection E as <- <-.
  - left. by exists e.
  - right. by exists v, tx, (if v then o else Superseded).
Qed.

(** What the two fenced statements leave of the row of the claim, if they return. *)
Lemma begun_retries (w : WorldR) : retries (tx_db (begin_tx false (interfere w) : TxD)) = retries (w_db w).
Proof. apply Hquiet. Qed.

Lemma update_claim_row id claim f (w : WorldR) (tx tx' : TxD) b :
  holds id claim w -> retries (tx_db tx) = retries (w_db w) ->
  update_claim claim f tx = (inr b, tx') -> retries (tx_db tx') !! id = Some (f (cl_row claim)).
Proof.
  intros Hh Hr E. unfold update_claim in E. apply mbind_inr in E as (n & s & E & [= _ <-]).
  apply stmt_inr_short in E as (E & _). cbn [update_where] in E. injection E as _ <-. cbn.
  by rewrite Hr, lookup_fmap, (h_row _ _ _ Hh); cbn; rewrite (holds_owned _ _ _ Hh).
Qed.

Lemma DeleteClaim_row id claim (w : WorldR) (tx tx' : TxD) b :
  holds id claim w -> retries (tx_db tx) = retries (w_db w) ->
  DeleteClaim claim tx = (inr b, tx') -> retries (tx_db tx') !! id = None.
Proof.
  intros Hh Hr E. unfold DeleteClaim in E. apply mbind_inr in E as (n & s & E & [= _ <-]).
  apply stmt_inr_short in E as (E & _). injection E as _ <-. cbn. unfold delete_where.
  rewrite map_lookup_filter, Hr, (h_row _ _ _ Hh). cbn.
  by rewrite (holds_owned _ _ _ Hh).
Qed.

(** A turn on a row that was claimed, with what the worker reports, after which the row
    waits for another. *)
Definition waits_after (res : goerr + Outcome) (r r' : t) : Prop :=
  exists id claim token until now (w w' : WorldR),
    cl_row claim = leased token until now r /\ holds id claim w /\
    processClaim wk claim w = (res, w') /\ retries (w_db w') !! id = Some r' /\
    is_pending r' = true.

(** Claimed and no more: the turn left the row as it took it. *)
Definition untouched (r r' : t) : Prop :=
  exists token until now, r' = leased token until now r.
(** One attempt on, unleased, and due again within the maximum delay. *)
Definition counted (r r' : t) : Prop :=
  Attempts r' = Attempts r + 1 /\ Attempts r' < MaxAttempts (options wk) /\
  LeaseToken r' = None /\
  exists k next, NextAttemptAt r' = Some next /\ next <= env_now k + MaxBackoff (options wk).

Lemma failed_waits id claim code (w : WorldR) res w' r' :
  holds id claim w -> failed wk claim code w = (res, w') ->
  retries (w_db w') !! id = Some r' -> is_pending r' = true ->
  match res with inl _ => r' = cl_row claim | inr _ => counted (cl_row claim) r' end.
Proof.
  intros Hh E Hr' Hp. unfold failed in E.
  destruct (Z.leb_spec (MaxAttempts (options wk)) (Attempts (cl_row claim) + 1)) as [Hm|Hm].
  - apply fenced_cases in E as [(e & -> & Hr)|(b & tx & o & -> & Hf & Hr)].
    { rewrite Hr, (h_row _ _ _ Hh) in Hr'. by injection Hr'. }
    exfalso. rewrite mbind_Now in Hf. unfold DeadLetterClaim in Hf.
    apply (update_claim_row id claim _ w) in Hf; [|done|apply begun_retries].
    rewrite Hr, Hf in Hr'. injection Hr' as <-. done.
  - unfold mbind at 1 in E. cbn beta iota in E.
    apply fenced_cases in E as [(e & -> & Hr)|(b & tx & o & -> & Hf & Hr)].
    { rewrite Hr in Hr'. cbn in Hr'. rewrite (h_row _ _ _ Hh) in Hr'. by injection Hr'. }
    unfold RescheduleClaim in Hf.
    apply (update_claim_row id claim _ w) in Hf; [|done|by rewrite begun_retries].
    rewrite Hr, Hf in Hr'. injection Hr' as <-.
    pose proof (retry_delay_le (Attempts (cl_row claim) + 1) (BaseBackoff (options wk))
      (MaxBackoff (options wk))) as Hle. set (delay := imageModerationRetryBackoff _ _ _) in *.
    clearbody delay. split_and!; cbn; [lia|lia|done|]. exists (c_now (w_ctr w)). eexists. split; [done|].
    unfold time_Add. lia.
Qed.

Lemma deleted_waits id claim o (w : WorldR) res w' r' :
  holds id claim w -> deleteClaim claim o w = (res, w') -> retries (w_db w') !! id = Some r' ->
  match res with inl _ => r' = cl_row claim | inr _ => counted (cl_row claim) r' end.
Proof.
  intros Hh E Hr'. apply fenced_cases in E as [(e & -> & Hr)|(b & tx & o' & -> & Hf & Hr)].
  { rewrite Hr, (h_row _ _ _ Hh) in Hr'. by injection Hr'. }
  apply (DeleteClaim_row id claim w) in Hf; [|done|apply begun_retries].
  rewrite Hr in Hr'. congruence.
Qed.

Lemma immediate_waits id claim callback (w : WorldR) res w' r' :
  holds id claim w -> applyImmediate wk claim callback w = (res, w') ->
  retries (w_db w') !! id = Some r' ->
  match res with inl _ => r' = cl_row claim | inr _ => counted (cl_row claim) r' end.
Proof.
  intros Hh E Hr'. unfold applyImmediate, mbind in E.
  destruct (inTx _ w) as [x w1] eqn:Et.
  apply retryTx_cases in Et as [(e & -> & Hr)|(v & tx & -> & Hf & Hr)]; injection E as <- <-.
  { rewrite Hr, (h_row _ _ _ Hh) in Hr'. by injection Hr'. }
  exfalso. unfold ModerationService.ApplyImageResult in Hf.
  pose proof (cleared_applyImageResult (applier wk) _ _ _ _ _ Hf) as Hn.
  rewrite begun_retries in Hn. specialize (Hn (h_keyed _ _ _ Hh)).
  cbn in Hn. rewrite (holds_id _ _ _ Hh) in Hn. rewrite Hr in Hr'. congruence.
Qed.

(** What a turn after which the row waits did to it. *)
Lemma waits_after_row res r r' : waits_after res r r' ->
  match res with inl _ => untouched r r' | inr _ => counted r r' end.
Proof.
  intros (id & claim & token & until & now & w & w' & Hc & Hh & E & Hr' & Hp).
  assert (match res with inl _ => r' = cl_row claim | inr _ => counted (cl_row claim) r' end) as Hrow.
  { unfold processClaim in E. destruct (negb _); [by eapply deleted_waits|].
    unfold mbind, submit in E. cbn beta iota in E.
    set (w1 := w <| w_ext := _ |>) in E.
    assert (holds id claim w1) as Hh1 by (by destruct Hh).
    destruct (SubmitImage _ _ _) as [e|s]; [by eapply failed_waits|].
    destruct (is_Immediate s); [by eapply immediate_waits|].
    destruct (_ || _); [by eapply failed_waits|by eapply deleted_waits]. }
  rewrite Hc in Hrow. destruct res; [by exists token, until, now|].
  exact Hrow.
Qed.

(** The turns of one row, one after the other: [true] for those without an error. *)
Inductive turns : list bool -> t -> t -> Prop :=
| turns_nil r : turns [] r r
| turns_error l e r r1 r2 : waits_after (inl e) r r1 -> turns l r1 r2 -> turns (false :: l) r r2
| turns_counted l o r r1 r2 : waits_after (inr o) r r1 -> turns l r1 r2 -> turns (true :: l) r r2.

(** The turns that count. *)
Definition count_turns (l : list bool) : Z := Z.of_nat (length (filter (fun b => b = true) l)).

(** C26: retries are bounded, but for turns that fail.  While nobody else writes the queue,
    every turn that returns without an error and after which the row waits for another one
    has counted an attempt, left the row unleased and made it due again within the maximum
    delay; a turn that fails (the transaction, or an immediate verdict the moderation service
    refuses) counts nothing and leaves the row exactly as it was claimed.  So over any
    sequence of turns the attempts grow by the number of turns without an error, and a row
    with [a] attempts passes fewer than [MaxAttempts - a] of these: the next one deletes or
    buries it.  How often turns fail is not bounded
    ([refused_verdict_not_counted]). *)
Theorem retry_bounded l r r' :
  turns l r r' ->
  Attempts r' = Attempts r + count_turns l /\
  (true ∈ l -> Attempts r' < MaxAttempts (options wk)) /\
  (last l = Some true -> LeaseToken r' = None /\
     exists k next, NextAttemptAt r' = Some next /\
       next <= env_now k + MaxBackoff (options wk)) /\
  (forall l', l = l' ++ [false] -> exists r0, turns l' r r0 /\ untouched r0 r').
Proof.
  intros Ht. induction Ht as [r|l e r r1 r2 Hs Ht IH|l o r r1 r2 Hs Ht IH].
  - split_and!; [unfold count_turns; cbn; lia|by intros ?%elem_of_nil|done|].
    intros [|] E; by apply (f_equal length) in E.
  - destruct IH as (Ha & Hb & Hc & Hd). apply waits_after_row in Hs as Hu.
    destruct Hu as (token & until & now & Hu).
    split_and!.
    + rewrite Ha, Hu. unfold count_turns. rewrite filter_cons_False by done. done.
    + intros [?|?]%elem_of_cons; [done|auto].
    + destruct l; [done|exact Hc].
    + intros [|b l'] E; [injection E as ->|injection E as <- ->].
      * inversion Ht; subst. exists r. split; [constructor|]. by exists token, until, now.
      * destruct (Hd l' eq_refl) as (r0 & Ht0 & Hu0). exists r0. split; [|done].
        by eapply turns_error.
  - destruct IH as (Ha & Hb & Hc & Hd). apply waits_after_row in Hs as Hn.
    destruct Hn as (Hn1 & Hn2 & Hn3 & Hn4). split_and!.
    + rewrite Ha, Hn1. unfold count_turns. rewrite filter_cons_True by done. cbn [length]. lia.
    + intros _. destruct (decide (true ∈ l)) as [?|Hf]; [auto|].
      assert (count_turns l = 0) as Hz.
      { unfold count_turns. destruct (filter _ l) as [|b k] eqn:Ef; [done|].
        assert (b ∈ filter (fun b => b = true) l) as [-> ?]%list_elem_of_filter
          by (rewrite Ef; by left). done. }
      lia.
    + destruct l as [|b l]; [|exact Hc]. intros _. inversion Ht; subst. done.
    + intros [|b l'] E; [done|injection E as <- ->]. destruct (Hd l' eq_refl) as (r0 & Ht0 & Hu0).
      exists r0. split; [|done]. by eapply turns_counted.
Qed.
End budget.

(** ** Immediate verdicts are not counted *)
Section refused.
Context `{Env} `{Pg} `{Unicode} `{DbClock} `{!Interference DB}.
Context (wk : Worker).

(** The image's object is gone: its row carries the tombstone for a URL. *)
Definition purged (assetID : Z) (db : DB) : Prop :=
  forall k a, image_assets db !! k = Some a -> ImageAsset.ID a = assetID ->
    IsPurgedImageURL (ImageAsset.PublicURL a) = true.

Lemma purged_refused access callback (tx : TxD) r tx' :
  purged (cb_ImageAssetID callback) (tx_db tx) ->
  ModerationService.ApplyImageResult access callback tx <> (inr r, tx').
Proof.
  intros Hp E. unfold ModerationService.ApplyImageResult, ModerationService.applyImageResult in E.
  apply mbind_inr in E as (? & s0 & [_ <-]%lift_inr & E).
  apply mbind_inr in E as (ids & s1 & E1 & E). apply mbind_inr in E as (assets & s2 & E2 & E).
  apply mbind_inr in E as (asset & s3 & [Ha _]%lift_inr & _).
  assert (tx_db s1 = tx_db tx) as D1.
  { unfold ModerationRepository.LockPendingPostsForImage in E1.
    reads E1. exact E1. }
  apply on_error_inr in E2 as [E2|(? & ? & _ & E2)]; [|by apply internal_inr in E2].
  unfold ModerationRepository.LockImagesForPosts in E2. apply mbind_inr in E2 as (rel & s4 & E2 & E3).
  assert (tx_db s4 = tx_db s1) as D4 by (destruct ids; reads E2; exact E2).
  apply query_inr in E3 as (-> & _). rewrite D4, D1 in Ha.
  unfold ModerationService.validateCallbackAsset in Ha.
  destruct (ModerationService.imageAssetByID _ _) as [a|] eqn:Hf; [|done].
  unfold ModerationService.imageAssetByID in Hf.
  assert (a ∈ filter (fun a => ImageAsset.ID a = cb_ImageAssetID callback)
    (PostRepository.assets_in (uniqueSortedIDs (cb_ImageAssetID callback :: rel)) (tx_db tx))) as Hin.
  { destruct (filter _ _); simplify_eq/=. by left. }
  apply list_elem_of_filter in Hin as [Hid Hin].
  assert (exists k, image_assets (tx_db tx) !! k = Some a) as [k Hk].
  { unfold PostRepository.assets_in in Hin. by apply elem_of_select in Hin as [_ ?]. }
  pose proof (Hp k a Hk Hid) as Hpurged. rewrite Hpurged, orb_true_r in Ha. by case_match.
Qed.

(** C27: an immediate verdict that cannot be applied costs no attempt.  When a provider
    answers the worker with an immediate verdict for an image whose object was purged
    meanwhile, the turn fails and leaves every table as it was: the row stays pending with
    its attempts, still leased, so that it is submitted again after each lease, without
    bound. *)
Theorem refused_verdict_not_counted claim (w : World DB (list ImageModerationRequest)) s callback r w' :
  asks claim = true -> answer_in wk w claim = inr s -> is_Immediate s = Some callback ->
  purged (ImageAssetID (cl_row claim)) (w_db (interfere w)) ->
  processClaim wk claim w = (r, w') ->
  (exists e, r = inl e) /\ w_db w' = w_db (interfere w) /\
  w_ext w' = w_ext w ++ [request_of claim].
Proof.
  intros Ha Hs Hi Hp E. unfold processClaim in E. unfold asks in Ha. rewrite Ha in E. cbn [negb] in E.
  unfold mbind at 1, submit in E. cbn beta iota in E.
  change (SubmitImage _ _ _) with (answer_in wk w claim) in E. rewrite Hs, Hi in E.
  unfold applyImmediate, mbind in E. set (w1 := w <| w_ext := _ |>) in E.
  destruct (inTx _ w1) as [[e|v] w2] eqn:Et; injection E as <- <-;
    apply InTx_cases in Et as [(e' & He & Hdb & Hx)|(v' & tx & tx1 & He & Hf & _)]; try done.
  - rewrite Hdb, Hx. split; [by eexists|done].
  - by apply purged_refused in Hf.
Qed.
End refused.
