(* ===== verification/Upload.v ===== *)
(** * Uploads: [internal/repository/upload.go], [internal/service/upload.go],
    [internal/service/upload_expiration_worker.go]

    A client declares an image ([Presign]) and gets a signed URL, puts the bytes into the
    object storage, and reports the end ([Complete]); the worker takes back what nobody
    uses ([ExpirePending]).

    These calls of the storage and of the image moderator happen inside the transaction
    and are not undone with it: the state of a computation is the transaction together
    with the calls made ([UTx]), and [InUploadTx] keeps the latter whatever becomes of the
    former. *)

From S2P Require Import Prelude.
From S2P Require Import GoText.
From S2P Require Import Apierr.
From S2P Require Import Effects.
From S2P Require Import Logic.
From S2P Require Import Model.
From S2P Require Import Digest.
From S2P Require Import Ptime.
From S2P Require Import Sealed.
From S2P Require Import AuthRepo.
From S2P Require Import AuthService.
From S2P Require Import PostRepo.
From S2P Require Import Moderation.
From S2P Require Import ImageRetry.
Open Scope Z_scope.

(** ** encoding/base64: [StdEncoding] *)
Module StdEncoding.
Definition char_of (s : Z) : Z :=
  if s =? 62 then 43 else if s =? 63 then 47 else RawURLEncoding.char_of s.

Definition value_of (c : Z) : option Z :=
  if c =? 43 then Some 62 else if c =? 47 then Some 63
  else if (c =? 45) || (c =? 95) then None else RawURLEncoding.value_of c.

(** Groups of four characters; ["="] fills the last one. *)
Fixpoint encode (l : list Z) : list Z :=
  match l with
  | a :: b :: c :: l' =>
      map char_of (RawURLEncoding.sextets [a; b; c]) ++ encode l'
  | [a; b] => map char_of (RawURLEncoding.sextets [a; b]) ++ [61]
  | [a] => map char_of (RawURLEncoding.sextets [a]) ++ [61; 61]
  | [] => []
  end.
Definition EncodeToString (l : list Z) : string := string_of (encode l).

(** The decoder skips line feeds and carriage returns; padding must complete the last
    group and end the input, the spare bits of that group are ignored. *)
Fixpoint decode (l : list Z) : option (list Z) :=
  match l with
  | [] => Some []
  | [p; q; r; s] =>
      if (r =? 61) && (s =? 61) then
        vs ← mapM value_of [p; q]; RawURLEncoding.unsextets vs
      else if s =? 61 then
        vs ← mapM value_of [p; q; r]; RawURLEncoding.unsextets vs
      else vs ← mapM value_of [p; q; r; s]; RawURLEncoding.unsextets vs
  | p :: q :: r :: s :: l' =>
      vs ← mapM value_of [p; q; r; s];
      bytes ← RawURLEncoding.unsextets vs;
      rest ← decode l';
      Some (bytes ++ rest)
  | _ => None
  end.
Definition DecodeString (s : string) : option (list Z) :=
  decode (filter (fun c => c <> 10 /\ c <> 13) (bytes_of s)).
End StdEncoding.

(** ** The object storage *)
Record StoragePresignRequest := mkPresignRequest {
  sr_ObjectKey : string; sr_ContentType : string; sr_ContentLength : Z; sr_ContentMD5 : string;
  sr_TTL : duration }.
Record StorageUploadTicket := mkTicket { st_UploadURL : string; st_ExpiresAt : time }.
Record StorageObjectMeta := mkMeta { sm_Exists : bool; sm_ContentLength : Z }.

(** What this service uses of the port (making objects public belongs to the image access
    worker).  The number of an answer is a time stamp, as for [ContentModerator]. *)
Record Storage := mkStorage {
  PresignPut : nat -> StoragePresignRequest -> goerr + StorageUploadTicket;
  PresignGet : nat -> string -> duration -> goerr + string;
  HeadObject : nat -> string -> goerr + StorageObjectMeta;
  DeleteObject : nat -> string -> option goerr;
  PublicURL : nat -> string -> goerr + string;
}.

Definition errImageStorageUnconfigured : goerr := ENew "image storage is not configured".
Definition UnavailableImageStorage : Storage := mkStorage
  (fun _ _ => inl errImageStorageUnconfigured)
  (fun _ _ _ => inl errImageStorageUnconfigured)
  (fun _ _ => inl errImageStorageUnconfigured)
  (fun _ _ => Some errImageStorageUnconfigured)
  (fun _ _ => inl errImageStorageUnconfigured).

(** The calls that act on the outside world, in order. *)
Inductive UploadCall :=
| CallPresignPut (request : StoragePresignRequest)
| CallDelete (key : string)
| CallSubmitImage (request : ImageModerationRequest).

(** ** Transactions that call out *)
Record UTx := mkUTx { u_tx : TxD; u_calls : list UploadCall }.
#[global] Instance eta_UTx : Eta UTx := fun x => mkUTx (u_tx x) (u_calls x).
Abbreviation UM := (M UTx).

Definition sql {R} (m : MT R) : UM R := fun u =>
  let '(r, tx) := m (u_tx u) in (r, u <| u_tx := tx |>).
Definition ask {R} (answer : nat -> R) : UM R := fun u =>
  (inr (answer (c_stmt (tx_ctr (u_tx u)))), u).
Definition tell (entry : UploadCall) : UM unit := fun u =>
  (inr tt, u <| u_calls := u_calls u ++ [entry] |>).

(** A request's calls; its pipeline only looks at the transaction. *)
Definition within {R} (m : UM R) : MT R := fun tx =>
  let '(r, u) := m (mkUTx tx []) in (r, u_tx u).

(** A worker's transaction: rolled back or not, the calls were made. *)
Definition InUploadTx `{Env} `{!Interference DB} {R} (fn : UM R)
    : M (World DB (list UploadCall)) R := fun w =>
  let w := interfere w in
  let '(r, w') := RunInTx interp_before (fun tx =>
      let '(r, u) := fn (mkUTx tx (w_ext w)) in (r, u_tx u)) w in
  (r, match env_begin (c_tx (w_ctr w)) with
      | Some _ => w'
      | None => w' <| w_ext := u_calls (snd (fn (mkUTx (begin_tx false w) (w_ext w)))) |>
      end).

(** ** internal/repository/upload.go *)
Module UploadRepository.
Section ops.
Context `{Env} `{Pg}.
Import ImageAsset.

Definition by_id (imageAssetID : Z) (a : t) : bool := ID a =? imageAssetID.

Definition FindByID (imageAssetID : Z) : MT t :=
  First (fun db => first (by_id imageAssetID) (image_assets db)).
Definition LockByID (imageAssetID : Z) : MT t := FindByID imageAssetID.

(** GORM fills the identity and the timestamps; the unique indexes of the table. *)
Definition same_key (key : string) (a : t) : bool := bool_decide (ObjectKey a = key).
Definition same_url (url : string) (a : t) : bool :=
  negb (bool_decide (url = ""%string)) && bool_decide (PublicURL a = url).
Definition insert_asset (asset : t) (db : DB) : goerr + t * DB :=
  if exists_row (same_key (ObjectKey asset)) (image_assets db)
  then inl (unique_violation "uq_image_assets_object_key")
  else if exists_row (same_url (PublicURL asset)) (image_assets db)
  then inl (unique_violation "uq_image_assets_public_url")
  else match insert_row "image_assets_pkey" (ID asset) asset (image_assets db) with
       | inl err => inl err
       | inr rows => inr (asset, db <| image_assets := rows |>)
       end.
Definition Create (asset : t) : MT t :=
  let* now := Now in
  let* id := NextID in
  stmt (insert_asset (asset <| ID := id |> <| CreatedAt := now |> <| UpdatedAt := now |>)).

(** An [UPDATE] of the rows [p] that gives them a URL. *)
Definition update_url (p : t -> bool) (url : string) (f : t -> t) : MT Z :=
  stmt (fun db =>
    if exists_row p (image_assets db) &&
       exists_row (fun a => negb (p a) && same_url url a) (image_assets db)
    then inl (unique_violation "uq_image_assets_public_url")
    else
      let '(n, rows) := update_where p (fun a => f (a <| PublicURL := url |>))
                          (image_assets db) in
      inr (n, db <| image_assets := rows |>)).

Definition MarkComplete (imageAssetID : Z) (publicURL : string) (size : Z) : MT unit :=
  let* now := Now in
  PostRepository.found_row (update_url (by_id imageAssetID) publicURL
    (fun a => a <| Size := Some size |> <| UpdatedAt := now |>)).

Definition expired (before : time) (db : DB) (a : t) : bool :=
  bool_decide (Status a = ImageStatusPending) && (CreatedAt a <? before) &&
  negb (referenced (ID a) db).
(** [ORDER BY a.created_at, a.id]. *)
Definition older (a b : t) : bool :=
  (CreatedAt a <? CreatedAt b) || (CreatedAt a =? CreatedAt b) && (ID a <=? ID b).
Definition LockExpiredPending (before : time) (limit : Z) : MT (list t) :=
  query (fun db =>
    firstn (Z.to_nat limit) (sort_by older (select (expired before db) (image_assets db)))).

Definition retirable (imageAssetID : Z) (db : DB) (a : t) : bool :=
  by_id imageAssetID a && bool_decide (Status a = ImageStatusPending) &&
  negb (referenced imageAssetID db).
Definition RetirePurged (imageAssetID : Z) : MT unit :=
  let* now := Now in
  PostRepository.found_row (fun tx =>
    update_url (retirable imageAssetID (tx_db tx)) (PurgedImageURL imageAssetID)
      (fun a => a <| Status := ImageStatusRetired |> <| UpdatedAt := now |>) tx).
End ops.
End UploadRepository.

(** ** internal/service/upload.go *)
Module UploadService.
Import UploadRepository.

Definition defaultExpiredUploadBatch : Z := 100.

Definition contentTypeExtensions : gmap string string := list_to_map
  [("image/jpeg", "jpg"); ("image/png", "png"); ("image/gif", "gif"); ("image/webp", "webp");
   ("image/bmp", "bmp"); ("image/heic", "heic"); ("image/heif", "heif")]%string.
Definition purposeDirectories : gmap string string := list_to_map
  [(ImagePurposePost, "posts"%string); (ImagePurposeAvatar, "avatars"%string)].

Record UploadPresignInput := mkPresignInput {
  pi_Purpose : string; pi_ContentType : string; pi_Size : Z; pi_ContentMD5 : string }.
Record UploadPresignResult := mkPresignResult {
  pr_UploadID : Z; pr_Method : string; pr_UploadURL : string; pr_ExpiresAt : time }.
Record UploadCompleteResult := mkCompleteResult {
  uc_UploadID : Z; uc_ObjectKey : string; uc_PublicURL : string; uc_Status : string;
  uc_Moderation : string }.
Record UploadImageView := mkImageView {
  iv_UploadID : Z; iv_Purpose : string; iv_Status : string; iv_Moderation : string;
  iv_ImageURL : string }.
Record ExpirePendingOptions := mkExpireOptions { ep_Before : time; ep_Limit : Z; ep_DryRun : bool }.
Record UploadExpirationFailure := mkExpirationFailure {
  uf_ImageAssetID : Z; uf_ObjectKey : string; uf_Err : goerr }.
Record UploadExpirationResult := mkExpirationResult {
  ue_Selected : Z; ue_Retired : Z; ue_Failures : list UploadExpirationFailure }.

Record UploadService := mkUploadService {
  us_storage : Storage;
  us_imageModerator : ImageModerator;
  us_access : ImageAccessController;
  us_maxImageBytes : Z;
  us_presignTTL : duration;
  us_presignGetTTL : duration;
}.

(** Missing ports are replaced by ones that refuse. *)
Definition NewUploadService (storage : option Storage) (moderator : option ImageModerator)
    (moderation : option ImageAccessController) (maxImageBytes : Z)
    (presignTTL presignGetTTL : duration) : UploadService :=
  mkUploadService
    (match storage with Some s => s | None => UnavailableImageStorage end)
    (match moderator with Some m => m | None => UnavailableImageModerator end)
    (match moderation with Some a => a | None => DiscardAccess end)
    maxImageBytes presignTTL presignGetTTL.

Definition storageUnavailable (err : goerr) : goerr :=
  EApi (WithCause (ServiceUnavailable "图片存储暂时不可用，请稍后重试") err).

(** [fmt.Sprintf("%s/%d/%s/%s.%s", ...)] with ["2006/01"]. *)
Definition year_month (now : time) : string :=
  string_of (digits 4 (year (civil now)) ++ [47] ++ digits 2 (month (civil now))).
Definition object_key (directory : string) (userID : Z) (extension : string) (now : time)
    (random : string) : string :=
  directory +:+ "/" +:+ FormatInt userID +:+ "/" +:+ year_month now +:+ "/" +:+
  hex_encode random +:+ "." +:+ extension.

Section service.
Context `{Env} `{Pg} `{Unicode} `{DbClock}.
Context (s : UploadService).

Definition newObjectKey (directory : string) (userID : Z) (extension : string) (now : time)
    : MT string :=
  let* random := RandRead 16 in
  match random with
  | None => throw (ENew "crypto/rand")
  | Some random => mret (object_key directory userID extension now random)
  end.

Definition valid_md5 (contentMD5 : string) : bool :=
  match StdEncoding.DecodeString contentMD5 with
  | None => false
  | Some digest =>
      (String.length contentMD5 =? 24)%nat && (length digest =? 16)%nat &&
      bool_decide (StdEncoding.EncodeToString digest = contentMD5)
  end.

(** The purpose, its directory and the extension of the content type. *)
Definition validatePresign (input : UploadPresignInput) : goerr + string * string * string :=
  match purposeDirectories !! pi_Purpose input with
  | None => inl (EApi (InvalidField "purpose" FieldInvalidEnum "不支持的上传用途"))
  | Some directory =>
      match contentTypeExtensions !! pi_ContentType input with
      | None => inl (EApi (InvalidField "content_type" FieldInvalidEnum "不支持的图片类型"))
      | Some extension =>
          if (pi_Size input <=? 0) || (us_maxImageBytes s <? pi_Size input)
          then inl (EApi (InvalidField "size" FieldOutOfRange "图片大小必须在允许范围内"))
          else if negb (valid_md5 (pi_ContentMD5 input))
          then inl (EApi (InvalidField "content_md5" FieldInvalidFormat
                 "content_md5 必须是 RFC 1864 标准 Base64 MD5"))
          else inr (pi_Purpose input, directory, extension)
      end
  end.

Definition Image (uploadID userID : Z) : UM UploadImageView :=
  let* asset := sql (on_error (FindByID uploadID)
                  (ModerationService.to_api BizUploadNotFound "上传记录")) in
  if negb (bool_decide (ImageAsset.UploaderID asset = Some userID))
  then api_error (Forbidden BizImageNotOwned "无权查看该上传记录")
  else if bool_decide (ImageAsset.PublicURL asset = ""%string) ||
          IsPurgedImageURL (ImageAsset.PublicURL asset)
  then api_error (Conflict BizUploadIncomplete "图片尚不可读取")
  else
    let* answer := ask (fun k => PresignGet (us_storage s) k (ImageAsset.ObjectKey asset)
                                   (us_presignGetTTL s)) in
    match answer with
    | inl err => throw (storageUnavailable err)
    | inr imageURL => mret (mkImageView (ImageAsset.ID asset) (ImageAsset.Purpose asset)
        (ImageAsset.Status asset) (ImageAsset.Moderation asset) imageURL)
    end.

Definition pending_asset (userID : Z) (purpose objectKey : string) (input : UploadPresignInput)
    : ImageAsset.t :=
  ImageAsset.mk 0 (Some userID) purpose objectKey "" (pi_ContentType input)
    (Some (pi_Size input)) ImageStatusPending ModerationStatusPending 0 0.

Definition Presign (userID : Z) (input : UploadPresignInput) : UM UploadPresignResult :=
  let* valid := lift (validatePresign input) in
  let '(purpose, directory, extension) := valid in
  let* now := sql Now in
  let* objectKey := sql (on_error (newObjectKey directory userID extension now) internal) in
  let request := mkPresignRequest objectKey (pi_ContentType input) (pi_Size input)
                   (pi_ContentMD5 input) (us_presignTTL s) in
  tell (CallPresignPut request) ;;;
  let* answer := ask (fun k => PresignPut (us_storage s) k request) in
  match answer with
  | inl err => throw (storageUnavailable err)
  | inr ticket =>
      let* asset := sql (on_error (Create (pending_asset userID purpose objectKey input))
                      internal) in
      mret (mkPresignResult (ImageAsset.ID asset) "PUT" (st_UploadURL ticket)
              (st_ExpiresAt ticket))
  end.

(** An object of the wrong size is deleted; the error refuses the upload. *)
Definition delete_mismatch (asset : ImageAsset.t) (message : string) : UM unit :=
  tell (CallDelete (ImageAsset.ObjectKey asset)) ;;;
  let* failure := ask (fun k => DeleteObject (us_storage s) k (ImageAsset.ObjectKey asset)) in
  match failure with
  | Some err => throw (storageUnavailable err)
  | None => api_error (Conflict BizUploadSizeMismatch message)
  end.

Definition validateStoredObject (asset : ImageAsset.t) (meta : StorageObjectMeta) : UM unit :=
  if (sm_ContentLength meta <=? 0) || (us_maxImageBytes s <? sm_ContentLength meta)
  then delete_mismatch asset "图片超过大小限制"
  else match ImageAsset.Size asset with
       | Some size =>
           if sm_ContentLength meta =? size then mret tt
           else delete_mismatch asset "图片大小与声明不一致"
       | None => mret tt
       end.

Definition enqueueModerationRetry (imageAssetID : Z) (errorCode : string) : MT unit :=
  let* now := Now in
  on_error (ImageModerationRetryRepository.Enqueue imageAssetID
              (ImageModerationRetryWorker.initialImageModerationRetryAt now) errorCode now)
    (fun err => internal (EWrap "登记图片补审失败" err)).

Definition uploadCompletePendingResult (asset : ImageAsset.t) (publicURL : string)
    : UploadCompleteResult :=
  mkCompleteResult (ImageAsset.ID asset) (ImageAsset.ObjectKey asset) publicURL
    (ImageAsset.Status asset) ModerationStatusPending.

(** What the provider's answer makes of the upload. *)
Definition submitted (asset : ImageAsset.t) (publicURL : string)
    (answer : goerr + ImageModerationSubmission) : MT UploadCompleteResult :=
  match answer with
  | inl _ =>
      enqueueModerationRetry (ImageAsset.ID asset) "submit_failed" ;;;
      mret (uploadCompletePendingResult asset publicURL)
  | inr submission =>
      match is_Immediate submission with
      | Some callback =>
          let* _ := ModerationService.ApplyImageResult (us_access s) callback in
          mret (mkCompleteResult (ImageAsset.ID asset) (ImageAsset.ObjectKey asset)
            (if bool_decide (cb_Verdict callback = ModerationStatusBlock) then "" else publicURL)
            (ImageAsset.Status asset) (cb_Verdict callback))
      | None =>
          if ImageModerationRetryWorker.no_job submission then
            enqueueModerationRetry (ImageAsset.ID asset) "invalid_submission" ;;;
            mret (uploadCompletePendingResult asset publicURL)
          else mret (uploadCompletePendingResult asset publicURL)
      end
  end.

Definition Complete (uploadID userID : Z) : UM UploadCompleteResult :=
  let* asset := sql (on_error (LockByID uploadID)
                  (ModerationService.to_api BizUploadNotFound "上传记录")) in
  if negb (bool_decide (ImageAsset.UploaderID asset = Some userID))
  then api_error (Forbidden BizImageNotOwned "无权操作该上传记录")
  else if negb (bool_decide (ImageAsset.Status asset = ImageStatusPending)) ||
          negb (bool_decide (ImageAsset.PublicURL asset = ""%string))
  then api_error (Conflict BizUploadClosed "上传记录状态已结束")
  else
    let* head := ask (fun k => HeadObject (us_storage s) k (ImageAsset.ObjectKey asset)) in
    match head with
    | inl err => throw (storageUnavailable err)
    | inr meta =>
        if negb (sm_Exists meta)
        then api_error (Conflict BizUploadIncomplete "图片尚未上传到存储")
        else
          validateStoredObject asset meta ;;;
          let* url := ask (fun k => PublicURL (us_storage s) k (ImageAsset.ObjectKey asset)) in
          match url with
          | inl err => throw (storageUnavailable err)
          | inr publicURL =>
              sql (on_error (MarkComplete (ImageAsset.ID asset) publicURL (sm_ContentLength meta))
                     internal) ;;;
              let request := mkImageRequest (ImageAsset.ID asset) (ImageAsset.ObjectKey asset) in
              tell (CallSubmitImage request) ;;;
              let* answer := ask (fun k => SubmitImage (us_imageModerator s) k request) in
              sql (submitted asset publicURL answer)
          end
    end.

(** One object after the other; a failed deletion is recorded and the next one tried.  The
    counts Go returns next to an error are not modelled. *)
Fixpoint expire_assets (assets : list ImageAsset.t) (result : UploadExpirationResult)
    : UM UploadExpirationResult :=
  match assets with
  | [] => mret result
  | asset :: assets' =>
      tell (CallDelete (ImageAsset.ObjectKey asset)) ;;;
      let* failure := ask (fun k => DeleteObject (us_storage s) k (ImageAsset.ObjectKey asset)) in
      match failure with
      | Some err =>
          expire_assets assets' (mkExpirationResult (ue_Selected result) (ue_Retired result)
            (ue_Failures result ++
             [mkExpirationFailure (ImageAsset.ID asset) (ImageAsset.ObjectKey asset) err]))
      | None =>
          sql (on_error (RetirePurged (ImageAsset.ID asset)) internal) ;;;
          expire_assets assets' (mkExpirationResult (ue_Selected result) (ue_Retired result + 1)
            (ue_Failures result))
      end
  end.

Definition ExpirePending (options : ExpirePendingOptions) : UM UploadExpirationResult :=
  let limit := if ep_Limit options <=? 0 then defaultExpiredUploadBatch else ep_Limit options in
  let* assets := sql (on_error (LockExpiredPending (ep_Before options) limit) internal) in
  let result := mkExpirationResult (Z.of_nat (length assets)) 0 [] in
  if ep_DryRun options then mret result else expire_assets assets result.
End service.
End UploadService.

(** ** internal/service/upload_expiration_worker.go *)
Module PendingUploadExpirationWorker.
Import UploadService.

Definition defaultPendingUploadExpirationBatchSize : Z := 100.

Record Options := mkOptions { Retention : duration; BatchSize : Z }.
Record Worker := mkWorker { uploads : UploadService; options : Options }.
Record Result := mkResult { re_Result : UploadExpirationResult; re_Before : time }.

Definition NewPendingUploadExpirationWorker (u : UploadService) (o : Options) : Worker :=
  mkWorker u (mkOptions (Retention o)
    (if BatchSize o <=? 0 then defaultPendingUploadExpirationBatchSize else BatchSize o)).

Section worker.
Context `{Env} `{Pg} `{Unicode} `{DbClock} `{!Interference DB}.

Definition RunBatch (w : Worker) : M (World DB (list UploadCall)) Result :=
  if Retention (options w) <=? 0
  then throw (ENew "pending upload expiration retention must be positive")
  else
    let* now := NowW in
    let before := time_Add now (wrap64 (- Retention (options w))) in
    let* result := InUploadTx (ExpirePending (uploads w)
                     (mkExpireOptions before (BatchSize (options w)) false)) in
    mret (mkResult result before).
End worker.
End PendingUploadExpirationWorker.
