(* ===== verification/UploadProps.v ===== *)
(** * Uploads: what is accepted, what a completed upload is owed, what is taken back

    The presign check accepts exactly the RFC 1864 digests; a completed upload is either
    judged, accepted by the moderator or in the retry queue; the expiration takes back
    only what nobody refers to, and what it deletes is not restored by a rollback. *)

From S2P Require Import Prelude.
From S2P Require Import GoText.
From S2P Require Import Apierr.
From S2P Require Import Effects.
From S2P Require Import Logic.
From S2P Require Import Model.
From S2P Require Import Sealed.
From S2P Require Import AuthRepo.
From S2P Require Import AuthService.
From S2P Require Import ImageAccess.
From S2P Require Import PostRepo.
From S2P Require Import Moderation.
From S2P Require Import PostTables.
From S2P Require Import PostProps.
From S2P Require Import ImageRetry.
From S2P Require Import ImageRetryProps.
From S2P Require Import Upload.
Open Scope Z_scope.

(** ** Standard base64 *)
Section base64.
Import StdEncoding.
Abbreviation is_sextet := RawURLEncoding.is_sextet.

Lemma std_value_of_char s : is_sextet s -> value_of (char_of s) = Some s.
Proof.
  unfold RawURLEncoding.is_sextet, char_of, value_of, RawURLEncoding.char_of,
    RawURLEncoding.value_of, in_range. intros Hs.
  repeat (case_match; try lia); try (f_equal; lia).
Qed.

Lemma char_of_plain s : is_sextet s ->
  is_byte (char_of s) /\ char_of s <> 10 /\ char_of s <> 13 /\ char_of s <> 61.
Proof.
  unfold RawURLEncoding.is_sextet, char_of, RawURLEncoding.char_of, is_byte. intros Hs.
  repeat case_match; lia.
Qed.

Lemma std_mapM_value_of l : Forall is_sextet l -> mapM value_of (map char_of l) = Some l.
Proof. induction 1 as [|s l Hs _ IH]; [done|]. cbn. by rewrite std_value_of_char, IH. Qed.

(** A full group, wherever it stands. *)
Lemma decode_group p q r s l vs bytes rest : s <> 61 ->
  mapM value_of [p; q; r; s] = Some vs -> RawURLEncoding.unsextets vs = Some bytes ->
  decode l = Some rest -> decode (p :: q :: r :: s :: l) = Some (bytes ++ rest).
Proof.
  intros Hs Hm Hu Hl. destruct l as [|z l].
  - cbn [decode]. rewrite (proj2 (Z.eqb_neq s 61)), andb_false_r by done.
    injection Hl as <-. rewrite Hm, app_nil_r. exact Hu.
  - transitivity (vs ← mapM value_of [p; q; r; s]; bytes ← RawURLEncoding.unsextets vs;
      rest ← decode (z :: l); Some (bytes ++ rest)); [reflexivity|].
    rewrite Hl, Hm. change (Some ?x ≫= ?f) with (f x). cbv beta. by rewrite Hu.
Qed.

Lemma decode_encode l : Forall is_byte l -> decode (encode l) = Some l.
Proof.
  induction l as [|a|a b|a b c l IH] using RawURLEncoding.triples_ind; intros Hl; [done|..].
  1,2: pose proof (RawURLEncoding.sextets_range _ Hl) as Hs;
    pose proof (RawURLEncoding.unsextets_sextets _ Hl) as Hu; pose proof (std_mapM_value_of _ Hs) as Hm;
    cbn [RawURLEncoding.sextets] in *; cbn [encode map app decode RawURLEncoding.sextets].
  - cbn [Z.eqb Pos.eqb andb]. cbn [map] in Hm. rewrite Hm. exact Hu.
  - rewrite !Forall_cons in Hs. destruct Hs as (_ & _ & Hs & _).
    destruct (char_of_plain _ Hs) as (_ & _ & _ & Hne). rewrite (proj2 (Z.eqb_neq _ 61) Hne).
    cbn [andb Z.eqb Pos.eqb]. cbn [map] in Hm. rewrite Hm. exact Hu.
  - assert (Forall is_byte [a; b; c]) as Habc by (exact (Forall_take _ 3 _ Hl)).
    assert (Forall is_byte l) as Hl' by (rewrite !Forall_cons in Hl; tauto).
    pose proof (RawURLEncoding.sextets_range _ Habc) as Hs.
    pose proof (RawURLEncoding.unsextets_sextets _ Habc) as Hu. pose proof (std_mapM_value_of _ Hs) as Hm.
    cbn [RawURLEncoding.sextets] in *. cbn [encode map app RawURLEncoding.sextets].
    rewrite !Forall_cons in Hs. destruct Hs as (_ & _ & _ & Hs & _).
    destruct (char_of_plain _ Hs) as (_ & _ & _ & Hne).
    exact (decode_group _ _ _ _ _ _ _ _ Hne Hm Hu (IH Hl')).
Qed.

Lemma encode_plain l : Forall is_byte l -> Forall (fun c => is_byte c /\ c <> 10 /\ c <> 13) (encode l).
Proof.
  induction l as [|a|a b|a b c l IH] using RawURLEncoding.triples_ind; intros Hl; [done|..].
  3: assert (Forall is_byte l) as Hl' by (rewrite !Forall_cons in Hl; tauto);
    assert (Forall is_byte [a; b; c]) as Habc by (exact (Forall_take _ 3 _ Hl));
    pose proof (RawURLEncoding.sextets_range _ Habc) as Hs; apply Forall_app; split; [|by apply IH].
  1,2: pose proof (RawURLEncoding.sextets_range _ Hl) as Hs; apply Forall_app; split;
    [|by repeat constructor; unfold is_byte; lia].
  all: apply Forall_map; eapply Forall_impl; [exact Hs|]; intros s Hsx; cbn;
    destruct (char_of_plain _ Hsx) as (? & ? & ? & _); done.
Qed.

Lemma std_Decode_Encode l : Forall is_byte l ->
  DecodeString (EncodeToString l) = Some l.
Proof.
  intros Hl. pose proof (encode_plain l Hl) as Hp. unfold DecodeString, EncodeToString.
  rewrite bytes_of_string_of by (eapply Forall_impl; [exact Hp|]; by intros c []).
  replace (filter _ (encode l)) with (encode l); [by apply decode_encode|].
  symmetry. induction Hp as [|c m (_ & H10 & H13) _ IH]; [done|].
  by rewrite filter_cons_True, IH.
Qed.

(** What is decoded are bytes. *)
Lemma value_of_range c s : value_of c = Some s -> is_sextet s.
Proof.
  unfold value_of, RawURLEncoding.value_of, in_range, RawURLEncoding.is_sextet. intros E.
  repeat case_match; simplify_eq; rewrite ?andb_true_iff, ?Z.leb_le in *; lia.
Qed.

Lemma mapM_value_range l vs : mapM value_of l = Some vs -> Forall is_sextet vs.
Proof.
  intros Hm. apply mapM_Some in Hm. induction Hm as [|c v l vs Hv _ IH]; constructor; [|done].
  by eapply value_of_range.
Qed.

Lemma unsextets_bytes vs d : (length vs <= 4)%nat -> Forall is_sextet vs ->
  RawURLEncoding.unsextets vs = Some d -> Forall is_byte d.
Proof.
  intros Hl Hs E. destruct vs as [|p [|q [|r [|v [|x l]]]]]; cbn in Hl; [..|lia];
    cbn in E; try discriminate E; injection E as <-; rewrite ?Forall_cons in Hs;
    repeat constructor; unfold RawURLEncoding.is_sextet in *; Z.to_euclidean_division_equations; lia.
Qed.

Lemma group_bytes l d : (length l <= 4)%nat ->
  (vs ← mapM value_of l; RawURLEncoding.unsextets vs) = Some d -> Forall is_byte d.
Proof.
  intros Hl E. destruct (mapM value_of l) as [vs|] eqn:Hm; [|done].
  apply (unsextets_bytes vs); [|by eapply mapM_value_range|exact E].
  apply mapM_Some, Forall2_length in Hm. lia.
Qed.

Lemma decode_bytes l d : decode l = Some d -> Forall is_byte d.
Proof.
  remember (length l) as n eqn:Hn. revert l d Hn.
  induction n as [n IH] using (well_founded_induction lt_wf). intros l d Hn E.
  destruct l as [|p [|q [|r [|s l]]]]; try discriminate E; [by injection E as <-|].
  destruct l as [|z l].
  - cbn [decode] in E. destruct (_ && _).
    + by apply (group_bytes [p; q]); [cbn; lia|].
    + destruct (s =? 61).
      * by apply (group_bytes [p; q; r]); [cbn; lia|].
      * by apply (group_bytes [p; q; r; s]); [cbn; lia|].
  - assert ((vs ← mapM value_of [p; q; r; s]; bytes ← RawURLEncoding.unsextets vs;
      rest ← decode (z :: l); Some (bytes ++ rest)) = Some d) as E' by exact E.
    destruct (vs ← mapM value_of [p; q; r; s]; RawURLEncoding.unsextets vs) as [bytes|] eqn:Hg.
    + apply group_bytes in Hg as Hb; [|cbn; lia].
      destruct (mapM value_of [p; q; r; s]) as [vs|]; [|done].
      change (Some ?x ≫= ?f) with (f x) in E', Hg. cbv beta in E', Hg. rewrite Hg in E'.
      change (Some ?x ≫= ?f) with (f x) in E'. cbv beta in E'.
      destruct (decode (z :: l)) as [rest|] eqn:Hr; [|done]. injection E' as <-.
      apply Forall_app. split; [done|]. eapply (IH (length (z :: l))); [|reflexivity|exact Hr].
      subst n. cbn. lia.
    + destruct (mapM value_of [p; q; r; s]) as [vs|]; [|done].
      change (Some ?x ≫= ?f) with (f x) in E', Hg. cbv beta in E', Hg. by rewrite Hg in E'.
Qed.
End base64.

(** ** Presigning *)
Import UploadRepository UploadService.

Lemma digest_length digest : length digest = 16%nat ->
  String.length (StdEncoding.EncodeToString digest) = 24%nat.
Proof.
  intros Hl. unfold StdEncoding.EncodeToString. rewrite length_string_of.
  do 16 (destruct digest as [|? digest]; [discriminate Hl|]). destruct digest; [done|discriminate Hl].
Qed.

Lemma valid_md5_spec contentMD5 :
  valid_md5 contentMD5 = true <->
  exists digest, Forall is_byte digest /\ length digest = 16%nat /\
    contentMD5 = StdEncoding.EncodeToString digest.
Proof.
  unfold valid_md5. split.
  - destruct (StdEncoding.DecodeString contentMD5) as [digest|] eqn:Hd; [|done].
    rewrite !andb_true_iff, !Nat.eqb_eq, bool_decide_eq_true. intros [[_ Hl] He].
    exists digest. split; [by eapply decode_bytes|done].
  - intros (digest & Hb & Hl & ->). rewrite std_Decode_Encode by done.
    by rewrite digest_length, Hl, bool_decide_eq_true_2 by done.
Qed.

(** exactly the well-formed declarations are presigned.  [Presign] accepts an upload
    iff its purpose and its content type are known, its size is positive and within the
    limit, and [content_md5] is the canonical padded base64 of sixteen bytes: every such
    string is accepted, and nothing else, whatever the decoder lets through (line breaks,
    spare bits, other lengths). *)
Theorem presign_accepts_exactly s input purpose directory extension :
  validatePresign s input = inr (purpose, directory, extension) <->
  purpose = pi_Purpose input /\
  purposeDirectories !! purpose = Some directory /\
  contentTypeExtensions !! pi_ContentType input = Some extension /\
  0 < pi_Size input <= us_maxImageBytes s /\
  exists digest, Forall is_byte digest /\ length digest = 16%nat /\
    pi_ContentMD5 input = StdEncoding.EncodeToString digest.
Proof.
  rewrite <- valid_md5_spec. unfold validatePresign. split.
  - intros E. destruct (purposeDirectories !! _) as [d|] eqn:Hd; [|done].
    destruct (contentTypeExtensions !! _) as [x|] eqn:Hx; [|done].
    destruct (_ || _) eqn:Hs; [done|]. destruct (valid_md5 _) eqn:Hm; [|done].
    injection E as <- <- <-. apply orb_false_iff in Hs as [?%Z.leb_gt ?%Z.ltb_ge].
    split_and!; try done; lia.
  - intros (-> & -> & -> & Hs & ->).
    rewrite (proj2 (Z.leb_gt _ _)), (proj2 (Z.ltb_ge _ _)) by lia. done.
Qed.

(** ** Runs that call out *)
Section calls.
Context `{Env} `{Pg} `{Unicode} `{DbClock}.

Lemma sql_inr {R} (m : MT R) u r u' : sql m u = (inr r, u') ->
  m (u_tx u) = (inr r, u_tx u') /\ u_calls u' = u_calls u.
Proof. unfold sql. destruct (m (u_tx u)) as [x tx] eqn:E. by intros [= -> <-]. Qed.

Lemma ask_inr {R} (answer : nat -> R) u r u' : ask answer u = (inr r, u') ->
  u' = u /\ exists k, r = answer k.
Proof. unfold ask. intros [= <- <-]. eauto. Qed.

Lemma tell_inr entry u r u' : tell entry u = (inr r, u') ->
  u_tx u' = u_tx u /\ u_calls u' = u_calls u ++ [entry].
Proof. unfold tell. by intros [= <- <-]. Qed.

(** [Keeps] for transactions that call out, with what they say. *)
Definition Does (D : relation DB) (P : UploadCall -> Prop) {R} (m : UM R) : Prop :=
  forall u r u', m u = (r, u') ->
    D (tx_db (u_tx u)) (tx_db (u_tx u')) /\
    exists calls, u_calls u' = u_calls u ++ calls /\ Forall P calls.

Context (D : relation DB) `{!PreOrder D} (P : UploadCall -> Prop).

Lemma does_quiet {R} (m : UM R) :
  (forall u r u', m u = (r, u') -> D (tx_db (u_tx u)) (tx_db (u_tx u')) /\ u_calls u' = u_calls u) ->
  Does D P m.
Proof.
  intros Hm u r u' E. apply Hm in E as [Hd ->]. split; [done|]. exists []. by rewrite app_nil_r.
Qed.

Lemma does_sql {R} (m : MT R) : Keeps D m -> Does D P (sql m).
Proof.
  intros Hm. apply does_quiet. intros u r u'. unfold sql. destruct (m (u_tx u)) as [x tx] eqn:E.
  intros [= _ <-]. split; [by eapply Hm | done].
Qed.
Lemma does_mret {R} (a : R) : Does D P (mret a).
Proof. apply does_quiet. by intros u r u' [= _ <-]. Qed.
Lemma does_throw {R} e : Does D P (throw (A := R) e).
Proof. apply does_quiet. by intros u r u' [= _ <-]. Qed.
Lemma does_ask {R} (answer : nat -> R) : Does D P (ask answer).
Proof. apply does_quiet. by intros u r u' [= _ <-]. Qed.
Lemma does_tell entry : P entry -> Does D P (tell entry).
Proof. intros Hp u r u' [= _ <-]. split; [done|]. exists [entry]. split; [done|]. by constructor. Qed.

Lemma does_bind {R Q} (m : UM R) (k : R -> UM Q) :
  Does D P m -> (forall a, Does D P (k a)) -> Does D P (mbind m k).
Proof.
  intros Hm Hk u r u' E. unfold mbind in E. destruct (m u) as [[e|a] u1] eqn:E1;
    destruct (Hm _ _ _ E1) as (D1 & c1 & C1 & P1).
  - injection E as _ <-. eauto.
  - destruct (Hk _ _ _ _ E) as (D2 & c2 & C2 & P2). split; [by etrans|].
    exists (c1 ++ c2). rewrite C2, C1, app_assoc. split; [done|]. by apply Forall_app.
Qed.
End calls.

(** ** What the expiration takes back *)
(** Rows of the given assets that are pending and unused may retire. *)
Definition retired_asset (now : time) (a : ImageAsset.t) : ImageAsset.t :=
  a <| ImageAsset.PublicURL := PurgedImageURL (ImageAsset.ID a) |>
    <| ImageAsset.Status := ImageStatusRetired |> <| ImageAsset.UpdatedAt := now |>.
Definition unused (db : DB) (a : ImageAsset.t) : bool :=
  bool_decide (ImageAsset.Status a = ImageStatusPending) && negb (referenced (ImageAsset.ID a) db).

Record reclaims (ids : list Z) (db db' : DB) : Prop := {
  rc_rows : forall k, image_assets db' !! k = image_assets db !! k \/
    exists a now, image_assets db !! k = Some a /\ ImageAsset.ID a ∈ ids /\ unused db a = true /\
      image_assets db' !! k = Some (retired_asset now a);
  rc_rest : db' = db <| image_assets := image_assets db' |>;
}.

Lemma assets_same db : db <| image_assets := image_assets db |> = db.
Proof. by destruct db. Qed.

#[export] Instance reclaims_preorder ids : PreOrder (reclaims ids).
Proof.
  split.
  - intros db. split; [by left|]. by rewrite assets_same.
  - intros x y z [R1 E1] [R2 E2]. split.
    + intros k. destruct (R2 k) as [->|(b & now & Hb & Hid & Hu & ->)]; [apply R1|].
      destruct (R1 k) as [Hk|(a & now' & Ha & _ & _ & Hk)].
      * right. exists b, now. rewrite <- Hk. split; [done|]. split; [done|]. split; [|done].
        unfold unused in *. rewrite E1 in Hu. exact Hu.
      * rewrite Hk in Hb. injection Hb as <-. by unfold unused in Hu.
    + rewrite E2, E1. done.
Qed.

Section expiration.
Context `{Env} `{Pg} `{Unicode} `{DbClock} (s : UploadService).

Lemma reclaims_RetirePurged ids id : id ∈ ids -> Keeps (reclaims ids) (RetirePurged id).
Proof.
  intros Hin. unfold RetirePurged. apply (keeps_bind _); [apply (keeps_Now _)|]. intros now.
  apply (keeps_found_row _). intros tx r tx' E. unfold update_url in E.
  revert E. generalize (eq_refl (tx_db tx)). generalize (tx_db tx) at 1 3. intros db Hdb E.
  destruct r as [e|n]; [apply stmt_inl in E as [-> _]; done|].
  apply stmt_inr_short in E as (E & _). destruct (_ && _); [done|]. injection E as _ <-.
  rewrite <- Hdb. split; [|done]. intros k. cbn. rewrite lookup_fmap.
  destruct (image_assets db !! k) as [a|] eqn:Hk; [|by left]. cbn.
  destruct (retirable id db a) eqn:Hr; [|by left]. right. exists a, now.
  unfold retirable, by_id in Hr. rewrite !andb_true_iff, Z.eqb_eq in Hr.
  destruct Hr as [[<- Hs] Hu]. split; [done|]. split; [done|]. split; [|done].
  unfold unused. by rewrite Hs, Hu.
Qed.

Definition deletes (assets : list ImageAsset.t) (c : UploadCall) : Prop :=
  exists a, a ∈ assets /\ c = CallDelete (ImageAsset.ObjectKey a).

Lemma does_expire_assets all assets result :
  assets ⊆ all ->
  Does (reclaims (map ImageAsset.ID all)) (deletes all) (expire_assets s assets result).
Proof.
  revert result. induction assets as [|a assets IH]; intros result Hsub; cbn [expire_assets];
    [by apply (does_mret _)|].
  assert (a ∈ all) as Ha by (apply Hsub; by left).
  assert (assets ⊆ all) as Hrest by (intros x Hx; apply Hsub; by right).
  apply (does_bind _ _); [apply (does_tell _); by exists a|]. intros _.
  apply (does_bind _ _); [apply (does_ask _)|]. intros [err|]; [by apply IH|].
  apply (does_bind _ _); [|intros _; by apply IH]. apply (does_sql _).
  apply (keeps_on_error _); [|intros e; apply (keeps_internal _)].
  apply reclaims_RetirePurged. by apply list_elem_of_fmap_2.
Qed.

(** Every asset is counted once. *)
Lemma expire_assets_counts assets result u result' u' :
  expire_assets s assets result u = (inr result', u') ->
  ue_Selected result' = ue_Selected result /\
  ue_Retired result' + Z.of_nat (length (ue_Failures result')) =
  ue_Retired result + Z.of_nat (length (ue_Failures result)) + Z.of_nat (length assets).
Proof.
  revert result u. induction assets as [|a assets IH]; intros result u E; cbn [expire_assets] in E.
  { injection E as <- _. cbn. lia. }
  apply mbind_inr in E as (? & u1 & _ & E). apply mbind_inr in E as ([err|] & u2 & _ & E).
  - apply IH in E as [-> E]. cbn in *. rewrite length_app in E. cbn in E. lia.
  - apply mbind_inr in E as (? & u3 & _ & E). apply IH in E as [-> E]. cbn in *. lia.
Qed.

Definition batch_limit (options : ExpirePendingOptions) : Z :=
  if ep_Limit options <=? 0 then defaultExpiredUploadBatch else ep_Limit options.
Definition expired_assets (options : ExpirePendingOptions) (db : DB) : list ImageAsset.t :=
  firstn (Z.to_nat (batch_limit options))
    (sort_by older (select (expired (ep_Before options) db) (image_assets db))).

Lemma batch_limit_positive options : 0 < batch_limit options.
Proof. unfold batch_limit. case_match; [done|lia]. Qed.

Lemma expired_assets_elem options db a : a ∈ expired_assets options db ->
  expired (ep_Before options) db a = true /\ exists k, image_assets db !! k = Some a.
Proof.
  intros Ha. apply elem_of_take in Ha as (i & Ha & _).
  by apply list_elem_of_lookup_2, elem_of_sort_by, elem_of_select in Ha.
Qed.

Lemma ExpirePending_does options u r u' :
  ExpirePending s options u = (r, u') ->
  let db := tx_db (u_tx u) in
  let assets := expired_assets options db in
  reclaims (map ImageAsset.ID assets) db (tx_db (u_tx u')) /\
  (exists calls, u_calls u' = u_calls u ++ calls /\ Forall (deletes assets) calls) /\
  forall result, r = inr result ->
    ue_Selected result = Z.of_nat (length assets) /\
    (ep_DryRun options = false ->
     ue_Selected result = ue_Retired result + Z.of_nat (length (ue_Failures result))).
Proof.
  intros E db assets. unfold ExpirePending in E. fold (batch_limit options) in E.
  unfold mbind at 1, sql in E. destruct (on_error _ _ (u_tx u)) as [x tx] eqn:Eq.
  assert (tx_db tx = db /\ forall l, x = inr l -> l = assets) as [Hdb Hx].
  { unfold on_error, LockExpiredPending in Eq. destruct (query _ (u_tx u)) as [[e|l] tx1] eqn:E1.
    - cbn in Eq. injection Eq as <- <-. split; [|done]. cbn. by apply stmt_inl in E1 as [-> _].
    - injection Eq as <- <-. apply query_inr in E1 as (-> & -> & _). split; [done|].
      by intros l [= <-]. }
  destruct x as [e|l].
  { injection E as <- <-. cbn. rewrite Hdb. split; [done|]. split; [|done].
    exists []. by rewrite app_nil_r. }
  rewrite (Hx l eq_refl) in E. destruct (ep_DryRun options) eqn:Hdry.
  - injection E as <- <-. cbn. rewrite Hdb. split; [done|]. split.
    + exists []. by rewrite app_nil_r.
    + intros result [= <-]. done.
  - pose proof (does_expire_assets assets assets _ (reflexivity assets) _ _ _ E) as [Hr Hc].
    cbn in Hr, Hc. rewrite Hdb in Hr. split; [exact Hr|]. split; [exact Hc|].
    intros result ->. apply expire_assets_counts in E as [-> E]. cbn in *. split; [done|lia].
Qed.
End expiration.

(** ** A batch of the expiration worker *)
Section worker.
Context `{Env} `{Pg} `{Unicode} `{DbClock} `{!Interference DB}.

Lemma InUploadTx_cases {R} (fn : UM R) (w : World DB (list UploadCall)) r w' :
  InUploadTx fn w = (r, w') ->
  let u := mkUTx (begin_tx false (interfere w)) (w_ext w) in
  ((exists e, r = inl e /\ w_db w' = w_db (interfere w)) \/
   (exists v tx1, r = inr v /\ fst (fn u) = inr v /\
      BeforeCommitQueue_Run interp_before (u_tx (snd (fn u))) = (inr tt, tx1) /\
      w_db w' = tx_db tx1)) /\
  (w_ext w' = w_ext w \/ w_ext w' = u_calls (snd (fn u))).
Proof.
  intros E u. unfold InUploadTx in E. change (w_ext (interfere w)) with (w_ext w) in E.
  destruct (RunInTx _ _ _) as [x w1] eqn:Er. apply RunInTx_cases in Er.
  assert (w_db w' = w_db w1 /\ r = x /\
    (w_ext w' = w_ext w1 \/ w_ext w' = u_calls (snd (fn u)))) as (Hd & -> & Hx).
  { injection E as <- <-. destruct (env_begin _); cbn; auto. }
  destruct Er as [(e & -> & Hdb & He)|(v & tx & tx1 & -> & Hf & Hb & _ & Hdb & He)].
  - split; [left; exists e; split; [done|congruence]|]. rewrite He in Hx. exact Hx.
  - split; [right|rewrite He in Hx; exact Hx]. exists v, tx1. fold u in Hf.
    destruct (fn u) as [y u'] eqn:Ef. injection Hf as -> <-. cbn. split_and!; try done. congruence.
Qed.

Import PendingUploadExpirationWorker.

(** An expired image: pending, older than the retention, in no post, nobody's avatar. *)
Definition stale (before : time) (db : DB) (a : ImageAsset.t) : Prop :=
  ImageAsset.Status a = ImageStatusPending /\ ImageAsset.CreatedAt a < before /\
  referenced (ImageAsset.ID a) db = false.

Lemma expired_stale before db a : expired before db a = true -> stale before db a.
Proof.
  unfold expired. rewrite !andb_true_iff, bool_decide_eq_true, negb_true_iff, Z.ltb_lt.
  by intros [[? ?] ?].
Qed.

Lemma interp_before_assets (tx tx' : TxD) : BeforeCommitQueue_Run interp_before tx = (inr tt, tx') ->
  image_assets (tx_db tx') = image_assets (tx_db tx).
Proof.
  intros E. unfold BeforeCommitQueue_Run in E.
  refine (keeps_run_before (unchanged image_assets) interp_before _ _ _ _ _ E).
  intros [sid now]. cbn. by apply (keeps_exec _).
Qed.

(** C25: the expiration takes back only what nobody uses.  Whatever the storage answers and
    the database refuses, a batch deletes only objects of images that were pending, older
    than the retention, in no post and nobody's avatar when it began; if it commits, the
    assets that changed are among these and are retired behind a tombstone URL, and every
    image selected is counted as retired or failed, at most a batch of them; if it fails no
    table has changed, but the objects deleted so far stay deleted. *)
Theorem expiration_safe wk (w w' : World DB (list UploadCall)) r :
  let db := w_db (interfere w) in
  let before := env_now (c_now (w_ctr w)) + wrap64 (- Retention (options wk)) in
  0 < Retention (options wk) -> keyed ImageAsset.ID (image_assets db) ->
  RunBatch wk w = (r, w') ->
  (exists calls, w_ext w' = w_ext w ++ calls /\
     Forall (fun c => exists k a, image_assets db !! k = Some a /\ stale before db a /\
       c = CallDelete (ImageAsset.ObjectKey a)) calls) /\
  match r with
  | inl _ => w_db w' = db
  | inr result =>
      (forall k, image_assets (w_db w') !! k = image_assets db !! k \/
         exists a now, image_assets db !! k = Some a /\ stale before db a /\
           image_assets (w_db w') !! k = Some (retired_asset now a)) /\
      ue_Selected (re_Result result) = ue_Retired (re_Result result) +
        Z.of_nat (length (ue_Failures (re_Result result))) /\
      ue_Selected (re_Result result) <= (if BatchSize (options wk) <=? 0 then 100
                                         else BatchSize (options wk))
  end.
Proof.
  intros db before Hret Hk E. unfold RunBatch in E.
  rewrite (proj2 (Z.leb_gt _ _) Hret) in E. unfold mbind at 1, NowW in E. cbn beta iota zeta in E.
  set (w1 := w <| w_ctr := _ |>) in E.
  set (o := mkExpireOptions _ _ _) in E.
  assert (w_db (interfere w1) = db) as Hdb by reflexivity.
  unfold mbind in E. destruct (InUploadTx (ExpirePending (uploads wk) o) w1) as [x w2] eqn:Et.
  apply InUploadTx_cases in Et as [Hcase Hext]. rewrite Hdb in Hcase.
  change (w_ext w1) with (w_ext w) in Hext.
  set (u := mkUTx _ _) in Hcase, Hext.
  destruct (ExpirePending (uploads wk) o u) as [y u'] eqn:Ee. cbn [fst snd] in Hcase, Hext.
  apply ExpirePending_does in Ee as (Hrec & (calls & Hcalls & Hdel) & Hcount).
  change (tx_db (u_tx u)) with db in Hrec, Hdel, Hcount. change (u_calls u) with (w_ext w) in Hcalls.
  assert (w' = w2) as -> by (destruct x; by injection E). split.
  { destruct Hext as [-> | ->].
    - exists []. by rewrite app_nil_r.
    - exists calls. split; [exact Hcalls|]. eapply Forall_impl; [exact Hdel|].
      intros c (a & Ha & ->). apply expired_assets_elem in Ha as [Hx [k Ha]].
      exists k, a. split; [done|]. split; [by apply expired_stale in Hx|done]. }
  destruct Hcase as [(e & -> & Hw)|(v & tx1 & -> & -> & Hb & Hw)]; injection E as <-; [exact Hw|].
  destruct (Hcount v eq_refl) as [Hsel Hsum]. specialize (Hsum eq_refl). split; [|split].
  - intros k. rewrite Hw. apply interp_before_assets in Hb. rewrite Hb.
    destruct (rc_rows _ _ _ Hrec k) as [Hr|(a & now & Ha & Hid & _ & Hr)]; [by left|].
    right. exists a, now. split; [done|]. split; [|done].
    apply list_elem_of_fmap in Hid as (a' & Hid & Ha').
    apply expired_assets_elem in Ha' as [Hx [k' Hk']].
    assert (k' = k) as -> by (rewrite <- (Hk _ _ Hk'), <- (Hk _ _ Ha); done).
    rewrite Ha in Hk'. injection Hk' as <-. by apply expired_stale in Hx.
  - exact Hsum.
  - cbn [re_Result]. rewrite Hsel. unfold expired_assets.
    rewrite length_firstn. pose proof (batch_limit_positive o) as Hpos.
    set (n := length (sort_by _ _)). change (if BatchSize (options wk) <=? 0 then 100 else _)
      with (batch_limit o). lia.
Qed.
End worker.

(** ** Completing an upload *)
(** What the moderation service leaves of an image: all but its verdict. *)
Definition object_of (a : ImageAsset.t) : string * option Z * string * option Z :=
  (ImageAsset.PublicURL a, ImageAsset.Size a, ImageAsset.Status a, ImageAsset.UploaderID a).
Definition objects (db : DB) : gmap Z (string * option Z * string * option Z) :=
  object_of <$> image_assets db.

(** The verdicts on the images, and the records of the reviews. *)
Definition verdicts (db : DB) : gmap Z string := ImageAsset.Moderation <$> image_assets db.
Definition reviewed (db : DB) := (moderation_records db, verdicts db).

(** Access to an object is none of the two. *)
Definition stored (db : DB) := (image_assets db, moderation_records db).
Class ObjectFree `{Env} (access : ImageAccessController) :=
  access_stored : forall a r p q, Keeps (unchanged stored) (Apply access a r p q).
#[export] Instance discard_object_free `{Env} : ObjectFree DiscardAccess.
Proof. intros a r p q. cbn. solve_keeps. Qed.
#[export] Instance durable_object_free `{Env} : ObjectFree DurableAccess.
Proof.
  intros a r p q. cbn. unfold DurableImageAccess_Apply, ImageAccessOutbox.Enqueue.
  solve_keeps. apply (keeps_stmt _). intros db n db' E. unfold unchanged.
  unfold ImageAccessOutbox.enqueue in E. repeat case_match; naive_solver.
Qed.

Lemma stored_unchanged {S} (f : DB -> S) (g : _ -> S) {R} (m : MT R) :
  (forall db, f db = g (stored db)) -> Keeps (unchanged stored) m -> Keeps (unchanged f) m.
Proof. intros Hf Hm tx r tx' E. apply Hm in E. unfold unchanged in *. by rewrite !Hf, E. Qed.

Section completion.
Context `{Env} `{Pg} `{Unicode} `{DbClock}.
Context (s : UploadService) `{!ObjectFree (us_access s)}.

Lemma access_objects a r p q : Keeps (unchanged objects) (Apply (us_access s) a r p q).
Proof. by apply (stored_unchanged _ (fun x => object_of <$> fst x)), access_stored. Qed.
Lemma access_reviewed a r p q : Keeps (unchanged reviewed) (Apply (us_access s) a r p q).
Proof.
  apply (stored_unchanged _ (fun x => (snd x, ImageAsset.Moderation <$> fst x))); [done|].
  apply access_stored.
Qed.

Lemma objects_applyImageResult callback job :
  Keeps (unchanged objects) (ModerationService.applyImageResult (us_access s) callback job).
Proof.
  assert (forall r, Keeps (unchanged objects) (ModerationRepository.CreateMachineRecordIfNew r)).
  { intros r. unfold ModerationRepository.CreateMachineRecordIfNew. solve_keeps.
    apply (keeps_stmt _). intros db x db'. case_match; [by intros [= _ <-]|].
    destruct (insert_record _ _ _) eqn:Ei; [done|]. intros [= _ <-].
    by apply insert_record_inr in Ei as (_ & _ & ->). }
  assert (forall id st, Keeps (unchanged objects) (ModerationRepository.UpdateImageModeration id st)).
  { intros. unfold ModerationRepository.UpdateImageModeration.
    apply (keeps_found_row _), (keeps_stmt _). intros db n db' [= _ <-].
    unfold unchanged, objects. cbn. rewrite <- map_fmap_compose. apply map_fmap_ext.
    intros i a _. cbn. by case_match. }
  assert (forall ids, Keeps (unchanged objects) (ModerationRepository.ReconcilePendingPosts ids)).
  { intros ids. unfold ModerationRepository.ReconcilePendingPosts,
      ModerationRepository.decide_posts. solve_keeps; apply (keeps_stmt _); by intros db n db' [= _ <-]. }
  assert (forall id, Keeps (unchanged objects) (ModerationRepository.DeleteForAsset id))
    by (intros; by apply (keeps_exec _)).
  pose proof access_objects.
  unfold ModerationService.applyImageResult, ModerationService.reconcileDuplicateImageResult,
    ModerationService.applyImageAccess, ModerationService.reconcileImageAccess,
    ModerationRepository.LockPendingPostsForImage, ModerationRepository.LockImagesForPosts,
    ModerationRepository.FindMachineRecordByProviderJobID.
  solve_keeps.
Qed.

(** What the verdict of a provider did: it is the recorded one of a task that was reported
    before, and nothing was judged again; or it is stored as a new record about the image and
    is now the image's verdict, and no other image's changed. *)
Definition judged (callback : ImageModerationCallback) (db db' : DB) : Prop :=
  (reviewed db' = reviewed db /\ exists k r, moderation_records db !! k = Some r /\
     ModerationRecord.ImageAssetID r = Some (cb_ImageAssetID callback) /\
     ModerationRecord.Provider r = cb_Provider callback /\
     ModerationRecord.ProviderJobID r = Some (cb_ProviderJobID callback)) \/
  (exists k r, moderation_records db !! k = None /\
     moderation_records db' = <[k := r]> (moderation_records db) /\
     ModerationRecord.ImageAssetID r = Some (cb_ImageAssetID callback) /\
     ModerationRecord.Provider r = cb_Provider callback /\
     ModerationRecord.Verdict r = cb_Verdict callback /\
     is_Some (image_assets db !! cb_ImageAssetID callback) /\
     verdicts db' = <[cb_ImageAssetID callback := cb_Verdict callback]> (verdicts db)).

Lemma CreateMachineRecord_stores record (tx : TxD) created tx' :
  ModerationRepository.CreateMachineRecordIfNew record tx = (inr created, tx') ->
  match created with
  | None => tx_db tx' = tx_db tx
  | Some r => exists k, r = record <| ModerationRecord.ID := k |> /\
      moderation_records (tx_db tx) !! k = None /\
      tx_db tx' = (tx_db tx) <| moderation_records := <[k := r]> (moderation_records (tx_db tx)) |>
  end.
Proof.
  unfold ModerationRepository.CreateMachineRecordIfNew. intros E.
  apply mbind_inr in E as (id & tx1 & (-> & D & _)%NextID_inr & E).
  apply stmt_inr_short in E as (E & _). rewrite D in E. case_match; [by injection E as <- <-|].
  destruct (insert_record _ _ _) eqn:Ei; [done|]. injection E as <- <-.
  apply insert_record_inr in Ei as (Hn & _ & ->). by eexists.
Qed.

Lemma UpdateImage_sets id status (tx : TxD) tx' :
  keyed ImageAsset.ID (image_assets (tx_db tx)) ->
  ModerationRepository.UpdateImageModeration id status tx = (inr tt, tx') ->
  is_Some (image_assets (tx_db tx) !! id) /\
  moderation_records (tx_db tx') = moderation_records (tx_db tx) /\
  verdicts (tx_db tx') = <[id := status]> (verdicts (tx_db tx)).
Proof.
  intros Hk E. apply found_row_inr in E as (n & E & Hn). apply stmt_inr_short in E as (E & _).
  unfold ModerationRepository.set_moderation in E.
  destruct (update_where _ _ _) as [n' t] eqn:Eu. injection E as <- <-. cbn.
  apply (f_equal fst) in Eu as Ec. apply (f_equal snd) in Eu. cbn in Ec, Eu. subst n' t.
  destruct (select _ _) as [|a l] eqn:Hs; [done|].
  assert (a ∈ select (fun b => ImageAsset.ID b =? id) (image_assets (tx_db tx)))
    as [Hid%Z.eqb_eq [k Ha]]%elem_of_select by (rewrite Hs; by left).
  rewrite (Hk _ _ Ha) in Hid. subst k. split; [by exists a|]. split; [done|].
  unfold verdicts. cbn. apply map_eq. intros k.
  rewrite !lookup_fmap. destruct (decide (k = id)) as [->|Hne].
  - rewrite lookup_insert_eq, Ha. cbn. by rewrite (Hk _ _ Ha), Z.eqb_refl.
  - rewrite lookup_insert_ne, lookup_fmap by done.
    destruct (image_assets (tx_db tx) !! k) as [b|] eqn:Hb; [|done]. cbn.
    by rewrite (Hk _ _ Hb), (proj2 (Z.eqb_neq k id)).
Qed.

Lemma reviewed_reconcile ids : Keeps (unchanged reviewed) (ModerationRepository.ReconcilePendingPosts ids).
Proof.
  unfold ModerationRepository.ReconcilePendingPosts, ModerationRepository.decide_posts.
  solve_keeps; apply (keeps_stmt _); by intros db n db' [= _ <-].
Qed.
Lemma reviewed_delete id : Keeps (unchanged reviewed) (ModerationRepository.DeleteForAsset id).
Proof. by apply (keeps_exec _). Qed.

Lemma First_inr {R} (f : DB -> option R) (tx : TxD) r tx' :
  First f tx = (inr r, tx') -> f (tx_db tx) = Some r /\ tx_db tx' = tx_db tx.
Proof.
  unfold First. intros E. apply mbind_inr in E as (o & tx1 & (-> & Hdb & _)%query_inr & E).
  destruct (f (tx_db tx)) as [v|]; [|done]. injection E as <- <-. done.
Qed.

Lemma duplicate_judged callback asset (tx : TxD) r tx' :
  ModerationService.reconcileDuplicateImageResult (us_access s) callback asset tx = (inr r, tx') ->
  judged callback (tx_db tx) (tx_db tx').
Proof.
  pose proof reviewed_delete. pose proof access_reviewed.
  unfold ModerationService.reconcileDuplicateImageResult. intros E.
  apply mbind_inr in E as (existing & tx1 & E1 & E).
  apply on_error_inr in E1 as [[Hf Hd]%First_inr|(? & ? & _ & E1)]; [|by apply internal_inr in E1].
  apply first_Some in Hf as [[Hp Hj]%andb_true_iff [k Hk]].
  apply bool_decide_eq_true in Hp, Hj.
  destruct (negb (bool_decide (ModerationRecord.ImageAssetID existing = _))) eqn:Hi; [done|].
  apply negb_false_iff, bool_decide_eq_true in Hi. unfold ModerationService.reconcileImageAccess in E.
  keeps_run (unchanged reviewed) E. left. split; [unfold unchanged in *; congruence|].
  by exists k, existing.
Qed.

Lemma applyImageResult_judged callback job (tx : TxD) r tx' :
  keyed ImageAsset.ID (image_assets (tx_db tx)) ->
  ModerationService.applyImageResult (us_access s) callback job tx = (inr r, tx') ->
  judged callback (tx_db tx) (tx_db tx').
Proof.
  intros Hk E. pose proof reviewed_reconcile. pose proof reviewed_delete.
  pose proof access_reviewed. unfold ModerationService.applyImageResult in E.
  apply mbind_inr in E as ([] & s0 & [_ <-]%lift_inr & E).
  apply mbind_inr in E as (ids & s1 & E1 & E). apply mbind_inr in E as (assets & s2 & E2 & E).
  apply mbind_inr in E as (asset & s3 & [_ <-]%lift_inr & E).
  apply mbind_inr in E as (now & s3 & (_ & D3 & _)%Now_inr & E).
  apply mbind_inr in E as (created & s4 & E4 & E).
  unfold ModerationRepository.LockPendingPostsForImage in E1.
  unfold ModerationRepository.LockImagesForPosts in E2.
  keeps_run (unchanged (fun db : DB => db)) E1. keeps_run (unchanged (fun db : DB => db)) E2.
  assert (tx_db s3 = tx_db tx) as D by (unfold unchanged in *; congruence). clear E1 E2 D3.
  apply on_error_inr in E4 as [E4 | (? & ? & _ & E4)]; [|by apply internal_inr in E4].
  apply CreateMachineRecord_stores in E4. rewrite D in E4.
  destruct created as [record|]; [|apply duplicate_judged in E; by rewrite <- E4].
  destruct E4 as (k & -> & Hn & D4).
  apply mbind_inr in E as ([] & s5 & E5 & E).
  apply on_error_inr in E5 as [E5 | (? & ? & _ & E5)].
  2:{ unfold ModerationService.to_api in E5. by apply mbind_inr in E5 as (? & ? & _ & [=]). }
  apply UpdateImage_sets in E5 as (Hi & Hr & Hv); [|by rewrite D4].
  unfold ModerationService.applyImageAccess in E. keeps_run (unchanged reviewed) E.
  unfold unchanged, reviewed in E. injection E as Er Ev. rewrite D4 in Hi, Hr, Hv.
  right. eexists k, _. split_and!; [exact Hn|by rewrite Er, Hr|done|done|done|exact Hi|].
  by rewrite Ev, Hv.
Qed.

Lemma objects_enqueue id code : Keeps (unchanged objects) (enqueueModerationRetry id code).
Proof.
  unfold enqueueModerationRetry, ImageModerationRetryRepository.Enqueue. solve_keeps.
  apply (keeps_stmt _). intros db r db'. unfold ImageModerationRetryRepository.enqueue.
  repeat case_match; by intros [= _ <-].
Qed.

Lemma objects_submitted asset url answer : Keeps (unchanged objects) (submitted s asset url answer).
Proof.
  pose proof objects_enqueue. pose proof objects_applyImageResult.
  unfold submitted, ModerationService.ApplyImageResult. solve_keeps.
Qed.

(** What the moderation of a completed upload is owed, by the provider's answer. *)
Definition refused (answer : goerr + ImageModerationSubmission) : bool :=
  match answer with
  | inl _ => true
  | inr sub => match is_Immediate sub with
               | Some _ => false
               | None => ImageModerationRetryWorker.no_job sub
               end
  end.
Definition queued (id : Z) (db : DB) : Prop := is_Some (retries db !! id).

Definition owed (a : ImageAsset.t) (url : string) (answer : goerr + ImageModerationSubmission)
    (db db' : DB) (result : UploadCompleteResult) : Prop :=
  let outcome shown verdict := mkCompleteResult (ImageAsset.ID a) (ImageAsset.ObjectKey a) shown
    ImageStatusPending verdict in
  if refused answer
  then queued (ImageAsset.ID a) db' /\ reviewed db' = reviewed db /\
       result = outcome url ModerationStatusPending
  else match answer with
       | inr sub =>
           match is_Immediate sub with
           | Some callback => judged callback db db' /\
               retries db' !! cb_ImageAssetID callback = None /\
               result = outcome (if bool_decide (cb_Verdict callback = ModerationStatusBlock)
                                 then "" else url)%string (cb_Verdict callback)
           | None => reviewed db' = reviewed db /\ result = outcome url ModerationStatusPending
           end
       | inl _ => False
       end.

Lemma enqueue_queued id code (tx : TxD) r tx' :
  enqueueModerationRetry id code tx = (inr r, tx') -> queued id (tx_db tx').
Proof.
  unfold enqueueModerationRetry. intros E. apply mbind_inr in E as (now & tx1 & _ & E).
  apply on_error_inr in E as [E | (? & ? & _ & E)]; [|by apply internal_inr in E].
  unfold ImageModerationRetryRepository.Enqueue in E. apply stmt_inr_short in E as (E & _).
  unfold ImageModerationRetryRepository.enqueue in E. unfold queued.
  destruct (retries (tx_db _) !! id) as [r0|] eqn:Hr; [injection E as _ <-; by rewrite Hr|].
  destruct (image_assets _ !! id); [|done]. injection E as _ <-. cbn. rewrite lookup_insert_eq. eauto.
Qed.

Context `{!RetryFree (us_access s)}.

Lemma enqueue_reviewed id code : Keeps (unchanged reviewed) (enqueueModerationRetry id code).
Proof.
  unfold enqueueModerationRetry, ImageModerationRetryRepository.Enqueue. solve_keeps.
  apply (keeps_stmt _). intros db r db'. unfold ImageModerationRetryRepository.enqueue.
  repeat case_match; by intros [= _ <-].
Qed.

Lemma submitted_owed asset url answer (tx : TxD) result tx' :
  submitted s asset url answer tx = (inr result, tx') ->
  ImageAsset.Status asset = ImageStatusPending ->
  keyed ImageModerationRetry.ImageAssetID (retries (tx_db tx)) ->
  keyed ImageAsset.ID (image_assets (tx_db tx)) ->
  owed asset url answer (tx_db tx) (tx_db tx') result.
Proof.
  intros E Hst Hk Ha. unfold submitted in E. unfold owed, refused. rewrite <- Hst.
  assert (forall code, (enqueueModerationRetry (ImageAsset.ID asset) code ;;;
      mret (uploadCompletePendingResult asset url)) tx = (inr result, tx') ->
    queued (ImageAsset.ID asset) (tx_db tx') /\ reviewed (tx_db tx') = reviewed (tx_db tx) /\
    result = uploadCompletePendingResult asset url) as Hq.
  { intros code Eq. apply mbind_inr in Eq as (? & tx1 & Eq & [= <- <-]).
    pose proof (enqueue_reviewed _ _ _ _ _ Eq). by apply enqueue_queued in Eq. }
  destruct answer as [e|sub]; [by apply Hq in E|].
  destruct (is_Immediate sub) as [callback|].
  - apply mbind_inr in E as (? & tx1 & E & [= <- <-]). split; [by eapply applyImageResult_judged|].
    split; [|done]. exact (cleared_applyImageResult _ _ _ _ _ _ E Hk).
  - destruct (ImageModerationRetryWorker.no_job sub); [by apply Hq in E|]. by injection E as <- <-.
Qed.

Lemma MarkComplete_inr id url size (tx : TxD) r tx' :
  MarkComplete id url size tx = (inr r, tx') ->
  exists now, tx_db tx' = (tx_db tx) <| image_assets :=
    snd (update_where (by_id id) (fun a => a <| ImageAsset.PublicURL := url |>
      <| ImageAsset.Size := Some size |> <| ImageAsset.UpdatedAt := now |>)
      (image_assets (tx_db tx))) |>.
Proof.
  unfold MarkComplete. intros E. apply mbind_inr in E as (now & tx1 & (-> & Hdb & _)%Now_inr & E).
  unfold PostRepository.found_row in E. apply mbind_inr in E as (n & tx2 & E & Er).
  apply stmt_inr_short in E as (E & _). destruct (_ && _); [done|]. injection E as _ E.
  case_match; [done|]. injection Er as _ <-. eexists. rewrite <- E, Hdb. reflexivity.
Qed.

(** What the storage confirmed before a completion went through. *)
Record confirmed (a : ImageAsset.t) (userID size : Z) : Prop := {
  cf_owner : ImageAsset.UploaderID a = Some userID;
  cf_status : ImageAsset.Status a = ImageStatusPending;
  cf_fresh : ImageAsset.PublicURL a = ""%string;
  cf_size : 0 < size <= us_maxImageBytes s;
  cf_declared : forall declared, ImageAsset.Size a = Some declared -> size = declared;
}.

Lemma validateStoredObject_inr asset meta u r u' :
  validateStoredObject s asset meta u = (inr r, u') ->
  u' = u /\ 0 < sm_ContentLength meta <= us_maxImageBytes s /\
  forall declared, ImageAsset.Size asset = Some declared -> sm_ContentLength meta = declared.
Proof.
  assert (forall message, delete_mismatch s asset message u <> (inr r, u')) as Hno.
  { intros message E. unfold delete_mismatch in E.
    apply mbind_inr in E as (? & u1 & _ & E). apply mbind_inr in E as (f & u2 & _ & E).
    by destruct f. }
  unfold validateStoredObject. destruct (_ || _) eqn:Hs; [by intros E%Hno|].
  apply orb_false_iff in Hs as [?%Z.leb_gt ?%Z.ltb_ge].
  destruct (ImageAsset.Size asset) as [size|].
  - destruct (Z.eqb_spec (sm_ContentLength meta) size); [|by intros E%Hno].
    intros [= _ <-]. split; [done|]. split; [lia|]. by intros d [= <-].
  - intros [= _ <-]. split; [done|]. split; [lia|done].
Qed.

Lemma Complete_inr uploadID userID u result u' :
  keyed ImageAsset.ID (image_assets (tx_db (u_tx u))) ->
  Complete s uploadID userID u = (inr result, u') ->
  exists a meta url answer k tx1,
    image_assets (tx_db (u_tx u)) !! uploadID = Some a /\
    confirmed a userID (sm_ContentLength meta) /\
    (exists k1, HeadObject (us_storage s) k1 (ImageAsset.ObjectKey a) = inr meta) /\
    sm_Exists meta = true /\
    (exists k2, PublicURL (us_storage s) k2 (ImageAsset.ObjectKey a) = inr url) /\
    answer = SubmitImage (us_imageModerator s) k (mkImageRequest uploadID (ImageAsset.ObjectKey a)) /\
    u_calls u' = u_calls u ++ [CallSubmitImage (mkImageRequest uploadID (ImageAsset.ObjectKey a))] /\
    (exists now, tx_db tx1 = (tx_db (u_tx u)) <| image_assets :=
       snd (update_where (by_id uploadID) (fun a => a <| ImageAsset.PublicURL := url |>
         <| ImageAsset.Size := Some (sm_ContentLength meta) |> <| ImageAsset.UpdatedAt := now |>)
         (image_assets (tx_db (u_tx u)))) |>) /\
    submitted s a url answer tx1 = (inr result, u_tx u') /\ ImageAsset.ID a = uploadID.
Proof.
  intros Hk E. unfold Complete in E. apply mbind_inr in E as (a & u1 & [E1 C1]%sql_inr & E).
  apply on_error_inr in E1 as [E1|(e & tx & _ & E1)].
  2:{ unfold ModerationService.to_api in E1. by apply mbind_inr in E1 as (? & ? & _ & [=]). }
  apply First_inr in E1 as [Hf D1]. apply first_Some in Hf as [Hid [k0 Ha]].
  apply Z.eqb_eq in Hid. pose proof (Hk _ _ Ha) as Hk0. subst k0. rewrite Hid in Ha.
  destruct (negb (bool_decide (ImageAsset.UploaderID a = _))) eqn:Ho; [done|].
  apply negb_false_iff, bool_decide_eq_true in Ho.
  destruct (_ || _) eqn:Hst; [done|]. apply orb_false_iff in Hst as [Hst Hurl].
  apply negb_false_iff, bool_decide_eq_true in Hst, Hurl.
  apply mbind_inr in E as (head & u2 & [-> [k1 Hhead]]%ask_inr & E).
  destruct head as [|meta]; [done|].
  destruct (negb (sm_Exists meta)) eqn:Hex; [done|]. apply negb_false_iff in Hex.
  apply mbind_inr in E as (? & u3 & (-> & Hsize & Hdecl)%validateStoredObject_inr & E).
  apply mbind_inr in E as (url & u4 & [-> [k2 Hpub]]%ask_inr & E). destruct url as [|url]; [done|].
  apply mbind_inr in E as (? & u5 & [E5 C5]%sql_inr & E).
  apply on_error_inr in E5 as [E5|(? & ? & _ & E5)]; [|by apply internal_inr in E5].
  apply MarkComplete_inr in E5 as [now D5].
  apply mbind_inr in E as (? & u6 & [D6 C6]%tell_inr & E).
  apply mbind_inr in E as (answer & u7 & [-> [k Hans]]%ask_inr & E). apply sql_inr in E as [E C8].
  rewrite Hid in *. exists a, meta, url, answer, k, (u_tx u6).
  split_and!; try done; [by exists k1|by exists k2|..].
  - by rewrite C8, C6, C5, C1.
  - exists now. by rewrite D6, D5, D1.
Qed.

(** What is owed looks at records, verdicts and images only. *)
Lemma owed_from a url answer db db1 db' result :
  reviewed db1 = reviewed db ->
  (forall i, is_Some (image_assets db1 !! i) -> is_Some (image_assets db !! i)) ->
  owed a url answer db1 db' result -> owed a url answer db db' result.
Proof.
  intros Hr Hd. unfold owed, judged. rewrite Hr. injection Hr as Hm Hv. rewrite Hm, Hv.
  destruct (refused answer); [done|]. destruct answer as [|sub]; [done|].
  destruct (is_Immediate sub) as [callback|]; [|done]. intros [Hj Hres]. split; [|done].
  destruct Hj as [?|(k & r & ? & ? & ? & ? & ? & ? & ?)]; [by left|right].
  exists k, r. split_and!; auto.
Qed.

(** C24: a completed upload is not lost to moderation.  When [Complete] succeeds, the upload
    was the caller's, pending and not completed before; the storage answered a HEAD of its
    object, which exists, with a size that is positive, within the limit and the declared one;
    afterwards the image carries the public URL the storage gave for that object and that
    size, still pending; the moderator was asked once, about this image.  If it failed or gave
    no usable job, a retry row exists and the caller is told "pending"; an immediate verdict
    was applied ([judged]: it is the image's verdict and stored as a record, unless the same
    task was reported before), no retry of its image is left, and it is reported, with no URL
    when it blocks; otherwise nothing is judged yet and the caller is told "pending". *)
Theorem complete_effect uploadID userID u result u' :
  keyed ImageAsset.ID (image_assets (tx_db (u_tx u))) ->
  keyed ImageModerationRetry.ImageAssetID (retries (tx_db (u_tx u))) ->
  Complete s uploadID userID u = (inr result, u') ->
  exists a meta url answer k a',
    image_assets (tx_db (u_tx u)) !! uploadID = Some a /\
    confirmed a userID (sm_ContentLength meta) /\
    (exists k1, HeadObject (us_storage s) k1 (ImageAsset.ObjectKey a) = inr meta) /\
    sm_Exists meta = true /\
    (exists k2, PublicURL (us_storage s) k2 (ImageAsset.ObjectKey a) = inr url) /\
    image_assets (tx_db (u_tx u')) !! uploadID = Some a' /\
    object_of a' = (url, Some (sm_ContentLength meta), ImageStatusPending, Some userID) /\
    answer = SubmitImage (us_imageModerator s) k (mkImageRequest uploadID (ImageAsset.ObjectKey a)) /\
    u_calls u' = u_calls u ++ [CallSubmitImage (mkImageRequest uploadID (ImageAsset.ObjectKey a))] /\
    ImageAsset.ID a = uploadID /\
    owed a url answer (tx_db (u_tx u)) (tx_db (u_tx u')) result.
Proof.
  intros Hk Hr E. apply Complete_inr in E as
    (a & meta & url & answer & k & tx1 & Ha & Hc & Hhead & Hex & Hpub & Hans & Hcalls & [now D1] &
     E & Hid); [|done].
  pose proof (objects_submitted _ _ _ _ _ _ E) as Ho.
  assert (reviewed (tx_db tx1) = reviewed (tx_db (u_tx u)) /\
    keyed ImageAsset.ID (image_assets (tx_db tx1))) as [Hrv Hk1].
  { rewrite D1. split.
    - unfold reviewed, verdicts. cbn. f_equal. rewrite <- map_fmap_compose.
      apply map_fmap_ext. intros i b _. cbn. by case_match.
    - cbn. apply keyed_fmap; [|done]. intros b. by case_match. }
  assert (retries (tx_db tx1) = retries (tx_db (u_tx u))) as Hrt by (by rewrite D1).
  assert (forall i, is_Some (image_assets (tx_db tx1) !! i) ->
    is_Some (image_assets (tx_db (u_tx u)) !! i)) as Hdom.
  { intros i. rewrite D1. cbn. rewrite lookup_fmap. by intros [? (b & -> & _)%fmap_Some]. }
  apply submitted_owed in E; [|apply Hc|by rewrite Hrt|done].
  unfold unchanged, objects in Ho.
  assert (object_of <$> image_assets (tx_db (u_tx u')) !! uploadID =
    Some (url, Some (sm_ContentLength meta), ImageStatusPending, Some userID)) as Ha'.
  { rewrite <- lookup_fmap, Ho, lookup_fmap, D1. cbn -[update_where]. rewrite update_where_lookup, Ha.
    cbn. unfold by_id. rewrite Hid, Z.eqb_refl. unfold object_of. cbn.
    by rewrite (cf_status _ _ _ Hc), (cf_owner _ _ _ Hc). }
  apply fmap_Some in Ha' as (a' & Ha' & Hobj). exists a, meta, url, answer, k, a'.
  split_and!; try done. by eapply owed_from.
Qed.
End completion.
