(* ===== verification/UploadExamples.v ===== *)
(** * Uploads and their retries: runs of the model

    An upload from the declaration to the verdict, the hypotheses of the theorems met, and
    the retry that never ends. *)

From S2P Require Import Prelude.
From S2P Require Import GoText.
From S2P Require Import Apierr.
From S2P Require Import Effects.
From S2P Require Import Logic.
From S2P Require Import Model.
From S2P Require Import AuthRepo.
From S2P Require Import AuthService.
From S2P Require Import ImageAccess.
From S2P Require Import PostRepo.
From S2P Require Import Moderation.
From S2P Require Import PostTables.
From S2P Require Import Concrete.
From S2P Require Import PostExamples.
From S2P Require Import ImageRetry.
From S2P Require Import ImageRetryProps.
From S2P Require Import Upload.
From S2P Require Import UploadProps.
Open Scope Z_scope.
Import UploadService.
Import ImageModerationRetryRepository.
Import ImageModerationRetryWorker.

(** ** A storage that has what was declared, and two moderators *)
Definition storage0 : Storage := Upload.mkStorage
  (fun _ r => inr (mkTicket ("https://cos/" +:+ sr_ObjectKey r) (start_time + Hour)))
  (fun _ key _ => inr ("https://cos/" +:+ key +:+ "?sig")%string)
  (fun _ _ => inr (mkMeta true 10))
  (fun _ _ => None)
  (fun _ key => inr ("https://img/" +:+ key)%string).

Definition down : ImageModerator := mkImageModerator (fun _ _ => inl (ENew "timeout")).
Definition uploads_with (m : ImageModerator) : UploadService :=
  NewUploadService (Some storage0) (Some m) (Some DurableAccess) 1000 Minute Hour.

Definition db_alice : DB := empty_db <| users := {[ 1 := alice ]} |>.
Definition ctr0 : Ctr := mkCtr 0 0 0 0 200.
Definition begun (db : DB) : UTx :=
  mkUTx (begin_tx false (mkWorld (X := unit) db ctr0 tt)) [].
Definition tables (u : UTx) : DB := tx_db (u_tx u).

Definition declaration : UploadPresignInput :=
  mkPresignInput ImagePurposePost "image/png" 10 "AAAAAAAAAAAAAAAAAAAAAA==".
Definition presigned : UTx := snd (Presign (uploads_with down) 1 declaration (begun db_alice)).

Example presign_runs :
  fst (Presign (uploads_with down) 1 declaration (begun db_alice)) =
    inr (mkPresignResult 201 "PUT"
           "https://cos/posts/1/2026/01/00000000000000000000000000000000.png" (start_time + Hour)).
Proof. vm_compute. reflexivity. Qed.
(** The decoder accepts spare bits and line breaks; [Presign] does not. *)
Example digest_spare_bits : valid_md5 "AAAAAAAAAAAAAAAAAAAAAB==" = false.
Proof. vm_compute. reflexivity. Qed.
Example digest_short : valid_md5 "AAAA" = false.
Proof. vm_compute. reflexivity. Qed.

(** ** Completing it while the moderator is down *)
Definition db_presigned : DB := tables presigned.
Definition completing (m : ImageModerator) : (goerr + UploadCompleteResult) * UTx :=
  Complete (uploads_with m) 201 1 (begun db_presigned).
Definition db_completed : DB := tables (snd (completing down)).

#[local] Strategy 100 [completing].

Example completed_pending :
  uc_Moderation <$> (match fst (completing down) with inr r => Some r | inl _ => None end) =
    Some ModerationStatusPending /\
  ImageModerationRetry.Attempts <$> retries db_completed !! 201 = Some 1.
Proof. vm_compute. split; reflexivity. Qed.

(** With the pass-all moderator the verdict is there at once, and no retry. *)
Example completed_passed :
  uc_Moderation <$> (match fst (completing DirectPassImageModerator) with
                     | inr r => Some r | inl _ => None end) = Some ModerationStatusPass /\
  retries (tables (snd (completing DirectPassImageModerator))) !! 201 = None.
Proof. vm_compute. split; reflexivity. Qed.

Lemma keyed_one {A} (id : A -> Z) k (r : A) t :
  t = {[ k := r ]} -> id r = k -> keyed id t.
Proof. intros -> Hr k' r' [<- <-]%lookup_singleton_Some. exact Hr. Qed.
Lemma keyed_none {A} (id : A -> Z) t : t = ∅ -> keyed id t.
Proof. by intros -> k r Hr. Qed.

Definition asset_presigned : ImageAsset.t :=
  ImageAsset.mk 201 (Some 1) ImagePurposePost
    "posts/1/2026/01/00000000000000000000000000000000.png" "" "image/png" (Some 10)
    ImageStatusPending ModerationStatusPending (start_time + Second) (start_time + Second).
Lemma presigned_assets : image_assets db_presigned = {[ 201 := asset_presigned ]}.
Proof. vm_compute. reflexivity. Qed.
Lemma presigned_retries : retries db_presigned = ∅.
Proof. vm_compute. reflexivity. Qed.

Definition completed_result : UploadCompleteResult := mkCompleteResult 201
  "posts/1/2026/01/00000000000000000000000000000000.png"
  "https://img/posts/1/2026/01/00000000000000000000000000000000.png"
  ImageStatusPending ModerationStatusPending.

Lemma completing_ok : completing down = (inr completed_result, snd (completing down)).
Proof.
  assert (fst (completing down) = inr completed_result) as <- by (vm_compute; reflexivity).
  apply surjective_pairing.
Qed.

Lemma complete_effect_witness :
  exists answer, refused answer = true /\
    owed asset_presigned (uc_PublicURL completed_result) answer db_presigned
      (tables (snd (completing down))) completed_result.
Proof.
  destruct (complete_effect (uploads_with down) 201 1 (begun db_presigned) completed_result
    (snd (completing down)) (keyed_one _ 201 asset_presigned _ presigned_assets eq_refl)
    (keyed_none _ _ presigned_retries) completing_ok)
    as (a & meta & url & answer & k & a' & Ha & _ & _ & _ & [k2 Hurl] & _ & _ & Hans & _ & _ & Ho).
  exists answer. split; [rewrite Hans; reflexivity|].
  change (image_assets db_presigned !! 201 = Some a) in Ha.
  rewrite presigned_assets in Ha. apply lookup_singleton_Some in Ha as [_ <-].
  assert (url = uc_PublicURL completed_result) as <-
    by (vm_compute in Hurl; by injection Hurl as <-).
  exact Ho.
Defined.

(** ** The retry worker *)
Definition worker_with (m : ImageModerator) : Worker :=
  NewImageModerationRetryWorker m DurableAccess (mkOptions 0 Second 0 0 0).
Abbreviation WorldR := (World DB (list ImageModerationRequest)).
Definition later : Ctr := mkCtr 60 1 0 0 300.
Definition w_queue : WorldR := mkWorld db_completed later [].
Definition row201 (w : WorldR) : option ImageModerationRetry.t := retries (w_db w) !! 201.

#[local] Strategy 100 [w_queue db_completed].

(** The verdict arrives with the first retry. *)
Example retry_concludes :
  fst (RunBatch (worker_with DirectPassImageModerator) w_queue) =
    inr (ImageModerationRetryWorker.mkResult 1 0 1 0 0 0, []) /\
  row201 (snd (RunBatch (worker_with DirectPassImageModerator) w_queue)) = None.
Proof. vm_compute. split; reflexivity. Qed.

Definition queue_row : ImageModerationRetry.t :=
  first_retry 201 (start_time + 31 * Second) "submit_failed" (start_time + Second).
Lemma completed_retries : retries db_completed = {[ 201 := queue_row ]}.
Proof. vm_compute. reflexivity. Qed.

Lemma retry_budget0 : MaxAttempts (options (worker_with down)) = 8.
Proof. reflexivity. Qed.

Lemma queue_ok : retries_ok (MaxAttempts (options (worker_with down))) (w_db w_queue).
Proof.
  rewrite retry_budget0. split; change (retries (w_db w_queue)) with (retries db_completed);
    rewrite completed_retries; intros k r [<- <-]%lookup_singleton_Some; [done|].
  apply first_retry_ok; [done|in_list].
Qed.

Lemma retry_batch_invariant_witness :
  retries_ok (MaxAttempts (options (worker_with down)))
    (w_db (snd (RunBatch (worker_with down) w_queue))).
Proof.
  exact (retry_batch_invariant (worker_with down) (fun _ _ Hok => Hok) w_queue _ _
    (surjective_pairing (RunBatch (worker_with down) w_queue)) queue_ok).
Defined.

(** ** One turn *)
Definition lease0 : string := "0123456789abcdef".
Definition row_leased : ImageModerationRetry.t :=
  leased lease0 (start_time + 61 * Second) (start_time + Minute) queue_row.
Definition claim0 : Claim :=
  mkClaim row_leased "posts/1/2026/01/00000000000000000000000000000000.png" ModerationStatusPending.
Definition claimed (db : DB) : WorldR :=
  mkWorld (db <| image_moderation_retries := {[ 201 := row_leased ]} |>) later [].

Lemma claim_holds db : holds 201 claim0 (claimed db).
Proof.
  assert (retries (w_db (claimed db)) = {[ 201 := row_leased ]}) as Ht by reflexivity.
  split; [|rewrite Ht; apply lookup_singleton_eq|reflexivity|discriminate].
  exact (keyed_one _ 201 row_leased _ Ht eq_refl).
Qed.

Definition next_row : ImageModerationRetry.t :=
  rescheduled 2 (start_time + 120 * Second) "submit_failed" (start_time + 60 * Second) row_leased.

Lemma down_turn :
  turn_row (options (worker_with down)) (Moderation claim0)
    (answer_in (worker_with down) (claimed db_completed) claim0)
    (env_now (c_now (w_ctr (claimed db_completed)))) (cl_row claim0) = (Rescheduled, Some next_row).
Proof. vm_compute. reflexivity. Qed.

Lemma retry_turn_effect_witness :
  exists w', processClaim (worker_with down) claim0 (claimed db_completed) = (inr Rescheduled, w') /\
    retries (w_db w') = partial_alter (fun _ => Some next_row) 201 (retries (w_db (claimed db_completed))) /\
    w_ext w' = [request_of claim0].
Proof.
  exact (retry_turn_effect (fun _ _ => eq_refl) (worker_with down) 201 claim0
    (claimed db_completed) Rescheduled (Some next_row) (claim_holds db_completed)
    (fun _ s Hs => match Hs in _ = y return
       match y with inl _ => True | inr s' => is_Immediate s' = None end with eq_refl => I end)
    down_turn).
Defined.

Lemma one_reschedule : exists o, waits_after (worker_with down) (inr o) queue_row next_row.
Proof.
  destruct (retry_turn_effect (fun _ _ => eq_refl) (worker_with down) 201 claim0
    (claimed db_completed) Rescheduled (Some next_row) (claim_holds db_completed)) as (w' & E & Hr & _).
  - intros _ s Hs. vm_compute in Hs. discriminate Hs.
  - exact down_turn.
  - exists Rescheduled, 201, claim0, lease0, (start_time + 61 * Second), (start_time + Minute),
      (claimed db_completed), w'. split; [reflexivity|]. split; [apply claim_holds|].
    split; [exact E|]. split; [by rewrite Hr, lookup_partial_alter_eq|reflexivity].
Qed.

Lemma retry_bounded_witness : ImageModerationRetry.Attempts next_row < 8.
Proof.
  destruct one_reschedule as [o Ho].
  exact (proj1 (proj2 (retry_bounded (fun _ _ => eq_refl) (worker_with down) [true] queue_row next_row
    (turns_counted _ [] o _ _ _ Ho (turns_nil _ _)))) (list_elem_of_here true [])).
Defined.

(** ** The upload is taken back before it was judged *)
Definition expiring : PendingUploadExpirationWorker.Worker :=
  PendingUploadExpirationWorker.NewPendingUploadExpirationWorker (uploads_with down)
    (PendingUploadExpirationWorker.mkOptions Second 0).
Definition w_expire : World DB (list UploadCall) := mkWorld db_completed later [].
Definition w_expired : World DB (list UploadCall) :=
  snd (PendingUploadExpirationWorker.RunBatch expiring w_expire).
Definition db_expired : DB := w_db w_expired.

Example expired_once :
  w_ext w_expired = [CallDelete "posts/1/2026/01/00000000000000000000000000000000.png"] /\
  ImageAsset.PublicURL <$> image_assets db_expired !! 201 = Some (PurgedImageURL 201) /\
  row201 (mkWorld db_expired later []) = Some queue_row.
Proof. vm_compute. split_and!; reflexivity. Qed.

Definition asset_completed : ImageAsset.t :=
  ImageAsset.mk 201 (Some 1) ImagePurposePost
    "posts/1/2026/01/00000000000000000000000000000000.png"
    "https://img/posts/1/2026/01/00000000000000000000000000000000.png" "image/png" (Some 10)
    ImageStatusPending ModerationStatusPending (start_time + Second) start_time.
Lemma completed_assets : image_assets (w_db (interfere w_expire)) = {[ 201 := asset_completed ]}.
Proof. vm_compute. reflexivity. Qed.

#[local] Strategy 100 [w_expired w_expire].

Lemma expiration_safe_witness :
  exists calls, w_ext w_expired = w_ext w_expire ++ calls.
Proof.
  destruct (expiration_safe expiring w_expire w_expired _ (eq_refl : (0 ?= Second) = Lt)
    (keyed_one _ 201 asset_completed _ completed_assets eq_refl)
    (surjective_pairing (PendingUploadExpirationWorker.RunBatch expiring w_expire)))
    as [(calls & Hc & _) _].
  exists calls. exact Hc.
Defined.

(** ** The retry that never ends *)
(** The moderator is back, and answers at once: the verdict cannot be applied to the
    purged image, and nothing counts the attempts. *)
Fixpoint batches (n : nat) (w : WorldR) : WorldR :=
  match n with
  | O => w
  | S n' => batches n' (snd (RunBatch (worker_with DirectPassImageModerator) w))
  end.
Definition w_stuck : WorldR := mkWorld db_expired later [].

Example twenty_submissions :
  let w := batches 40 w_stuck in
  (20 <= length (w_ext w))%nat /\
  ImageModerationRetry.Attempts <$> row201 w = Some 1 /\
  ImageModerationRetry.State <$> row201 w = Some ImageModerationRetryPending.
Proof. vm_compute. split_and!; [lia|reflexivity|reflexivity]. Qed.

#[local] Strategy 100 [db_expired].

Lemma expired_purged : purged 201 (w_db (interfere (claimed db_expired))).
Proof.
  assert (image_assets (w_db (interfere (claimed db_expired))) =
    {[ 201 := retired_asset (start_time + 61 * Second) asset_completed ]}) as Ht
    by (vm_compute; reflexivity).
  intros k a Ha _. rewrite Ht in Ha. apply lookup_singleton_Some in Ha as [_ <-].
  vm_compute. reflexivity.
Qed.

Lemma refused_verdict_not_counted_witness :
  exists e, fst (processClaim (worker_with DirectPassImageModerator) claim0 (claimed db_expired)) = inl e.
Proof.
  exact (proj1 (refused_verdict_not_counted (worker_with DirectPassImageModerator) claim0
    (claimed db_expired) _ _ _ _ eq_refl eq_refl eq_refl expired_purged
    (surjective_pairing (processClaim _ claim0 (claimed db_expired))))).
Defined.
