(* ===== verification/Administration.v ===== *)
(** * Administration of users and tags: [internal/service/admin_users.go],
    [internal/service/admin_tags.go]

    The writes of [internal/repository/admin_write.go] to accounts, with the constraints of
    migrations 00001 and 00003 on the tables: banning a user revokes every session, roles
    are granted and revoked, and all leave a record.  Tags
    ([internal/repository/admin_tags.go]) are listed, renamed, merged, taken down and
    restored; a rename and a merge change what posts say, so every post with the tag gets a
    version more, written by the administrator. *)

From S2P Require Import Prelude.
From S2P Require Import GoText.
From S2P Require Import Apierr.
From S2P Require Import Effects.
From S2P Require Import Authz.
From S2P Require Import Model.
From S2P Require Import Pagination.
From S2P Require Import AuthRepo.
From S2P Require Import AuthService.
From S2P Require Import Money.
From S2P Require Import PostValidation.
From S2P Require Import PostRepo.
From S2P Require Import Moderation.
From S2P Require Import PostService.
From S2P Require Import DictionaryRepo.

Open Scope Z_scope.

(** ** internal/repository/admin_write.go *)
Module AdminRepository.
Record UserBanState := mkBanState {
  bs_IsPermanent : bool; bs_Until : option time; bs_Reason : option string;
  bs_ActorID : option Z }.
(** The zero value: no ban. *)
Definition no_ban : UserBanState := mkBanState false None None None.

(** [btrim(reason) <> '']; a NULL reason is refused. *)
Definition reasoned (reason : option string) : bool :=
  match reason with Some r => negb (only_spaces r) | None => false end.
Definition short_reason (reason : option string) : bool :=
  match reason with Some r => varchar 200 r | None => true end.

(** [users_ban_kind_check] and [users_ban_fields_check]. *)
Definition ban_check (s : UserBanState) : bool :=
  negb (bs_IsPermanent s && is_set (bs_Until s)) &&
  (if bs_IsPermanent s || is_set (bs_Until s) then reasoned (bs_Reason s)
   else negb (is_set (bs_Reason s)) && negb (is_set (bs_ActorID s))).

(** [user_ban_records_action_check], [.._kind_check] and [.._fields_check]. *)
Definition ban_record_check (r : UserBanRecord.t) : bool :=
  negb (UserBanRecord.BanIsPermanent r && is_set (UserBanRecord.BannedUntil r)) &&
  (if bool_decide (UserBanRecord.Action r = UserBanActionBan)
   then (UserBanRecord.BanIsPermanent r || is_set (UserBanRecord.BannedUntil r)) &&
        reasoned (UserBanRecord.Reason r)
   else bool_decide (UserBanRecord.Action r = UserBanActionUnban) &&
        negb (UserBanRecord.BanIsPermanent r) && negb (is_set (UserBanRecord.BannedUntil r)) &&
        negb (is_set (UserBanRecord.Reason r))).

(** A nullable reference to a user. *)
Definition known_user (id : option Z) (db : DB) : bool :=
  match id with Some i => is_set (users db !! i) | None => true end.

Definition set_ban (s : UserBanState) (now : time) (u : User.t) : User.t :=
  u <| User.BanIsPermanent := bs_IsPermanent s |> <| User.BannedUntil := bs_Until s |>
    <| User.BanReason := bs_Reason s |> <| User.BannedBy := bs_ActorID s |>
    <| User.UpdatedAt := now |>.

Section ops.
Context `{Env}.

Definition of_id (userID : Z) (u : User.t) : bool := User.ID u =? userID.

Definition LockUserByID (userID : Z) (IncludeDeleted : bool) : MT User.t :=
  First (fun db =>
    first (fun u => of_id userID u && (IncludeDeleted || UserRepository.live u)) (users db)).

(** The CHECKs and the foreign key concern the rows the statement changes. *)
Definition update_ban (userID : Z) (state : UserBanState) (now : time) (db : DB)
    : goerr + Z * DB :=
  let p u := of_id userID u && UserRepository.live u in
  if negb (exists_row p (users db)) then inr (0, db)
  else if negb (short_reason (bs_Reason state)) then inl (EPg "22001" "")
  else if negb (ban_check state) then inl (EPg "23514" "users_ban_fields_check")
  else if negb (known_user (bs_ActorID state) db) then inl (EPg "23503" "fk_users_banned_by")
  else
    let '(n, t) := update_where p (set_ban state now) (users db) in
    inr (n, db <| users := t |>).
Definition UpdateUserBan (userID : Z) (state : UserBanState) (now : time) : MT unit :=
  PostRepository.found_row (stmt (update_ban userID state now)).

Definition insert_ban_record (r : UserBanRecord.t) (db : DB) : goerr + unit * DB :=
  if negb (short_reason (UserBanRecord.Reason r)) then inl (EPg "22001" "")
  else if negb (ban_record_check r) then inl (EPg "23514" "user_ban_records_fields_check")
  else if negb (known_user (Some (UserBanRecord.UserID r)) db &&
                known_user (UserBanRecord.ActorID r) db) then inl (EPg "23503" "")
  else match insert_row "user_ban_records_pkey" (UserBanRecord.ID r) r (user_ban_records db) with
       | inl err => inl err
       | inr t => inr (tt, db <| user_ban_records := t |>)
       end.
Definition CreateUserBanRecord (record : UserBanRecord.t) : MT unit :=
  let* id := NextID in stmt (insert_ban_record (record <| UserBanRecord.ID := id |>)).

(** [INSERT ... ON CONFLICT DO NOTHING]: whether a row was inserted. *)
Definition grant (userID : Z) (role : UserRole) (actorID : Z) (now : time) (db : DB)
    : goerr + bool * DB :=
  if negb (IsManagedRole role) then inl (EPg "23514" "user_roles_role_check")
  else match user_roles db !! (userID, role) with
       | Some _ => inr (false, db)
       | None =>
           if negb (known_user (Some userID) db && known_user (Some actorID) db)
           then inl (EPg "23503" "")
           else inr (true, db <| user_roles :=
             <[(userID, role) := UserRoleBinding.mk userID role (Some actorID) now]>
               (user_roles db) |>)
       end.
Definition GrantUserRole (userID : Z) (role : UserRole) (actorID : Z) (now : time) : MT bool :=
  stmt (grant userID role actorID now).

Definition revoke (userID : Z) (role : UserRole) (db : DB) : bool * DB :=
  (is_set (user_roles db !! (userID, role)),
   db <| user_roles := delete (userID, role) (user_roles db) |>).
Definition RevokeUserRole (userID : Z) (role : UserRole) : MT bool :=
  stmt (fun db => inr (revoke userID role db)).

Definition role_record_check (r : UserRoleRecord.t) : bool :=
  IsManagedRole (UserRoleRecord.Role r) &&
  (bool_decide (UserRoleRecord.Action r = UserRoleActionGrant) ||
   bool_decide (UserRoleRecord.Action r = UserRoleActionRevoke)).
Definition insert_role_record (r : UserRoleRecord.t) (db : DB) : goerr + unit * DB :=
  if negb (role_record_check r) then inl (EPg "23514" "")
  else if negb (known_user (Some (UserRoleRecord.UserID r)) db &&
                known_user (UserRoleRecord.ActorID r) db) then inl (EPg "23503" "")
  else match insert_row "user_role_records_pkey" (UserRoleRecord.ID r) r
               (user_role_records db) with
       | inl err => inl err
       | inr t => inr (tt, db <| user_role_records := t |>)
       end.
Definition CreateUserRoleRecord (record : UserRoleRecord.t) : MT unit :=
  let* id := NextID in stmt (insert_role_record (record <| UserRoleRecord.ID := id |>)).
End ops.
End AdminRepository.

(** ** internal/service/admin_users.go *)
Module AdminService.
Import AdminRepository.

Record UpdateAdminUserStatusInput := mkStatusInput {
  si_IsActive : option bool;
  si_BanIsPermanent : option bool;
  si_BannedUntil : option time;
  si_BanReason : option string;
  si_LegacyReason : option string;
}.
Record AdminUserStatusResult := mkStatusResult {
  sr_UserID : Z; sr_IsActive : bool; sr_IsBanned : bool; sr_BanIsPermanent : bool;
  sr_BannedUntil : option time; sr_BanReason : option string; sr_BannedBy : option Z }.
Record AdminUserRoleResult := mkRoleResult {
  rr_UserID : Z; rr_Role : UserRole; rr_Action : string; rr_Changed : bool;
  rr_Roles : list UserRole }.

Definition normalizeBanReason (reason : option string) : goerr + string :=
  match reason with
  | None => inl (EApi (InvalidField "ban_reason" FieldRequired "ban_reason 必填且不能为空"))
  | Some r =>
      let value := TrimSpace r in
      if bool_decide (value = ""%string)
      then inl (EApi (InvalidField "ban_reason" FieldRequired "ban_reason 必填且不能为空"))
      else if 200 <? RuneCountInString value
      then inl (EApi (InvalidField "ban_reason" FieldTooLong "ban_reason 不能超过 200 个字符"))
      else inr value
  end.

(** The state to write, and whether it is a ban. *)
Definition permanentBan (reason : option string) (actorID : Z) : goerr + UserBanState * bool :=
  match normalizeBanReason reason with
  | inl err => inl err
  | inr r => inr (mkBanState true None (Some r) (Some actorID), true)
  end.
Definition timedBan (until : time) (reason : option string) (actorID : Z)
    : goerr + UserBanState * bool :=
  match normalizeBanReason reason with
  | inl err => inl err
  | inr r => inr (mkBanState false (Some until) (Some r) (Some actorID), true)
  end.

Definition normalizeLegacyAdminBan (input : UpdateAdminUserStatusInput) (isActive : bool)
    (actorID : Z) : goerr + UserBanState * bool :=
  if is_set (si_BanIsPermanent input) || is_set (si_BannedUntil input) ||
     is_set (si_BanReason input)
  then inl (EApi (InvalidField "is_active" FieldConflict "is_active 不能与 v2 封禁字段混用"))
  else if isActive then
    if is_set (si_LegacyReason input)
    then inl (EApi (InvalidField "reason" FieldConflict "解封时不能保留 reason"))
    else inr (no_ban, false)
  else permanentBan (si_LegacyReason input) actorID.

Definition normalizeAdminBan (input : UpdateAdminUserStatusInput) (actorID : Z) (now : time)
    : goerr + UserBanState * bool :=
  match si_IsActive input with
  | Some isActive => normalizeLegacyAdminBan input isActive actorID
  | None =>
      let permanent := bool_decide (si_BanIsPermanent input = Some true) in
      match si_BannedUntil input with
      | Some until =>
          if permanent
          then inl (EApi (InvalidField "banned_until" FieldConflict
                 "永久封禁不能同时设置 banned_until"))
          else if negb (time_After until now)
          then inl (EApi (InvalidField "banned_until" FieldOutOfRange
                 "banned_until 必须晚于当前时间"))
          else timedBan until (si_BanReason input) actorID
      | None =>
          if permanent then permanentBan (si_BanReason input) actorID
          else if negb (is_set (si_BanIsPermanent input))
          then inl (EApi (InvalidField "ban_is_permanent" FieldRequired
                 "封禁时必须设置 banned_until 或将 ban_is_permanent 设为 true"))
          else if is_set (si_BanReason input) || is_set (si_LegacyReason input)
          then inl (EApi (InvalidField "ban_reason" FieldConflict "解封时不能保留 ban_reason"))
          else inr (no_ban, false)
      end
  end.

Definition isCurrentlyBanned (user : User.t) (now : time) : bool :=
  User.BanIsPermanent user ||
  match User.BannedUntil user with Some until => time_After until now | None => false end.

Definition ban_record (userID actorID : Z) (state : UserBanState) (banned : bool) (now : time)
    : UserBanRecord.t :=
  UserBanRecord.mk 0 userID (if banned then UserBanActionBan else UserBanActionUnban)
    (bs_IsPermanent state) (bs_Until state) (bs_Reason state) (Some actorID) now.
Definition role_record (userID actorID : Z) (role : UserRole) (action : string) (now : time)
    : UserRoleRecord.t := UserRoleRecord.mk 0 userID role action (Some actorID) now.

Section service.
Context `{Env} `{Pg}.

Definition UpdateUserStatus (userID actorID : Z) (input : UpdateAdminUserStatusInput)
    : MT AdminUserStatusResult :=
  let* now := Now in
  let* valid := lift (normalizeAdminBan input actorID now) in
  let '(state, banned) := valid in
  let* _ := on_error (LockUserByID userID false) (ModerationService.to_api BizNotFound "用户") in
  on_error (UpdateUserBan userID state now) (ModerationService.to_api BizNotFound "用户") ;;;
  on_error (CreateUserBanRecord (ban_record userID actorID state banned now)) internal ;;;
  (if (banned : bool) then on_error (SessionRepository.RevokeAll userID now) internal
   else mret tt) ;;;
  mret (mkStatusResult userID (negb banned) banned (bs_IsPermanent state) (bs_Until state)
          (bs_Reason state) (bs_ActorID state)).

(** The role and the action, trimmed. *)
Definition normalize_role_change (rawRole rawAction : string) : goerr + UserRole * string :=
  let role := TrimSpace rawRole in
  if negb (IsManagedRole role)
  then inl (EApi (InvalidField "role" FieldInvalidEnum
         "role 必须是 dict_reviewer、moderator 或 super_admin"))
  else
    let action := TrimSpace rawAction in
    if negb (bool_decide (action = UserRoleActionGrant)) &&
       negb (bool_decide (action = UserRoleActionRevoke))
    then inl (EApi (InvalidField "action" FieldInvalidEnum "action 必须是 grant 或 revoke"))
    else inr (role, action).

Definition UpdateUserRole (userID actorID : Z) (rawRole rawAction : string)
    : MT AdminUserRoleResult :=
  let* valid := lift (normalize_role_change rawRole rawAction) in
  let '(role, action) := valid in
  let* _ := on_error (LockUserByID userID false) (ModerationService.to_api BizNotFound "用户") in
  let* now := Now in
  let* changed := on_error
    (if bool_decide (action = UserRoleActionGrant) then GrantUserRole userID role actorID now
     else RevokeUserRole userID role) internal in
  (if (changed : bool) then
     on_error (CreateUserRoleRecord (role_record userID actorID role action now)) internal
   else mret tt) ;;;
  let* roles := on_error (UserRepository.FindRoles userID) internal in
  mret (mkRoleResult userID role action changed roles).
End service.
End AdminService.

(** [subject ILIKE pattern ESCAPE '\']. *)
Class PgLike := pg_ilike : string -> string -> bool.

(** [strings.NewReplacer] of base.go: a backslash before every metacharacter. *)
Definition escape_char (c : ascii) : string :=
  if bool_decide (c = "\"%char) || bool_decide (c = "%"%char) || bool_decide (c = "_"%char)
  then String "\" (String c "") else String c "".
Definition literalContainsPattern (value : string) : string :=
  "%" +:+ String.concat "" (map escape_char (String.list_ascii_of_string value)) +:+ "%".

(** ** internal/repository/admin_tags.go *)
Module AdminTagRepository.
Record AdminTagFilter := mkTagFilter {
  tf_Name : option string; tf_Moderation : option string; tf_IsDeleted : option bool }.
Record HotTagRecord := mkHotTag { ht_ID : Z; ht_Name : string; ht_PostCount : Z }.

(** [tags_name_not_blank_check], [tags_name_trimmed_check], [varchar(10)]. *)
Definition name_state (name : string) : option string := column_state (varchar 10 name) (trimmed name).

Definition of_id (tagID : Z) (t : Tag.t) : bool := Tag.ID t =? tagID.

Section ops.
Context `{Env} `{Pg}.

Definition matches `{PgLike} (f : AdminTagFilter) (t : Tag.t) : bool :=
  match tf_Name f with
  | Some name => pg_ilike (Tag.Name t) (literalContainsPattern name)
  | None => true
  end &&
  match tf_Moderation f with Some m => bool_decide (Tag.Moderation t = m) | None => true end &&
  match tf_IsDeleted f with Some b => Bool.eqb (is_set (Tag.DeletedAt t)) b | None => true end.
Definition after_cursor (after : option Cursor.t) (t : Tag.t) : bool :=
  match after with
  | None => true
  | Some k => (Tag.CreatedAt t <? Cursor.CreatedAt k) ||
              (Tag.CreatedAt t =? Cursor.CreatedAt k) && (Tag.ID t <? Cursor.ID k)
  end.
Definition newest_first (a b : Tag.t) : bool :=
  (Tag.CreatedAt b <? Tag.CreatedAt a) ||
  (Tag.CreatedAt a =? Tag.CreatedAt b) && (Tag.ID b <=? Tag.ID a).
Definition FindTagCursorPage `{PgLike} (filter : AdminTagFilter) (params : CursorParams)
    : MT (list Tag.t * bool) :=
  let* rows := query (fun db => firstn (Z.to_nat (cp_Limit params + 1)) (sort_by newest_first
    (select (fun t => matches filter t && after_cursor (After params) t) (tags db)))) in
  let hasMore := cp_Limit params <? Z.of_nat (length rows) in
  mret (if hasMore then firstn (Z.to_nat (cp_Limit params)) rows else rows, hasMore).

Definition LockTagsByIDs (ids : list Z) : MT (list Tag.t) :=
  query (fun db => select (fun t => bool_decide (Tag.ID t ∈ ids)) (tags db)).

Definition FindTagPostIDs (tagID : Z) : MT (list Z) :=
  query (fun db => sort_by Z.leb (map PostTag.PostID
    (where_ (fun pt => PostTag.TagID pt =? tagID) (post_tags db)))).

Definition LockPostsByIDs (ids : list Z) : MT (list Post.t) :=
  match ids with
  | [] => mret []
  | _ => query (fun db => select (fun p => bool_decide (Post.ID p ∈ ids)) (posts db))
  end.

(** The constraints, the unique index on [lower(name)], and the row. *)
Definition rename_tag (tagID : Z) (name : string) (now : time) (db : DB) : goerr + Z * DB :=
  if negb (exists_row (of_id tagID) (tags db)) then inr (0, db)
  else match name_state name with
       | Some state => inl (EPg state "")
       | None =>
           if exists_row (fun t => negb (of_id tagID t) && PostRepository.same_tag name t) (tags db)
           then inl (unique_violation "uq_tags_name_lower")
           else
             let '(n, t) := update_where (of_id tagID)
                 (fun t => t <| Tag.Name := name |> <| Tag.UpdatedAt := now |>) (tags db) in
             inr (n, db <| tags := t |>)
       end.
Definition RenameTag (tagID : Z) (name : string) (now : time) : MT unit :=
  PostRepository.found_row (stmt (rename_tag tagID name now)).

(** [INSERT INTO post_tags SELECT post_id, target ... ON CONFLICT DO NOTHING]. *)
Definition copy_relations (sourceID targetID : Z) (db : DB) : DB :=
  db <| post_tags := foldl (fun t pt =>
    match t !! (PostTag.PostID pt, targetID) with
    | Some _ => t
    | None => <[(PostTag.PostID pt, targetID) := PostTag.mk (PostTag.PostID pt) targetID]> t
    end) (post_tags db) (where_ (fun pt => PostTag.TagID pt =? sourceID) (post_tags db)) |>.
Definition drop_relations (sourceID : Z) (db : DB) : DB :=
  db <| post_tags := delete_where (fun pt => PostTag.TagID pt =? sourceID) (post_tags db) |>.
Definition set_deleted (tagID : Z) (deletedAt : option time) (now : time) (db : DB)
    : goerr + Z * DB :=
  let '(n, t) := update_where (of_id tagID)
      (fun t => t <| Tag.DeletedAt := deletedAt |> <| Tag.UpdatedAt := now |>) (tags db) in
  inr (n, db <| tags := t |>).

Definition MergeTagRelations (sourceID targetID : Z) (now : time) : MT unit :=
  exec (copy_relations sourceID targetID) ;;;
  exec (drop_relations sourceID) ;;;
  PostRepository.found_row (stmt (set_deleted sourceID (Some now) now)).

Definition SetTagDeletedAt (tagID : Z) (deletedAt : option time) (now : time) : MT unit :=
  PostRepository.found_row (stmt (set_deleted tagID deletedAt now)).

(** Published posts with the tag. *)
Definition shown (db : DB) (pt : PostTag.t) : bool :=
  match posts db !! PostTag.PostID pt with
  | Some p => bool_decide (Post.DeletedAt p = None) &&
              bool_decide (Post.Status p = PostStatusApproved)
  | None => false
  end.
Definition hot (db : DB) (t : Tag.t) : HotTagRecord :=
  mkHotTag (Tag.ID t) (Tag.Name t) (Z.of_nat (length
    (where_ (fun pt => (PostTag.TagID pt =? Tag.ID t) && shown db pt) (post_tags db)))).
Definition hottest (a b : HotTagRecord) : bool :=
  if ht_PostCount a =? ht_PostCount b then
    if bool_decide (pg_lower (ht_Name a) = pg_lower (ht_Name b)) then ht_ID a <=? ht_ID b
    else String.leb (pg_lower (ht_Name a)) (pg_lower (ht_Name b))
  else ht_PostCount b <? ht_PostCount a.
Definition FindHotTags (limit : Z) : MT (list HotTagRecord) :=
  query (fun db => firstn (Z.to_nat limit) (sort_by hottest
    (filter (fun r => 0 < ht_PostCount r)
       (map (hot db) (select (fun t => bool_decide (Tag.DeletedAt t = None)) (tags db)))))).
End ops.
End AdminTagRepository.

(** ** internal/service/admin_tags.go *)
Module AdminTagService.
Import AdminTagRepository.

Record AdminTagListInput := mkTagListInput {
  tl_Name : string; tl_Moderation : string; tl_IsDeleted : option bool;
  tl_Pagination : CursorRequest }.
Record AdminTagView := mkTagView {
  tv_ID : Z; tv_Name : string; tv_Moderation : string; tv_IsDeleted : bool;
  tv_DeletedAt : option time; tv_CreatedAt : time; tv_UpdatedAt : time }.
Record AdminTagList := mkTagList { tl_Tags : list AdminTagView; tl_Meta : CursorMeta }.
Record AdminTagMergeResult := mkMergeResult {
  mr_Source : AdminTagView; mr_Target : AdminTagView; mr_AffectedPostCount : Z }.
Record tagAffectedPost := mkAffected { ap_post : Post.t; ap_revision : Z }.

Definition adminTagView (t : Tag.t) : AdminTagView :=
  mkTagView (Tag.ID t) (Tag.Name t) (Tag.Moderation t) (is_set (Tag.DeletedAt t))
    (Tag.DeletedAt t) (Tag.CreatedAt t) (Tag.UpdatedAt t).

Section service.
Context `{Env} `{Pg} `{Unicode} `{Decimal}.

Definition moderation_statuses : list string :=
  [ModerationStatusPending; ModerationStatusPass; ModerationStatusReview; ModerationStatusBlock].
Definition adminTagFilter (input : AdminTagListInput) : goerr + AdminTagFilter :=
  let name := TrimSpace (NFKC_String (tl_Name input)) in
  let name := if bool_decide (name = ""%string) then None else Some name in
  let moderation := TrimSpace (tl_Moderation input) in
  if bool_decide (moderation = ""%string) then inr (mkTagFilter name None (tl_IsDeleted input))
  else if negb (bool_decide (moderation ∈ moderation_statuses))
  then inl (EApi (InvalidField "moderation" FieldInvalidEnum
         "moderation 必须是 pending、pass、review 或 block"))
  else inr (mkTagFilter name (Some moderation) (tl_IsDeleted input)).

Definition normalizeAdminTagName (raw : string) : goerr + string :=
  match snapshotTags (normalizeTags [raw]) with
  | [name] =>
      if bool_decide (name = ""%string)
      then inl (EApi (InvalidField "name" FieldRequired "name 不能为空"))
      else if maxTagRunes <? RuneCountInString name
      then inl (EApi (InvalidField "name" FieldTooLong "name 不能超过 10 个字符"))
      else inr name
  | _ => inl (EApi (InvalidField "name" FieldRequired "name 不能为空"))
  end.

Definition Tags `{PgLike} (tagCursor : CursorCodec) (input : AdminTagListInput)
    : MT AdminTagList :=
  let* params := lift (DecodeRequest tagCursor (tl_Pagination input)) in
  let* filter := lift (adminTagFilter input) in
  let* page := on_error (FindTagCursorPage filter params) internal in
  let '(rows, hasMore) := page in
  let* token :=
    match (if (hasMore : bool) then last rows else None) with
    | Some r => let* t := on_error (Encode tagCursor (Cursor.mk (Tag.CreatedAt r) (Tag.ID r) None))
                            internal in mret (Some t)
    | None => mret None
    end in
  mret (mkTagList (map adminTagView rows) (mkCursorMeta (cp_Limit params) token hasMore)).

(** The revision each post's next version will have, in the order of the locks. *)
Fixpoint next_revisions (ps : list Post.t) : MT (list tagAffectedPost) :=
  match ps with
  | [] => mret []
  | p :: ps' =>
      let* revision := on_error (PostRepository.NextHistoryRevision (Post.ID p)) internal in
      let* rest := next_revisions ps' in
      mret (mkAffected p revision :: rest)
  end.
Definition prepareTagAffectedPosts (tagID : Z) : MT (list tagAffectedPost) :=
  let* postIDs := on_error (FindTagPostIDs tagID) internal in
  let* posts := on_error (LockPostsByIDs postIDs) internal in
  next_revisions posts.

(** One post: the columns, then a version of what it now says. *)
Definition moved_on (revision : Z) (now : time) (p : Post.t) : Post.t :=
  p <| Post.CurrentRevision := revision |> <| Post.UpdatedAt := now |>.
Definition appendTagChangeVersion (a : tagAffectedPost) (actorID : Z) (now : time)
    (reason : string) : MT unit :=
  let p := ap_post a in
  on_error (PostRepository.UpdateContent (Post.ID p) (moved_on (ap_revision a) now))
    postRepositoryError ;;;
  let p := moved_on (ap_revision a) now p in
  let* relations := on_error (PostRepository.LoadSnapshotRelations (Post.ID p)) internal in
  on_error (PostRepository.CreateHistory (PostHistory.mk 0 (Post.ID p) (ap_revision a) actorID now
    (snapshotFromCurrent p relations) (Some reason))) historyWriteError.
Fixpoint appendTagChangeVersions (affected : list tagAffectedPost) (actorID : Z) (now : time)
    (reason : string) : MT unit :=
  match affected with
  | [] => mret tt
  | a :: affected' =>
      appendTagChangeVersion a actorID now reason ;;;
      appendTagChangeVersions affected' actorID now reason
  end.

Definition rename_reason (tagID : Z) : string :=
  "话题标签 #" +:+ FormatInt tagID +:+ " 重命名".
Definition merge_reason (sourceID targetID : Z) : string :=
  "话题标签 #" +:+ FormatInt sourceID +:+ " 合并到 #" +:+ FormatInt targetID.

Definition rename_error {A} (err : goerr) : MT A :=
  if IsSQLState err ["23505"%string]
  then api_error (Conflict BizTagNameConflict "同名标签已存在，请改用标签合并端点")
  else ModerationService.to_api BizTagNotFound "标签" err.

Definition RenameTag (tagID actorID : Z) (rawName : string) : MT AdminTagView :=
  let* name := lift (normalizeAdminTagName rawName) in
  let* tags := on_error (LockTagsByIDs [tagID]) internal in
  match tags with
  | [tag] =>
      if bool_decide (Tag.Name tag = name) then mret (adminTagView tag)
      else
        let* affected := prepareTagAffectedPosts tagID in
        let* now := Now in
        on_error (AdminTagRepository.RenameTag tagID name now) rename_error ;;;
        appendTagChangeVersions affected actorID now (rename_reason tagID) ;;;
        mret (adminTagView (tag <| Tag.Name := name |> <| Tag.UpdatedAt := now |>))
  | _ => api_error (Apierr.NotFound BizTagNotFound "标签")
  end.

Definition MergeTag (sourceID actorID targetTagID : Z) : MT AdminTagMergeResult :=
  if targetTagID =? 0
  then api_error (InvalidField "target_tag_id" FieldInvalidFormat "target_tag_id 必须是正整数")
  else if sourceID =? targetTagID
  then api_error (InvalidField "target_tag_id" FieldConflict "源标签与目标标签不能相同")
  else
    let* tags := on_error (LockTagsByIDs [sourceID; targetTagID]) internal in
    match (if (length tags =? 2)%nat
           then source ← find (of_id sourceID) tags; target ← find (of_id targetTagID) tags;
                Some (source, target) else None) with
    | None => api_error (Apierr.NotFound BizTagNotFound "源标签或目标标签")
    | Some (source, target) =>
        if is_set (Tag.DeletedAt target)
        then api_error (Conflict BizTagMergeTargetInvalid "目标标签已下架，请先恢复")
        else
          let* affected := prepareTagAffectedPosts sourceID in
          let* now := Now in
          on_error (MergeTagRelations sourceID (Tag.ID target) now)
            (ModerationService.to_api BizTagNotFound "标签") ;;;
          appendTagChangeVersions affected actorID now (merge_reason sourceID (Tag.ID target)) ;;;
          mret (mkMergeResult
            (adminTagView (source <| Tag.DeletedAt := Some now |> <| Tag.UpdatedAt := now |>))
            (adminTagView target) (Z.of_nat (length affected)))
    end.

Definition setTagDeleted (tagID : Z) (deleted : bool) : MT AdminTagView :=
  let* tags := on_error (LockTagsByIDs [tagID]) internal in
  match tags with
  | [tag] =>
      let* now := Now in
      let deletedAt := if deleted then Some now else None in
      on_error (SetTagDeletedAt tagID deletedAt now)
        (ModerationService.to_api BizTagNotFound "标签") ;;;
      mret (adminTagView (tag <| Tag.DeletedAt := deletedAt |> <| Tag.UpdatedAt := now |>))
  | _ => api_error (Apierr.NotFound BizTagNotFound "标签")
  end.
Definition DeleteTag (tagID : Z) : MT AdminTagView := setTagDeleted tagID true.
Definition RestoreTag (tagID : Z) : MT AdminTagView := setTagDeleted tagID false.

Definition HotTags (limit : Z) : MT (list HotTagRecord) := on_error (FindHotTags limit) internal.
End service.
End AdminTagService.
