(* ===== verification/AdminUsersProps.v ===== *)
(** * Bans and roles: what a ban is worth, and the ledger of roles

    A ban is written, recorded, revokes every session and locks its user out until it
    ends, whatever requests and units of work follow ([ban_locks_out]).  The records of
    grants and revocations are never changed and always balance with the roles that are
    bound ([role_ledger]). *)

From S2P Require Import Prelude.
From S2P Require Import GoText.
From S2P Require Import Apierr.
From S2P Require Import Effects.
From S2P Require Import Logic.
From S2P Require Import Model.
From S2P Require Import Authz.
From S2P Require Import Validation.
From S2P Require Import Digest.
From S2P Require Import AuthRepo.
From S2P Require Import AuthService.
From S2P Require Import AuthHandler.
From S2P Require Import AuthTables.
From S2P Require Import AuthCodes.
From S2P Require Import AuthTokens.
From S2P Require Import Money.
From S2P Require Import PostRepo.
From S2P Require Import UserRepo.
From S2P Require Import Moderation.
From S2P Require Import PostService.
From S2P Require Import PostTables.
From S2P Require Import PostProps.
From S2P Require Import Floors.
From S2P Require Import CommentOps.
From S2P Require Import PostGate.
From S2P Require Import Bystanders.
From S2P Require Import DictionaryRepo.
From S2P Require Import DictionaryService.
From S2P Require Import DictionaryWrites.
From S2P Require Import DictionaryProps.

From S2P Require Import DictionarySystem.
From S2P Require Import Administration.
Import AdminRepository AdminService.
Open Scope Z_scope.

(** ** What the statements leave *)
Section statements.
Context `{Env} `{Pg}.

Lemma LockUserByID_inr uid b (tx : TxD) u tx' :
  LockUserByID uid b tx = (inr u, tx') -> tx_db tx' = tx_db tx.
Proof. unfold LockUserByID, First. intros E. run_inv. congruence. Qed.

(** The accounts after the state [s] was written. *)
Definition ban_users (uid : Z) (s : UserBanState) (now : time) (db : DB) : gmap Z User.t :=
  snd (update_where (fun u => of_id uid u && UserRepository.live u) (set_ban s now) (users db)).

Lemma UpdateUserBan_inr uid s now (tx : TxD) tx' :
  UpdateUserBan uid s now tx = (inr tt, tx') ->
  tx_db tx' = (tx_db tx) <| users := ban_users uid s now (tx_db tx) |> /\ ban_check s = true /\
  exists_row (fun u => of_id uid u && UserRepository.live u) (users (tx_db tx)) = true.
Proof.
  unfold UpdateUserBan. intros (n & E & Hn)%found_row_inr.
  apply stmt_inr_short in E as (E & _). unfold update_ban in E. cbv zeta in E.
  destruct (exists_row _ _) eqn:He; [|by injection E as <-]. cbn [negb] in E.
  destruct (short_reason _); [|done]. destruct (ban_check s) eqn:Hc; [|done].
  destruct (known_user _ _); [|done]. cbn [negb update_where] in E. injection E as _ <-. done.
Qed.

Lemma CreateUserBanRecord_inr r (tx : TxD) tx' :
  CreateUserBanRecord r tx = (inr tt, tx') ->
  exists k, user_ban_records (tx_db tx) !! k = None /\
    tx_db tx' = (tx_db tx) <| user_ban_records :=
      <[k := r <| UserBanRecord.ID := k |>]> (user_ban_records (tx_db tx)) |>.
Proof.
  unfold CreateUserBanRecord. intros E.
  apply mbind_inr in E as (k & tx1 & (_ & Hd & _)%NextID_inr & E).
  apply stmt_inr_short in E as (E & _). rewrite Hd in E. unfold insert_ban_record in E.
  destruct (short_reason _); [|done]. destruct (ban_record_check _); [|done].
  destruct (_ && _); [|done]. cbn [negb] in E.
  destruct (insert_row _ _ _ _) as [|t] eqn:Ei; [done|]. apply insert_row_inr in Ei as [Hn ->].
  injection E as <-. by exists k.
Qed.

Lemma CreateUserRoleRecord_inr r (tx : TxD) tx' :
  CreateUserRoleRecord r tx = (inr tt, tx') ->
  exists k, user_role_records (tx_db tx) !! k = None /\
    tx_db tx' = (tx_db tx) <| user_role_records :=
      <[k := r <| UserRoleRecord.ID := k |>]> (user_role_records (tx_db tx)) |>.
Proof.
  unfold CreateUserRoleRecord. intros E.
  apply mbind_inr in E as (k & tx1 & (_ & Hd & _)%NextID_inr & E).
  apply stmt_inr_short in E as (E & _). rewrite Hd in E. unfold insert_role_record in E.
  destruct (role_record_check _); [|done]. destruct (_ && _); [|done]. cbn [negb] in E.
  destruct (insert_row _ _ _ _) as [|t] eqn:Ei; [done|]. apply insert_row_inr in Ei as [Hn ->].
  injection E as <-. by exists k.
Qed.

(** What a status change leaves. *)
Definition status_db (uid actor : Z) (s : UserBanState) (banned : bool) (now : time) (k : Z)
    (db : DB) : DB :=
  let db := db <| users := ban_users uid s now db |>
    <| user_ban_records := <[k := (ban_record uid actor s banned now) <| UserBanRecord.ID := k |>]>
         (user_ban_records db) |> in
  if banned then SessionRepository.revoke_all uid now db else db.

Lemma UpdateUserStatus_inr uid actor input (tx : TxD) res tx' :
  UpdateUserStatus uid actor input tx = (inr res, tx') ->
  exists s banned k, let now := env_now (c_now (tx_ctr tx)) in
    normalizeAdminBan input actor now = inr (s, banned) /\ ban_check s = true /\
    exists_row (fun u => of_id uid u && UserRepository.live u) (users (tx_db tx)) = true /\
    user_ban_records (tx_db tx) !! k = None /\
    tx_db tx' = status_db uid actor s banned now k (tx_db tx) /\
    res = mkStatusResult uid (negb banned) banned (bs_IsPermanent s) (bs_Until s) (bs_Reason s)
            (bs_ActorID s).
Proof.
  unfold UpdateUserStatus. intros E.
  apply mbind_inr in E as (now & tx1 & (-> & D1 & _)%Now_inr & E).
  apply mbind_inr in E as ([s banned] & tx2 & [En <-]%lift_inr & E).
  apply mbind_inr in E as (u & tx3 & E3 & E). apply caught in E3; [|apply throws_to_api].
  apply LockUserByID_inr in E3.
  apply mbind_inr in E as ([] & tx4 & E4 & E). apply caught in E4; [|apply throws_to_api].
  apply UpdateUserBan_inr in E4 as (D4 & Hc & Hu).
  apply mbind_inr in E as ([] & tx5 & E5 & E). apply caught in E5; [|apply throws_internal].
  apply CreateUserBanRecord_inr in E5 as (k & Hk & D5).
  apply mbind_inr in E as ([] & tx6 & E6 & E). apply mret_inr in E as [<- <-].
  rewrite E3, D1 in *. rewrite D4 in *. exists s, banned, k. cbv zeta. split_and!; try done.
  unfold status_db. cbv zeta. destruct banned.
  - apply caught in E6; [|apply throws_internal]. unfold SessionRepository.RevokeAll in E6.
    apply exec_inr in E6 as [-> _]. by rewrite D5.
  - apply mret_inr in E6 as [_ <-]. by rewrite D5.
Qed.
End statements.

(** ** What everybody else leaves alone *)
Definition people_keyed (db : DB) : Prop := keyed User.ID (users db).

Record office_kept (db db' : DB) : Prop := {
  ok_bans : sanctions db ⊆ sanctions db';
  ok_keyed : people_keyed db -> people_keyed db';
  ok_roles : user_roles db' = user_roles db;
  ok_ban_records : user_ban_records db' = user_ban_records db;
  ok_role_records : user_role_records db' = user_role_records db;
}.

#[export] Instance office_preorder : PreOrder office_kept.
Proof. split; [by split|]. intros x y z [] []. split; [by etrans|auto|congruence..]. Qed.

Lemma keyed_sanctions db :
  people_keyed db <-> forall k x, sanctions db !! k = Some x -> x.1.1.1.1 = k.
Proof.
  unfold people_keyed, keyed, sanctions. split.
  - intros Hk k x (u & <- & Hu)%lookup_fmap_Some. by apply Hk.
  - intros Hs k u Hu. apply (Hs k (sanction u)). by rewrite lookup_fmap, Hu.
Qed.

Lemma office_same db db' : offices db' = offices db -> office_kept db db'.
Proof.
  unfold offices. intros [= Hs Hr Hb Hc]. split; [by rewrite Hs| |done..].
  rewrite !keyed_sanctions. by rewrite Hs.
Qed.

(** A new account, or an account with the ban it had. *)
Lemma office_put k u db :
  (forall u0, users db !! k = Some u0 -> sanction u0 = sanction u) ->
  (users db !! k = None -> User.ID u = k) ->
  office_kept db (db <| users := <[k := u]> (users db) |>).
Proof.
  intros Hu Hid. split; try done.
  2:{ intros Hk k' u'. cbn. intros [[<- <-]|[_ Hu']]%lookup_insert_Some; [|by apply Hk].
      destruct (users db !! k) as [u0|] eqn:Hu0; [|by apply Hid].
      specialize (Hu _ eq_refl). unfold sanction in Hu. rewrite <- (Hk _ _ Hu0). congruence. }
  unfold sanctions. cbn. rewrite fmap_insert.
  destruct (users db !! k) as [u0|] eqn:Hk.
  - rewrite insert_id; [done|]. rewrite lookup_fmap, Hk. cbn. f_equal. by apply Hu.
  - apply insert_subseteq. by rewrite lookup_fmap, Hk.
Qed.

Section bystander.
Context `{Env} `{Pg} `{DbClock}.

Lemma office_surroundings db db' : surroundings db' = surroundings db -> office_kept db db'.
Proof. unfold surroundings. intros E. apply office_same. congruence. Qed.

Lemma claim_name_offices claim_id change_id now old new db db' :
  UserDomain.claim_name claim_id change_id now old new db = inr db' -> offices db' = offices db.
Proof.
  assert (forall db db', UserDomain.audit change_id now old new db = inr db' ->
    offices db' = offices db) as Ha.
  { unfold UserDomain.audit, UserDomain.insert_change. intros d d'. cbv zeta.
    repeat case_match; intros; simplify_eq; done. }
  unfold UserDomain.claim_name. repeat case_match; try done; intros E%Ha; done.
Qed.

Lemma office_update_user f claim_id change_id at_ now id db n db' :
  UserDomain.update_user f claim_id change_id at_ now id db = inr (n, db') -> office_kept db db'.
Proof.
  intros E. unfold UserDomain.update_user in E.
  destruct (users db !! id) as [u|] eqn:Hu; [|by injection E as _ <-].
  destruct (UserRepository.live u); cbn in E; [|by injection E as _ <-].
  destruct (_ && exists_row _ _); [done|]. set (new := UserDomain.set_fields f at_ u) in *.
  set (db0 := db <| users := <[id := new]> (users db) |>) in E.
  assert (office_kept db db0) as K0.
  { apply office_put; [|by rewrite Hu]. intros u0 Hu0. by simplify_eq. }
  set (db1 := if bool_decide (UserDomain.pf_avatar f <> None) then _ else _) in E.
  assert (office_kept db0 db1) as K1.
  { apply office_surroundings. unfold db1, UserDomain.activate_avatar.
    repeat case_match; rewrite ?(proj1 (quiet_images _)); done. }
  destruct (if bool_decide (UserDomain.pf_name f <> None) then _ else _) as [|db2] eqn:E2; [done|].
  assert (office_kept db1 db2) as K2.
  { destruct (bool_decide (UserDomain.pf_name f <> None)); [|by injection E2 as <-].
    apply claim_name_offices in E2. by apply office_same. }
  injection E as _ <-. do 2 (etrans; [eassumption|]). etrans; [exact K2|].
  apply office_surroundings. unfold UserDomain.retire_avatar.
  repeat case_match; rewrite ?(proj2 (quiet_images _)); done.
Qed.

#[export] Instance office_bystander : Bystander office_kept.
Proof.
  split.
  - apply _.
  - apply office_surroundings.
  - intros user cid db r db' E. unfold UserRepository.insert_user in E.
    destruct (exists_row _ _); [done|]. destruct (exists_row _ _); [done|].
    destruct (insert_row "users_pkey" _ _ _) as [|t] eqn:Ht; [done|].
    apply insert_row_inr in Ht as [Hn ->].
    assert (office_kept db (db <| users := <[User.ID user := user]> (users db) |>)) as K.
    { apply office_put; [by rewrite Hn|done]. }
    repeat case_match; simplify_eq; (etrans; [exact K|by apply office_same]).
  - apply office_update_user.
  - intros id name now. unfold UserRepository.ClaimUsername. solve_keeps. apply (keeps_stmt _).
    intros db r db' E. repeat case_match; simplify_eq; by apply office_same.
  - intros id post db _. by apply office_same.
Qed.
End bystander.

Lemma office_dict_write db db' : dict_write db db' -> office_kept db db'.
Proof.
  destruct 1 as [? ? ? K|? ? ? ? ? ? ? K|? ? ? K| | | | |]; try by apply office_same.
  all: destruct K; by apply office_same.
Qed.
Lemma office_writes db db' : writes db db' -> office_kept db db'.
Proof. induction 1; [done|]. etrans; [by apply office_dict_write|done]. Qed.

(** ** The operations as units of work *)
Inductive AdminOp :=
| OpUserStatus (userID actorID : Z) (input : UpdateAdminUserStatusInput)
| OpUserRole (userID actorID : Z) (role action : string).

Section units.
Context `{Env} `{Pg}.

Definition run_admin (op : AdminOp) : MT unit :=
  match op with
  | OpUserStatus u a input => let* _ := UpdateUserStatus u a input in mret tt
  | OpUserRole u a role action => let* _ := UpdateUserRole u a role action in mret tt
  end.

Lemma status_offices uid actor s banned now k db db' : db' = status_db uid actor s banned now k db ->
  user_roles db' = user_roles db /\ user_role_records db' = user_role_records db /\
  users db' = ban_users uid s now db /\
  user_ban_records db' = <[k := (ban_record uid actor s banned now) <| UserBanRecord.ID := k |>]>
    (user_ban_records db).
Proof. intros ->. unfold status_db. by destruct banned. Qed.

(** The role table and the ledger after a role change. *)
Definition role_changed (uid actor : Z) (role : UserRole) (grants changed : bool) (now : time)
    (db db' : DB) : Prop :=
  changed = (if grants then negb (is_set (user_roles db !! (uid, role)))
             else is_set (user_roles db !! (uid, role))) /\
  users db' = users db /\ user_ban_records db' = user_ban_records db /\
  (if changed then
     (exists k, user_role_records db !! k = None /\
        user_role_records db' = <[k := (role_record uid actor role
          (if grants then UserRoleActionGrant else UserRoleActionRevoke) now)
            <| UserRoleRecord.ID := k |>]> (user_role_records db)) /\
     user_roles db' = (if grants then <[(uid, role) := UserRoleBinding.mk uid role (Some actor) now]>
                         (user_roles db) else delete (uid, role) (user_roles db))
   else user_role_records db' = user_role_records db /\ user_roles db' = user_roles db).

Lemma UpdateUserRole_inr uid actor rawRole rawAction (tx : TxD) res tx' :
  UpdateUserRole uid actor rawRole rawAction tx = (inr res, tx') ->
  exists role (grants : bool) now,
    normalize_role_change rawRole rawAction =
      inr (role, if grants then UserRoleActionGrant else UserRoleActionRevoke) /\
    role_changed uid actor role grants (rr_Changed res) now (tx_db tx) (tx_db tx') /\
    rr_Roles res = UserRepository.roles_of (tx_db tx') uid.
Proof.
  unfold UpdateUserRole. intros E.
  apply mbind_inr in E as ([role action] & tx1 & [Ev <-]%lift_inr & E).
  assert (exists grants : bool,
    action = if grants then UserRoleActionGrant else UserRoleActionRevoke) as [grants ->].
  { unfold normalize_role_change in Ev. destruct (IsManagedRole _); [|done]. cbn [negb] in Ev.
    destruct (_ && _) eqn:Ha; [done|]. injection Ev as _ <-.
    rewrite andb_false_iff, !negb_false_iff, !bool_decide_eq_true in Ha.
    destruct Ha as [->| ->]; [by exists true|by exists false]. }
  apply mbind_inr in E as (u & tx2 & E2 & E). apply caught in E2; [|apply throws_to_api].
  apply LockUserByID_inr in E2.
  apply mbind_inr in E as (now & tx3 & (_ & D3 & _)%Now_inr & E).
  apply mbind_inr in E as (changed & tx4 & E4 & E). apply caught in E4; [|apply throws_internal].
  apply mbind_inr in E as ([] & tx5 & E5 & E).
  apply mbind_inr in E as (roles & tx6 & E6 & E). apply mret_inr in E as [<- <-].
  apply caught in E6; [|apply throws_internal]. apply query_inr in E6 as (-> & D6 & _).
  exists role, grants, now. split; [done|]. cbn. rewrite D6. split; [|done].
  assert (changed = (if grants then negb (is_set (user_roles (tx_db tx) !! (uid, role)))
                     else is_set (user_roles (tx_db tx) !! (uid, role))) /\
    tx_db tx4 = if changed then (tx_db tx) <| user_roles :=
      (if grants then <[(uid, role) := UserRoleBinding.mk uid role (Some actor) now]>
         (user_roles (tx_db tx)) else delete (uid, role) (user_roles (tx_db tx))) |>
      else tx_db tx) as [Hc D4].
  { destruct grants.
    - rewrite bool_decide_eq_true_2 in E4 by done. apply stmt_inr_short in E4 as (E4 & _).
      rewrite D3, E2 in E4. unfold grant in E4. destruct (IsManagedRole role); [|done]. cbn [negb] in E4.
      destruct (user_roles (tx_db tx) !! _); [by injection E4 as <- <-|].
      destruct (_ && _); [|done]. by injection E4 as <- <-.
    - rewrite bool_decide_eq_false_2 in E4 by done. apply stmt_inr_short in E4 as (E4 & _).
      rewrite D3, E2 in E4. unfold revoke in E4. injection E4 as <- <-.
      destruct (user_roles (tx_db tx) !! (uid, role)) eqn:Hr; [done|]. cbn. split; [done|].
      rewrite delete_id by done. by destruct (tx_db tx). }
  unfold role_changed. rewrite <- Hc. split; [done|]. destruct changed.
  - apply caught in E5; [|apply throws_internal].
    apply CreateUserRoleRecord_inr in E5 as (k & Hk & D5). rewrite D5, D4 in *. cbn in *.
    split_and!; try done. exists k. done.
  - apply mret_inr in E5 as [_ <-]. rewrite D4. done.
Qed.
End units.

(** ** The ledger of roles *)
Definition moved (action : string) (uid : Z) (role : UserRole) (r : UserRoleRecord.t) : bool :=
  (UserRoleRecord.UserID r =? uid) && bool_decide (UserRoleRecord.Role r = role) &&
  bool_decide (UserRoleRecord.Action r = action).

(** Grants less revocations: 1 for a bound role, 0 for any other. *)
Definition balance (uid : Z) (role : UserRole) (db : DB) : Z :=
  count (moved UserRoleActionGrant uid role) (user_role_records db) -
  count (moved UserRoleActionRevoke uid role) (user_role_records db).
Definition balanced (db : DB) : Prop :=
  forall uid role, balance uid role db = Z.b2z (is_set (user_roles db !! (uid, role))).

Record ledger_of_roles (db db' : DB) : Prop := {
  lr_bans : user_ban_records db ⊆ user_ban_records db';
  lr_roles : user_role_records db ⊆ user_role_records db';
  lr_balanced : balanced db -> balanced db';
}.
#[export] Instance ledger_of_roles_preorder : PreOrder ledger_of_roles.
Proof. split; [by split|]. intros x y z [] []. split; [by etrans|by etrans|auto]. Qed.

Lemma ledger_office db db' : office_kept db db' -> ledger_of_roles db db'.
Proof.
  intros [_ _ Hr Hb Hc]. split; [by rewrite Hb|by rewrite Hc|].
  intros Hok uid role. unfold balance. rewrite Hc, Hr. apply Hok.
Qed.

Lemma b2z_moved action action' uid actor role now k uid' role' :
  Z.b2z (moved action uid' role' ((role_record uid actor role action' now) <| UserRoleRecord.ID := k |>)) =
  (if decide ((uid, role) = (uid', role')) then Z.b2z (bool_decide (action' = action)) else 0).
Proof.
  unfold moved, role_record. cbn. destruct (Z.eqb_spec uid uid') as [->|Hn]; cbn.
  - destruct (decide (role = role')) as [->|Hr].
    + by rewrite (bool_decide_eq_true_2 (role' = role')), decide_True by done.
    + rewrite bool_decide_eq_false_2 by done. by rewrite decide_False by congruence.
  - by rewrite decide_False by congruence.
Qed.

Lemma ledger_role_changed uid actor role grants changed now db db' :
  role_changed uid actor role grants changed now db db' -> ledger_of_roles db db'.
Proof.
  intros (Hc & _ & Hb & Hch). destruct changed.
  2:{ destruct Hch as [Hl Hr]. split; [by rewrite Hb|by rewrite Hl|].
      intros Hok u r. unfold balance. rewrite Hl, Hr. apply Hok. }
  destruct Hch as [(k & Hk & Hl) Hr]. split; [by rewrite Hb| |].
  { rewrite Hl. by apply insert_subseteq. }
  intros Hok uid' role'. specialize (Hok uid' role'). unfold balance in *. rewrite Hl, Hr.
  rewrite !count_insert_new, !b2z_moved by done.
  destruct (decide ((uid, role) = (uid', role'))) as [He|He].
  - injection He as -> ->. destruct grants;
      [rewrite lookup_insert_eq|rewrite lookup_delete_eq]; cbn -[bool_decide];
      destruct (user_roles db !! (uid', role')); try done; cbn in Hok;
      repeat case_bool_decide; try done; cbn; lia.
  - destruct grants; [rewrite lookup_insert_ne by done|rewrite lookup_delete_ne by done]; lia.
Qed.

Section system.
Context `{Env} `{Pg} `{Unicode} `{DbClock} `{Decimal} `{Mail} `{JWT} `{Bcrypt}.
Context (h : AuthService) (sv : Services).
Context `{!QuietAccess (ps_imageAccess (sv_posts sv))}.
Context (Hqueue : forall q, deliveries h = Some q -> QueueFrame surroundings q).
Context {X : Type} (ia : AfterOp -> World DB X -> World DB X * option string).
Context (Hia : forall op w w' p, ia op w = (w', p) -> w_db w' = w_db w).
Abbreviation WorldD := (World DB X).

(** Anything the other services do, or a unit of work of the administration that
    satisfies [P]. *)
Inductive office_step (P : AdminOp -> Prop) : WorldD -> WorldD -> Prop :=
| office_others w w' : whole_step h sv ia w w' -> office_step P w w'
| office_admin op r w w' : P op ->
    RunInTx interp_before (run_admin op) w = (r, w') -> office_step P w w'.

Lemma whole_step_office (w w' : WorldD) : whole_step h sv ia w w' -> office_kept (w_db w) (w_db w').
Proof.
  intros [? ? Hs|op r ? ? E].
  - exact (system_step_bystander h sv Hqueue ia Hia office_kept _ _ Hs).
  - apply (keeps_RunInTx office_kept _ _ _ _ _ (quiet_before office_kept)) in E; [done|].
    intros tx r' tx' Er. apply office_writes. by eapply writes_run_dict.
Qed.

(** A unit of work of the administration: nothing, or the operation and the touches of
    sessions. *)
Lemma run_admin_cases op r (w w' : WorldD) :
  RunInTx interp_before (run_admin op) w = (r, w') ->
  w_db w' = w_db w \/
  exists tx, run_admin op (begin_tx false w) = (inr tt, tx) /\ office_kept (tx_db tx) (w_db w').
Proof.
  intros E. apply RunInTx_cases in E as
    [(e & _ & -> & _)|([] & tx & tx1 & _ & E1 & E2 & _ & -> & _)]; [by left|right].
  exists tx. split; [done|].
  exact (keeps_run_before office_kept interp_before _ (quiet_before office_kept) _ _ _ E2).
Qed.

Lemma run_admin_ledger op (tx : TxD) tx' :
  run_admin op tx = (inr tt, tx') -> ledger_of_roles (tx_db tx) (tx_db tx').
Proof.
  destruct op; cbn [run_admin]; intros E; apply mbind_inr in E as (res & tx1 & E & [_ <-]%mret_inr).
  - apply UpdateUserStatus_inr in E as (s & banned & k & _ & _ & _ & Hk & Hdb & _).
    apply status_offices in Hdb as (Hr & Hc & _ & Hb). split; [|by rewrite Hc|].
    + rewrite Hb. by apply insert_subseteq.
    + intros Hok uid role. unfold balance. rewrite Hc, Hr. apply Hok.
  - apply UpdateUserRole_inr in E as (r & grants & now & _ & Hch & _).
    by eapply ledger_role_changed.
Qed.

(** C18: the ledgers of bans and roles are complete.  Over any interleaving of requests
    and units of work of every service, the administration's included, the records of bans
    and of role changes are only appended to; and if for every user and role the grants
    recorded outnumber the revocations by one when the role is bound and by none when it
    is not, this is so at every later time: who holds which role can be read off the
    ledger. *)
Theorem role_ledger (w w' : WorldD) :
  rtc (office_step (fun _ => True)) w w' -> ledger_of_roles (w_db w) (w_db w').
Proof.
  induction 1 as [|w w1 w2 Hs _ IH]; [done|]. etrans; [|exact IH].
  destruct Hs as [? ? Hs|op r ? ? _ E].
  - by apply ledger_office, whole_step_office.
  - apply run_admin_cases in E as [->|(tx & E & Hk)]; [done|].
    apply run_admin_ledger in E. etrans; [exact E|by apply ledger_office].
Qed.
End system.

(** ** What a ban is worth *)
Section clocks.
Context `{Env} `{Pg} `{Unicode} `{Mail} `{JWT} `{Bcrypt}.
Context (h : AuthService).

(** [Authenticate] looks at the ban at its second reading of the clock. *)
Lemma Authenticate_not_banned token (tx : TxD) p tx' :
  Authenticate h token tx = (inr p, tx') ->
  exists uid u, users (tx_db tx) !! uid = Some u /\ User.ID (pr_User p) = User.ID u /\
    SessionRepository.user_banned (env_now (S (c_now (tx_ctr tx)))) u = false.
Proof.
  unfold Authenticate. intros E.
  apply mbind_inr in E as ([uid sid] & tx1 & E1 & E).
  pose proof (parse_claims_spec h token TypeAccess tx) as Hs.
  destruct (token_ids h _ token TypeAccess) as [ids|]; [|destruct Hs; congruence].
  assert (tx1 = tick tx) as -> by congruence.
  apply mbind_inr in E as (now & tx2 & E2 & E). injection E2 as <- <-.
  apply mbind_inr in E as (i & tx3 & E3 & E).
  apply caught in E3.
  2:{ intros e ? ? ?. unfold sessionLookupError. case_match; [done|apply internal_inr]. }
  apply mbind_inr in E as ([] & tx4 & _ & [<- _]%mret_inr).
  unfold SessionRepository.FindActiveIdentity in E3.
  apply mbind_inr in E3 as (r & tx5 & (Hr & _)%query_inr & E3). cbn in Hr.
  destruct r as [i'|]; [|done]. apply mret_inr in E3 as [-> _]. symmetry in Hr.
  apply lookup_identity_Some in Hr as (s & u & _ & Hu & _ & _ & _ & _ & _ & Hb & ->).
  exists uid, u. split; [done|]. split; [done|]. exact Hb.
Qed.

Lemma First_now {R} (f : DB -> option R) (tx : TxD) r tx' :
  First f tx = (r, tx') ->
  tx_db tx' = tx_db tx /\ c_now (tx_ctr tx') = c_now (tx_ctr tx).
Proof.
  unfold First, query, stmt, mbind.
  repeat (case_match; simplify_eq/=); unfold mret, throw; intros; by simplify_eq.
Qed.
Lemma findLoginUser_now id (tx : TxD) r tx' :
  findLoginUser h id tx = (r, tx') ->
  tx_db tx' = tx_db tx /\ c_now (tx_ctr tx') = c_now (tx_ctr tx).
Proof.
  unfold findLoginUser. repeat case_match; try (intros E; by apply First_now in E);
    unfold api_error, throw; intros; by simplify_eq.
Qed.

(** [Login] looks at the ban at its first reading. *)
Lemma Login_not_banned input client (tx : TxD) res tx' :
  Login h input client tx = (inr res, tx') ->
  exists k u, users (tx_db tx) !! k = Some u /\ uv_ID (ar_User res) = User.ID u /\
    banned u (env_now (c_now (tx_ctr tx))) = false.
Proof.
  unfold Login. intros E. apply mbind_inr in E as ([] & tx0 & [_ <-]%lift_inr & E).
  apply mbind_inr in E as (u0 & tx1 & E1 & E).
  apply on_error_inr in E1 as [E1|(? & ? & _ & E1)]; [|by repeat (case_match; run_inv)].
  apply findLoginUser_now in E1 as [D1 C1].
  apply mbind_inr in E as (u & tx2 & E2 & E).
  apply on_error_inr in E2 as [E2|(? & ? & _ & E2)]; [|by case_match; run_inv].
  pose proof (proj2 (First_now _ _ _ _ E2)) as C2. apply LockByID_inr in E2 as (D2 & _ & _ & k & Hu).
  apply mbind_inr in E as (r & tx3 & E3 & E). apply attempt_inr in E3.
  apply findLoginUser_now in E3 as [D3 C3].
  destruct r as [e|cur]; [by case_match; run_inv|].
  destruct (negb (User.ID cur =? _)); [by run_inv|].
  destruct (Verify _ _); [|by run_inv]. cbn [negb] in E.
  apply mbind_inr in E as (checked & tx4 & E4 & E). injection E4 as Hch <-.
  destruct (banned u checked) eqn:Hban; [by run_inv|].
  apply mbind_inr in E as (now & tx5 & _ & E). exists k, u.
  rewrite D1 in Hu. split; [done|]. rewrite <- Hch, C3, C2, C1 in Hban. split; [|done].
  unfold issueSession in E. do 2 (apply mbind_inr in E as (? & ? & _ & E)).
  destruct (_ || _); [by run_inv|].
  do 3 (apply mbind_inr in E as (? & ? & _ & E)).
  apply mbind_inr in E as (v & ? & Ev & [<- _]%mret_inr). unfold userView in Ev.
  do 2 (apply mbind_inr in Ev as (? & ? & _ & Ev)). apply mret_inr in Ev as [<- _]. done.
Qed.
End clocks.

(** A ban is permanent or has an end. *)
Lemma normalizeAdminBan_ban input actor now s :
  normalizeAdminBan input actor now = inr (s, true) ->
  bs_IsPermanent s = true \/ (bs_IsPermanent s = false /\ is_Some (bs_Until s)).
Proof.
  assert (forall r b, permanentBan r actor = inr (s, b) -> bs_IsPermanent s = true) as Hp.
  { intros r b. unfold permanentBan. case_match; [done|]. by intros [= <- _]. }
  unfold normalizeAdminBan, normalizeLegacyAdminBan, timedBan.
  repeat case_match; intros; simplify_eq; cbn; eauto.
Qed.

(** The ban with the result [res] is over at [t]. *)
Definition ban_over (res : AdminUserStatusResult) (t : time) : Prop :=
  sr_BanIsPermanent res = false /\ exists until, sr_BannedUntil res = Some until /\ until <= t.

Section bans.
Context `{Env} `{Pg} `{Unicode} `{DbClock} `{Decimal} `{Mail} `{JWT} `{Bcrypt}.
Context (h : AuthService) (sv : Services).
Context `{!QuietAccess (ps_imageAccess (sv_posts sv))}.
Context (Hqueue : forall q, deliveries h = Some q -> QueueFrame surroundings q).
Context {X : Type} (ia : AfterOp -> World DB X -> World DB X * option string).
Context (Hia : forall op w w' p, ia op w = (w', p) -> w_db w' = w_db w).
Abbreviation WorldD := (World DB X).

(** Not another change of this user's ban. *)
Definition spares (uid : Z) (op : AdminOp) : Prop :=
  match op with OpUserStatus u _ _ => u <> uid | OpUserRole _ _ _ _ => True end.

(** What is said of [uid]'s bans stays so. *)
Record ban_kept (uid : Z) (db db' : DB) : Prop := {
  bk_keyed : people_keyed db -> people_keyed db';
  bk_ban : people_keyed db -> forall x, sanctions db !! uid = Some x -> sanctions db' !! uid = Some x;
}.
#[local] Instance ban_kept_preorder uid : PreOrder (ban_kept uid).
Proof. split; [by split|]. intros x y z [] []. split; auto. Qed.

Lemma office_ban_kept uid db db' : office_kept db db' -> ban_kept uid db db'.
Proof. intros [Hs Hk]. split; [done|]. intros _ x Hx. by eapply lookup_weaken. Qed.

Lemma ban_users_keyed uid s now db db' :
  users db' = ban_users uid s now db -> people_keyed db -> people_keyed db'.
Proof.
  intros Hu Hk k u'. rewrite Hu. unfold ban_users. rewrite update_where_lookup.
  intros (u & Hu0 & ->)%fmap_Some. pose proof (Hk _ _ Hu0). by destruct (_ && _).
Qed.

Lemma run_admin_ban_kept uid op (tx : TxD) tx' : spares uid op ->
  run_admin op tx = (inr tt, tx') -> ban_kept uid (tx_db tx) (tx_db tx').
Proof.
  destruct op; cbn [run_admin spares]; intros Hs E;
    apply mbind_inr in E as (res & tx1 & E & [_ <-]%mret_inr).
  - apply UpdateUserStatus_inr in E as (s & banned & k & _ & _ & _ & Hk & Hdb & _).
    apply status_offices in Hdb as (_ & _ & Hu & _). split; [by eapply ban_users_keyed|].
    intros Hkeyed x. unfold sanctions. rewrite Hu. unfold ban_users.
    rewrite !lookup_fmap, update_where_lookup. destruct (users (tx_db tx) !! uid) as [u|] eqn:Hu0; [|done].
    cbn. unfold of_id. rewrite (Hkeyed _ _ Hu0). by replace (uid =? userID) with false by lia.
  - apply UpdateUserRole_inr in E as (r & grants & now & _ & (_ & Hu & _) & _).
    split; [unfold people_keyed|unfold sanctions]; by rewrite Hu.
Qed.

Lemma office_steps_ban uid (w w' : WorldD) :
  rtc (office_step h sv ia (spares uid)) w w' -> ban_kept uid (w_db w) (w_db w').
Proof.
  induction 1 as [|w w1 w2 Hs _ IH]; [done|]. etrans; [|exact IH].
  destruct Hs as [? ? Hs|op r ? ? Hp E].
  - by apply office_ban_kept, (whole_step_office h sv Hqueue ia Hia).
  - apply run_admin_cases in E as [->|(tx & E & Hk)]; [done|].
    apply (run_admin_ban_kept uid) in E; [|done]. etrans; [exact E|by apply office_ban_kept].
Qed.

(** A touch revives nothing. *)
Lemma revoked_before uid op : Keeps (preserves (all_revoked uid)) (interp_before op).
Proof.
  destruct op as [sid now]. cbn. unfold SessionRepository.Touch. apply (keeps_exec _).
  intros db Ha k s. cbn. intros (s0 & <- & Hs)%lookup_fmap_Some. unfold SessionRepository.touch_row.
  case_match; cbn; intros; by eapply Ha.
Qed.

Lemma ban_committed uid actor input (w0 w : WorldD) res :
  RunInTx interp_before (UpdateUserStatus uid actor input) w0 = (inr res, w) ->
  sr_IsBanned res = true -> people_keyed (w_db w0) ->
  people_keyed (w_db w) /\ all_revoked uid (w_db w) /\
  exists u, users (w_db w) !! uid = Some u /\ User.BanIsPermanent u = sr_BanIsPermanent res /\
    User.BannedUntil u = sr_BannedUntil res /\
    (sr_BanIsPermanent res = true \/ sr_BanIsPermanent res = false /\ is_Some (sr_BannedUntil res)).
Proof.
  intros E Hb Hk. apply RunInTx_cases in E as
    [(e & [=] & _)|(v & tx & tx1 & [= <-] & E & E2 & _ & -> & _)].
  pose proof (keeps_run_before office_kept interp_before _ (quiet_before office_kept) _ _ _ E2) as Ko.
  pose proof (keeps_run_before (preserves (all_revoked uid)) interp_before _ (revoked_before uid)
    _ _ _ E2) as Kr.
  change (tx_db (tx <| tx_before := [] |>)) with (tx_db tx) in Ko, Kr.
  apply UpdateUserStatus_inr in E as (s & banned & k & Hn & _ & Hex & _ & Hdb & ->).
  cbn in Hb. subst banned. cbn [begin_tx tx_db] in *.
  pose proof (status_offices _ _ _ _ _ _ _ _ Hdb) as (_ & _ & Hu & _).
  pose proof (ban_users_keyed _ _ _ _ _ Hu Hk) as Hk1.
  split; [by apply Ko|]. split.
  { apply Kr. rewrite Hdb. unfold status_db. cbv zeta. apply revoke_all_revoked. }
  unfold exists_row in Hex. destruct (first _ _) as [u0|] eqn:Hf; [|done].
  apply first_Some in Hf as [Hp [k0 Hu0]].
  assert (k0 = uid) as ->.
  { rewrite <- (Hk _ _ Hu0). apply andb_true_iff in Hp as [Hid _]. unfold of_id in Hid. lia. }
  assert (sanctions (tx_db tx) !! uid = Some (sanction (set_ban s (env_now (c_now (w_ctr w0))) u0))) as Hs.
  { unfold sanctions. rewrite lookup_fmap, Hu. unfold ban_users. rewrite update_where_lookup, Hu0. cbn.
    by rewrite Hp. }
  pose proof (lookup_weaken _ _ _ _ Hs (ok_bans _ _ Ko)) as Hs'. unfold sanctions in Hs'.
  rewrite lookup_fmap in Hs'. apply fmap_Some in Hs' as (u & Hu' & Heq). unfold sanction in Heq.
  exists u. cbn [sr_BanIsPermanent sr_BannedUntil]. cbn in Heq. injection Heq as _ <- <- _ _.
  split_and!; try done. by eapply normalizeAdminBan_ban.
Qed.

(** C17: a ban locks its user out until it ends.  Once a ban is committed every session of
    the user is revoked; and whatever requests and units of work of any service follow,
    another change of this user's ban excepted, no access token authenticates as the user
    and no login succeeds for the user unless the ban was a timed one and its end has
    passed by the service's clock. *)
Theorem ban_locks_out (w0 w w' : WorldD) uid actor input res (tx : TxD) :
  people_keyed (w_db w0) ->
  RunInTx interp_before (UpdateUserStatus uid actor input) w0 = (inr res, w) ->
  sr_IsBanned res = true ->
  rtc (office_step h sv ia (spares uid)) w w' -> tx_db tx = w_db w' ->
  all_revoked uid (w_db w) /\
  (forall token p tx', Authenticate h token tx = (inr p, tx') -> User.ID (pr_User p) = uid ->
     ban_over res (env_now (S (c_now (tx_ctr tx))))) /\
  (forall login client r tx', Login h login client tx = (inr r, tx') -> uv_ID (ar_User r) = uid ->
     ban_over res (env_now (c_now (tx_ctr tx)))).
Proof.
  intros Hk E Hb Hs Htx. apply ban_committed in E as (Hk1 & Hrev & u & Hu & Hperm & Huntil & Hform); [|done..].
  split; [done|]. apply office_steps_ban in Hs as [Hk2 Hban]. specialize (Hk2 Hk1).
  specialize (Hban Hk1 (sanction u)). unfold sanctions in Hban.
  rewrite lookup_fmap, Hu in Hban. specialize (Hban eq_refl). rewrite lookup_fmap in Hban.
  apply fmap_Some in Hban as (u2 & Hu2 & Hs2). unfold sanction in Hs2.
  assert (forall k v t, users (tx_db tx) !! k = Some v -> User.ID v = uid ->
    SessionRepository.user_banned t v = false -> ban_over res t) as Hover.
  { intros k v t Hv Hid Ht. rewrite Htx in Hv. rewrite (Hk2 _ _ Hv) in Hid. subst k.
    assert (v = u2) as -> by congruence. unfold SessionRepository.user_banned in Ht.
    injection Hs2 as _ Hp Hun _ _. rewrite <- Hp, <- Hun, Hperm, Huntil in Ht.
    apply orb_false_iff in Ht as [Hf Ht]. destruct Hform as [Hy|[Hn [t0 Ht0]]]; [congruence|].
    rewrite Ht0 in Ht. split; [done|]. exists t0. split; [done|lia]. }
  split.
  - intros token p tx' Ea Hid. apply Authenticate_not_banned in Ea as (k & v & Hv & Hpv & Hf).
    eapply Hover; [exact Hv|congruence|exact Hf].
  - intros login client r tx' El Hid. apply Login_not_banned in El as (k & v & Hv & Hpv & Hf).
    eapply Hover; [exact Hv|congruence|exact Hf].
Qed.
End bans.
