(* ===== verification/PostReads.v ===== *)
(** * Reading posts: [internal/repository/post.go], [internal/repository/post_relations.go],
    [internal/service/post.go], [internal/service/post_view.go],
    [internal/service/image_view.go], [internal/service/user.go]

    [PostReadRepository]: the public feed with its filters and orders, an author's posts, a
    user's favourites, a post with what is shown of it, its versions and what its author sees
    of the moderation.  [PostViews]: the reading operations of the post service and the two
    lists of posts of the user service, with the views they build.  [ILIKE], the numeric
    functions of the trending order and the parsing of URLs are parameters. *)

From S2P Require Import Prelude.
From S2P Require Import GoText.
From S2P Require Import Apierr.
From S2P Require Import Effects.
From S2P Require Import Authz.
From S2P Require Import Model.
From S2P Require Import Pagination.
From S2P Require Import AuthRepo.
From S2P Require Import AuthService.
From S2P Require Import Money.
From S2P Require Import PostValidation.
From S2P Require Import PostRepo.
From S2P Require Import UserRepo.
From S2P Require Import Moderation.
From S2P Require Import UserService.
From S2P Require Import PostService.
From S2P Require Import CommentService.
From S2P Require Import DictionaryRepo.
From S2P Require Import Administration.

Open Scope Z_scope.

(** [weight / power(age / 3600 + 2, 2.0)] as the database orders it, for twice the weight
    and an age in microseconds. *)
Class PgTrending := pg_trending : Z -> Z -> Z.

(** ** internal/repository/post.go *)
Module PostReadRepository.
Import PostRepository.

Record PostFilter := mkPostFilter {
  pf_Keyword : option string;
  pf_PostType : option string;
  pf_ShareType : option string;
  pf_Category : option string;
  pf_CanteenCode : option string;
  pf_Cuisine : option string;
  pf_Flavors : list string;
  pf_Tags : list string;
  pf_MinPrice : option Z;
  pf_MaxPrice : option Z;
  pf_SortBy : string;
}.

Record PostRecord := mkPostRecord {
  pr_Post : Post.t;
  pr_AuthorName : string;
  pr_AuthorDeletedAt : option time;
  pr_AvatarURL : option string;
  pr_CanteenCode : option string;
  pr_CanteenName : option string;
  pr_CanteenCampus : option string;
  pr_WindowName : option string;
  pr_WindowFloor : option string;
  pr_CuisineName : option string;
  pr_MaxRevision : Z;
}.
#[global] Instance eta_PostRecord : Eta PostRecord := fun x =>
  mkPostRecord (pr_Post x) (pr_AuthorName x) (pr_AuthorDeletedAt x) (pr_AvatarURL x)
    (pr_CanteenCode x) (pr_CanteenName x) (pr_CanteenCampus x) (pr_WindowName x)
    (pr_WindowFloor x) (pr_CuisineName x) (pr_MaxRevision x).

Record PostModerationIssueRow := mkIssueRow {
  ir_Part : string; ir_ImagePosition : option Z; ir_Moderation : string;
  ir_Labels : list string }.

(** The maps are total functions. *)
Record PostRelations := mkPostRelations {
  rl_Tags : Z -> list string;
  rl_Flavors : Z -> list PostFlavorRow;
  rl_Images : Z -> list string;
  rl_Liked : Z -> bool;
  rl_Favorited : Z -> bool;
  rl_Following : Z -> bool;
}.
Definition no_relations : PostRelations :=
  mkPostRelations (fun _ => []) (fun _ => []) (fun _ => []) (fun _ => false) (fun _ => false)
    (fun _ => false).

(** [addPostRecordJoins] and [postRecordColumns]. *)
Definition record_of (db : DB) (p : Post.t) : option PostRecord :=
  author ← users db !! Post.AuthorID p;
  let canteen := id ← Post.CanteenID p; canteens db !! id in
  let window := id ← Post.CanteenWindowID p; canteen_windows db !! id in
  Some (mkPostRecord p (User.Username author) (User.DeletedAt author)
    (id ← User.AvatarImageAssetID author; ImageAsset.PublicURL <$> image_assets db !! id)
    (Canteen.Code <$> canteen) (Canteen.Name <$> canteen) (Canteen.Campus <$> canteen)
    (CanteenWindow.Name <$> window) (window ≫= CanteenWindow.Floor)
    (id ← Post.CuisineID p; Cuisine.Name <$> cuisines db !! id)
    (foldr Z.max 0 (map PostHistory.Revision
       (select (of_post (Post.ID p)) (post_histories db))))).

(** *** Filters *)
Definition post_public (p : Post.t) : bool :=
  undeleted p && bool_decide (Post.Status p = PostStatusApproved).

Definition equals (wanted : option string) (value : option string) : bool :=
  match wanted with Some w => bool_decide (value = Some w) | None => true end.
Definition has_flavor (db : DB) (p : Post.t) (name : string) : bool :=
  negb (bool_decide (where_ (fun pf => (PostFlavor.PostID pf =? Post.ID p) &&
    bool_decide (Flavor.Name <$> flavors db !! PostFlavor.FlavorID pf = Some name))
    (post_flavors db) = [])).
Definition has_tag `{Pg} (db : DB) (p : Post.t) (name : string) : bool :=
  existsb (fun t => bool_decide (Tag.DeletedAt t = None) && same_tag name t)
    (tag_rows (Post.ID p) db).
Definition at_least (bound price : option Z) : bool :=
  match bound with
  | Some b => match price with Some a => b <=? a | None => false end
  | None => true
  end.
Definition at_most (bound price : option Z) : bool :=
  match bound with
  | Some b => match price with Some a => a <=? b | None => false end
  | None => true
  end.

Definition applyPostFilter `{Pg} `{PgLike} (filter : PostFilter) (db : DB) (p : Post.t) : bool :=
  match pf_Keyword filter with
  | Some k => pg_ilike (Post.Title p) (literalContainsPattern k) ||
              pg_ilike (Post.Content p) (literalContainsPattern k)
  | None => true
  end &&
  equals (pf_PostType filter) (Some (Post.PostType p)) &&
  equals (pf_ShareType filter) (Post.ShareType p) &&
  equals (pf_Category filter) (Some (Post.Category p)) &&
  equals (pf_CanteenCode filter)
    (id ← Post.CanteenID p; Canteen.Code <$> canteens db !! id) &&
  equals (pf_Cuisine filter) (id ← Post.CuisineID p; Cuisine.Name <$> cuisines db !! id) &&
  forallb (has_flavor db p) (pf_Flavors filter) &&
  forallb (has_tag db p) (pf_Tags filter) &&
  at_least (pf_MinPrice filter) (Post.Price p) && at_most (pf_MaxPrice filter) (Post.Price p).

(** *** Orders *)
Definition newest_post (a b : Post.t) : bool :=
  (Post.CreatedAt b <? Post.CreatedAt a) ||
  (Post.CreatedAt a =? Post.CreatedAt b) && (Post.ID b <=? Post.ID a).
(** Descending by a key, then the newest. *)
Definition by_key (key : Post.t -> Z) (a b : Post.t) : bool :=
  (key b <? key a) || (key a =? key b) && newest_post a b.
(** Tenths. *)
Definition hot_score (p : Post.t) : Z :=
  20 * Post.LikeCount p + 10 * Post.FavoriteCount p + 10 * Post.CommentCount p + Post.ViewCount p.
Definition trending_score `{PgTrending} (now : time) (p : Post.t) : Z :=
  pg_trending (4 * Post.LikeCount p + 3 * Post.FavoriteCount p + 2 * Post.CommentCount p)
    ((now - Post.CreatedAt p) / Microsecond).
Definition cheapest (a b : Post.t) : bool :=
  match Post.Price a, Post.Price b with
  | Some x, Some y => (x <? y) || (x =? y) && newest_post a b
  | Some _, None => true
  | None, Some _ => false
  | None, None => newest_post a b
  end.
Definition applyPostSort `{PgTrending} (sortBy : string) (now : time) : Post.t -> Post.t -> bool :=
  if bool_decide (sortBy = "hot"%string) then by_key hot_score
  else if bool_decide (sortBy = "trending"%string) then by_key (trending_score now)
  else if bool_decide (sortBy = "price"%string) then cheapest
  else newest_post.

(** The records of the selected posts, in order. *)
Definition records (le : Post.t -> Post.t -> bool) (p : Post.t -> bool) (db : DB)
    : list PostRecord :=
  sort_by (fun a b => le (pr_Post a) (pr_Post b)) (omap (record_of db) (select p (posts db))).
Definition count_posts (p : Post.t -> bool) (db : DB) : Z :=
  Z.of_nat (length (select p (posts db))).

Definition after_post (after : option Cursor.t) (p : Post.t) : bool :=
  match after with
  | None => true
  | Some k => (Post.CreatedAt p <? Cursor.CreatedAt k) ||
              (Post.CreatedAt p =? Cursor.CreatedAt k) && (Post.ID p <? Cursor.ID k)
  end.

Section ops.
Context `{Env} `{Pg} `{DbClock} `{PgLike} `{PgTrending}.

Definition FindRecordByID (postID : Z) (IncludeDeleted : bool) : MT PostRecord :=
  let* r := query (fun db =>
    p ← first (fun p => by_id postID p && (IncludeDeleted || undeleted p)) (posts db);
    record_of db p) in
  match r with Some record => mret record | None => throw ErrNotFound end.

Definition page {R} (params : Params) (rows : DB -> list R) : MT (list R) :=
  query (fun db => page_rows params (rows db)).

Definition FindPage (filter : PostFilter) (params : Params) : MT (list PostRecord * Meta) :=
  let* total := query (fun db =>
    count_posts (fun p => post_public p && applyPostFilter filter db p) db) in
  let* now := DbNow in
  let* rows := page params (fun db =>
    records (applyPostSort (pf_SortBy filter) now)
      (fun p => post_public p && applyPostFilter filter db p) db) in
  mret (rows, NewMeta params total).

(** What the feed selects behind a cursor. *)
Definition feed (filter : PostFilter) (after : option Cursor.t) (db : DB) : list PostRecord :=
  records newest_post
    (fun p => post_public p && applyPostFilter filter db p && after_post after p) db.
Definition FindLatestPage (filter : PostFilter) (params : CursorParams)
    : MT (list PostRecord * bool) :=
  let* rows := query (fun db =>
    firstn (Z.to_nat (cp_Limit params + 1)) (feed filter (After params) db)) in
  let hasMore := cp_Limit params <? Z.of_nat (length rows) in
  mret (if hasMore then firstn (Z.to_nat (cp_Limit params)) rows else rows, hasMore).

Definition FindAuthorPage (authorID : Z) (status : option string) (includeDeleted : bool)
    (params : Params) : MT (list PostRecord * Meta) :=
  let p p := (Post.AuthorID p =? authorID) && (includeDeleted || undeleted p) &&
             equals status (Some (Post.Status p)) in
  let* total := query (count_posts p) in
  let* rows := page params (records newest_post p) in
  mret (rows, NewMeta params total).

(** A favourite and its post, the last one added first. *)
Definition favorite_posts (userID : Z) (db : DB) : list (Favorite.t * Post.t) :=
  omap (fun f => p ← posts db !! Favorite.PostID f; if post_public p then Some (f, p) else None)
    (where_ (fun f => Favorite.UserID f =? userID) (favorites db)).
Definition last_added (a b : Favorite.t * Post.t) : bool :=
  (Favorite.CreatedAt (fst b) <? Favorite.CreatedAt (fst a)) ||
  (Favorite.CreatedAt (fst a) =? Favorite.CreatedAt (fst b)) &&
  (Post.ID (snd b) <=? Post.ID (snd a)).
Definition FindFavoritePage (userID : Z) (params : Params) : MT (list PostRecord * Meta) :=
  let* total := query (fun db => Z.of_nat (length (favorite_posts userID db))) in
  let* rows := page params (fun db =>
    omap (fun fp => record_of db (snd fp)) (sort_by last_added (favorite_posts userID db))) in
  mret (rows, NewMeta params total).

(** *** What the author sees of the moderation *)
(** A manual verdict shows the labels of the machine's it supersedes. *)
Definition issue_labels (db : DB) (r : ModerationRecord.t) : list string :=
  if bool_decide (ModerationRecord.Provider r = ModerationProviderManual)
  then match id ← ModerationRecord.SupersedesID r; moderation_records db !! id with
       | Some machine => ModerationRecord.Labels machine
       | None => []
       end
  else ModerationRecord.Labels r.
Definition text_issue (postID : Z) (db : DB) : list PostModerationIssueRow :=
  match (v ← ModerationRepository.current_revision postID db; newest (of_revision postID v) db) with
  | Some r =>
      if bool_decide (ModerationRecord.Verdict r = ModerationVerdictPass) then []
      else [mkIssueRow "text" None (ModerationRecord.Verdict r) (issue_labels db r)]
  | None => []
  end.
Definition image_issue (db : DB) (pi : PostImage.t) : option PostModerationIssueRow :=
  image ← image_assets db !! PostImage.ImageAssetID pi;
  if bool_decide (ImageAsset.Moderation image = ModerationStatusPass) then None
  else Some (mkIssueRow "image" (Some (PostImage.Position pi)) (ImageAsset.Moderation image)
    match newest (fun r => bool_decide (ModerationRecord.ImageAssetID r = Some (ImageAsset.ID image))) db with
    | Some r => issue_labels db r
    | None => []
    end).
Definition FindModerationIssues (postID : Z) : MT (list PostModerationIssueRow) :=
  query (fun db => text_issue postID db ++ omap (image_issue db) (images_of postID db)).

(** *** Versions *)
Definition ListHistories (postID : Z) : MT (list PostHistory.t) :=
  query (fun db => sort_by (fun a b => PostHistory.Revision b <=? PostHistory.Revision a)
    (select (of_post postID) (post_histories db))).

Definition machine_verdict (postID revision : Z) (r : ModerationRecord.t) : bool :=
  of_revision postID revision r && bool_decide (ModerationRecord.ReviewerID r = None).
Definition ListHistoryModeration (postID : Z) : MT (list ModerationRecord.t) :=
  query (fun db =>
    omap (fun revision => newest (machine_verdict postID revision) db)
      (uniqueSortedIDs (omap (fun r =>
         if bool_decide (ModerationRecord.PostID r = Some postID) &&
            bool_decide (ModerationRecord.ReviewerID r = None)
         then ModerationRecord.ContentRevision r else None)
         (map snd (map_to_list (moderation_records db)))))).

(** *** Relations: post_relations.go *)
Definition loadPostTags (postIDs : list Z) : MT (Z -> list string) :=
  query (fun db id => if bool_decide (id ∈ postIDs)
    then map Tag.Name (filter (fun t => Tag.DeletedAt t = None) (tag_rows id db)) else []).
Definition loadPostFlavors (postIDs : list Z) : MT (Z -> list PostFlavorRow) :=
  query (fun db id => if bool_decide (id ∈ postIDs)
    then map (fun fl => mkFlavorRow (Flavor.Name (fst fl)) (snd fl)) (flavor_links id db) else []).
Definition loadPostImages (postIDs : list Z) : MT (Z -> list string) :=
  query (fun db id => if bool_decide (id ∈ postIDs)
    then omap (fun pi => ImageAsset.PublicURL <$> image_assets db !! PostImage.ImageAssetID pi)
           (images_of id db) else []).
Definition loadPostInteractions (postIDs : list Z) (userID : Z) : MT ((Z -> bool) * (Z -> bool)) :=
  let* liked := query (fun db id =>
    bool_decide (id ∈ postIDs) && is_set (post_likes db !! (userID, id))) in
  let* favorited := query (fun db id =>
    bool_decide (id ∈ postIDs) && is_set (favorites db !! (userID, id))) in
  mret (liked, favorited).
Definition loadAuthorFollows (authorIDs : list Z) (userID : Z) : MT (Z -> bool) :=
  let ids := uniqueSortedIDs authorIDs in
  match ids with
  | [] => mret (fun _ => false)
  | _ => query (fun db id => bool_decide (id ∈ ids) && is_set (follows db !! (userID, id)))
  end.

Definition LoadRelations (postIDs authorIDs : list Z) (currentUserID : Z) : MT PostRelations :=
  match postIDs with
  | [] => mret no_relations
  | _ =>
      let* tags := loadPostTags postIDs in
      let* flavors := loadPostFlavors postIDs in
      let* images := loadPostImages postIDs in
      if currentUserID =? 0
      then mret (mkPostRelations tags flavors images (fun _ => false) (fun _ => false) (fun _ => false))
      else
        let* interactions := loadPostInteractions postIDs currentUserID in
        let* following := loadAuthorFollows authorIDs currentUserID in
        mret (mkPostRelations tags flavors images (fst interactions) (snd interactions) following)
  end.
End ops.
End PostReadRepository.

(** [net/url]: the parsed address, its scheme, raw query and keys, and printing it. *)
Class URLLib := {
  URL : Type;
  url_Parse : string -> option URL;
  url_Scheme : URL -> string;
  url_RawQuery : URL -> string;
  url_query_keys : URL -> list string;
  url_with_RawQuery : string -> URL -> URL;
  url_String : URL -> string;
}.

(** ** internal/service/image_view.go *)
Definition imageThumbProcessingQuery : string :=
  "imageMogr2/thumbnail/720x720>/format/webp/quality/80".
Definition imageDisplayProcessingQuery : string :=
  "imageMogr2/thumbnail/1440x1440>/format/webp/quality/85".

Section tiers.
Context `{Unicode} `{URLLib}.

Definition derivableImageURL (parsed : URL) : bool :=
  (bool_decide (url_Scheme parsed = "http"%string) ||
   bool_decide (url_Scheme parsed = "https"%string)) &&
  forallb (fun key => negb (ContainsString (ToLower key) "signature")) (url_query_keys parsed).

Definition derive (processingQuery : string) (parsed : URL) : string :=
  url_String (url_with_RawQuery
    (if bool_decide (url_RawQuery parsed = ""%string) then processingQuery
     else url_RawQuery parsed +:+ "&" +:+ processingQuery) parsed).

(** One image: its display and its thumb. *)
Definition image_tiers (image : string) : string * string :=
  match url_Parse image with
  | Some parsed =>
      if bool_decide (image = ""%string) || IsPurgedImageURL image ||
         negb (derivableImageURL parsed)
      then (image, image)
      else (derive imageDisplayProcessingQuery parsed, derive imageThumbProcessingQuery parsed)
  | None => (image, image)
  end.
Definition deriveImageTiers (images : list string) : list string * list string :=
  (map (fun i => fst (image_tiers i)) images, map (fun i => snd (image_tiers i)) images).
Definition ImageCacheURLs (image : string) : list string :=
  [image; fst (image_tiers image); snd (image_tiers image)].
Definition avatarThumbURL (avatarURL : option string) : option string :=
  (fun a => snd (image_tiers a)) <$> avatarURL.
End tiers.

Module PostViews.
Import PostReadRepository.

(** ** Views: internal/service/post.go *)
Record CanteenView := mkCanteenView { cv_Code : string; cv_Name : string; cv_Campus : string }.
Record CanteenWindowView := mkWindowView {
  wv_ID : Z; wv_Name : string; wv_Floor : option string }.
Record PostAuthorView := mkAuthorView {
  pa_ID : Z; pa_Username : string; pa_AvatarURL : option string;
  pa_AvatarThumbURL : option string; pa_IsFollowing : option bool }.
Record PostStatsView := mkStatsView {
  ps_LikeCount : Z; ps_FavoriteCount : Z; ps_CommentCount : Z; ps_ViewCount : Z }.
Record BudgetRangeView := mkBudgetView { br_Min : Z; br_Max : Z }.
Record PreferencesView := mkPreferencesView {
  pv_AvoidFlavors : list string; pv_PreferFlavors : list string }.
Definition PostModerationIssueView := PostModerationIssueRow.
Record PostModerationView := mkModerationView {
  mv_Status : string; mv_Issues : list PostModerationIssueView }.

Record PostListItem := mkPostListItem {
  pi_ID : Z;
  pi_PostType : string;
  pi_ShareType : option string;
  pi_Title : string;
  pi_Content : string;
  pi_Category : string;
  pi_Canteen : option CanteenView;
  pi_CanteenWindow : option CanteenWindowView;
  pi_Cuisine : option string;
  pi_Flavors : list string;
  pi_Tags : list string;
  pi_Price : option Z;
  pi_Images : list string;
  pi_ImageDisplays : list string;
  pi_ImageThumbs : list string;
  pi_Author : PostAuthorView;
  pi_Stats : PostStatsView;
  pi_IsLiked : bool;
  pi_IsFavorited : bool;
  pi_IsEdited : bool;
  pi_IsDeleted : bool;
  pi_Status : string;
  pi_CreatedAt : time;
  pi_UpdatedAt : time;
}.
Record PostDetail := mkPostDetail {
  pd_Item : PostListItem;
  pd_BudgetRange : option BudgetRangeView;
  pd_Preferences : option PreferencesView;
  pd_Moderation : option PostModerationView;
}.
Record PostList := mkPostList { pl_Posts : list PostListItem; pl_Pagination : Meta }.
Record PostFeedList := mkFeedList { fe_Posts : list PostListItem; fe_Pagination : HybridMeta }.
Record PostHistoryView := mkHistoryView {
  ph_ID : Z; ph_Revision : Z; ph_EditedBy : Z; ph_EditedAt : time;
  ph_Snapshot : PostSnapshot.t; ph_EditReason : option string; ph_IsCurrent : bool;
  ph_Moderation : option CommentService.HistoryModerationView }.

Record ListPostsInput := mkListPosts {
  lp_PostType : string;
  lp_ShareType : string;
  lp_Category : string;
  lp_CanteenCode : string;
  lp_Cuisine : string;
  lp_Flavors : list string;
  lp_Tags : list string;
  lp_MinPrice : option Z;
  lp_MaxPrice : option Z;
  lp_SortBy : string;
  lp_Pagination : Params;
  lp_Cursor : CursorRequest;
}.
#[global] Instance eta_ListPostsInput : Eta ListPostsInput := fun x =>
  mkListPosts (lp_PostType x) (lp_ShareType x) (lp_Category x) (lp_CanteenCode x) (lp_Cuisine x)
    (lp_Flavors x) (lp_Tags x) (lp_MinPrice x) (lp_MaxPrice x) (lp_SortBy x) (lp_Pagination x)
    (lp_Cursor x).

(** ** internal/service/post_view.go *)
Section views.
Context `{Unicode} `{URLLib}.

Definition with_stance (stance : string) (rows : list PostRepository.PostFlavorRow) : list string :=
  map PostRepository.fr_Name
    (filter (fun r => PostRepository.fr_Stance r = stance) rows).

Definition buildCanteen (r : PostRecord) : option CanteenView :=
  code ← pr_CanteenCode r; name ← pr_CanteenName r; campus ← pr_CanteenCampus r;
  Some (mkCanteenView code name campus).
Definition buildWindow (r : PostRecord) : option CanteenWindowView :=
  id ← Post.CanteenWindowID (pr_Post r); name ← pr_WindowName r;
  Some (mkWindowView id name (pr_WindowFloor r)).
Definition buildPostAuthor (r : PostRecord) (relations : PostRelations) (currentUserID : Z)
    : PostAuthorView :=
  let author := Post.AuthorID (pr_Post r) in
  let gone := is_set (pr_AuthorDeletedAt r) in
  let avatarURL := if gone then None else pr_AvatarURL r in
  mkAuthorView author (if gone then "已注销用户"%string else pr_AuthorName r) avatarURL
    (avatarThumbURL avatarURL)
    (if author =? currentUserID then None else Some (rl_Following relations author)).
Definition buildPreferences (rows : list PostRepository.PostFlavorRow) : option PreferencesView :=
  match with_stance FlavorStanceAvoid rows, with_stance FlavorStancePrefer rows with
  | [], [] => None
  | avoid, prefer => Some (mkPreferencesView avoid prefer)
  end.

Definition buildPostListItem (r : PostRecord) (relations : PostRelations) (currentUserID : Z)
    : PostListItem :=
  let p := pr_Post r in
  let id := Post.ID p in
  let images := rl_Images relations id in
  let '(displays, thumbs) := deriveImageTiers images in
  mkPostListItem id (Post.PostType p) (Post.ShareType p) (Post.Title p) (Post.Content p)
    (Post.Category p) (buildCanteen r) (buildWindow r) (pr_CuisineName r)
    (with_stance FlavorStanceHas (rl_Flavors relations id)) (rl_Tags relations id) (Post.Price p)
    images displays thumbs (buildPostAuthor r relations currentUserID)
    (mkStatsView (Post.LikeCount p) (Post.FavoriteCount p) (Post.CommentCount p) (Post.ViewCount p))
    (rl_Liked relations id) (rl_Favorited relations id) (1 <? pr_MaxRevision r)
    (is_set (Post.DeletedAt p)) (Post.Status p) (Post.CreatedAt p) (Post.UpdatedAt p).
End views.

(** ** The filters of the feed *)
Section filters.
Context `{Unicode}.

Definition optionalTrimmed (value : string) : option string :=
  let value := TrimSpace value in
  if bool_decide (value = ""%string) then None else Some value.

(** An enumeration that is absent when empty. *)
Definition optional_enum (value field : string) (valid : string -> bool)
    : goerr + option string :=
  if bool_decide (value = ""%string) then inr None
  else if valid value then inr (Some value)
  else inl (EApi (InvalidField field FieldInvalidEnum (field +:+ " 取值不合法"))).

Definition post_orders : list string := ["latest"; "hot"; "trending"; "price"]%string.
Definition normalizePostFilter (input : ListPostsInput) : goerr + PostFilter :=
  let sortBy := if bool_decide (lp_SortBy input = ""%string) then "latest"%string
                else lp_SortBy input in
  if negb (oneOf sortBy post_orders)
  then inl (EApi (InvalidField "sort_by" FieldInvalidEnum "sort_by 取值不合法"))
  else match optional_enum (lp_PostType input) "post_type" validPostType with
  | inl err => inl err
  | inr postType =>
  match optional_enum (lp_ShareType input) "share_type" validShareType with
  | inl err => inl err
  | inr shareType =>
  match optional_enum (lp_Category input) "category" validCategory with
  | inl err => inl err
  | inr category =>
      let filter := mkPostFilter None postType shareType category
        (optionalTrimmed (lp_CanteenCode input)) (optionalTrimmed (lp_Cuisine input))
        (normalizeStrings (lp_Flavors input)) (normalizeStrings (lp_Tags input))
        (lp_MinPrice input) (lp_MaxPrice input) sortBy in
      match lp_MinPrice input, lp_MaxPrice input with
      | Some low, Some high =>
          if high <? low
          then inl (EApi (InvalidField "max_price" FieldConflict "max_price 不能小于 min_price"))
          else inr filter
      | _, _ => inr filter
      end
  end end end.

Definition userPostStatus (raw : string) : goerr + option string :=
  optional_enum raw "status" (fun v => oneOf v
    [PostStatusDraft; PostStatusPending; PostStatusApproved; PostStatusRejected]).

Definition postCursorRequest (input : ListPostsInput) : CursorRequest :=
  let request := lp_Cursor input in
  if negb (cr_Limit request =? 0) then request
  else mkCursorRequest (Token request)
         (if Limit (lp_Pagination input) =? 0 then DefaultLimit else Limit (lp_Pagination input)).
End filters.

(** ** The reading operations *)
Section service.
Context `{Env} `{Pg} `{Unicode} `{DbClock} `{PgLike} `{PgTrending} `{URLLib}.
Context (cursor : CursorCodec).

Definition loadRelations (rs : list PostRecord) (currentUserID : Z) : MT PostRelations :=
  on_error (LoadRelations (map (fun r => Post.ID (pr_Post r)) rs)
    (map (fun r => Post.AuthorID (pr_Post r)) rs) currentUserID) internal.
Definition build_items (rs : list PostRecord) (currentUserID : Z) : MT (list PostListItem) :=
  let* relations := loadRelations rs currentUserID in
  mret (map (fun r => buildPostListItem r relations currentUserID) rs).

Definition postCursorMeta (rs : list PostRecord) (limit : Z) (hasMore : bool) : MT CursorMeta :=
  match last rs with
  | Some last_ =>
      if hasMore then
        let* token := on_error (Encode cursor
          (Cursor.mk (Post.CreatedAt (pr_Post last_)) (Post.ID (pr_Post last_)) None)) internal in
        mret (mkCursorMeta limit (Some token) hasMore)
      else mret (mkCursorMeta limit None hasMore)
  | None => mret (mkCursorMeta limit None hasMore)
  end.

Definition findListPage (filter : PostFilter) (input : ListPostsInput)
    : MT (list PostRecord * HybridMeta) :=
  if negb (bool_decide (pf_SortBy filter = "latest"%string)) then
    let* page := on_error (FindPage filter (lp_Pagination input)) internal in
    mret (fst page, NewOffsetHybridMeta (snd page))
  else
    let* params := lift (DecodeRequest cursor (postCursorRequest input)) in
    let* page := on_error (FindLatestPage filter params) internal in
    let* meta := postCursorMeta (fst page) (cp_Limit params) (snd page) in
    mret (fst page, NewCursorHybridMeta meta).

Definition List_ (input : ListPostsInput) (currentUserID : Z) : MT PostFeedList :=
  let* filter := lift (normalizePostFilter input) in
  let* page := findListPage filter input in
  let* items := build_items (fst page) currentUserID in
  mret (mkFeedList items (snd page)).

Definition visibleRecord (postID currentUserID : Z) : MT PostRecord :=
  let* record := on_error (FindRecordByID postID true)
    (ModerationService.to_api BizPostNotFound "帖子") in
  lift (CommentService.ensurePostReadable (pr_Post record) currentUserID) ;;;
  mret record.

(** A live post is counted as viewed. *)
Definition viewed (record : PostRecord) : PostRecord :=
  record <| pr_Post := (pr_Post record)
    <| Post.ViewCount := wrap32 (Post.ViewCount (pr_Post record) + 1) |> |>.
Definition budget_view (p : Post.t) : option BudgetRangeView :=
  low ← Post.BudgetMin p; high ← Post.BudgetMax p; Some (mkBudgetView low high).

Definition Get (postID currentUserID : Z) : MT PostDetail :=
  let* record := visibleRecord postID currentUserID in
  let* record :=
    if PostRepository.undeleted (pr_Post record) then
      on_error (PostRepository.IncrementView postID)
        (ModerationService.to_api BizPostNotFound "帖子") ;;;
      mret (viewed record)
    else mret record in
  let* relations := loadRelations [record] currentUserID in
  let* moderation :=
    if Post.AuthorID (pr_Post record) =? currentUserID then
      let* issues := on_error (FindModerationIssues postID) internal in
      mret (Some (mkModerationView (Post.Status (pr_Post record)) issues))
    else mret None in
  mret (mkPostDetail (buildPostListItem record relations currentUserID)
    (budget_view (pr_Post record)) (buildPreferences (rl_Flavors relations postID)) moderation).

Definition Histories (postID userID : Z) (roles : list UserRole) : MT (list PostHistoryView) :=
  let* record := on_error (FindRecordByID postID true)
    (ModerationService.to_api BizPostNotFound "帖子") in
  let isModerator := HasCapability roles CapReviewContent in
  if negb (Post.AuthorID (pr_Post record) =? userID) && negb isModerator
  then api_error (Forbidden BizNotOwner "只能查看自己的帖子编辑历史")
  else
    let* rows := on_error (ListHistories postID) internal in
    let* verdicts := on_error (ListHistoryModeration postID) internal in
    let views := CommentService.historyModerationByRevision verdicts isModerator in
    mret (map (fun h => mkHistoryView (PostHistory.ID h) (PostHistory.Revision h)
      (PostHistory.EditedBy h) (PostHistory.EditedAt h) (PostHistory.Snapshot h)
      (PostHistory.EditReason h) (PostHistory.Revision h =? Post.CurrentRevision (pr_Post record))
      (views (PostHistory.Revision h))) rows).

(** ** The lists of the user service: internal/service/user.go *)
Definition postList (rs : list PostRecord) (meta : Meta) (currentUserID : Z) : MT PostList :=
  let* items := build_items rs currentUserID in
  mret (mkPostList items meta).

Definition UserPosts (userID : Z) (status : string) (params : Params) (currentUserID : Z)
    : MT PostList :=
  UserService.ensureUser userID ;;;
  let* parsed := lift (userPostStatus status) in
  let own := userID =? currentUserID in
  if negb own &&
     match parsed with Some s => negb (bool_decide (s = PostStatusApproved)) | None => false end
  then api_error (Forbidden BizPermissionDenied "无法查看他人的非公开帖子")
  else
    let parsed := if own then parsed else Some PostStatusApproved in
    let* page := on_error (FindAuthorPage userID parsed own params) internal in
    postList (fst page) (snd page) currentUserID.

Definition Favorites (userID : Z) (params : Params) (currentUserID : Z) : MT PostList :=
  if negb (userID =? currentUserID)
  then api_error (Forbidden BizPermissionDenied "无法查看他人的收藏列表")
  else
    UserService.ensureUser userID ;;;
    let* page := on_error (FindFavoritePage userID params) internal in
    postList (fst page) (snd page) currentUserID.
End service.
End PostViews.
