(* ===== verification/AdminReads.v ===== *)
(** * What the administration reads: [internal/repository/admin_read.go],
    [internal/service/admin_read.go], [internal/service/admin.go]

    The lists of posts, comments and users, a user with the records of bans and names, an
    image, and the queue of what waits for a reviewer, posts with their text and images
    together; [AdminViews] makes the answers of them.  Columns of a joined row are grouped by
    the row they come from. *)

From S2P Require Import Prelude.
From S2P Require Import GoText.
From S2P Require Import Apierr.
From S2P Require Import Effects.
From S2P Require Import Authz.
From S2P Require Import Model.
From S2P Require Import Validation.
From S2P Require Import Pagination.
From S2P Require Import AuthRepo.
From S2P Require Import AuthService.
From S2P Require Import PostValidation.
From S2P Require Import PostRepo.
From S2P Require Import UserRepo.
From S2P Require Import Moderation.
From S2P Require Import DictionaryRepo.
From S2P Require Import Upload.
From S2P Require Import Administration.
From S2P Require Import PostReads.

Open Scope Z_scope.

(** ** internal/repository/admin_read.go *)
Module AdminReadRepository.
Import PostRepository ModerationRepository.

Record AdminPostFilter := mkAdminPostFilter {
  af_Status : option string; af_PostType : option string; af_AuthorID : option Z }.
Record AdminPostRecord := mkAdminPostRecord {
  apr_Post : Post.t; apr_AuthorName : string; apr_AuthorEmail : string; apr_Images : list string }.
Record AdminCommentRecord := mkAdminCommentRecord {
  acr_Comment : Comment.t; acr_AuthorName : string; acr_AuthorEmail : string }.
Record AdminUserFilter := mkAdminUserFilter {
  uf_Role : option UserRole; uf_IsActive : option bool }.
Record AdminUserRecord := mkAdminUserRecord {
  aur_User : User.t; aur_Roles : list string; aur_AvatarURL : option string;
  aur_AvatarObjectKey : option string; aur_Stats : UserDomain.UserStatsRow }.
Record PendingModerationRecord := mkPendingRecord {
  pm_Record : ModerationRecord.t; pm_TargetType : string; pm_TargetID : option Z;
  pm_Content : option string; pm_ImageObjectKey : option string; pm_GroupPostID : option Z }.
Record PostModerationBundleRow := mkBundleRow {
  bw_Post : Post.t; bw_Text : option ModerationRecord.t;
  bw_Image : option (PostImage.t * ImageAsset.t); bw_ImageRecord : option ModerationRecord.t }.

(** *** Users *)
Definition admin_stats (db : DB) (userID : Z) : UserDomain.UserStatsRow :=
  let ps := UserDomain.posts_by userID db in
  UserDomain.mkStatsRow (Z.of_nat (length ps)) (UserDomain.sum (map Post.LikeCount ps))
    (UserDomain.sum (map Post.FavoriteCount ps))
    (Z.of_nat (length (where_ (fun f => Follow.FollowingID f =? userID) (follows db))))
    (Z.of_nat (length (where_ (fun f => Follow.FollowerID f =? userID) (follows db)))).
Definition user_record (db : DB) (u : User.t) : AdminUserRecord :=
  mkAdminUserRecord u (UserRepository.roles_of db (User.ID u)) (UserDomain.avatar_url db u)
    (a ← User.AvatarImageAssetID u; ImageAsset.ObjectKey <$> image_assets db !! a)
    (admin_stats db (User.ID u)).
Definition has_role (db : DB) (role : UserRole) (u : User.t) : bool :=
  if bool_decide (role = UserRoleUser)
  then bool_decide (UserRepository.roles_of db (User.ID u) = [])
  else is_set (user_roles db !! (User.ID u, role)).
Definition user_selected (f : AdminUserFilter) (deleted : bool) (now : time) (db : DB) (u : User.t)
    : bool :=
  (deleted || UserRepository.live u) &&
  match uf_Role f with Some role => has_role db role u | None => true end &&
  match uf_IsActive f with Some b => Bool.eqb (SessionRepository.user_active now u) b | None => true end.
Definition newest_user (a b : User.t) : bool :=
  (User.CreatedAt b <? User.CreatedAt a) ||
  (User.CreatedAt a =? User.CreatedAt b) && (User.ID b <=? User.ID a).

(** *** The queue *)
Record QueueItem := mkQueueItem {
  qi_TargetType : string; qi_TargetID : option Z; qi_RecordID : Z; qi_CreatedAt : time;
  qi_Priority : Z; qi_GroupPostID : option Z }.

Definition severity (r : ModerationRecord.t) : Z :=
  if bool_decide (ModerationRecord.Verdict r = ModerationVerdictBlock) then 0 else 1.
(** Blocks first, then the oldest. *)
Definition more_urgent (a b : ModerationRecord.t) : bool :=
  (severity a <? severity b) ||
  (severity a =? severity b) &&
  ((ModerationRecord.CreatedAt a <? ModerationRecord.CreatedAt b) ||
   (ModerationRecord.CreatedAt a =? ModerationRecord.CreatedAt b) &&
   (ModerationRecord.ID a <=? ModerationRecord.ID b)).

Definition labelled (label : option string) (r : ModerationRecord.t) : bool :=
  match label with Some l => bool_decide (l ∈ ModerationRecord.Labels r) | None => true end.
Definition pending_records (label : option string) (db : DB) : list ModerationRecord.t :=
  select (fun r => pending db r && labelled label r) (moderation_records db).

(** A post that waits or was turned down and whose images have all been judged. *)
Definition reviewable (db : DB) (p : Post.t) : bool :=
  (bool_decide (Post.Status p = PostStatusPending) || bool_decide (Post.Status p = PostStatusRejected)) &&
  undeleted p &&
  forallb (fun pi => match image_assets db !! PostImage.ImageAssetID pi with
                     | Some a => negb (bool_decide (ImageAsset.Moderation a = ModerationStatusPending))
                     | None => true
                     end) (images_of (Post.ID p) db).

(** One item for all that is pending on a post. *)
Definition post_item (label : option string) (db : DB) (p : Post.t) : option QueueItem :=
  let rs := sort_by more_urgent (filter (fun r => on_post (Post.ID p) db r = true)
              (pending_records label db)) in
  first_ ← hd_error rs;
  Some (mkQueueItem ModerationTargetPost (Some (Post.ID p)) (ModerationRecord.ID first_)
    (foldr Z.min (ModerationRecord.CreatedAt first_) (map ModerationRecord.CreatedAt rs))
    (foldr Z.min (severity first_) (map severity rs)) (Some (Post.ID p))).

Definition generic (db : DB) (r : ModerationRecord.t) : bool :=
  bool_decide (ModerationRecord.PostID r = None) &&
  match ModerationRecord.ImageAssetID r with
  | None => true
  | Some a => match image_assets db !! a with
              | Some image => negb (bool_decide (ImageAsset.Purpose image = ImagePurposePost))
              | None => false
              end
  end.
Definition target_type (r : ModerationRecord.t) : string :=
  if is_set (ModerationRecord.CommentID r) then ModerationTargetComment
  else if is_set (ModerationRecord.ImageAssetID r) then ModerationTargetImage
  else if is_set (ModerationRecord.TagID r) then ModerationTargetTag
  else ModerationTargetUser.
(** [COALESCE] *)
Definition target_id (r : ModerationRecord.t) : option Z :=
  match ModerationRecord.CommentID r, ModerationRecord.ImageAssetID r, ModerationRecord.TagID r with
  | Some c, _, _ => Some c
  | None, Some a, _ => Some a
  | None, None, Some t => Some t
  | None, None, None => ModerationRecord.UserID r
  end.
Definition generic_item (r : ModerationRecord.t) : QueueItem :=
  mkQueueItem (target_type r) (target_id r) (ModerationRecord.ID r) (ModerationRecord.CreatedAt r)
    (severity r) None.

Definition queue_items (label : option string) (db : DB) : list QueueItem :=
  omap (post_item label db) (select (reviewable db) (posts db)) ++
  map generic_item (filter (fun r => generic db r = true) (pending_records label db)).
Definition sooner (a b : QueueItem) : bool :=
  (qi_Priority a <? qi_Priority b) ||
  (qi_Priority a =? qi_Priority b) &&
  ((qi_CreatedAt a <? qi_CreatedAt b) ||
   (qi_CreatedAt a =? qi_CreatedAt b) && (qi_RecordID a <=? qi_RecordID b)).

(** [E'\n'] *)
Definition newline : string := string_of [10].
Definition item_content (db : DB) (i : QueueItem) (r : ModerationRecord.t) : option string :=
  match qi_GroupPostID i with
  | Some id => match posts db !! id with
               | Some p => Some (Post.Title p +:+ newline +:+ Post.Content p)
               | None => Some newline
               end
  | None =>
      match ModerationRecord.CommentID r, ModerationRecord.ImageAssetID r,
            ModerationRecord.TagID r with
      | Some c, _, _ => Comment.Content <$> comments db !! c
      | None, Some a, _ => ImageAsset.PublicURL <$> image_assets db !! a
      | None, None, Some t => Tag.Name <$> tags db !! t
      | None, None, None =>
          if bool_decide (ModerationRecord.Field r = Some ModerationFieldName)
          then ModerationRecord.UsernameCandidate r
          else if bool_decide (ModerationRecord.Field r = Some ModerationFieldBio)
          then id ← ModerationRecord.UserID r; u ← users db !! id; User.Bio u
          else None
      end
  end.
Definition item_record (db : DB) (i : QueueItem) : option PendingModerationRecord :=
  r ← moderation_records db !! qi_RecordID i;
  Some (mkPendingRecord r (qi_TargetType i) (qi_TargetID i) (item_content db i r)
    (if is_set (qi_GroupPostID i) then None
     else a ← ModerationRecord.ImageAssetID r; ImageAsset.ObjectKey <$> image_assets db !! a)
    (qi_GroupPostID i)).

(** *** Posts with everything that is said of them *)
Definition machine (r : ModerationRecord.t) : bool :=
  negb (bool_decide (ModerationRecord.Provider r = ModerationProviderManual)).
Definition bundle_rows (db : DB) (p : Post.t) : list PostModerationBundleRow :=
  let text := newest (fun r => of_revision (Post.ID p) (Post.CurrentRevision p) r && machine r) db in
  match images_of (Post.ID p) db with
  | [] => [mkBundleRow p text None None]
  | pis => map (fun pi =>
      let image := image_assets db !! PostImage.ImageAssetID pi in
      mkBundleRow p text ((fun a => (pi, a)) <$> image)
        (a ← image; newest (fun r => machine r &&
           bool_decide (ModerationRecord.ImageAssetID r = Some (ImageAsset.ID a))) db)) pis
  end.

Section ops.
Context `{Env} `{Pg} `{DbClock}.

(** The images are loaded for the rows of the page. *)
Definition loadAdminPostImages (rows : list AdminPostRecord) : MT (list AdminPostRecord) :=
  match rows with
  | [] => mret []
  | _ => query (fun db => map (fun r => mkAdminPostRecord (apr_Post r) (apr_AuthorName r)
      (apr_AuthorEmail r)
      (omap (fun pi => ImageAsset.PublicURL <$> image_assets db !! PostImage.ImageAssetID pi)
         (images_of (Post.ID (apr_Post r)) db))) rows)
  end.

Definition post_selected (f : AdminPostFilter) (deleted : bool) (p : Post.t) : bool :=
  (deleted || undeleted p) && PostReadRepository.equals (af_Status f) (Some (Post.Status p)) &&
  PostReadRepository.equals (af_PostType f) (Some (Post.PostType p)) &&
  match af_AuthorID f with Some a => Post.AuthorID p =? a | None => true end.
Definition admin_post (db : DB) (p : Post.t) : option AdminPostRecord :=
  author ← users db !! Post.AuthorID p;
  Some (mkAdminPostRecord p (User.Username author) (User.Email author) []).
Definition FindPostPage (filter : AdminPostFilter) (params : Params) (IncludeDeleted : bool)
    : MT (list AdminPostRecord * Meta) :=
  let p := post_selected filter IncludeDeleted in
  let* total := query (PostReadRepository.count_posts p) in
  let* rows := PostReadRepository.page params (fun db =>
    sort_by (fun a b => PostReadRepository.newest_post (apr_Post a) (apr_Post b))
      (omap (admin_post db) (select p (posts db)))) in
  let* rows := loadAdminPostImages rows in
  mret (rows, NewMeta params total).

Definition newest_comment (a b : AdminCommentRecord) : bool :=
  let a := acr_Comment a in let b := acr_Comment b in
  (Comment.CreatedAt b <? Comment.CreatedAt a) ||
  (Comment.CreatedAt a =? Comment.CreatedAt b) && (Comment.ID b <=? Comment.ID a).
Definition admin_comment (db : DB) (c : Comment.t) : option AdminCommentRecord :=
  author ← users db !! Comment.AuthorID c;
  Some (mkAdminCommentRecord c (User.Username author) (User.Email author)).
Definition FindCommentPage (postID : option Z) (params : Params) (IncludeDeleted : bool)
    : MT (list AdminCommentRecord * Meta) :=
  let p c := (IncludeDeleted || bool_decide (Comment.DeletedAt c = None)) &&
             match postID with Some id => Comment.PostID c =? id | None => true end in
  let* total := query (fun db => Z.of_nat (length (select p (comments db)))) in
  let* rows := PostReadRepository.page params (fun db =>
    sort_by newest_comment (omap (admin_comment db) (select p (comments db)))) in
  mret (rows, NewMeta params total).

Definition FindUserPage (filter : AdminUserFilter) (params : Params) (IncludeDeleted : bool)
    : MT (list AdminUserRecord * Meta) :=
  let* now := DbNow in
  let p := user_selected filter IncludeDeleted now in
  let* total := query (fun db => Z.of_nat (length (select (p db) (users db)))) in
  let* rows := PostReadRepository.page params (fun db =>
    map (user_record db) (sort_by newest_user (select (p db) (users db)))) in
  mret (rows, NewMeta params total).

Definition FindUserByID (userID : Z) (IncludeDeleted : bool) : MT AdminUserRecord :=
  let* r := query (fun db => user_record db <$>
    first (fun u => AdminRepository.of_id userID u && (IncludeDeleted || UserRepository.live u))
      (users db)) in
  match r with Some record => mret record | None => throw ErrNotFound end.

Definition FindUserBanRecords (userID : Z) : MT (list UserBanRecord.t) :=
  query (fun db => sort_by (fun a b =>
      (UserBanRecord.CreatedAt b <? UserBanRecord.CreatedAt a) ||
      (UserBanRecord.CreatedAt a =? UserBanRecord.CreatedAt b) &&
      (UserBanRecord.ID b <=? UserBanRecord.ID a))
    (select (fun r => UserBanRecord.UserID r =? userID) (user_ban_records db))).
Definition FindUsernameChangeRecords (userID : Z) : MT (list UsernameChangeRecord.t) :=
  query (fun db => sort_by (fun a b =>
      (UsernameChangeRecord.ChangedAt b <? UsernameChangeRecord.ChangedAt a) ||
      (UsernameChangeRecord.ChangedAt a =? UsernameChangeRecord.ChangedAt b) &&
      (UsernameChangeRecord.ID b <=? UsernameChangeRecord.ID a))
    (select (fun r => UsernameChangeRecord.UserID r =? userID) (user_name_change_records db))).

(** The page is written by hand: the database refuses a negative offset. *)
Definition FindPendingModerationPage (label : option string) (params : Params)
    : MT (list PendingModerationRecord * Meta) :=
  let* total := query (fun db => Z.of_nat (length (queue_items label db))) in
  let* rows := stmt (fun db =>
    if Offset params <? 0 then inl (EPg "2201X" "")
    else inr (page_rows params (omap (item_record db) (sort_by sooner (queue_items label db))), db)) in
  mret (rows, NewMeta params total).

Definition FindPostModerationBundleRows (postIDs : list Z) : MT (list PostModerationBundleRow) :=
  query (fun db => concat (map (bundle_rows db)
    (select (fun p => bool_decide (Post.ID p ∈ postIDs)) (posts db)))).
End ops.
End AdminReadRepository.

Module AdminViews.
Import AdminReadRepository.

(** ** Views: internal/service/admin.go *)
Record AdminAuthorView := mkAuthorView { aa_ID : Z; aa_Name : string; aa_Email : string }.
Record AdminPostView := mkPostView {
  ap_ID : Z; ap_Title : string; ap_Content : string; ap_Category : string; ap_PostType : string;
  ap_Images : list string; ap_Author : AdminAuthorView; ap_Status : string; ap_LikeCount : Z;
  ap_ViewCount : Z; ap_CommentCount : Z; ap_DeletedAt : option time;
  ap_DeletedReason : option string; ap_DeletedBy : option Z; ap_CreatedAt : time }.
Record AdminPostList := mkPostList { al_Posts : list AdminPostView; al_Pagination : Meta }.
Record AdminCommentView := mkCommentView {
  ac_ID : Z; ac_Content : string; ac_PostID : Z; ac_Author : AdminAuthorView;
  ac_ParentID : option Z; ac_LikeCount : Z; ac_ReplyCount : Z; ac_DeletedAt : option time;
  ac_DeletedReason : option string; ac_DeletedBy : option Z; ac_CreatedAt : time }.
Record AdminCommentList := mkCommentList {
  cl_Comments : list AdminCommentView; cl_Pagination : Meta }.
Record AdminUserView := mkUserView {
  au_ID : Z; au_Username : string; au_Email : string; au_Roles : list UserRole;
  au_IsActive : bool; au_IsBanned : bool; au_BanIsPermanent : bool; au_BannedUntil : option time;
  au_BanReason : option string; au_BannedBy : option Z; au_AvatarURL : option string;
  au_Bio : option string; au_Stats : UserDomain.UserStatsRow; au_DeletedAt : option time;
  au_CreatedAt : time }.
#[global] Instance eta_AdminUserView : Eta AdminUserView := fun x =>
  mkUserView (au_ID x) (au_Username x) (au_Email x) (au_Roles x) (au_IsActive x) (au_IsBanned x)
    (au_BanIsPermanent x) (au_BannedUntil x) (au_BanReason x) (au_BannedBy x) (au_AvatarURL x)
    (au_Bio x) (au_Stats x) (au_DeletedAt x) (au_CreatedAt x).
Record AdminUserList := mkUserList { ul_Users : list AdminUserView; ul_Pagination : Meta }.
(** The records of bans and names are shown as they are stored. *)
Record AdminUserDetail := mkUserDetail {
  ud_User : AdminUserView; ud_BanRecords : list UserBanRecord.t;
  ud_UsernameChanges : list UsernameChangeRecord.t }.
Record AdminImageView := mkImageView {
  ai_ID : Z; ai_UploaderID : option Z; ai_Purpose : string; ai_Status : string;
  ai_Moderation : string; ai_ImageURL : option string; ai_CreatedAt : time }.
Record AdminMachineModerationView := mkMachineView {
  mm_ModerationRecordID : Z; mm_Provider : string; mm_ProviderJobID : option string;
  mm_Verdict : string; mm_Labels : list string; mm_Score : option Z; mm_CreatedAt : time }.
Record AdminPostTextModerationView := mkTextView {
  tm_Title : string; tm_Content : string; tm_Moderation : string;
  tm_Machine : option AdminMachineModerationView }.
Record AdminPostImageModerationView := mkImageModeration {
  im_UploadID : Z; im_Position : Z; im_ImageURL : string; im_Moderation : string;
  im_Machine : option AdminMachineModerationView }.
Record AdminPostModerationView := mkPostModeration {
  pm_ID : Z; pm_Status : string; pm_Text : AdminPostTextModerationView;
  pm_Images : list AdminPostImageModerationView }.
#[global] Instance eta_AdminPostModerationView : Eta AdminPostModerationView := fun x =>
  mkPostModeration (pm_ID x) (pm_Status x) (pm_Text x) (pm_Images x).
Record AdminModerationView := mkModerationView {
  mv_ID : Z; mv_TargetType : string; mv_TargetID : option Z; mv_Field : option string;
  mv_Scene : string; mv_Provider : string; mv_ProviderJobID : option string; mv_Verdict : string;
  mv_Labels : list string; mv_Score : option Z; mv_Content : option string; mv_CreatedAt : time;
  mv_Post : option AdminPostModerationView }.
Record AdminModerationList := mkModerationList {
  ml_Records : list AdminModerationView; ml_Pagination : Meta }.

(** ** internal/service/admin_read.go *)
Section views.
Context `{Unicode}.

Definition adminContentPreview (content : string) : string :=
  if RuneCountInString content <=? 200 then content else truncateRunes content 200 +:+ "...".

Definition admin_post_view (preview : bool) (r : AdminPostRecord) : AdminPostView :=
  let p := apr_Post r in
  mkPostView (Post.ID p) (Post.Title p)
    (if preview then adminContentPreview (Post.Content p) else Post.Content p) (Post.Category p)
    (Post.PostType p) (apr_Images r)
    (mkAuthorView (Post.AuthorID p) (apr_AuthorName r) (apr_AuthorEmail r)) (Post.Status p)
    (Post.LikeCount p) (Post.ViewCount p) (Post.CommentCount p) (Post.DeletedAt p)
    (Post.DeletedReason p) (Post.DeletedBy p) (Post.CreatedAt p).
Definition adminPostList (rows : list AdminPostRecord) (meta : Meta) (preview : bool)
    : AdminPostList := mkPostList (map (admin_post_view preview) rows) meta.

(** An enumeration that is absent when the raw text is empty, trimmed otherwise. *)
Definition trimmed_enum (raw field message : string) (choices : list string)
    : goerr + option string :=
  if bool_decide (raw = ""%string) then inr None
  else let value := TrimSpace raw in
       if oneOf value choices then inr (Some value)
       else inl (EApi (InvalidField field FieldInvalidEnum message)).
Definition adminPostFilter (rawStatus rawPostType : string) : goerr + AdminPostFilter :=
  match trimmed_enum rawStatus "status" "status 必须是 draft、pending、approved 或 rejected"
          [PostStatusDraft; PostStatusPending; PostStatusApproved; PostStatusRejected] with
  | inl err => inl err
  | inr status =>
      match trimmed_enum rawPostType "post_type" "post_type 必须是 share 或 seeking"
              [PostTypeShare; PostTypeSeeking] with
      | inl err => inl err
      | inr postType => inr (mkAdminPostFilter status postType None)
      end
  end.

Definition adminRole (raw : string) (optional : bool) : goerr + option UserRole :=
  let raw := TrimSpace raw in
  if bool_decide (raw = ""%string) && optional then inr None
  else if oneOf raw [UserRoleUser; UserRoleDictReviewer; UserRoleModerator; UserRoleSuperAdmin]
  then inr (Some raw)
  else inl (EApi (InvalidField "role" FieldInvalidEnum
         "role 必须是 user、dict_reviewer、moderator 或 super_admin")).

Definition adminUserView (row : AdminUserRecord) (now : time) : AdminUserView :=
  let u := aur_User row in
  let banned := AdminService.isCurrentlyBanned u now in
  mkUserView (User.ID u) (User.Username u) (User.Email u) (aur_Roles row)
    (bool_decide (User.DeletedAt u = None) && negb banned) banned (User.BanIsPermanent u)
    (User.BannedUntil u) (User.BanReason u) (User.BannedBy u) (aur_AvatarURL row) (User.Bio u)
    (aur_Stats row) (User.DeletedAt u) (User.CreatedAt u).

Definition adminMachineModeration (r : ModerationRecord.t) : AdminMachineModerationView :=
  mkMachineView (ModerationRecord.ID r) (ModerationRecord.Provider r)
    (ModerationRecord.ProviderJobID r) (ModerationRecord.Verdict r) (ModerationRecord.Labels r)
    (ModerationRecord.Score r) (ModerationRecord.CreatedAt r).

Definition empty_bundle (row : PostModerationBundleRow) : AdminPostModerationView :=
  let p := bw_Post row in
  mkPostModeration (Post.ID p) (Post.Status p)
    (mkTextView (Post.Title p) (Post.Content p)
       match bw_Text row with Some r => ModerationRecord.Verdict r | None => ModerationStatusPending end
       (adminMachineModeration <$> bw_Text row)) [].
End views.

Section service.
Context `{Env} `{Pg} `{Unicode} `{DbClock}.
Context (storage : Storage) (signedImageTTL : duration).

Definition presignImage (objectKey : string) : MT string := fun tx =>
  match PresignGet storage (c_stmt (tx_ctr tx)) objectKey signedImageTTL with
  | inl err => (inl (UploadService.storageUnavailable err), tx)
  | inr imageURL => (inr imageURL, tx)
  end.
Definition presign_optional (objectKey : option string) : MT (option string) :=
  match objectKey with
  | Some key => let* imageURL := presignImage key in mret (Some imageURL)
  | None => mret None
  end.

Definition PendingPosts (params : Params) : MT AdminPostList :=
  let* page := on_error (FindPostPage (mkAdminPostFilter (Some PostStatusPending) None None)
                           params false) internal in
  mret (adminPostList (fst page) (snd page) false).

Definition Posts (rawStatus rawPostType : string) (params : Params) : MT AdminPostList :=
  let* filter := lift (adminPostFilter rawStatus rawPostType) in
  let* page := on_error (FindPostPage filter params true) internal in
  mret (adminPostList (fst page) (snd page) true).

Definition Comments (postID : option Z) (params : Params) : MT AdminCommentList :=
  let* page := on_error (FindCommentPage postID params true) internal in
  mret (mkCommentList (map (fun r =>
    let c := acr_Comment r in
    mkCommentView (Comment.ID c) (Comment.Content c) (Comment.PostID c)
      (mkAuthorView (Comment.AuthorID c) (acr_AuthorName r) (acr_AuthorEmail r))
      (Comment.ParentID c) (Comment.LikeCount c) (Comment.ReplyCount c) (Comment.DeletedAt c)
      (Comment.DeletedReason c) (Comment.DeletedBy c) (Comment.CreatedAt c)) (fst page)) (snd page)).

Definition Users (rawRole : string) (isActive : option bool) (params : Params)
    : MT AdminUserList :=
  let* role := lift (adminRole rawRole true) in
  let* page := on_error (FindUserPage (mkAdminUserFilter role isActive) params false) internal in
  let* now := Now in
  mret (mkUserList (map (fun r => adminUserView r now) (fst page)) (snd page)).
Definition Admins (params : Params) : MT AdminUserList := Users UserRoleModerator None params.
Definition SuperAdmins (params : Params) : MT AdminUserList := Users UserRoleSuperAdmin None params.

Definition User_ (userID : Z) : MT AdminUserDetail :=
  let* row := on_error (FindUserByID userID true) (ModerationService.to_api BizNotFound "用户") in
  let* records := on_error (FindUserBanRecords userID) internal in
  let* nameRecords := on_error (FindUsernameChangeRecords userID) internal in
  let* now := Now in
  let view := adminUserView row now in
  let* view :=
    match aur_AvatarObjectKey row with
    | Some key => let* avatarURL := presignImage key in mret (view <| au_AvatarURL := Some avatarURL |>)
    | None => mret view
    end in
  mret (mkUserDetail view records nameRecords).

Definition Image (imageAssetID : Z) : MT AdminImageView :=
  let* asset := on_error (UploadRepository.FindByID imageAssetID)
                  (ModerationService.to_api BizUploadNotFound "图片") in
  let* imageURL := presign_optional
    (if negb (bool_decide (ImageAsset.PublicURL asset = ""%string)) &&
        negb (IsPurgedImageURL (ImageAsset.PublicURL asset))
     then Some (ImageAsset.ObjectKey asset) else None) in
  mret (mkImageView (ImageAsset.ID asset) (ImageAsset.UploaderID asset) (ImageAsset.Purpose asset)
    (ImageAsset.Status asset) (ImageAsset.Moderation asset) imageURL (ImageAsset.CreatedAt asset)).

Definition UserPosts (userID : Z) (rawStatus rawPostType : string) (params : Params)
    : MT AdminPostList :=
  on_error (FindUserByID userID true) (ModerationService.to_api BizNotFound "用户") ;;;
  let* filter := lift (adminPostFilter rawStatus rawPostType) in
  let* page := on_error (FindPostPage
    (mkAdminPostFilter (af_Status filter) (af_PostType filter) (Some userID)) params true) internal in
  mret (adminPostList (fst page) (snd page) true).

(** *** The queue *)
(** One bundle for each post, its images in the order of the rows. *)
Fixpoint add_bundle_rows (bundles : gmap Z AdminPostModerationView)
    (rows : list PostModerationBundleRow) : MT (gmap Z AdminPostModerationView) :=
  match rows with
  | [] => mret bundles
  | row :: rows' =>
      let id := Post.ID (bw_Post row) in
      let bundle := default (empty_bundle row) (bundles !! id) in
      match bw_Image row with
      | None => add_bundle_rows (<[id := bundle]> bundles) rows'
      | Some (pi, image) =>
          let* imageURL := presignImage (ImageAsset.ObjectKey image) in
          let view := mkImageModeration (ImageAsset.ID image) (PostImage.Position pi) imageURL
            (ImageAsset.Moderation image) (adminMachineModeration <$> bw_ImageRecord row) in
          add_bundle_rows
            (<[id := bundle <| pm_Images := pm_Images bundle ++ [view] |>]> bundles) rows'
      end
  end.
Definition buildPostModerationBundles (rows : list PostModerationBundleRow)
    : MT (gmap Z AdminPostModerationView) := add_bundle_rows ∅ rows.

Definition moderation_view (bundles : gmap Z AdminPostModerationView)
    (row : PendingModerationRecord) : MT AdminModerationView :=
  let r := pm_Record row in
  let* signed := presign_optional (pm_ImageObjectKey row) in
  mret (mkModerationView (ModerationRecord.ID r) (pm_TargetType row) (pm_TargetID row)
    (ModerationRecord.Field r) (ModerationRecord.Scene r) (ModerationRecord.Provider r)
    (ModerationRecord.ProviderJobID r) (ModerationRecord.Verdict r) (ModerationRecord.Labels r)
    (ModerationRecord.Score r)
    (match signed with Some imageURL => Some imageURL | None => pm_Content row end)
    (ModerationRecord.CreatedAt r) (id ← pm_GroupPostID row; bundles !! id)).
Fixpoint moderation_views (bundles : gmap Z AdminPostModerationView)
    (rows : list PendingModerationRecord) : MT (list AdminModerationView) :=
  match rows with
  | [] => mret []
  | row :: rows' =>
      let* view := moderation_view bundles row in
      let* views := moderation_views bundles rows' in
      mret (view :: views)
  end.

Definition PendingModeration (rawLabel : string) (params : Params) : MT AdminModerationList :=
  let label := TrimSpace rawLabel in
  let label := if bool_decide (label = ""%string) then None else Some label in
  let* page := on_error (FindPendingModerationPage label params) internal in
  let rows := fst page in
  let* bundleRows := on_error (FindPostModerationBundleRows (omap pm_GroupPostID rows)) internal in
  let* bundles := buildPostModerationBundles bundleRows in
  let* records := moderation_views bundles rows in
  mret (mkModerationList records (snd page)).
End service.
End AdminViews.
