(* ===== verification/Endpoints.v ===== *)
(** * The endpoints: [internal/handler], [internal/router]

    What the endpoints share ([handler/query.go], [handler/comment.go], the guards of
    [internal/middleware]); one Module per domain, [DictionaryHandler], [CommentHandler],
    [UserHandler], [UploadHandler], [PostHandler] and [AdminHandler], with its bodies and
    queries, its handlers and its table of routes; and [Router], the domains in one process
    ([router/register.go]).

    A handler collects what the request says, the first mistake winning, calls one method
    of a service and answers.  The decoding of JSON and of query strings is the
    framework's: a handler is given the raw query values and the decoded body, [None] when
    it is not JSON of the expected form. *)

From S2P Require Import Prelude.
From S2P Require Import GoText.
From S2P Require Import Apierr.
From S2P Require Import Effects.
From S2P Require Import Authz.
From S2P Require Import Middleware.
From S2P Require Import Model.
From S2P Require Import Validation.
From S2P Require Import Digest.
From S2P Require Import Pagination.
From S2P Require Import AuthRepo.
From S2P Require Import AuthService.
From S2P Require Import AuthHandler.
From S2P Require Import Notifications.
From S2P Require Import Money.
From S2P Require Import PostValidation.
From S2P Require Import PostRepo.
From S2P Require Import Moderation.
From S2P Require Import UserService.
From S2P Require Import SingleReview.
From S2P Require Import PostService.
From S2P Require Import CommentService.
From S2P Require Import DictionaryRepo.
From S2P Require Import DictionaryService.
From S2P Require Import Upload.
From S2P Require Import Administration.
From S2P Require Import PostReads.
From S2P Require Import AdminReads.

Open Scope Z_scope.

(** [json.Unmarshal(raw, &x)] into an [*int32] and a [*bool]. *)
Class JSONFields := {
  Unmarshal_int32 : string -> option (option Z);
  Unmarshal_bool : string -> option (option bool);
}.

(** [fields] holds the raw values of a JSON object; an absent field leaves the target. *)
Definition decode_field {A} (unmarshal : string -> option (option A))
    (fields : gmap string string) (key : string) : option (option A) :=
  match fields !! key with Some raw => unmarshal raw | None => Some None end.

Definition jsonBody {R} (body : option R) : goerr + R :=
  match body with Some request => inr request | None => inl bindError end.

Definition positivePathID (raw field : string) : goerr + Z :=
  let invalid := EApi (InvalidField field FieldInvalidFormat (field +:+ " 必须是正整数")) in
  match ParseUint raw with
  | Some id => if id =? 0 then inl invalid else inr id
  | None => inl invalid
  end.

(** ** Query strings *)
Record paginationQuery := mkPaginationQuery { q_Page : string; q_Limit : string }.
Definition pagination_params (q : paginationQuery) : goerr + Params :=
  Pagination.Parse (q_Page q) (q_Limit q).

Record cursorPaginationQuery := mkCursorQuery { cq_Cursor : string; cq_Limit : string }.
Definition cursor_params (q : cursorPaginationQuery) : goerr + CursorRequest :=
  ParseCursorRequest (cq_Cursor q) (cq_Limit q).

Definition replyPaginationQuery := cursorPaginationQuery.
Definition reply_params (q : replyPaginationQuery) : goerr + CursorRequest :=
  let rawLimit := if bool_decide (cq_Limit q = ""%string) then "10"%string else cq_Limit q in
  ParseCursorRequest (cq_Cursor q) rawLimit.

(** ** Handlers *)
(** The service is called with what [httpx.CurrentPrincipal] says, an error included. *)
Definition identified {T R} (m : goerr + Principal -> MT R) (message : string)
    (payload : R -> T) : HandlerT T :=
  fun c tx => respond (m (CurrentPrincipal c)) message payload c tx.

Definition user_id (p : Principal) : Z := User.ID (pr_User p).

(** [adminIdentity], [commentIdentity], [userRequestIdentity]: the identifier of the path,
    then the principal. *)
Definition path_identity (raw field : string) (who : goerr + Principal)
    : goerr + (Z * Principal) :=
  match positivePathID raw field with
  | inl err => inl err
  | inr id => match who with inl err => inl err | inr p => inr (id, p) end
  end.

(** [service.Principal]'s roles; an identity that was not loaded has none. *)
Definition principal_roles (p : Principal) : list UserRole := default [] (User.Roles (pr_User p)).

Section guards.
Context `{Env} `{Pg} `{JWT} (h : AuthService) (authorization : string).

Definition authenticated {T} (next : HandlerT T) : HandlerT T :=
  RequireAuth (Authenticate h) authorization next.
Definition capable {T} (capability : Capability) (next : HandlerT T) : HandlerT T :=
  authenticated (RequireCapability principal_roles capability next).
End guards.

Module DictionaryHandler.
Import DictionaryService.

(** ** Bodies
    Those that say field by field what the input of the service says are that input. *)
Definition createSuggestionRequest := CreateSuggestionInput.
Definition approveSuggestionRequest := ApproveSuggestionInput.
Record rejectSuggestionRequest := mkReject { rj_ReviewNote : string }.
Definition createDictionaryItemRequest := CreateDictionaryItemInput.
Definition updateDictionaryItemRequest := UpdateDictionaryItemInput.
Definition createCanteenRequest := CreateCanteenInput.
Definition updateCanteenRequest := UpdateCanteenInput.
Definition createWindowRequest := CreateCanteenWindowInput.
Definition updateWindowRequest := UpdateCanteenWindowInput.

Section decoding.
Context `{JSONLib} `{JSONFields}.

Record PatchFields := mkPatchFields {
  pf_Name : option string; pf_Campus : option string; pf_Floor : option string;
  pf_SortOrder : option Z; pf_IsActive : option bool }.

(** The flags say which of the optional targets are given. *)
Definition decodeDictionaryPatchFields (fields : gmap string string) (name campus floor : bool)
    : option PatchFields :=
  let text wanted key := if (wanted : bool) then decode_field Unmarshal_string fields key
                         else Some None in
  n ← text name "name"%string; c ← text campus "campus"%string; f ← text floor "floor"%string;
  s ← decode_field Unmarshal_int32 fields "sort_order"%string;
  a ← decode_field Unmarshal_bool fields "is_active"%string;
  Some (mkPatchFields n c f s a).

Definition updateCanteenRequest_UnmarshalJSON (fields : option (gmap string string))
    : option updateCanteenRequest :=
  fields ← fields;
  p ← decodeDictionaryPatchFields fields true true false;
  Some (mkUpdateCanteen (is_set (fields !! "code"%string)) (pf_Name p) (pf_Campus p)
          (pf_SortOrder p) (pf_IsActive p)).

(** [floor] is decoded twice. *)
Definition updateWindowRequest_UnmarshalJSON (fields : option (gmap string string))
    : option updateWindowRequest :=
  fields ← fields;
  _ ← decode_field Unmarshal_string fields "floor"%string;
  p ← decodeDictionaryPatchFields fields true false true;
  Some (mkUpdateWindow (is_set (fields !! "canteen_id"%string)) (pf_Name p) (pf_Floor p)
          (is_set (fields !! "floor"%string)) (pf_SortOrder p) (pf_IsActive p)).
End decoding.

Record dictionaryPendingQuery := mkPendingQuery {
  dp_Kind : string; dp_Pagination : paginationQuery }.
Record dictionaryListQuery := mkListQuery {
  dq_IsActive : string; dq_Pagination : cursorPaginationQuery }.

Inductive Payload :=
| PSuggestion (v : SuggestionView)
| PSuggestions (l : SuggestionList)
| PItem (v : DictionaryItemView)
| PItems (l : DictionaryItemList)
| PCanteen (v : DictionaryCanteenView)
| PCanteens (l : DictionaryCanteenList)
| PWindow (v : DictionaryWindowView)
| PWindows (l : DictionaryWindowList)
| PDeleted (r : DictionaryDeleteResult).

Section handlers.
Context `{Env} `{Pg} `{Unicode} `{DbClock} `{Decimal} `{JSONLib} `{JSONFields}.
Context (service : DictionaryService).
Abbreviation HandlerD := (HandlerT Payload).

(** ** Suggestions *)
Definition CreateSuggestionHandler (body : option createSuggestionRequest) : HandlerD :=
  identified (fun who =>
    let* principal := lift who in
    let* request := lift (jsonBody body) in
    CreateSuggestion request (user_id principal)) "建议已提交" PSuggestion.

Definition MineHandler (query : paginationQuery) : HandlerD :=
  identified (fun who =>
    let* principal := lift who in
    let* params := lift (pagination_params query) in
    Mine (user_id principal) params) "请求成功" PSuggestions.

Definition PendingHandler (query : dictionaryPendingQuery) : HandlerD :=
  respond (let* params := lift (pagination_params (dp_Pagination query)) in
           Pending (dp_Kind query) params) "请求成功" PSuggestions.

Definition ApproveHandler (suggestion_id : string) (body : option approveSuggestionRequest)
    : HandlerD :=
  identified (fun who =>
    let* identity := lift (path_identity suggestion_id "suggestion_id" who) in
    let '(suggestionID, principal) := identity in
    let* request := lift (jsonBody body) in
    Approve suggestionID (user_id principal) request) "建议已批准" PSuggestion.

Definition RejectHandler (suggestion_id : string) (body : option rejectSuggestionRequest)
    : HandlerD :=
  identified (fun who =>
    let* identity := lift (path_identity suggestion_id "suggestion_id" who) in
    let '(suggestionID, principal) := identity in
    let* request := lift (jsonBody body) in
    Reject suggestionID (user_id principal) (rj_ReviewNote request)) "建议已驳回" PSuggestion.

(** ** Lists *)
Definition dictionary_list {V} (list : DictionaryListInput -> MT V) (query : dictionaryListQuery)
    : MT V :=
  let* params := lift (cursor_params (dq_Pagination query)) in
  let* active := lift (NotificationHandler.optionalBoolField (dq_IsActive query) "is_active") in
  list (mkListInput active params).
Definition FlavorsHandler (query : dictionaryListQuery) : HandlerD :=
  respond (dictionary_list (ListFlavors service) query) "请求成功" PItems.
Definition CuisinesHandler (query : dictionaryListQuery) : HandlerD :=
  respond (dictionary_list (ListCuisines service) query) "请求成功" PItems.
Definition CanteensHandler (query : dictionaryListQuery) : HandlerD :=
  respond (dictionary_list (ListCanteens service) query) "请求成功" PCanteens.
Definition WindowsHandler (query : dictionaryListQuery) : HandlerD :=
  respond (dictionary_list (ListWindows service) query) "请求成功" PWindows.

(** ** Maintenance *)
Definition create_handler {R V} (create : R -> MT V) (body : option R) (message : string)
    (payload : V -> Payload) : HandlerD :=
  respond (let* request := lift (jsonBody body) in create request) message payload.
Definition entry_handler {V} (raw field : string) (act : Z -> MT V) (message : string)
    (payload : V -> Payload) : HandlerD :=
  respond (let* itemID := lift (positivePathID raw field) in act itemID) message payload.
Definition update_handler {R V} (raw field : string) (body : option R) (update : Z -> R -> MT V)
    (message : string) (payload : V -> Payload) : HandlerD :=
  entry_handler raw field (fun itemID =>
    let* request := lift (jsonBody body) in update itemID request) message payload.

Definition CreateFlavorHandler (body : option createDictionaryItemRequest) : HandlerD :=
  create_handler CreateFlavor body "口味已创建" PItem.
Definition UpdateFlavorHandler (flavor_id : string) (body : option updateDictionaryItemRequest)
    : HandlerD := update_handler flavor_id "flavor_id" body UpdateFlavor "口味已更新" PItem.
Definition EnableFlavorHandler (flavor_id : string) : HandlerD :=
  entry_handler flavor_id "flavor_id" EnableFlavor "口味已启用" PItem.
Definition DeleteFlavorHandler (flavor_id : string) : HandlerD :=
  entry_handler flavor_id "flavor_id" DeleteFlavor "口味已删除" PDeleted.

Definition CreateCuisineHandler (body : option createDictionaryItemRequest) : HandlerD :=
  create_handler CreateCuisine body "菜系已创建" PItem.
Definition UpdateCuisineHandler (cuisine_id : string) (body : option updateDictionaryItemRequest)
    : HandlerD := update_handler cuisine_id "cuisine_id" body UpdateCuisine "菜系已更新" PItem.
Definition EnableCuisineHandler (cuisine_id : string) : HandlerD :=
  entry_handler cuisine_id "cuisine_id" EnableCuisine "菜系已启用" PItem.
Definition DeleteCuisineHandler (cuisine_id : string) : HandlerD :=
  entry_handler cuisine_id "cuisine_id" DeleteCuisine "菜系已删除" PDeleted.

Definition CreateCanteenHandler (body : option createCanteenRequest) : HandlerD :=
  create_handler CreateCanteen body "餐厅已创建" PCanteen.
Definition UpdateCanteenHandler (canteen_id : string) (fields : option (gmap string string))
    : HandlerD :=
  update_handler canteen_id "canteen_id" (updateCanteenRequest_UnmarshalJSON fields)
    UpdateCanteen "餐厅已更新" PCanteen.
Definition EnableCanteenHandler (canteen_id : string) : HandlerD :=
  entry_handler canteen_id "canteen_id" EnableCanteen "餐厅已启用" PCanteen.
Definition DeleteCanteenHandler (canteen_id : string) : HandlerD :=
  entry_handler canteen_id "canteen_id" DeleteCanteen "餐厅已删除" PDeleted.

Definition CreateWindowHandler (canteen_id : string) (body : option createWindowRequest)
    : HandlerD := update_handler canteen_id "canteen_id" body CreateWindow "窗口已创建" PWindow.
Definition UpdateWindowHandler (window_id : string) (fields : option (gmap string string))
    : HandlerD :=
  update_handler window_id "window_id" (updateWindowRequest_UnmarshalJSON fields)
    UpdateWindow "窗口已更新" PWindow.
Definition EnableWindowHandler (window_id : string) : HandlerD :=
  entry_handler window_id "window_id" EnableWindow "窗口已启用" PWindow.
Definition DeleteWindowHandler (window_id : string) : HandlerD :=
  entry_handler window_id "window_id" DeleteWindow "窗口已删除" PDeleted.

(** ** registerDictionary *)
Inductive Request :=
| POST_suggestions (body : option createSuggestionRequest)
| GET_mine (query : paginationQuery)
| GET_pending (query : dictionaryPendingQuery)
| POST_approve (suggestion_id : string) (body : option approveSuggestionRequest)
| POST_reject (suggestion_id : string) (body : option rejectSuggestionRequest)
| GET_flavors (query : dictionaryListQuery)
| POST_flavors (body : option createDictionaryItemRequest)
| PATCH_flavor (flavor_id : string) (body : option updateDictionaryItemRequest)
| POST_flavor_enable (flavor_id : string)
| DELETE_flavor (flavor_id : string)
| GET_cuisines (query : dictionaryListQuery)
| POST_cuisines (body : option createDictionaryItemRequest)
| PATCH_cuisine (cuisine_id : string) (body : option updateDictionaryItemRequest)
| POST_cuisine_enable (cuisine_id : string)
| DELETE_cuisine (cuisine_id : string)
| GET_canteens (query : dictionaryListQuery)
| POST_canteens (body : option createCanteenRequest)
| PATCH_canteen (canteen_id : string) (fields : option (gmap string string))
| POST_canteen_enable (canteen_id : string)
| DELETE_canteen (canteen_id : string)
| POST_canteen_windows (canteen_id : string) (body : option createWindowRequest)
| GET_windows (query : dictionaryListQuery)
| PATCH_window (window_id : string) (fields : option (gmap string string))
| POST_window_enable (window_id : string)
| DELETE_window (window_id : string).

Context `{JWT} (h : AuthService) (authorization : string).

Definition requireAuth : HandlerD -> HandlerD := authenticated h authorization.
Definition requireSuggestionReview : HandlerD -> HandlerD :=
  capable h authorization CapReviewDictionarySuggestion.
Definition requireDictionaryManage : HandlerD -> HandlerD :=
  capable h authorization CapManageDictionary.

Definition route_dictionary (r : Request) : HandlerD :=
  match r with
  | POST_suggestions body => requireAuth (CreateSuggestionHandler body)
  | GET_mine query => requireAuth (MineHandler query)
  | GET_pending query => requireSuggestionReview (PendingHandler query)
  | POST_approve id body => requireSuggestionReview (ApproveHandler id body)
  | POST_reject id body => requireSuggestionReview (RejectHandler id body)
  | GET_flavors query => requireDictionaryManage (FlavorsHandler query)
  | POST_flavors body => requireDictionaryManage (CreateFlavorHandler body)
  | PATCH_flavor id body => requireDictionaryManage (UpdateFlavorHandler id body)
  | POST_flavor_enable id => requireDictionaryManage (EnableFlavorHandler id)
  | DELETE_flavor id => requireDictionaryManage (DeleteFlavorHandler id)
  | GET_cuisines query => requireDictionaryManage (CuisinesHandler query)
  | POST_cuisines body => requireDictionaryManage (CreateCuisineHandler body)
  | PATCH_cuisine id body => requireDictionaryManage (UpdateCuisineHandler id body)
  | POST_cuisine_enable id => requireDictionaryManage (EnableCuisineHandler id)
  | DELETE_cuisine id => requireDictionaryManage (DeleteCuisineHandler id)
  | GET_canteens query => requireDictionaryManage (CanteensHandler query)
  | POST_canteens body => requireDictionaryManage (CreateCanteenHandler body)
  | PATCH_canteen id fields => requireDictionaryManage (UpdateCanteenHandler id fields)
  | POST_canteen_enable id => requireDictionaryManage (EnableCanteenHandler id)
  | DELETE_canteen id => requireDictionaryManage (DeleteCanteenHandler id)
  | POST_canteen_windows id body => requireDictionaryManage (CreateWindowHandler id body)
  | GET_windows query => requireDictionaryManage (WindowsHandler query)
  | PATCH_window id fields => requireDictionaryManage (UpdateWindowHandler id fields)
  | POST_window_enable id => requireDictionaryManage (EnableWindowHandler id)
  | DELETE_window id => requireDictionaryManage (DeleteWindowHandler id)
  end.
End handlers.
End DictionaryHandler.

(** ** handler/comment.go *)
Module CommentHandler.
Import CommentService.

(** They say field by field what the inputs of the service say. *)
Definition createCommentRequest := CreateCommentInput.
Definition updateCommentRequest := UpdateCommentInput.
Record commentListQuery := mkListQuery {
  lq_SortBy : string; lq_Pagination : cursorPaginationQuery }.

Inductive Payload :=
| PList (l : CommentList)
| PItem (v : CommentItem)
| PHistories (l : list CommentHistoryView)
| PLike (r : bool * Z)
| PNone.

Section handlers.
Context `{Env} `{Pg} `{Unicode} `{DbClock} (s : CommentService).
Abbreviation HandlerC := (HandlerT Payload).

Definition commentIdentity (comment_id : string) (who : goerr + Principal)
    : goerr + (Z * Principal) := path_identity comment_id "comment_id" who.

Definition ListHandler (post_id : string) (query : commentListQuery) : HandlerC :=
  identified (fun who =>
    let* identity := lift (path_identity post_id "post_id" who) in
    let '(postID, principal) := identity in
    let* params := lift (cursor_params (lq_Pagination query)) in
    List_ s postID (user_id principal) (lq_SortBy query) params) "请求成功" PList.

Definition RepliesHandler (comment_id : string) (query : replyPaginationQuery) : HandlerC :=
  identified (fun who =>
    let* identity := lift (commentIdentity comment_id who) in
    let '(commentID, principal) := identity in
    let* params := lift (reply_params query) in
    Replies s commentID (user_id principal) params) "请求成功" PList.

Definition CreateHandler (post_id : string) (body : option createCommentRequest) : HandlerC :=
  identified (fun who =>
    let* identity := lift (path_identity post_id "post_id" who) in
    let '(postID, principal) := identity in
    let* request := lift (jsonBody body) in
    Create s postID request (user_id principal)) "评论发布成功" PItem.

Definition UpdateHandler (comment_id : string) (body : option updateCommentRequest) : HandlerC :=
  identified (fun who =>
    let* identity := lift (commentIdentity comment_id who) in
    let '(commentID, principal) := identity in
    let* request := lift (jsonBody body) in
    Update s commentID request (user_id principal)) "更新成功" PItem.

(** The handlers that need nothing but the comment and the principal. *)
Definition comment_action {R} (act : Z -> Principal -> MT R) (message : string)
    (payload : R -> Payload) (comment_id : string) : HandlerC :=
  identified (fun who =>
    let* identity := lift (commentIdentity comment_id who) in
    let '(commentID, principal) := identity in act commentID principal) message payload.
Definition HistoriesHandler : string -> HandlerC :=
  comment_action (fun id p => Histories id (user_id p) (principal_roles p)) "请求成功" PHistories.
Definition LikeHandler : string -> HandlerC :=
  comment_action (fun id p => Like id (user_id p)) "点赞成功" PLike.
Definition UnlikeHandler : string -> HandlerC :=
  comment_action (fun id p => Unlike id (user_id p)) "取消点赞成功" PLike.
Definition DeleteHandler : string -> HandlerC :=
  comment_action (fun id p => Delete id (user_id p)) "删除成功" (fun _ => PNone).

(** registerComment *)
Inductive Request :=
| GET_comments (post_id : string) (query : commentListQuery)
| POST_comments (post_id : string) (body : option createCommentRequest)
| GET_replies (comment_id : string) (query : replyPaginationQuery)
| PUT_comment (comment_id : string) (body : option updateCommentRequest)
| GET_history (comment_id : string)
| POST_like (comment_id : string)
| DELETE_like (comment_id : string)
| DELETE_comment (comment_id : string).

Definition handle (r : Request) : HandlerC :=
  match r with
  | GET_comments id query => ListHandler id query
  | POST_comments id body => CreateHandler id body
  | GET_replies id query => RepliesHandler id query
  | PUT_comment id body => UpdateHandler id body
  | GET_history id => HistoriesHandler id
  | POST_like id => LikeHandler id
  | DELETE_like id => UnlikeHandler id
  | DELETE_comment id => DeleteHandler id
  end.
Definition route_comment `{JWT} (h : AuthService) (authorization : string) (r : Request)
    : HandlerC := authenticated h authorization (handle r).
End handlers.
End CommentHandler.

(** ** handler/user.go *)
Module UserHandler.
Import UserService.

(** A field is absent, or present with a value that may be null. *)
Definition updateUserRequest := UpdateUserInput.

Definition decode_present `{JSONLib} (fields : gmap string string) (name : string)
    : option (option (option string)) :=
  match fields !! name with
  | Some raw => v ← Unmarshal_string raw; Some (Some v)
  | None => Some None
  end.
Definition updateUserRequest_UnmarshalJSON `{JSONLib} (fields : option (gmap string string))
    : option updateUserRequest :=
  fields ← fields;
  fields ← normalizeUsernameAlias fields;
  username ← decode_present fields "username"%string;
  bio ← decode_present fields "bio"%string;
  gender ← decode_present fields "gender"%string;
  avatar ← decode_present fields "avatar_url"%string;
  Some (mkUpdateUser username bio gender avatar).

Inductive Payload :=
| PProfile (v : UserProfile)
| PNames (l : list UsernameChangeView)
| PDeleted (id : Z)
| PFollow (r : FollowActionResult)
| PFollows (l : UserFollowList)
| PPosts (l : PostViews.PostList).

Record userPostsQuery := mkPostsQuery { uq_Status : string; uq_Pagination : paginationQuery }.

Section handlers.
Context `{Env} `{Pg} `{Unicode} `{DbClock} `{JSONLib} `{URLLib} (s : UserService).
Abbreviation HandlerU := (HandlerT Payload).

Definition userRequestIdentity (user_id : string) (who : goerr + Principal)
    : goerr + (Z * Principal) := path_identity user_id "user_id" who.

Definition user_action {R} (act : Z -> Principal -> MT R) (message : string)
    (payload : R -> Payload) (id : string) : HandlerU :=
  identified (fun who =>
    let* identity := lift (userRequestIdentity id who) in
    let '(userID, principal) := identity in act userID principal) message payload.

Definition ProfileHandler : string -> HandlerU :=
  user_action (fun id p => Profile id (user_id p)) "请求成功" PProfile.
Definition UsernameHistoryHandler : string -> HandlerU :=
  user_action (fun id p => UsernameHistory id (user_id p)) "请求成功" PNames.
Definition UpdateHandler (id : string) (fields : option (gmap string string)) : HandlerU :=
  user_action (fun userID p =>
    let* request := lift (jsonBody (updateUserRequest_UnmarshalJSON fields)) in
    Update s userID (user_id p) request) "更新成功" PProfile id.
Definition DeleteHandler : string -> HandlerU :=
  user_action (fun id p => Delete id (user_id p)) "注销成功" PDeleted.
Definition followAction (follow : bool) : string -> HandlerU :=
  user_action (fun id p => if follow then Follow id (user_id p) else Unfollow id (user_id p))
    (if follow then "关注成功" else "取消关注成功") PFollow.
Definition followList (following : bool) (query : cursorPaginationQuery) : string -> HandlerU :=
  user_action (fun id p =>
    let* params := lift (cursor_params query) in
    if following then Following s id params (user_id p) else Followers s id params (user_id p))
    "请求成功" PFollows.

Definition PostsHandler (query : userPostsQuery) : string -> HandlerU :=
  user_action (fun id p =>
    let* params := lift (pagination_params (uq_Pagination query)) in
    PostViews.UserPosts id (uq_Status query) params (user_id p)) "请求成功" PPosts.
Definition FavoritesHandler (query : paginationQuery) : string -> HandlerU :=
  user_action (fun id p =>
    let* params := lift (pagination_params query) in
    PostViews.Favorites id params (user_id p)) "请求成功" PPosts.

(** registerUser *)
Inductive Request :=
| GET_user (id : string)
| GET_username_history (id : string)
| PUT_user (id : string) (fields : option (gmap string string))
| DELETE_user (id : string)
| GET_posts (id : string) (query : userPostsQuery)
| GET_favorites (id : string) (query : paginationQuery)
| POST_follow (id : string)
| DELETE_follow (id : string)
| GET_following (id : string) (query : cursorPaginationQuery)
| GET_followers (id : string) (query : cursorPaginationQuery).

Definition handle (r : Request) : HandlerU :=
  match r with
  | GET_user id => ProfileHandler id
  | GET_username_history id => UsernameHistoryHandler id
  | PUT_user id fields => UpdateHandler id fields
  | DELETE_user id => DeleteHandler id
  | GET_posts id query => PostsHandler query id
  | GET_favorites id query => FavoritesHandler query id
  | POST_follow id => followAction true id
  | DELETE_follow id => followAction false id
  | GET_following id query => followList true query id
  | GET_followers id query => followList false query id
  end.
Definition route_user `{JWT} (h : AuthService) (authorization : string) (r : Request)
    : HandlerU := authenticated h authorization (handle r).
End handlers.
End UserHandler.

(** ** handler/upload.go *)
Module UploadHandler.
Import UploadService.

Definition uploadPresignRequest := UploadPresignInput.

Inductive Payload :=
| PPresign (r : UploadPresignResult)
| PImage (v : UploadImageView)
| PComplete (r : UploadCompleteResult).

Section handlers.
Context `{Env} `{Pg} `{Unicode} `{DbClock} (s : UploadService).
Abbreviation HandlerU := (HandlerT Payload).

(** The body is read before the principal. *)
Definition PresignHandler (body : option uploadPresignRequest) : HandlerU :=
  bindJSON body (fun request =>
    with_principal (fun p => within (Presign s (user_id p) request)) "上传凭证签发成功" PPresign).

Definition upload_action {R} (act : Z -> Z -> UM R) (message : string) (payload : R -> Payload)
    (upload_id : string) : HandlerU :=
  identified (fun who =>
    let* identity := lift (path_identity upload_id "upload_id" who) in
    let '(uploadID, principal) := identity in
    within (act uploadID (user_id principal))) message payload.
Definition ImageHandler : string -> HandlerU := upload_action (Image s) "请求成功" PImage.
Definition CompleteHandler : string -> HandlerU := upload_action (Complete s) "上传完成" PComplete.

(** registerUpload *)
Inductive Request :=
| POST_presign (body : option uploadPresignRequest)
| GET_upload (upload_id : string)
| POST_complete (upload_id : string).
Definition handle (r : Request) : HandlerU :=
  match r with
  | POST_presign body => PresignHandler body
  | GET_upload id => ImageHandler id
  | POST_complete id => CompleteHandler id
  end.
Definition route_upload `{JWT} (h : AuthService) (authorization : string) (r : Request)
    : HandlerU := authenticated h authorization (handle r).
End handlers.
End UploadHandler.

(** ** handler/post.go *)
Module PostHandler.
Import PostViews.

Record postPayloadRequest := mkPayloadRequest {
  pr_Title : string;
  pr_Content : string;
  pr_Category : string;
  pr_ShareType : option string;
  pr_CanteenCode : option string;
  pr_CanteenWindowID : option Z;
  pr_Cuisine : option string;
  pr_Price : string;           (* [json.RawMessage] *)
  pr_Flavors : list string;
  pr_Tags : list string;
  pr_Images : list string;
  pr_BudgetRange : option BudgetRangeInput;
  pr_Preferences : option PreferencesInput;
}.
Record createPostRequest := mkCreatePost {
  cr_Payload : postPayloadRequest; cr_PostType : string; cr_Status : option string }.
Record updatePostRequest := mkUpdatePost {
  ur_Payload : postPayloadRequest; ur_PostType : option string; ur_Status : option string;
  ur_EditReason : option string }.
Record restorePostHistoryRequest := mkRestore { rh_EditReason : option string }.

(** The lists are comma-separated. *)
Record postFiltersQuery := mkFiltersQuery {
  fq_PostType : string; fq_ShareType : string; fq_Category : string; fq_CanteenCode : string;
  fq_Cuisine : string; fq_Flavors : string; fq_Tags : string; fq_MinPrice : string;
  fq_MaxPrice : string }.
Record listPostsQuery := mkPostsQuery {
  lq_Filters : postFiltersQuery; lq_SortBy : string; lq_Cursor : string;
  lq_Pagination : paginationQuery }.

Inductive Payload :=
| PFeed (l : PostFeedList)
| PDetail (d : PostDetail)
| PCreated (r : PostCreateResult)
| PHistories (l : list PostHistoryView)
| PLike (r : bool * Z)
| PFavorite (r : bool * Z)
| PNone.

(** [strings.Split(s, ",")] *)
Fixpoint split_from (acc s : string) : list string :=
  match s with
  | EmptyString => [acc]
  | String c s' => if bool_decide (c = ","%char) then acc :: split_from "" s'
                   else split_from (acc +:+ String c "") s'
  end.

Section requests.
Context `{Unicode} `{Decimal} `{JSONLib}.

Definition splitQueryList (raw : string) : list string :=
  if bool_decide (TrimSpace raw = ""%string) then [] else split_from "" raw.

Definition queryPrice (raw field : string) : goerr + option Z :=
  if bool_decide (raw = ""%string) then inr None
  else match Money.Parse raw with
       | inr amount => inr (Some amount)
       | inl _ => inl (EApi (InvalidField field FieldInvalidFormat (field +:+ " 格式不合法")))
       end.

(** A JSON [null] decodes to the empty string; it does not come here. *)
Definition optionalPrice (raw : string) : goerr + option Z :=
  if bool_decide (raw = ""%string) || bool_decide (TrimSpace raw = "null"%string) then inr None
  else match Unmarshal_string raw with
       | None => inl (EApi (InvalidField "price" FieldInvalidFormat "price 必须是十进制字符串"))
       | Some value =>
           match Money.Parse (default ""%string value) with
           | inr amount => inr (Some amount)
           | inl _ => inl (EApi (InvalidField "price" FieldInvalidFormat "price 格式不合法"))
           end
       end.

Definition postPayloadInput (r : postPayloadRequest) : goerr + PostPayload :=
  match optionalPrice (pr_Price r) with
  | inl err => inl err
  | inr price => inr (mkPostPayload (pr_Title r) (pr_Content r) (pr_Category r) (pr_ShareType r)
      (pr_CanteenCode r) (pr_CanteenWindowID r) (pr_Cuisine r) price (pr_Flavors r) (pr_Tags r)
      (pr_Images r) (pr_BudgetRange r) (pr_Preferences r))
  end.
Definition createInput (r : createPostRequest) : goerr + CreatePostInput :=
  match postPayloadInput (cr_Payload r) with
  | inl err => inl err
  | inr payload => inr (mkCreatePostInput payload (cr_PostType r) (cr_Status r))
  end.
Definition updateInput (r : updatePostRequest) : goerr + UpdatePostInput :=
  match postPayloadInput (ur_Payload r) with
  | inl err => inl err
  | inr payload => inr (mkUpdatePostInput payload (ur_PostType r) (ur_Status r) (ur_EditReason r))
  end.
Definition updateMessage (status : option string) : string :=
  match status with
  | None => "更新成功"
  | Some s => if bool_decide (s = PostStatusDraft) then "草稿已保存"
              else if bool_decide (s = PostStatusApproved) then "帖子已发布" else "更新成功"
  end.

Definition listPostsInput (query : postFiltersQuery) (sortBy : string) (p : paginationQuery)
    : goerr + ListPostsInput :=
  match pagination_params p with
  | inl err => inl err
  | inr params =>
  match queryPrice (fq_MinPrice query) "min_price" with
  | inl err => inl err
  | inr minPrice =>
  match queryPrice (fq_MaxPrice query) "max_price" with
  | inl err => inl err
  | inr maxPrice => inr (mkListPosts (fq_PostType query) (fq_ShareType query) (fq_Category query)
      (fq_CanteenCode query) (fq_Cuisine query) (splitQueryList (fq_Flavors query))
      (splitQueryList (fq_Tags query)) minPrice maxPrice sortBy params (mkCursorRequest "" 0))
  end end end.

Definition feedListPostsInput (query : listPostsQuery) : goerr + ListPostsInput :=
  match listPostsInput (lq_Filters query) (lq_SortBy query) (lq_Pagination query) with
  | inl err => inl err
  | inr input =>
      let effectiveSort := if bool_decide (lq_SortBy query = ""%string) then "latest"%string
                           else lq_SortBy query in
      if bool_decide (effectiveSort = "latest"%string) then
        if negb (Page (lp_Pagination input) =? DefaultPage)
        then inl (EApi (InvalidField "page" FieldConflict "latest 排序使用 cursor 分页"))
        else inr (input <| lp_Cursor :=
               mkCursorRequest (lq_Cursor query) (Limit (lp_Pagination input)) |>)
      else if negb (bool_decide (lq_Cursor query = ""%string))
      then inl (EApi (InvalidField "cursor" FieldConflict "cursor 仅适用于 latest 排序"))
      else inr input
  end.

(** [strconv.ParseInt(raw, 10, 32)], positive. *)
Definition path_revision (raw : string) : goerr + Z :=
  let invalid := EApi (InvalidField "revision" FieldInvalidFormat "revision 必须是正整数") in
  match ParseInt raw with
  | Some v => if (v <=? 0) || (2 ^ 31 <=? v) then inl invalid else inr v
  | None => inl invalid
  end.
End requests.

Section handlers.
Context `{Env} `{Pg} `{Unicode} `{DbClock} `{Decimal} `{JSONLib} `{PgLike} `{PgTrending} `{URLLib}.
Context (s : PostService) (cursor : CursorCodec).
Abbreviation HandlerP := (HandlerT Payload).

Definition postRequestIdentity (post_id : string) (who : goerr + Principal)
    : goerr + (Z * Principal) := path_identity post_id "post_id" who.

Definition ListHandler (query : listPostsQuery) : HandlerP :=
  identified (fun who =>
    let* principal := lift who in
    let* input := lift (feedListPostsInput query) in
    List_ cursor input (user_id principal)) "请求成功" PFeed.

Definition CreateHandler (body : option createPostRequest) : HandlerP :=
  bindJSON body (fun request => identified (fun who =>
    let* principal := lift who in
    let* input := lift (createInput request) in
    Create s input (user_id principal))
    (if bool_decide (cr_Status request = Some PostStatusDraft) then "草稿保存成功" else "帖子发布成功")
    PCreated).

Definition UpdateHandler (post_id : string) (body : option updatePostRequest) : HandlerP :=
  identified (fun who =>
    let* identity := lift (postRequestIdentity post_id who) in
    let '(postID, principal) := identity in
    let* request := lift (jsonBody body) in
    let* input := lift (updateInput request) in
    Update s postID input (user_id principal)) (updateMessage (body ≫= ur_Status)) PCreated.

Definition RestoreHistoryHandler (post_id revision : string)
    (body : option restorePostHistoryRequest) : HandlerP :=
  identified (fun who =>
    let* identity := lift (postRequestIdentity post_id who) in
    let '(postID, principal) := identity in
    let* revision := lift (path_revision revision) in
    let* request := lift (jsonBody body) in
    RestoreHistory s postID revision (rh_EditReason request) (user_id principal))
    "版本恢复成功" PCreated.

Definition post_action {R} (act : Z -> Principal -> MT R) (message : string)
    (payload : R -> Payload) (post_id : string) : HandlerP :=
  identified (fun who =>
    let* identity := lift (postRequestIdentity post_id who) in
    let '(postID, principal) := identity in act postID principal) message payload.
Definition GetHandler : string -> HandlerP :=
  post_action (fun id p => Get id (user_id p)) "请求成功" PDetail.
Definition DeleteHandler : string -> HandlerP :=
  post_action (fun id p => Delete s id (user_id p)) "删除成功" (fun _ => PNone).
Definition HistoriesHandler : string -> HandlerP :=
  post_action (fun id p => Histories id (user_id p) (principal_roles p)) "请求成功" PHistories.
Definition LikeHandler : string -> HandlerP :=
  post_action (fun id p => Like id (user_id p)) "点赞成功" PLike.
Definition UnlikeHandler : string -> HandlerP :=
  post_action (fun id p => Unlike id (user_id p)) "取消点赞成功" PLike.
Definition FavoriteHandler : string -> HandlerP :=
  post_action (fun id p => Favorite id (user_id p)) "收藏成功" PFavorite.
Definition UnfavoriteHandler : string -> HandlerP :=
  post_action (fun id p => Unfavorite id (user_id p)) "取消收藏成功" PFavorite.

(** registerPost *)
Inductive Request :=
| GET_posts (query : listPostsQuery)
| GET_post (post_id : string)
| POST_posts (body : option createPostRequest)
| PUT_post (post_id : string) (body : option updatePostRequest)
| DELETE_post (post_id : string)
| GET_history (post_id : string)
| POST_restore (post_id revision : string) (body : option restorePostHistoryRequest)
| POST_like (post_id : string)
| DELETE_like (post_id : string)
| POST_favorite (post_id : string)
| DELETE_favorite (post_id : string).

Definition handle (r : Request) : HandlerP :=
  match r with
  | GET_posts query => ListHandler query
  | GET_post id => GetHandler id
  | POST_posts body => CreateHandler body
  | PUT_post id body => UpdateHandler id body
  | DELETE_post id => DeleteHandler id
  | GET_history id => HistoriesHandler id
  | POST_restore id revision body => RestoreHistoryHandler id revision body
  | POST_like id => LikeHandler id
  | DELETE_like id => UnlikeHandler id
  | POST_favorite id => FavoriteHandler id
  | DELETE_favorite id => UnfavoriteHandler id
  end.
Definition route_post `{JWT} (h : AuthService) (authorization : string) (r : Request)
    : HandlerP := authenticated h authorization (handle r).
End handlers.
End PostHandler.

(** What [NewAdminService] is given.  Its operations on posts are modelled with the post
    service and use nothing of it but the image access. *)
Record AdminDeps := mkAdminDeps {
  ad_posts : PostService;
  ad_storage : Storage;
  ad_signedImageTTL : duration;
  ad_tagCursor : CursorCodec;
}.
Definition ad_imageAccess (s : AdminDeps) : ImageAccessController := ps_imageAccess (ad_posts s).
Definition NewAdminService (posts : PostService) (storage : option Storage)
    (signedImageTTL : duration) (cursorSecret : string) : AdminDeps :=
  mkAdminDeps posts
    (match storage with Some s => s | None => UnavailableImageStorage end) signedImageTTL
    (NewCursorCodec cursorSecret "admin-tags").

Module AdminHandler.
Import AdminService AdminTagService AdminViews.

(** ** Bodies and queries *)
Record adminPostReviewRequest := mkPostReview { rq_Status : string; rq_Feedback : option string }.
(** [reason] is the legacy reason. *)
Definition adminUserStatusRequest := UpdateAdminUserStatusInput.
Record adminUserRoleRequest := mkUserRole { rq_Role : string; rq_Action : string }.
Record adminManualReviewRequest := mkReview {
  rq_Verdict : string; rq_Labels : list string; rq_Score : option Z; rq_RawResponse : string }.
Record renameAdminTagRequest := mkRename { rq_Name : string }.
Record mergeAdminTagRequest := mkMerge { rq_TargetTagID : Z }.

Record adminPostsQuery := mkPostsQuery {
  pq_Status : string; pq_PostType : string; pq_Pagination : paginationQuery }.
Record adminUsersQuery := mkUsersQuery {
  us_Role : string; us_IsActive : string; us_Pagination : paginationQuery }.
Record adminCommentsQuery := mkCommentsQuery {
  cm_PostID : string; cm_Pagination : paginationQuery }.
Record moderationPendingQuery := mkPendingQuery {
  mp_Label : string; mp_Pagination : paginationQuery }.
Record adminTagsQuery := mkTagsQuery {
  tq_Name : string; tq_Moderation : string; tq_IsDeleted : string;
  tq_Pagination : cursorPaginationQuery }.
Record hotTagsQuery := mkHotQuery { hq_Limit : string }.

Inductive Payload :=
| PPosts (l : AdminPostList)
| PReview (r : AdminPostReviewResult)
| PDeleted (id : Z)
| PRestored (r : Z * Z)
| PImage (v : AdminImageView)
| PUsers (l : AdminUserList)
| PUser (v : AdminUserDetail)
| PStatus (r : AdminUserStatusResult)
| PRole (r : AdminUserRoleResult)
| PComments (l : AdminCommentList)
| PTags (l : AdminTagList)
| PTag (v : AdminTagView)
| PMerged (r : AdminTagMergeResult)
| PHotTags (l : list AdminTagRepository.HotTagRecord)
| PPending (l : AdminModerationList)
| PManual (r : SingleReviewService.AdminReviewResult).

Section handlers.
Context `{Env} `{Pg} `{Unicode} `{DbClock} `{Decimal} `{PgLike}.
Context (s : AdminDeps).
Abbreviation HandlerA := (HandlerT Payload).

Definition adminIdentity (raw field : string) (who : goerr + Principal)
    : goerr + (Z * Principal) := path_identity raw field who.

Definition admin_action {R} (raw field : string) (act : Z -> Principal -> MT R) (message : string)
    (payload : R -> Payload) : HandlerA :=
  identified (fun who =>
    let* identity := lift (adminIdentity raw field who) in
    let '(id, principal) := identity in act id principal) message payload.
Definition admin_list {R} (query : paginationQuery) (list : Params -> MT R)
    (payload : R -> Payload) : HandlerA :=
  respond (let* params := lift (pagination_params query) in list params) "请求成功" payload.

(** ** Posts *)
Definition PendingPostsHandler (query : paginationQuery) : HandlerA :=
  admin_list query PendingPosts PPosts.
Definition ReviewPostHandler (post_id : string) (body : option adminPostReviewRequest) : HandlerA :=
  admin_action post_id "post_id" (fun postID p =>
    let* request := lift (jsonBody body) in
    AdminReviewPost (ad_posts s) postID (user_id p) (rq_Status request) (rq_Feedback request))
    "审核完成" PReview.
Definition PostsHandler (query : adminPostsQuery) : HandlerA :=
  admin_list (pq_Pagination query) (Posts (pq_Status query) (pq_PostType query)) PPosts.
Definition DeletePostHandler (post_id : string) : HandlerA :=
  admin_action post_id "post_id" (fun postID p =>
    AdminDeletePost (ad_posts s) postID (user_id p)) "删除成功" PDeleted.
Definition RestorePostHandler (post_id : string) : HandlerA :=
  admin_action post_id "post_id" (fun postID p =>
    AdminRestorePost (ad_posts s) postID (user_id p)) "恢复成功" PRestored.
Definition ImageHandler (image_asset_id : string) : HandlerA :=
  admin_action image_asset_id "image_asset_id" (fun id _ =>
    Image (ad_storage s) (ad_signedImageTTL s) id) "请求成功" PImage.

(** ** Users *)
(** [optionalBool] speaks of [is_read]. *)
Definition UsersHandler (query : adminUsersQuery) : HandlerA :=
  admin_list (us_Pagination query) (fun params =>
    let* active := lift (NotificationHandler.optionalBool (us_IsActive query)) in
    Users (us_Role query) active params) PUsers.
Definition UserHandler (id : string) : HandlerA :=
  admin_action id "user_id" (fun userID _ =>
    User_ (ad_storage s) (ad_signedImageTTL s) userID) "请求成功" PUser.
Definition UserPostsHandler (id : string) (query : adminPostsQuery) : HandlerA :=
  admin_action id "user_id" (fun userID _ =>
    let* params := lift (pagination_params (pq_Pagination query)) in
    UserPosts userID (pq_Status query) (pq_PostType query) params) "请求成功" PPosts.
Definition UpdateUserStatusHandler (id : string) (body : option adminUserStatusRequest)
    : HandlerA :=
  admin_action id "user_id" (fun userID p =>
    let* request := lift (jsonBody body) in
    UpdateUserStatus userID (user_id p) request) "用户状态更新成功" PStatus.
Definition UpdateUserRoleHandler (id : string) (body : option adminUserRoleRequest) : HandlerA :=
  admin_action id "user_id" (fun userID p =>
    let* request := lift (jsonBody body) in
    UpdateUserRole userID (user_id p) (rq_Role request) (rq_Action request)) "权限更新成功" PRole.
Definition AdminsHandler (query : paginationQuery) : HandlerA := admin_list query Admins PUsers.
Definition SuperAdminsHandler (query : paginationQuery) : HandlerA :=
  admin_list query SuperAdmins PUsers.

(** ** Comments *)
Definition comment_filter (raw : string) : goerr + option Z :=
  if bool_decide (raw = ""%string) then inr None
  else match positivePathID raw "post_id" with inl err => inl err | inr id => inr (Some id) end.
Definition CommentsHandler (query : adminCommentsQuery) : HandlerA :=
  admin_list (cm_Pagination query) (fun params =>
    let* postID := lift (comment_filter (cm_PostID query)) in Comments postID params) PComments.
Definition DeleteCommentHandler (comment_id : string) : HandlerA :=
  admin_action comment_id "comment_id" (fun id p =>
    CommentService.AdminDeleteComment id (user_id p)) "删除成功" PDeleted.
Definition RestoreCommentHandler (comment_id : string) : HandlerA :=
  admin_action comment_id "comment_id" (fun id p =>
    CommentService.AdminRestoreComment id (user_id p)) "恢复成功" PRestored.

(** ** Tags *)
Definition TagsHandler (query : adminTagsQuery) : HandlerA :=
  respond (
    let* params := lift (cursor_params (tq_Pagination query)) in
    let* isDeleted := lift (NotificationHandler.optionalBoolField (tq_IsDeleted query) "is_deleted") in
    Tags (ad_tagCursor s) (mkTagListInput (tq_Name query) (tq_Moderation query) isDeleted params))
    "请求成功" PTags.
Definition RenameTagHandler (tag_id : string) (body : option renameAdminTagRequest) : HandlerA :=
  admin_action tag_id "tag_id" (fun tagID p =>
    let* request := lift (jsonBody body) in
    RenameTag tagID (user_id p) (rq_Name request)) "标签已重命名" PTag.
Definition MergeTagHandler (tag_id : string) (body : option mergeAdminTagRequest) : HandlerA :=
  admin_action tag_id "tag_id" (fun tagID p =>
    let* request := lift (jsonBody body) in
    MergeTag tagID (user_id p) (rq_TargetTagID request)) "标签已合并" PMerged.
Definition DeleteTagHandler (tag_id : string) : HandlerA :=
  admin_action tag_id "tag_id" (fun tagID _ => DeleteTag tagID) "标签已下架" PTag.
Definition RestoreTagHandler (tag_id : string) : HandlerA :=
  admin_action tag_id "tag_id" (fun tagID _ => RestoreTag tagID) "标签已恢复" PTag.
Definition HotTagsHandler (query : hotTagsQuery) : HandlerA :=
  respond (
    let rawLimit := if bool_decide (hq_Limit query = ""%string) then "10"%string
                    else hq_Limit query in
    let* request := lift (ParseCursorRequest "" rawLimit) in
    HotTags (cr_Limit request)) "请求成功" PHotTags.

(** ** Reviews *)
Definition PendingModerationHandler (query : moderationPendingQuery) : HandlerA :=
  admin_list (mp_Pagination query) (fun params =>
    PendingModeration (ad_storage s) (ad_signedImageTTL s) (mp_Label query) params) PPending.
Definition ManualReviewHandler (moderation_record_id : string)
    (body : option adminManualReviewRequest) : HandlerA :=
  admin_action moderation_record_id "moderation_record_id" (fun recordID p =>
    let* request := lift (jsonBody body) in
    SingleReviewService.AdminManualReview (ad_imageAccess s)
      (SingleReviewService.mkManualReview recordID (user_id p) (rq_Verdict request)
         (rq_Labels request) (rq_Score request) (rq_RawResponse request))) "复核完成" PManual.

(** ** registerAdmin *)
Inductive Request :=
| GET_posts_pending (query : paginationQuery)
| PUT_post_review (post_id : string) (body : option adminPostReviewRequest)
| GET_posts (query : adminPostsQuery)
| DELETE_post (post_id : string)
| PUT_post_restore (post_id : string)
| GET_image (image_asset_id : string)
| GET_users (query : adminUsersQuery)
| GET_user (id : string)
| GET_user_posts (id : string) (query : adminPostsQuery)
| PUT_user_status (id : string) (body : option adminUserStatusRequest)
| PUT_user_role (id : string) (body : option adminUserRoleRequest)
| GET_admins (query : paginationQuery)
| GET_super_admins (query : paginationQuery)
| GET_comments (query : adminCommentsQuery)
| DELETE_comment (comment_id : string)
| PUT_comment_restore (comment_id : string)
| GET_tags (query : adminTagsQuery)
| GET_tags_hot (query : hotTagsQuery)
| PATCH_tag (tag_id : string) (body : option renameAdminTagRequest)
| POST_tag_merge (tag_id : string) (body : option mergeAdminTagRequest)
| DELETE_tag (tag_id : string)
| POST_tag_restore (tag_id : string)
| GET_moderation_pending (query : moderationPendingQuery)
| PUT_moderation_review (moderation_record_id : string) (body : option adminManualReviewRequest).

Context `{JWT} (h : AuthService) (authorization : string).

Definition requireReviewContent : HandlerA -> HandlerA := capable h authorization CapReviewContent.
Definition requireManageContent : HandlerA -> HandlerA := capable h authorization CapManageContent.
Definition requireViewUserEvidence : HandlerA -> HandlerA :=
  capable h authorization CapViewUserEvidence.
Definition requireBanUser : HandlerA -> HandlerA := capable h authorization CapBanUser.
Definition requireListUsers : HandlerA -> HandlerA := capable h authorization CapListUsers.
Definition requireManageUserRoles : HandlerA -> HandlerA :=
  capable h authorization CapManageUserRoles.
Definition requireListAdmins : HandlerA -> HandlerA := capable h authorization CapListAdmins.

Definition route_admin (r : Request) : HandlerA :=
  match r with
  | GET_posts_pending query => requireReviewContent (PendingPostsHandler query)
  | PUT_post_review id body => requireReviewContent (ReviewPostHandler id body)
  | GET_posts query => requireManageContent (PostsHandler query)
  | DELETE_post id => requireManageContent (DeletePostHandler id)
  | PUT_post_restore id => requireManageContent (RestorePostHandler id)
  | GET_image id => requireReviewContent (ImageHandler id)
  | GET_users query => requireListUsers (UsersHandler query)
  | GET_user id => requireViewUserEvidence (UserHandler id)
  | GET_user_posts id query => requireViewUserEvidence (UserPostsHandler id query)
  | PUT_user_status id body => requireBanUser (UpdateUserStatusHandler id body)
  | PUT_user_role id body => requireManageUserRoles (UpdateUserRoleHandler id body)
  | GET_admins query => requireListAdmins (AdminsHandler query)
  | GET_super_admins query => requireListAdmins (SuperAdminsHandler query)
  | GET_comments query => requireManageContent (CommentsHandler query)
  | DELETE_comment id => requireManageContent (DeleteCommentHandler id)
  | PUT_comment_restore id => requireManageContent (RestoreCommentHandler id)
  | GET_tags query => requireManageContent (TagsHandler query)
  | GET_tags_hot query => requireManageContent (HotTagsHandler query)
  | PATCH_tag id body => requireManageContent (RenameTagHandler id body)
  | POST_tag_merge id body => requireManageContent (MergeTagHandler id body)
  | DELETE_tag id => requireReviewContent (DeleteTagHandler id)
  | POST_tag_restore id => requireReviewContent (RestoreTagHandler id)
  | GET_moderation_pending query => requireReviewContent (PendingModerationHandler query)
  | PUT_moderation_review id body => requireReviewContent (ManualReviewHandler id body)
  end.
End handlers.
End AdminHandler.

Module Router.

(** The services the domains are registered with. *)
Record Deps := mkDeps {
  dp_auth : AuthService;
  dp_users : UserService.UserService;
  dp_posts : PostService;
  dp_postCursor : CursorCodec;
  dp_comments : CommentService.CommentService;
  dp_notificationCursor : CursorCodec;
  dp_uploads : UploadService.UploadService;
  dp_dictionary : DictionaryService.DictionaryService;
  dp_admin : AdminDeps;
}.

(** A request to one of the domains; most need only its [Authorization] header beside
    the path and the body. *)
Inductive Request :=
| ToAuth (info : RequestInfo) (r : AuthRequest)
| ToUser (authorization : string) (r : UserHandler.Request)
| ToPost (authorization : string) (r : PostHandler.Request)
| ToComment (authorization : string) (r : CommentHandler.Request)
| ToNotification (authorization : string) (r : NotificationHandler.NotificationRequest)
| ToUpload (authorization : string) (r : UploadHandler.Request)
| ToDictionary (authorization : string) (r : DictionaryHandler.Request)
| ToAdmin (authorization : string) (r : AdminHandler.Request).

Inductive Response :=
| FromAuth (c : ReqCtx Principal AuthHandler.Payload)
| FromUser (c : ReqCtx Principal UserHandler.Payload)
| FromPost (c : ReqCtx Principal PostHandler.Payload)
| FromComment (c : ReqCtx Principal CommentHandler.Payload)
| FromNotification (c : ReqCtx Principal NotificationHandler.Payload)
| FromUpload (c : ReqCtx Principal UploadHandler.Payload)
| FromDictionary (c : ReqCtx Principal DictionaryHandler.Payload)
| FromAdmin (c : ReqCtx Principal AdminHandler.Payload).

Section router.
Context `{Env} `{Pg} `{Unicode} `{DbClock} `{Decimal} `{Mail} `{JWT} `{Bcrypt} `{JSONLib}
  `{JSONFields} `{PgLike} `{PgTrending} `{URLLib}.
Context (d : Deps).
Context {X : Type} (interp_after : AfterOp -> World DB X -> World DB X * option string).
Abbreviation WorldD := (World DB X).

(** One domain's route in the pipeline. *)
Definition mounted {T} (random : option string) (h : HandlerT T)
    (response : ReqCtx Principal T -> Response) (w : WorldD) : Response * WorldD :=
  let '(c, w') := serve interp_before interp_after random h fresh_request w in (response c, w').

Definition Register (random : option string) (r : Request) : WorldD -> Response * WorldD :=
  match r with
  | ToAuth info r => mounted random (route (dp_auth d) info r) FromAuth
  | ToUser a r => mounted random (UserHandler.route_user (dp_users d) (dp_auth d) a r) FromUser
  | ToPost a r =>
      mounted random (PostHandler.route_post (dp_posts d) (dp_postCursor d) (dp_auth d) a r) FromPost
  | ToComment a r =>
      mounted random (CommentHandler.route_comment (dp_comments d) (dp_auth d) a r) FromComment
  | ToNotification a r =>
      mounted random
        (NotificationHandler.route_notification (dp_auth d) (dp_notificationCursor d) a r)
        FromNotification
  | ToUpload a r =>
      mounted random (UploadHandler.route_upload (dp_uploads d) (dp_auth d) a r) FromUpload
  | ToDictionary a r =>
      mounted random (DictionaryHandler.route_dictionary (dp_dictionary d) (dp_auth d) a r)
        FromDictionary
  | ToAdmin a r =>
      mounted random (AdminHandler.route_admin (dp_admin d) (dp_auth d) a r) FromAdmin
  end.

(** Anybody may send anything, any number of times. *)
Inductive api_step : WorldD -> WorldD -> Prop :=
| api_request random r w : api_step w (snd (Register random r w)).
End router.
End Router.
