(* ===== verification/ApiProps.v ===== *)
(** * The whole API: who may change bans and roles, and what reading leaves alone

    [Handles D hd]: whatever the request, the tables before and after the handler are
    related by [D].  The reading operations keep every preorder, the writing ones a
    [Bystander]; so a request, to whatever domain, keeps a [Bystander] that the dictionaries'
    writes keep, unless it changes a ban or a role ([register_keeps]).  Only a super
    administrator's request changes who holds which role ([office_authority]); where there is
    no super administrator roles stay as they are for ever ([roles_frozen]); a [GET] changes
    nothing but the last use of a session ([safe_methods]). *)

From S2P Require Import Prelude.
From S2P Require Import GoText.
From S2P Require Import Apierr.
From S2P Require Import Effects.
From S2P Require Import Logic.
From S2P Require Import Authz.
From S2P Require Import Middleware.
From S2P Require Import Model.
From S2P Require Import Validation.
From S2P Require Import Digest.
From S2P Require Import Pagination.
From S2P Require Import AuthRepo.
From S2P Require Import AuthService.
From S2P Require Import AuthHandler.
From S2P Require Import AuthTables.
From S2P Require Import AuthCodes.
From S2P Require Import AuthTokens.
From S2P Require Import Notifications.
From S2P Require Import Money.
From S2P Require Import PostRepo.
From S2P Require Import CommentRepo.
From S2P Require Import UserRepo.
From S2P Require Import Moderation.
From S2P Require Import UserService.
From S2P Require Import SingleReview.
From S2P Require Import PostService.
From S2P Require Import CommentService.
From S2P Require Import PostOps.
From S2P Require Import CommentOps.
From S2P Require Import UserOps.
From S2P Require Import ReviewOps.
From S2P Require Import PostGate.
From S2P Require Import Bystanders.
From S2P Require Import DictionaryRepo.
From S2P Require Import DictionaryService.
From S2P Require Import DictionaryWrites.
From S2P Require Import Upload.
From S2P Require Import UploadProps.
From S2P Require Import Administration.
From S2P Require Import AdminUsersProps.
From S2P Require Import PostReads.
From S2P Require Import AdminReads.
From S2P Require Import Endpoints.

Open Scope Z_scope.

(** ** Handlers *)
(** [InvH (D db)]: from tables that [D] relates to [db], such tables. *)
Definition Handles (D : relation DB) {T} (hd : HandlerT T) : Prop :=
  forall db, InvH (D db) hd.

Section handles.
Context `{Env} (D : relation DB) `{!PreOrder D}.

Lemma keeps_inv_from {R} (m : MT R) db : Keeps D m -> Inv (D db) m any.
Proof. intros Hm tx r tx' E Hp. split; [|done]. etrans; [exact Hp|by eapply Hm]. Qed.

Lemma handles_respond {T R} (m : MT R) message (payload : R -> T) :
  Keeps D m -> Handles D (respond m message payload).
Proof. intros Hm db. by apply inv_respond, keeps_inv_from. Qed.
Lemma handles_identified {T R} (m : goerr + Principal -> MT R) message (payload : R -> T) :
  (forall who, Keeps D (m who)) -> Handles D (identified m message payload).
Proof. intros Hm db c. exact (inv_respond _ _ _ _ (keeps_inv_from _ db (Hm _)) c). Qed.
Lemma handles_with_principal {T R} (m : Principal -> MT R) message (payload : R -> T) :
  (forall p, Keeps D (m p)) -> Handles D (with_principal m message payload).
Proof. intros Hm db. apply inv_with_principal. intros p. by apply keeps_inv_from. Qed.
Lemma handles_bindJSON {T R} (body : option R) (k : R -> HandlerT T) :
  (forall r, Handles D (k r)) -> Handles D (bindJSON body k).
Proof. intros Hk db. apply inv_bindJSON. intros r. apply Hk. Qed.

Section guards.
Context `{Pg} `{JWT} (h : AuthService) (authorization : string).
Context (Hauth : forall db token, Inv (D db) (Authenticate h token) any).

Lemma handles_authenticated {T} (next : HandlerT T) :
  Handles D next -> Handles D (authenticated h authorization next).
Proof. intros Hn db. apply inv_RequireAuth; [apply Hauth|apply Hn]. Qed.
Lemma handles_capable {T} capability (next : HandlerT T) :
  Handles D next -> Handles D (capable h authorization capability next).
Proof. intros Hn. apply handles_authenticated. intros db. by apply inv_RequireCapability. Qed.
End guards.

(** A request keeps what its handler and the touches of sessions keep. *)
Lemma handles_serve {X T} (ia : AfterOp -> World DB X -> World DB X * option string) random
    (hd : HandlerT T) c w c' w' :
  (forall op, Keeps D (interp_before op)) ->
  (forall op w w' p, ia op w = (w', p) -> w_db w' = w_db w) -> Handles D hd ->
  serve interp_before ia random hd c w = (c', w') -> D (w_db w) (w_db w').
Proof.
  intros Hb Hia Hh E. eapply (inv_serve (D (w_db w))); [|exact Hia|apply Hh|exact E|done].
  intros op. by apply keeps_inv_from.
Qed.
End handles.

Create HintDb handles.
#[export] Hint Resolve handles_respond handles_identified handles_with_principal handles_bindJSON
  : handles.

(** ** Reading *)
(** [walk_keeps] opens the definitions [solve_keeps] stops at; a statement that may write
    is left. *)
Ltac head_of m := lazymatch m with ?f _ => head_of f | _ => m end.
Ltac walk_keeps :=
  solve_keeps;
  first
    [ progress cbv beta zeta; walk_keeps
    | lazymatch goal with
      | |- Keeps _ (stmt _) => idtac
      | |- Keeps _ ?m => let f := head_of m in unfold f; walk_keeps
      end
    | idtac ].

Section reads.
Context `{Env} `{Pg} `{Unicode} `{DbClock} `{Decimal} `{PgLike} `{PgTrending} `{URLLib}.
Context (D : relation DB) `{!PreOrder D}.

Lemma reads_posts cursor :
  (forall input user, Keeps D (PostViews.List_ cursor input user)) /\
  (forall id user roles, Keeps D (PostViews.Histories id user roles)).
Proof. split_and!; walk_keeps. Qed.
Lemma reads_profile_posts :
  (forall user status params viewer, Keeps D (PostViews.UserPosts user status params viewer)) /\
  (forall user params viewer, Keeps D (PostViews.Favorites user params viewer)).
Proof. split_and!; walk_keeps. Qed.

Lemma reads_comments s :
  (forall post user sort params, Keeps D (CommentService.List_ s post user sort params)) /\
  (forall id user params, Keeps D (CommentService.Replies s id user params)) /\
  (forall id user roles, Keeps D (CommentService.Histories id user roles)).
Proof. split_and!; walk_keeps. Qed.

Lemma reads_users s :
  (forall id viewer, Keeps D (UserService.Profile id viewer)) /\
  (forall id viewer, Keeps D (UserService.UsernameHistory id viewer)) /\
  (forall id params viewer, Keeps D (UserService.Following s id params viewer)) /\
  (forall id params viewer, Keeps D (UserService.Followers s id params viewer)).
Proof. split_and!; walk_keeps. Qed.

Lemma reads_notifications codec :
  (forall user input, Keeps D (NotificationService.List_ codec user input)) /\
  (forall user, Keeps D (NotificationService.UnreadCount user)).
Proof. split_and!; walk_keeps. Qed.

Lemma reads_dictionary s :
  (forall user params, Keeps D (DictionaryService.Mine user params)) /\
  (forall kind params, Keeps D (DictionaryService.Pending kind params)) /\
  (forall input, Keeps D (DictionaryService.ListFlavors s input)) /\
  (forall input, Keeps D (DictionaryService.ListCuisines s input)) /\
  (forall input, Keeps D (DictionaryService.ListCanteens s input)) /\
  (forall input, Keeps D (DictionaryService.ListWindows s input)).
Proof. split_and!; walk_keeps. Qed.
Lemma reads_presign storage ttl key : Keeps D (AdminViews.presignImage storage ttl key).
Proof.
  apply (keeps_same _). intros tx r tx'. unfold AdminViews.presignImage.
  case_match; by intros [= _ <-].
Qed.
#[local] Hint Resolve reads_presign : keeps.

Lemma reads_queue storage ttl :
  (forall rows bundles, Keeps D (AdminViews.add_bundle_rows storage ttl bundles rows)) /\
  (forall bundles rows, Keeps D (AdminViews.moderation_views storage ttl bundles rows)) /\
  (forall label params, Keeps D (AdminReadRepository.FindPendingModerationPage label params)).
Proof.
  split_and!.
  - induction rows; intros; cbn [AdminViews.add_bundle_rows]; walk_keeps.
  - induction rows; cbn [AdminViews.moderation_views]; walk_keeps.
  - intros. unfold AdminReadRepository.FindPendingModerationPage. solve_keeps.
    apply (keeps_stmt _). intros db r db'. case_match; [done|]. by intros [= _ <-].
Qed.

Lemma reads_admin storage ttl cursor :
  (forall params, Keeps D (AdminViews.PendingPosts params)) /\
  (forall status type params, Keeps D (AdminViews.Posts status type params)) /\
  (forall post params, Keeps D (AdminViews.Comments post params)) /\
  (forall role active params, Keeps D (AdminViews.Users role active params)) /\
  (forall params, Keeps D (AdminViews.Admins params)) /\
  (forall params, Keeps D (AdminViews.SuperAdmins params)) /\
  (forall id, Keeps D (AdminViews.User_ storage ttl id)) /\
  (forall id, Keeps D (AdminViews.Image storage ttl id)) /\
  (forall id status type params, Keeps D (AdminViews.UserPosts id status type params)) /\
  (forall label params, Keeps D (AdminViews.PendingModeration storage ttl label params)) /\
  (forall input, Keeps D (AdminTagService.Tags cursor input)) /\
  (forall limit, Keeps D (AdminTagService.HotTags limit)).
Proof. destruct (reads_queue storage ttl) as (? & ? & ?). split_and!; walk_keeps. Qed.
End reads.

(** *** Transactions that call out *)
Definition Anything (_ : UploadCall) : Prop := True.

Section calls.
Context `{Env} `{Pg} `{DbClock} (D : relation DB) `{!PreOrder D}.

Lemma does_lift {R} (r : goerr + R) : Does D Anything (lift r).
Proof. apply (does_quiet _). by intros u r' u' [= _ <-]. Qed.
Lemma does_api_error {R} e : Does D Anything (api_error (R := R) e).
Proof. apply (does_throw _). Qed.

Lemma keeps_within {R} (m : UM R) : Does D Anything m -> Keeps D (within m).
Proof.
  intros Hm tx r tx'. unfold within. destruct (m _) as [x u] eqn:E. intros [= _ <-].
  by apply Hm in E as [Hd _].
Qed.
End calls.

(** The walk of [walk_keeps] through them. *)
Ltac walk_does :=
  repeat first
    [ progress intros
    | apply (does_lift _) | apply (does_api_error _) | apply (does_throw _) | apply (does_mret _)
    | apply (does_ask _) | apply (does_tell _); exact I
    | apply (does_sql _); walk_keeps | apply (does_bind _)
    | match goal with |- Does _ _ (match ?x with _ => _ end) => destruct x end
    | progress cbv beta zeta ].

Lemma reads_upload `{Env} `{Pg} D `{!PreOrder D} s id user :
  Does D Anything (UploadService.Image s id user).
Proof. unfold UploadService.Image. walk_does. Qed.

(** ** Writing beside the view of a [Bystander] *)
Section writes.
Context `{Env} `{Pg} `{Unicode} `{DbClock} `{Decimal} `{URLLib}.
Context (D : relation DB) `{!Bystander D}.

Lemma quiet_Get id user : Keeps D (PostViews.Get id user).
Proof.
  assert (forall id, Keeps D (PostRepository.IncrementView id))
    by (intros; exact (quiet_found_posts D _ _)).
  walk_keeps.
Qed.

Lemma quiet_notifications :
  (forall id user, Keeps D (NotificationService.MarkRead id user)) /\
  (forall user, Keeps D (NotificationService.MarkAllRead user)).
Proof.
  split; walk_keeps. all: apply (keeps_stmt _); intros db n db'; case_match; intros [= _ <-].
  all: by apply by_quiet.
Qed.

Lemma quiet_versions :
  (forall ps, Keeps D (AdminTagService.next_revisions ps)) /\
  (forall affected actor now reason,
     Keeps D (AdminTagService.appendTagChangeVersions affected actor now reason)).
Proof.
  pose proof (quiet_posts D DiscardAccess).
  assert (forall id f, Keeps D (PostRepository.UpdateContent id f))
    by (intros; exact (quiet_found_posts D _ _)).
  split.
  - induction ps; cbn [AdminTagService.next_revisions]; walk_keeps.
  - induction affected; intros; cbn [AdminTagService.appendTagChangeVersions]; walk_keeps.
Qed.

Lemma quiet_tag_statements :
  (forall tag name now, Keeps D (AdminTagRepository.RenameTag tag name now)) /\
  (forall source target now, Keeps D (AdminTagRepository.MergeTagRelations source target now)) /\
  (forall tag at_ now, Keeps D (AdminTagRepository.SetTagDeletedAt tag at_ now)).
Proof.
  split_and!; walk_keeps. all: apply (keeps_stmt _); intros db r db' E; apply by_quiet.
  all: unfold AdminTagRepository.rename_tag, AdminTagRepository.set_deleted in E;
    repeat case_match; by simplify_eq.
Qed.

Lemma quiet_tags :
  (forall tag actor name, Keeps D (AdminTagService.RenameTag tag actor name)) /\
  (forall source actor target, Keeps D (AdminTagService.MergeTag source actor target)) /\
  (forall tag, Keeps D (AdminTagService.DeleteTag tag)) /\
  (forall tag, Keeps D (AdminTagService.RestoreTag tag)).
Proof.
  destruct quiet_versions, quiet_tag_statements as (? & ? & ?). split_and!; walk_keeps.
Qed.
(** *** Uploads *)
Context (s : UploadService.UploadService) `{!QuietAccess (UploadService.us_access s)}.

Lemma quiet_upload_statements :
  (forall a, Keeps D (UploadRepository.Create a)) /\
  (forall id url size, Keeps D (UploadRepository.MarkComplete id url size)) /\
  (forall asset url answer, Keeps D (UploadService.submitted s asset url answer)).
Proof.
  pose proof (quiet_posts D (UploadService.us_access s)).
  pose proof (proj1 (proj2 (ops_decisions (UploadService.us_access s) D))).
  split_and!; walk_keeps.
  all: apply (keeps_stmt _); intros db r db' E; apply by_quiet.
  all: unfold UploadRepository.insert_asset, ImageRetry.ImageModerationRetryRepository.enqueue in E;
    repeat case_match; by simplify_eq.
Qed.

Lemma quiet_uploads :
  (forall user input, Does D Anything (UploadService.Presign s user input)) /\
  (forall id user, Does D Anything (UploadService.Image s id user)) /\
  (forall id user, Does D Anything (UploadService.Complete s id user)).
Proof.
  destruct quiet_upload_statements as (? & ? & ?).
  unfold UploadService.Presign, UploadService.Image, UploadService.Complete,
    UploadService.validateStoredObject, UploadService.delete_mismatch.
  split_and!; walk_does.
Qed.
End writes.

Import Router.

(** What contains a [Bystander] is one. *)
Lemma bystander_weaken `{Env} `{Pg} (D D' : relation DB) `{!PreOrder D'} :
  Bystander D -> (forall db db', D db db' -> D' db db') -> Bystander D'.
Proof.
  intros HD Hd. split; [apply _|intros..].
  - by apply Hd, by_quiet.
  - eapply Hd. by eapply by_insert_user.
  - eapply Hd. by eapply by_update_user.
  - intros tx r tx' E. eapply Hd. by eapply by_claim.
  - by apply Hd, by_insert_post.
Qed.

(** ** The domains *)
Section domains.
Context `{Env} `{Pg} `{Unicode} `{DbClock} `{Decimal} `{JSONLib} `{JSONFields} `{PgLike}
  `{PgTrending} `{URLLib}.
Context (D : relation DB) `{!Bystander D}.

Lemma handles_identity {T R} raw field (act : Z -> Principal -> MT R) message (payload : R -> T) :
  (forall id p, Keeps D (act id p)) ->
  Handles D (identified (fun who =>
    let* identity := lift (path_identity raw field who) in
    let '(id, principal) := identity in act id principal) message payload).
Proof. intros Ha. apply (handles_identified _). intros who. walk_keeps. Qed.

Lemma handles_user s r : Handles D (UserHandler.handle s r).
Proof.
  pose proof (keeps_UpdateUser s D). pose proof (keeps_DeleteUser D).
  pose proof (keeps_Follow D). pose proof (keeps_Unfollow D).
  pose proof (reads_users D s) as (? & ? & ? & ?).
  pose proof (reads_profile_posts D) as (? & ?).
  destruct r; cbn [UserHandler.handle];
    unfold UserHandler.ProfileHandler, UserHandler.UsernameHistoryHandler,
      UserHandler.UpdateHandler, UserHandler.DeleteHandler, UserHandler.PostsHandler,
      UserHandler.FavoritesHandler, UserHandler.followAction, UserHandler.followList;
    apply handles_identity; intros ? ?; solve_keeps.
Qed.

Lemma handles_post s cursor `{!QuietAccess (ps_imageAccess s)} r :
  Handles D (PostHandler.handle s cursor r).
Proof.
  pose proof (ops_writes s D) as (? & ? & ? & ?).
  pose proof (fun id user => proj1 (ops_interactions s D id user)).
  pose proof (fun id user => proj1 (proj2 (ops_interactions s D id user))).
  pose proof (fun id user => proj1 (proj2 (proj2 (ops_interactions s D id user)))).
  pose proof (fun id user => proj2 (proj2 (proj2 (ops_interactions s D id user)))).
  pose proof (reads_posts D cursor) as (? & ?). pose proof (quiet_Get D).
  destruct r; cbn [PostHandler.handle];
    unfold PostHandler.ListHandler, PostHandler.CreateHandler, PostHandler.UpdateHandler,
      PostHandler.RestoreHistoryHandler, PostHandler.GetHandler, PostHandler.DeleteHandler,
      PostHandler.HistoriesHandler, PostHandler.LikeHandler, PostHandler.UnlikeHandler,
      PostHandler.FavoriteHandler, PostHandler.UnfavoriteHandler;
    repeat first [apply handles_identity | apply (handles_identified _)
                 | apply (handles_bindJSON _); intros]; intros; walk_keeps.
Qed.

Lemma handles_comment s r : Handles D (CommentHandler.handle s r).
Proof.
  pose proof (keeps_Update s D). pose proof (keeps_Delete D). pose proof (keeps_Like D).
  pose proof (keeps_Unlike D). pose proof (quiet_CreateComment D s).
  pose proof (reads_comments D s) as (? & ? & ?).
  destruct r; cbn [CommentHandler.handle];
    unfold CommentHandler.ListHandler, CommentHandler.RepliesHandler,
      CommentHandler.CreateHandler, CommentHandler.UpdateHandler, CommentHandler.HistoriesHandler,
      CommentHandler.LikeHandler, CommentHandler.UnlikeHandler, CommentHandler.DeleteHandler;
    apply handles_identity; intros ? ?; solve_keeps.
Qed.

Lemma handles_upload s `{!QuietAccess (UploadService.us_access s)} r :
  Handles D (UploadHandler.handle s r).
Proof.
  pose proof (quiet_uploads D s) as (? & ? & ?).
  destruct r; cbn [UploadHandler.handle].
  - apply (handles_bindJSON _). intros. apply (handles_with_principal _). intros.
    by apply keeps_within.
  - apply handles_identity. intros. by apply keeps_within.
  - apply handles_identity. intros. by apply keeps_within.
Qed.

Lemma handles_notification codec `{JWT} (h : AuthService) authorization r :
  (forall db token, Inv (D db) (Authenticate h token) any) ->
  Handles D (NotificationHandler.route_notification h codec authorization r).
Proof.
  intros Ha. pose proof (reads_notifications D codec) as (? & ?).
  pose proof (quiet_notifications D) as (? & ?).
  apply (handles_authenticated _); [done|]. destruct r; try (apply (handles_with_principal _)).
  - intros. solve_keeps.
  - done.
  - done.
  - intros db c tx Ht. cbn. unfold NotificationHandler.MarkReadHandler.
    destruct (ParseUint _); [|done]. destruct (_ =? 0); [done|].
    by eapply (handles_with_principal D); [done|].
Qed.
End domains.

(** ** The dictionaries *)
Section dictionaries.
Context `{Env} `{Pg} `{Unicode} `{DbClock} `{Decimal} `{JSONLib} `{JSONFields} `{JWT}.
Context (D : relation DB) `{!PreOrder D} (Hwrites : forall db db', writes db db' -> D db db').

Lemma keeps_dict {R} (m : MT R) op : run_dict op = ignore m -> Keeps D m.
Proof.
  intros Ho tx r tx' E. apply Hwrites.
  destruct (ignore m tx) as [q tx1] eqn:Ei. rewrite <- Ho in Ei.
  pose proof (writes_run_dict op _ _ _ Ei) as Hw. rewrite Ho in Ei. unfold ignore, mbind in Ei.
  rewrite E in Ei. by destruct r; injection Ei as _ <-.
Qed.

Lemma handles_entry {V} raw field (act : Z -> MT V) message payload :
  (forall id, Keeps D (act id)) ->
  Handles D (DictionaryHandler.entry_handler raw field act message payload).
Proof. intros Ha. apply (handles_respond _). solve_keeps. Qed.
Lemma handles_update {R V} raw field (body : option R) (update : Z -> R -> MT V) message payload :
  (forall id r, Keeps D (update id r)) ->
  Handles D (DictionaryHandler.update_handler raw field body update message payload).
Proof. intros Hu. apply handles_entry. intros. solve_keeps. Qed.
Lemma handles_create {R V} (create : R -> MT V) (body : option R) message payload :
  (forall r, Keeps D (create r)) ->
  Handles D (DictionaryHandler.create_handler create body message payload).
Proof. intros Hc. apply (handles_respond _). solve_keeps. Qed.

Context (h : AuthService) (authorization : string).
Context (Hauth : forall db token, Inv (D db) (Authenticate h token) any).

Lemma handles_dictionary s r :
  Handles D (DictionaryHandler.route_dictionary s h authorization r).
Proof.
  pose proof (reads_dictionary D s) as (? & ? & ? & ? & ? & ?).
  assert (forall op R (m : MT R), run_dict op = ignore m -> Keeps D m) as Hop
    by (intros; by eapply keeps_dict).
  pose proof (fun i p => Hop (OpSuggest i p) _ _ eq_refl).
  pose proof (fun i p r => Hop (OpApprove i p r) _ _ eq_refl).
  pose proof (fun i p r => Hop (OpReject i p r) _ _ eq_refl).
  pose proof (fun i => Hop (OpCreateFlavor i) _ _ eq_refl).
  pose proof (fun i r => Hop (OpUpdateFlavor i r) _ _ eq_refl).
  pose proof (fun i => Hop (OpEnableFlavor i) _ _ eq_refl).
  pose proof (fun i => Hop (OpDeleteFlavor i) _ _ eq_refl).
  pose proof (fun i => Hop (OpCreateCuisine i) _ _ eq_refl).
  pose proof (fun i r => Hop (OpUpdateCuisine i r) _ _ eq_refl).
  pose proof (fun i => Hop (OpEnableCuisine i) _ _ eq_refl).
  pose proof (fun i => Hop (OpDeleteCuisine i) _ _ eq_refl).
  pose proof (fun i => Hop (OpCreateCanteen i) _ _ eq_refl).
  pose proof (fun i r => Hop (OpUpdateCanteen i r) _ _ eq_refl).
  pose proof (fun i => Hop (OpEnableCanteen i) _ _ eq_refl).
  pose proof (fun i => Hop (OpDeleteCanteen i) _ _ eq_refl).
  pose proof (fun i r => Hop (OpCreateWindow i r) _ _ eq_refl).
  pose proof (fun i r => Hop (OpUpdateWindow i r) _ _ eq_refl).
  pose proof (fun i => Hop (OpEnableWindow i) _ _ eq_refl).
  pose proof (fun i => Hop (OpDeleteWindow i) _ _ eq_refl).
  destruct r; cbn [DictionaryHandler.route_dictionary];
    unfold DictionaryHandler.requireAuth, DictionaryHandler.requireSuggestionReview,
      DictionaryHandler.requireDictionaryManage;
    first [apply (handles_capable _); [done|] | apply (handles_authenticated _); [done|]];
    first [ apply handles_update; done | apply handles_entry; done | apply handles_create; done
          | apply (handles_respond _); walk_keeps | apply (handles_identified _); intros; walk_keeps ].
Qed.
End dictionaries.

(** ** The administration *)
(** What the two operations on bans and roles must keep, where the request is one of them. *)
Definition office_request `{Env} `{Pg} (D : relation DB) (r : AdminHandler.Request) : Prop :=
  match r with
  | AdminHandler.PUT_user_status _ _ =>
      forall user actor input, Keeps D (AdminService.UpdateUserStatus user actor input)
  | AdminHandler.PUT_user_role _ _ =>
      forall user actor role action, Keeps D (AdminService.UpdateUserRole user actor role action)
  | _ => True
  end.

Section administration.
Context `{Env} `{Pg} `{Unicode} `{DbClock} `{Decimal} `{PgLike} `{JWT} `{URLLib}.
Context (D : relation DB) `{!Bystander D}.
Context (s : AdminDeps) `{!QuietAccess (ad_imageAccess s)}.
Context (h : AuthService) (authorization : string).
Context (Hauth : forall db token, Inv (D db) (Authenticate h token) any).

Lemma handles_admin r :
  office_request D r -> Handles D (AdminHandler.route_admin s h authorization r).
Proof.
  intros Hr.
  pose proof (fun id actor => proj1 (ops_admin (ad_posts s) D id actor)).
  pose proof (fun id actor => proj1 (proj2 (ops_admin (ad_posts s) D id actor))).
  pose proof (fun id actor => proj2 (proj2 (ops_admin (ad_posts s) D id actor))).
  pose proof (keeps_AdminDeleteComment D). pose proof (keeps_AdminRestoreComment D).
  pose proof (keeps_AdminManualReview (ad_imageAccess s) D).
  pose proof (quiet_tags D) as (? & ? & ? & ?).
  pose proof (reads_admin D (ad_storage s) (ad_signedImageTTL s) (ad_tagCursor s))
    as (? & ? & ? & ? & ? & ? & ? & ? & ? & ? & ? & ?).
  destruct r; cbn [AdminHandler.route_admin office_request] in *;
    (apply (handles_capable _); [done|]);
    first [ apply (handles_identity _); intros; walk_keeps
          | apply (handles_respond _); walk_keeps ].
Qed.
End administration.

(** ** Who a request acts for *)
Section authority.
Context `{Env} `{Pg} `{Unicode} `{Mail} `{JWT} `{Bcrypt}.
Context (h : AuthService) {X : Type}.
Context (ia : AfterOp -> World DB X -> World DB X * option string).
Context (Hia : forall op w w' p, ia op w = (w', p) -> w_db w' = w_db w).
Abbreviation WorldD := (World DB X).

(** The bearer token of the request authenticates an account the role is bound to. *)
Definition acts_as (role : UserRole) (authorization : string) (w : WorldD) : Prop :=
  exists token p tx uid u,
    bearerToken authorization = inr token /\
    Authenticate h token (begin_tx true w) = (inr p, tx) /\
    users (w_db w) !! uid = Some u /\ User.ID (pr_User p) = User.ID u /\
    is_Some (user_roles (w_db w) !! (uid, role)).

Lemma elem_of_roles_of db uid role :
  role ∈ UserRepository.roles_of db uid -> is_Some (user_roles db !! (uid, role)).
Proof.
  unfold UserRepository.roles_of. rewrite elem_of_sort_by, list_elem_of_fmap.
  intros ([[k r] b] & -> & Hf). apply list_elem_of_filter in Hf as [Hk Hin]. cbn in *. subst k.
  exists b. by apply elem_of_map_to_list.
Qed.

(** The roles of a principal are those bound to its account. *)
Lemma principal_bound token (tx : TxD) p tx' role :
  Authenticate h token tx = (inr p, tx') -> role ∈ principal_roles p ->
  exists uid u, users (tx_db tx) !! uid = Some u /\ User.ID (pr_User p) = User.ID u /\
    is_Some (user_roles (tx_db tx) !! (uid, role)).
Proof.
  intros (t1 & t2 & E)%Authenticate_inr Hr. unfold AuthTokens.authenticated in E.
  destruct (token_ids h t1 token TypeAccess) as [[uid sid]|]; [|done].
  apply fmap_Some in E as (i & Hi & ->).
  apply lookup_identity_Some in Hi as (s & u & _ & Hu & _ & _ & _ & _ & _ & _ & ->).
  exists uid, u. split; [done|]. split; [done|]. by apply elem_of_roles_of.
Qed.

(** A guarded request changes nothing but what [D] allows if the guard stops it. *)
Lemma capable_authority (D : relation DB) `{!Bystander D} {T} authorization cap
    (next : HandlerT T) random c w c' w' :
  (forall db token, Inv (D db) (Authenticate h token) any) -> cap <> CapUseApp ->
  serve interp_before ia random (capable h authorization cap next) c w = (c', w') ->
  D (w_db w) (w_db w') \/ exists role, cap ∈ roleCapabilities role /\ acts_as role authorization w.
Proof.
  intros Ha Hcap E. apply (serve_db _ _ _ _ _ _ _ _ Hia) in E
    as [->|(c1 & tx & tx1 & E1 & E2 & ->)]; [by left|].
  pose proof (keeps_run_before D interp_before _ (quiet_before D) _ _ _ E2) as Hd.
  change (tx_db (tx <| tx_before := [] |>)) with (tx_db tx) in Hd.
  unfold capable, authenticated, RequireAuth in E1.
  destruct (bearerToken authorization) as [e|token] eqn:Hb; [injection E1 as _ <-; by left|].
  destruct (Authenticate h token _) as [r tx2] eqn:Hp.
  destruct (Ha (w_db w) token _ _ _ Hp ltac:(done)) as [Hd2 _].
  destruct r as [e|p]; [injection E1 as _ <-; left; by etrans|].
  unfold RequireCapability in E1. cbn in E1.
  destruct (HasCapability (principal_roles p) cap) eqn:Hc; [|injection E1 as _ <-; left; by etrans].
  right. apply HasCapability_spec in Hc as (role & Hr & Hin). exists role. split; [done|].
  assert (role ∈ principal_roles p) as Hr'.
  { unfold effective_roles in Hr. destruct (principal_roles p); [|done].
    apply list_elem_of_singleton in Hr as ->. by apply ordinary_capability in Hin. }
  destruct (principal_bound _ _ _ _ _ Hp Hr') as (uid & u & Hu & Hid & Hrole).
  by exists token, p, tx2, uid, u.
Qed.
End authority.

(** ** Bans and roles *)
Lemma ban_roles role : CapBanUser ∈ roleCapabilities role ->
  role ∈ [UserRoleModerator; UserRoleSuperAdmin].
Proof.
  unfold roleCapabilities. repeat case_bool_decide; subst; [..|set_solver]; intros Hin; try in_list.
  all: exfalso; set_unfold in Hin; destruct_or!; discriminate.
Qed.

Definition role_tables (db : DB) := (user_roles db, user_role_records db).
Record bans_kept (db db' : DB) : Prop := {
  bk_sanctions : sanctions db ⊆ sanctions db';
  bk_records : user_ban_records db' = user_ban_records db;
}.
#[export] Instance bans_preorder : PreOrder bans_kept.
Proof. split; [by split|]. intros x y z [] []. split; [by etrans|congruence]. Qed.

Section offices.
Context `{Env} `{Pg} `{DbClock}.

#[export] Instance roles_bystander : Bystander (unchanged role_tables).
Proof.
  apply (bystander_weaken office_kept _ _). intros db db' [_ _ Hr _ Hc].
  unfold unchanged, role_tables. by rewrite Hr, Hc.
Qed.
#[export] Instance bans_bystander : Bystander bans_kept.
Proof. apply (bystander_weaken office_kept _ _). intros db db' [Hs _ _ Hb _]. by split. Qed.

Lemma roles_UpdateUserStatus user actor input :
  Keeps (unchanged role_tables) (AdminService.UpdateUserStatus user actor input).
Proof.
  walk_keeps. all: apply (keeps_stmt _); intros db r db' E; unfold unchanged.
  all: unfold AdminRepository.update_ban, AdminRepository.insert_ban_record in E;
    repeat case_match; by simplify_eq.
Qed.
Lemma bans_UpdateUserRole user actor role action :
  Keeps bans_kept (AdminService.UpdateUserRole user actor role action).
Proof.
  walk_keeps. all: apply (keeps_stmt _); intros db r db' E.
  all: unfold AdminRepository.grant, AdminRepository.revoke, AdminRepository.insert_role_record in E;
    repeat case_match; by simplify_eq.
Qed.
End offices.

(** ** The API *)
Section api.
Context `{Env} `{Pg} `{Unicode} `{DbClock} `{Decimal} `{Mail} `{JWT} `{Bcrypt} `{JSONLib}
  `{JSONFields} `{PgLike} `{PgTrending} `{URLLib}.
Context (d : Deps).
Context `{!QuietAccess (ps_imageAccess (dp_posts d))} `{!QuietAccess (UploadService.us_access (dp_uploads d))}
  `{!QuietAccess (ad_imageAccess (dp_admin d))}.
Context (Hqueue : forall q, deliveries (dp_auth d) = Some q -> QueueFrame surroundings q).
Context {X : Type} (ia : AfterOp -> World DB X -> World DB X * option string).
Context (Hia : forall op w w' p, ia op w = (w', p) -> w_db w' = w_db w).
Abbreviation WorldD := (World DB X).

Lemma mounted_db {T} random (hd : HandlerT T) (response : ReqCtx Principal T -> Response) (w : WorldD) :
  exists c, serve interp_before ia random hd fresh_request w =
    (c, snd (mounted ia random hd response w)).
Proof. unfold mounted. destruct (serve _ _ _ _ _ _) as [c w']. by exists c. Qed.

Lemma register_keeps (D : relation DB) `{!Bystander D} random r (w : WorldD) :
  (forall db db', writes db db' -> D db db') ->
  match r with ToAdmin _ r => office_request D r | _ => True end ->
  D (w_db w) (w_db (snd (Register d ia random r w))).
Proof.
  intros Hw Hr.
  pose proof (fun db token => si_Authenticate _ _ (quiet_service (dp_auth d) D Hqueue db) token) as Ha.
  assert (forall T (hd : HandlerT T) response, Handles D hd ->
    D (w_db w) (w_db (snd (mounted ia random hd response w)))) as Hm.
  { intros T hd response Hh. destruct (mounted_db random hd response w) as [c E].
    eapply (handles_serve D); [apply (quiet_before D)|exact Hia|exact Hh|exact E]. }
  destruct r; cbn [Register]; apply Hm.
  - intros db. apply inv_route. by apply quiet_service.
  - apply (handles_authenticated _); [done|]. by apply handles_user.
  - apply (handles_authenticated _); [done|]. by apply handles_post.
  - apply (handles_authenticated _); [done|]. by apply handles_comment.
  - by apply handles_notification.
  - apply (handles_authenticated _); [done|]. by apply handles_upload.
  - by apply (handles_dictionary _).
  - by apply handles_admin.
Qed.

(** Requests that change a ban, and requests that change a role. *)
Definition changes_ban (r : Request) : option string :=
  match r with ToAdmin a (AdminHandler.PUT_user_status _ _) => Some a | _ => None end.
Definition changes_role (r : Request) : option string :=
  match r with ToAdmin a (AdminHandler.PUT_user_role _ _) => Some a | _ => None end.

Abbreviation acts := (acts_as (dp_auth d)).

Lemma roles_kept_by_others random r (w : WorldD) : changes_role r = None ->
  role_tables (w_db (snd (Register d ia random r w))) = role_tables (w_db w).
Proof.
  intros Hr. apply (register_keeps (unchanged role_tables)).
  - intros db db' [_ _ Hu _ Hc]%office_writes. unfold unchanged, role_tables. by rewrite Hu, Hc.
  - destruct r as [| | | | | | |a []]; try done. exact roles_UpdateUserStatus.
Qed.
Lemma bans_kept_by_others random r (w : WorldD) : changes_ban r = None ->
  bans_kept (w_db w) (w_db (snd (Register d ia random r w))).
Proof.
  intros Hr. apply (register_keeps bans_kept).
  - intros db db' [Hs _ _ Hb _]%office_writes. by split.
  - destruct r as [| | | | | | |a []]; try done. exact bans_UpdateUserRole.
Qed.

(** What a request behind a capability changes, if its bearer may not. *)
Lemma admin_authority (D : relation DB) `{!Bystander D} random a r cap next (w : WorldD) :
  AdminHandler.route_admin (dp_admin d) (dp_auth d) a r = capable (dp_auth d) a cap next ->
  cap <> CapUseApp ->
  D (w_db w) (w_db (snd (Register d ia random (ToAdmin a r) w))) \/
  exists role, cap ∈ roleCapabilities role /\ acts role a w.
Proof.
  intros Hr Hcap. cbn [Register]. rewrite Hr.
  destruct (mounted_db random (capable (dp_auth d) a cap next) FromAdmin w) as [c E].
  eapply (capable_authority _ _ Hia D) in E; [exact E| |done].
  intros db token. by apply quiet_service.
Qed.

(** C3: only a super administrator changes roles, only a moderator or a super administrator
    bans.  Whatever request is served, to whatever domain: the bindings of roles and their
    ledger are as before unless it is the request for a role and its bearer token
    authenticates an account [super_admin] is bound to; every ban is as before, and no ban
    is recorded, unless it is the request for a ban by an account with one of the two
    roles. *)
Theorem office_authority random r (w : WorldD) :
  let w' := snd (Register d ia random r w) in
  (role_tables (w_db w') = role_tables (w_db w) \/
     exists a, changes_role r = Some a /\ acts UserRoleSuperAdmin a w) /\
  (bans_kept (w_db w) (w_db w') \/
     exists a role, changes_ban r = Some a /\ role ∈ [UserRoleModerator; UserRoleSuperAdmin] /\
       acts role a w).
Proof.
  cbv zeta. split.
  - destruct (changes_role r) as [a|] eqn:Hr; [|left; by apply roles_kept_by_others].
    destruct r as [| | | | | | |a' []]; try done. injection Hr as <-.
    destruct (admin_authority (unchanged role_tables) random a' (AdminHandler.PUT_user_role id body)
      _ _ w eq_refl ltac:(done)) as [Hd|(role & Hc & Ha)]; [by left|right].
    apply privileged_super_admin in Hc as ->; [|in_list]. by exists a'.
  - destruct (changes_ban r) as [a|] eqn:Hr; [|left; by apply bans_kept_by_others].
    destruct r as [| | | | | | |a' []]; try done. injection Hr as <-.
    destruct (admin_authority bans_kept random a' (AdminHandler.PUT_user_status id body)
      _ _ w eq_refl ltac:(done)) as [Hd|(role & Hc & Ha)]; [by left|right].
    exists a', role. split; [done|]. split; [|done]. by apply ban_roles.
Qed.

(** A request that served nobody with the role changes nothing, over and over. *)
Lemma no_super_admin_step (w w' : WorldD) :
  api_step d ia w w' -> (forall uid, user_roles (w_db w) !! (uid, UserRoleSuperAdmin) = None) ->
  role_tables (w_db w') = role_tables (w_db w).
Proof.
  intros [random r v] Hn. destruct (changes_role r) as [a|] eqn:Hr; [|by apply roles_kept_by_others].
  destruct r as [| | | | | | |a' []]; try done.
  destruct (admin_authority (unchanged role_tables) random a' (AdminHandler.PUT_user_role id body)
    _ _ v eq_refl ltac:(done)) as [Hd|(role & Hc & Ha)]; [done|].
  apply privileged_super_admin in Hc as ->; [|in_list].
  destruct Ha as (_ & _ & _ & uid & _ & _ & _ & _ & _ & [b Hb]). by rewrite Hn in Hb.
Qed.

(** C6: nobody makes himself an administrator.  From tables in which nobody is a super
    administrator, whatever requests follow, to whatever domains and in whatever order, the
    bindings of roles and the ledger stay what they were. *)
Theorem roles_frozen (w w' : WorldD) :
  rtc (api_step d ia) w w' ->
  (forall uid, user_roles (w_db w) !! (uid, UserRoleSuperAdmin) = None) ->
  role_tables (w_db w') = role_tables (w_db w).
Proof.
  induction 1 as [|w w1 w2 Hs _ IH]; [done|]. intros Hn.
  pose proof (no_super_admin_step _ _ Hs Hn) as E. rewrite <- E. apply IH.
  intros uid. unfold role_tables in E. replace (user_roles (w_db w1)) with (user_roles (w_db w)) by congruence.
  apply Hn.
Qed.

(** *** Safe methods *)
(** The requests of method [GET], but for opening a post, which counts the view. *)
Definition only_reads (r : Request) : bool :=
  match r with
  | ToAuth _ (GET_me | GET_sessions) => true
  | ToUser _ (UserHandler.GET_user _ | UserHandler.GET_username_history _ |
      UserHandler.GET_posts _ _ | UserHandler.GET_favorites _ _ |
      UserHandler.GET_following _ _ | UserHandler.GET_followers _ _) => true
  | ToPost _ (PostHandler.GET_posts _ | PostHandler.GET_history _) => true
  | ToComment _ (CommentHandler.GET_comments _ _ | CommentHandler.GET_replies _ _ |
      CommentHandler.GET_history _) => true
  | ToNotification _ (NotificationHandler.GET_notifications _ |
      NotificationHandler.GET_unread_count) => true
  | ToUpload _ (UploadHandler.GET_upload _) => true
  | ToDictionary _ (DictionaryHandler.GET_mine _ | DictionaryHandler.GET_pending _ |
      DictionaryHandler.GET_flavors _ | DictionaryHandler.GET_cuisines _ |
      DictionaryHandler.GET_canteens _ | DictionaryHandler.GET_windows _) => true
  | ToAdmin _ (AdminHandler.GET_posts_pending _ | AdminHandler.GET_posts _ |
      AdminHandler.GET_image _ | AdminHandler.GET_users _ | AdminHandler.GET_user _ |
      AdminHandler.GET_user_posts _ _ | AdminHandler.GET_admins _ |
      AdminHandler.GET_super_admins _ | AdminHandler.GET_comments _ | AdminHandler.GET_tags _ |
      AdminHandler.GET_tags_hot _ | AdminHandler.GET_moderation_pending _) => true
  | _ => false
  end.

(** Every column of every table but the last use of the sessions, which a request
    records: owner, digest, lifetime and revocation of a session are kept. *)
Definition beside_last_use (db : DB) : DB :=
  db <| user_sessions := (fun s => s <| UserSession.LastSeenAt := zero_time |>) <$>
          user_sessions db |>.
Abbreviation E_ := (unchanged beside_last_use).

Lemma touch_beside_last_use sid now threshold db :
  E_ db (db <| user_sessions :=
    SessionRepository.touch_row sid now threshold <$> user_sessions db |>).
Proof.
  unfold unchanged, beside_last_use. cbn. rewrite <- map_fmap_compose.
  rewrite (map_fmap_ext _ (fun s => s <| UserSession.LastSeenAt := zero_time |>)); [done|].
  intros k s _. cbn. unfold SessionRepository.touch_row. by case_match.
Qed.

Lemma reads_Authenticate db token : Inv (E_ db) (Authenticate (dp_auth d) token) any.
Proof.
  apply (keeps_inv_from _). unfold Authenticate, parse_claims,
    SessionRepository.FindActiveIdentity, sessionLookupError, deferSessionTouch. solve_keeps.
Qed.

(** Handlers that read, behind the guards. *)
Ltac reading :=
  first [apply (handles_capable _); [exact reads_Authenticate|]
        | apply (handles_authenticated _); [exact reads_Authenticate|]];
  repeat first
    [ apply (handles_identified _); intros ? | apply (handles_with_principal _); intros ?
    | apply (handles_respond _) ]; walk_keeps.

(** C21: reading changes nothing.  A request of method [GET], opening a post excepted, to
    whatever domain and however it is answered, leaves every column of every table as it was
    but for the last use of sessions: it creates, revokes, extends and deletes none. *)
Theorem safe_methods random r (w : WorldD) :
  only_reads r = true ->
  beside_last_use (w_db (snd (Register d ia random r w))) = beside_last_use (w_db w).
Proof.
  intros Hr.
  assert (forall op, Keeps E_ (interp_before op)) as Hb.
  { intros [sid now]. cbn. apply (keeps_exec _). intros db. apply touch_beside_last_use. }
  assert (forall T (hd : HandlerT T) response, Handles E_ hd ->
    E_ (w_db w) (w_db (snd (mounted ia random hd response w)))) as Hm.
  { intros T hd response Hh. destruct (mounted_db random hd response w) as [c E].
    by eapply (handles_serve E_); [|exact Hia|exact Hh|exact E]. }
  change (E_ (w_db w) (w_db (snd (Register d ia random r w)))).
  pose proof (fun id user => keeps_within E_ _ (reads_upload E_ (dp_uploads d) id user)).
  pose proof (reads_presign E_ (ad_storage (dp_admin d)) (ad_signedImageTTL (dp_admin d))).
  pose proof (reads_queue E_ (ad_storage (dp_admin d)) (ad_signedImageTTL (dp_admin d)))
    as (? & ? & ?).
  destruct r as [i []|a []|a []|a []|a []|a []|a []|a []]; try done; cbn [Register]; apply Hm.
  all: reading.
Qed.
End api.
