(* ===== verification/ReadProps.v ===== *)
(** * What readers of posts and reviewers see

    The feed lists only published posts that satisfy its filters, with what the tables say
    of them ([feed_shows_published]); its pages, one cursor after the other, are one list
    ([feed_pages]); opening a post counts the view and nothing else ([post_detail_effect]);
    what waits for a reviewer is in the review queue, once, and nothing else is
    ([review_queue_exact]). *)

From S2P Require Import Prelude.
From S2P Require Import GoText.
From S2P Require Import Apierr.
From S2P Require Import Effects.
From S2P Require Import Logic.
From S2P Require Import Model.
From S2P Require Import Pagination.
From S2P Require Import AuthRepo.
From S2P Require Import AuthService.
From S2P Require Import Money.
From S2P Require Import PostRepo.
From S2P Require Import Moderation.
From S2P Require Import PostService.
From S2P Require Import CommentService.
From S2P Require Import PostTables.
From S2P Require Import PostProps.
From S2P Require Import CommentOps.
From S2P Require Import UserOps.
From S2P Require Import DictionaryRepo.
From S2P Require Import Administration.
From S2P Require Import PostReads.
From S2P Require Import AdminReads.

Import PostReadRepository PostViews.
Open Scope Z_scope.

(** ** Records *)
Lemma record_of_post db p r : record_of db p = Some r ->
  pr_Post r = p /\ exists author, users db !! Post.AuthorID p = Some author /\
    pr_AuthorName r = User.Username author /\ pr_AuthorDeletedAt r = User.DeletedAt author.
Proof.
  unfold record_of. destruct (users db !! Post.AuthorID p) as [author|] eqn:Hu; [|done].
  intros [= <-]. split; [done|]. by exists author.
Qed.

Section rows.
Context (le : Post.t -> Post.t -> bool) (sel : Post.t -> bool) (db : DB).

Lemma elem_of_records r : r ∈ records le sel db ->
  record_of db (pr_Post r) = Some r /\ sel (pr_Post r) = true /\
  exists k, posts db !! k = Some (pr_Post r).
Proof.
  unfold records. rewrite elem_of_sort_by, list_elem_of_omap. intros (p & Hp & Hr).
  pose proof (record_of_post _ _ _ Hr) as [<- _]. by apply elem_of_select in Hp as [? ?].
Qed.

Lemma NoDup_omap_records l : NoDup (map Post.ID l) ->
  NoDup (map (fun r => Post.ID (pr_Post r)) (omap (record_of db) l)).
Proof.
  induction l as [|p l IH]; cbn; [constructor|]. intros [Hn Hl]%NoDup_cons.
  destruct (record_of db p) as [r|] eqn:Hr; [|by apply IH]. cbn. apply NoDup_cons.
  split; [|by apply IH]. pose proof (record_of_post _ _ _ Hr) as [-> _].
  intros (r' & Hid & (p' & Hp' & Hr')%list_elem_of_omap)%list_elem_of_fmap. apply Hn.
  apply list_elem_of_fmap. exists p'. split; [|done].
  pose proof (record_of_post _ _ _ Hr') as [<- _]. done.
Qed.

Lemma NoDup_records : keyed Post.ID (posts db) ->
  NoDup (map (fun r => Post.ID (pr_Post r)) (records le sel db)).
Proof.
  intros Hk. unfold records. change (map ?f) with (fmap (M := list) f). rewrite sort_by_perm.
  apply NoDup_omap_records. by apply NoDup_ids.
Qed.
End rows.

Lemma page_rows_sublist {R} params (l : list R) : page_rows params l `sublist_of` l.
Proof. unfold page_rows. etrans; [apply sublist_take|apply sublist_drop]. Qed.

Lemma NoDup_sublist_map {A B} (f : A -> B) l k : l `sublist_of` k -> NoDup (map f k) -> NoDup (map f l).
Proof. intros Hs Hk. eapply sublist_NoDup; [exact Hk|]. by apply (fmap_sublist f). Qed.

(** ** Views *)
(** The tags that are not taken down, and the images in their order. *)
Definition tags_shown `{Pg} (db : DB) (id : Z) : list string :=
  map Tag.Name (filter (fun t => Tag.DeletedAt t = None) (PostRepository.tag_rows id db)).
Definition images_shown (db : DB) (id : Z) : list string :=
  omap (fun pi => ImageAsset.PublicURL <$> image_assets db !! PostImage.ImageAssetID pi)
    (PostRepository.images_of id db).

(** An item says what the tables say of its post. *)
Record shows `{Pg} (db : DB) (item : PostListItem) (p : Post.t) : Prop := {
  sp_id : pi_ID item = Post.ID p;
  sp_text : pi_Title item = Post.Title p /\ pi_Content item = Post.Content p;
  sp_price : pi_Price item = Post.Price p;
  sp_status : pi_Status item = Post.Status p;
  sp_deleted : pi_IsDeleted item = is_set (Post.DeletedAt p);
  sp_stats : pi_Stats item = mkStatsView (Post.LikeCount p) (Post.FavoriteCount p)
    (Post.CommentCount p) (Post.ViewCount p);
  sp_tags : pi_Tags item = tags_shown db (Post.ID p);
  sp_images : pi_Images item = images_shown db (Post.ID p);
  sp_author : exists author, users db !! Post.AuthorID p = Some author /\
    pa_ID (pi_Author item) = Post.AuthorID p /\
    pa_Username (pi_Author item) =
      (if is_set (User.DeletedAt author) then "已注销用户"%string else User.Username author);
}.

Section reading.
Context `{Env} `{Pg} `{Unicode} `{DbClock} `{PgLike} `{PgTrending} `{URLLib}.

(** What is loaded beside the records. *)
Record loaded (db : DB) (ids : list Z) (rl : PostRelations) : Prop := {
  ld_tags : forall id, id ∈ ids -> rl_Tags rl id = tags_shown db id;
  ld_images : forall id, id ∈ ids -> rl_Images rl id = images_shown db id;
}.

Lemma LoadRelations_inr ids authors user (tx : TxD) rl tx' :
  LoadRelations ids authors user tx = (inr rl, tx') ->
  tx_db tx' = tx_db tx /\ loaded (tx_db tx) ids rl.
Proof.
  unfold LoadRelations. intros E. destruct ids as [|i ids].
  { apply mret_inr in E as [<- <-]. split; [done|]. by split; intros ? ?%elem_of_nil. }
  set (l := i :: ids) in *.
  apply mbind_inr in E as (tags & tx1 & (-> & D1 & _)%query_inr & E).
  apply mbind_inr in E as (flavors & tx2 & (_ & D2 & _)%query_inr & E).
  apply mbind_inr in E as (images & tx3 & (-> & D3 & _)%query_inr & E).
  rewrite D2, D1 in E.
  assert (tx_db tx' = tx_db tx3 /\ rl_Tags rl = (fun id => if bool_decide (id ∈ l)
      then tags_shown (tx_db tx) id else []) /\
    rl_Images rl = (fun id => if bool_decide (id ∈ l) then images_shown (tx_db tx) id else []))
    as (D & Ht & Hi).
  { destruct (user =? 0); [by apply mret_inr in E as [<- <-]|].
    unfold loadPostInteractions, loadAuthorFollows in E.
    run_inv; (split; [congruence|done]). }
  split; [congruence|]. split; intros id Hid.
  - rewrite Ht. by rewrite bool_decide_eq_true_2.
  - rewrite Hi. by rewrite bool_decide_eq_true_2.
Qed.

Lemma build_shows db ids rl r user :
  record_of db (pr_Post r) = Some r ->
  loaded db ids rl -> Post.ID (pr_Post r) ∈ ids ->
  shows db (buildPostListItem r rl user) (pr_Post r).
Proof.
  intros Hr [Ht Hi] Hid. apply record_of_post in Hr as (_ & author & Hu & Hn & Hd).
  unfold buildPostListItem. cbv zeta. unfold deriveImageTiers. split; try done; cbn; auto.
  exists author. unfold buildPostAuthor. cbn. rewrite Hd, Hn. done.
Qed.

Lemma build_items_inr rs user (tx : TxD) items tx' :
  build_items rs user tx = (inr items, tx') ->
  (forall r, r ∈ rs -> record_of (tx_db tx) (pr_Post r) = Some r) ->
  tx_db tx' = tx_db tx /\ map pi_ID items = map (fun r => Post.ID (pr_Post r)) rs /\
  Forall2 (fun item r => shows (tx_db tx) item (pr_Post r)) items rs.
Proof.
  unfold build_items, loadRelations. intros E Hrs.
  apply mbind_inr in E as (rl & tx1 & E1 & E). apply caught in E1; [|apply throws_internal].
  apply LoadRelations_inr in E1 as [D1 Hl]. apply mret_inr in E as [<- <-].
  split; [done|]. split.
  - rewrite map_map. apply map_ext. intros r. unfold buildPostListItem. by destruct (deriveImageTiers _).
  - set (ids := map (fun r => Post.ID (pr_Post r)) rs) in *.
    assert (forall r, r ∈ rs -> Post.ID (pr_Post r) ∈ ids) as Hids
      by (intros r Hr; apply list_elem_of_fmap; by exists r).
    clearbody ids. induction rs as [|r rs IH]; cbn; constructor.
    + eapply build_shows; [apply Hrs|done|apply Hids]; by left.
    + apply IH; intros; [apply Hrs|apply Hids]; by right.
Qed.
End reading.

(** ** The feed *)
Section feed.
Context `{Env} `{Pg} `{Unicode} `{DbClock} `{PgLike} `{PgTrending} `{URLLib}.
Context (cursor : CursorCodec).

Lemma DbNow_db (tx : TxD) r tx' : DbNow tx = (r, tx') -> tx_db tx' = tx_db tx.
Proof. unfold DbNow. by intros [= _ <-]. Qed.

(** A page of the feed is part of the sorted selection. *)
Definition part_of_feed (filter : PostFilter) (db : DB) (rs : list PostRecord) : Prop :=
  exists le sel, rs `sublist_of` records le sel db /\
    forall p, sel p = true -> post_public p = true /\ applyPostFilter filter db p = true.

Lemma FindPage_inr filter params (tx : TxD) r tx' :
  FindPage filter params tx = (inr r, tx') ->
  tx_db tx' = tx_db tx /\ part_of_feed filter (tx_db tx) (fst r).
Proof.
  unfold FindPage. intros E.
  apply mbind_inr in E as (total & tx1 & (_ & D1 & _)%query_inr & E).
  apply mbind_inr in E as (now & tx2 & D2%DbNow_db & E).
  apply mbind_inr in E as (rows & tx3 & (-> & D3 & _)%query_inr & E).
  apply mret_inr in E as [<- <-]. rewrite D3, D2, D1. split; [done|]. cbn.
  eexists _, _. split; [apply page_rows_sublist|]. intros p. by rewrite andb_true_iff.
Qed.

Lemma FindLatestPage_inr filter params (tx : TxD) rows more tx' :
  FindLatestPage filter params tx = (inr (rows, more), tx') ->
  tx_db tx' = tx_db tx /\
  let l := firstn (Z.to_nat (cp_Limit params + 1)) (feed filter (After params) (tx_db tx)) in
  more = (cp_Limit params <? Z.of_nat (length l)) /\
  rows = (if more then firstn (Z.to_nat (cp_Limit params)) l else l).
Proof.
  unfold FindLatestPage. intros E.
  apply mbind_inr in E as (l & tx1 & (-> & D1 & _)%query_inr & E).
  apply mret_inr in E as [[= <- <-] <-]. done.
Qed.

Lemma latest_part filter after n m db (b : bool) :
  part_of_feed filter db
    (let l := firstn n (feed filter after db) in if b then firstn m l else l).
Proof.
  eexists _, _. split.
  - unfold feed. cbv zeta. destruct b; [etrans; [apply sublist_take|]|]; apply sublist_take.
  - intros p. rewrite !andb_true_iff. tauto.
Qed.

Lemma findListPage_inr filter input (tx : TxD) r tx' :
  findListPage cursor filter input tx = (inr r, tx') ->
  tx_db tx' = tx_db tx /\ part_of_feed filter (tx_db tx) (fst r).
Proof.
  unfold findListPage. intros E. destruct (negb _).
  - apply mbind_inr in E as (page & tx1 & E1 & E). apply caught in E1; [|apply throws_internal].
    apply FindPage_inr in E1. by apply mret_inr in E as [<- <-].
  - apply mbind_inr in E as (params & tx1 & [_ <-]%lift_inr & E).
    apply mbind_inr in E as ([rows more] & tx2 & E2 & E). apply caught in E2; [|apply throws_internal].
    apply FindLatestPage_inr in E2 as (D2 & _ & ->).
    apply mbind_inr in E as (meta & tx3 & E3 & E). apply mret_inr in E as [<- <-].
    assert (tx_db tx3 = tx_db tx2) as ->
      by (unfold postCursorMeta, Encode in E3; by run_inv; congruence).
    split; [done|]. apply latest_part.
Qed.

(** C5: the feed shows what is published, as it is stored.  A successful request for the
    list of posts passed the normalised filter and changed no table; no post is listed
    twice, and every item is an undeleted approved post that satisfies the filter, whose
    current version a review let pass, with its stored text, price, counters and images, its
    author's name unless the account is gone, and those of its tags that were not taken
    down. *)
Theorem feed_shows_published input viewer (tx : TxD) l tx' :
  posts_ok (tx_db tx) -> List_ cursor input viewer tx = (inr l, tx') ->
  tx_db tx' = tx_db tx /\ NoDup (map pi_ID (fe_Posts l)) /\
  exists filter, normalizePostFilter input = inr filter /\
    Forall (fun item => exists p, posts (tx_db tx) !! Post.ID p = Some p /\
      shows (tx_db tx) item p /\ post_public p = true /\ applyPostFilter filter (tx_db tx) p = true /\
      text_passed (tx_db tx) (Post.ID p) (Post.CurrentRevision p)) (fe_Posts l).
Proof.
  intros Hok E. unfold List_ in E.
  apply mbind_inr in E as (filter & tx0 & [Hf <-]%lift_inr & E).
  apply mbind_inr in E as (page & tx1 & E1 & E).
  apply findListPage_inr in E1 as (D1 & le & sel & Hsub & Hsel).
  assert (forall r, r ∈ fst page -> record_of (tx_db tx) (pr_Post r) = Some r /\
    sel (pr_Post r) = true /\ exists k, posts (tx_db tx) !! k = Some (pr_Post r)) as Hrs.
  { intros r Hr. apply (elem_of_records le sel). by eapply elem_of_sublist. }
  apply mbind_inr in E as (items & tx2 & E2 & E). apply mret_inr in E as [<- <-].
  apply build_items_inr in E2 as (D2 & Hids & Hit); [|rewrite D1; intros r Hr; by apply Hrs in Hr as (? & _)].
  rewrite D2, D1. split; [done|]. rewrite D1 in Hit. cbn. split.
  { rewrite Hids. eapply NoDup_sublist_map; [exact Hsub|]. apply NoDup_records, Hok. }
  exists filter. split; [done|]. apply Forall_forall. intros item Hi.
  apply list_elem_of_lookup in Hi as [i Hi].
  destruct (Forall2_lookup_l _ _ _ _ _ Hit Hi) as (r & Hr%list_elem_of_lookup_2 & Hs).
  apply Hrs in Hr as (_ & Hp%Hsel & k & Hk). destruct Hp as [Hpub Hfil].
  pose proof (ok_posts _ Hok _ _ Hk) as Hid.
  exists (pr_Post r). split_and!; try done; [by rewrite Hid|]. apply andb_true_iff in Hpub as [_ Hap].
  apply bool_decide_eq_true in Hap. rewrite Hid. by eapply ok_approved.
Qed.
End feed.

(** ** The pages of the feed *)
(** What comes after an element of a strictly sorted list. *)
Lemma filter_below {A} (R : A -> A -> Prop) `{!forall x y, Decision (R x y)}
    (Hasym : forall x y, R x y -> ~ R y x) (s rest : list A) x :
  StronglySorted R (s ++ x :: rest) -> filter (R x) (s ++ x :: rest) = rest.
Proof.
  intros Hs. rewrite filter_app, filter_cons_False by (intros Hx; by eapply Hasym).
  replace (filter (R x) s) with (@nil A).
  - cbn. apply sorted_suffix in Hs. apply StronglySorted_inv in Hs as [_ Hr].
    induction Hr as [|y l Hy _ IH]; [done|]. rewrite filter_cons_True by done. by rewrite IH.
  - symmetry. induction s as [|y s IH]; [done|]. cbn in Hs.
    apply StronglySorted_inv in Hs as [Hs Hy]. rewrite filter_cons_False; [by apply IH|].
    apply Forall_app in Hy as [_ [Hy _]%Forall_cons]. by apply Hasym.
Qed.

Definition post_cursor (r : PostRecord) : Cursor.t :=
  Cursor.mk (Post.CreatedAt (pr_Post r)) (Post.ID (pr_Post r)) None.
(** [y] is listed behind [x]. *)
Definition behind (x y : PostRecord) : Prop :=
  after_post (Some (post_cursor x)) (pr_Post y) = true.
#[local] Instance behind_dec x y : Decision (behind x y).
Proof. unfold behind. apply _. Defined.

Lemma behind_spec x y : behind x y <->
  Post.CreatedAt (pr_Post y) < Post.CreatedAt (pr_Post x) \/
  Post.CreatedAt (pr_Post y) = Post.CreatedAt (pr_Post x) /\ Post.ID (pr_Post y) < Post.ID (pr_Post x).
Proof. unfold behind, after_post, post_cursor. cbn. lia. Qed.

Lemma newest_post_total x y : newest_post x y = true \/ newest_post y x = true.
Proof. unfold newest_post. lia. Qed.
Lemma newest_post_trans x y z :
  newest_post x y = true -> newest_post y z = true -> newest_post x z = true.
Proof. unfold newest_post. lia. Qed.

Lemma strictly_behind l :
  StronglySorted (fun a b => newest_post (pr_Post a) (pr_Post b) = true) l ->
  NoDup (map (fun r => Post.ID (pr_Post r)) l) -> StronglySorted behind l.
Proof.
  induction 1 as [|x l Hl IH Hx]; cbn; intros Hn; constructor; apply NoDup_cons in Hn as [Hxl Hn].
  - by apply IH.
  - rewrite Forall_forall in Hx |- *. intros y Hy. specialize (Hx y Hy). apply behind_spec.
    assert (Post.ID (pr_Post y) <> Post.ID (pr_Post x)).
    { intros E. apply Hxl. apply list_elem_of_fmap. by exists y. }
    unfold newest_post in Hx. lia.
Qed.

Section pages.
Context `{Env} `{Pg} `{PgLike}.
Context (filter_ : PostFilter) (db : DB) (Hkeyed : keyed Post.ID (posts db)).

Lemma feed_sorted after : StronglySorted behind (feed filter_ after db).
Proof.
  apply strictly_behind; [|by apply NoDup_records].
  apply (sort_by_sorted (fun a b => newest_post (pr_Post a) (pr_Post b)));
    intros; eauto using newest_post_total, newest_post_trans.
Qed.

Lemma omap_records_select p q (t : gmap Z Post.t) :
  omap (record_of db) (select (fun x => p x && q x) t) =
  filter (fun r => q (pr_Post r) = true) (omap (record_of db) (select p t)).
Proof.
  unfold select. induction (map snd (rows t)) as [|x l IH]; [done|].
  rewrite !filter_cons. destruct (p x); cbn.
  - destruct (q x) eqn:Hq; repeat case_decide; try done; cbn.
    all: destruct (record_of db x) as [r|] eqn:Hx; [|done].
    all: rewrite filter_cons, (proj1 (record_of_post _ _ _ Hx)), Hq, IH; by case_decide.
  - repeat case_decide; done.
Qed.

(** Selecting behind a cursor and then sorting is cutting the sorted list. *)
Lemma feed_behind after s x rest :
  feed filter_ after db = s ++ x :: rest -> feed filter_ (Some (post_cursor x)) db = rest.
Proof.
  intros E. rewrite <- (filter_below behind) with (s := s) (x := x).
  2:{ intros a b. rewrite !behind_spec. lia. }
  2:{ rewrite <- E. apply feed_sorted. }
  rewrite <- E. unfold feed, records.
  rewrite (filter_sort_by (fun a b => newest_post (pr_Post a) (pr_Post b)))
    by (intros; eauto using newest_post_total, newest_post_trans).
  f_equal. unfold behind at 1. rewrite <- omap_records_select. f_equal.
  unfold select. apply list_filter_iff. intros p.
  assert (x ∈ feed filter_ after db) as Hx by (rewrite E; apply elem_of_app; right; by left).
  apply elem_of_records in Hx as (_ & Hx & _). rewrite !andb_true_iff in *.
  destruct after as [c|]; [|cbn; tauto]. destruct Hx as [_ Hx].
  enough (after_post (Some (post_cursor x)) p = true -> after_post (Some c) p = true) by tauto.
  revert Hx. unfold after_post, post_cursor. cbn. lia.
Qed.

(** The pages somebody reads who follows the cursors: each answer is a page of the same
    tables, the next request starts behind its last post. *)
Inductive pages (limit : Z) : option Cursor.t -> list (list PostRecord) -> Prop :=
| last_page after (tx : TxD) rs tx' : tx_db tx = db ->
    FindLatestPage filter_ (mkCursorParams after limit) tx = (inr (rs, false), tx') ->
    pages limit after [rs]
| next_page after (tx : TxD) rs tx' r rest : tx_db tx = db ->
    FindLatestPage filter_ (mkCursorParams after limit) tx = (inr (rs, true), tx') ->
    last rs = Some r -> pages limit (Some (post_cursor r)) rest ->
    pages limit after (rs :: rest).

Lemma last_app_Some {A} (l : list A) x : last l = Some x -> exists s, l = s ++ [x].
Proof.
  intros Hl. destruct l as [|y l _] using rev_ind; [done|]. rewrite last_snoc in Hl.
  injection Hl as ->. by exists l.
Qed.

(** One page: the first of what is behind the cursor; the rest is behind its last post. *)
Lemma page_split after limit (tx : TxD) rs more tx' : 1 <= limit ->
  FindLatestPage filter_ (mkCursorParams after limit) tx = (inr (rs, more), tx') -> tx_db tx = db ->
  if more then Z.of_nat (length rs) = limit /\ exists r, last rs = Some r /\
      feed filter_ after db = rs ++ feed filter_ (Some (post_cursor r)) db
  else Z.of_nat (length rs) <= limit /\ feed filter_ after db = rs.
Proof.
  intros Hl (_ & Hm & Hr)%FindLatestPage_inr Hdb. cbn [After cp_Limit] in *. rewrite Hdb in *.
  set (l := feed filter_ after db) in *. set (n := Z.to_nat limit) in *.
  replace (Z.to_nat (limit + 1)) with (S n) in * by lia. rewrite length_take in Hm.
  assert (Z.of_nat n = limit) as Hnl by (unfold n; lia).
  symmetry in Hm. destruct more; [apply Z.ltb_lt in Hm|apply Z.ltb_ge in Hm].
  - rewrite firstn_firstn in Hr. replace (Nat.min n (S n)) with n in Hr by lia.
    assert (length rs = n) as Hlen by (rewrite Hr, length_take; lia).
    split; [lia|]. destruct (last rs) as [r|] eqn:Hlast.
    + exists r. split; [done|]. destruct (last_app_Some _ _ Hlast) as [s Hs].
      assert (l = s ++ r :: skipn n l) as E.
      { rewrite <- (take_drop n l) at 1. fold n in Hr. rewrite <- Hr, Hs, <- app_assoc. done. }
      rewrite (feed_behind after s r (skipn n l) E), Hr. symmetry. apply take_drop.
    + apply last_None in Hlast as ->. cbn in Hlen. lia.
  - assert (length l <= n)%nat as Hn by lia. rewrite take_ge in Hr by lia.
    split; [|done]. rewrite Hr. lia.
Qed.

(** C20: the pages of the feed are the feed.  Whatever the filter and the size of a page,
    the pages of somebody who follows the cursors on unchanged tables are, put together,
    the whole sorted selection: nothing is skipped, nothing comes twice, and every page but
    the last is full. *)
Theorem feed_pages limit l : 1 <= limit -> pages limit None l ->
  concat l = feed filter_ None db /\
  NoDup (map (fun r => Post.ID (pr_Post r)) (concat l)) /\
  exists full final, l = full ++ [final] /\
    Forall (fun rs => Z.of_nat (length rs) = limit) full /\ Z.of_nat (length final) <= limit.
Proof.
  intros Hl Hp.
  enough (forall after, pages limit after l -> concat l = feed filter_ after db /\
    exists full final, l = full ++ [final] /\
      Forall (fun rs => Z.of_nat (length rs) = limit) full /\ Z.of_nat (length final) <= limit) as Hw.
  { destruct (Hw _ Hp) as [E Hf]. split; [done|]. split; [|done]. rewrite E.
    by apply NoDup_records. }
  clear Hp. intros after. induction 1 as [after tx rs tx' Hdb E|after tx rs tx' r rest Hdb E Hr _ IH].
  - pose proof (page_split _ _ _ _ _ _ Hl E Hdb) as [Hn Hf]. cbn. rewrite app_nil_r. split; [done|].
    exists [], rs. by repeat constructor.
  - pose proof (page_split _ _ _ _ _ _ Hl E Hdb) as (Hn & r' & Hr' & Hf).
    assert (r' = r) as -> by congruence. destruct IH as (Hc & full & final & -> & Hfull & Hfinal).
    split; [cbn; by rewrite Hf, Hc|]. exists (rs :: full), final. split_and!; try done. by constructor.
Qed.
End pages.

(** ** Opening a post *)
Section detail.
Context `{Env} `{Pg} `{Unicode} `{DbClock} `{URLLib}.

Lemma found_by_id id b db p : keyed Post.ID (posts db) ->
  first (fun p => PostRepository.by_id id p && (b || PostRepository.undeleted p)) (posts db) = Some p ->
  posts db !! id = Some p.
Proof.
  intros Hk (Hp & k & Hd)%first_Some. apply andb_true_iff in Hp as [Hid%Z.eqb_eq _].
  pose proof (Hk _ _ Hd). congruence.
Qed.

Definition seen (p : Post.t) : Post.t := p <| Post.ViewCount := Post.ViewCount p + 1 |>.

Lemma IncrementView_inr id (tx : TxD) r tx' p :
  keyed Post.ID (posts (tx_db tx)) -> posts (tx_db tx) !! id = Some p ->
  PostRepository.undeleted p = true -> PostRepository.IncrementView id tx = (inr r, tx') ->
  tx_db tx' = (tx_db tx) <| posts := <[id := seen p]> (posts (tx_db tx)) |>.
Proof.
  intros Hk Hp Hu E. destruct r. unfold PostRepository.IncrementView in E.
  apply found_row_inr in E as (n & E & _). apply update_posts_inr in E. rewrite E.
  unfold set_posts. f_equal. apply map_eq. intros k. rewrite update_where_lookup.
  destruct (decide (k = id)) as [->|Hne].
  - rewrite lookup_insert_eq, Hp. cbn. unfold PostRepository.by_id.
    by rewrite (Hk _ _ Hp), Z.eqb_refl, Hu.
  - rewrite lookup_insert_ne by done. destruct (posts (tx_db tx) !! k) as [q|] eqn:Hq; [|done].
    cbn. unfold PostRepository.by_id. rewrite (Hk _ _ Hq). by replace (k =? id) with false by lia.
Qed.

Lemma visibleRecord_inr id viewer (tx : TxD) r tx' :
  keyed Post.ID (posts (tx_db tx)) -> visibleRecord id viewer tx = (inr r, tx') ->
  tx_db tx' = tx_db tx /\ posts (tx_db tx) !! id = Some (pr_Post r) /\
  record_of (tx_db tx) (pr_Post r) = Some r /\
  (post_public (pr_Post r) = true \/ Post.AuthorID (pr_Post r) = viewer).
Proof.
  intros Hk E. unfold visibleRecord in E.
  apply mbind_inr in E as (r' & tx1 & E1 & E). apply caught in E1; [|apply throws_to_api].
  apply mbind_inr in E as ([] & tx2 & [Hr <-]%lift_inr & E). apply mret_inr in E as [-> <-].
  unfold FindRecordByID in E1. apply mbind_inr in E1 as (o & tx2 & (Ho & D & _)%query_inr & E1).
  destruct o as [r'|]; [|done]. apply mret_inr in E1 as [-> <-]. symmetry in Ho.
  destruct (first _ _) as [p|] eqn:Hf; [|done]. cbn in Ho.
  pose proof (found_by_id _ _ _ _ Hk Hf) as Hp. pose proof (record_of_post _ _ _ Ho) as [<- _].
  split_and!; try done. unfold CommentService.ensurePostReadable in Hr.
  unfold post_public, PostRepository.undeleted.
  destruct (Z.eqb_spec (Post.AuthorID (pr_Post r)) viewer); [by right|left].
  cbn [negb] in Hr. rewrite !andb_true_r in Hr. by repeat destruct (bool_decide _).
Qed.

(** The post as the answer has it. *)
Definition answered (p : Post.t) : Post.t :=
  if PostRepository.undeleted p
  then p <| Post.ViewCount := wrap32 (Post.ViewCount p + 1) |> else p.
(** The tables after it was opened. *)
Definition opened (id : Z) (p : Post.t) (db : DB) : DB :=
  if PostRepository.undeleted p then db <| posts := <[id := seen p]> (posts db) |> else db.

Lemma counted_inr id r (tx : TxD) r' tx' :
  keyed Post.ID (posts (tx_db tx)) -> posts (tx_db tx) !! id = Some (pr_Post r) ->
  (if PostRepository.undeleted (pr_Post r) then
     on_error (PostRepository.IncrementView id) (ModerationService.to_api BizPostNotFound "帖子") ;;;
     mret (viewed r)
   else mret r) tx = (inr r', tx') ->
  tx_db tx' = opened id (pr_Post r) (tx_db tx) /\ pr_Post r' = answered (pr_Post r) /\
  (record_of (tx_db tx) (pr_Post r) = Some r -> record_of (tx_db tx) (pr_Post r') = Some r').
Proof.
  intros Hk Hp E. unfold opened, answered. destruct (PostRepository.undeleted (pr_Post r)) eqn:Hu.
  - apply mbind_inr in E as (u & tx1 & E1 & E). apply caught in E1; [|apply throws_to_api].
    apply mret_inr in E as [<- <-]. split; [by eapply IncrementView_inr|]. split; [done|].
    intros Hr. unfold record_of in *. cbn. destruct (users _ !! _); [|done].
    cbn in *. by injection Hr as <-.
  - by apply mret_inr in E as [<- <-].
Qed.

(** Loading looks at nothing the counter is part of. *)
Lemma loaded_opened id p db ids rl : loaded (opened id p db) ids rl -> loaded db ids rl.
Proof. unfold opened. case_match; [|done]. intros []. by split. Qed.

(** C12: opening a post counts the view and nothing else.  A post is answered with only to
    its author or if it is published; a live one has its view counter increased by one, and
    no other row of any table changes; the answer says what the tables say, and what became
    of the reviews is in it exactly for the author. *)
Theorem post_detail_effect id viewer (tx : TxD) d tx' :
  keyed Post.ID (posts (tx_db tx)) -> Get id viewer tx = (inr d, tx') ->
  exists p, posts (tx_db tx) !! id = Some p /\
    (post_public p = true \/ Post.AuthorID p = viewer) /\
    tx_db tx' = opened id p (tx_db tx) /\
    shows (tx_db tx) (pd_Item d) (answered p) /\
    (is_Some (pd_Moderation d) <-> Post.AuthorID p = viewer).
Proof.
  intros Hk E. unfold Get in E.
  apply mbind_inr in E as (r & tx1 & E1 & E).
  apply visibleRecord_inr in E1 as (D1 & Hp & Hr & Hv); [|done].
  apply mbind_inr in E as (r' & tx2 & E2 & E). rewrite <- D1 in *.
  apply counted_inr in E2 as (D2 & Hr' & Hrec); [|done..]. specialize (Hrec Hr).
  apply mbind_inr in E as (rl & tx3 & E3 & E). unfold loadRelations in E3.
  apply caught in E3; [|apply throws_internal]. apply LoadRelations_inr in E3 as [D3 Hl].
  rewrite D2 in Hl. apply loaded_opened in Hl.
  apply mbind_inr in E as (m & tx4 & E4 & E). apply mret_inr in E as [<- <-].
  exists (pr_Post r). split; [done|]. split; [done|].
  assert (Post.AuthorID (pr_Post r') = Post.AuthorID (pr_Post r)) as Ha
    by (rewrite Hr'; unfold answered; by destruct (PostRepository.undeleted _)).
  rewrite Ha in E4. rewrite <- Hr'. cbn.
  assert (tx_db tx4 = tx_db tx3 /\ (is_Some m <-> Post.AuthorID (pr_Post r) = viewer)) as [D4 Hm].
  { destruct (Z.eqb_spec (Post.AuthorID (pr_Post r)) viewer).
    - unfold FindModerationIssues in E4. run_inv. split; [congruence|]. split; [done|by eexists].
    - apply mret_inr in E4 as [<- <-]. split; [done|]. split; [by intros [? ?]|done]. }
  split; [congruence|]. split; [|done].
  eapply build_shows; [done|exact Hl|by left].
Qed.
End detail.

Import AdminReadRepository.

(** A record that waits, with the label if one is asked for. *)
Definition waiting (label : option string) (db : DB) (r : ModerationRecord.t) : Prop :=
  ModerationRepository.pending db r = true /\ labelled label r = true /\
  exists k, moderation_records db !! k = Some r.

Lemma elem_of_pending label db r : r ∈ pending_records label db <-> waiting label db r.
Proof.
  unfold pending_records, waiting. rewrite elem_of_select, andb_true_iff. tauto.
Qed.

(** Of a post's records: those its item stands for. *)
Definition on_the_post (label : option string) (db : DB) (id : Z) : list ModerationRecord.t :=
  filter (fun r => ModerationRepository.on_post id db r = true) (pending_records label db).

Lemma min_fold_le x l : forall y, y ∈ x :: l -> foldr Z.min x l <= y.
Proof.
  induction l as [|z l IH]; cbn; intros y Hy; [set_solver by lia|].
  apply elem_of_cons in Hy as [->|Hy]; [specialize (IH x ltac:(by left)); lia|].
  apply elem_of_cons in Hy as [->|Hy]; [lia|]. specialize (IH y ltac:(by right)). lia.
Qed.
Lemma min_fold_in x l : foldr Z.min x l ∈ x :: l.
Proof.
  induction l as [|z l IH]; cbn; [by left|].
  destruct (Z.min_spec z (foldr Z.min x l)) as [[_ ->]|[_ ->]]; [right; by left|].
  apply elem_of_cons in IH as [->|IH]; [by left|]. right. by right.
Qed.

(** The item of a post: its first record is the most urgent, its age that of the oldest. *)
Record stands_for (rs : list ModerationRecord.t) (id : Z) (item : QueueItem) : Prop := {
  st_target : qi_TargetType item = ModerationTargetPost /\ qi_TargetID item = Some id /\
    qi_GroupPostID item = Some id;
  st_record : exists r, r ∈ rs /\ ModerationRecord.ID r = qi_RecordID item;
  st_urgent : (exists r, r ∈ rs /\ severity r = qi_Priority item) /\
    forall r, r ∈ rs -> qi_Priority item <= severity r;
  st_oldest : (exists r, r ∈ rs /\ ModerationRecord.CreatedAt r = qi_CreatedAt item) /\
    forall r, r ∈ rs -> qi_CreatedAt item <= ModerationRecord.CreatedAt r;
}.

Lemma fold_least (f : ModerationRecord.t -> Z) x l : x ∈ l ->
  (exists r, r ∈ l /\ f r = foldr Z.min (f x) (map f l)) /\
  forall r, r ∈ l -> foldr Z.min (f x) (map f l) <= f r.
Proof.
  intros Hx. split.
  - pose proof (min_fold_in (f x) (map f l)) as Hm.
    apply elem_of_cons in Hm as [->|Hm]; [by exists x|].
    apply list_elem_of_fmap in Hm as (r & -> & Hr). by exists r.
  - intros r Hr. apply min_fold_le. right. apply list_elem_of_fmap. by exists r.
Qed.

Lemma post_item_Some label db p item : post_item label db p = Some item ->
  stands_for (on_the_post label db (Post.ID p)) (Post.ID p) item.
Proof.
  unfold post_item. fold (on_the_post label db (Post.ID p)). set (rs := on_the_post _ _ _).
  destruct (hd_error (sort_by more_urgent rs)) as [r|] eqn:Hh; [|done]. intros [= <-].
  assert (r ∈ sort_by more_urgent rs) as Hr.
  { destruct (sort_by more_urgent rs); [done|]. injection Hh as ->. by left. }
  assert (forall r, r ∈ sort_by more_urgent rs <-> r ∈ rs) as He by (intros; apply elem_of_sort_by).
  split; cbn; [done| | |].
  - exists r. by rewrite <- He.
  - destruct (fold_least severity _ _ Hr) as [(r0 & Hr0 & E) Hm].
    split; [exists r0; by rewrite <- He|]. intros r1 Hr1. apply Hm. by rewrite He.
  - destruct (fold_least ModerationRecord.CreatedAt _ _ Hr) as [(r0 & Hr0 & E) Hm].
    split; [exists r0; by rewrite <- He|]. intros r1 Hr1. apply Hm. by rewrite He.
Qed.

Lemma post_item_is_Some label db p :
  is_Some (post_item label db p) <-> on_the_post label db (Post.ID p) <> [].
Proof.
  unfold post_item. fold (on_the_post label db (Post.ID p)). set (rs := on_the_post _ _ _).
  assert (forall r, r ∈ sort_by more_urgent rs <-> r ∈ rs) as He by (intros; apply elem_of_sort_by).
  destruct (sort_by more_urgent rs) as [|r l].
  - cbn. split; [by intros [? ?]|]. intros Hn. destruct rs as [|r0 rs]; [done|].
    assert (r0 ∈ @nil ModerationRecord.t) as ?%elem_of_nil by (apply He; by left). done.
  - cbn. split; [|by eexists]. intros _ Hnil. rewrite Hnil in He.
    assert (r ∈ @nil ModerationRecord.t) as ?%elem_of_nil by (apply He; by left). done.
Qed.

(** ** The queue *)
Section queue.
Context (label : option string) (db : DB).
Context (Hposts : keyed Post.ID (posts db)).
Context (Hrecords : keyed ModerationRecord.ID (moderation_records db)).

(** It waits or was turned down, is not deleted, and all its images have been judged. *)
Definition may_be_reviewed (p : Post.t) : Prop :=
  (Post.Status p = PostStatusPending \/ Post.Status p = PostStatusRejected) /\
  Post.DeletedAt p = None /\
  forall k pi a, post_images db !! k = Some pi -> PostImage.PostID pi = Post.ID p ->
    image_assets db !! PostImage.ImageAssetID pi = Some a ->
    ImageAsset.Moderation a <> ModerationStatusPending.
(** A record about neither a post nor an image uploaded for a post. *)
Definition lone (r : ModerationRecord.t) : Prop :=
  ModerationRecord.PostID r = None /\
  forall a, ModerationRecord.ImageAssetID r = Some a ->
    exists image, image_assets db !! a = Some image /\ ImageAsset.Purpose image <> ImagePurposePost.

Lemma elem_of_images_of id pi :
  pi ∈ PostRepository.images_of id db <->
  exists k, post_images db !! k = Some pi /\ PostImage.PostID pi = id.
Proof.
  unfold PostRepository.images_of. rewrite elem_of_sort_by, elem_of_where, Z.eqb_eq. naive_solver.
Qed.
Lemma reviewable_spec p : reviewable db p = true <-> may_be_reviewed p.
Proof.
  unfold reviewable, may_be_reviewed, PostRepository.undeleted.
  rewrite !andb_true_iff, orb_true_iff, !bool_decide_eq_true, forallb_forall.
  split; [intros [[Hs Hd] Hi]|intros (Hs & Hd & Hi)].
  - split; [done|]. split; [done|]. intros k pi a Hk Hid Ha Hm.
    assert (pi ∈ PostRepository.images_of (Post.ID p) db) as Hin%list_elem_of_In
      by (apply elem_of_images_of; eauto).
    specialize (Hi _ Hin). rewrite Ha, bool_decide_eq_true_2 in Hi by done. done.
  - split; [done|]. intros pi (k & Hk & Hid)%list_elem_of_In%elem_of_images_of.
    destruct (image_assets db !! PostImage.ImageAssetID pi) as [a|] eqn:Ha; [|done].
    rewrite bool_decide_eq_false_2; [done|]. by eapply Hi.
Qed.
Lemma generic_spec r : generic db r = true <-> lone r.
Proof.
  unfold generic, lone. rewrite andb_true_iff, bool_decide_eq_true.
  destruct (ModerationRecord.ImageAssetID r) as [a|]; [|naive_solver].
  destruct (image_assets db !! a) as [image|] eqn:Ha.
  - rewrite negb_true_iff, bool_decide_eq_false. naive_solver.
  - split; [by intros []|]. intros [_ H]. destruct (H _ eq_refl) as (? & ? & _). congruence.
Qed.

(** A post that may be reviewed and of which something waits. *)
Definition post_waits (id : Z) : Prop :=
  exists p, posts db !! id = Some p /\ may_be_reviewed p /\
    exists r, waiting label db r /\ ModerationRepository.on_post id db r = true.

Lemma elem_of_post_items item :
  item ∈ omap (post_item label db) (select (reviewable db) (posts db)) <->
  exists p, posts db !! Post.ID p = Some p /\ reviewable db p = true /\
    post_item label db p = Some item.
Proof.
  rewrite list_elem_of_omap. split.
  - intros (p & (Hr & k & Hk)%elem_of_select & Hi). exists p. by rewrite (Hposts _ _ Hk).
  - intros (p & Hp & Hr & Hi). exists p. split; [|done]. apply elem_of_select. by eauto.
Qed.

Lemma elem_of_on_the_post id r :
  r ∈ on_the_post label db id <-> waiting label db r /\ ModerationRepository.on_post id db r = true.
Proof. unfold on_the_post. rewrite list_elem_of_filter, elem_of_pending. tauto. Qed.

Lemma generic_items_group item :
  item ∈ map generic_item (filter (fun r => generic db r = true) (pending_records label db)) ->
  qi_GroupPostID item = None.
Proof. by intros (r & -> & _)%list_elem_of_fmap. Qed.

(** What tells the items apart: the post, or the record. *)
Definition item_key (i : QueueItem) : Z + Z :=
  match qi_GroupPostID i with Some id => inl id | None => inr (qi_RecordID i) end.

Lemma NoDup_post_keys l : NoDup (map Post.ID l) ->
  NoDup (map item_key (omap (post_item label db) l)).
Proof.
  induction l as [|p l IH]; cbn; [constructor|]. intros [Hn Hl]%NoDup_cons.
  destruct (post_item label db p) as [i|] eqn:Hi; [|by apply IH]. cbn. apply NoDup_cons.
  split; [|by apply IH]. apply post_item_Some in Hi as [(_ & _ & Hg) _ _ _].
  intros (i' & Hk & (p' & Hp' & Hi')%list_elem_of_omap)%list_elem_of_fmap.
  apply post_item_Some in Hi' as [(_ & _ & Hg') _ _ _]. unfold item_key in Hk.
  rewrite Hg, Hg' in Hk. injection Hk as E. apply Hn. apply list_elem_of_fmap. by exists p'.
Qed.

Lemma NoDup_item_keys : NoDup (map item_key (queue_items label db)).
Proof.
  unfold queue_items. rewrite map_app. apply NoDup_app. split_and!.
  - by apply NoDup_post_keys, NoDup_ids.
  - intros k (i & -> & Hi)%list_elem_of_fmap (j & Hk & Hj)%list_elem_of_fmap.
    apply elem_of_post_items in Hi as (p & _ & _ & Hi).
    apply post_item_Some in Hi as [(_ & _ & Hg) _ _ _]. apply generic_items_group in Hj.
    unfold item_key in Hk. by rewrite Hg, Hj in Hk.
  - rewrite map_map. unfold pending_records.
    pose proof (NoDup_ids ModerationRecord.ID (moderation_records db)
      (fun r => ModerationRepository.pending db r && labelled label r) Hrecords) as Hn.
    revert Hn. generalize (select (fun r => ModerationRepository.pending db r && labelled label r)
      (moderation_records db)). intros l. induction l as [|r l IH]; [constructor|]. cbn [map].
    intros [Hn Hl]%NoDup_cons. rewrite filter_cons. case_decide; [|by apply IH]. cbn [map].
    apply NoDup_cons. split; [|by apply IH].
    intros (r' & [= E] & [_ Hr']%list_elem_of_filter)%list_elem_of_fmap.
    apply Hn. apply list_elem_of_fmap. by exists r'.
Qed.

(** C11: the queue of the reviewers is exact.  A post has an item in it if and only if the
    post may be reviewed (it waits or was turned down, is not deleted and its images are
    judged) and a pending record, with the label asked for, is about it or one of its
    images; the item has the greatest urgency and the greatest age among all those records.
    A record about neither a post nor a post's image has an item if and only if it is
    pending and has the label.  Nothing is in the queue twice. *)
Theorem review_queue_exact :
  (forall id, (exists item, item ∈ queue_items label db /\ qi_GroupPostID item = Some id) <->
     post_waits id) /\
  (forall item id, item ∈ queue_items label db -> qi_GroupPostID item = Some id ->
     stands_for (on_the_post label db id) id item) /\
  (forall r, moderation_records db !! ModerationRecord.ID r = Some r ->
     ((exists item, item ∈ queue_items label db /\ qi_GroupPostID item = None /\
         qi_RecordID item = ModerationRecord.ID r) <->
      waiting label db r /\ lone r)) /\
  NoDup (map item_key (queue_items label db)).
Proof.
  assert (forall item id, item ∈ queue_items label db -> qi_GroupPostID item = Some id ->
    exists p, posts db !! id = Some p /\ Post.ID p = id /\ reviewable db p = true /\
      post_item label db p = Some item) as Hpost.
  { intros item id [Hi|Hi]%elem_of_app Hg; [|apply generic_items_group in Hi; congruence].
    apply elem_of_post_items in Hi as (p & Hp & Hr & Hi).
    pose proof (post_item_Some _ _ _ _ Hi) as [(_ & _ & Hg') _ _ _].
    assert (Post.ID p = id) as <- by congruence. eauto. }
  split_and!.
  - intros id. split.
    + intros (item & Hin & Hg). destruct (Hpost _ _ Hin Hg) as (p & Hp & <- & Hr & Hi).
      exists p. split; [done|]. split; [by apply reviewable_spec|].
      destruct (st_record _ _ _ (post_item_Some _ _ _ _ Hi)) as (r & Hrin & _).
      exists r. by apply elem_of_on_the_post.
    + intros (p & Hp & Hr%reviewable_spec & r & Hw). pose proof (Hposts _ _ Hp) as Hid. rewrite <- Hid in Hp, Hw |- *.
      assert (is_Some (post_item label db p)) as [item Hi].
      { apply post_item_is_Some. intros Hn. apply elem_of_on_the_post in Hw. rewrite Hn in Hw.
        by apply elem_of_nil in Hw. }
      exists item. split; [|apply post_item_Some in Hi as [(_ & _ & ?) _ _ _]; done].
      apply elem_of_app. left. apply elem_of_post_items. eauto.
  - intros item id Hin Hg. destruct (Hpost _ _ Hin Hg) as (p & _ & <- & _ & Hi).
    by apply post_item_Some.
  - intros r Hr. split.
    + intros (item & [Hi|Hi]%elem_of_app & Hg & Hid).
      { apply elem_of_post_items in Hi as (p & _ & _ & Hi).
        apply post_item_Some in Hi as [(_ & _ & ?) _ _ _]. congruence. }
      apply list_elem_of_fmap in Hi as (r' & -> & [Hgen Hw%elem_of_pending]%list_elem_of_filter).
      cbn in Hid. destruct Hw as (Hp & Hl & k & Hk).
      pose proof (Hrecords _ _ Hk) as Hk'. assert (r' = r) as -> by congruence.
      split; [|by apply generic_spec]. split_and!; try done. by exists k.
    + intros [Hw Hg%generic_spec]. exists (generic_item r). split; [|done]. apply elem_of_app. right.
      apply list_elem_of_fmap. exists r. split; [done|].
      apply list_elem_of_filter. split; [done|]. by apply elem_of_pending.
  - apply NoDup_item_keys.
Qed.
End queue.
