(* ===== verification/AdminTagsProps.v ===== *)
(** * Administration of tags: what a rename and a merge do to the posts

    A merge moves exactly the relations it should ([merge_effect]).  The versions both
    operations write leave the posts with a text nobody judged, and a post that waits with
    a text no reviewer is shown and a review nobody can complete
    ([tag_change_stops_review]). *)

From S2P Require Import Prelude.
From S2P Require Import GoText.
From S2P Require Import Apierr.
From S2P Require Import Effects.
From S2P Require Import Logic.
From S2P Require Import Model.
From S2P Require Import Pagination.
From S2P Require Import AuthRepo.
From S2P Require Import AuthService.
From S2P Require Import Money.
From S2P Require Import PostRepo.
From S2P Require Import Moderation.
From S2P Require Import PostService.
From S2P Require Import PostTables.
From S2P Require Import PostProps.
From S2P Require Import PostEdits.
From S2P Require Import PostReviews.
From S2P Require Import CommentOps.
From S2P Require Import DictionaryRepo.
From S2P Require Import DictionaryService.
From S2P Require Import DictionaryWrites.
From S2P Require Import DictionaryApproval.
From S2P Require Import Administration.
From S2P Require Import PostReads.
From S2P Require Import AdminReads.
From S2P Require Import ReadProps.
Import AdminReadRepository.
Import AdminTagRepository AdminTagService.
Open Scope Z_scope.

(** ** Moving the relations *)
(** Every relation is stored under its own key. *)
Definition links_keyed (t : gmap (Z * Z) PostTag.t) : Prop :=
  forall k pt, t !! k = Some pt -> k = (PostTag.PostID pt, PostTag.TagID pt).

(** Whether the post has the tag. *)
Definition tagged (db : DB) (post tag : Z) : Prop := is_Some (post_tags db !! (post, tag)).

Section relations.
Implicit Types (t : gmap (Z * Z) PostTag.t) (l : list PostTag.t).

Definition copied (target : Z) t l : gmap (Z * Z) PostTag.t :=
  foldl (fun t pt => match t !! (PostTag.PostID pt, target) with
    | Some _ => t
    | None => <[(PostTag.PostID pt, target) := PostTag.mk (PostTag.PostID pt) target]> t
    end) t l.

Definition copy_one (target : Z) t (pt : PostTag.t) : gmap (Z * Z) PostTag.t :=
  match t !! (PostTag.PostID pt, target) with
  | Some _ => t
  | None => <[(PostTag.PostID pt, target) := PostTag.mk (PostTag.PostID pt) target]> t
  end.
Lemma copied_cons target pt l t :
  copied target t (pt :: l) = copied target (copy_one target t pt) l.
Proof. done. Qed.

Lemma copied_keyed target l t : links_keyed t -> links_keyed (copied target t l).
Proof.
  revert t. induction l as [|pt l IH]; intros t Hk; [done|]. rewrite copied_cons. apply IH.
  unfold copy_one. case_match; [done|]. intros k pt' [[<- <-]|[_ Hpt]]%lookup_insert_Some; [done|by apply Hk].
Qed.

Lemma copied_spec target l t p tag :
  is_Some (copied target t l !! (p, tag)) <->
  is_Some (t !! (p, tag)) \/ tag = target /\ p ∈ map PostTag.PostID l.
Proof.
  revert t. induction l as [|pt l IH]; intros t; [cbn; set_solver|].
  rewrite copied_cons, IH. cbn [map]. rewrite elem_of_cons. unfold copy_one.
  destruct (t !! (PostTag.PostID pt, target)) eqn:Ht.
  - split; [tauto|]. intros [?|[-> [->|?]]]; [tauto| |tauto]. left. by rewrite Ht.
  - rewrite lookup_insert_is_Some'. naive_solver.
Qed.

Lemma dropped_spec source t p tag : links_keyed t ->
  is_Some (delete_where (fun pt => PostTag.TagID pt =? source) t !! (p, tag)) <->
  tag <> source /\ is_Some (t !! (p, tag)).
Proof.
  intros Hk. unfold delete_where. split.
  - intros [pt [Hpt Hs]%map_lookup_filter_Some]. cbn in Hs.
    pose proof (Hk _ _ Hpt) as [= _ ->]. split; [by apply Z.eqb_neq|by exists pt].
  - intros [Hn [pt Hpt]]. exists pt. apply map_lookup_filter_Some. split; [done|]. cbn.
    pose proof (Hk _ _ Hpt) as [= _ Htag]. apply Z.eqb_neq. congruence.
Qed.
End relations.

(** ** The versions *)
Section versions.
Context `{Env} `{Pg} `{Unicode} `{DbClock} `{Decimal}.

(** Everything but the columns of posts and the stored versions. *)
Definition rest (db : DB) : DB := db <| posts := ∅ |> <| post_histories := ∅ |>.

(** The version the change writes: what the post now says. *)
Definition version_of (a : tagAffectedPost) (actor : Z) (now : time) (reason : string) (db : DB)
    (h : PostHistory.t) : Prop :=
  let p := moved_on (ap_revision a) now (ap_post a) in
  PostHistory.PostID h = Post.ID p /\ PostHistory.Revision h = ap_revision a /\
  PostHistory.EditedBy h = actor /\ PostHistory.EditReason h = Some reason /\
  exists relations, PostRepository.sr_Tags relations = map Tag.Name (PostRepository.tag_rows (Post.ID p) db) /\
    PostHistory.Snapshot h = snapshotFromCurrent p relations.

Definition versioned (a : tagAffectedPost) (now : time) (k : Z) (h : PostHistory.t) (db : DB) : DB :=
  (set_posts (PostRepository.by_id (Post.ID (ap_post a))) (moved_on (ap_revision a) now) db)
    <| post_histories := <[k := h]> (post_histories db) |>.

Lemma append_version_inr a actor now reason (tx : TxD) tx' :
  appendTagChangeVersion a actor now reason tx = (inr tt, tx') ->
  exists k h, post_histories (tx_db tx) !! k = None /\
    version_of a actor now reason (tx_db tx) h /\ tx_db tx' = versioned a now k h (tx_db tx).
Proof.
  unfold appendTagChangeVersion. intros E.
  apply mbind_inr in E as ([] & tx1 & E1 & E).
  apply on_error_inr in E1 as [(n & E1 & _)%found_row_inr|(? & ? & _ & E1)];
    [|unfold postRepositoryError in E1; by repeat case_match].
  apply update_posts_inr in E1. apply mbind_inr in E as (relations & tx2 & E2 & E).
  assert (tx_db tx2 = tx_db tx1) as Hd2
    by (unfold PostRepository.LoadSnapshotRelations in E2; by reads E2).
  assert (PostRepository.sr_Tags relations =
    map Tag.Name (PostRepository.tag_rows (Post.ID (ap_post a)) (tx_db tx1))) as Htags.
  { apply on_error_inr in E2 as [E2|(? & ? & _ & E2)]; [|by apply internal_inr in E2].
    unfold PostRepository.LoadSnapshotRelations in E2. apply mbind_inr in E2 as (ts & ? & Eq & E2).
    apply query_inr in Eq as (-> & _). do 2 apply mbind_inr in E2 as (? & ? & _ & E2).
    by apply mret_inr in E2 as [<- _]. }
  apply on_error_inr in E as [E|(? & ? & _ & E)];
    [|unfold historyWriteError in E; by repeat case_match].
  apply mbind_inr in E as (k & tx3 & (_ & Hd3 & _)%NextID_inr & E).
  apply stmt_inr in E as (_ & E & _). destruct (exists_row _ _); [done|].
  destruct (insert_row _ _ _ _) as [|t] eqn:Ei; [done|]. apply insert_row_inr in Ei as [Hn ->].
  injection E as E. rewrite Hd3, Hd2, E1 in *.
  exists k. eexists. split; [exact Hn|]. split; [|by rewrite <- E].
  split_and!; try done. by exists relations.
Qed.

Abbreviation target_of a := (Post.ID (ap_post a)).

(** Each post of [affected] moved on to its revision, with one version more that says what
    it now says; nothing else changed. *)
Record versions_written (affected : list tagAffectedPost) (actor : Z) (now : time)
    (reason : string) (db db' : DB) : Prop := {
  vw_rest : rest db' = rest db;
  vw_keyed : keyed Post.ID (posts db');
  vw_others : forall id p, posts db !! id = Some p -> id ∉ map (fun a => target_of a) affected ->
    posts db' !! id = Some p;
  vw_moved : forall a p, a ∈ affected -> posts db !! target_of a = Some p ->
    posts db' !! target_of a = Some (moved_on (ap_revision a) now p);
  vw_written : forall a, a ∈ affected -> exists k h, post_histories db !! k = None /\
    post_histories db' !! k = Some h /\ version_of a actor now reason db h;
  vw_kept : post_histories db ⊆ post_histories db';
  vw_new : forall k h, post_histories db' !! k = Some h -> post_histories db !! k = None ->
    PostHistory.PostID h ∈ map (fun a => target_of a) affected;
}.

Lemma rest_tags db db' id : rest db' = rest db ->
  PostRepository.tag_rows id db' = PostRepository.tag_rows id db.
Proof.
  intros E. unfold PostRepository.tag_rows.
  by rewrite (f_equal tags E : tags db' = tags db), (f_equal post_tags E : post_tags db' = post_tags db).
Qed.

Lemma version_of_rest a actor now reason db db' h : rest db' = rest db ->
  version_of a actor now reason db' h -> version_of a actor now reason db h.
Proof.
  intros E (? & ? & ? & ? & relations & ? & ?). split_and!; try done.
  exists relations. by rewrite <- (rest_tags _ _ _ E).
Qed.

Lemma versioned_posts a now k h db id p : keyed Post.ID (posts db) -> posts db !! id = Some p ->
  posts (versioned a now k h db) !! id =
    Some (if id =? target_of a then moved_on (ap_revision a) now p else p).
Proof.
  intros Hk Hp. unfold versioned, set_posts. cbn -[update_where]. rewrite update_where_lookup, Hp.
  cbn. unfold PostRepository.by_id. by rewrite (Hk _ _ Hp).
Qed.

Lemma versioned_keyed a now k h db : keyed Post.ID (posts db) ->
  keyed Post.ID (posts (versioned a now k h db)).
Proof.
  intros Hk id p. unfold versioned, set_posts. cbn -[update_where]. rewrite update_where_lookup.
  intros (q & Hq & ->)%fmap_Some. pose proof (Hk _ _ Hq). by destruct (PostRepository.by_id _ _).
Qed.

Lemma append_versions_inr affected actor now reason (tx : TxD) tx' :
  NoDup (map (fun a => target_of a) affected) -> keyed Post.ID (posts (tx_db tx)) ->
  appendTagChangeVersions affected actor now reason tx = (inr tt, tx') ->
  versions_written affected actor now reason (tx_db tx) (tx_db tx').
Proof.
  revert tx. induction affected as [|a l IH]; intros tx Hn Hk E; cbn in E.
  { apply mret_inr in E as [_ <-]. split; try done; try set_solver; intros; congruence. }
  apply mbind_inr in E as ([] & tx1 & E1 & E). cbn in Hn. apply NoDup_cons in Hn as [Ha Hn].
  apply append_version_inr in E1 as (k & h & Hnew & Hver & D1).
  assert (keyed Post.ID (posts (tx_db tx1))) as Hk1 by (rewrite D1; by apply versioned_keyed).
  destruct (IH _ Hn Hk1 E) as [Hr Hkeyed Ho Hm Hw Hkept Hfresh].
  assert (rest (tx_db tx1) = rest (tx_db tx)) as Hr1 by (rewrite D1; done).
  assert (post_histories (tx_db tx1) = <[k := h]> (post_histories (tx_db tx))) as Dh
    by (rewrite D1; done).
  pose proof (insert_subseteq _ _ h Hnew) as Hins. rewrite <- Dh in Hins.
  split.
  - by rewrite Hr.
  - done.
  - intros id p Hp Hid. cbn in Hid. apply not_elem_of_cons in Hid as [Hid1 Hid2].
    apply Ho; [|done]. rewrite D1, (versioned_posts _ _ _ _ _ _ _ Hk Hp).
    by replace (id =? target_of a) with false by lia.
  - intros b p [->|Hb]%elem_of_cons Hp.
    + apply Ho; [|done]. by rewrite D1, (versioned_posts _ _ _ _ _ _ _ Hk Hp), Z.eqb_refl.
    + apply Hm; [done|]. rewrite D1, (versioned_posts _ _ _ _ _ _ _ Hk Hp).
      destruct (Z.eqb_spec (target_of b) (target_of a)) as [He|He]; [|done].
      exfalso. apply Ha. rewrite <- He. apply list_elem_of_fmap. by exists b.
  - intros b [->|Hb]%elem_of_cons.
    + exists k, h. split_and!; [done| |done]. eapply lookup_weaken; [|exact Hkept]. rewrite Dh.
      apply lookup_insert_eq.
    + destruct (Hw _ Hb) as (k' & h' & Hn' & Hk' & Hv'). exists k', h'. split_and!; [|done|].
      * by eapply lookup_weaken_None.
      * by eapply version_of_rest.
  - by etrans.
  - intros k' h' Hk' Hn'. cbn. rewrite elem_of_cons. destruct (post_histories (tx_db tx1) !! k') as [g|] eqn:Hg.
    + pose proof (lookup_weaken _ _ _ _ Hg Hkept) as Hg'. assert (g = h') as -> by congruence.
      rewrite Dh in Hg. apply lookup_insert_Some in Hg as [[<- <-]|[_ Hg]]; [|congruence].
      left. by destruct Hver.
    + right. by eapply Hfresh.
Qed.

(** The posts with the tag, each with its next revision. *)
Record affected_by (tag : Z) (db : DB) (affected : list tagAffectedPost) : Prop := {
  ab_nodup : NoDup (map (fun a => target_of a) affected);
  ab_posts : forall id p, posts db !! id = Some p ->
    (id ∈ map (fun a => target_of a) affected <-> tagged db id tag);
  ab_rows : forall a, a ∈ affected -> posts db !! target_of a = Some (ap_post a) /\
    ~ has_version db (target_of a) (ap_revision a);
}.

Lemma next_revisions_inr ps (tx : TxD) l tx' :
  next_revisions ps tx = (inr l, tx') ->
  tx_db tx' = tx_db tx /\ map ap_post l = ps /\
  Forall (fun a => ~ has_version (tx_db tx) (target_of a) (ap_revision a)) l.
Proof.
  revert tx l. induction ps as [|p ps IH]; intros tx l E; cbn in E.
  { apply mret_inr in E as [<- <-]. by split_and!. }
  apply mbind_inr in E as (v & tx1 & E1 & E). apply caught in E1; [|apply throws_internal].
  apply NextHistoryRevision_inr in E1 as [D1 Hv].
  apply mbind_inr in E as (l' & tx2 & E2 & E). apply mret_inr in E as [<- <-].
  apply IH in E2 as (D2 & <- & Hl). rewrite D2, D1 in *. split_and!; [done|done|].
  constructor; [done|]. exact Hl.
Qed.

Lemma prepare_inr tag (tx : TxD) l tx' :
  keyed Post.ID (posts (tx_db tx)) -> links_keyed (post_tags (tx_db tx)) ->
  prepareTagAffectedPosts tag tx = (inr l, tx') ->
  tx_db tx' = tx_db tx /\ affected_by tag (tx_db tx) l.
Proof.
  intros Hk Hl E. unfold prepareTagAffectedPosts in E.
  apply mbind_inr in E as (ids & tx1 & E1 & E). apply caught in E1; [|apply throws_internal].
  apply query_inr in E1 as (Hids & D1 & _).
  apply mbind_inr in E as (ps & tx2 & E2 & E). apply caught in E2; [|apply throws_internal].
  assert (tx_db tx2 = tx_db tx1 /\ ps = select (fun p => bool_decide (Post.ID p ∈ ids)) (posts (tx_db tx1)))
    as [D2 Hps].
  { unfold LockPostsByIDs in E2. destruct ids; [|by apply query_inr in E2 as (-> & -> & _)].
    apply mret_inr in E2 as [<- <-]. split; [done|]. symmetry.
    destruct (select _ _) as [|q r] eqn:Hs; [done|].
    assert (q ∈ q :: r) as Hq by by left. rewrite <- Hs in Hq.
    apply elem_of_select in Hq as [Hq%bool_decide_eq_true _]. set_solver. }
  apply next_revisions_inr in E as (D3 & Hmap & Hrev). rewrite D3, D2, D1 in *.
  assert (map (fun a => target_of a) l = map Post.ID ps) as Hm by (by rewrite <- Hmap, map_map).
  split; [done|]. split.
  - rewrite Hm, Hps. by apply NoDup_ids.
  - intros id p Hp. rewrite Hm, list_elem_of_fmap. split.
    + intros (q & Hid & Hq). rewrite Hps in Hq. apply elem_of_select in Hq as [Hq _].
      apply bool_decide_eq_true in Hq. rewrite Hids in Hq.
      apply elem_of_sort_by, list_elem_of_fmap in Hq as (pt & Hpt & Hin).
      apply elem_of_where in Hin as [Ht [k Hpt']]. apply Z.eqb_eq in Ht.
      rewrite (Hl _ _ Hpt') in Hpt'. exists pt. by rewrite Hid, <- Ht, Hpt.
    + intros [pt Hpt]. exists p. split; [symmetry; by apply Hk|]. rewrite Hps, elem_of_select.
      split; [|by exists id]. apply bool_decide_eq_true. rewrite Hids, elem_of_sort_by, list_elem_of_fmap.
      pose proof (Hl _ _ Hpt) as [= Hpid Htid]. exists pt. split; [by rewrite (Hk _ _ Hp)|].
      apply elem_of_where. split; [apply Z.eqb_eq; done|by exists (id, tag)].
  - intros a Ha. assert (ap_post a ∈ ps) as Hin by (rewrite <- Hmap; by apply list_elem_of_fmap_2).
    rewrite Hps in Hin. apply elem_of_select in Hin as [_ [k Hk']].
    split; [by rewrite (Hk _ _ Hk')|]. rewrite Forall_forall in Hrev. by apply Hrev.
Qed.

(** *** The merge itself *)
Definition retag (now : time) (t : Tag.t) : Tag.t :=
  t <| Tag.DeletedAt := Some now |> <| Tag.UpdatedAt := now |>.
Definition merged (source target : Z) (now : time) (db : DB) : DB :=
  db <| post_tags := delete_where (fun pt => PostTag.TagID pt =? source)
          (copied target (post_tags db)
             (where_ (fun pt => PostTag.TagID pt =? source) (post_tags db))) |>
     <| tags := snd (update_where (of_id source) (retag now) (tags db)) |>.

Lemma MergeTagRelations_inr source target now (tx : TxD) tx' :
  MergeTagRelations source target now tx = (inr tt, tx') ->
  tx_db tx' = merged source target now (tx_db tx).
Proof.
  unfold MergeTagRelations. intros E.
  apply mbind_inr in E as ([] & tx1 & (D1 & _)%exec_inr & E).
  apply mbind_inr in E as ([] & tx2 & (D2 & _)%exec_inr & E).
  apply found_row_inr in E as (n & E & _). apply stmt_inr_short in E as (E & _).
  unfold set_deleted in E. injection E as _ E. by rewrite <- E, D2, D1.
Qed.

Lemma tagged_merged source target now db p tag :
  links_keyed (post_tags db) -> source <> target ->
  tagged (merged source target now db) p tag <->
  tag <> source /\ (tagged db p tag \/ tag = target /\ tagged db p source).
Proof.
  intros Hk Hne. unfold tagged, merged. cbn -[update_where].
  rewrite dropped_spec by by apply copied_keyed. rewrite copied_spec.
  assert (p ∈ map PostTag.PostID (where_ (fun pt => PostTag.TagID pt =? source) (post_tags db)) <->
    is_Some (post_tags db !! (p, source))) as ->; [|done].
  rewrite list_elem_of_fmap. split.
  - intros (pt & -> & [Ht%Z.eqb_eq [k Hpt]]%elem_of_where). rewrite (Hk _ _ Hpt) in Hpt.
    exists pt. by rewrite <- Ht.
  - intros [pt Hpt]. pose proof (Hk _ _ Hpt) as [= -> Ht]. exists pt. split; [done|].
    apply elem_of_where. split; [by apply Z.eqb_eq|eauto].
Qed.

Lemma find_keyed id t (l : list Tag.t) db : keyed Tag.ID (tags db) ->
  (forall t, t ∈ l -> exists k, tags db !! k = Some t) ->
  find (of_id id) l = Some t -> tags db !! id = Some t.
Proof.
  intros Hk Hl [Hin Hid]%find_some. apply list_elem_of_In in Hin. destruct (Hl _ Hin) as [k Ht].
  unfold of_id in Hid. apply Z.eqb_eq in Hid. by rewrite <- Hid, (Hk _ _ Ht).
Qed.

Lemma MergeTag_inr source actor target (tx : TxD) res tx' :
  keyed Post.ID (posts (tx_db tx)) -> links_keyed (post_tags (tx_db tx)) ->
  keyed Tag.ID (tags (tx_db tx)) ->
  MergeTag source actor target tx = (inr res, tx') ->
  source <> target /\ is_Some (tags (tx_db tx) !! source) /\
  (exists t, tags (tx_db tx) !! target = Some t /\ Tag.DeletedAt t = None) /\
  exists affected now, affected_by source (tx_db tx) affected /\
    versions_written affected actor now (merge_reason source target)
      (merged source target now (tx_db tx)) (tx_db tx') /\
    mr_AffectedPostCount res = Z.of_nat (length affected).
Proof.
  intros Hk Hl Htk E. unfold MergeTag in E. destruct (target =? 0); [done|].
  destruct (Z.eqb_spec source target) as [|Hne]; [done|].
  apply mbind_inr in E as (ts & tx1 & E1 & E). apply caught in E1; [|apply throws_internal].
  apply query_inr in E1 as (Hts & D1 & _).
  destruct (length ts =? 2)%nat; [|done].
  assert (forall t, t ∈ ts -> exists k, tags (tx_db tx) !! k = Some t) as Hin.
  { intros t Ht. rewrite Hts in Ht. by apply elem_of_select in Ht as [_ ?]. }
  destruct (find (of_id source) ts) as [s|] eqn:Hs; [|done].
  destruct (find (of_id target) ts) as [t|] eqn:Ht; cbn in E; [|done].
  pose proof (find_keyed _ _ _ _ Htk Hin Hs) as Hs'.
  pose proof (find_keyed _ _ _ _ Htk Hin Ht) as Ht'.
  destruct (is_set (Tag.DeletedAt t)) eqn:Hd; [done|].
  rewrite (Htk _ _ Ht') in E.
  apply mbind_inr in E as (affected & tx2 & E2 & E).
  apply prepare_inr in E2 as [D2 Ha]; [|by rewrite D1..]. rewrite D1 in Ha, D2.
  apply mbind_inr in E as (now & tx3 & (_ & D3 & _)%Now_inr & E).
  apply mbind_inr in E as ([] & tx4 & E4 & E). apply caught in E4; [|apply throws_to_api].
  apply MergeTagRelations_inr in E4. rewrite D3, D2 in E4.
  apply mbind_inr in E as ([] & tx5 & E5 & E). apply mret_inr in E as [<- <-].
  apply append_versions_inr in E5; [|by destruct Ha|by rewrite E4].
  rewrite E4 in E5. split_and!; [done|by eexists| |].
  - exists t. split; [done|]. by destruct (Tag.DeletedAt t).
  - by exists affected, now.
Qed.

(** What a rename writes to the tags. *)
Definition renamed (tag : Z) (name : string) (now : time) (db : DB) : DB :=
  db <| tags := snd (update_where (of_id tag)
    (fun t => t <| Tag.Name := name |> <| Tag.UpdatedAt := now |>) (tags db)) |>.

Lemma RenameTag_inr tag actor raw (tx : TxD) v tx' t :
  keyed Post.ID (posts (tx_db tx)) -> links_keyed (post_tags (tx_db tx)) ->
  keyed Tag.ID (tags (tx_db tx)) -> tags (tx_db tx) !! tag = Some t -> tv_Name v <> Tag.Name t ->
  RenameTag tag actor raw tx = (inr v, tx') ->
  exists affected now, affected_by tag (tx_db tx) affected /\
    versions_written affected actor now (rename_reason tag)
      (renamed tag (tv_Name v) now (tx_db tx)) (tx_db tx').
Proof.
  intros Hk Hl Htk Ht Hne E. unfold RenameTag in E.
  apply mbind_inr in E as (name & tx0 & [_ <-]%lift_inr & E).
  apply mbind_inr in E as (ts & tx1 & E1 & E). apply caught in E1; [|apply throws_internal].
  apply query_inr in E1 as (Hts & D1 & _). destruct ts as [|t' [|]]; try done.
  assert (t' ∈ [t']) as Hin by by left. rewrite Hts in Hin.
  apply elem_of_select in Hin as [Hin [k Hk']]. apply bool_decide_eq_true in Hin.
  apply list_elem_of_singleton in Hin. rewrite (Htk _ _ Hk') in Hin. subst k.
  assert (t' = t) as -> by congruence.
  destruct (bool_decide (Tag.Name t = name)) eqn:Hname.
  { apply mret_inr in E as [<- _]. by cbn in Hne. }
  apply mbind_inr in E as (affected & tx2 & E2 & E).
  apply prepare_inr in E2 as [D2 Ha]; [|by rewrite D1..]. rewrite D1 in Ha, D2.
  apply mbind_inr in E as (now & tx3 & (_ & D3 & _)%Now_inr & E).
  apply mbind_inr in E as ([] & tx4 & E4 & E). apply caught in E4.
  2:{ intros e ? ? ?. unfold rename_error. case_match; [done|apply throws_to_api]. }
  apply found_row_inr in E4 as (n & E4 & Hn). apply stmt_inr_short in E4 as (E4 & _).
  rewrite D3, D2 in E4. unfold rename_tag in E4.
  destruct (exists_row _ _); cbn [negb] in E4; [|by injection E4 as <- _].
  destruct (name_state name); [done|]. destruct (exists_row _ _); [done|].
  injection E4 as _ E4.
  apply mbind_inr in E as ([] & tx5 & E5 & E). apply mret_inr in E as [<- <-].
  apply append_versions_inr in E5; [|by destruct Ha|by rewrite <- E4].
  exists affected, now. cbn. split; [done|]. rewrite <- E4 in E5. exact E5.
Qed.
End versions.

Section tag_theorems.
Context `{Env} `{Pg} `{Unicode} `{DbClock} `{Decimal}.

(** C19: what a merge does.  When it succeeds, the two tags exist and differ and the target
    is not taken down; afterwards a post has a tag exactly when it is not the source and
    the post had it, or it is the target and the post had the source; the source is taken
    down and no other tag changed; a post that did not have the source is as it was; every
    post that had it moved on to a new version by this administrator, whose tags are those
    the post has now; and the answer counts these posts. *)
Theorem merge_effect source actor target (tx : TxD) res tx' :
  keyed Post.ID (posts (tx_db tx)) -> links_keyed (post_tags (tx_db tx)) ->
  keyed Tag.ID (tags (tx_db tx)) ->
  MergeTag source actor target tx = (inr res, tx') ->
  source <> target /\ (exists t, tags (tx_db tx) !! target = Some t /\ Tag.DeletedAt t = None) /\
  (forall p tag, tagged (tx_db tx') p tag <->
     tag <> source /\ (tagged (tx_db tx) p tag \/ tag = target /\ tagged (tx_db tx) p source)) /\
  (exists now, forall k, tags (tx_db tx') !! k =
     if k =? source then retag now <$> tags (tx_db tx) !! k else tags (tx_db tx) !! k) /\
  (exists l, NoDup l /\ mr_AffectedPostCount res = Z.of_nat (length l) /\
     forall id p, posts (tx_db tx) !! id = Some p -> (id ∈ l <-> tagged (tx_db tx) id source)) /\
  forall id p, posts (tx_db tx) !! id = Some p ->
    (~ tagged (tx_db tx) id source -> posts (tx_db tx') !! id = Some p) /\
    (tagged (tx_db tx) id source -> exists rev now k h,
       posts (tx_db tx') !! id = Some (moved_on rev now p) /\
       ~ has_version (tx_db tx) id rev /\
       post_histories (tx_db tx) !! k = None /\ post_histories (tx_db tx') !! k = Some h /\
       PostHistory.PostID h = id /\ PostHistory.Revision h = rev /\ PostHistory.EditedBy h = actor /\
       PostSnapshot.Tags (PostHistory.Snapshot h) =
         snapshotTags (map Tag.Name (PostRepository.tag_rows id (tx_db tx')))).
Proof.
  intros Hk Hl Htk E. apply MergeTag_inr in E as
    (Hne & Hs & Ht & affected & now & [Hnd Hposts Hrows] & [Wr _ Wo Wm Ww Wk Wn] & Hcount); [|done..].
  split; [done|]. split; [done|]. split.
  { intros p tag. rewrite <- (tagged_merged source target now) by done. unfold tagged.
    by rewrite (f_equal post_tags Wr : post_tags (tx_db tx') = post_tags (merged source target now (tx_db tx))). }
  split.
  { exists now. intros k.
    rewrite (f_equal tags Wr : tags (tx_db tx') = tags (merged source target now (tx_db tx))).
    unfold merged. cbn -[update_where]. rewrite update_where_lookup.
    destruct (tags (tx_db tx) !! k) as [t|] eqn:Hkt; cbn; [|by case_match].
    unfold of_id. rewrite (Htk _ _ Hkt). by case_match. }
  split.
  { exists (map (fun a => Post.ID (ap_post a)) affected). rewrite length_map. by split_and!. }
  intros id p Hp. rewrite <- (Hposts _ _ Hp). split; [by apply Wo|].
  intros (a & -> & Ha)%list_elem_of_fmap. destruct (Hrows _ Ha) as [Hpa Hnew].
  assert (p = ap_post a) as -> by congruence.
  destruct (Ww _ Ha) as (k & h & Hn' & Hh & Hpid & Hrev & Hby & _ & relations & Htags & Hsnap).
  exists (ap_revision a), now, k, h. split_and!; try done; [by apply Wm|].
  rewrite Hsnap. cbn. by rewrite Htags, (rest_tags _ _ _ Wr).
Qed.

(** Where a version nobody judged leaves a post. *)
Lemma unjudged_post db db' id p : posts_ok db ->
  moderation_records db' = moderation_records db -> keyed Post.ID (posts db') ->
  posts db' !! id = Some p -> ~ has_version db id (Post.CurrentRevision p) ->
  newest (of_revision id (Post.CurrentRevision p)) db' = None /\
  ModerationRepository.current_revision id db' = Some (Post.CurrentRevision p) /\
  (forall k r, moderation_records db' !! k = Some r -> ModerationRecord.PostID r = Some id ->
     ModerationRepository.pending db' r = false).
Proof.
  intros Hok Hm Hk Hp Hn.
  assert (ModerationRepository.current_revision id db' = Some (Post.CurrentRevision p)) as Hcur.
  { unfold ModerationRepository.current_revision.
    destruct (first _ _) as [q|] eqn:Hf.
    - apply first_Some in Hf as [Hid [k Hq]]. unfold PostRepository.by_id in Hid.
      apply Z.eqb_eq in Hid. rewrite <- Hid, (Hk _ _ Hq) in Hp. cbn. congruence.
    - exfalso. pose proof (proj1 (first_None _ _) Hf _ _ Hp) as Hx.
      unfold PostRepository.by_id in Hx. apply Z.eqb_neq in Hx. by apply Hx, Hk. }
  split; [|split; [done|]].
  - replace (newest _ db') with
      (newest (of_revision id (Post.CurrentRevision p)) db).
    + by apply unjudged_newest.
    + unfold newest. by rewrite Hm.
  - intros k r Hr Hpid. rewrite Hm in Hr. destruct (ok_texts _ Hok _ _ _ Hr Hpid) as (_ & v & Hv & Hh).
    unfold ModerationRepository.pending. rewrite Hpid, Hcur, Hv.
    rewrite (bool_decide_eq_false_2 (Some v = _)); [by rewrite !andb_false_r|]. congruence.
Qed.

(** The review of a post needs a verdict on its current version. *)
Lemma review_needs_record access input (tx : TxD) r tx' :
  ModerationService.ManualReviewPost access input tx = (inr r, tx') ->
  exists v m, ModerationRepository.current_revision (ModerationService.mp_PostID input) (tx_db tx) = Some v /\
    newest (of_revision (ModerationService.mp_PostID input) v) (tx_db tx) = Some m.
Proof.
  unfold ModerationService.ManualReviewPost. intros E.
  apply mbind_inr in E as ([] & tx0 & [_ <-]%lift_inr & E).
  apply mbind_inr in E as (snapshot & tx1 & E1 & _).
  unfold ModerationService.lockPostReviewSnapshot in E1.
  apply mbind_inr in E1 as (p & tx2 & E2 & E1). apply caught in E2; [|apply throws_to_api].
  assert (tx_db tx2 = tx_db tx) as D2
    by (unfold ModerationRepository.LockPostForReview, First in E2; run_inv; congruence).
  destruct (negb _); [done|]. destruct (_ && _); [done|].
  apply mbind_inr in E1 as (assets & tx3 & E3 & E1). apply caught in E3; [|apply throws_internal].
  assert (tx_db tx3 = tx_db tx2) as D3
    by (unfold ModerationRepository.LockImagesForPost in E3; by apply query_inr in E3 as (_ & ? & _)).
  apply mbind_inr in E1 as ([] & tx4 & E4 & E1).
  assert (tx_db tx4 = tx_db tx3) as D4
    by by apply neutral_inr in E4; [|apply neutral_validatePostReviewAssets].
  apply mbind_inr in E1 as (m & tx5 & E5 & _). apply caught in E5; [|apply throws_to_api].
  unfold ModerationRepository.LatestPostModeration, First in E5.
  apply mbind_inr in E5 as (o & tx6 & (Ho & _)%query_inr & E5).
  rewrite D4, D3, D2 in Ho. destruct o as [m'|]; [|done]. symmetry in Ho.
  apply bind_Some in Ho as (v & Hv & Hm). by exists v, m'.
Qed.

(** An administrator changed what the posts with this tag say. *)
Definition tag_change (tag actor : Z) (tx tx' : TxD) : Prop :=
  (exists raw t v, tags (tx_db tx) !! tag = Some t /\ tv_Name v <> Tag.Name t /\
     RenameTag tag actor raw tx = (inr v, tx')) \/
  (exists target res, MergeTag tag actor target tx = (inr res, tx')).

Lemma tag_change_versions tag actor (tx tx' : TxD) :
  keyed Post.ID (posts (tx_db tx)) -> links_keyed (post_tags (tx_db tx)) ->
  keyed Tag.ID (tags (tx_db tx)) -> tag_change tag actor tx tx' ->
  exists affected now reason db1, affected_by tag (tx_db tx) affected /\
    versions_written affected actor now reason db1 (tx_db tx') /\
    posts db1 = posts (tx_db tx) /\ post_histories db1 = post_histories (tx_db tx) /\
    moderation_records db1 = moderation_records (tx_db tx).
Proof.
  intros Hk Hl Htk [(raw & t & v & Ht & Hne & E)|(target & res & E)].
  - eapply RenameTag_inr in E as (affected & now & Ha & Hw); [|done..].
    exists affected, now, (rename_reason tag), (renamed tag (tv_Name v) now (tx_db tx)). done.
  - apply MergeTag_inr in E as (_ & _ & _ & affected & now & Ha & Hw & _); [|done..].
    exists affected, now, (merge_reason tag target), (merged tag target now (tx_db tx)). done.
Qed.

(** An item of a post in the queue, when no record on its text is pending, stands for a
    record on one of the images it shows. *)
Definition stands_for_image (db : DB) (id : Z) (item : QueueItem) : Prop :=
  exists k r k' pi, moderation_records db !! k = Some r /\
    ModerationRecord.ID r = qi_RecordID item /\ ModerationRecord.PostID r <> Some id /\
    post_images db !! k' = Some pi /\ PostImage.PostID pi = id /\
    ModerationRecord.ImageAssetID r = Some (PostImage.ImageAssetID pi).

Lemma queued_by_image label db id item : keyed Post.ID (posts db) ->
  (forall k r, moderation_records db !! k = Some r -> ModerationRecord.PostID r = Some id ->
     ModerationRepository.pending db r = false) ->
  item ∈ queue_items label db -> qi_GroupPostID item = Some id -> stands_for_image db id item.
Proof.
  intros Hk Hno [Hi|Hi]%elem_of_app Hg; [|apply generic_items_group in Hi; congruence].
  apply elem_of_post_items in Hi as (p & _ & _ & Hi); [|done].
  apply post_item_Some in Hi as [(_ & _ & Hg') (r & Hr & Hid) _ _].
  assert (Post.ID p = id) as E by congruence. rewrite E in Hr.
  apply elem_of_on_the_post in Hr as [(Hp & _ & k & Hkr) Hon].
  assert (ModerationRecord.PostID r <> Some id) as Hne
    by (intros Hpid; by rewrite (Hno _ _ Hkr Hpid) in Hp).
  unfold ModerationRepository.on_post in Hon.
  rewrite bool_decide_eq_false_2 in Hon by done. cbn in Hon.
  apply existsb_exists in Hon as (pi & Hin%list_elem_of_In & [Hpi Ha]%andb_prop).
  unfold rows_of in Hin.
  apply list_elem_of_fmap in Hin as ([k' pi'] & -> & Hk'%elem_of_map_to_list). apply Z.eqb_eq in Hpi. apply bool_decide_eq_true in Ha.
  by exists k, r, k', pi'.
Qed.

(** C22: renaming or merging a tag takes the text of the posts that have it out of
    moderation.  Each gets a new current version that no moderation record is about.  An
    approved post so shows a version nobody judged.  For a post that waits, no record on its
    text is pending any more: it stays in the queue of the reviewers only while a record on
    one of its images is pending, and the item then stands for that record, never for the
    text; its images can no longer approve it; and the review of the whole post is refused,
    whoever asks and whatever the verdict: it waits until its author edits it. *)
Theorem tag_change_stops_review access tag actor (tx tx' : TxD) id p :
  posts_ok (tx_db tx) -> links_keyed (post_tags (tx_db tx)) -> keyed Tag.ID (tags (tx_db tx)) ->
  tag_change tag actor tx tx' -> posts (tx_db tx) !! id = Some p -> tagged (tx_db tx) id tag ->
  exists p', posts (tx_db tx') !! id = Some p' /\ Post.Status p' = Post.Status p /\
    ~ has_version (tx_db tx) id (Post.CurrentRevision p') /\
    newest (of_revision id (Post.CurrentRevision p')) (tx_db tx') = None /\
    (forall k r, moderation_records (tx_db tx') !! k = Some r -> ModerationRecord.PostID r = Some id ->
       ModerationRepository.pending (tx_db tx') r = false) /\
    (forall label item, item ∈ queue_items label (tx_db tx') -> qi_GroupPostID item = Some id ->
       stands_for_image (tx_db tx') id item) /\
    ModerationRepository.to_approve (tx_db tx') p' = false /\
    (forall input tx2 r tx2', ModerationService.mp_PostID input = id -> tx_db tx2 = tx_db tx' ->
       ModerationService.ManualReviewPost access input tx2 = (r, tx2') -> exists e, r = inl e) /\
    (Post.Status p = PostStatusApproved -> ~ posts_ok (tx_db tx')).
Proof.
  intros Hok Hl Htk Hch Hp Htag. pose proof (ok_posts _ Hok) as Hk.
  destruct (tag_change_versions _ _ _ _ Hk Hl Htk Hch) as
    (affected & now & reason & db1 & [_ Hposts Hrows] & [Wr Hk' Wo Wm _ _ _] & Dp & Dh & Dm).
  apply (Hposts _ _ Hp), list_elem_of_fmap in Htag as (a & -> & Ha).
  destruct (Hrows _ Ha) as [Hpa Hnew]. assert (p = ap_post a) as -> by congruence.
  rewrite <- Dp in Hp. pose proof (Wm _ _ Ha Hp) as Hp'.
  assert (moderation_records (tx_db tx') = moderation_records (tx_db tx)) as Hm
    by (rewrite <- Dm; exact (f_equal moderation_records Wr)).
  set (p' := moved_on (ap_revision a) now (ap_post a)) in *.
  destruct (unjudged_post _ _ _ _ Hok Hm Hk' Hp' Hnew) as (Hnone & Hcur & Hpend).
  exists p'. split_and!; try done.
  - intros label item. by apply queued_by_image.
  - unfold ModerationRepository.to_approve, ModerationRepository.text_verdict.
    change (Post.ID p') with (Post.ID (ap_post a)). rewrite Hnone. apply andb_false_r.
  - intros input tx2 r tx2' Hid Hd E. destruct r as [e|r]; [by exists e|]. exfalso.
    apply review_needs_record in E as (v & m & Hv & Hm'). rewrite Hid, Hd in Hv, Hm'.
    rewrite Hcur in Hv. congruence.
  - intros Hs Hok'. destruct (ok_approved _ Hok' _ _ Hp' Hs) as (k' & r & Hr & Hof & _ & _).
    rewrite Hm in Hr. apply of_revision_spec in Hof as [Hpo Hvo].
    destruct (ok_texts _ Hok _ _ _ Hr Hpo) as (_ & v' & Hv' & Hh).
    change (Post.CurrentRevision p') with (ap_revision a) in Hvo.
    assert (v' = ap_revision a) as -> by congruence. done.
Qed.
End tag_theorems.
