(* ===== verification/ApiExamples.v ===== *)
(** * Administration and the API in one process: runs of the model

    A ban, a role granted and revoked, a tag renamed and a tag merged; Alice, a super
    administrator, logs in and makes Bob a moderator, who may not return the favour; posts
    are read, opened and queued for review.  The hypotheses of the theorems on the
    administration, the API, reading and the review queue met. *)

From S2P Require Import Prelude.
From S2P Require Import GoText.
From S2P Require Import Apierr.
From S2P Require Import Effects.
From S2P Require Import Logic.
From S2P Require Import Authz.
From S2P Require Import Middleware.
From S2P Require Import Model.
From S2P Require Import Validation.
From S2P Require Import Digest.
From S2P Require Import Pagination.
From S2P Require Import AuthRepo.
From S2P Require Import AuthService.
From S2P Require Import AuthHandler.
From S2P Require Import AuthTokens.
From S2P Require Import Notifications.
From S2P Require Import Concrete.
From S2P Require Import Money.
From S2P Require Import PostValidation.
From S2P Require Import PostRepo.
From S2P Require Import Moderation.
From S2P Require Import PostService.
From S2P Require Import CommentService.
From S2P Require Import PostTables.
From S2P Require Import PostProps.
From S2P Require Import PostGate.
From S2P Require Import Bystanders.
From S2P Require Import Names.
From S2P Require Import PostExamples.
From S2P Require Import CommentExamples.
From S2P Require Import DictionaryRepo.
From S2P Require Import DictionaryService.
From S2P Require Import DictionarySystem.
From S2P Require Import Upload.
From S2P Require Import UploadExamples.
From S2P Require Import Administration.
From S2P Require Import AdminUsersProps.
From S2P Require Import AdminTagsProps.
From S2P Require Import PostReads.
From S2P Require Import AdminReads.
From S2P Require Import Endpoints.
From S2P Require Import ApiProps.
From S2P Require Import ReadProps.

Open Scope Z_scope.

Section administration.
Import AdminService AdminTagService.

(** A computed table is keyed by its identifiers. *)
Lemma keyed_table {R} (id : R -> Z) (t : gmap Z R) :
  bool_decide (map_Forall (fun k r => id r = k) t) = true -> keyed id t.
Proof. intros Ht%bool_decide_eq_true_1. exact Ht. Qed.

(** ** Bans and roles *)
Definition admin_unit (op : AdminOp) (w : World DB unit) : (goerr + unit) * World DB unit :=
  RunInTx interp_before (run_admin op) w.
Definition administered (w : World DB unit) (op : AdminOp) : World DB unit := snd (admin_unit op w).

Definition forever : UpdateAdminUserStatusInput :=
  mkStatusInput None (Some true) None (Some " spam "%string) None.
Definition banned0 := RunInTx interp_before (UpdateUserStatus 2 1 forever) w_image.
Definition w_banned : World DB unit := snd banned0.
Definition grants (w : World DB unit) : World DB unit :=
  administered w (OpUserRole 2 1 UserRoleModerator UserRoleActionGrant).
Definition revokes (w : World DB unit) : World DB unit :=
  administered w (OpUserRole 2 1 UserRoleModerator UserRoleActionRevoke).
Definition w_role : World DB unit := grants w_banned.
Definition w_rounds : World DB unit := revokes (grants w_role).

Example banned_and_granted :
  fst banned0 = inr (mkStatusResult 2 false true true None (Some "spam"%string) (Some 1)) /\
  (size (user_ban_records (w_db w_rounds)), size (user_role_records (w_db w_rounds)),
   size (user_roles (w_db w_role)), size (user_roles (w_db w_rounds))) = (1, 2, 1, 0)%nat.
Proof. split; vm_compute; reflexivity. Qed.

(** A ban needs a reason, and unbanning may have none. *)
Example ban_refusals :
  fst (RunInTx interp_before (UpdateUserStatus 2 1
    (mkStatusInput None (Some true) None (Some "  "%string) None)) w_image)
    = inl (EApi (InvalidField "ban_reason" FieldRequired "ban_reason 必填且不能为空")) /\
  fst (RunInTx interp_before (UpdateUserStatus 2 1
    (mkStatusInput (Some true) None None None (Some "sorry"%string))) w_image)
    = inl (EApi (InvalidField "reason" FieldConflict "解封时不能保留 reason")) /\
  fst (RunInTx interp_before (UpdateUserStatus 9 1 forever) w_image)
    = inl (EApi (NotFound BizNotFound "用户")).
Proof. split_and!; vm_compute; reflexivity. Qed.

#[local] Strategy 100 [administered].
#[local] Strategy 100 [after].
Abbreviation office P := (rtc (office_step (X := unit) h0 services1 ia0 P)).

Lemma office_admin_step (P : AdminOp -> Prop) op w : P op -> office P w (administered w op).
Proof. intros Hp. eapply rtc_once, (office_admin _ _ _ _ op); [done|apply surjective_pairing]. Qed.
Lemma office_unit_step P op w : office P w (after op w).
Proof. apply rtc_once, office_others, step_others, step_unit, unit1_step. Qed.

Lemma role_ledger_witness :
  office (fun _ => True) w_image w_rounds /\ balanced (w_db w_image) /\ balanced (w_db w_rounds).
Proof.
  assert (office (fun _ => True) w_image w_rounds) as Hr.
  { transitivity w_banned.
    { eapply rtc_once, (office_admin _ _ _ _ (OpUserStatus 2 1 forever)); [done|].
      instantiate (1 := inr tt). vm_compute. reflexivity. }
    transitivity w_role; [by apply office_admin_step|].
    transitivity (grants w_role); by apply office_admin_step. }
  assert (balanced (w_db w_image)) as Hb by by intros uid role.
  split; [exact Hr|]. split; [exact Hb|].
  exact (lr_balanced _ _ (role_ledger h0 services1 queue0_surroundings ia0 ia0_db _ _ Hr) Hb).
Defined.

(** Bob, banned forever, writes a post and is made a moderator; he stays out. *)
Definition w_later : World DB unit :=
  grants (after (OpCreate (mkCreatePostInput payload0 PostTypeShare None) 1) w_banned).

Lemma banned_run res : fst banned0 = inr res ->
  RunInTx interp_before (UpdateUserStatus 2 1 forever) w_image = (inr res, w_banned).
Proof. intros E. unfold w_banned. rewrite <- E. apply surjective_pairing. Qed.

Lemma ban_locks_out_witness :
  office (spares 2) w_banned w_later /\ all_revoked 2 (w_db w_banned) /\
  (forall login client r tx', Login h0 login client (begin_tx false w_later) = (inr r, tx') ->
     uv_ID (ar_User r) <> 2).
Proof.
  assert (office (spares 2) w_banned w_later) as Hr.
  { etrans; [apply office_unit_step|]. by apply office_admin_step. }
  assert (people_keyed (w_db w_image)) as Hk.
  { apply keyed_table. vm_compute. reflexivity. }
  destruct (fst banned0) as [e|res] eqn:E; [by vm_compute in E|].
  assert (sr_IsBanned res = true /\ sr_BanIsPermanent res = true) as [Hb Hp].
  { vm_compute in E. injection E as <-. by split. }
  destruct (ban_locks_out h0 services1 queue0_surroundings ia0 ia0_db w_image w_banned w_later
    2 1 forever res (begin_tx false w_later) Hk (banned_run res E) Hb Hr eq_refl)
    as (Hv & _ & Hl).
  split; [exact Hr|]. split; [exact Hv|]. intros login client r tx' El Hid.
  destruct (Hl login client r tx' El Hid) as [Hf _]. rewrite Hp in Hf. discriminate Hf.
Defined.


(** ** Tags *)
Definition db_tags : DB := (w_db w_shown)
  <| tags := <[7 := Tag.mk 7 "hot" start_time start_time ModerationStatusPass None]>
       (tags (w_db w_shown)) |>.
Definition w_tags : World DB unit := mkWorld db_tags (w_ctr w_shown) tt.
Definition tx_tags : TxD := begin_tx false w_tags.
Definition spicy : Z := 102.
Definition merged0 := MergeTag spicy 1 7 tx_tags.
Definition renamed0 := RenameTag spicy 1 " mild " tx_tags.

Example tags_run :
  (mr_AffectedPostCount <$> (match fst merged0 with inr r => Some r | _ => None end)) = Some 1 /\
  fst (MergeTag spicy 1 spicy tx_tags) = inl (EApi (InvalidField "target_tag_id" FieldConflict
    "源标签与目标标签不能相同")) /\
  fst (RenameTag spicy 1 "HOT" tx_tags) = inl (EApi (Conflict BizTagNameConflict
    "同名标签已存在，请改用标签合并端点")) /\
  fst (RenameTag 9 1 "mild" tx_tags) = inl (EApi (NotFound BizTagNotFound "标签")).
Proof. split_and!; vm_compute; reflexivity. Qed.

Definition result {A} (r : (goerr + A) * TxD) : option A :=
  match fst r with inr x => Some x | inl _ => None end.
Lemma result_run {A} (r : (goerr + A) * TxD) x : result r = Some x -> r = (inr x, snd r).
Proof. unfold result. destruct r as [[e|y] tx']; [done|]. by intros [= ->]. Qed.

Lemma shown_ok : posts_ok (w_db w_shown).
Proof. repeat (eapply (unit_of_work_sound services1); [apply unit1_run|]). exact w_image_ok. Qed.
Lemma tags_ok : posts_ok (tx_db tx_tags).
Proof.
  assert (view (tx_db tx_tags) = view (w_db w_shown)) as Hv by (vm_compute; reflexivity).
  apply (view_posts_ok _ _ Hv), shown_ok.
Qed.
Lemma tags_keyed : keyed Tag.ID (tags (tx_db tx_tags)).
Proof. apply keyed_table. vm_compute. reflexivity. Qed.
Lemma tags_links : links_keyed (post_tags (tx_db tx_tags)).
Proof.
  enough (bool_decide (map_Forall (fun k pt => k = (PostTag.PostID pt, PostTag.TagID pt))
    (post_tags (tx_db tx_tags))) = true) as Ht by (apply bool_decide_eq_true_1 in Ht; exact Ht).
  vm_compute. reflexivity.
Qed.

Lemma merge_effect_witness :
  tagged (tx_db tx_tags) post0 spicy /\ ~ tagged (tx_db (snd merged0)) post0 spicy /\
  tagged (tx_db (snd merged0)) post0 7.
Proof.
  destruct (result merged0) as [res|] eqn:E; [|by vm_compute in E].
  destruct (merge_effect spicy 1 7 tx_tags res (snd merged0) (ok_posts _ tags_ok) tags_links
    tags_keyed (result_run _ _ E)) as (_ & _ & Ht & _).
  assert (tagged (tx_db tx_tags) post0 spicy) as H0 by (eexists; vm_compute; reflexivity).
  split; [exact H0|]. split; [exact (fun Hn => proj1 (proj1 (Ht post0 spicy) Hn) eq_refl)|].
  refine (proj2 (Ht post0 7) (conj _ (or_intror (conj eq_refl H0)))). discriminate.
Defined.

Definition shown0 : option Post.t := posts (tx_db tx_tags) !! post0.

Lemma tag_change_stops_review_witness :
  (Post.Status <$> shown0) = Some PostStatusApproved /\
  ~ posts_ok (tx_db (snd renamed0)) /\
  forall input tx2, ModerationService.mp_PostID input = post0 -> tx_db tx2 = tx_db (snd renamed0) ->
    exists e, fst (ModerationService.ManualReviewPost DurableAccess input tx2) = inl e.
Proof.
  split; [vm_compute; reflexivity|].
  destruct (result renamed0) as [v|] eqn:E; [|by vm_compute in E].
  destruct shown0 as [p|] eqn:Hp; [|by vm_compute in Hp].
  assert (Post.Status p = PostStatusApproved) as Ha by (vm_compute in Hp; by injection Hp as <-).
  assert (tag_change spicy 1 tx_tags (snd renamed0)) as Hc.
  { left. exists " mild "%string. eexists _, v. split; [vm_compute; reflexivity|]. split.
    - vm_compute in E. by injection E as <-.
    - exact (result_run _ _ E). }
  destruct (tag_change_stops_review DurableAccess spicy 1 tx_tags (snd renamed0) post0 p tags_ok
    tags_links tags_keyed Hc Hp ltac:(eexists; vm_compute; reflexivity))
    as (p' & _ & _ & _ & _ & _ & _ & _ & Hr & Hb).
  split; [exact (Hb Ha)|]. intros input tx2 Hi Hd.
  exact (Hr input tx2 _ _ Hi Hd (surjective_pairing _)).
Defined.
End administration.

Import Router.

(** ** The parameters of the readers and the decoders *)
(** [ILIKE] for a pattern between two wildcards. *)
#[export] Instance like0 : PgLike := fun value pattern =>
  ContainsString (ToLower value) (ToLower (String.substring 1 (String.length pattern - 2) pattern)).
#[export] Instance trending0 : PgTrending := fun weight age =>
  weight * 1000000000 / ((age / 3600000000 + 2) * (age / 3600000000 + 2)).
(** An address before and after its question mark. *)
#[export] Instance urls0 : URLLib := {|
  URL := string * string;
  url_Parse s := let '(base, query, _) := Cut s "?"%char in Some (base, query);
  url_Scheme u := if HasPrefix (fst u) "https://" then "https"%string else ""%string;
  url_RawQuery := snd;
  url_query_keys u := let '(key, _, _) := Cut (snd u) "="%char in [key];
  url_with_RawQuery query u := (fst u, query);
  url_String u := if bool_decide (snd u = ""%string) then fst u else fst u +:+ "?" +:+ snd u;
|}.
(** A bare word is a string. *)
#[export] Instance json0 : JSONLib := {| Unmarshal_string s :=
  if bool_decide (s = "null"%string) then Some None else Some (Some s) |}.
#[export] Instance fields0 : JSONFields := {|
  Unmarshal_int32 s := if bool_decide (s = "null"%string) then Some None
                       else match ParseInt s with Some v => Some (Some v) | None => None end;
  Unmarshal_bool s := if bool_decide (s = "true"%string) then Some (Some true) else None |}.

(** ** The process *)
Definition deps0 : Deps := mkDeps h0 users0 posts0 (NewCursorCodec "secret" "posts") comments1
  (NotificationService.NewCodec "secret") (uploads_with down)
  (DictionaryService.NewDictionaryServiceWithCursorSecret "secret")
  (NewAdminService posts0 (Some storage0) Minute "secret").
Definition serve0 (r : Request) (w : World DB unit) : Response * World DB unit :=
  Register deps0 ia0 None r w.

Definition w_office : World DB unit := mkWorld ((w_db w_shown)
  <| user_roles := {[ (1, UserRoleSuperAdmin) :=
       UserRoleBinding.mk 1 UserRoleSuperAdmin None start_time ]} |>) (w_ctr w_shown) tt.
Definition login (name password : string) : Request :=
  ToAuth info0 (POST_login (Some (mkLoginRequest name password "" ""))).
Definition token_in (r : Response) : string :=
  match r with
  | FromAuth c => match env_Data <$> rc_body c with
                  | [DataOK (PAuth a)] => ar_Token a
                  | _ => ""
                  end
  | _ => ""
  end.
Definition logged_in (name password : string) (w : World DB unit) : string * World DB unit :=
  let '(r, w') := serve0 (login name password) w in (("Bearer " +:+ token_in r)%string, w').

Definition alice_bearer : string := fst (logged_in "alice" "password1" w_office).
Definition w_alice : World DB unit := snd (logged_in "alice" "password1" w_office).
Definition bob_bearer : string := fst (logged_in "bob" "password2" w_alice).
Definition w_both : World DB unit := snd (logged_in "bob" "password2" w_alice).

Definition promote (bearer id : string) : Request :=
  ToAdmin bearer (AdminHandler.PUT_user_role id
    (Some (AdminHandler.mkUserRole UserRoleModerator UserRoleActionGrant))).
Definition ban_alice (bearer : string) : Request :=
  ToAdmin bearer (AdminHandler.PUT_user_status "1" (Some forever)).
Definition w_promoted : World DB unit := snd (serve0 (promote alice_bearer "2") w_both).

Definition status_of (r : Response) : Z :=
  match r with
  | FromAuth c => rc_status c | FromUser c => rc_status c | FromPost c => rc_status c
  | FromComment c => rc_status c | FromNotification c => rc_status c | FromUpload c => rc_status c
  | FromDictionary c => rc_status c | FromAdmin c => rc_status c
  end.

Example promotion :
  status_of (fst (serve0 (promote alice_bearer "2") w_both)) = 200 /\
  size (user_roles (w_db w_promoted)) = 2%nat /\
  status_of (fst (serve0 (promote bob_bearer "2") w_both)) = 403 /\
  status_of (fst (serve0 (promote "Bearer nothing" "2") w_both)) = 401 /\
  status_of (fst (serve0 (ban_alice bob_bearer) w_both)) = 403 /\
  status_of (fst (serve0 (ban_alice bob_bearer) w_promoted)) = 200.
Proof. split_and!; vm_compute; reflexivity. Qed.

(** The filter [is_active] of the users is refused in the name of [is_read]. *)
Definition users_query (active : string) : Request :=
  ToAdmin alice_bearer (AdminHandler.GET_users
    (AdminHandler.mkUsersQuery "" active (mkPaginationQuery "" ""))).
Example is_active_blames_is_read :
  match fst (serve0 (users_query "maybe") w_both) with
  | FromAdmin c => env_Data <$> rc_body c = [DataErrors [mkFieldError "is_read" FieldInvalidFormat
                     "is_read 只能是 true 或 false"]]
  | _ => False
  end /\ status_of (fst (serve0 (users_query "true") w_both)) = 200.
Proof. split; vm_compute; reflexivity. Qed.

#[export] Instance uploads0_quiet : QuietAccess (UploadService.us_access (dp_uploads deps0)).
Proof. exact durable_quiet. Defined.
#[export] Instance posts0_quiet : QuietAccess (ps_imageAccess (dp_posts deps0)).
Proof. exact durable_quiet. Defined.
#[export] Instance admin0_quiet : QuietAccess (ad_imageAccess (dp_admin deps0)).
Proof. exact durable_quiet. Defined.

Lemma office_authority_witness :
  acts_as h0 UserRoleSuperAdmin alice_bearer w_both /\
  exists role, role ∈ [UserRoleModerator; UserRoleSuperAdmin] /\ acts_as h0 role bob_bearer w_promoted.
Proof.
  assert (forall bearer w, size (user_roles (w_db (snd (serve0 (promote bearer "2") w)))) <>
    size (user_roles (w_db w)) -> acts_as h0 UserRoleSuperAdmin bearer w) as Hp.
  { intros bearer w Hn. destruct (proj1 (office_authority deps0 queue0_surroundings ia0 ia0_db None
      (promote bearer "2") w)) as [E|(a & Ha & Hs)].
    - destruct Hn. exact (f_equal (fun x => size (fst x)) E).
    - injection Ha as <-. exact Hs. }
  assert (forall bearer w, size (user_ban_records (w_db (snd (serve0 (ban_alice bearer) w)))) <>
    size (user_ban_records (w_db w)) -> exists role,
      role ∈ [UserRoleModerator; UserRoleSuperAdmin] /\ acts_as h0 role bearer w) as Hb.
  { intros bearer w Hn. destruct (proj2 (office_authority deps0 queue0_surroundings ia0 ia0_db None
      (ban_alice bearer) w)) as [[_ E]|(a & role & Ha & Hr & Hs)].
    - destruct Hn. exact (f_equal size E).
    - injection Ha as <-. exists role. split; [exact Hr|exact Hs]. }
  split; [apply Hp|apply Hb]; vm_compute; discriminate.
Defined.

(** Without a super administrator: Bob tries, and roles stay as they are. *)
Definition w_tries : World DB unit :=
  snd (serve0 (ban_alice "Bearer nothing") (snd (serve0 (promote "Bearer nothing" "2") w_shown))).
Lemma roles_frozen_witness :
  rtc (api_step deps0 ia0) w_shown w_tries /\ role_tables (w_db w_tries) = role_tables (w_db w_shown).
Proof.
  assert (rtc (api_step deps0 ia0) w_shown w_tries) as Hr.
  { eapply rtc_l; [apply (api_request deps0 ia0 None (promote "Bearer nothing" "2"))|].
    apply rtc_once, (api_request deps0 ia0 None (ban_alice "Bearer nothing")). }
  assert (forall uid, user_roles (w_db w_shown) !! (uid, UserRoleSuperAdmin) = None) as Hn.
  { assert (user_roles (w_db w_shown) = ∅) as -> by (vm_compute; reflexivity).
    intros uid. apply lookup_empty. }
  split; [exact Hr|].
  exact (roles_frozen deps0 queue0_surroundings ia0 ia0_db w_shown w_tries Hr Hn).
Defined.

Definition list_posts (sort : string) : Request :=
  ToPost bob_bearer (PostHandler.GET_posts (PostHandler.mkPostsQuery
    (PostHandler.mkFiltersQuery "" "" "" "" "" "" "spicy" "1" "20.5") sort "" (mkPaginationQuery "" "10"))).
Definition listed_titles (r : Response) : list string :=
  match r with
  | FromPost c => match env_Data <$> rc_body c with
                  | [DataOK (PostHandler.PFeed l)] => map PostViews.pi_Title (PostViews.fe_Posts l)
                  | _ => []
                  end
  | _ => []
  end.
Example feed_run :
  listed_titles (fst (serve0 (list_posts "") w_both)) = ["noodles"%string] /\
  listed_titles (fst (serve0 (list_posts "price") w_both)) = ["noodles"%string].
Proof. split; vm_compute; reflexivity. Qed.

Lemma safe_methods_witness :
  only_reads (list_posts "") = true /\
  beside_last_use (w_db (snd (serve0 (list_posts "") w_both))) = beside_last_use (w_db w_both).
Proof.
  assert (forall sort, only_reads (list_posts sort) = true) as Hr by (intros; reflexivity).
  split; [exact (Hr _)|]. exact (safe_methods deps0 ia0 ia0_db None _ w_both (Hr _)).
Defined.

(** ** Reading *)
Definition tx_shown : TxD := begin_tx false w_shown.
Definition posts_cursor : CursorCodec := NewCursorCodec "secret" "posts".
Definition feed_input : PostViews.ListPostsInput :=
  PostViews.mkListPosts "" "" "" "" "" [] ["Spicy"%string] (Some 100) None ""
    (mkParams 1 10) (mkCursorRequest "" 10).
Definition feed0 := PostViews.List_ posts_cursor feed_input 2 tx_shown.

Lemma feed_shows_published_witness :
  (forall l, result feed0 = Some l -> NoDup (map PostViews.pi_ID (PostViews.fe_Posts l))) /\
  (map PostViews.pi_ID ∘ PostViews.fe_Posts <$> result feed0) = Some [post0].
Proof.
  split; [|vm_compute; reflexivity]. intros l E.
  exact (proj1 (proj2 (feed_shows_published posts_cursor feed_input 2 tx_shown l (snd feed0)
    shown_ok (result_run _ _ E)))).
Defined.

Lemma shown_keyed : keyed Post.ID (posts (w_db w_shown)).
Proof. exact (ok_posts _ shown_ok). Qed.
Definition everything : PostReadRepository.PostFilter :=
  PostReadRepository.mkPostFilter None None None None None None [] [] None None "latest".
Definition page0 := PostReadRepository.FindLatestPage everything (mkCursorParams None 1) tx_shown.

Lemma feed_pages_witness :
  match result page0 with
  | Some (rs, _) => length rs = 1%nat /\
      concat [rs] = PostReadRepository.feed everything None (w_db w_shown)
  | None => False
  end.
Proof.
  assert (((fun r => (length (fst r), snd r)) <$> result page0) = Some (1%nat, false)) as Hr
    by (vm_compute; reflexivity).
  destruct (result page0) as [[rs more]|] eqn:E; [|discriminate Hr]. injection Hr as Hl ->.
  split; [exact Hl|].
  exact (proj1 (feed_pages everything (w_db w_shown) shown_keyed 1 [rs] ltac:(lia)
    (last_page everything (w_db w_shown) 1 None tx_shown rs (snd page0) eq_refl (result_run _ _ E)))).
Defined.

Definition detail0 := PostViews.Get post0 2 tx_shown.
Lemma post_detail_effect_witness :
  match result detail0 with
  | Some d => exists p, posts (w_db w_shown) !! post0 = Some p /\
      shows (w_db w_shown) (PostViews.pd_Item d) (answered p)
  | None => False
  end.
Proof.
  destruct (result detail0) as [d|] eqn:E; [|by vm_compute in E].
  destruct (post_detail_effect post0 2 tx_shown d (snd detail0) shown_keyed (result_run _ _ E))
    as (p & Hp & _ & _ & Hs & _).
  exists p. split; [exact Hp|exact Hs].
Defined.
Example detail_run : (PostViews.ps_ViewCount ∘ PostViews.pi_Stats ∘ PostViews.pd_Item <$> result detail0) = Some 1 /\
  (Post.ViewCount <$> posts (tx_db (snd detail0)) !! post0) = Some 1.
Proof. split; vm_compute; reflexivity. Qed.

(** ** The queue: a machine wants the image of a post that waits reviewed *)
Definition wants_review : ModerationRecord.t :=
  ModerationRecord.mk 9 None None (Some 10) None None None None None None "image" "provider" None
    ModerationVerdictReview ["food"%string] None "{}" None None None start_time.
Definition db_waiting : DB := (w_db w_created) <| moderation_records :=
  <[9 := wants_review]> (moderation_records (w_db w_created)) |>.

Example queue_run :
  map AdminReadRepository.qi_GroupPostID (AdminReadRepository.queue_items (Some "food"%string) db_waiting)
    = [Some post0] /\
  AdminReadRepository.queue_items (Some "wood"%string) db_waiting = [].
Proof. split; vm_compute; reflexivity. Qed.

Lemma review_queue_exact_witness :
  post_waits (Some "food"%string) db_waiting post0 /\
  ~ post_waits (Some "wood"%string) db_waiting post0.
Proof.
  assert (keyed Post.ID (posts db_waiting)) as Hp by (apply keyed_table; vm_compute; reflexivity).
  assert (keyed ModerationRecord.ID (moderation_records db_waiting)) as Hr
    by (apply keyed_table; vm_compute; reflexivity).
  split.
  - apply (proj1 (review_queue_exact (Some "food"%string) db_waiting Hp Hr)).
    destruct (AdminReadRepository.queue_items (Some "food"%string) db_waiting) as [|i l] eqn:E;
      [by vm_compute in E|].
    exists i. split; [left|]. vm_compute in E. by injection E as <- _.
  - intros Hw. apply (proj1 (review_queue_exact (Some "wood"%string) db_waiting Hp Hr)) in Hw
      as (i & Hi & _).
    assert (AdminReadRepository.queue_items (Some "wood"%string) db_waiting = []) as E
      by (vm_compute; reflexivity).
    rewrite E in Hi. by apply elem_of_nil in Hi.
Defined.
